(* ===== verification/_CoqProject ===== *)
-Q . S2P
Prelude.v
Binary64.v
Dueling.v
Ledger.v
Crown.v
Emission.v
Blend.v
Tracks.v
ServiceAllocation.v
Epoch.v
PyText.v
Canonical.v
Journal.v
TreasuryStore.v
TreasurySafety.v
TreasuryProgress.v
TreasuryRefinement.v
CapacityPolicy.v
CapacityController.v
CapacityReconcile.v
CollectorPolicy.v
CollectorJournal.v
Collector.v
CollectorFacts.v
CollectorSafety.v
CollectorSamples.v
CollectorSpending.v
CollectorDispatch.v
CollectorHistory.v
CollectorMigration.v
ConfirmationPolicy.v
Decimal.v
ConfirmationReport.v
ConfirmationEvidence.v
ConfirmationEvidenceFacts.v
FloatText.v
ConfirmationStore.v
ConfirmationLane.v
ConfirmationService.v
ConfirmationInvariant.v
ConfirmationMoves.v
ConfirmationSteps.v
ConfirmationSafety.v
ConfirmationProgress.v
ConfirmationReplay.v
ConfirmationRefinement.v
ScoreOrder.v
KothFold.v
KothBoard.v
KothMirror.v
SeedFamily.v
SeedPlan.v
SeedFacts.v
SeedLane.v
