(* ===== verification/Prelude.v ===== *)
(** Verification of seven parts of the SN118 (Ditto) subnet, from the Python
    under [src/].

    * The program

    The platform (a web service over a database) screens and scores submitted
    agents and serves the score ledger.  Its confirmation lane re-measures the
    submissions that may take the crown, within a daily budget, and its
    continual retests run the leading submissions on shared seeds.  Every validator folds that ledger into
    the one weight vector it submits to the chain each epoch; the folds of two
    honest validators have to agree.  A treasury holds part of the emission and
    pays for inference credits through a journaled, operator-reviewed plan.  A
    collector, with one journal per delegated signer, divides what the treasury
    earned on chain among fixed destinations.  A capacity controller adds and
    withholds cloud screeners by demand.  The validator reads the platform's
    ledger, the pin of the treasury and the chain; the two treasury journals and
    the controller each own a local file and act on the outside world only
    through the calls modelled here as replies and effects; the confirmation
    lane is a set of database tables changed by one transaction at a time.

    * The files and the code they model

    [Prelude] (this file): results and exceptions, Python's stable [sorted] over
    three-way comparisons ([CmpOrder]), dicts as association lists, sums.
    [Binary64]: CPython floats bit for bit as integers times 2^-1074, with
    rounding, [sum], [fsum] and the [Libm] class for [exp] and [** 2].

    The weight fold ([ditto/validator/]):
    - [Dueling]: [ditto_screening_protocol/dueling.py], [title_duel.py], the
      owner-masked composite and the sequential title duel;
    - [Ledger]: [LedgerEntry] of [api_models/validator.py] and the accessors,
      filters and efficiency transform of [weights.py];
    - [Crown]: [_beats], [_champion], [_tail] and their bands in [weights.py];
    - [Emission]: [compute_weights] and the router and generator folds;
    - [Blend]: [blend_track_weights], [reassign_unclaimed_shares],
      [split_unpaid_share], [apply_miner_emission_cap] and the two resolvers;
    - [Tracks]: [tracks.py], the registry and its folds;
    - [ServiceAllocation]: [treasury_weight_math.py];
    - [Epoch]: [ValidatorWorker._update_weights] of [worker.py], which composes
      all of the above from one ledger response and one set of chain reads.

    The treasury journal ([ditto/treasury/]):
    - [PyText]: the JSON, pattern and timestamp texts the journals write;
    - [Canonical]: the theory of the canonical JSON text, shared by the digests
      of both journals;
    - [Journal]: [_event] and [verify] of [store.py], the hash chain;
    - [TreasuryStore]: [preflight.py] and every operation of [store.py] as a
      function on the tables [TreasuryDb]; [run] dispatches an [Op], [exec] is
      the transaction with its rollback, [reachable] the files that arise;
    - [TreasurySafety], [TreasuryProgress], [TreasuryRefinement]: its theorems.

    The service collector ([ditto/treasury/collector.py], [manual_batch.py],
    [manual_expiry.py] and the [treasury_manual] protocol modules):
    - [CollectorPolicy]: the signed policy, the canary, the manual intent and the
      approvals, with the checks of their constructors and their decoders, and
      the policy transition of [collector_migration.py];
    - [CollectorJournal]: the tables, every reading of the history (migrations,
      canaries, replacements, intents, claims) and what a receipt still owes;
    - [Collector]: every operation, [tick] to [observe_earning_source], as the
      transaction it commits; [tick] also returns what it broadcasts;
    - [CollectorFacts], [CollectorSafety]: readings of one successful call, and
      the decomposition of every call into the few steps ([Step]) by which a
      journal changes, with the induction over [reachable] journals;
    - [CollectorSamples]: concrete journals for the witnesses;
    - [CollectorSpending], [CollectorDispatch], [CollectorHistory],
      [CollectorMigration]: its theorems.

    The capacity controller
    ([services/screener-orchestrator/screener_capacity/controller.py]):
    - [CapacityPolicy]: [desired_slots], [_parse_provider_routing] and its cached
      form, [gce_overflow_target];
    - [CapacityController]: [_plan_gce_scale_in] and [reconcile] in an effect
      monad over the state file;
    - [CapacityReconcile]: its theorems.

    The platform's projection of the fold ([apps/platform/ditto/]):
    - [ScoreOrder]: [score_order.py], the order of
      submissions, against the class of rows it ranks ([RankableRow]);
    - [KothFold] (module [Koth]): [api_server/koth.py], the
      platform's own implementation of the fold, the board's standings, the
      retest cohort and the round schedule;
    - [KothBoard]: the theorems of the board and of the retest lane;
    - [KothMirror]: the lift of a served ledger and the agreement of the two
      implementations.

    The platform's confirmation lane ([apps/platform/ditto/]):
    - [ConfirmationPolicy]: [api_server/confirmation_bundles.py], the pure policy:
      selection, keys, lifecycle, daily budget, with the selection's theorem;
    - [Decimal], [FloatText]: Python's [decimal] and [repr] of floats, as far as
      the lane uses them;
    - [ConfirmationReport]: the wire models of
      [ditto_screening_protocol/confirmation.py] with every validator;
    - [ConfirmationEvidence]: [api_server/confirmation_evidence.py], the frozen
      profile, the replay of a report and the projection of a subject's score;
      [ConfirmationEvidenceFacts]: its theorems;
    - [ConfirmationStore]: the lane's tables of [db/models.py] with their CHECK
      and UNIQUE constraints and the triggers of the migration that made them;
    - [ConfirmationLane]: the write operations of
      [db/queries/confirmation_bundles.py], the attempt lock, the recovery of
      overdue leases, the fail endpoint and the settlement and completion of a
      report;
    - [ConfirmationService]: the candidate reconciliation, the claim, the report
      endpoint as a whole and the operator's endpoints; [execute] runs one [Transaction] of the lane, and
      [reachable] are the stores that arise from any sequence of them;
    - [ConfirmationInvariant]: [coherent], the invariant of the tables, and the
      elementary [move]s; [ConfirmationMoves], [ConfirmationSteps]: every
      transaction is a sequence of moves;
    - [ConfirmationSafety], [ConfirmationProgress], [ConfirmationReplay],
      [ConfirmationRefinement]: the theorems of the store.

    The continual retests (both sides):
    - [SeedFamily]: [ditto/validator/crn.py] and its mirror in the platform, the
      block binding, the platform's anchors and the validator's pin checks;
    - [SeedPlan]: the target set, the backlog, the wave window, season duels, the
      platform's planner [_top5_confirmation_seed_plan] and the validators'
      [top5_confirmation_set];
    - [SeedFacts]: their theorems; [SeedLane]: the lane of claims and reports as a
      system of steps, with the theorems of its runs.

    * What the theorems show

    The fold does not depend on the order the platform serves rows in
    ([compute_weights_order_independent], [champion_order_independent],
    [plan_order_independent], [duel_pairs_order_independent]); it raises exactly
    on malformed shares ([compute_weights_total]); only eligible, registered, positively scored
    miners, the burn destination and the treasury collector are ever paid
    ([update_weights_recipients]); the crown moves
    only on a real lead, with enough shared evidence and within one season
    ([dethrone_needs_lead], [cross_season_carry_over],
    [gated_beats_evidence], [champion_stands]); shares are conserved by tie
    pooling, hand-over, the burn cap and the service split
    ([pool_implements_groups], [reassign_one_hop], [emission_cap_correct],
    [plan_service_distribution_correct], [service_first_correct]).

    The treasury tables keep an invariant under every sequence of operations
    ([treasury_invariant]); the journal's events are a function of the plan's row,
    so no leg is dispatched twice ([journal_tells_plan], [claim_leg_guarded]);
    the tables refine an abstract payment account, each successful operation being
    the transition its request labels ([journal_refines_account]);
    every plan ends within eleven events ([plan_terminates]) and can be driven to
    the end ([open_plan_completes]) except after an approval whose quote has
    expired, which freezes the table ([expired_approval_freezes], a finding);
    spending stays within the caps and the allocations ([create_plan_bounds]);
    and a changed history under an unchanged head hash exhibits a collision
    ([journal_tamper_evident]).

    The collector pays, over any sequence of calls and any answers of the chain
    adapter, at most what each receipt allots to each bucket and at most what it
    earned ([collector_spends_earnings]), and stays in the signed registration
    budget ([registration_budget_bounds]).  Its journals are append-only, one
    operation pending at most ([journal_append_only]), and typed row by row
    ([journal_well_typed]); the network is handed exactly the recorded bytes,
    once and in order ([broadcasts_are_recorded]).  The checks each call makes of
    the history keep succeeding ([journal_reads_back]), except after a canary
    was replaced under an intent in force, which freezes the journal
    ([replaced_intent_freezes], a finding).  Earlier policies count only up to an
    approved migration row that left them, which changed nothing but the runtime
    ([past_policies_approved]); a transition keeps every spending
    term ([policy_transition_keeps_terms]); stored values decode to themselves
    ([stored_values_decode]); and equal canonical texts of the model's values, whose
    strings are code points below 256, mean equal values ([canonical_same]).

    The controller never removes capacity, adds it only under its lease
    ([pass_never_shrinks]), holds it while it is blind
    ([unreadable_platform_holds]), keeps GCE at zero while the operator has
    closed admission ([gce_target_respects_operator]), and publishes a settled
    decision once ([repeated_pass_silent]).

    The platform's projection and the validators' fold, written twice in the
    repository, agree on mirrored rows: same champion and tail
    ([project_koth_mirrors]), same payout ([emission_allocation_mirrors]).  The
    conditions are the record [served] and [squares_round], and for the payout the
    compiled tail, accepted shares, no unpaid incumbent and no NaN comparison; a
    row with an in-row confirmation bundle beside a complete quorum, which the
    platform can serve, falls outside them and parts the two
    ([KothMirror.legacy_bundle_parts], a finding).  Tie-break scores reorder exact ties only
    ([secondary_only_breaks_ties]); the retest cohort extends the emission set
    within its ceiling ([retest_cohort_extends]); its rounds end, keep coming and
    keep their distance ([rounds_keep_coming]).

    The confirmation lane selects every candidate that could cross the cutoff
    and no other ([selection_complete]); evidence it accepts cost no more than
    its frozen lanes allow ([accepted_evidence_funded]), and the score it
    projects is the weighted mean, rounded once ([projection_correct]).  Over
    any sequence of transactions its tables stay coherent ([lane_invariant]);
    no day issues or spends more than the operator's caps
    ([daily_budget_never_overrun]); a subject counts as fully confirmed only on
    completed, paid evidence that replays ([full_confirmed_sound]); and what was
    accepted never changes ([history_is_append_only]).  A successful claim hands
    out a lease whose reservation covers its lanes
    ([claim_hands_out_a_funded_lease]), an overdue lease is always recovered
    ([overdue_leases_recovered]), a repeated report is answered as before with no
    effect but the reconciliation that follows every report
    ([report_replay_idempotent]), and the rows implement the policy's
    compare-and-swap budget, over-cap settlements included
    ([budget_refines_policy]).  Two comments of the lane
    say otherwise than its code: the policy's lifecycle table lets a failed
    bundle return to pending, and the recovery calls an expired bundle
    retryable, while the tables only ever supersede it.

    A retest seed that no member of the wave has run can always be derived again
    from the block its lease names, and the validator accepts it
    ([fresh_seeds_bind]); distinct comparisons hash distinct messages
    ([crn_message_injective]); the platform and the validators, each with its own
    code, size and order the same target under the same cap
    ([continual_seed_set_mirrors]).  The lane of a reign does bounded work and pays
    for no result twice, also while results of its members arrive from elsewhere
    ([retest_work_bounded]), and when it has nothing to hand out
    the whole cohort has run the whole target ([idle_lane_is_complete]).

    * Models and bounds

    Integers are unbounded as in Python; SQLite columns and sums keep 64 bits and
    raise as sqlite3 does.  Floats are binary64 throughout.  [Libm], [Sha256],
    [LocalZone], [PyRepr], [VerifySignature], [Keypair] and [CollectorChain] are the only
    parameters: the C library's [exp] and square, SHA-256, the host's reading of
    a naive [datetime], [str] of JSON values that are not scalars, the wallet
    library's signature checks, and what the chain adapter answers to one call.  Their instances in the witnesses are
    concrete functions.  Two kinds of loop have fuel: [pool_loop] (of
    [Emission], and its twin of [KothFold]) takes the number of entries, which
    [pool_implements_groups] shows to be enough, and [round_schedule] the tempos of
    the reign, which [round_schedule_total] shows to be enough; the other loops
    are structural or bounded by the code itself ([swap_passes] runs at most one
    pass per entry, as the source does).  Strings are code points below 256.

    * Not modelled, and why

    The treasury pin checks of the epoch (fleet attestations and finalized chain
    reads) enter [Epoch] as their verdict.  Permit and stake reads, the weight
    submission, job lanes and heartbeats of the worker, HTTP, gcloud and
    Substrate transports, SQLite's file permissions and pragmas are external
    I/O; so are the journals' file modes, the copying of a journal between two
    policies' files ([migrate] of [collector_migration.py]), the mailbox of
    [manual_worker.py] and the collector's chain adapter.  The platform's
    endpoints and database beyond its projection and the confirmation lane, the
    treasury executor and schedules, the Go scorer, the TypeScript dashboard, miner clients and infrastructure are
    listed in the manifest as not modelled.

    Of the confirmation lane: the artifact and inference-grant endpoints, the
    preparation of a lease and the columns that record its rejection, the
    listing and calibration reads, authentication and nonces.  The ranked score
    ledger a reconciliation reads, the identifiers the database draws and the
    clock are arguments of the operations; row locks make the transactions that
    share rows serial, so a transaction is one step.

    Of the retests: which member a claim serves, the pinning of anchors from the
    chain, void re-run debts, leases without a seed, the fallback of a claim to a
    planned seed when all are leased, and the tickets, which [SeedLane] keeps as a
    dictionary of live leases; the lane there is that of a reign without season
    duels. *)
From Stdlib Require Import ZArith Lia.
From stdpp Require Import base list gmap strings sorting.

Declare Scope subnet_scope.
Delimit Scope subnet_scope with subnet.
#[global] Open Scope Z_scope.

(** * Fallible code

    Python exceptions become the [Err] branch.  The constructors are the
    exception classes the modelled code raises; the string is the message the
    code passes to the constructor. *)

Inductive exn :=
  | ValueError (msg : string)
  | RuntimeError (msg : string)
  | IntegrityError (msg : string)
  | ControllerError (msg : string)
  | ManualIntentRefused (msg : string)
  | IndexError (msg : string)
  | KeyError (msg : string)
  | TypeError (msg : string)
  | OverflowError (msg : string)
  | OperationalError (msg : string)
  | AttributeError (msg : string)
  | ManualIntentChanged (msg : string)
  | InvalidManualRequest (msg : string)
  | ConfirmationPolicyError (msg : string)
  | BudgetExhausted (reason : string)
  | StaleBudgetSnapshot (msg : string)
  | ConfirmationEvidenceError (msg : string)
  | PersistenceError (msg : string)
  | StaleConfirmationBudget (msg : string)
  | ValidationError (msg : string).

Inductive result (A : Type) :=
  | Ok (a : A)
  | Err (e : exn).
Arguments Ok {A} _.
Arguments Err {A} _.

#[global] Instance exn_eq_dec : EqDecision exn.
Proof. solve_decision. Defined.

#[global] Instance result_ret : MRet result := fun A a => Ok a.
#[global] Instance result_bind : MBind result := fun A B k m =>
  match m with Ok a => k a | Err e => Err e end.

(** [require b e]: the guard [if not b: raise e]. *)
Definition require (b : bool) (e : exn) : result unit :=
  if b then Ok tt else Err e.

Definition is_ok {A} (r : result A) : bool :=
  match r with Ok _ => true | Err _ => false end.

Lemma bind_Ok {A B} (k : A → result B) (m : result A) (b : B) :
  (m ≫= k) = Ok b → ∃ a, m = Ok a ∧ k a = Ok b.
Proof. destruct m; simpl; [eauto | discriminate]. Qed.

Lemma bind_ext {A B} (k k' : A → result B) (m : result A) :
  (∀ a, k a = k' a) → m ≫= k = m ≫= k'.
Proof. intros H. destruct m; [apply H | done]. Qed.

Lemma require_Ok (b : bool) (e : exn) (u : unit) :
  require b e = Ok u → b = true.
Proof. unfold require. destruct b; [done | discriminate]. Qed.

Lemma require_true (b : bool) (e : exn) : b = true → require b e = Ok tt.
Proof. by intros ->. Qed.

(** [inv_ok H] peels one bind, guard or option match off a successful run. *)
Ltac inv_ok_step H :=
  lazymatch type of H with
  | (_ ≫= _) = Ok _ =>
      let a := fresh "a" in let H1 := fresh "Hok" in
      apply bind_Ok in H as (a & H1 & H); inv_ok_step H1
  | require ?b _ = Ok _ => apply require_Ok in H
  | Ok _ = Ok _ => injection H as H; subst
  | Err _ = Ok _ => discriminate H
  | mret _ = Ok _ => unfold mret, result_ret in H; injection H as H; subst
  | match ?x with _ => _ end = Ok _ =>
      let E := fresh "E" in destruct x eqn:E; try discriminate H
  | _ => idtac
  end.
Ltac inv_ok H := repeat (progress inv_ok_step H).

(** Boolean guards to propositions. *)
Ltac bool_to_prop :=
  repeat match goal with
  | H : _ && _ = true |- _ => apply andb_true_iff in H as [? ?]
  | H : _ || _ = false |- _ => apply orb_false_iff in H as [? ?]
  | H : negb _ = true |- _ => apply negb_true_iff in H
  | H : negb _ = false |- _ => apply negb_false_iff in H
  | H : (_ <=? _) = true |- _ => apply Z.leb_le in H
  | H : (_ <=? _) = false |- _ => apply Z.leb_gt in H
  | H : (_ <? _) = true |- _ => apply Z.ltb_lt in H
  | H : (_ <? _) = false |- _ => apply Z.ltb_ge in H
  | H : (_ =? _) = true |- _ => apply Z.eqb_eq in H
  | H : (_ =? _) = false |- _ => apply Z.eqb_neq in H
  | H : bool_decide _ = true |- _ => apply bool_decide_eq_true in H
  | H : bool_decide _ = false |- _ => apply bool_decide_eq_false in H
  end.

(** * Three-way comparisons and Python's stable [sorted] *)

(** A comparison that is a total preorder.  Python compares key tuples
    lexicographically; [cmp_then] and [cmp_by] build such comparisons and the
    instances below close the class under them. *)
Class CmpOrder {A : Type} (cmp : A → A → comparison) : Prop := {
  cmp_opp : ∀ x y, cmp y x = CompOpp (cmp x y);
  cmp_trans : ∀ x y z, cmp x y ≠ Gt → cmp y z ≠ Gt → cmp x z ≠ Gt
}.

Definition cmp_then {A} (c1 c2 : A → A → comparison) (x y : A) : comparison :=
  match c1 x y with Eq => c2 x y | r => r end.
Definition cmp_by {A B} (c : B → B → comparison) (f : A → B) (x y : A) : comparison :=
  c (f x) (f y).
(** The order of a negated key, [-key] in the source. *)
Definition cmp_desc {A} (c : A → A → comparison) (x y : A) : comparison := c y x.
#[global] Typeclasses Opaque cmp_then cmp_by cmp_desc.

Section cmp_theory.
Context {A : Type} (cmp : A → A → comparison) `{!CmpOrder cmp}.

Lemma cmp_refl x : cmp x x = Eq.
Proof. pose proof (cmp_opp (cmp := cmp) x x) as H.
  destruct (cmp x x); [reflexivity | discriminate H | discriminate H]. Qed.

Lemma cmp_eq_sym x y : cmp x y = Eq → cmp y x = Eq.
Proof. intros H. rewrite (cmp_opp (cmp := cmp) x y), H. reflexivity. Qed.

Lemma cmp_lt_gt x y : cmp x y = Lt ↔ cmp y x = Gt.
Proof. rewrite (cmp_opp (cmp := cmp) x y). destruct (cmp x y); simpl; intuition congruence. Qed.

Lemma cmp_lt_trans x y z : cmp x y = Lt → cmp y z ≠ Gt → cmp x z = Lt.
Proof.
  intros H1 H2. assert (cmp x z ≠ Gt) as Hle.
  { eapply cmp_trans; [|exact H2]. by rewrite H1. }
  destruct (cmp x z) eqn:E; [|done|done]. exfalso.
  apply cmp_eq_sym in E.
  assert (cmp y x ≠ Gt) as Hyx by (eapply cmp_trans; [exact H2 | by rewrite E]).
  apply cmp_lt_gt in H1. done.
Qed.

Lemma cmp_trans_lt x y z : cmp x y ≠ Gt → cmp y z = Lt → cmp x z = Lt.
Proof.
  intros H1 H2. assert (cmp x z ≠ Gt) as Hle.
  { eapply cmp_trans; [exact H1|]. by rewrite H2. }
  destruct (cmp x z) eqn:E; [|done|done]. exfalso.
  apply cmp_eq_sym in E.
  assert (cmp z y ≠ Gt) as Hzy by (eapply cmp_trans; [by rewrite E | exact H1]).
  apply cmp_lt_gt in H2. done.
Qed.

Lemma cmp_eq_trans x y z : cmp x y = Eq → cmp y z = Eq → cmp x z = Eq.
Proof.
  intros H1 H2.
  assert (cmp x z ≠ Gt) by (eapply cmp_trans; [by rewrite H1 | by rewrite H2]).
  assert (cmp z x ≠ Gt) as H3.
  { apply cmp_eq_sym in H1, H2. eapply cmp_trans; [by rewrite H2 | by rewrite H1]. }
  rewrite (cmp_opp (cmp := cmp) x z) in H3.
  destruct (cmp x z); simpl in *; congruence.
Qed.
End cmp_theory.

#[global] Instance Zcompare_order : CmpOrder Z.compare.
Proof.
  split; [intros; apply Z.compare_antisym|].
  intros x y z.
  change (x <= y → y <= z → x <= z). lia.
Qed.

#[global] Instance cmp_then_order {A} (c1 c2 : A → A → comparison) :
  CmpOrder c1 → CmpOrder c2 → CmpOrder (cmp_then c1 c2).
Proof.
  intros O1 O2. split; unfold cmp_then.
  - intros x y. rewrite (@cmp_opp _ c1 O1 x y), (@cmp_opp _ c2 O2 x y).
    by destruct (c1 x y).
  - intros x y z.
    destruct (c1 x y) eqn:E1, (c1 y z) eqn:E2; intros H1 H2; try done.
    + rewrite (cmp_eq_trans c1 x y z E1 E2). by eapply cmp_trans.
    + by rewrite (cmp_trans_lt c1 x y z) by (rewrite ?E1; done).
    + by rewrite (cmp_lt_trans c1 x y z) by (rewrite ?E2; done).
    + by rewrite (cmp_lt_trans c1 x y z) by (rewrite ?E2; done).
Qed.

#[global] Instance cmp_by_order {A B} (c : B → B → comparison) (f : A → B) :
  CmpOrder c → CmpOrder (cmp_by c f).
Proof.
  intros O. split; unfold cmp_by; intros *; [apply cmp_opp | apply cmp_trans].
Qed.

#[global] Instance cmp_desc_order {A} (c : A → A → comparison) :
  CmpOrder c → CmpOrder (cmp_desc c).
Proof.
  intros O. split; unfold cmp_desc; intros *; [apply cmp_opp |].
  intros H1 H2. by eapply cmp_trans.
Qed.

(** Python compares strings by code point; identifiers, hotkeys and digests of
    the modelled code are ASCII. *)
Fixpoint str_cmp (a b : string) : comparison :=
  match a, b with
  | EmptyString, EmptyString => Eq
  | EmptyString, String _ _ => Lt
  | String _ _, EmptyString => Gt
  | String x a', String y b' =>
      match N.compare (Ascii.N_of_ascii x) (Ascii.N_of_ascii y) with
      | Eq => str_cmp a' b'
      | r => r
      end
  end.

Lemma str_cmp_Eq a b : str_cmp a b = Eq → a = b.
Proof.
  revert b. induction a as [|x a IH]; intros [|y b]; simpl; try done.
  destruct (N.compare_spec (Ascii.N_of_ascii x) (Ascii.N_of_ascii y)) as [E|E|E]; try done.
  intros H%IH. subst. f_equal.
  by rewrite <- (Ascii.ascii_N_embedding x), <- (Ascii.ascii_N_embedding y), E.
Qed.

#[global] Instance str_cmp_order : CmpOrder str_cmp.
Proof.
  split.
  - induction x as [|x a IH]; intros [|y b]; simpl; try done.
    rewrite (N.compare_antisym (Ascii.N_of_ascii x)).
    destruct (N.compare (Ascii.N_of_ascii x) (Ascii.N_of_ascii y)); simpl; auto.
  - induction x as [|x a IH]; intros [|y b] [|z c]; simpl; try done.
    destruct (N.compare_spec (Ascii.N_of_ascii x) (Ascii.N_of_ascii y)) as [E1|E1|E1],
             (N.compare_spec (Ascii.N_of_ascii y) (Ascii.N_of_ascii z)) as [E2|E2|E2];
      intros H1 H2; try done;
      destruct (N.compare_spec (Ascii.N_of_ascii x) (Ascii.N_of_ascii z)) as [E3|E3|E3];
      try done; try (exfalso; lia).
    by apply (IH b c).
Qed.

Lemma cmp_then_Eq {A} (c1 c2 : A → A → comparison) a b :
  cmp_then c1 c2 a b = Eq → c2 a b = Eq.
Proof. unfold cmp_then. by destruct (c1 a b). Qed.

(** Python's [sorted(l, key=...)]: stable, so inserting the elements one by
    one, each after every element that is not greater, gives the same list. *)
Fixpoint py_insert {A} (cmp : A → A → comparison) (x : A) (l : list A) : list A :=
  match l with
  | [] => [x]
  | y :: l' => match cmp x y with
               | Lt => x :: y :: l'
               | _ => y :: py_insert cmp x l'
               end
  end.
Definition py_sorted {A} (cmp : A → A → comparison) (l : list A) : list A :=
  foldl (fun acc x => py_insert cmp x acc) [] l.

Definition cmp_le {A} (cmp : A → A → comparison) (x y : A) : Prop := cmp x y ≠ Gt.

Section sorting_theory.
Context {A : Type} (cmp : A → A → comparison).

Lemma py_insert_perm x l : py_insert cmp x l ≡ₚ x :: l.
Proof.
  induction l as [|y l IH]; simpl; [done|].
  destruct (cmp x y); [|done|]; rewrite IH; by apply Permutation_swap.
Qed.

Lemma py_sorted_acc_perm l acc :
  foldl (fun acc x => py_insert cmp x acc) acc l ≡ₚ acc ++ l.
Proof.
  revert acc. induction l as [|x l IH]; intros acc; simpl; [by rewrite app_nil_r|].
  rewrite IH, py_insert_perm. simpl. by rewrite Permutation_middle.
Qed.

Lemma py_sorted_perm l : py_sorted cmp l ≡ₚ l.
Proof. apply py_sorted_acc_perm. Qed.

Lemma elem_of_py_sorted x l : x ∈ py_sorted cmp l ↔ x ∈ l.
Proof. by rewrite py_sorted_perm. Qed.

Lemma length_py_sorted l : length (py_sorted cmp l) = length l.
Proof. by rewrite py_sorted_perm. Qed.

Context `{!CmpOrder cmp}.

Lemma py_insert_sorted x l :
  StronglySorted (cmp_le cmp) l → StronglySorted (cmp_le cmp) (py_insert cmp x l).
Proof.
  induction 1 as [|y l Hl IH Hy]; simpl; [repeat constructor|].
  assert (cmp x y ≠ Lt → StronglySorted (cmp_le cmp) (y :: py_insert cmp x l)) as Hgo.
  { intros Hxy. constructor; [done|]. rewrite py_insert_perm. constructor; [|done].
    unfold cmp_le. intros Hgt. apply cmp_lt_gt in Hgt; done. }
  destruct (cmp x y) eqn:E; [by apply Hgo | | by apply Hgo].
  constructor; [by constructor|]. constructor; [by unfold cmp_le; rewrite E|].
  eapply Forall_impl; [exact Hy|]. intros z Hz.
  unfold cmp_le in *. eapply cmp_trans; [|exact Hz]. by rewrite E.
Qed.

Lemma py_sorted_sorted l : StronglySorted (cmp_le cmp) (py_sorted cmp l).
Proof.
  unfold py_sorted. assert (StronglySorted (cmp_le cmp) []) as H by constructor.
  revert H. generalize (@nil A). induction l as [|x l IH]; intros acc Hacc; simpl; [done|].
  by apply IH, py_insert_sorted.
Qed.

Lemma py_insert_last x l : Forall (λ y, cmp_le cmp y x) l → py_insert cmp x l = l ++ [x].
Proof.
  induction 1 as [|y l Hy _ IH]; [done|]. cbn. rewrite IH.
  destruct (cmp x y) eqn:E; [done|by apply cmp_lt_gt in E|done].
Qed.

Lemma py_sorted_id l : StronglySorted (cmp_le cmp) l → py_sorted cmp l = l.
Proof.
  unfold py_sorted. enough (∀ acc, StronglySorted (cmp_le cmp) (acc ++ l) →
    foldl (λ acc x, py_insert cmp x acc) acc l = acc ++ l) as H by (apply (H [])).
  induction l as [|x l IH]; intros acc Hs; cbn; [by rewrite app_nil_r|].
  rewrite py_insert_last.
  - rewrite IH, <- app_assoc; [done|]. by rewrite <- app_assoc.
  - clear IH. induction acc as [|a acc IH]; [done|]. apply StronglySorted_inv in Hs as [Hs Ha].
    constructor; [|by apply IH]. eapply Forall_forall; [exact Ha|].
    apply elem_of_app. right. left.
Qed.

Lemma py_sorted_twice l : py_sorted cmp (py_sorted cmp l) = py_sorted cmp l.
Proof. apply py_sorted_id, py_sorted_sorted. Qed.

(** Keys are distinct on the list, so no two of its elements compare equal. *)
Definition key_distinct (l : list A) : Prop :=
  ∀ x y, x ∈ l → y ∈ l → cmp x y = Eq → x = y.

Lemma key_distinct_perm l1 l2 : l1 ≡ₚ l2 → key_distinct l1 → key_distinct l2.
Proof. intros Hp H x y Hx Hy. apply H; by rewrite Hp. Qed.

Lemma key_distinct_incl l1 l2 : l1 ⊆ l2 → key_distinct l2 → key_distinct l1.
Proof. intros Hp H x y Hx Hy. apply H; by apply Hp. Qed.

(** Sorting is a function of the multiset when the keys are distinct. *)
Lemma py_sorted_perm_eq l1 l2 :
  l1 ≡ₚ l2 → key_distinct l1 → py_sorted cmp l1 = py_sorted cmp l2.
Proof.
  intros Hp Hd. apply (StronglySorted_unique_strong (cmp_le cmp));
    [|apply py_sorted_sorted..|by rewrite !py_sorted_perm].
  intros x y Hx Hy Hxy Hyx. apply Hd.
  - by apply elem_of_py_sorted.
  - rewrite Hp. by apply elem_of_py_sorted.
  - unfold cmp_le in *. rewrite (cmp_opp (cmp := cmp) x y) in Hyx.
    destruct (cmp x y); simpl in *; congruence.
Qed.

Lemma py_sorted_head_min x l r :
  py_sorted cmp l = x :: r → ∀ y, y ∈ l → cmp x y ≠ Gt.
Proof.
  intros E y Hy. pose proof (py_sorted_sorted l) as Hs. rewrite E in Hs.
  apply elem_of_py_sorted in Hy. rewrite E in Hy.
  apply elem_of_cons in Hy as [->|Hy]; [by rewrite cmp_refl|].
  inversion_clear Hs as [|?? ? Hf]. by eapply Forall_forall in Hf.
Qed.
End sorting_theory.

(** * Python dictionaries in insertion order

    Where the code iterates a [dict], the iteration order is the insertion
    order, so a dictionary is an association list with distinct keys. *)

Section dict.
Context {K V : Type} `{EqDecision K}.

Fixpoint dict_get (k : K) (d : list (K * V)) : option V :=
  match d with
  | [] => None
  | (k', v) :: d' => if decide (k = k') then Some v else dict_get k d'
  end.
Fixpoint dict_set (k : K) (v : V) (d : list (K * V)) : list (K * V) :=
  match d with
  | [] => [(k, v)]
  | (k', v') :: d' =>
      if decide (k = k') then (k', v) :: d' else (k', v') :: dict_set k v d'
  end.
(** [{k: v for ...}]: later pairs overwrite earlier ones, keys keep the
    position of their first insertion. *)
Definition dict_of (l : list (K * V)) : list (K * V) :=
  foldl (fun d kv => dict_set kv.1 kv.2 d) [] l.

Lemma dict_get_set k v d k' :
  dict_get k' (dict_set k v d) = if decide (k' = k) then Some v else dict_get k' d.
Proof.
  induction d as [|[k0 v0] d IH]; simpl; [by repeat case_decide|].
  destruct (decide (k = k0)) as [->|]; simpl; rewrite ?IH; by repeat case_decide; subst.
Qed.

Lemma elem_of_keys_dict_set k v d k' :
  k' ∈ (dict_set k v d).*1 ↔ k' = k ∨ k' ∈ d.*1.
Proof.
  induction d as [|[k0 v0] d IH]; simpl; [by rewrite elem_of_cons|].
  case_decide; subst; simpl; rewrite !elem_of_cons, ?IH; tauto.
Qed.

Lemma NoDup_dict_set k v d : NoDup d.*1 → NoDup (dict_set k v d).*1.
Proof.
  induction d as [|[k0 v0] d IH]; simpl; [intros; apply NoDup_singleton|].
  intros Hnd. apply NoDup_cons in Hnd as [Hk Hnd].
  case_decide; subst; simpl; apply NoDup_cons; split; auto.
  rewrite elem_of_keys_dict_set. intros [->|?]; done.
Qed.

Lemma NoDup_dict_of l : NoDup (dict_of l).*1.
Proof.
  unfold dict_of. assert (NoDup (@nil (K * V)).*1) as H by constructor.
  revert H. generalize (@nil (K * V)).
  induction l as [|[k v] l IH]; simpl; intros acc Hacc; [done|].
  by apply IH, NoDup_dict_set.
Qed.

Lemma elem_of_keys_foldl_dict_set l acc k :
  k ∈ (foldl (fun d kv => dict_set kv.1 kv.2 d) acc l).*1 ↔ k ∈ acc.*1 ∨ k ∈ l.*1.
Proof.
  revert acc. induction l as [|[k0 v0] l IH]; intros acc; simpl;
    [rewrite elem_of_nil; tauto|].
  rewrite IH, elem_of_keys_dict_set. simpl. rewrite elem_of_cons. tauto.
Qed.

Lemma elem_of_keys_dict_of l k : k ∈ (dict_of l).*1 ↔ k ∈ l.*1.
Proof. unfold dict_of. rewrite elem_of_keys_foldl_dict_set, elem_of_nil. tauto. Qed.

Lemma dict_get_Some_elem k v d : dict_get k d = Some v → (k, v) ∈ d.
Proof.
  induction d as [|[k0 v0] d IH]; simpl; [done|].
  case_decide; [intros [= ->]; subst; left | right; auto].
Qed.

Lemma dict_get_None k d : dict_get k d = None ↔ k ∉ d.*1.
Proof.
  induction d as [|[k' v] d IH]; csimpl; [split; [intros _; apply not_elem_of_nil | done]|].
  rewrite not_elem_of_cons. case_decide; naive_solver.
Qed.

Lemma elem_dict_get k v d : NoDup d.*1 → (k, v) ∈ d → dict_get k d = Some v.
Proof.
  induction d as [|[k0 v0] d IH]; simpl; intros Hnd Hin; [by apply elem_of_nil in Hin|].
  apply NoDup_cons in Hnd as [Hk Hnd]. apply elem_of_cons in Hin as [[= -> ->]|Hin].
  - by rewrite decide_True.
  - rewrite decide_False; [by apply IH|]. intros ->. apply Hk.
    apply list_elem_of_fmap. by exists (k0, v).
Qed.

(** A dict read by key does not depend on its insertion order. *)
Lemma dict_get_perm (d1 d2 : list (K * V)) k :
  NoDup d1.*1 → d1 ≡ₚ d2 → dict_get k d1 = dict_get k d2.
Proof.
  intros Hnd Hp. assert (NoDup d2.*1) as Hnd2 by (by rewrite <- Hp).
  destruct (dict_get k d1) as [v|] eqn:E1.
  - symmetry. apply elem_dict_get; [done|]. rewrite <- Hp. by apply dict_get_Some_elem.
  - destruct (dict_get k d2) as [v|] eqn:E2; [|done].
    apply dict_get_Some_elem in E2. rewrite <- Hp in E2.
    apply elem_dict_get in E2; congruence.
Qed.

(** Inserting fresh keys one after the other keeps the list as it is. *)
Lemma dict_set_fresh k v d : k ∉ d.*1 → dict_set k v d = d ++ [(k, v)].
Proof.
  induction d as [|[k0 v0] d IH]; simpl; intros Hk; [done|].
  apply not_elem_of_cons in Hk as [? ?]. rewrite decide_False by done. by rewrite IH.
Qed.

Lemma foldl_dict_set_NoDup l acc :
  NoDup (acc ++ l).*1 → foldl (fun d kv => dict_set kv.1 kv.2 d) acc l = acc ++ l.
Proof.
  revert acc. induction l as [|[k v] l IH]; intros acc Hnd; simpl; [by rewrite app_nil_r|].
  rewrite dict_set_fresh.
  - rewrite IH; rewrite <- app_assoc; done.
  - rewrite fmap_app in Hnd. apply NoDup_app in Hnd as (_ & Hd & _).
    intros Hk. apply (Hd _ Hk). simpl. left.
Qed.

Lemma dict_get_foldl_other k l acc : k ∉ l.*1 →
  dict_get k (foldl (fun d kv => dict_set kv.1 kv.2 d) acc l) = dict_get k acc.
Proof.
  revert acc. induction l as [|[k' v'] l IH]; intros acc Hk; simpl; [done|].
  apply not_elem_of_cons in Hk as [Hne Hk]. rewrite IH, dict_get_set by done.
  simpl. by rewrite decide_False.
Qed.

(** The value of a key written once. *)
Lemma dict_get_of_once k v l : k ∉ l.*1 → dict_get k (dict_of ((k, v) :: l)) = Some v.
Proof.
  intros Hk. unfold dict_of. simpl. rewrite dict_get_foldl_other by done.
  simpl. by rewrite decide_True.
Qed.

Lemma dict_of_NoDup l : NoDup l.*1 → dict_of l = l.
Proof. intros H. unfold dict_of. by rewrite foldl_dict_set_NoDup. Qed.
End dict.

(** * Lists *)

(** A filter that one key of a duplicate-free dict passes. *)
Lemma filter_single {K V} `{EqDecision K} (d : list (K * V)) (P : K * V → bool) k v :
  NoDup d.*1 → (k, v) ∈ d → P (k, v) = true →
  (∀ k' v', (k', v') ∈ d → k' ≠ k → P (k', v') = false) →
  filter (λ x, P x = true) d = [(k, v)].
Proof.
  induction d as [|[k0 v0] d IH]; intros Hnd Hin HP Ho; [by apply elem_of_nil in Hin|].
  simpl in Hnd. apply NoDup_cons in Hnd as [Hk0 Hnd].
  apply elem_of_cons in Hin as [Heq|Hin].
  - injection Heq as -> ->. rewrite filter_cons_True by done. f_equal.
    assert (Forall (λ x, P x ≠ true) d) as Hall.
    { apply Forall_forall. intros [k' v'] Hin'. rewrite (Ho k' v'); [done | by right |].
      intros ->. apply Hk0. apply list_elem_of_fmap. by exists (k0, v'). }
    clear -Hall. induction Hall as [|x d Hx Hd IH]; [done|]. by rewrite filter_cons_False.
  - rewrite filter_cons_False.
    + apply IH; [done..|]. intros k' v' Hin' Hne. apply Ho; [by right | done].
    + rewrite (Ho k0 v0); [done | left |]. intros ->. apply Hk0.
      apply list_elem_of_fmap. by exists (k, v).
Qed.

Lemma omap_ext_all {A B} (f g : A → option B) (l : list A) :
  (∀ x, x ∈ l → f x = g x) → omap f l = omap g l.
Proof.
  induction l as [|x l IH]; intros H; [done|].
  cbn. rewrite (H x) by left.
  destruct (g x); [f_equal|]; apply IH; intros y Hy; apply H; by right.
Qed.

(** Keep the first element of every key not yet seen: the [seen] loop the folds
    use to pay a hotkey once. *)
Fixpoint distinct_by {A} (key : A → string) (seen : list string) (l : list A) : list A :=
  match l with
  | [] => []
  | e :: l' => if bool_decide (key e ∈ seen) then distinct_by key seen l'
               else e :: distinct_by key (key e :: seen) l'
  end.

Section distinct_by.
Context {A : Type} (key : A → string).

Lemma distinct_by_fresh seen l : Forall (λ e, key e ∉ seen) (distinct_by key seen l).
Proof.
  revert seen. induction l as [|e l IH]; intros seen; simpl; [constructor|].
  case_bool_decide as He; [apply IH|]. constructor; [done|].
  eapply Forall_impl; [apply IH|]. intros x Hx Hin. apply Hx. by right.
Qed.

Lemma distinct_by_sublist seen l : distinct_by key seen l `sublist_of` l.
Proof.
  revert seen. induction l as [|e l IH]; intros seen; simpl; [done|].
  case_bool_decide; [by apply sublist_cons | by apply sublist_skip].
Qed.

Lemma distinct_by_NoDup seen l : NoDup (key <$> distinct_by key seen l).
Proof.
  revert seen. induction l as [|e l IH]; intros seen; simpl; [constructor|].
  case_bool_decide; [done|]. simpl. constructor; [|done].
  intros Hin. apply list_elem_of_fmap in Hin as (x & Hk & Hx).
  pose proof (distinct_by_fresh (key e :: seen) l) as Hf.
  eapply Forall_forall in Hf; [|exact Hx]. apply Hf. rewrite Hk. left.
Qed.

(** Nothing is lost: every key of the list is kept or was already seen. *)
Lemma distinct_by_covers seen l e : e ∈ l →
  key e ∈ seen ∨ key e ∈ (key <$> distinct_by key seen l).
Proof.
  revert seen. induction l as [|x l IH]; intros seen He; simpl; [by apply elem_of_nil in He|].
  apply elem_of_cons in He as [->|He].
  - case_bool_decide; [by left | right; left].
  - case_bool_decide; [by apply IH|]. simpl. rewrite elem_of_cons.
    destruct (IH (key x :: seen) He) as [Hs|]; [|auto].
    apply elem_of_cons in Hs as [->|]; auto.
Qed.
End distinct_by.

(** * Mapping a list to another representation

    Sorting, filtering and searching commute with a map that respects them. *)

Section mapped.
Context {A B : Type} (f : A → B).

Lemma py_insert_fmap (c : B → B → comparison) (c' : A → A → comparison) x (l : list A) :
  (∀ y, y ∈ l → c (f x) (f y) = c' x y) → py_insert c (f x) (f <$> l) = f <$> py_insert c' x l.
Proof.
  induction l as [|y l IH]; intros H; [done|]. cbn. rewrite (H y) by left.
  destruct (c' x y); cbn; [|done|]; f_equal; apply IH; intros z Hz; apply H; by right.
Qed.

Lemma py_sorted_fmap (c : B → B → comparison) (c' : A → A → comparison) (l : list A) :
  (∀ x y, x ∈ l → y ∈ l → c (f x) (f y) = c' x y) →
  py_sorted c (f <$> l) = f <$> py_sorted c' l.
Proof.
  intros H. unfold py_sorted.
  assert (∀ k acc, k ⊆ l → acc ⊆ l →
    foldl (λ acc x, py_insert c x acc) (f <$> acc) (f <$> k) =
    f <$> foldl (λ acc x, py_insert c' x acc) acc k) as Hg.
  { induction k as [|x k IH]; intros acc Hk Hacc; [done|]. cbn.
    assert (x ∈ l) by (apply Hk; left).
    rewrite (py_insert_fmap c c') by (intros y Hy; apply H; auto).
    apply IH; [intros y Hy; apply Hk; by right|].
    intros y Hy. rewrite py_insert_perm in Hy. apply elem_of_cons in Hy as [->|]; auto. }
  apply (Hg l []); [done|]. intros y Hy. by apply elem_of_nil in Hy.
Qed.

Lemma filter_fmap (P : B → Prop) (Q : A → Prop) `{∀ x, Decision (P x)} `{∀ x, Decision (Q x)} (l : list A) :
  (∀ x, x ∈ l → P (f x) ↔ Q x) → filter P (f <$> l) = f <$> filter Q l.
Proof.
  induction l as [|x l IH]; intros Hx; [done|]. rewrite fmap_cons, !filter_cons.
  rewrite IH by (intros y Hy; apply Hx; by right).
  pose proof (Hx x ltac:(left)). repeat case_decide; tauto.
Qed.

Lemma find_fmap (p : B → bool) (q : A → bool) (l : list A) :
  (∀ x, x ∈ l → p (f x) = q x) → List.find p (f <$> l) = f <$> List.find q l.
Proof.
  induction l as [|x l IH]; intros H; [done|]. cbn. rewrite (H x) by left.
  destruct (q x); [done|]. apply IH. intros y Hy. apply H. by right.
Qed.

Lemma existsb_fmap (p : B → bool) (q : A → bool) (l : list A) :
  (∀ x, x ∈ l → p (f x) = q x) → existsb p (f <$> l) = existsb q l.
Proof.
  induction l as [|x l IH]; intros H; [done|]. cbn. rewrite (H x) by left. f_equal.
  apply IH. intros y Hy. apply H. by right.
Qed.

Lemma distinct_by_fmap (key : B → string) seen (l : list A) :
  distinct_by key seen (f <$> l) = f <$> distinct_by (λ x, key (f x)) seen l.
Proof.
  revert seen. induction l as [|x l IH]; intros seen; [done|]. cbn.
  case_bool_decide; [apply IH|]. cbn. by rewrite IH.
Qed.
End mapped.

Lemma py_sorted_ext {A} (c c' : A → A → comparison) (l : list A) :
  (∀ x y, x ∈ l → y ∈ l → c x y = c' x y) → py_sorted c l = py_sorted c' l.
Proof.
  intros H. pose proof (py_sorted_fmap id c c' l H) as E. by rewrite !list_fmap_id in E.
Qed.

(** Filtering a sorted list sorts the filtered one. *)
Lemma filter_py_sorted {A} (cmp : A → A → comparison) `{!CmpOrder cmp} (P : A → Prop)
    `{∀ x, Decision (P x)} (l : list A) :
  key_distinct cmp l → filter P (py_sorted cmp l) = py_sorted cmp (filter P l).
Proof.
  intros Hd.
  apply (StronglySorted_unique_strong (cmp_le cmp)).
  - intros x y Hx Hy Hxy Hyx. apply list_elem_of_filter in Hx as [_ Hx].
    apply elem_of_py_sorted in Hx. apply elem_of_py_sorted, list_elem_of_filter in Hy as [_ Hy].
    apply Hd; [done..|].
    unfold cmp_le in *. rewrite (cmp_opp (cmp := cmp) x y) in Hyx.
    destruct (cmp x y); simpl in *; congruence.
  - pose proof (py_sorted_sorted cmp l) as Hs. revert Hs. generalize (py_sorted cmp l).
    intros s Hs. induction Hs as [|x k Hk IH Hf]; [constructor|].
    rewrite filter_cons. case_decide; [|exact IH]. constructor; [exact IH|].
    apply Forall_forall. intros y [_ Hy]%list_elem_of_filter. by eapply Forall_forall in Hf.
  - exact (py_sorted_sorted cmp (filter P l)).
  - rewrite (py_sorted_perm cmp (filter P l)). by apply filter_Permutation, py_sorted_perm.
Qed.

(** * Sums of integers *)

Fixpoint sum_Z (l : list Z) : Z :=
  match l with [] => 0 | x :: l' => x + sum_Z l' end.

Lemma sum_Z_app l1 l2 : sum_Z (l1 ++ l2) = sum_Z l1 + sum_Z l2.
Proof. induction l1; simpl; lia. Qed.

Lemma sum_Z_perm l1 l2 : l1 ≡ₚ l2 → sum_Z l1 = sum_Z l2.
Proof. induction 1; simpl; lia. Qed.

Lemma sum_Z_nonneg l : Forall (λ z, 0 <= z) l → 0 <= sum_Z l.
Proof. induction 1; simpl; lia. Qed.

(** * SQLite integers *)

(** A value bound to an INTEGER column. *)
Definition sql_int (z : Z) : result Z :=
  if (- 2 ^ 63 <=? z) && (z <? 2 ^ 63) then Ok z
  else Err (OverflowError "Python int too large to convert to SQLite INTEGER").
(** [COALESCE(SUM(column),0)] over nonnegative rows. *)
Definition sql_sum (l : list Z) : result Z :=
  if sum_Z l <? 2 ^ 63 then Ok (sum_Z l) else Err (OperationalError "integer overflow").

Lemma sql_sum_Ok l z : sql_sum l = Ok z → z = sum_Z l.
Proof. unfold sql_sum. intros H. destruct (_ <? _); congruence. Qed.
Lemma sql_int_Ok z z' : sql_int z = Ok z' → z' = z ∧ - 2 ^ 63 <= z < 2 ^ 63.
Proof.
  unfold sql_int. intros H. destruct (_ && _) eqn:E; [|discriminate].
  apply andb_true_iff in E as [?%Z.leb_le ?%Z.ltb_lt]. by injection H as <-.
Qed.
