(* ===== verification/Binary64.v ===== *)
(** IEEE 754 binary64 arithmetic, as CPython's [float] computes it.

    Every finite double is an integer multiple of 2^-1074, so a finite value
    is that integer ([Fin z] is z * 2^-1074), beside the two infinities and
    NaN.  The two zeros are one value here: no operation of the modelled code
    can tell them apart (Python raises on division by either zero, and the
    code never reads a sign bit).  Every operation computes the exact result
    and rounds it once, to nearest with ties to even, at 53 bits of precision
    or at the subnormal spacing.

    The arithmetic includes CPython 3.12's [sum], which is compensated, and
    [math.fsum], which is exact.  [math.exp] and [x ** 2] come from the C
    library, which IEEE 754 does not fix to the last bit; they are the members
    of the class [Libm], whose laws state what C documents of them. *)
From Stdlib Require Import ZArith Lia.
From stdpp Require Import base list.
From S2P Require Import Prelude.

Inductive F64 :=
  | Fin (z : Z)
  | PInf
  | NInf
  | NaN.

#[global] Instance F64_eq_dec : EqDecision F64.
Proof. solve_decision. Defined.

(** The spacing: 1.0 is [Fin f64_one]. *)
Definition f64_one : Z := 2 ^ 1074.
(** The first magnitude that overflows, 2^1024. *)
Definition f64_limit : Z := 2 ^ 2098.
Arguments f64_one : simpl never.
Arguments f64_limit : simpl never.

(** ** Rounding a rational *)

(** Fractions are reduced by their common powers of two before they are
    divided: the values do not change and the evaluation stays small. *)
Fixpoint strip (a b : positive) : positive * positive :=
  match a, b with
  | xO a', xO b' => strip a' b'
  | _, _ => (a, b)
  end.
Definition reduce (n d : Z) : Z * Z :=
  match n, d with
  | Zpos a, Zpos b => let '(a, b) := strip a b in (Zpos a, Zpos b)
  | _, _ => (n, d)
  end.
Definition quot (n d : Z) : Z := let '(n, d) := reduce n d in n / d.

(** The integer nearest to [n / d], ties to even; [0 < d]. *)
Definition rne (n d : Z) : Z :=
  let '(n, d) := reduce n d in
  let '(q, r) := Z.div_eucl n d in
  match 2 * r ?= d with
  | Lt => q
  | Gt => q + 1
  | Eq => if Z.even q then q else q + 1
  end.

(** The unit in the last place of a magnitude whose integer part is [q]. *)
Definition ulp (q : Z) : Z := 2 ^ Z.max 0 (Z.log2 q - 52).

(** Round the non-negative rational [n / d] to 53 significant bits. *)
Definition round_pos (n d : Z) : Z :=
  let u := ulp (quot n d) in rne n (d * u) * u.

Definition clip (z : Z) : F64 :=
  if f64_limit <=? z then PInf else if z <=? - f64_limit then NInf else Fin z.

Definition round_Z (n d : Z) : Z :=
  if 0 <=? n then round_pos n d else - round_pos (- n) d.
Definition round (n d : Z) : F64 := clip (round_Z n d).

(** ** Constants and conversions *)

(** A decimal literal [num / den] of the source. *)
Definition flit (num den : Z) : F64 := round (num * f64_one) den.
(** [float(i)] and the implicit conversion of an [int] operand. *)
Definition of_int (i : Z) : F64 := round (i * f64_one) 1.
(** [i / j] on two [int]s is correctly rounded; [j <> 0]. *)
Definition int_truediv (i j : Z) : F64 :=
  if 0 <? j then round (i * f64_one) j else round (- i * f64_one) (- j).

(** ** Operations *)

Definition fneg (x : F64) : F64 :=
  match x with Fin a => Fin (- a) | PInf => NInf | NInf => PInf | NaN => NaN end.
Definition fabs (x : F64) : F64 :=
  match x with Fin a => Fin (Z.abs a) | PInf | NInf => PInf | NaN => NaN end.

Definition fadd (x y : F64) : F64 :=
  match x, y with
  | Fin a, Fin b => round (a + b) 1
  | NaN, _ | _, NaN | PInf, NInf | NInf, PInf => NaN
  | PInf, _ | _, PInf => PInf
  | NInf, _ | _, NInf => NInf
  end.
Definition fsub (x y : F64) : F64 := fadd x (fneg y).

(** Sign of a value, [0] for zero and NaN. *)
Definition fsgn (x : F64) : Z :=
  match x with Fin a => Z.sgn a | PInf => 1 | NInf => -1 | NaN => 0 end.
Definition finf (s : Z) : F64 :=
  match s with Z0 => NaN | Zpos _ => PInf | Zneg _ => NInf end.

Definition fmul (x y : F64) : F64 :=
  match x, y with
  | Fin a, Fin b => round (a * b) f64_one
  | NaN, _ | _, NaN => NaN
  | _, _ => finf (fsgn x * fsgn y)
  end.

(** Strip the common powers of two of a fraction, to keep the numbers small. *)
(** [x / y].  Python raises on a zero divisor; every division of the code is
    guarded, and the zero branch here is never the result of a modelled one. *)
Definition fdiv (x y : F64) : F64 :=
  match x, y with
  | _, Fin Z0 => NaN
  | Fin Z0, Fin _ => Fin 0
  | Fin (Zpos a), Fin (Zpos b) => let '(a, b) := strip a b in round (Zpos a * f64_one) (Zpos b)
  | Fin (Zneg a), Fin (Zneg b) => let '(a, b) := strip a b in round (Zpos a * f64_one) (Zpos b)
  | Fin (Zpos a), Fin (Zneg b) => let '(a, b) := strip a b in round (Zneg a * f64_one) (Zpos b)
  | Fin (Zneg a), Fin (Zpos b) => let '(a, b) := strip a b in round (Zneg a * f64_one) (Zpos b)
  | NaN, _ | _, NaN => NaN
  | Fin _, _ => Fin 0
  | _, Fin _ => finf (fsgn x * fsgn y)
  | _, _ => NaN
  end.

(** [math.sqrt]; Python raises on a negative argument (NaN here). *)
Definition fsqrt (x : F64) : F64 :=
  match x with
  | Fin a =>
      if a <? 0 then NaN else
      let n := a * f64_one in
      let u := 2 ^ Z.max 0 (Z.log2 n / 2 - 52) in
      let m := Z.sqrt (quot n (u * u)) in
      match 4 * n ?= (2 * m + 1) * (2 * m + 1) * (u * u) with
      | Lt => Fin (m * u)
      | Gt => Fin ((m + 1) * u)
      | Eq => if Z.even m then Fin (m * u) else Fin ((m + 1) * u)
      end
  | PInf => PInf
  | _ => NaN
  end.

(** ** Comparisons: false as soon as an operand is NaN *)

Definition fltb (x y : F64) : bool :=
  match x, y with
  | NaN, _ | _, NaN => false
  | Fin a, Fin b => a <? b
  | NInf, NInf => false
  | NInf, _ => true
  | _, PInf => match x with PInf => false | _ => true end
  | _, _ => false
  end.
Definition feqb (x y : F64) : bool :=
  match x, y with
  | Fin a, Fin b => a =? b
  | PInf, PInf | NInf, NInf => true
  | _, _ => false
  end.
Definition fleb (x y : F64) : bool := fltb x y || feqb x y.
Definition fgtb (x y : F64) : bool := fltb y x.
Definition fgeb (x y : F64) : bool := fleb y x.

Definition isfinite (x : F64) : bool := match x with Fin _ => true | _ => false end.
Definition isnan (x : F64) : bool := match x with NaN => true | _ => false end.

(** [max(x, y)] and [min(x, y)] of Python keep the first argument on a tie. *)
Definition py_max (x y : F64) : F64 := if fgtb y x then y else x.
Definition py_min (x y : F64) : F64 := if fltb y x then y else x.

(** The total order that sorting uses on NaN-free keys. *)
Definition frank (x : F64) : Z * Z :=
  match x with NInf => (-1, 0) | Fin a => (0, a) | PInf => (1, 0) | NaN => (2, 0) end.
Definition fcompare : F64 → F64 → comparison :=
  cmp_then (cmp_by Z.compare (λ x, (frank x).1)) (cmp_by Z.compare (λ x, (frank x).2)).

(** ** Sums *)

(** One step of CPython 3.12's [sum] over floats: the running total and the
    Neumaier compensation. *)
Definition sum_step (acc : F64 * F64) (x : F64) : F64 * F64 :=
  let '(s, c) := acc in
  let t := fadd s x in
  let c' := if fgeb (fabs s) (fabs x)
            then fadd c (fadd (fsub s t) x)
            else fadd c (fadd (fsub x t) s) in
  (t, c').
(** [sum(xs)]: the first float is added to the integer 0; the compensation is
    added at the end when it is finite and not zero. *)
Definition py_sum (xs : list F64) : F64 :=
  match xs with
  | [] => Fin 0
  | x :: xs' =>
      let '(s, c) := foldl sum_step (x, Fin 0) xs' in
      if isfinite c && negb (feqb c (Fin 0)) then fadd s c else s
  end.

(** [math.fsum(xs)] on finite values: the exact sum rounded once. *)
Definition fin_part (x : F64) : Z := match x with Fin a => a | _ => 0 end.
Definition fsum (xs : list F64) : F64 :=
  if forallb isfinite xs then round (foldr (λ x s, fin_part x + s) 0 xs) 1
  else foldr fadd (Fin 0) (filter (λ x, isfinite x = false) xs).

(** ** The C mathematical library *)

Class Libm := {
  libm_exp : F64 → F64;
  (** [x ** 2] *)
  libm_sq : F64 → F64;
  (** An exponential and a square are never negative (C's [exp] and [pow]). *)
  libm_exp_nonneg : ∀ x, fltb (libm_exp x) (Fin 0) = false;
  libm_sq_nonneg : ∀ x, fltb (libm_sq x) (Fin 0) = false
}.

(** ** Rounding is monotone and exact on doubles *)

Lemma strip_ratio a b : ∃ k : positive,
  a = (k * (strip a b).1)%positive ∧ b = (k * (strip a b).2)%positive.
Proof.
  revert b. induction a as [a IH|a IH|]; intros [b|b|]; simpl; try (exists 1%positive; done).
  destruct (IH b) as (k & Ha & Hb). exists (2 * k)%positive. simpl strip.
  split; [revert Ha; generalize (strip a b).1 | revert Hb; generalize (strip a b).2]; lia.
Qed.

Lemma reduce_ratio n d : 0 < d →
  ∃ k, 0 < k ∧ 0 < (reduce n d).2 ∧ n = k * (reduce n d).1 ∧ d = k * (reduce n d).2.
Proof.
  intros Hd. destruct n as [|a|a], d as [|b|b]; try lia; simpl; try (exists 1; lia).
  destruct (strip_ratio a b) as (k & Ha & Hb). destruct (strip a b) as [a' b']. simpl in *.
  exists (Zpos k). subst. lia.
Qed.

Lemma quot_eq n d : 0 < d → quot n d = n / d.
Proof.
  intros Hd. destruct (reduce_ratio n d Hd) as (k & Hk & Hd' & Hn & Hdk).
  unfold quot. destruct (reduce n d) as [n' d']. simpl in *. subst.
  by rewrite Z.div_mul_cancel_l by lia.
Qed.

Lemma rne_spec n d : 0 < d →
  - d <= 2 * (n - d * rne n d) <= d ∧
  (Z.abs (2 * (n - d * rne n d)) = d → Z.even (rne n d) = true).
Proof.
  intros Hd. destruct (reduce_ratio n d Hd) as (k & Hk & Hd' & Hn & Hdk).
  unfold rne. destruct (reduce n d) as [n' d']. simpl in Hd', Hn, Hdk.
  match goal with |- - d <= 2 * (n - d * ?q) <= d ∧ _ =>
    cut (- d' <= 2 * (n' - d' * q) <= d' ∧ (Z.abs (2 * (n' - d' * q)) = d' → Z.even q = true));
    [intros [Hb He]; assert (2 * (n - d * q) = k * (2 * (n' - d' * q))) as -> by (subst; ring);
     split; [nia | intros H; apply He; rewrite Z.abs_mul, (Z.abs_eq k) in H by lia; nia]|]
  end.
  clear n d Hd Hn Hdk k Hk. rename n' into n, d' into d, Hd' into Hd.
  pose proof (Z.div_mod n d). pose proof (Z.mod_pos_bound n d Hd).
  unfold Z.div, Z.modulo in *. destruct (Z.div_eucl n d) as [q r].
  assert (n = d * q + r) as Hn by lia. clear H.
  revert Hn H0. intros Hn Hr.
  assert (n - d * q = r) as E0 by lia. assert (n - d * (q + 1) = r - d) as E1 by lia.
  destruct (Z.compare_spec (2 * r) d); [|rewrite ?E0, ?E1; split; [lia|]; intros; exfalso; lia..].
  destruct (Z.even q) eqn:E; rewrite ?E0, ?E1; (split; [lia|]); intros _; [done|].
  by rewrite Z.add_1_r, Z.even_succ, <- Z.negb_even, E.
Qed.

Lemma rne_mono n1 d1 n2 d2 : 0 < d1 → 0 < d2 →
  n1 * d2 <= n2 * d1 → rne n1 d1 <= rne n2 d2.
Proof.
  intros H1 H2 Hle. destruct (rne_spec n1 d1 H1) as [B1 T1], (rne_spec n2 d2 H2) as [B2 T2].
  remember (rne n1 d1) as q1. remember (rne n2 d2) as q2.
  destruct (Z.le_gt_cases q1 q2) as [|Hgt]; [done|exfalso].
  assert (d2 * (2 * (n1 - d1 * q1)) >= d2 * (- d1)) as M1.
  { apply Z.le_ge, Z.mul_le_mono_nonneg_l; lia. }
  assert (d1 * (2 * (n2 - d2 * q2)) <= d1 * d2) as M2.
  { apply Z.mul_le_mono_nonneg_l; lia. }
  assert (d1 * d2 * (q1 - q2 - 1) <= 0) as M3 by lia.
  assert (q1 = q2 + 1) as -> by nia.
  assert (2 * (n1 - d1 * (q2 + 1)) = - d1) as Ht1.
  { destruct (Z.eq_dec (2 * (n1 - d1 * (q2 + 1))) (- d1)); [done|].
    assert (d2 * (2 * (n1 - d1 * (q2 + 1))) >= d2 * (1 - d1)).
    { apply Z.le_ge, Z.mul_le_mono_nonneg_l; lia. } lia. }
  assert (2 * (n2 - d2 * q2) = d2) as Ht2.
  { destruct (Z.eq_dec (2 * (n2 - d2 * q2)) d2); [done|].
    assert (d1 * (2 * (n2 - d2 * q2)) <= d1 * (d2 - 1)).
    { apply Z.mul_le_mono_nonneg_l; lia. } lia. }
  specialize (T1 ltac:(lia)). specialize (T2 ltac:(lia)).
  rewrite Z.add_1_r, Z.even_succ, <- Z.negb_even, T2 in T1. discriminate.
Qed.

Lemma rne_exact k d : 0 < d → rne (k * d) d = k.
Proof. intros Hd. destruct (rne_spec (k * d) d Hd) as [Hb _]. nia. Qed.

Lemma ulp_pos q : 0 < ulp q.
Proof. unfold ulp. apply Z.pow_pos_nonneg; lia. Qed.

Lemma ulp_le q1 q2 : q1 <= q2 → ulp q1 <= ulp q2.
Proof.
  intros H. unfold ulp. apply Z.pow_le_mono_r; [lia|].
  pose proof (Z.log2_le_mono q1 q2 H). lia.
Qed.

Lemma log2_lt_pow2' q e : 0 <= e → Z.log2 q <= e → q < 2 ^ (e + 1).
Proof.
  intros He Hl. destruct (Z.le_gt_cases q 0).
  - assert (0 < 2 ^ (e + 1)) by (apply Z.pow_pos_nonneg; lia). lia.
  - apply Z.log2_lt_pow2; lia.
Qed.

(** An integer part needs at most 53 significand bits at its own unit. *)
Lemma ulp_upper q : q < 2 ^ 53 * ulp q.
Proof.
  unfold ulp. rewrite <- Z.pow_add_r by lia.
  replace (53 + Z.max 0 (Z.log2 q - 52)) with (Z.max 52 (Z.log2 q) + 1) by lia.
  apply log2_lt_pow2'; lia.
Qed.

Lemma ulp_lower q : 1 < ulp q → 2 ^ 52 * ulp q <= q.
Proof.
  unfold ulp. intros H.
  assert (0 < Z.log2 q - 52) as Hl.
  { destruct (Z.le_gt_cases (Z.log2 q - 52) 0); [|done].
    rewrite Z.max_l in H by lia. simpl in H. lia. }
  rewrite Z.max_r, <- Z.pow_add_r by lia.
  replace (52 + (Z.log2 q - 52)) with (Z.log2 q) by lia.
  apply Z.log2_spec.
  destruct (Z.le_gt_cases q 1); [|lia].
  assert (Z.log2 q = 0) by (apply Z.log2_null; lia). lia.
Qed.

Lemma ulp_ratio q1 q2 : ulp q1 < ulp q2 → 2 * ulp q1 <= ulp q2.
Proof.
  unfold ulp. intros H. rewrite <- Z.pow_succ_r by lia.
  apply Z.pow_le_mono_r; [lia|]. apply Z.pow_lt_mono_r_iff in H; lia.
Qed.

Lemma round_pos_mono n1 d1 n2 d2 : 0 < d1 → 0 < d2 → 0 <= n1 →
  n1 * d2 <= n2 * d1 → round_pos n1 d1 <= round_pos n2 d2.
Proof.
  intros Hd1 Hd2 Hn Hle. unfold round_pos. rewrite !quot_eq by done.
  assert (n1 / d1 <= n2 / d2) as Hq.
  { apply Z.div_le_lower_bound; [lia|].
    pose proof (Z.mul_div_le n1 d1 Hd1). nia. }
  pose proof (ulp_pos (n1 / d1)) as Hu1. pose proof (ulp_pos (n2 / d2)) as Hu2.
  pose proof (ulp_upper (n1 / d1)) as Hup.
  pose proof (ulp_lower (n2 / d2)) as Hlow. pose proof (ulp_ratio (n1 / d1) (n2 / d2)) as Hr.
  pose proof (ulp_le _ _ Hq) as Hu.
  remember (ulp (n1 / d1)) as u1. remember (ulp (n2 / d2)) as u2.
  pose proof (Z.mul_div_le n2 d2 Hd2). pose proof (Z.mul_succ_div_gt n1 d1 Hd1).
  destruct (Z.eq_dec u1 u2) as [<-|Hne].
  { apply Z.mul_le_mono_nonneg_r; [lia|]. apply rne_mono; nia. }
  specialize (Hr ltac:(lia)). specialize (Hlow ltac:(lia)).
  assert (rne n1 (d1 * u1) <= 2 ^ 53) as B1.
  { rewrite <- (rne_exact (2 ^ 53) (d1 * u1)) by nia. apply rne_mono; [nia..|].
    apply Z.mul_le_mono_nonneg_r; nia. }
  assert (2 ^ 52 <= rne n2 (d2 * u2)) as B2.
  { rewrite <- (rne_exact (2 ^ 52) (d2 * u2)) by nia. apply rne_mono; [nia..|].
    apply Z.mul_le_mono_nonneg_r; nia. }
  change (2 ^ 53) with (2 * 2 ^ 52) in B1. nia.
Qed.

Lemma round_pos_nonneg n d : 0 < d → 0 <= n → 0 <= round_pos n d.
Proof.
  intros Hd Hn. transitivity (round_pos 0 1); [by vm_compute|].
  apply round_pos_mono; lia.
Qed.

Lemma round_Z_mono n1 d1 n2 d2 : 0 < d1 → 0 < d2 →
  n1 * d2 <= n2 * d1 → round_Z n1 d1 <= round_Z n2 d2.
Proof.
  intros Hd1 Hd2 Hle. unfold round_Z.
  destruct (Z.leb_spec 0 n1), (Z.leb_spec 0 n2).
  - by apply round_pos_mono.
  - nia.
  - pose proof (round_pos_nonneg (- n1) d1). pose proof (round_pos_nonneg n2 d2). lia.
  - apply -> Z.opp_le_mono. apply round_pos_mono; lia.
Qed.

(** A finite double: a multiple of its own unit, below the overflow limit. *)
Definition rep (z : Z) : Prop :=
  (ulp (Z.abs z) | Z.abs z) ∧ Z.abs z < f64_limit.
Definition valid (x : F64) : Prop := match x with Fin z => rep z | _ => True end.

#[global] Instance rep_dec z : Decision (rep z).
Proof.
  unfold rep. apply and_dec; [|apply _].
  destruct (decide (Z.abs z mod ulp (Z.abs z) = 0)) as [H|H]; [left|right].
  - apply Z.mod_divide; [|done]. pose proof (ulp_pos (Z.abs z)). lia.
  - intros Hd. apply H, Z.mod_divide; [|done]. pose proof (ulp_pos (Z.abs z)). lia.
Defined.
#[global] Instance valid_dec x : Decision (valid x).
Proof. destruct x; simpl; apply _. Defined.

Lemma round_pos_exact z : 0 <= z → (ulp z | z) → round_pos z 1 = z.
Proof.
  intros Hz [k Hk]. unfold round_pos. rewrite quot_eq, Z.div_1_r, Z.mul_1_l by lia.
  pose proof (ulp_pos z). rewrite Hk at 1. rewrite rne_exact by done. lia.
Qed.

Lemma round_Z_rep z : rep z → round_Z z 1 = z.
Proof.
  intros [Hd _]. unfold round_Z. destruct (Z.leb_spec 0 z).
  - rewrite Z.abs_eq in Hd by done. by apply round_pos_exact.
  - rewrite Z.abs_neq in Hd by lia. rewrite round_pos_exact by (done || lia). lia.
Qed.

Lemma clip_rep z : rep z → clip z = Fin z.
Proof.
  intros [_ Hl]. unfold clip.
  destruct (Z.leb_spec f64_limit z); [lia|]. by destruct (Z.leb_spec z (- f64_limit)); [lia|].
Qed.

Lemma round_rep z : rep z → round z 1 = Fin z.
Proof. intros H. unfold round. rewrite round_Z_rep by done. by apply clip_rep. Qed.

(** ** The order *)

#[global] Instance fcompare_order : CmpOrder fcompare.
Proof. apply cmp_then_order; apply cmp_by_order, Zcompare_order. Qed.

Lemma fltb_irrefl x : fltb x x = false.
Proof. destruct x; simpl; try done. apply Z.ltb_irrefl. Qed.

Lemma feqb_refl x : isnan x = false → feqb x x = true.
Proof. destruct x; simpl; try done. intros _. apply Z.eqb_refl. Qed.

Lemma feqb_true x y : feqb x y = true → x = y.
Proof. destruct x, y; simpl; try done. intros H. apply Z.eqb_eq in H. by subst. Qed.

Lemma fleb_refl x : isnan x = false → fleb x x = true.
Proof. intros H. unfold fleb. rewrite feqb_refl by done. apply orb_true_r. Qed.

Lemma fleb_Fin a b : fleb (Fin a) (Fin b) = true ↔ a <= b.
Proof.
  unfold fleb; simpl. rewrite orb_true_iff, Z.ltb_lt, Z.eqb_eq. lia.
Qed.

Lemma fleb_fltb_false x y : fleb x y = true → fltb y x = false.
Proof.
  unfold fleb. destruct x, y; simpl; try done.
  rewrite orb_true_iff, Z.ltb_lt, Z.eqb_eq, Z.ltb_ge. lia.
Qed.

Lemma fltb_false_fleb x y :
  isnan x = false → isnan y = false → fltb y x = false → fleb x y = true.
Proof.
  unfold fleb. destruct x, y; simpl; try done.
  rewrite orb_true_iff, Z.ltb_lt, Z.eqb_eq, Z.ltb_ge. lia.
Qed.

Lemma fleb_trans x y z : fleb x y = true → fleb y z = true → fleb x z = true.
Proof.
  unfold fleb. destruct x, y, z; simpl; try done.
  rewrite !orb_true_iff, !Z.ltb_lt, !Z.eqb_eq. lia.
Qed.

Lemma fltb_fleb_trans x y z : fltb x y = true → fleb y z = true → fltb x z = true.
Proof.
  unfold fleb. destruct x, y, z; simpl; try done.
  rewrite !orb_true_iff, !Z.ltb_lt, !Z.eqb_eq. lia.
Qed.

Lemma fleb_not_nan x y : fleb x y = true → isnan x = false ∧ isnan y = false.
Proof. by destruct x, y. Qed.

Lemma fcompare_Eq x y : isnan x = false → isnan y = false → fcompare x y = Eq → x = y.
Proof.
  unfold fcompare, cmp_then, cmp_by. destruct x, y; simpl; try done.
  intros _ _ H. apply Z.compare_eq in H. by subst.
Qed.

Lemma fcompare_Eq_any x y : fcompare x y = Eq → x = y.
Proof.
  unfold fcompare, cmp_then, cmp_by. destruct x, y; simpl; try done.
  intros H. apply Z.compare_eq in H. by subst.
Qed.

Lemma fcompare_Lt x y : isnan x = false → isnan y = false →
  fcompare x y = Lt ↔ fltb x y = true.
Proof.
  unfold fcompare, cmp_then, cmp_by. destruct x, y; simpl; try done.
  by rewrite Z.ltb_lt, Z.compare_lt_iff.
Qed.

(** ** Monotonicity of rounded addition *)

Lemma clip_mono a b : a <= b → fleb (clip a) (clip b) = true.
Proof.
  intros H. unfold clip. assert (0 < f64_limit) by (unfold f64_limit; lia).
  repeat case_match; bool_to_prop; try done; try lia. by apply fleb_Fin.
Qed.

Lemma round_mono n1 d1 n2 d2 : 0 < d1 → 0 < d2 →
  n1 * d2 <= n2 * d1 → fleb (round n1 d1) (round n2 d2) = true.
Proof. intros. by apply clip_mono, round_Z_mono. Qed.

Lemma isnan_round n d : isnan (round n d) = false.
Proof. unfold round, clip. by repeat case_match. Qed.

(** Adding is monotone in its second argument. *)
Lemma fadd_mono_r a x y :
  isfinite a = true → fleb x y = true → fleb (fadd a x) (fadd a y) = true.
Proof.
  destruct a as [a| | |]; try done. intros _ H.
  destruct x as [x| | |], y as [y| | |]; simpl in *; try done.
  - apply fleb_Fin in H. apply round_mono; lia.
  - pose proof (isnan_round (a + x) 1). by destruct (round (a + x) 1).
  - pose proof (isnan_round (a + y) 1). by destruct (round (a + y) 1).
Qed.

(** A double plus a non-negative number is at least that double. *)
Lemma fadd_nonneg_ge x y :
  valid x → isfinite x = true → fleb (Fin 0) y = true → fleb x (fadd x y) = true.
Proof.
  destruct x as [x| | |]; try done. intros Hv _ Hy.
  pose proof (fadd_mono_r (Fin x) (Fin 0) y eq_refl Hy) as H.
  simpl fadd at 1 in H. by rewrite Z.add_0_r, round_rep in H.
Qed.

(** A double plus a non-positive number is at most that double. *)
Lemma fadd_nonpos_le x y :
  valid x → isfinite x = true → fleb y (Fin 0) = true → fleb (fadd x y) x = true.
Proof.
  destruct x as [x| | |]; try done. intros Hv _ Hy.
  pose proof (fadd_mono_r (Fin x) y (Fin 0) eq_refl Hy) as H.
  simpl (fadd _ (Fin 0)) in H. by rewrite Z.add_0_r, round_rep in H.
Qed.

(** ** Signs *)

Lemma rep_0 : rep 0.
Proof. split; [by apply Z.divide_0_r | by unfold f64_limit]. Qed.

Lemma round_nonneg n d : 0 < d → 0 <= n → fleb (Fin 0) (round n d) = true.
Proof.
  intros Hd Hn. pose proof (round_mono 0 1 n d ltac:(lia) Hd ltac:(lia)) as H.
  by rewrite round_rep in H by apply rep_0.
Qed.

Lemma fmul_nonneg x y : isfinite x = true → isfinite y = true →
  fleb (Fin 0) x = true → fleb (Fin 0) y = true → fleb (Fin 0) (fmul x y) = true.
Proof.
  destruct x as [a| | |], y as [b| | |]; try done. intros _ _.
  rewrite !fleb_Fin. intros Ha Hb. simpl. apply round_nonneg; [done|]. nia.
Qed.

Lemma fadd_nonneg x y :
  fleb (Fin 0) x = true → fleb (Fin 0) y = true → fleb (Fin 0) (fadd x y) = true.
Proof.
  destruct x as [a| | |], y as [b| | |]; try done.
  rewrite !fleb_Fin. intros Ha Hb. simpl. apply round_nonneg; lia.
Qed.

Lemma fsqrt_nonneg x : fleb (Fin 0) x = true → fleb (Fin 0) (fsqrt x) = true.
Proof.
  destruct x as [a| | |]; try done. rewrite fleb_Fin. intros Ha.
  unfold fsqrt. destruct (Z.ltb_spec a 0); [lia|].
  set (u := 2 ^ _). assert (0 < u) as Hu by (apply Z.pow_pos_nonneg; lia).
  pose proof (Z.sqrt_nonneg (quot (a * f64_one) (u * u))) as Hm. revert Hm.
  generalize (Z.sqrt (quot (a * f64_one) (u * u))). intros m Hm.
  repeat case_match; apply fleb_Fin; nia.
Qed.

Lemma py_max_ge_l x y : isnan x = false → fleb x (py_max x y) = true.
Proof.
  intros H. unfold py_max, fgtb. destruct (fltb x y) eqn:E; [|by apply fleb_refl].
  unfold fleb. by rewrite E.
Qed.

Lemma py_min_nonneg x y :
  fleb (Fin 0) x = true → fleb (Fin 0) y = true → fleb (Fin 0) (py_min x y) = true.
Proof. unfold py_min. by case_match. Qed.

Lemma isnan_fcompare_dec (x y : F64) : {fltb x y = true} + {fltb x y = false}.
Proof. destruct (fltb x y); auto. Qed.

(** ** Results are doubles *)

Lemma ulp_divides q1 q2 : q1 <= q2 → (ulp q1 | ulp q2).
Proof.
  intros H. unfold ulp. pose proof (Z.log2_le_mono q1 q2 H).
  exists (2 ^ (Z.max 0 (Z.log2 q2 - 52) - Z.max 0 (Z.log2 q1 - 52))).
  rewrite <- Z.pow_add_r by lia. f_equal. lia.
Qed.

Lemma ulp_divides_multiple k u : (∃ e, 0 <= e ∧ u = 2 ^ e) → 0 <= k <= 2 ^ 53 →
  (ulp (k * u) | k * u).
Proof.
  intros (e & He & ->) Hk.
  destruct (Z.eq_dec k (2 ^ 53)) as [->|Hne].
  - rewrite <- Z.pow_add_r by lia. unfold ulp. rewrite Z.log2_pow2 by lia.
    rewrite Z.max_r by lia. exists (2 ^ 52). rewrite <- Z.pow_add_r by lia. f_equal. lia.
  - transitivity (2 ^ e); [|by exists k].
    unfold ulp. destruct (Z.eq_dec k 0) as [->|Hk0].
    { rewrite Z.mul_0_l. exists (2 ^ e). change (Z.max 0 (Z.log2 0 - 52)) with 0. by rewrite Z.mul_1_r. }
    rewrite Z.log2_mul_pow2 by lia.
    assert (Z.log2 k < 53) by (apply Z.log2_lt_pow2; lia).
    exists (2 ^ (e - Z.max 0 (e + Z.log2 k - 52))).
    rewrite <- Z.pow_add_r by lia. f_equal. lia.
Qed.

Lemma round_pos_ulp n d : 0 < d → 0 <= n → (ulp (round_pos n d) | round_pos n d).
Proof.
  intros Hd Hn. unfold round_pos. rewrite quot_eq by done.
  pose proof (ulp_pos (n / d)) as Hu.
  pose proof (ulp_upper (n / d)) as Hup. pose proof (Z.mul_succ_div_gt n d Hd).
  apply ulp_divides_multiple.
  - eexists. split; [|reflexivity]. lia.
  - remember (ulp (n / d)) as u.
    assert (0 < d * u) as Hdu by (apply Z.mul_pos_pos; lia). split.
    + rewrite <- (rne_exact 0 (d * u)) by done. apply rne_mono; [done..|].
      rewrite Z.mul_0_l. apply Z.mul_nonneg_nonneg; lia.
    + rewrite <- (rne_exact (2 ^ 53) (d * u)) by nia. apply rne_mono; [nia..|].
      apply Z.mul_le_mono_nonneg_r; nia.
Qed.

Lemma round_valid n d : 0 < d → valid (round n d).
Proof.
  intros Hd. unfold round, clip.
  destruct (Z.leb_spec f64_limit (round_Z n d)) as [|H1]; [done|].
  destruct (Z.leb_spec (round_Z n d) (- f64_limit)) as [|H2]; [done|].
  split; [|lia]. clear H1 H2. unfold round_Z. destruct (Z.leb_spec 0 n).
  - pose proof (round_pos_nonneg n d Hd ltac:(done)).
    rewrite Z.abs_eq by done. by apply round_pos_ulp.
  - pose proof (round_pos_nonneg (- n) d Hd ltac:(lia)).
    rewrite Z.abs_opp, Z.abs_eq by done. apply round_pos_ulp; lia.
Qed.

Lemma f64_one_pos : 0 < f64_one.
Proof. by unfold f64_one. Qed.

Lemma fadd_valid x y : valid (fadd x y).
Proof. destruct x, y; simpl; try done. by apply round_valid. Qed.
Lemma finf_valid z : valid (finf z).
Proof. by destruct z. Qed.
Lemma fmul_valid x y : valid (fmul x y).
Proof.
  destruct x, y; unfold fmul; try done; try apply finf_valid.
  apply round_valid, f64_one_pos.
Qed.
Lemma fdiv_valid x y : valid (fdiv x y).
Proof.
  destruct x as [[|a|a]| | |], y as [[|b|b]| | |]; simpl; try done; try apply rep_0;
    destruct (strip a b) as [a' b']; by apply round_valid.
Qed.
Lemma of_int_valid i : valid (of_int i).
Proof. by apply round_valid. Qed.
Lemma int_truediv_round i j : 0 < j → int_truediv i j = round (i * f64_one) j.
Proof. intros Hj. unfold int_truediv. by rewrite (proj2 (Z.ltb_lt 0 j) Hj). Qed.

Lemma int_truediv_valid i j : j ≠ 0 → valid (int_truediv i j).
Proof. intros Hj. unfold int_truediv. case_match; bool_to_prop; apply round_valid; lia. Qed.

(** ** Non-negative or NaN: the sign condition every band satisfies *)

Definition nonneg (x : F64) : Prop := fltb x (Fin 0) = false.

Lemma nonneg_mul x y : nonneg x → nonneg y → nonneg (fmul x y).
Proof.
  unfold nonneg. destruct x as [a| | |], y as [b| | |]; simpl; try done.
  - rewrite !Z.ltb_ge. intros Ha Hb.
    apply fleb_fltb_false, round_nonneg; [apply f64_one_pos | nia].
  - rewrite Z.ltb_ge. intros Ha _. by destruct a; [..|lia].
  - rewrite Z.ltb_ge. intros _ Hb. by destruct b; [..|lia].
Qed.

Lemma nonneg_max x y : nonneg x → nonneg (py_max x y).
Proof.
  unfold nonneg, py_max, fgtb. intros Hx. destruct (fltb x y) eqn:E; [|done].
  destruct x as [a| | |], y as [b| | |]; simpl in *; try done.
  rewrite !Z.ltb_ge in *. rewrite Z.ltb_lt in E. lia.
Qed.

Lemma nonneg_min x y : nonneg x → nonneg y → nonneg (py_min x y).
Proof. unfold py_min. by case_match. Qed.

(** A score strictly above [x + b] with [b] not negative is strictly above [x]. *)
Lemma lead_needed x b y :
  valid x → nonneg b → fltb (fadd x b) y = true → fltb x y = true.
Proof.
  unfold nonneg. intros Hv Hb Hlt. destruct x as [a| | |]; [|by destruct b, y..].
  destruct (isnan b) eqn:Hn; [by destruct b|].
  assert (fleb (Fin a) (fadd (Fin a) b) = true) as Hle.
  { apply fadd_nonneg_ge; [done..|]. by apply fltb_false_fleb. }
  destruct (fltb (Fin a) y) eqn:E; [done|]. exfalso.
  destruct (isnan y) eqn:Hy; [destruct y; by destruct (fadd (Fin a) b)|].
  apply fltb_false_fleb in E; [|done..].
  assert (fleb y (fadd (Fin a) b) = true) as Hc by (by eapply fleb_trans).
  apply fleb_fltb_false in Hc. congruence.
Qed.

(** A rounded sum strictly above another one has the larger addend. *)
Lemma lead_needed_sum r b m :
  nonneg b → fltb (fadd r b) (fadd r m) = true → fltb (Fin 0) m = true.
Proof.
  unfold nonneg. intros Hb Hlt. destruct (fltb (Fin 0) m) eqn:E; [done|exfalso].
  destruct (isnan m) eqn:Hm; [by destruct m, r, b; simpl in *; try done; destruct (round _ _)|].
  destruct (isnan b) eqn:Hn; [by destruct b, r|].
  apply fltb_false_fleb in E, Hb; [|done..].
  pose proof (fleb_trans _ _ _ E Hb) as Hmb.
  destruct r as [a| | |]; [|by destruct b, m..].
  pose proof (fadd_mono_r (Fin a) m b eq_refl Hmb) as Hle.
  apply fleb_fltb_false in Hle. congruence.
Qed.

Lemma round_scale z d : 0 < d → round (z * d) d = round z 1.
Proof.
  intros Hd. unfold round. f_equal. apply Z.le_antisymm; apply round_Z_mono; lia.
Qed.

Lemma rep_multiple k e : 0 <= e → 0 <= k <= 2 ^ 53 → k * 2 ^ e < f64_limit → rep (k * 2 ^ e).
Proof.
  intros He Hk Hl.
  assert (0 <= k * 2 ^ e) by (apply Z.mul_nonneg_nonneg; [lia | apply Z.pow_nonneg; lia]).
  split; rewrite Z.abs_eq by done; [|done].
  apply ulp_divides_multiple; [by exists e | done].
Qed.

Lemma fmul_mono_r a x y : 0 <= a → fleb (Fin x) (Fin y) = true →
  fleb (fmul (Fin a) (Fin x)) (fmul (Fin a) (Fin y)) = true.
Proof.
  intros Ha Hxy%fleb_Fin. apply round_mono; [apply f64_one_pos..|].
  apply Z.mul_le_mono_nonneg_r; [pose proof f64_one_pos; lia|]. by apply Z.mul_le_mono_nonneg_l.
Qed.

Lemma isnan_fmul_pos k x : 0 < k → isnan x = false → isnan (fmul (Fin k) x) = false.
Proof.
  intros Hk Hx. destruct x; try done; [apply isnan_round|..];
    unfold fmul, fsgn; rewrite Z.sgn_pos by done; reflexivity.
Qed.

(** ** A concrete mathematical library

    [1 + x + x^2 / 2], never below zero, for [exp]; the correctly rounded
    product for [x ** 2].  Instances of the theorems are evaluated with it. *)
Definition sample_exp (x : F64) : F64 :=
  py_max (Fin 0) (fadd (fadd (Fin f64_one) x) (fdiv (fmul x x) (Fin (2 * f64_one)))).
Definition sample_sq (x : F64) : F64 := fabs (fmul x x).

Lemma sample_exp_nonneg x : fltb (sample_exp x) (Fin 0) = false.
Proof. by apply nonneg_max. Qed.
Lemma sample_sq_nonneg x : fltb (sample_sq x) (Fin 0) = false.
Proof. unfold sample_sq. destruct (fmul x x) as [z| | |]; simpl; [|done..]. apply Z.ltb_ge. lia. Qed.

Definition sample_libm : Libm := {|
  libm_exp := sample_exp; libm_sq := sample_sq;
  libm_exp_nonneg := sample_exp_nonneg; libm_sq_nonneg := sample_sq_nonneg |}.

(** ** Agreement with the arithmetic on concrete doubles

    The doubles nearest to 0.1, 0.2 and 0.3, by their significands. *)
Definition dbl (m e : Z) : F64 := Fin (m * 2 ^ (e + 1074)).

Example flit_tenth : flit 1 10 = dbl 7205759403792794 (-56).
Proof. vm_compute. reflexivity. Qed.
(** 0.1 + 0.2 is 0.30000000000000004, one unit above 0.3. *)
Example fadd_tenths :
  fadd (flit 1 10) (flit 2 10) = dbl 5404319552844596 (-54) ∧
  flit 3 10 = dbl 5404319552844595 (-54).
Proof. split; vm_compute; reflexivity. Qed.
Example fdiv_third : fdiv (of_int 1) (of_int 3) = dbl 6004799503160661 (-54).
Proof. vm_compute. reflexivity. Qed.
Example fsqrt_two : fsqrt (of_int 2) = dbl 6369051672525773 (-52).
Proof. vm_compute. reflexivity. Qed.

(** Constants stay folded in proofs; [vm_compute] still evaluates them. *)
#[global] Opaque flit of_int int_truediv.
