(* ===== verification/Dueling.v ===== *)
(** The dueling bench and the title duel:
    [packages/ditto-screening-protocol/ditto_screening_protocol/dueling.py] and
    [title_duel.py].

    A bench >= 16 composite is a datagen half plus generator columns, each owned
    by somebody; a comparison of two agents masks the columns either owner
    contributed.  The title duel accumulates masked per-seed differences across
    seasons and compares their mean with a frozen boundary. *)
From Stdlib Require Import ZArith Lia.
From stdpp Require Import base list gmap strings sorting.
From S2P Require Import Prelude Binary64.

Definition DUELING_MIN_BENCH_VERSION : Z := 16.
Definition DUELING_SLICE_COLUMNS : Z := 5.
Definition DUELING_COLUMN_WEIGHT : F64 := flit 1 10.

Definition is_dueling_bench_version (bench_version : Z) : bool :=
  DUELING_MIN_BENCH_VERSION <=? bench_version.

Record DuelingColumnAggregate := {
  column_id : string;
  col_owner_key : string;
  col_n : Z;
  col_sum : F64;
  col_sum_sq : F64;
  substituted : bool
}.

(** [_substituted_is_unowned]: the constructor's validator. *)
Definition column_valid (c : DuelingColumnAggregate) : result unit :=
  require (negb (substituted c && negb (bool_decide (col_owner_key c = ""))))
    (ValueError "a substituted column carries the public default and has no owner") ≫= λ _,
  require (negb ((col_n c =? 0) &&
      (negb (feqb (col_sum c) (Fin 0)) || negb (feqb (col_sum_sq c) (Fin 0)))))
    (ValueError "a column with no cases has zero sums").

(** [DuelingColumnAggregate.mean] *)
Definition col_mean (c : DuelingColumnAggregate) : F64 :=
  if col_n c <=? 0 then Fin 0 else fdiv (col_sum c) (of_int (col_n c)).

Definition column_cmp : DuelingColumnAggregate → DuelingColumnAggregate → comparison :=
  cmp_by str_cmp column_id.

Definition counted_column (mask : gset string) (c : DuelingColumnAggregate) : bool :=
  bool_decide (col_owner_key c = "") || negb (bool_decide (col_owner_key c ∈ mask)).

Definition _counted (columns : list DuelingColumnAggregate) (mask : gset string)
    : list DuelingColumnAggregate :=
  py_sorted column_cmp (filter (λ c, counted_column mask c = true) columns).

Definition dueling_composite (datagen_raw datagen_gate : F64)
    (columns : list DuelingColumnAggregate) (mask : gset string) : F64 :=
  let w := DUELING_COLUMN_WEIGHT in
  let counted := _counted columns mask in
  let generator := foldl (λ g c, fadd g (fmul w (col_mean c))) (Fin 0) counted in
  let share := fsub (of_int 1) (fmul w (of_int (Z.of_nat (length counted)))) in
  let inner := fadd (fmul share datagen_raw) generator in
  fmul datagen_gate inner.

(** One column's term of the stratified variance; [None] is [continue]. *)
Definition stratum (c : DuelingColumnAggregate) : option F64 :=
  if col_n c <? 2 then None else
  let n := of_int (col_n c) in
  let ss := fsub (col_sum_sq c) (fdiv (fmul (col_sum c) (col_sum c)) n) in
  let variance := fdiv ss (fsub n (of_int 1)) in
  let variance := if fltb variance (Fin 0) || isnan variance then Fin 0 else variance in
  Some (fdiv variance n).

Definition dueling_composite_stderr (datagen_stderr datagen_gate : F64)
    (columns : list DuelingColumnAggregate) (mask : gset string) : F64 :=
  let w := DUELING_COLUMN_WEIGHT in
  let counted := _counted columns mask in
  let strata := foldl (λ s c, match stratum c with Some t => fadd s t | None => s end)
                  (Fin 0) counted in
  let share := fsub (of_int 1) (fmul w (of_int (Z.of_nat (length counted)))) in
  let datagen_var := fmul (fmul share share) (fmul datagen_stderr datagen_stderr) in
  let total := fadd datagen_var (fmul (fmul w w) strata) in
  fmul datagen_gate (fsqrt total).

Record DuelingReport := {
  season_id : string;
  season_index : Z;
  rep_owner_key : string;
  datagen_raw : F64;
  datagen_gate : F64;
  column_weight : F64;
  columns : list DuelingColumnAggregate
}.

(** [DuelingReport._contract]: the fixed weight and the unique ids c0..c4. *)
Definition report_contract (r : DuelingReport) : result unit :=
  require (feqb (column_weight r) DUELING_COLUMN_WEIGHT)
    (ValueError "column_weight must be the contract weight 0.1") ≫= λ _,
  require (bool_decide
      (py_sorted str_cmp (column_id <$> columns r) = ["c0"; "c1"; "c2"; "c3"; "c4"]))
    (ValueError "dueling columns must be the unique ids c0..c4 (challenge.CheckDuelingColumns)").

Definition report_composite (r : DuelingReport) (mask : gset string) : F64 :=
  dueling_composite (datagen_raw r) (datagen_gate r) (columns r) mask.
Definition self_composite (r : DuelingReport) : F64 :=
  report_composite r {[ rep_owner_key r ]}.

(** * The title duel *)

Definition TITLE_DUEL_WINDOW_PAIRS : Z := 15.

Definition TITLE_DUEL_BOUNDARY : list (Z * F64) :=
  [(3, flit 6965 1000); (4, flit 4541 1000); (5, flit 3747 1000); (6, flit 3365 1000);
   (7, flit 3143 1000); (8, flit 2998 1000); (9, flit 2896 1000); (10, flit 2821
   1000); (11, flit 2764 1000); (12, flit 2718 1000); (13, flit 2681 1000); (14, flit
   2650 1000); (15, flit 2624 1000)].

Record DuelPair := {
  pair_season_index : Z;
  pair_season_id : string;
  pair_seed : Z;
  pair_challenger : F64;
  pair_champion : F64
}.
Definition difference (p : DuelPair) : F64 := fsub (pair_challenger p) (pair_champion p).

Record DuelStatistic := {
  pairs : list DuelPair;
  mean_difference : F64;
  champion_reference : F64;
  standard_error : F64
}.
Definition count (s : DuelStatistic) : Z := Z.of_nat (length (pairs s)).

Definition season_seed_key (season_id : string) (season_index seed : Z)
    : string * Z * Z := (season_id, season_index, seed).

(** Median of the collected values; [sorted] then the middle, or the mean of
    the two middle values. *)
Definition median (values : list F64) : F64 :=
  let ordered := py_sorted fcompare values in
  let middle := (length ordered / 2)%nat in
  if Nat.odd (length ordered) then default NaN (ordered !! middle)
  else fdiv (fadd (default NaN (ordered !! (middle - 1)%nat))
                  (default NaN (ordered !! middle))) (of_int 2).

(** [(season_id, seed) -> (season_index, median)], in insertion order. *)
Definition records : Type := list ((string * Z) * (Z * F64)).

Definition group_step (g : list ((string * Z) * (list F64 * gset Z)))
    (v : (string * Z * Z) * F64) : list ((string * Z) * (list F64 * gset Z)) :=
  let '((sid, index, seed), value) := v in
  let key := (sid, seed) in
  let '(samples, indices) := default ([], ∅) (dict_get key g) in
  dict_set key (samples ++ [value], {[ index ]} ∪ indices) g.

(** The pairs whose records agree on the season index, with their median. *)
Definition collapse_group (kv : (string * Z) * (list F64 * gset Z))
    : option ((string * Z) * (Z * F64)) :=
  let '(key, (samples, indices)) := kv in
  match elements indices with
  | [index] => Some (key, (index, median samples))
  | _ => None
  end.
Definition collapse_records (values : list ((string * Z * Z) * F64)) : records :=
  omap collapse_group (foldl group_step [] values).

Definition pair_cmp : DuelPair → DuelPair → comparison :=
  cmp_then (cmp_desc (cmp_by Z.compare pair_season_index))
    (cmp_then (cmp_by str_cmp pair_season_id) (cmp_by Z.compare pair_seed)).

Definition mk_pair (champion : records) (kv : (string * Z) * (Z * F64)) : option DuelPair :=
  let '((sid, seed), (index, value)) := kv in
  match dict_get (sid, seed) champion with
  | Some (index', value') =>
      if index =? index' then Some {| pair_season_index := index; pair_season_id := sid;
        pair_seed := seed; pair_challenger := value; pair_champion := value' |}
      else None
  | None => None
  end.

(** The keys of both dictionaries are visited in an order Python leaves open;
    [duel_pairs_order_independent] shows it does not matter. *)
Definition duel_pairs (challenger champion : records) (window : Z) : list DuelPair :=
  take (Z.to_nat (Z.max 0 window)) (py_sorted pair_cmp (omap (mk_pair champion) challenger)).

Definition duel_statistic `{Libm} (ps : list DuelPair) : option DuelStatistic :=
  if (length ps <? 2)%nat then None else
  let n := of_int (Z.of_nat (length ps)) in
  let differences := difference <$> ps in
  let mean := fdiv (py_sum differences) n in
  let reference := fdiv (py_sum (pair_champion <$> ps)) n in
  let variance := fdiv (py_sum ((λ d, libm_sq (fsub d mean)) <$> differences))
                    (of_int (Z.of_nat (length ps) - 1)) in
  Some {| pairs := ps; mean_difference := mean; champion_reference := reference;
          standard_error := fsqrt (fdiv variance n) |}.

Definition duel_required_lead (statistic : DuelStatistic) (margin_floor : F64) : option F64 :=
  match dict_get (count statistic) TITLE_DUEL_BOUNDARY with
  | None => None
  | Some critical => Some (py_max margin_floor (fmul critical (standard_error statistic)))
  end.

(** * Properties *)

#[global] Instance pair_cmp_order : CmpOrder pair_cmp.
Proof.
  apply cmp_then_order; [apply cmp_desc_order, cmp_by_order, Zcompare_order|].
  apply cmp_then_order; apply cmp_by_order; [apply str_cmp_order | apply Zcompare_order].
Qed.
#[global] Instance column_cmp_order : CmpOrder column_cmp.
Proof. apply cmp_by_order, str_cmp_order. Qed.

Lemma pair_cmp_key p q : pair_cmp p q = Eq →
  pair_season_index p = pair_season_index q ∧ pair_season_id p = pair_season_id q ∧
  pair_seed p = pair_seed q.
Proof.
  unfold pair_cmp, cmp_then, cmp_desc, cmp_by.
  destruct (Z.compare_spec (pair_season_index q) (pair_season_index p)); try done.
  destruct (str_cmp (pair_season_id p) (pair_season_id q)) eqn:E; try done.
  intros Hs%Z.compare_eq. apply str_cmp_Eq in E. auto.
Qed.

Lemma mk_pair_Some champion key index value p :
  mk_pair champion (key, (index, value)) = Some p →
  key = (pair_season_id p, pair_seed p) ∧ index = pair_season_index p ∧
  value = pair_challenger p ∧
  dict_get key champion = Some (pair_season_index p, pair_champion p).
Proof.
  destruct key as [sid seed]. simpl.
  destruct (dict_get (sid, seed) champion) as [[i v]|]; [|done].
  destruct (Z.eqb_spec index i); [|done]. intros [= <-]. by subst.
Qed.

(** The keys of the pairs are those of the challenger's dictionary. *)
Lemma duel_pairs_key_distinct challenger champion :
  NoDup challenger.*1 → key_distinct pair_cmp (omap (mk_pair champion) challenger).
Proof.
  intros Hnd p q Hp Hq Heq. apply pair_cmp_key in Heq as (_ & Hid & Hseed).
  apply list_elem_of_omap in Hp as ([k1 [i1 v1]] & Hin1 & Hp).
  apply list_elem_of_omap in Hq as ([k2 [i2 v2]] & Hin2 & Hq).
  pose proof (mk_pair_Some _ _ _ _ _ Hp) as (Hk1 & _).
  pose proof (mk_pair_Some _ _ _ _ _ Hq) as (Hk2 & _).
  assert (k1 = k2) as <- by congruence.
  apply elem_dict_get in Hin1, Hin2; [|done..]. congruence.
Qed.

(** The pairs of a title duel do not depend on the order in which either
    dictionary is iterated: the shared keys are visited in an order Python
    leaves open, and the sort fixes the result. *)
Lemma duel_pairs_order_independent (ch1 ch2 cp1 cp2 : records) (window : Z) :
  NoDup ch1.*1 → NoDup cp1.*1 → ch1 ≡ₚ ch2 → cp1 ≡ₚ cp2 →
  duel_pairs ch1 cp1 window = duel_pairs ch2 cp2 window.
Proof.
  intros Hn1 Hn2 Hp Hq. unfold duel_pairs. f_equal.
  assert (omap (mk_pair cp1) ch1 = omap (mk_pair cp2) ch1) as ->.
  { apply omap_ext_all. intros [[sid seed] [i v]] _. simpl.
    by rewrite (dict_get_perm _ _ _ Hn2 Hq). }
  apply (py_sorted_perm_eq pair_cmp); [|by apply duel_pairs_key_distinct].
  by apply omap_Permutation.
Qed.

(** The duel keeps at most [window] pairs, newest season first, and every
    pair is a [(season, seed)] both agents scored under the same season index,
    carrying the two recorded values. *)
Lemma duel_pairs_window (challenger champion : records) (window : Z) :
  NoDup challenger.*1 →
  let ps := duel_pairs challenger champion window in
  Z.of_nat (length ps) <= Z.max 0 window ∧
  StronglySorted (cmp_le pair_cmp) ps ∧
  Forall (λ p, dict_get (pair_season_id p, pair_seed p) challenger
                 = Some (pair_season_index p, pair_challenger p) ∧
               dict_get (pair_season_id p, pair_seed p) champion
                 = Some (pair_season_index p, pair_champion p)) ps.
Proof.
  intros Hnd ps. subst ps. unfold duel_pairs. split_and!.
  - rewrite length_take. lia.
  - pose proof (py_sorted_sorted pair_cmp (omap (mk_pair champion) challenger)) as Hs.
    rewrite <- (take_drop (Z.to_nat (Z.max 0 window))) in Hs.
    by apply StronglySorted_app_1_l in Hs.
  - apply Forall_take, Forall_forall. intros p Hp.
    apply elem_of_py_sorted, list_elem_of_omap in Hp as ([k [i v]] & Hin & Hp).
    apply mk_pair_Some in Hp as (-> & -> & -> & Hg). split; [|done].
    by apply elem_dict_get.
Qed.

Lemma boundary_domain n :
  is_Some (dict_get n TITLE_DUEL_BOUNDARY) ↔ 3 <= n <= TITLE_DUEL_WINDOW_PAIRS.
Proof.
  assert (TITLE_DUEL_BOUNDARY.*1 = [3; 4; 5; 6; 7; 8; 9; 10; 11; 12; 13; 14; 15]) as Hk by done.
  unfold TITLE_DUEL_WINDOW_PAIRS. split.
  - intros [c Hc]. apply dict_get_Some_elem, (list_elem_of_fmap_2 fst) in Hc.
    rewrite Hk, !elem_of_cons, elem_of_nil in Hc. simpl in Hc. lia.
  - intros Hr. assert (n ∈ TITLE_DUEL_BOUNDARY.*1) as Hin.
    { rewrite Hk, !elem_of_cons, elem_of_nil. lia. }
    apply list_elem_of_fmap in Hin as ([k c] & -> & Hin). exists c.
    apply elem_dict_get; [|done]. rewrite Hk. by apply (bool_decide_unpack _).
Qed.

(** No boundary exists below three pairs or above the fifteen-pair window,
    so such a comparison can never dethrone; inside it the required lead is at
    least the margin floor. *)
Lemma duel_required_lead_bounds (st : DuelStatistic) (floor : F64) :
  isnan floor = false →
  (is_Some (duel_required_lead st floor) ↔ 3 <= count st <= TITLE_DUEL_WINDOW_PAIRS) ∧
  (∀ lead, duel_required_lead st floor = Some lead → fleb floor lead = true).
Proof.
  intros Hf. unfold duel_required_lead. split.
  - rewrite <- boundary_domain. destruct (dict_get (count st) TITLE_DUEL_BOUNDARY); [|done].
    split; intros; by eexists.
  - intros lead. destruct (dict_get (count st) TITLE_DUEL_BOUNDARY); [|done].
    intros [= <-]. by apply py_max_ge_l.
Qed.

(** The two columns of one owner agree on who owns them and on their place. *)
Definition same_slot (c1 c2 : DuelingColumnAggregate) : Prop :=
  column_id c1 = column_id c2 ∧ col_owner_key c1 = col_owner_key c2.

(** Owner neutrality: replacing the statistics of columns whose owner is
    masked changes neither the composite nor its standard error, so an owner
    cannot move a comparison through its own generator. *)
Lemma composite_owner_neutral (raw gate se : F64) (cs1 cs2 : list DuelingColumnAggregate)
    (mask : gset string) :
  Forall2 (λ c1 c2, same_slot c1 c2 ∧ (counted_column mask c1 = true → c1 = c2)) cs1 cs2 →
  dueling_composite raw gate cs1 mask = dueling_composite raw gate cs2 mask ∧
  dueling_composite_stderr se gate cs1 mask = dueling_composite_stderr se gate cs2 mask.
Proof.
  intros Hf. assert (_counted cs1 mask = _counted cs2 mask) as Hc.
  { unfold _counted. f_equal. induction Hf as [|c1 c2 l1 l2 [[Hi Ho] Heq] Hf IH]; [done|].
    rewrite !filter_cons, IH.
    assert (counted_column mask c2 = counted_column mask c1) as ->
      by (unfold counted_column; by rewrite Ho).
    case_decide as Hd; [|done]. by rewrite Heq. }
  unfold dueling_composite, dueling_composite_stderr. by rewrite Hc.
Qed.

Lemma column_key_distinct cs : NoDup (column_id <$> cs) → key_distinct column_cmp cs.
Proof.
  intros Hnd c1 c2 H1 H2 Heq. apply str_cmp_Eq in Heq.
  induction cs as [|c cs IH]; [by apply elem_of_nil in H1|].
  simpl in Hnd. apply NoDup_cons in Hnd as [Hn Hnd].
  apply elem_of_cons in H1 as [->|H1], H2 as [H2|H2]; subst; try done; [..|by apply IH].
  - destruct Hn. rewrite Heq. by apply list_elem_of_fmap_2.
  - destruct Hn. rewrite <- Heq. by apply list_elem_of_fmap_2.
Qed.

(** A report that passes its contract has the five distinct columns c0 to
    c4, and its composite is the same for every order the columns are served
    in, under every mask: the floating-point sum has one fixed order. *)
Lemma report_composite_order (r : DuelingReport) (cs : list DuelingColumnAggregate)
    (mask : gset string) :
  report_contract r = Ok tt → cs ≡ₚ columns r →
  length (columns r) = Z.to_nat DUELING_SLICE_COLUMNS ∧
  dueling_composite (datagen_raw r) (datagen_gate r) cs mask = report_composite r mask.
Proof.
  intros Hc Hp. unfold report_contract in Hc. inv_ok Hc. bool_to_prop.
  assert (NoDup (column_id <$> columns r)) as Hnd.
  { rewrite <- (py_sorted_perm str_cmp), Hc. by apply (bool_decide_unpack _). }
  split.
  { rewrite <- (length_fmap column_id), <- (length_py_sorted str_cmp), Hc. done. }
  unfold report_composite, dueling_composite.
  assert (_counted cs mask = _counted (columns r) mask) as ->; [|done].
  unfold _counted. apply (py_sorted_perm_eq column_cmp); [by rewrite Hp|].
  apply (key_distinct_incl column_cmp _ cs); [|apply column_key_distinct; by rewrite Hp].
  intros c. by rewrite list_elem_of_filter; intros [_ ?].
Qed.

(** * Concrete instances *)

Definition sample_records (values : list (string * Z * Z * F64)) : records :=
  collapse_records ((λ v, ((v.1.1.1, v.1.1.2, v.1.2), v.2)) <$> values).

(** Three shared pairs in two seasons, and one seed only the challenger has. *)
Definition sample_challenger : records := sample_records
  [("s1", 1, 11, flit 7 10); ("s2", 2, 11, flit 8 10); ("s2", 2, 12, flit 81 100);
   ("s2", 2, 99, flit 1 2)]%string.
Definition sample_champion : records := sample_records
  [("s2", 2, 12, flit 79 100); ("s1", 1, 11, flit 69 100); ("s2", 2, 11, flit 78 100)]%string.

Example sample_pairs :
  (λ p, (pair_season_id p, pair_seed p)) <$> duel_pairs sample_challenger sample_champion 15 =
  [("s2", 11); ("s2", 12); ("s1", 11)]%string.
Proof. vm_compute. reflexivity. Qed.

Lemma duel_pairs_order_independent_witness :
  duel_pairs sample_challenger sample_champion 2 =
  duel_pairs (rev sample_challenger) (rev sample_champion) 2.
Proof.
  apply (duel_pairs_order_independent sample_challenger (rev sample_challenger)
           sample_champion (rev sample_champion) 2).
  - apply (bool_decide_unpack _). vm_compute. exact I.
  - apply (bool_decide_unpack _). vm_compute. exact I.
  - apply Permutation_rev.
  - apply Permutation_rev.
Defined.

Lemma duel_pairs_window_witness :
  Z.of_nat (length (duel_pairs sample_challenger sample_champion 2)) <= 2.
Proof.
  refine (proj1 (duel_pairs_window sample_challenger sample_champion 2 _)).
  apply (bool_decide_unpack _). vm_compute. exact I.
Defined.

Definition sample_statistic : DuelStatistic := {|
  pairs := duel_pairs sample_challenger sample_champion 15;
  mean_difference := flit 17 1000; champion_reference := flit 75 100;
  standard_error := flit 3 1000 |}.

Lemma duel_required_lead_bounds_witness :
  ∃ lead, duel_required_lead sample_statistic (flit 7 1000) = Some lead ∧
    fleb (flit 7 1000) lead = true.
Proof.
  eexists. split; [vm_compute; reflexivity|].
  refine (proj2 (duel_required_lead_bounds sample_statistic (flit 7 1000) _) _ _);
    vm_compute; reflexivity.
Defined.

Definition sample_column (id owner : string) (sum : F64) : DuelingColumnAggregate := {|
  column_id := id; col_owner_key := owner; col_n := 10; col_sum := sum;
  col_sum_sq := flit 9 2; substituted := false |}.
Definition one_gate : F64 := of_int 1.
Definition sample_columns (c3 : F64) : list DuelingColumnAggregate :=
  [sample_column "c0" "o0" (flit 6 1); sample_column "c1" "o1" (flit 5 1);
   sample_column "c2" "o2" (flit 7 1); sample_column "c3" "alice" c3;
   sample_column "c4" "o4" (flit 4 1)].

Lemma composite_owner_neutral_witness :
  dueling_composite (flit 6 10) one_gate (sample_columns (flit 9 1)) {[ "alice"%string ]} =
  dueling_composite (flit 6 10) one_gate (sample_columns (Fin 0)) {[ "alice"%string ]}.
Proof.
  refine (proj1 (composite_owner_neutral (flit 6 10) one_gate (flit 1 100)
    (sample_columns (flit 9 1)) (sample_columns (Fin 0)) {[ "alice"%string ]} _)).
  repeat (apply Forall2_cons; split; [split; [split; reflexivity|]|]); [..|constructor].
  1-3, 5: intros _; reflexivity.
  intros Hc. exfalso. revert Hc. vm_compute. discriminate.
Defined.

Definition sample_report (owner : string) (raw c3 : F64) : DuelingReport := {|
  season_id := "s2"; season_index := 2; rep_owner_key := owner; datagen_raw := raw;
  datagen_gate := one_gate; column_weight := DUELING_COLUMN_WEIGHT;
  columns := sample_columns c3 |}.

Lemma report_composite_order_witness :
  dueling_composite (flit 6 10) one_gate (rev (sample_columns (flit 9 1))) ∅ =
  report_composite (sample_report "bob" (flit 6 10) (flit 9 1)) ∅.
Proof.
  refine (proj2 (report_composite_order (sample_report "bob" (flit 6 10) (flit 9 1))
    (rev (sample_columns (flit 9 1))) ∅ _ _)).
  - vm_compute. reflexivity.
  - apply Permutation_sym, Permutation_rev.
Defined.
