(* ===== verification/Ledger.v ===== *)
(** The score ledger and the readings the weight fold takes of one entry:
    [ditto/validator/weights.py] (the accessors, the efficiency transform, the
    confirmation histories) over [ditto/api_models/validator.py]'s
    [LedgerEntry].

    A [datetime] is its instant in microseconds, a [UUID] its 128-bit integer
    (both compare as integers in Python), a float a [Binary64.F64]. *)
From Stdlib Require Import ZArith Lia.
From stdpp Require Import base list gmap strings sorting.
From S2P Require Import Prelude Binary64 Dueling.

(** * Constants of [ditto/validator/config.py] *)

Definition KOTH_BAND_DECAY_MIN_BENCH_VERSION : Z := 6.
Definition KOTH_BAND_DECAY_START_COMPOSITE : F64 := flit 60 100.
Definition KOTH_BAND_DECAY_RATE : F64 := flit 2 1.
Definition KOTH_CEILING_HEADROOM_SHARE : F64 := flit 1 2.
Definition KOTH_STATISTICAL_BAND_CAP_MULTIPLE : F64 := flit 2 1.
Definition TOP5_MIN_CONFIRMATION_SEEDS : Z := 8.
Definition TOP5_MAX_CONFIRMATION_SEEDS : Z := 15.
Definition BASIS_POINT_SCALE : Z := 10000.
Definition MIN_ELIGIBLE_CASES : Z := 100.
Definition DEFAULT_BENCH_VERSION : Z := 1.
(** [RECEIPT_CONTRACT_VERSIONS], the epochs of [V9EvidenceBenchVersion]. *)
Definition RECEIPT_CONTRACT_VERSIONS : list Z := [9; 10; 11; 12; 13; 14; 15; 16; 17].

(** * The wire data *)

Record ConfirmationScoreRecord := {
  rec_seed : Z;
  rec_composite : F64;
  rec_bench_version : Z;
  rec_dueling : option DuelingReport
}.

Record LedgerEntry := {
  miner_hotkey : string;
  agent_id : Z;
  composite : F64;
  n_cases : Z;
  first_seen : Z;
  bench_version : option Z;
  score_proofs : list F64;
  composite_stderr : option F64;
  confirmation_composites : option (list F64);
  confirmation_seeds : option (list Z);
  confirmation_history : option (list ConfirmationScoreRecord);
  duel_history : option (list ConfirmationScoreRecord);
  mean_after_quorum : bool;
  efficiency_bonus : option F64;
  efficiency_factor : option F64;
  efficiency_curve_version : option Z;
  v9_confirmation : option Z;
  dueling_season_id : option string;
  dueling : option DuelingReport
}.

Definition one : F64 := of_int 1.
Definition zero : F64 := Fin 0.
(** [0.0 <= x <= 1.0] on a finite value. *)
Definition unit_interval (x : F64) : bool := isfinite x && (fleb zero x && fleb x one).

(** * Versions and eligibility *)

Definition _entry_version (e : LedgerEntry) : Z :=
  match bench_version e with
  | Some v => if 0 <? v then v else DEFAULT_BENCH_VERSION
  | None => DEFAULT_BENCH_VERSION
  end.

Definition max_bench_version (entries : list LedgerEntry) : Z :=
  match _entry_version <$> entries with
  | [] => DEFAULT_BENCH_VERSION
  | v :: vs => foldl Z.max v vs
  end.

Definition _entry_eligible (e : LedgerEntry) : bool := MIN_ELIGIBLE_CASES <=? n_cases e.

Definition _is_dueling_entry (e : LedgerEntry) : bool :=
  is_dueling_bench_version (_entry_version e).

Definition _entry_dueling (e : LedgerEntry) : option DuelingReport := dueling e.

Definition _entry_season (e : LedgerEntry) : option string :=
  match _entry_dueling e with
  | None => None
  | Some report =>
      match dueling_season_id e with
      | None => Some (season_id report)
      | Some season => if bool_decide (season = season_id report) then Some season else None
      end
  end.

Definition _dueling_fold_ready (e : LedgerEntry) : bool :=
  negb (_is_dueling_entry e) || bool_decide (is_Some (_entry_season e)).

Definition filter_eligible (entries : list LedgerEntry) : list LedgerEntry :=
  filter (λ e, _entry_eligible e && _dueling_fold_ready e = true) entries.

Definition dueling_fold_dropped (entries : list LedgerEntry) : list LedgerEntry :=
  filter (λ e, _dueling_fold_ready e = false) entries.

Definition filter_to_latest_version (entries : list LedgerEntry) : list LedgerEntry :=
  let latest := max_bench_version entries in
  filter (λ e, _entry_version e = latest) entries.

Definition has_receipt_contract (e : LedgerEntry) : bool :=
  bool_decide (_entry_version e ∈ RECEIPT_CONTRACT_VERSIONS).
Definition has_receipt (e : LedgerEntry) : bool := bool_decide (is_Some (v9_confirmation e)).

Definition filter_weight_confirmed (enforce : bool) (entries : list LedgerEntry)
    : list LedgerEntry :=
  filter (λ e, negb (has_receipt_contract e) || negb enforce || has_receipt e = true) entries.

Definition _dueling_incomparable (a b : LedgerEntry) : bool :=
  if negb (_is_dueling_entry a && _is_dueling_entry b) then false else
  match _entry_season a with
  | None => true
  | Some season_a =>
      negb (bool_decide (Some season_a = _entry_season b)) ||
      negb (_entry_version a =? _entry_version b)
  end.

Definition _dueling_pair_mask (a b : LedgerEntry) : option (gset string) :=
  if negb (_is_dueling_entry a && _is_dueling_entry b) then None else
  if _dueling_incomparable a b then None else
  match _entry_dueling a, _entry_dueling b with
  | Some ra, Some rb => Some {[ rep_owner_key ra; rep_owner_key rb ]}
  | _, _ => None
  end.

(** * The efficiency transform *)

Definition _efficiency_curve_version (e : LedgerEntry) : Z :=
  match efficiency_curve_version e with
  | Some v => if 3 <=? v then v else 3
  | None => 3
  end.

Definition _bounded_efficiency_factor (e : LedgerEntry) : option F64 :=
  match efficiency_factor e with
  | None => None
  | Some factor =>
      if _entry_version e <? 9 then Some one else
      if (_entry_version e =? 9) && negb (has_receipt e) then Some one else
      if negb (isfinite factor) || fleb factor zero then Some one else
      if (_efficiency_curve_version e <? 4) &&
         negb (fleb (flit 85 100) factor && fleb factor (flit 11 10)) then Some one else
      Some factor
  end.

Definition _efficiency_multiplier (e : LedgerEntry) : F64 :=
  match _bounded_efficiency_factor e with
  | Some factor => factor
  | None =>
      match efficiency_bonus e with
      | None => one
      | Some bonus =>
          if negb (isfinite bonus) || negb (fleb zero bonus && fleb bonus (flit 1 10))
          then one else fadd one bonus
      end
  end.

Definition _efficiency_adjusted_composite (e : LedgerEntry) (quality : F64) : F64 :=
  match _bounded_efficiency_factor e with
  | Some factor =>
      if fleb factor one then fmul quality factor else
      if 4 <=? _efficiency_curve_version e
      then fadd quality (fmul (fsub one quality) (fsub one (fdiv one factor)))
      else fadd quality (fmul (fsub factor one) (fsub one quality))
  | None => fmul quality (_efficiency_multiplier e)
  end.

Definition _effective_score_ceiling (e : LedgerEntry) : F64 :=
  match _bounded_efficiency_factor e with
  | Some factor => if fleb factor one then factor else one
  | None => _efficiency_multiplier e
  end.

Definition _efficiency_stderr_scale (e : LedgerEntry) : F64 :=
  match _bounded_efficiency_factor e with
  | Some factor =>
      if fleb factor one then factor else
      if 4 <=? _efficiency_curve_version e then fdiv one factor
      else fsub (flit 2 1) factor
  | None => _efficiency_multiplier e
  end.

Definition _quality_primary_efficiency_active (entries : list LedgerEntry) : bool :=
  existsb (λ e, bool_decide (is_Some (_bounded_efficiency_factor e))) entries.

(** * Confirmation evidence *)

(** The median of [sorted(values)]; shared with the title duel. *)
Definition _median (values : list F64) : F64 := median values.

Definition _entry_confirmations (e : LedgerEntry) : option (list F64) :=
  match confirmation_composites e with
  | None => None
  | Some v =>
      if (length v <? 2)%nat then None else
      if forallb unit_interval v then Some v else None
  end.

(** [grouped.setdefault(seed, []).append(value)] *)
Definition group_seed (g : list (Z * list F64)) (sv : Z * F64) : list (Z * list F64) :=
  let '(seed, value) := sv in
  dict_set seed (default [] (dict_get seed g) ++ [value]) g.

Definition seed_cmp {V} : Z * V → Z * V → comparison := cmp_by Z.compare fst.

Definition _entry_confirmation_history (e : LedgerEntry) : option (list (Z * F64)) :=
  match confirmation_history e with
  | None | Some [] => None
  | Some recs =>
      let usable := omap (λ r, if (rec_seed r <? 0) || negb (unit_interval (rec_composite r))
                               then None else Some (rec_seed r, rec_composite r)) recs in
      match foldl group_seed [] usable with
      | [] => None
      | grouped =>
          let collapsed := prod_map id _median <$> grouped in
          Some (take (Z.to_nat TOP5_MAX_CONFIRMATION_SEEDS) (py_sorted seed_cmp collapsed))
      end
  end.

Definition _continual_composite (e : LedgerEntry) : F64 :=
  let history := _entry_confirmation_history e in
  let legacy :=
    match (match history with
           | Some h => Some (py_sorted fcompare h.*2)
           | None => _entry_confirmations e
           end) with
    | Some vals => if (length vals <? 2)%nat then composite e else _median vals
    | None => composite e
    end in
  match history with
  | Some h =>
      if mean_after_quorum e && (length (score_proofs e) =? 3)%nat &&
         forallb unit_interval (score_proofs e)
      then let samples := score_proofs e ++ h.*2 in
           fdiv (fsum samples) (of_int (Z.of_nat (length samples)))
      else legacy
  | None => legacy
  end.

Definition _quality_composite (e : LedgerEntry) : F64 :=
  match v9_confirmation e with
  | Some full_effective_micros =>
      if has_receipt_contract e then int_truediv full_effective_micros 1000000
      else _continual_composite e
  | None => _continual_composite e
  end.

Definition _effective_composite (e : LedgerEntry) : F64 :=
  _efficiency_adjusted_composite e (_quality_composite e).

Definition _entry_stderr (e : LedgerEntry) : option F64 :=
  match composite_stderr e with
  | Some v => if isfinite v && fgeb v zero then Some v else None
  | None => None
  end.

Definition _record_masked_composite (e : LedgerEntry) (record : ConfirmationScoreRecord)
    (mask : gset string) : option F64 :=
  match rec_dueling record, _entry_dueling e with
  | Some report, Some entry_report =>
      if negb (bool_decide (Some (season_id report) = _entry_season e)) ||
         negb (bool_decide (rep_owner_key report = rep_owner_key entry_report)) ||
         negb (rec_bench_version record =? _entry_version e)
      then None else
      let value := dueling_composite (datagen_raw report) (datagen_gate report)
                     (columns report) mask in
      if unit_interval value then Some value else None
  | _, _ => None
  end.

Definition _dueling_seed_composites (e : LedgerEntry) (mask : gset string)
    : option (list (Z * F64)) :=
  match _entry_confirmation_history e, confirmation_history e with
  | Some window, Some recs =>
      let usable := omap (λ r,
          if bool_decide (rec_seed r ∈ window.*1)
          then (λ v, (rec_seed r, v)) <$> _record_masked_composite e r mask
          else None) recs in
      match foldl group_seed [] usable with
      | [] => None
      | grouped => Some (prod_map id _median <$> py_sorted seed_cmp grouped)
      end
  | _, _ => None
  end.

(** The legacy aligned lists; a repeated or negative seed voids the map. *)
Fixpoint zip_seeds (seeds : list Z) (comps : list F64) (out : list (Z * F64))
    : option (list (Z * F64)) :=
  match seeds, comps with
  | s :: seeds', c :: comps' =>
      if (s <? 0) || bool_decide (s ∈ out.*1) then None
      else zip_seeds seeds' comps' (out ++ [(s, c)])
  | _, _ => Some out
  end.

Definition _entry_seed_composites (e : LedgerEntry) (mask : option (gset string))
    : option (list (Z * F64)) :=
  if has_receipt_contract e && has_receipt e then None else
  match mask with
  | Some m => _dueling_seed_composites e m
  | None =>
      match _entry_confirmation_history e with
      | Some history => Some history
      | None =>
          match _entry_confirmations e, confirmation_seeds e with
          | Some comps, Some seeds =>
              if negb (length seeds =? length comps)%nat then None
              else zip_seeds seeds comps []
          | _, _ => None
          end
      end
  end.
