(* ===== verification/Crown.v ===== *)
(** The crown: dethrone bands, the paired and unpaired tests, the champion walk,
    the ranking and the paid tail of [ditto/validator/weights.py]. *)
From Stdlib Require Import ZArith Lia.
From stdpp Require Import base list gmap strings sorting.
From S2P Require Import Prelude Binary64 Dueling Ledger.

(** [CrownGate]: the protocol-34/35 crown rules. *)
Record CrownGate := {
  min_shared_seeds : Z;
  standing_rank : Z;
  duel_window : option Z
}.

(** The numeric arguments every comparison threads through. *)
Record FoldParams := {
  margin : F64;
  dethrone_z : F64;
  ceiling_band_clamp : bool;
  statistical_band_cap : bool
}.

Section crown.
Context {L : Libm}.

(** * Bands *)

Definition comparison_version (a b : LedgerEntry) : Z :=
  Z.min (_entry_version a) (_entry_version b).

Definition _dethrone_band_scale (challenger champion : LedgerEntry) (champion_composite : F64)
    : F64 :=
  if comparison_version challenger champion <? KOTH_BAND_DECAY_MIN_BENCH_VERSION then one else
  let bounded_champion :=
    py_min (py_max champion_composite KOTH_BAND_DECAY_START_COMPOSITE) one in
  libm_exp (fmul (fneg KOTH_BAND_DECAY_RATE)
                 (fsub bounded_champion KOTH_BAND_DECAY_START_COMPOSITE)).

Definition _ceiling_capped_band (band : F64) (challenger champion : LedgerEntry)
    (champion_score : F64) (active : bool) : F64 :=
  if negb active then band else
  if comparison_version challenger champion <? KOTH_BAND_DECAY_MIN_BENCH_VERSION then band else
  let quality_primary := _quality_primary_efficiency_active [challenger; champion] in
  let ceiling := if quality_primary then one else _effective_score_ceiling challenger in
  let headroom := fsub ceiling champion_score in
  if fleb headroom zero then zero
  else py_min band (fmul KOTH_CEILING_HEADROOM_SHARE headroom).

Definition _capped_statistical_band (margin statistical : F64) : F64 :=
  py_min statistical (fmul KOTH_STATISTICAL_BAND_CAP_MULTIPLE margin).

Definition _indifference_band (margin : F64) (statistical : option F64) (capped : bool) : F64 :=
  match statistical with
  | None => margin
  | Some s => py_max margin (if capped then _capped_statistical_band margin s else s)
  end.

Definition _unpaired_statistical_band (challenger champion : LedgerEntry) (dethrone_z : F64)
    : option F64 :=
  if fleb dethrone_z zero then None else
  match _entry_stderr challenger, _entry_stderr champion with
  | Some se_c, Some se_champ =>
      let '(se_c, se_champ) :=
        if negb (_quality_primary_efficiency_active [challenger; champion])
        then (fmul se_c (_efficiency_stderr_scale challenger),
              fmul se_champ (_efficiency_stderr_scale champion))
        else (se_c, se_champ) in
      Some (fmul dethrone_z (fsqrt (fadd (fmul se_c se_c) (fmul se_champ se_champ))))
  | _, _ => None
  end.

Definition _dethrone_composite (e : LedgerEntry) (quality_primary : bool) : F64 :=
  if quality_primary then _quality_composite e else _effective_composite e.

(** * The paired statistic *)

Definition _paired_seed_maps (a b : LedgerEntry)
    : option (list (Z * F64) * list (Z * F64)) :=
  let both := _is_dueling_entry a && _is_dueling_entry b in
  let mask := if both then _dueling_pair_mask a b else None in
  if both && bool_decide (mask = None) then None else
  match _entry_seed_composites a mask, _entry_seed_composites b mask with
  | Some a_map, Some b_map => Some (a_map, b_map)
  | _, _ => None
  end.

Definition shared_seeds (a_map b_map : list (Z * F64)) : list Z :=
  py_sorted Z.compare (filter (λ s, s ∈ b_map.*1) a_map.*1).

Definition seed_value (m : list (Z * F64)) (s : Z) : F64 := default NaN (dict_get s m).

(** [_seed_score] *)
Definition seed_score (quality_primary : bool) (e : LedgerEntry) (quality : F64) : F64 :=
  if quality_primary then quality else _efficiency_adjusted_composite e quality.

Definition _paired_statistic (challenger champion : LedgerEntry)
    : option (F64 * F64 * F64) :=
  match _paired_seed_maps challenger champion with
  | None => None
  | Some (chall_map, champ_map) =>
      let common := shared_seeds chall_map champ_map in
      if (length common <? 2)%nat then None else
      let quality_primary := _quality_primary_efficiency_active [challenger; champion] in
      let champ_score s := seed_score quality_primary champion (seed_value champ_map s) in
      let diffs := (λ s, fsub (seed_score quality_primary challenger (seed_value chall_map s))
                              (champ_score s)) <$> common in
      let n := of_int (Z.of_nat (length diffs)) in
      let mean_diff := fdiv (py_sum diffs) n in
      let champ_ref := fdiv (py_sum (champ_score <$> common)) n in
      let var := fdiv (py_sum ((λ d, libm_sq (fsub d mean_diff)) <$> diffs))
                      (of_int (Z.of_nat (length diffs) - 1)) in
      Some (mean_diff, champ_ref, fsqrt (fdiv var n))
  end.

Definition _paired_dethrone (challenger champion : LedgerEntry) (dethrone_z : F64)
    : option (F64 * F64 * F64) :=
  if fleb dethrone_z zero then None else _paired_statistic challenger champion.

Definition _shared_seed_count (a b : LedgerEntry) : Z :=
  match _paired_seed_maps a b with
  | None => 0
  | Some (a_map, b_map) => Z.of_nat (length (shared_seeds a_map b_map))
  end.

Definition _shares_confirmation_seeds (a b : LedgerEntry) (minimum : Z) : bool :=
  minimum <=? _shared_seed_count a b.

(** The observed score and the score it must strictly exceed. *)
Definition _dethrone_scores (p : FoldParams) (challenger champion : LedgerEntry) : F64 * F64 :=
  let quality_primary := _quality_primary_efficiency_active [challenger; champion] in
  match _paired_dethrone challenger champion (dethrone_z p) with
  | Some (mean_diff, champ_ref, se_diff) =>
      let base_band := _indifference_band (margin p) (Some (fmul (dethrone_z p) se_diff)) true in
      let band := fmul base_band (_dethrone_band_scale challenger champion champ_ref) in
      let band := _ceiling_capped_band band challenger champion champ_ref (ceiling_band_clamp p) in
      (fadd champ_ref mean_diff, fadd champ_ref band)
  | None =>
      let chall := _dethrone_composite challenger quality_primary in
      let champ := _dethrone_composite champion quality_primary in
      let band := _indifference_band (margin p)
                    (_unpaired_statistical_band challenger champion (dethrone_z p))
                    (statistical_band_cap p) in
      let band := fmul band (_dethrone_band_scale challenger champion champ) in
      let band := _ceiling_capped_band band challenger champion champ (ceiling_band_clamp p) in
      (chall, fadd champ band)
  end.

(** * The title duel over ledger rows *)

Definition _duel_governs (challenger champion : LedgerEntry) (crown_gate : option CrownGate)
    : bool :=
  match crown_gate with
  | Some g => bool_decide (is_Some (duel_window g)) &&
              (_is_dueling_entry challenger && _is_dueling_entry champion)
  | None => false
  end.

Definition duel_record_value (e : LedgerEntry) (entry_report : DuelingReport)
    (mask : gset string) (record : ConfirmationScoreRecord)
    : option ((string * Z * Z) * F64) :=
  if rec_seed record <? 0 then None else
  match rec_dueling record with
  | None => None
  | Some report =>
      if negb (bool_decide (rep_owner_key report = rep_owner_key entry_report)) ||
         negb (rec_bench_version record =? _entry_version e) then None else
      let value := dueling_composite (datagen_raw report) (datagen_gate report)
                     (columns report) mask in
      if unit_interval value
      then Some (season_seed_key (season_id report) (season_index report) (rec_seed record), value)
      else None
  end.

Definition _entry_duel_records (e : LedgerEntry) (mask : gset string) : option records :=
  match duel_history e, _entry_dueling e with
  | Some (r :: rs), Some entry_report =>
      match collapse_records (omap (duel_record_value e entry_report mask) (r :: rs)) with
      | [] => None
      | collapsed => Some collapsed
      end
  | _, _ => None
  end.

Definition scored_records (quality_primary : bool) (e : LedgerEntry) (rs : records) : records :=
  if quality_primary then rs
  else (λ kv, (kv.1, (kv.2.1, _efficiency_adjusted_composite e kv.2.2))) <$> rs.

Definition _duel_statistic (challenger champion : LedgerEntry) (window : Z)
    : option DuelStatistic :=
  match _dueling_pair_mask challenger champion with
  | None => None
  | Some mask =>
      match _entry_duel_records challenger mask, _entry_duel_records champion mask with
      | Some chall, Some champ =>
          let quality_primary := _quality_primary_efficiency_active [challenger; champion] in
          duel_statistic (duel_pairs (scored_records quality_primary challenger chall)
                            (scored_records quality_primary champion champ) window)
      | _, _ => None
      end
  end.

Definition _duel_beats (p : FoldParams) (g : CrownGate) (window : Z)
    (challenger champion : LedgerEntry) : bool :=
  match _duel_statistic challenger champion window with
  | None => false
  | Some stat =>
      if count stat <? min_shared_seeds g then false else
      let reference := champion_reference stat in
      let floor := fmul (margin p) (_dethrone_band_scale challenger champion reference) in
      match duel_required_lead stat floor with
      | None => false
      | Some lead =>
          let lead := _ceiling_capped_band lead challenger champion reference
                        (ceiling_band_clamp p) in
          fgtb (fadd reference (mean_difference stat)) (fadd reference lead)
      end
  end.

Definition _crown_evidence_count (g : CrownGate) (a b : LedgerEntry) : Z :=
  match duel_window g with
  | Some window =>
      if _duel_governs a b (Some g)
      then match _duel_statistic a b window with None => 0 | Some st => count st end
      else _shared_seed_count a b
  | None => _shared_seed_count a b
  end.

(** * Dethroning *)

Definition _beats (p : FoldParams) (crown_gate : option CrownGate)
    (challenger champion : LedgerEntry) : bool :=
  if _dueling_incomparable challenger champion then false else
  match crown_gate with
  | Some g =>
      match duel_window g, _duel_governs challenger champion (Some g) with
      | Some window, true => _duel_beats p g window challenger champion
      | _, _ =>
          if (_shared_seed_count challenger champion <? min_shared_seeds g) ||
             bool_decide (_paired_dethrone challenger champion (dethrone_z p) = None)
          then false
          else let '(observed, required) := _dethrone_scores p challenger champion in
               fgtb observed required
      end
  | None => let '(observed, required) := _dethrone_scores p challenger champion in
            fgtb observed required
  end.

Definition _score_ceiling_deadlocked (p : FoldParams) (challenger champion : LedgerEntry)
    : bool :=
  let '(observed_score, required_score) := _dethrone_scores p challenger champion in
  let quality_primary := _quality_primary_efficiency_active [challenger; champion] in
  let ceiling := if quality_primary then one else _effective_score_ceiling challenger in
  fleb observed_score required_score && fgeb required_score ceiling.

(** * Ranking and the champion walk *)

(** [_ranking_key]: [(-primary, -effective, first_seen, agent_id)]. *)
Definition primary_score (quality_primary : bool) (e : LedgerEntry) : F64 :=
  if quality_primary then _quality_composite e else _effective_composite e.
Definition seen_cmp : LedgerEntry → LedgerEntry → comparison :=
  cmp_then (cmp_by Z.compare first_seen) (cmp_by Z.compare agent_id).
Definition _ranking_key (quality_primary : bool) : LedgerEntry → LedgerEntry → comparison :=
  cmp_then (cmp_desc (cmp_by fcompare (primary_score quality_primary)))
    (cmp_then (cmp_desc (cmp_by fcompare _effective_composite)) seen_cmp).

Definition ranked_by_key (entries : list LedgerEntry) : list LedgerEntry :=
  py_sorted (_ranking_key (_quality_primary_efficiency_active entries)) entries.

Definition is_agent (id : Z) (e : LedgerEntry) : bool := agent_id e =? id.

Definition find_agent (id : option Z) (entries : list LedgerEntry) : option LedgerEntry :=
  match id with
  | None => None
  | Some i => List.find (is_agent i) entries
  end.

(** The walk's opener and the challengers in first-seen order. *)
Definition walk_opening (entries : list LedgerEntry) (incumbent_agent_id : option Z)
    : option (LedgerEntry * list LedgerEntry) :=
  let ordered := py_sorted seen_cmp entries in
  match find_agent incumbent_agent_id entries with
  | Some incumbent =>
      Some (incumbent, filter (λ e, is_agent (agent_id incumbent) e = false) ordered)
  | None => match ordered with [] => None | champ :: rest => Some (champ, rest) end
  end.

Definition standing_entries (g : CrownGate) (entries : list LedgerEntry) : list LedgerEntry :=
  take (Z.to_nat (Z.max 1 (standing_rank g))) (ranked_by_key entries).

(** The protocol-34 gate: the opener must stand, and only standing entries
    challenge. *)
Definition gated_opening (g : CrownGate) (entries : list LedgerEntry) (champ : LedgerEntry)
    : LedgerEntry * list LedgerEntry :=
  let standing := standing_entries g entries in
  let standing_ids := agent_id <$> standing in
  let champ' :=
    if bool_decide (agent_id champ ∈ standing_ids) then champ else
    match List.find (λ e, min_shared_seeds g <=? _crown_evidence_count g e champ) standing with
    | Some e => e
    | None => default champ (head standing)
    end in
  (champ', filter (λ e, agent_id e ∈ standing_ids ∧ agent_id e ≠ agent_id champ')
             (py_sorted seen_cmp entries)).

Definition walk (p : FoldParams) (gate : option CrownGate) (champ : LedgerEntry)
    (challengers : list LedgerEntry) : LedgerEntry :=
  foldl (λ champ e, if _beats p gate e champ then e else champ) champ challengers.

(** [None] only on the empty pool, where the source would index [ordered[0]]. *)
Definition _champion (p : FoldParams) (incumbent_agent_id : option Z) (gate : option CrownGate)
    (entries : list LedgerEntry) : option LedgerEntry :=
  match walk_opening entries incumbent_agent_id with
  | None => None
  | Some (champ, challengers) =>
      let '(champ, challengers) :=
        match gate with
        | Some g => gated_opening g entries champ
        | None => (champ, challengers)
        end in
      Some (walk p gate champ challengers)
  end.

Definition positive_entries (entries : list LedgerEntry) : list LedgerEntry :=
  filter (λ e, fgtb (_effective_composite e) zero = true) entries.

Definition select_champion (p : FoldParams) (incumbent_agent_id : option Z)
    (gate : option CrownGate) (entries : list LedgerEntry) : option LedgerEntry :=
  match positive_entries (filter_eligible entries) with
  | [] => None
  | scored => _champion p incumbent_agent_id gate scored
  end.

(** * The paid tail *)

(** Whether the lower of two neighbours moves up. *)
Definition adjacent_swaps (lower upper : LedgerEntry) : bool :=
  match _dueling_pair_mask lower upper with
  | None => false
  | Some _ => match _paired_statistic lower upper with
              | Some (mean, _, _) => fgtb mean zero
              | None => false
              end
  end.

(** One pass over the positions: [upper] is the entry now at the position in
    hand, and the flag is [swapped]. *)
Fixpoint swap_pass (upper : LedgerEntry) (rest : list LedgerEntry) : list LedgerEntry * bool :=
  match rest with
  | [] => ([upper], false)
  | lower :: rest' =>
      if adjacent_swaps lower upper
      then (lower :: (swap_pass upper rest').1, true)
      else let '(tl, swapped) := swap_pass lower rest' in (upper :: tl, swapped)
  end.

(** At most [n] passes, stopping at the first that swaps nothing. *)
Fixpoint swap_passes (n : nat) (ordered : list LedgerEntry) : list LedgerEntry :=
  match n, ordered with
  | S n', upper :: rest =>
      let '(ordered', swapped) := swap_pass upper rest in
      if swapped then swap_passes n' ordered' else ordered'
  | _, _ => ordered
  end.

Definition _dueling_adjacent_order (ranked : list LedgerEntry) : list LedgerEntry :=
  if existsb _is_dueling_entry ranked then swap_passes (length ranked) ranked else ranked.

Definition _tail (entries : list LedgerEntry) (champion : LedgerEntry) (tail_size : Z)
    (distinct_hotkeys : bool) : list LedgerEntry :=
  if tail_size <=? 0 then [] else
  let ranked := py_sorted (_ranking_key (_quality_primary_efficiency_active entries))
                  (filter (λ e, miner_hotkey e ≠ miner_hotkey champion) entries) in
  _dueling_adjacent_order
    (take (Z.to_nat tail_size)
       (if distinct_hotkeys then distinct_by miner_hotkey [miner_hotkey champion] ranked
        else ranked)).

Definition _distinct_ranked (entries : list LedgerEntry) : list LedgerEntry :=
  distinct_by miner_hotkey [] (ranked_by_key entries).

(** * Re-scoring selections *)

Definition fold_candidates (entries : list LedgerEntry) : list LedgerEntry :=
  filter (λ e, fgtb (_effective_composite e) zero && _dueling_fold_ready e = true) entries.

Definition agents_needing_rescore (p : FoldParams) (incumbent_agent_id : option Z)
    (gate : option CrownGate) (current_version tail_size : Z) (entries : list LedgerEntry)
    : list LedgerEntry :=
  let scored := fold_candidates entries in
  match _champion p incumbent_agent_id gate scored with
  | None => []
  | Some champion =>
      filter (λ e, _entry_version e < current_version)
        (champion :: _tail scored champion tail_size false)
  end.

Definition _unpaired_band (p : FoldParams) (challenger champion : LedgerEntry) : F64 :=
  let band := _indifference_band (margin p)
                (_unpaired_statistical_band challenger champion (dethrone_z p))
                (statistical_band_cap p) in
  let champ := _dethrone_composite champion
                 (_quality_primary_efficiency_active [challenger; champion]) in
  _ceiling_capped_band (fmul band (_dethrone_band_scale challenger champion champ))
    challenger champion champ (ceiling_band_clamp p).

(** The comprehension's condition: in-band, same version, not yet decidable. *)
Definition contested (p : FoldParams) (gate : option CrownGate) (current_version : Z)
    (champion e : LedgerEntry) : bool :=
  let qp := _quality_primary_efficiency_active [e; champion] in
  negb (agent_id e =? agent_id champion) &&
  (_entry_version e =? current_version) &&
  negb (_dueling_incomparable e champion) &&
  fleb (fabs (fsub (_dethrone_composite e qp) (_dethrone_composite champion qp)))
       (_unpaired_band p e champion) &&
  negb (_shares_confirmation_seeds e champion
          (match gate with None => 2 | Some g => min_shared_seeds g end)).

Definition contested_confirmation_set (p : FoldParams) (incumbent_agent_id : option Z)
    (gate : option CrownGate) (current_version : Z) (entries : list LedgerEntry)
    : list LedgerEntry :=
  let scored := fold_candidates entries in
  if (length scored <? 2)%nat then [] else
  match _champion p incumbent_agent_id gate scored with
  | None => []
  | Some champion =>
      if negb (_entry_version champion =? current_version) then [] else
      match filter (λ e, contested p gate current_version champion e = true)
              (py_sorted seen_cmp scored) with
      | [] => []
      | cs => champion :: cs
      end
  end.
End crown.

(** * Properties *)

(** What the wire guarantees of a row: its numbers are doubles. *)
Definition wf_entry (e : LedgerEntry) : Prop :=
  valid (composite e) ∧ Forall valid (default [] (confirmation_composites e)) ∧
  Forall (λ r, valid (rec_composite r)) (default [] (confirmation_history e)).

#[global] Instance seen_cmp_order : CmpOrder seen_cmp.
Proof. apply cmp_then_order; apply cmp_by_order, Zcompare_order. Qed.
#[global] Instance ranking_key_order `{Libm} qp : CmpOrder (_ranking_key qp).
Proof.
  apply cmp_then_order; [apply cmp_desc_order, cmp_by_order, fcompare_order|].
  apply cmp_then_order; [apply cmp_desc_order, cmp_by_order, fcompare_order|].
  apply seen_cmp_order.
Qed.

(** The platform serves one row per agent. *)
Definition agents_distinct (entries : list LedgerEntry) : Prop :=
  NoDup (agent_id <$> entries).

Lemma agents_distinct_eq entries a b :
  agents_distinct entries → a ∈ entries → b ∈ entries → agent_id a = agent_id b → a = b.
Proof.
  intros Hnd Ha Hb Heq. induction entries as [|e es IH]; [by apply elem_of_nil in Ha|].
  unfold agents_distinct in Hnd. simpl in Hnd. apply NoDup_cons in Hnd as [Hn Hnd].
  apply elem_of_cons in Ha as [->|Ha], Hb as [->|Hb]; try done; [..|by apply IH];
    destruct Hn; [rewrite Heq | rewrite <- Heq]; by apply list_elem_of_fmap_2.
Qed.

Lemma agents_distinct_filter (P : LedgerEntry → Prop) `{∀ e, Decision (P e)} entries :
  agents_distinct entries → agents_distinct (filter P entries).
Proof.
  unfold agents_distinct. intros Hnd.
  eapply sublist_NoDup; [exact Hnd|]. by apply fmap_sublist, sublist_filter.
Qed.

Lemma seen_cmp_Eq a b : seen_cmp a b = Eq → agent_id a = agent_id b.
Proof.
  unfold seen_cmp, cmp_then, cmp_by.
  destruct (Z.compare_spec (first_seen a) (first_seen b)); try done.
  by intros Hc%Z.compare_eq.
Qed.

Lemma seen_key_distinct entries : agents_distinct entries → key_distinct seen_cmp entries.
Proof.
  intros Hd a b Ha Hb Heq. eapply agents_distinct_eq; [done..|]. by apply seen_cmp_Eq.
Qed.

Lemma ranking_key_distinct `{Libm} qp entries :
  agents_distinct entries → key_distinct (_ranking_key qp) entries.
Proof.
  intros Hd a b Ha Hb Heq. eapply seen_key_distinct; [done..|].
  revert Heq. unfold _ranking_key, cmp_then. by repeat case_match.
Qed.

Lemma existsb_perm {A} (f : A → bool) l1 l2 : l1 ≡ₚ l2 → existsb f l1 = existsb f l2.
Proof.
  induction 1; simpl; [done | by rewrite IHPermutation | | congruence].
  by destruct (f x), (f y).
Qed.

Lemma quality_primary_perm l1 l2 : l1 ≡ₚ l2 →
  _quality_primary_efficiency_active l1 = _quality_primary_efficiency_active l2.
Proof. apply existsb_perm. Qed.

Lemma find_agent_elem id entries e : find_agent id entries = Some e →
  e ∈ entries ∧ id = Some (agent_id e).
Proof.
  destruct id as [i|]; [|done]. simpl. intros [Hin Hi]%List.find_some.
  apply Z.eqb_eq in Hi. split; [by apply list_elem_of_In | by subst].
Qed.

Lemma find_agent_None i entries e :
  find_agent (Some i) entries = None → e ∈ entries → agent_id e ≠ i.
Proof.
  simpl. intros Hf He Hi. apply list_elem_of_In in He.
  pose proof (List.find_none _ _ Hf _ He) as Hn. unfold is_agent in Hn.
  apply Z.eqb_neq in Hn. done.
Qed.

Lemma find_agent_perm id l1 l2 : l1 ≡ₚ l2 → agents_distinct l1 →
  find_agent id l1 = find_agent id l2.
Proof.
  intros Hp Hd. destruct id as [i|]; [|done].
  destruct (find_agent (Some i) l1) as [a|] eqn:E1, (find_agent (Some i) l2) as [b|] eqn:E2; [..|done].
  - apply find_agent_elem in E1 as [Ha Hia], E2 as [Hb Hib].
    rewrite <- Hp in Hb. f_equal. eapply agents_distinct_eq; [done..|]. congruence.
  - apply find_agent_elem in E1 as [Ha Hia]. rewrite Hp in Ha.
    destruct (find_agent_None _ _ _ E2 Ha). congruence.
  - apply find_agent_elem in E2 as [Hb Hib]. rewrite <- Hp in Hb.
    destruct (find_agent_None _ _ _ E1 Hb). congruence.
Qed.

Section champion_theory.
Context {L : Libm}.

Lemma walk_elem p gate champ cs : walk p gate champ cs = champ ∨ walk p gate champ cs ∈ cs.
Proof.
  revert champ. induction cs as [|c cs IH]; intros champ; simpl; [by left|].
  destruct (_beats p gate c champ); rewrite elem_of_cons.
  - destruct (IH c) as [->|?]; auto.
  - destruct (IH champ) as [->|?]; auto.
Qed.

Lemma ranked_perm l1 l2 : l1 ≡ₚ l2 → agents_distinct l1 → ranked_by_key l1 = ranked_by_key l2.
Proof.
  intros Hp Hd. unfold ranked_by_key. rewrite (quality_primary_perm _ _ Hp).
  by apply (py_sorted_perm_eq _ _ _ Hp), ranking_key_distinct.
Qed.

Lemma elem_of_standing g entries e : e ∈ standing_entries g entries → e ∈ entries.
Proof.
  unfold standing_entries. intros Hin. 
  apply (elem_of_py_sorted (_ranking_key (_quality_primary_efficiency_active entries))).
  eapply elem_of_submseteq; [exact Hin|]. apply sublist_submseteq, sublist_take.
Qed.

Lemma standing_head g entries : entries ≠ [] → ∃ e, head (standing_entries g entries) = Some e.
Proof.
  intros Hne. unfold standing_entries.
  pose proof (length_py_sorted (_ranking_key (_quality_primary_efficiency_active entries)) entries).
  unfold ranked_by_key. destruct (py_sorted _ entries) as [|e r] eqn:E.
  { by destruct entries. }
  destruct (Z.to_nat (Z.max 1 (standing_rank g))) eqn:En; [lia|]. by exists e.
Qed.

Lemma gated_opening_standing g entries champ champ' cs :
  entries ≠ [] → gated_opening g entries champ = (champ', cs) →
  agent_id champ' ∈ (agent_id <$> standing_entries g entries) ∧
  (champ' = champ ∨ champ' ∈ entries) ∧
  Forall (λ e, agent_id e ∈ (agent_id <$> standing_entries g entries) ∧ e ∈ entries) cs.
Proof.
  intros Hne [= <- <-]. split_and!.
  - case_bool_decide as Hs; [done|].
    destruct (List.find _ _) as [e|] eqn:Ef.
    + apply List.find_some in Ef as [Hin _]. apply list_elem_of_fmap_2. by apply list_elem_of_In.
    + destruct (standing_head g entries Hne) as [e He]. rewrite He. simpl.
      apply list_elem_of_fmap_2. destruct (standing_entries g entries); [done|].
      injection He as ->. left.
  - case_bool_decide as Hs; [by left|]. right.
    destruct (List.find _ _) as [e|] eqn:Ef.
    + apply List.find_some in Ef as [Hin _]. eapply elem_of_standing, list_elem_of_In, Hin.
    + destruct (standing_head g entries Hne) as [e He]. rewrite He. simpl.
      apply (elem_of_standing g). destruct (standing_entries g entries); [done|].
      injection He as ->. left.
  - apply Forall_forall. intros e He. apply list_elem_of_filter in He as [[Hs _] Hin].
    split; [done|]. by apply (elem_of_py_sorted seen_cmp).
Qed.

Lemma walk_opening_elem entries inc champ cs : walk_opening entries inc = Some (champ, cs) →
  champ ∈ entries ∧ Forall (.∈ entries) cs.
Proof.
  unfold walk_opening. destruct (find_agent inc entries) as [i|] eqn:Ef.
  - intros [= <- <-]. apply find_agent_elem in Ef as [Hi _]. split; [done|].
    apply Forall_forall. intros e [_ He]%list_elem_of_filter. by apply (elem_of_py_sorted seen_cmp).
  - destruct (py_sorted seen_cmp entries) as [|c r] eqn:Es; [done|]. intros [= <- <-].
    assert (∀ e, e ∈ c :: r → e ∈ entries) as Hin.
    { intros e. rewrite <- Es. apply elem_of_py_sorted. }
    split; [apply Hin; left|]. apply Forall_forall. intros e He. apply Hin. by right.
Qed.

Lemma walk_opening_Some entries inc : entries ≠ [] → is_Some (walk_opening entries inc).
Proof.
  intros Hne. unfold walk_opening. destruct (find_agent inc entries); [done|].
  pose proof (length_py_sorted seen_cmp entries). destruct (py_sorted seen_cmp entries); [|done].
  by destruct entries.
Qed.
End champion_theory.

Section crown_properties.
Context {L : Libm}.

Lemma champion_Some p incumbent gate (entries : list LedgerEntry) :
  entries ≠ [] → ∃ c, _champion p incumbent gate entries = Some c ∧ c ∈ entries.
Proof.
  intros Hne. unfold _champion.
  destruct (walk_opening_Some entries incumbent Hne) as [[champ cs] Ho]. rewrite Ho.
  apply walk_opening_elem in Ho as [Hc Hcs].
  destruct gate as [g|].
  - destruct (gated_opening g entries champ) as [champ' cs'] eqn:Eg.
    apply gated_opening_standing in Eg as (_ & Hc' & Hcs'); [|done].
    eexists. split; [done|]. destruct (walk_elem p (Some g) champ' cs') as [->|Hin].
    + by destruct Hc' as [->|].
    + eapply Forall_forall in Hcs'; [|exact Hin]. by destruct Hcs'.
  - eexists. split; [done|]. destruct (walk_elem p None champ cs) as [->|Hin]; [done|].
    by eapply Forall_forall in Hcs.
Qed.

Lemma champion_elem p incumbent gate entries c :
  _champion p incumbent gate entries = Some c → c ∈ entries.
Proof.
  intros Hc. destruct (decide (entries = [])) as [->|Hne].
  - unfold _champion, walk_opening in Hc. by destruct incumbent.
  - destruct (champion_Some p incumbent gate entries Hne) as (c' & Hc' & Hin). by simplify_eq.
Qed.

(** Every non-empty pool has a champion and it is one of the pool's
    entries: the walk can neither fail nor invent a winner. *)
Lemma champion_exists p incumbent gate (entries : list LedgerEntry) :
  entries ≠ [] → ∃ c, _champion p incumbent gate entries = Some c ∧ c ∈ entries.
Proof. apply champion_Some. Qed.

(** Under a crown gate the champion always stands: its agent is inside
    the top [standing_rank] of the fold's own ranking, whoever was the
    incumbent and whatever the comparisons decided. *)
Lemma champion_stands p incumbent g (entries : list LedgerEntry) c :
  _champion p incumbent (Some g) entries = Some c →
  agent_id c ∈ (agent_id <$> standing_entries g entries).
Proof.
  unfold _champion. destruct (walk_opening entries incumbent) as [[champ cs]|] eqn:Ho; [|done].
  assert (entries ≠ []) as Hne.
  { apply walk_opening_elem in Ho as [Hin _]. intros ->. by apply elem_of_nil in Hin. }
  destruct (gated_opening g entries champ) as [champ' cs'] eqn:Eg. intros [= <-].
  apply gated_opening_standing in Eg as (Hs & _ & Hcs); [|done].
  destruct (walk_elem p (Some g) champ' cs') as [->|Hin]; [done|].
  eapply Forall_forall in Hcs; [|exact Hin]. by destruct Hcs.
Qed.

Lemma champion_perm p incumbent gate (l1 l2 : list LedgerEntry) :
  l1 ≡ₚ l2 → agents_distinct l1 →
  _champion p incumbent gate l1 = _champion p incumbent gate l2.
Proof.
  intros Hp Hd. unfold _champion.
  assert (py_sorted seen_cmp l1 = py_sorted seen_cmp l2) as Hs.
  { by apply (py_sorted_perm_eq _ _ _ Hp), seen_key_distinct. }
  assert (walk_opening l1 incumbent = walk_opening l2 incumbent) as ->.
  { unfold walk_opening. by rewrite (find_agent_perm _ _ _ Hp Hd), Hs. }
  destruct (walk_opening l2 incumbent) as [[champ cs]|]; [|done].
  destruct gate as [g|]; [|done].
  unfold gated_opening, standing_entries. by rewrite (ranked_perm _ _ Hp Hd), Hs.
Qed.

(** Consensus: the champion is a function of the set of entries. Two
    validators that receive the same rows in different orders crown the same
    entry, with or without an incumbent and a gate. *)
Lemma champion_order_independent p incumbent gate (l1 l2 : list LedgerEntry) :
  l1 ≡ₚ l2 → agents_distinct l1 →
  _champion p incumbent gate l1 = _champion p incumbent gate l2.
Proof. apply champion_perm. Qed.

(** ** The bands are never negative *)

Lemma nonneg_band_scale ch cp x : nonneg (_dethrone_band_scale ch cp x).
Proof. unfold _dethrone_band_scale. case_match; [by vm_compute | apply libm_exp_nonneg]. Qed.

Lemma nonneg_indifference m s capped : nonneg m → nonneg (_indifference_band m s capped).
Proof. intros Hm. unfold _indifference_band. case_match; [by apply nonneg_max | done]. Qed.

Lemma ceiling_share_nonneg : nonneg KOTH_CEILING_HEADROOM_SHARE.
Proof. vm_compute. reflexivity. Qed.

Lemma nonneg_ceiling band ch cp s act : nonneg band → nonneg (_ceiling_capped_band band ch cp s act).
Proof.
  intros Hb. unfold _ceiling_capped_band. destruct (negb act); [exact Hb|].
  destruct (comparison_version ch cp <? _); [exact Hb|]. cbv zeta.
  destruct (fleb (fsub _ s) zero) eqn:E; [reflexivity|].
  apply nonneg_min; [exact Hb|]. apply nonneg_mul; [exact ceiling_share_nonneg|].
  unfold fleb in E. apply orb_false_iff in E as [E _]. exact E.
Qed.

(** ** Scores are doubles *)

Lemma median_valid vs : Forall valid vs → valid (median vs).
Proof.
  intros Hv. unfold median. case_match; [|apply fdiv_valid].
  destruct (py_sorted fcompare vs !! _) as [v|] eqn:El; [|done]. simpl.
  apply list_elem_of_lookup_2, elem_of_py_sorted in El. by eapply Forall_forall in Hv.
Qed.

Lemma seed_history_valid e h :
  _entry_confirmation_history e = Some h →
  Forall (λ r, valid (rec_composite r)) (default [] (confirmation_history e)) →
  Forall valid h.*2.
Proof.
  unfold _entry_confirmation_history.
  destruct (confirmation_history e) as [[|r rs]|]; [done| |done]. simpl default.
  generalize (r :: rs). clear r rs. intros recs. cbv zeta.
  set (usable := omap _ recs).
  assert (∀ us g, Forall (λ sv, valid sv.2) us → Forall (λ kv, Forall valid kv.2) g →
    Forall (λ kv : Z * list F64, Forall valid kv.2) (foldl group_seed g us)) as Hg.
  { induction us as [|[sd v] us IH]; intros g Hus Hgr; simpl; [done|].
    apply Forall_cons in Hus as [Hv Hus]. apply IH; [done|].
    assert (Forall valid (default [] (dict_get sd g))) as Hd.
    { destruct (dict_get sd g) as [l|] eqn:Ed; simpl; [|by constructor].
      apply dict_get_Some_elem in Ed. eapply Forall_forall in Hgr; [|exact Ed]. done. }
    assert (Forall valid (default [] (dict_get sd g) ++ [v])) as Hd'.
    { apply Forall_app. split; [done|]. by repeat constructor. }
    revert Hd'. generalize (default [] (dict_get sd g) ++ [v]). intros l Hl. clear -Hgr Hl.
    induction g as [|[k w] g IH]; simpl; [by repeat constructor|].
    apply Forall_cons in Hgr as [Hw Hgr]. case_decide; constructor; auto. }
  intros Hh Hrec.
  assert (Forall (λ sv : Z * F64, valid sv.2) usable) as Hus.
  { apply Forall_forall. intros sv Hsv. apply list_elem_of_omap in Hsv as (rc & Hin & Hsv).
    case_match; [done|]. injection Hsv as <-. by eapply Forall_forall in Hrec. }
  specialize (Hg usable [] Hus ltac:(constructor)).
  destruct (foldl group_seed [] usable) as [|g0 gs] eqn:Ef; [done|].
  injection Hh as <-. rewrite Forall_fmap. apply Forall_take, Forall_forall.
  intros [k v] Hkv. apply elem_of_py_sorted in Hkv.
  change ((k, v) ∈ prod_map id _median <$> (g0 :: gs)) in Hkv.
  apply list_elem_of_fmap in Hkv as ([k' l] & [= -> ->] & Hin).
  eapply Forall_forall in Hg; [|exact Hin]. by apply median_valid.
Qed.

Lemma continual_valid e :
  wf_entry e →
  valid (_continual_composite e).
Proof.
  intros (Hc & Hl & Hh). unfold _continual_composite.
  assert (valid (match match _entry_confirmation_history e with
      | Some h => Some (py_sorted fcompare h.*2) | None => _entry_confirmations e end with
    | Some vals => if (length vals <? 2)%nat then composite e else _median vals
    | None => composite e end)) as Hleg.
  { destruct (_entry_confirmation_history e) as [h|] eqn:Eh.
    - case_match; [done|]. apply median_valid. rewrite (py_sorted_perm fcompare).
      by eapply seed_history_valid.
    - unfold _entry_confirmations. destruct (confirmation_composites e) as [v|]; [|done].
      simpl in Hl. destruct (length v <? 2)%nat eqn:En; [done|].
      destruct (forallb unit_interval v); [|done]. rewrite En. by apply median_valid. }
  destruct (_entry_confirmation_history e); [|done].
  destruct (_ && _); [apply fdiv_valid | done].
Qed.

Lemma dethrone_composite_valid e qp :
  wf_entry e →
  valid (_dethrone_composite e qp).
Proof.
  intros Hw. unfold _dethrone_composite. destruct qp.
  - unfold _quality_composite. destruct (v9_confirmation e); [|by apply continual_valid].
    case_match; [by apply int_truediv_valid | by apply continual_valid].
  - unfold _effective_composite, _efficiency_adjusted_composite.
    destruct (_bounded_efficiency_factor e) as [f|]; [|apply fmul_valid].
    destruct (fleb f one); [apply fmul_valid|].
    destruct (4 <=? _efficiency_curve_version e); apply fadd_valid.
Qed.

(** C38: first to submit wins. Where no title duel governs, a challenger takes
    the crown on unpaired evidence only if its score is strictly above the
    champion's, and on paired evidence only if its mean lead over the shared
    seeds is strictly positive: a tie, and so a copy that at best ties, never
    dethrones. The rounding of [champion + band] is part of the statement. *)
Theorem dethrone_needs_lead p gate (challenger champion : LedgerEntry) :
  nonneg (margin p) → wf_entry champion →
  _duel_governs challenger champion gate = false →
  _beats p gate challenger champion = true →
  match _paired_dethrone challenger champion (dethrone_z p) with
  | Some (mean_diff, _, _) => fltb zero mean_diff = true
  | None =>
      let qp := _quality_primary_efficiency_active [challenger; champion] in
      fltb (_dethrone_composite champion qp) (_dethrone_composite challenger qp) = true
  end.
Proof.
  intros Hm Hw Hd Hb.
  assert ((let '(o, r) := _dethrone_scores p challenger champion in fgtb o r) = true) as Hs.
  { revert Hb. unfold _beats. destruct (_dueling_incomparable _ _); [done|].
    destruct gate as [g|]; [|done]. rewrite Hd.
    destruct (duel_window g); destruct (_ || _); done. }
  revert Hs. unfold _dethrone_scores, fgtb.
  destruct (_paired_dethrone _ _ _) as [[[mean ref] se]|].
  - apply lead_needed_sum. apply nonneg_ceiling, nonneg_mul;
      [by apply nonneg_indifference | apply nonneg_band_scale].
  - apply lead_needed; [by apply dethrone_composite_valid|].
    apply nonneg_ceiling, nonneg_mul;
      [by apply nonneg_indifference | apply nonneg_band_scale].
Qed.

(** The title duel needs a strictly positive mean lead over at least
    [min_shared_seeds] pairs, and the count must have a boundary (three to
    fifteen pairs). *)
Lemma duel_needs_evidence p g window (challenger champion : LedgerEntry) :
  nonneg (margin p) → _duel_beats p g window challenger champion = true →
  ∃ st, _duel_statistic challenger champion window = Some st ∧
    min_shared_seeds g <= count st ∧ 3 <= count st <= TITLE_DUEL_WINDOW_PAIRS ∧
    fltb zero (mean_difference st) = true.
Proof.
  intros Hm. unfold _duel_beats.
  destruct (_duel_statistic _ _ _) as [st|]; [|done].
  destruct (Z.ltb_spec (count st) (min_shared_seeds g)) as [|Hc]; [done|].
  destruct (duel_required_lead st _) as [lead|] eqn:El; [|done]. unfold fgtb. intros Hlt.
  unfold duel_required_lead in El.
  destruct (dict_get (count st) TITLE_DUEL_BOUNDARY) as [c|] eqn:Eb; [|done]. injection El as <-.
  exists st. split; [done|]. split; [done|].
  split; [apply boundary_domain; by eexists|].
  eapply lead_needed_sum; [|exact Hlt].
  apply nonneg_ceiling, nonneg_max, nonneg_mul; [exact Hm | apply nonneg_band_scale].
Qed.

(** A crown gate admits only deep, same-season evidence: whoever beats
    the champion under a gate is comparable with it and holds at least
    [min_shared_seeds] units of shared evidence against it. *)
Lemma gated_beats_evidence p g (challenger champion : LedgerEntry) :
  _beats p (Some g) challenger champion = true →
  _dueling_incomparable challenger champion = false ∧
  min_shared_seeds g <= _crown_evidence_count g challenger champion.
Proof.
  unfold _beats, _crown_evidence_count.
  destruct (_dueling_incomparable challenger champion); [done|]. intros Hb. split; [done|].
  destruct (duel_window g) as [w|].
  - destruct (_duel_governs challenger champion (Some g)).
    + revert Hb. unfold _duel_beats. destruct (_duel_statistic _ _ _) as [st|]; [|done].
      destruct (Z.ltb_spec (count st) (min_shared_seeds g)); [done|lia].
    + destruct (Z.ltb_spec (_shared_seed_count challenger champion) (min_shared_seeds g)); [done|lia].
  - destruct (Z.ltb_spec (_shared_seed_count challenger champion) (min_shared_seeds g)); [done|lia].
Qed.

(** Two dueling rows of different seasons or bench versions never
    dethrone each other, in either direction: the crown carries over. *)
Lemma cross_season_carry_over p gate (a b : LedgerEntry) :
  _is_dueling_entry a = true → _is_dueling_entry b = true →
  (_entry_season a ≠ _entry_season b ∨ _entry_version a ≠ _entry_version b) →
  _beats p gate a b = false ∧ _beats p gate b a = false.
Proof.
  intros Ha Hb Hne. unfold _beats.
  assert (∀ x y, _is_dueling_entry x = true → _is_dueling_entry y = true →
    (_entry_season x ≠ _entry_season y ∨ _entry_version x ≠ _entry_version y) →
    _dueling_incomparable x y = true) as H.
  { intros x y Hx Hy Hxy. unfold _dueling_incomparable. rewrite Hx, Hy. simpl.
    destruct (_entry_season x) as [s|]; [|done]. apply orb_true_iff.
    destruct Hxy as [Hs|Hv]; [left | right; apply negb_true_iff, Z.eqb_neq, Hv].
    apply negb_true_iff, bool_decide_eq_false, Hs. }
  rewrite (H a b), (H b a); try done. destruct Hne; [left | right]; congruence.
Qed.
End crown_properties.

Section tail_properties.
Context {L : Libm}.

Lemma swap_pass_perm upper rest : (swap_pass upper rest).1 ≡ₚ upper :: rest.
Proof.
  revert upper. induction rest as [|lower rest IH]; intros upper; simpl; [done|].
  destruct (adjacent_swaps lower upper); simpl.
  - rewrite IH. apply Permutation_swap.
  - destruct (swap_pass lower rest) as [tl s] eqn:E. simpl.
    by rewrite <- (IH lower), E.
Qed.

Lemma swap_passes_perm n ordered : swap_passes n ordered ≡ₚ ordered.
Proof.
  revert ordered. induction n as [|n IH]; intros [|upper rest]; simpl; try done.
  pose proof (swap_pass_perm upper rest) as Hp.
  destruct (swap_pass upper rest) as [ordered' []]; simpl in Hp; [by rewrite IH|done].
Qed.

Lemma adjacent_order_perm ranked : _dueling_adjacent_order ranked ≡ₚ ranked.
Proof. unfold _dueling_adjacent_order. case_match; [apply swap_passes_perm | done]. Qed.

Lemma swap_pass_settled upper rest :
  (swap_pass upper rest).2 = false → (swap_pass upper rest).1 = upper :: rest.
Proof.
  revert upper. induction rest as [|lower rest IH]; intros upper; simpl; [done|].
  destruct (adjacent_swaps lower upper); simpl; [done|].
  specialize (IH lower). destruct (swap_pass lower rest) as [tl s]. simpl in *.
  intros Hs. by rewrite IH.
Qed.

Lemma swap_passes_dense n ordered :
  existsb _is_dueling_entry ordered = false → swap_passes n ordered = ordered.
Proof.
  intros Hd. assert (∀ upper rest, existsb _is_dueling_entry (upper :: rest) = false →
    swap_pass upper rest = (upper :: rest, false)) as Hpass.
  { intros upper rest. revert upper. induction rest as [|lower rest IH]; intros upper; [done|].
    intros Hr. simpl in Hr. apply orb_false_iff in Hr as [Hu Hr].
    simpl. assert (adjacent_swaps lower upper = false) as ->.
    { unfold adjacent_swaps, _dueling_pair_mask. apply orb_false_iff in Hr as [-> _]. done. }
    by rewrite IH. }
  destruct n, ordered as [|u r]; try done. simpl. by rewrite Hpass.
Qed.

(** Re-ordering the paid slots only re-orders them: the pair-masked
    passes terminate with a permutation of the selected entries, leave a list
    with no dueling row exactly as it was, and a pass that swaps nothing
    changes nothing. *)
Lemma adjacent_order_only_reorders (ranked : list LedgerEntry) :
  _dueling_adjacent_order ranked ≡ₚ ranked ∧
  (existsb _is_dueling_entry ranked = false →
    _dueling_adjacent_order ranked = ranked ∧
    ∀ n, swap_passes n ranked = ranked) ∧
  (∀ upper rest, (swap_pass upper rest).2 = false →
    (swap_pass upper rest).1 = upper :: rest).
Proof.
  split_and!; [apply adjacent_order_perm | | apply swap_pass_settled].
  intros Hd. unfold _dueling_adjacent_order. rewrite Hd. split; [done|].
  intros n. by apply swap_passes_dense.
Qed.

Lemma tail_elem entries champion k d e :
  e ∈ _tail entries champion k d → e ∈ entries ∧ miner_hotkey e ≠ miner_hotkey champion.
Proof.
  unfold _tail. destruct (k <=? 0); [intros H; by apply elem_of_nil in H|].
  rewrite adjacent_order_perm. intros He.
  assert (e ∈ py_sorted (_ranking_key (_quality_primary_efficiency_active entries))
    (filter (λ e, miner_hotkey e ≠ miner_hotkey champion) entries)) as Hin.
  { eapply elem_of_submseteq; [exact He|]. apply sublist_submseteq.
    etrans; [apply sublist_take|]. destruct d; [apply distinct_by_sublist | done]. }
  apply elem_of_py_sorted, list_elem_of_filter in Hin. tauto.
Qed.

Lemma tail_length entries champion tail_size d :
  Z.of_nat (length (_tail entries champion tail_size d)) <= Z.max 0 tail_size.
Proof.
  unfold _tail. destruct (Z.leb_spec tail_size 0); simpl; [lia|].
  rewrite adjacent_order_perm, length_take. lia.
Qed.

Lemma tail_NoDup entries champion tail_size :
  NoDup (miner_hotkey <$> _tail entries champion tail_size true).
Proof.
  unfold _tail. destruct (tail_size <=? 0); [constructor|].
  rewrite adjacent_order_perm.
  eapply sublist_NoDup; [|apply fmap_sublist, sublist_take]. apply distinct_by_NoDup.
Qed.

(** The paid tail holds at most [tail_size] entries of the pool, never
    the champion's hotkey, and with tie pooling no hotkey twice. *)
Lemma tail_recipients entries champion tail_size distinct :
  let t := _tail entries champion tail_size distinct in
  Z.of_nat (length t) <= Z.max 0 tail_size ∧
  Forall (λ e, e ∈ entries ∧ miner_hotkey e ≠ miner_hotkey champion) t ∧
  (distinct = true → NoDup (miner_hotkey <$> t)).
Proof.
  split_and!; [apply tail_length | | intros ->; apply tail_NoDup].
  apply Forall_forall. intros e. apply tail_elem.
Qed.

(** The tail is a function of the set of entries. *)
Lemma tail_perm (l1 l2 : list LedgerEntry) champion tail_size distinct :
  l1 ≡ₚ l2 → agents_distinct l1 →
  _tail l1 champion tail_size distinct = _tail l2 champion tail_size distinct.
Proof.
  intros Hp Hd. unfold _tail. rewrite (quality_primary_perm _ _ Hp).
  set (P := λ e : LedgerEntry, miner_hotkey e ≠ miner_hotkey champion).
  assert (filter P l1 ≡ₚ filter P l2) as Hf by (by rewrite Hp).
  by rewrite (py_sorted_perm_eq _ _ _ Hf) by by apply ranking_key_distinct, agents_distinct_filter.
Qed.
End tail_properties.

(** * The ceiling clamp *)

Lemma one_Fin : one = Fin f64_one.
Proof. vm_compute. reflexivity. Qed.
Lemma half_Fin : KOTH_CEILING_HEADROOM_SHARE = Fin (2 ^ 1073).
Proof. vm_compute. reflexivity. Qed.

(** The unit below one, 2^-53, and the scale in terms of it. *)
Definition unit53 : Z := 2 ^ 1021.
Lemma unit53_facts : 1 < unit53 ∧ f64_one = 2 ^ 53 * unit53 ∧ 2 ^ 1073 = 2 ^ 52 * unit53 ∧
  2 ^ 53 * unit53 < f64_limit ∧ ulp (2 ^ 1073) = unit53 ∧ unit53 = 2 * 2 ^ 1020.
Proof. split_and!; vm_compute; reflexivity. Qed.

(** The headroom below one, as a multiple of the unit. *)
Lemma headroom_bound a : rep a → 0 <= a <= f64_one - 2 * unit53 →
  ∃ m, 0 <= m <= 2 ^ 53 ∧ fleb (fsub (Fin f64_one) (Fin a)) (Fin (m * unit53)) = true ∧
    2 * a + m * unit53 <= 2 * ((2 ^ 53 - 1) * unit53).
Proof.
  intros Hr Ha. destruct unit53_facts as (Hu & E1 & E2 & Hlim & Eulp & _).
  assert (Hrep : ∀ m, 0 <= m <= 2 ^ 53 → rep (m * unit53)).
  { intros m Hm. apply rep_multiple; [lia | done | fold unit53; nia]. }
  unfold fsub, fneg, fadd. revert Hu E1 E2 Hlim Eulp Hrep Ha.
  generalize unit53. intros u Hu E1 E2 Hlim Eulp Hrep Ha.
  assert (Hgo : ∀ m, 0 <= m <= 2 ^ 53 → f64_one + - a <= m * u →
    fleb (round (f64_one + - a) 1) (Fin (m * u)) = true).
  { intros m Hm Hle. rewrite <- (round_rep _ (Hrep m Hm)). apply round_mono; lia. }
  destruct (Z.le_gt_cases (2 ^ 1073) a) as [Hhi|Hlo].
  - destruct Hr as [Hd _]. rewrite Z.abs_eq in Hd by lia.
    assert ((u | a)) as [k Hk].
    { transitivity (ulp a); [|exact Hd]. rewrite <- Eulp. by apply ulp_divides. }
    assert (2 ^ 52 <= k <= 2 ^ 53 - 2) by nia.
    exists (2 ^ 53 - k). split; [lia|]. split; [apply Hgo; nia | nia].
  - destruct (Z.le_gt_cases (2 ^ 51 * u) a).
    + exists (3 * 2 ^ 51). split; [lia|]. split; [apply Hgo; nia | nia].
    + exists (2 ^ 53). split; [lia|]. split; [apply Hgo; nia | nia].
Qed.

(** Half the remaining headroom, added to a score of at most 1 - 2^-52, stays
    below 1 through both roundings. *)
Lemma half_headroom_below_one a b :
  rep a → 0 <= a <= f64_one - 2 * unit53 → nonneg b →
  fleb b (fmul KOTH_CEILING_HEADROOM_SHARE (fsub one (Fin a))) = true →
  fltb (fadd (Fin a) b) one = true.
Proof.
  intros Hr Ha Hb0 Hb. rewrite half_Fin, one_Fin in *.
  destruct (headroom_bound a Hr Ha) as (m & Hm & Hhead & Hsum).
  destruct unit53_facts as (Hu & E1 & E2 & Hlim & Eulp & E3).
  destruct (fsub (Fin f64_one) (Fin a)) as [h| | |] eqn:Eh; try done.
  2: { unfold fsub, fneg, fadd, round, clip in Eh. repeat case_match; try done.
       pose proof (round_Z_mono 0 1 (f64_one + - a) 1 ltac:(lia) ltac:(lia) ltac:(lia)) as Hz.
       rewrite (round_Z_rep 0 rep_0) in Hz. bool_to_prop. unfold f64_limit in *. lia. }
  assert (Hh : fleb b (Fin (m * 2 ^ 1020)) = true).
  { eapply fleb_trans; [exact Hb|]. eapply fleb_trans; [apply fmul_mono_r; [|exact Hhead]; lia|].
    unfold fmul. assert (2 ^ 1073 * (m * unit53) = (m * 2 ^ 1020) * f64_one) as -> by nia.
    rewrite round_scale by apply f64_one_pos. rewrite round_rep; [|apply rep_multiple; nia].
    apply fleb_refl. done. }
  destruct b as [z| | |]; try done. apply fleb_Fin in Hh.
  assert (rep ((2 ^ 53 - 1) * unit53)) as Hp by (apply rep_multiple; [lia|lia|fold unit53; nia]).
  assert (fleb (fadd (Fin a) (Fin z)) (Fin ((2 ^ 53 - 1) * unit53)) = true) as Hle.
  { rewrite <- (round_rep _ Hp). apply round_mono; nia. }
  unfold fadd in *. pose proof (isnan_round (a + z) 1).
  destruct (round (a + z) 1) as [w| | |]; try done. apply fleb_Fin in Hle.
  simpl. apply Z.ltb_lt. nia.
Qed.

(** A minimal row, for concrete evaluations. *)
Definition sample_entry (hotkey : string) (id seen : Z) (score : F64) (version : Z)
    : LedgerEntry := {|
  miner_hotkey := hotkey; agent_id := id; composite := score; n_cases := 114;
  first_seen := seen; bench_version := Some version; score_proofs := [];
  composite_stderr := None; confirmation_composites := None; confirmation_seeds := None;
  confirmation_history := None; duel_history := None; mean_after_quorum := false;
  efficiency_bonus := None; efficiency_factor := None; efficiency_curve_version := None;
  v9_confirmation := None; dueling_season_id := None; dueling := None |}.

(** The ceiling the clamp reads. *)
Definition clamp_ceiling (challenger champion : LedgerEntry) : F64 :=
  if _quality_primary_efficiency_active [challenger; champion] then one
  else _effective_score_ceiling challenger.

(** The ceiling clamp keeps the crown winnable: against a champion score
    of at most 1 - 2^-52, with the clamp active on v6+ rows whose ceiling is
    1.0, the required score [champion + band] is strictly below 1.0 in binary64,
    whatever the band before the clamp. *)
Lemma ceiling_clamp_reachable (challenger champion : LedgerEntry) (band : F64) (a : Z) :
  KOTH_BAND_DECAY_MIN_BENCH_VERSION <= comparison_version challenger champion →
  clamp_ceiling challenger champion = one →
  rep a → 0 <= a <= f64_one - 2 * unit53 → nonneg band → isnan band = false →
  fltb (fadd (Fin a) (_ceiling_capped_band band challenger champion (Fin a) true)) one = true.
Proof.
  intros Hv Hc Hr Ha Hb Hn. unfold _ceiling_capped_band. unfold clamp_ceiling in Hc. cbn [negb].
  destruct (Z.ltb_spec (comparison_version challenger champion)
    KOTH_BAND_DECAY_MIN_BENCH_VERSION); [lia|]. cbv zeta. rewrite Hc.
  destruct (fleb (fsub one (Fin a)) zero) eqn:Eh.
  - simpl fadd. rewrite Z.add_0_r, round_rep, one_Fin by done. simpl. apply Z.ltb_lt.
    destruct unit53_facts as (? & _). lia.
  - assert (isnan (fsub one (Fin a)) = false) as Hnan
      by (rewrite one_Fin; apply isnan_round).
    assert (nonneg (fsub one (Fin a))) as Hp.
    { unfold fleb in Eh. by apply orb_false_iff in Eh as [Eh _]. }
    assert (isnan (fmul KOTH_CEILING_HEADROOM_SHARE (fsub one (Fin a))) = false) as Hm.
    { rewrite half_Fin. apply isnan_fmul_pos; [|exact Hnan]. by apply Z.pow_pos_nonneg. }
    apply half_headroom_below_one; [exact Hr | exact Ha | |].
    + apply nonneg_min; [exact Hb|]. apply nonneg_mul; [|exact Hp].
      rewrite half_Fin. reflexivity.
    + unfold py_min. destruct (fltb (fmul _ _) band) eqn:E; [exact (fleb_refl _ Hm)|].
      exact (fltb_false_fleb _ _ Hn Hm E).
Qed.

Lemma ceiling_clamp_reachable_witness :
  fltb (fadd (flit 97 100) (_ceiling_capped_band (flit 7 100)
     (sample_entry "b" 2 2 one 12) (sample_entry "a" 1 1 (flit 97 100) 12) (flit 97 100) true))
   one = true.
Proof.
  set (c := flit 97 100) at 1 3. assert (c = Fin (fin_part c)) as -> by (vm_compute; reflexivity).
  apply (ceiling_clamp_reachable (sample_entry "b" 2 2 one 12)
           (sample_entry "a" 1 1 (flit 97 100) 12) (flit 7 100) (fin_part c)).
  - vm_compute. discriminate.
  - vm_compute. reflexivity.
  - apply (bool_decide_unpack _). vm_compute. exact I.
  - split; vm_compute; discriminate.
  - vm_compute. reflexivity.
  - vm_compute. reflexivity.
Defined.

(** At the last double below 1.0 the clamp's promise fails: a champion at
    1 - 2^-53 has positive headroom, but half of it added to the score is a tie
    that rounds to 1.0, so the required score is 1.0 and a perfect challenger,
    which must strictly exceed it, cannot take the crown. *)
Lemma ceiling_clamp_last_double :
  let champ := Fin ((2 ^ 53 - 1) * unit53) in
  let a := sample_entry "a" 1 1 champ 12 in
  let b := sample_entry "b" 2 2 one 12 in
  fltb zero (fsub (clamp_ceiling b a) champ) = true ∧
  fadd champ (_ceiling_capped_band (flit 7 1000) b a champ true) = one ∧
  fgtb (_effective_composite b) (fadd champ (_ceiling_capped_band (flit 7 1000) b a champ true))
    = false.
Proof. split_and!; vm_compute; reflexivity. Qed.

(** * Concrete instances *)

Definition sample_params : FoldParams := {|
  margin := flit 7 1000; dethrone_z := flit 128 100;
  ceiling_band_clamp := true; statistical_band_cap := true |}.
Definition sample_gate : CrownGate := {|
  min_shared_seeds := 3; standing_rank := 2; duel_window := Some 15 |}.

(** Three dense rows: [alice] was first, [bob] leads by ten points, [carol] ties. *)
Definition alice : LedgerEntry := sample_entry "alice" 1 10 (flit 70 100) 12.
Definition bob : LedgerEntry := sample_entry "bob" 2 20 (flit 80 100) 12.
Definition carol : LedgerEntry := sample_entry "carol" 3 30 (flit 80 100) 12.
Definition sample_pool : list LedgerEntry := [carol; alice; bob].

(** A dueling row whose history scores the given datagen values on seeds 1, 2, .. *)
Definition sample_record (owner : string) (seed : Z) (raw : F64) : ConfirmationScoreRecord := {|
  rec_seed := seed; rec_composite := raw; rec_bench_version := 16;
  rec_dueling := Some (sample_report owner raw (flit 5 1)) |}.
Definition sample_dueler (owner : string) (id seen : Z) (raws : list F64) : LedgerEntry :=
  let e := sample_entry owner id seen (flit 6 10) 16 in {|
  miner_hotkey := miner_hotkey e; agent_id := agent_id e; composite := composite e;
  n_cases := n_cases e; first_seen := first_seen e; bench_version := bench_version e;
  score_proofs := []; composite_stderr := None; confirmation_composites := None;
  confirmation_seeds := None; confirmation_history := None;
  duel_history := Some (imap (λ i raw, sample_record owner (Z.of_nat i) raw) raws);
  mean_after_quorum := false; efficiency_bonus := None; efficiency_factor := None;
  efficiency_curve_version := None; v9_confirmation := None;
  dueling_season_id := Some "s2"%string;
  dueling := Some (sample_report owner (flit 6 10) (flit 5 1)) |}.
Definition dora : LedgerEntry :=
  sample_dueler "dora" 4 40 [flit 60 100; flit 61 100; flit 62 100; flit 61 100].
Definition erin : LedgerEntry :=
  sample_dueler "erin" 5 50 [flit 80 100; flit 81 100; flit 82 100; flit 82 100].

Lemma champion_exists_witness :
  ∃ c, _champion (L := sample_libm) sample_params None None sample_pool = Some c ∧ c ∈ sample_pool.
Proof. apply (champion_exists (L := sample_libm) sample_params None None sample_pool). discriminate. Defined.

Lemma champion_stands_witness :
  2 ∈ (agent_id <$> standing_entries sample_gate sample_pool).
Proof.
  apply (champion_stands (L := sample_libm) sample_params None sample_gate sample_pool bob).
  vm_compute. reflexivity.
Defined.

Lemma champion_order_independent_witness :
  _champion (L := sample_libm) sample_params None None sample_pool =
  _champion (L := sample_libm) sample_params None None (rev sample_pool).
Proof.
  apply (champion_order_independent (L := sample_libm) sample_params None None).
  - apply Permutation_rev.
  - apply (bool_decide_unpack _). vm_compute. exact I.
Defined.

Lemma dethrone_needs_lead_witness :
  _beats (L := sample_libm) sample_params None bob alice = true ∧
  fltb (_dethrone_composite alice false) (_dethrone_composite bob false) = true.
Proof.
  split; [vm_compute; reflexivity|].
  apply (dethrone_needs_lead (L := sample_libm) sample_params None bob alice).
  - vm_compute. reflexivity.
  - split; [|split; constructor]. apply (bool_decide_unpack _). vm_compute. exact I.
  - reflexivity.
  - vm_compute. reflexivity.
Defined.

Lemma duel_needs_evidence_witness :
  ∃ st, _duel_statistic (L := sample_libm) erin dora 15 = Some st ∧
    3 <= count st ∧ 3 <= count st <= TITLE_DUEL_WINDOW_PAIRS ∧
    fltb zero (mean_difference st) = true.
Proof.
  apply (duel_needs_evidence (L := sample_libm) sample_params sample_gate 15 erin dora).
  - vm_compute. reflexivity.
  - vm_compute. reflexivity.
Defined.

Lemma gated_beats_evidence_witness :
  _dueling_incomparable erin dora = false ∧
  3 <= _crown_evidence_count (L := sample_libm) sample_gate erin dora.
Proof.
  apply (gated_beats_evidence (L := sample_libm) sample_params sample_gate erin dora).
  vm_compute. reflexivity.
Defined.

(** The same agent one season later. *)
Definition erin_next : LedgerEntry := {|
  miner_hotkey := miner_hotkey erin; agent_id := agent_id erin; composite := composite erin;
  n_cases := n_cases erin; first_seen := first_seen erin; bench_version := Some 17;
  score_proofs := []; composite_stderr := None; confirmation_composites := None;
  confirmation_seeds := None; confirmation_history := None; duel_history := duel_history erin;
  mean_after_quorum := false; efficiency_bonus := None; efficiency_factor := None;
  efficiency_curve_version := None; v9_confirmation := None;
  dueling_season_id := dueling_season_id erin; dueling := dueling erin |}.

Lemma cross_season_carry_over_witness :
  _beats (L := sample_libm) sample_params (Some sample_gate) erin_next dora = false ∧
  _beats (L := sample_libm) sample_params (Some sample_gate) dora erin_next = false.
Proof.
  apply (cross_season_carry_over (L := sample_libm) sample_params (Some sample_gate) erin_next dora).
  - vm_compute. reflexivity.
  - vm_compute. reflexivity.
  - right. vm_compute. discriminate.
Defined.
