(* ===== verification/Emission.v ===== *)
(** The track folds of [ditto/validator/weights.py]: the memory fold
    [compute_weights] with its tie pooling and ceiling cohort, and the router
    and generator folds.

    A [dict[str, float]] is the list of its items in insertion order. *)
From Stdlib Require Import ZArith Lia.
From stdpp Require Import base list gmap strings sorting.
From S2P Require Import Prelude Binary64 Dueling Ledger Crown.

Notation vector := (list (string * F64)).

Definition UNPAID_SHARE_KEY : string := "<unpaid>".

(** [MemoryFoldParams] of [ditto/validator/tracks.py]: the keyword arguments of
    [compute_weights]. *)
Record MemoryFoldParams := {
  fold_params : FoldParams;
  tail_size : Z;
  rank_shares : list F64;
  tie_pooling : bool;
  incumbent_agent_id : option Z;
  unpaid_agent_id : option Z;
  crown_gate : option CrownGate
}.

Section memory_fold.
Context {L : Libm}.

(** * Tie pooling *)

Definition _weight_tied (p : FoldParams) (candidate anchor : LedgerEntry) : bool :=
  if _dueling_incomparable candidate anchor then false else
  if _quality_primary_efficiency_active [candidate; anchor]
  then feqb (_quality_composite candidate) (_quality_composite anchor) &&
       feqb (_effective_composite candidate) (_effective_composite anchor)
  else if feqb (_effective_composite candidate) (_effective_composite anchor) then true else
  match _paired_dethrone candidate anchor (dethrone_z p) with
  | None => false
  | Some (mean_diff, _, se_diff) =>
      if negb (statistical_band_cap p) then fleb (fabs mean_diff) (fmul (dethrone_z p) se_diff)
      else fleb (fabs mean_diff)
             (_capped_statistical_band (margin p) (fmul (dethrone_z p) se_diff))
  end.

(** The inner [while]: the first index past [end] that is not tied. *)
Fixpoint group_end (tied : LedgerEntry → bool) (rest : list LedgerEntry) (e : nat) : nat :=
  match rest with
  | [] => e
  | r :: rest' => if tied r then group_end tied rest' (S e) else e
  end.

(** The outer [while], on indices into the two lists; every turn advances
    [start], so [length recipients] turns are enough. *)
Fixpoint pool_loop (tied : LedgerEntry → LedgerEntry → bool) (recipients : list LedgerEntry)
    (fuel start : nat) (pooled : list F64) : list F64 :=
  match fuel, recipients !! start with
  | S fuel', Some anchor =>
      let e := group_end (λ c, tied c anchor) (drop (S start) recipients) (S start) in
      let size := (e - start)%nat in
      let average := fdiv (py_sum (take size (drop start pooled))) (of_int (Z.of_nat size)) in
      let pooled' := if (1 <? size)%nat
                     then take start pooled ++ replicate size average ++ drop e pooled
                     else pooled in
      pool_loop tied recipients fuel' e pooled'
  | _, _ => pooled
  end.

Definition _pool_tied_rank_shares (p : FoldParams) (recipients : list LedgerEntry)
    (rank_shares : list F64) : result (list F64) :=
  if negb (length recipients =? length rank_shares)%nat
  then Err (ValueError "recipients and shares must have the same length")
  else Ok (pool_loop (_weight_tied p) recipients (length recipients) 0 rank_shares).

Fixpoint take_tied (tied : LedgerEntry → bool) (rest : list LedgerEntry) : list LedgerEntry :=
  match rest with
  | [] => []
  | r :: rest' => if tied r then r :: take_tied tied rest' else []
  end.

Definition _score_ceiling_cohort (p : FoldParams) (entries : list LedgerEntry)
    (champion : LedgerEntry) : list LedgerEntry :=
  if _quality_primary_efficiency_active entries then [] else
  let ranked := _distinct_ranked entries in
  match List.find (λ e, negb (String.eqb (miner_hotkey e) (miner_hotkey champion))) ranked with
  | None => []
  | Some challenger =>
      if negb (_score_ceiling_deadlocked p challenger champion) then [] else
      match ranked with
      | [] => []
      | anchor :: rest =>
          match take_tied (λ e, _weight_tied p e anchor) rest with
          | [] => []
          | tied => anchor :: tied
          end
      end
  end.

(** * The memory fold *)

(** [math.isclose(x, 1.0, rel_tol=0.0, abs_tol=1e-12)] *)
Definition isclose_one (x : F64) : bool :=
  feqb x one || (isfinite x && fleb (fabs (fsub one x)) (flit 1 (10 ^ 12))).

Definition bad_share (share : F64) : bool := negb (isfinite share) || fleb share zero.

Definition pay_key (unpaid : option Z) (e : LedgerEntry) : string :=
  if bool_decide (Some (agent_id e) = unpaid) then UNPAID_SHARE_KEY else miner_hotkey e.

(** The final comprehension; [recipient_shares[index]] may raise. *)
Fixpoint pay_recipients (unpaid : option Z) (recipients : list LedgerEntry)
    (recipient_shares : list F64) : result vector :=
  match recipients, recipient_shares with
  | [], _ => Ok []
  | _ :: _, [] => Err (IndexError "list index out of range")
  | e :: recipients', share :: shares' =>
      pay_recipients unpaid recipients' shares' ≫= λ w, Ok ((pay_key unpaid e, share) :: w)
  end.

Definition check_rank_shares (tail_size : Z) (rank_shares : list F64) : result unit :=
  require (Z.of_nat (length rank_shares) =? tail_size + 1)
    (ValueError "rank_shares must contain champion plus tail_size entries") ≫= λ _,
  require (negb (existsb bad_share rank_shares))
    (ValueError "rank_shares must contain only finite positive values") ≫= λ _,
  require (isclose_one (py_sum rank_shares)) (ValueError "rank_shares must sum to 1").

(** The recipients and their shares, before the final comprehension. *)
Definition recipients_and_shares (m : MemoryFoldParams) (scored : list LedgerEntry)
    (champion : LedgerEntry) : result (list LedgerEntry * list F64) :=
  let ceiling_cohort :=
    if tie_pooling m then _score_ceiling_cohort (fold_params m) scored champion else [] in
  match ceiling_cohort with
  | _ :: _ =>
      let n := length ceiling_cohort in
      Ok (ceiling_cohort, replicate n (fdiv one (of_int (Z.of_nat n))))
  | [] =>
      let recipients := champion :: _tail scored champion (tail_size m) (tie_pooling m) in
      let recipient_shares := take (length recipients) (rank_shares m) in
      if tie_pooling m
      then _pool_tied_rank_shares (fold_params m) recipients recipient_shares ≫= λ pooled,
           Ok (recipients, pooled)
      else Ok (recipients, recipient_shares)
  end.

Definition compute_weights (m : MemoryFoldParams) (entries : list LedgerEntry)
    : result vector :=
  let scored := positive_entries (filter_eligible entries) in
  match _champion (fold_params m) (incumbent_agent_id m) (crown_gate m) scored with
  | None => Ok []
  | Some champion =>
      check_rank_shares (tail_size m) (rank_shares m) ≫= λ _,
      recipients_and_shares m scored champion ≫= λ '(recipients, recipient_shares),
      pay_recipients (unpaid_agent_id m) recipients recipient_shares ≫= λ w,
      Ok (dict_of w)
  end.
End memory_fold.

(** * The router and generator folds *)

(** [RouterLedgerEntry] and [GeneratorLedgerEntry], the fields the folds read.
    [submission_id] is the UUID's integer: [str] of a UUID is fixed-width
    lowercase hexadecimal, so the strings order like the integers. *)
Record RouterLedgerEntry := {
  router_hotkey : string;
  router_agent_id : Z;
  router_weight_eligible : bool;
  combined_score : F64;
  router_first_seen : Z
}.
Record GeneratorLedgerEntry := {
  generator_hotkey : string;
  submission_id : Z;
  generator_weight_eligible : bool;
  generator_score : F64;
  generator_first_seen : Z
}.

Definition router_key : RouterLedgerEntry → RouterLedgerEntry → comparison :=
  cmp_then (cmp_desc (cmp_by fcompare combined_score))
    (cmp_then (cmp_by Z.compare router_first_seen) (cmp_by Z.compare router_agent_id)).
Definition generator_key : GeneratorLedgerEntry → GeneratorLedgerEntry → comparison :=
  cmp_then (cmp_desc (cmp_by fcompare generator_score))
    (cmp_then (cmp_by Z.compare generator_first_seen) (cmp_by Z.compare submission_id)).

Definition compute_router_weights (entries : list RouterLedgerEntry) (rank_shares : list F64)
    : vector :=
  if existsb bad_share rank_shares then [] else
  let scored := filter (λ e, router_weight_eligible e && fgtb (combined_score e) zero = true)
                  entries in
  let distinct := distinct_by router_hotkey [] (py_sorted router_key scored) in
  dict_of (zip (router_hotkey <$> distinct) rank_shares).

Definition compute_generator_weights (entries : list GeneratorLedgerEntry)
    (rank_shares : list F64) : vector :=
  if existsb bad_share rank_shares then [] else
  let scored := filter (λ e, generator_weight_eligible e &&
                  (isfinite (generator_score e) && fgtb (generator_score e) zero) = true) entries in
  let distinct := distinct_by generator_hotkey [] (py_sorted generator_key scored) in
  dict_of (zip (generator_hotkey <$> distinct) rank_shares).


(** * Properties *)

(** The abstract tie rule: recipients fall into maximal groups anchored on their
    first member, and a group of two or more shares the mean of its slots. *)
Definition mean_share (s : list F64) : F64 := fdiv (py_sum s) (of_int (Z.of_nat (length s))).
Definition group_shares (s : list F64) : list F64 :=
  match s with _ :: _ :: _ => replicate (length s) (mean_share s) | _ => s end.

Inductive pooled_groups (tied : LedgerEntry → LedgerEntry → bool)
    : list LedgerEntry → list F64 → list F64 → Prop :=
  | groups_nil : pooled_groups tied [] [] []
  | groups_cons anchor members rest s1 s2 out :
      Forall (λ c, tied c anchor = true) members →
      (match rest with [] => True | r :: _ => tied r anchor = false end) →
      length s1 = S (length members) →
      pooled_groups tied rest s2 out →
      pooled_groups tied (anchor :: members ++ rest) (s1 ++ s2) (group_shares s1 ++ out).

Lemma take_tied_spec tied rest :
  ∃ rest', rest = take_tied tied rest ++ rest' ∧
    Forall (λ c, tied c = true) (take_tied tied rest) ∧
    (match rest' with [] => True | r :: _ => tied r = false end).
Proof.
  induction rest as [|r rest (rest' & E & Hf & Hn)]; simpl; [by exists []|].
  destruct (tied r) eqn:Er; [|by exists (r :: rest)].
  exists rest'. split; [by rewrite E at 1 | by auto].
Qed.

Lemma group_end_spec tied rest e : group_end tied rest e = (e + length (take_tied tied rest))%nat.
Proof.
  revert e. induction rest as [|r rest IH]; intros e; simpl; [lia|].
  destruct (tied r); simpl; [rewrite IH|]; lia.
Qed.

Lemma group_shares_length s : length (group_shares s) = length s.
Proof. destruct s as [|? [|? ?]]; simpl; rewrite ?length_replicate; done. Qed.

(** One turn of the outer loop replaces the shares of one group. *)
Lemma pool_slice (s0 s1 s2 : list F64) n k :
  n = length s0 → k ≠ 0%nat → length s1 = k →
  (if (1 <? k)%nat
   then take n (s0 ++ s1 ++ s2) ++
        replicate k (fdiv (py_sum (take k (drop n (s0 ++ s1 ++ s2))))
                          (of_int (Z.of_nat k))) ++
        drop (n + k) (s0 ++ s1 ++ s2)
   else s0 ++ s1 ++ s2) = (s0 ++ group_shares s1) ++ s2.
Proof.
  intros -> Hk Hl. rewrite <- app_assoc, drop_app_length, take_app_length.
  rewrite (take_app_length' s1 s2 k) by done.
  rewrite drop_app_add, (drop_app_length' s1 s2 k) by done.
  destruct s1 as [|a [|b s1]]; simpl in Hl; subst k; [done..|].
  unfold group_shares, mean_share. done.
Qed.

Lemma pool_loop_groups tied fuel pre rest s0 s1 :
  length pre = length s0 → length rest = length s1 → (length rest <= fuel)%nat →
  ∃ out, pool_loop tied (pre ++ rest) fuel (length pre) (s0 ++ s1) = s0 ++ out ∧
    pooled_groups tied rest s1 out.
Proof.
  revert pre rest s0 s1. induction fuel as [|fuel IH]; intros pre rest s0 s1 Hp Hr Hfuel.
  { destruct rest, s1; try done; [|simpl in Hfuel; lia]. exists []. split; [done | constructor]. }
  destruct rest as [|anchor rest].
  { destruct s1; [|done]. exists []. cbn. rewrite app_nil_r, lookup_ge_None_2 by done.
    split; [done | constructor]. }
  cbn [pool_loop]. rewrite list_lookup_middle by done. rewrite group_end_spec.
  replace (drop (S (length pre)) (pre ++ anchor :: rest)) with rest.
  2: { rewrite <- Nat.add_1_r, drop_app_add. done. }
  destruct (take_tied_spec (λ c, tied c anchor) rest) as (rest' & Er & Hf & Hn).
  set (members := take_tied _ rest) in *.
  assert (∃ s1' s2, s1 = s1' ++ s2 ∧ length s1' = S (length members) ∧ length rest' = length s2)
    as (s1' & s2 & -> & Hl1 & Hl2).
  { exists (take (S (length members)) s1), (drop (S (length members)) s1).
    rewrite take_drop, length_take, length_drop, <- Hr, Er. simpl. rewrite length_app.
    split_and!; [done | lia | lia]. }
  replace (S (length pre) + length members - length pre)%nat with (S (length members)) by lia.
  replace (S (length pre) + length members)%nat with (length pre + S (length members))%nat by lia.
  cbv zeta. rewrite pool_slice by done.
  assert (pre ++ anchor :: rest = (pre ++ anchor :: members) ++ rest') as ->
    by (rewrite Er at 1; by rewrite <- app_assoc).
  assert (length pre + S (length members) = length (pre ++ anchor :: members))%nat as ->
    by (rewrite length_app; done).
  destruct (IH (pre ++ anchor :: members) rest' (s0 ++ group_shares s1') s2) as (out & Ho & Hg).
  - rewrite !length_app, group_shares_length. simpl. lia.
  - done.
  - rewrite Er in Hfuel. simpl in Hfuel. rewrite length_app in Hfuel. lia.
  - exists (group_shares s1' ++ out). rewrite Ho, <- app_assoc. split; [done|].
    rewrite Er. by constructor.
Qed.

Lemma pooled_groups_length tied r s out : pooled_groups tied r s out → length out = length s.
Proof. induction 1; [done|]. by rewrite !length_app, group_shares_length, IHpooled_groups. Qed.

Section memory_properties.
Context {L : Libm}.

(** C39: tie pooling implements the tie rule: on lists of equal length the
    two-index loop returns one share per recipient, and they are those of the
    maximal anchored tie groups: each group holds the mean of its own slots,
    a recipient alone in its group keeps its share. *)
Theorem pool_implements_groups p recipients rank_shares :
  length recipients = length rank_shares →
  ∃ out, _pool_tied_rank_shares p recipients rank_shares = Ok out ∧
    pooled_groups (_weight_tied p) recipients rank_shares out ∧
    length out = length rank_shares.
Proof.
  intros Hl. unfold _pool_tied_rank_shares. rewrite Hl, Nat.eqb_refl. simpl.
  destruct (pool_loop_groups (_weight_tied p) (length rank_shares) [] recipients [] rank_shares)
    as (out & Ho & Hg); [done | done | lia |].
  exists out. simpl in Ho. rewrite Ho. split_and!; [done | done |].
  by eapply pooled_groups_length.
Qed.

Lemma pool_Ok p recipients s : length recipients = length s →
  ∃ out, _pool_tied_rank_shares p recipients s = Ok out ∧ length out = length s.
Proof.
  intros Hl. unfold _pool_tied_rank_shares. rewrite Hl, Nat.eqb_refl. simpl.
  destruct (pool_loop_groups (_weight_tied p) (length s) [] recipients [] s)
    as (out & Ho & Hg); [done | done | lia |].
  exists out. simpl in Ho. rewrite Ho. split; [done|]. by eapply pooled_groups_length.
Qed.

(** ** The recipients *)

Definition scored_pool (entries : list LedgerEntry) : list LedgerEntry :=
  positive_entries (filter_eligible entries).

Lemma elem_of_scored entries e : e ∈ scored_pool entries ↔
  e ∈ entries ∧ _entry_eligible e = true ∧ _dueling_fold_ready e = true ∧
  fgtb (_effective_composite e) zero = true.
Proof.
  unfold scored_pool, positive_entries, filter_eligible.
  rewrite !list_elem_of_filter, andb_true_iff. tauto.
Qed.

Lemma scored_pool_perm l1 l2 : l1 ≡ₚ l2 → scored_pool l1 ≡ₚ scored_pool l2.
Proof. intros Hp. unfold scored_pool, positive_entries, filter_eligible. by rewrite Hp. Qed.

Lemma scored_pool_distinct l : agents_distinct l → agents_distinct (scored_pool l).
Proof. intros Hd. by apply agents_distinct_filter, agents_distinct_filter. Qed.

Lemma take_tied_sublist tied rest : take_tied tied rest `sublist_of` rest.
Proof.
  induction rest as [|r rest IH]; simpl; [done|].
  destruct (tied r); [by apply sublist_skip | apply sublist_nil_l].
Qed.

Lemma cohort_sublist p entries champion :
  _score_ceiling_cohort p entries champion `sublist_of` _distinct_ranked entries.
Proof.
  unfold _score_ceiling_cohort.
  destruct (_quality_primary_efficiency_active entries); [apply sublist_nil_l|].
  destruct (List.find _ _); [|apply sublist_nil_l].
  destruct (negb _); [apply sublist_nil_l|].
  destruct (_distinct_ranked entries) as [|a rest]; [done|].
  pose proof (take_tied_sublist (λ e, _weight_tied p e a) rest) as Hs.
  destruct (take_tied _ rest); [apply sublist_nil_l | by apply sublist_skip].
Qed.

Lemma cohort_elem p entries champion e :
  e ∈ _score_ceiling_cohort p entries champion → e ∈ entries.
Proof.
  intros He. apply (elem_of_py_sorted
    (_ranking_key (_quality_primary_efficiency_active entries))).
  eapply elem_of_submseteq; [exact He|]. apply sublist_submseteq.
  etrans; [apply cohort_sublist|]. apply distinct_by_sublist.
Qed.

Lemma cohort_NoDup p entries champion :
  NoDup (miner_hotkey <$> _score_ceiling_cohort p entries champion).
Proof.
  eapply sublist_NoDup; [|apply fmap_sublist, cohort_sublist]. apply distinct_by_NoDup.
Qed.

Lemma recipients_Ok m scored champion :
  Z.of_nat (length (rank_shares m)) = tail_size m + 1 → 0 <= tail_size m →
  ∃ rs ss, recipients_and_shares m scored champion = Ok (rs, ss) ∧
    length rs = length ss ∧ rs ≠ [] ∧
    (champion ∈ scored → Forall (.∈ scored) rs) ∧
    (tie_pooling m = true → NoDup (miner_hotkey <$> rs)).
Proof.
  intros Hlen Hts. unfold recipients_and_shares.
  set (cohort := if tie_pooling m then _ else []).
  assert (Hc : ∀ e, e ∈ cohort → e ∈ scored).
  { unfold cohort. destruct (tie_pooling m); [apply cohort_elem | by intros ? ?%elem_of_nil]. }
  assert (Hn : NoDup (miner_hotkey <$> cohort)).
  { unfold cohort. destruct (tie_pooling m); [apply cohort_NoDup | constructor]. }
  clearbody cohort. destruct cohort as [|e0 cohort].
  - set (rs := champion :: _).
    assert (length rs = length (take (length rs) (rank_shares m))) as Hl.
    { rewrite length_take. apply eq_sym, Nat.min_l. unfold rs. cbn [length].
      pose proof (tail_length scored champion (tail_size m) (tie_pooling m)). lia. }
    assert (champion ∈ scored → Forall (.∈ scored) rs) as Hin.
    { intros Hch. apply Forall_cons. split; [done|]. apply Forall_forall.
      intros e He. by eapply tail_elem. }
    assert (tie_pooling m = true → NoDup (miner_hotkey <$> rs)) as Hnd.
    { intros Ht. unfold rs. rewrite Ht. simpl. constructor; [|apply tail_NoDup].
      intros (e & He & Hin')%list_elem_of_fmap. apply tail_elem in Hin' as [_ Hne]. congruence. }
    destruct (tie_pooling m) eqn:Et.
    + destruct (pool_Ok (fold_params m) rs _ Hl) as (out & Ho & Hlo).
      exists rs, out. rewrite Ho. split_and!; [done | lia | done | done | done].
    + exists rs, (take (length rs) (rank_shares m)). split_and!; done.
  - eexists _, _. split; [done|]. split_and!; [by rewrite length_replicate | done | | done].
    intros _. by apply Forall_forall.
Qed.

Lemma pay_recipients_Ok unpaid rs ss : length rs = length ss →
  pay_recipients unpaid rs ss = Ok (zip (pay_key unpaid <$> rs) ss).
Proof.
  revert ss. induction rs as [|r rs IH]; intros [|s ss] Hl; try done.
  simpl in *. rewrite IH by lia. done.
Qed.

Lemma elem_of_zip_fst {A B} (x : A) (l : list A) (k : list B) :
  x ∈ (zip l k).*1 → x ∈ l.
Proof.
  revert k. induction l as [|a l IH]; intros [|b k]; simpl; try by intros ?%elem_of_nil.
  rewrite !elem_of_cons. intros [->|Hx]; [by left | right; by eapply IH].
Qed.

Lemma check_rank_shares_length n s u : check_rank_shares n s = Ok u →
  Z.of_nat (length s) = n + 1 ∧ 0 <= n.
Proof.
  unfold check_rank_shares. intros H. inv_ok H. bool_to_prop. split; [done|].
  destruct s; [|simpl in *; lia]. exfalso.
  match goal with H : isclose_one _ = true |- _ => revert H end. vm_compute. discriminate.
Qed.

(** The whole fold on a valid configuration: no exception, and the vector is
    the recipients' keys with their shares. *)
Lemma compute_weights_run m entries :
  check_rank_shares (tail_size m) (rank_shares m) = Ok tt →
  (scored_pool entries = [] ∧ compute_weights m entries = Ok []) ∨
  ∃ champion rs ss, _champion (fold_params m) (incumbent_agent_id m) (crown_gate m)
      (scored_pool entries) = Some champion ∧
    recipients_and_shares m (scored_pool entries) champion = Ok (rs, ss) ∧
    length rs = length ss ∧ rs ≠ [] ∧ Forall (.∈ scored_pool entries) rs ∧
    (tie_pooling m = true → NoDup (miner_hotkey <$> rs)) ∧
    compute_weights m entries = Ok (dict_of (zip (pay_key (unpaid_agent_id m) <$> rs) ss)).
Proof.
  intros Hck. unfold compute_weights. fold (scored_pool entries).
  destruct (_champion _ _ _ (scored_pool entries)) as [c|] eqn:Ec.
  - right. pose proof (champion_elem _ _ _ _ _ Ec) as Hin.
    destruct (check_rank_shares_length _ _ _ Hck) as [Hlen Hts].
    destruct (recipients_Ok m (scored_pool entries) c Hlen Hts) as (rs & ss & Hr & Hl & Hne & Hf & Hnd).
    exists c, rs, ss. split_and!; try done; [by apply Hf|].
    rewrite Hck. simpl. rewrite Hr. simpl. by rewrite pay_recipients_Ok.
  - left. destruct (decide (scored_pool entries = [])) as [|Hne]; [done|].
    destruct (champion_Some (fold_params m) (incumbent_agent_id m) (crown_gate m) _ Hne)
      as (? & ? & _). congruence.
Qed.

Lemma zip_fst_eq {A B} (l : list A) (k : list B) : length l = length k → (zip l k).*1 = l.
Proof. intros Hl. apply fst_zip. lia. Qed.

(** C37: with the shipped shape of the rank shares the memory fold never
    raises, whatever the ledger: it returns a vector, and the vector is empty
    exactly when no eligible entry has a positive effective score. *)
Theorem compute_weights_total m entries :
  check_rank_shares (tail_size m) (rank_shares m) = Ok tt →
  ∃ w, compute_weights m entries = Ok w ∧ (w = [] ↔ scored_pool entries = []).
Proof.
  intros Hck. destruct (compute_weights_run m entries Hck)
    as [[Hs Hw]|(c & rs & ss & Hc & _ & Hl & Hne & Hf & _ & Hw)]; [by exists []|].
  eexists. split; [exact Hw|]. split; [|intros Hs].
  - intros Hnil. destruct rs as [|r rs]; [done|].
    assert (pay_key (unpaid_agent_id m) r ∈
      (dict_of (zip (pay_key (unpaid_agent_id m) <$> (r :: rs)) ss)).*1) as Hin.
    { apply elem_of_keys_dict_of. rewrite zip_fst_eq by (by rewrite length_fmap). left. }
    rewrite Hnil in Hin. by apply elem_of_nil in Hin.
  - rewrite Hs in Hf. destruct rs as [|r rs]; [done|].
    apply Forall_cons in Hf as [Hr _]. by apply elem_of_nil in Hr.
Qed.

(** Who the memory fold pays. *)
Lemma compute_weights_keys m entries w :
  compute_weights m entries = Ok w →
  NoDup w.*1 ∧
  ∀ k, k ∈ w.*1 → ∃ e, e ∈ entries ∧ _entry_eligible e = true ∧
    _dueling_fold_ready e = true ∧ fgtb (_effective_composite e) zero = true ∧
    ((Some (agent_id e) = unpaid_agent_id m ∧ k = UNPAID_SHARE_KEY) ∨
     (Some (agent_id e) ≠ unpaid_agent_id m ∧ k = miner_hotkey e)).
Proof.
  intros Hw. destruct (check_rank_shares (tail_size m) (rank_shares m)) as [[]|err] eqn:Hck.
  - destruct (compute_weights_run m entries Hck)
      as [[Hs Hw']|(c & rs & ss & Hc & _ & Hl & Hne & Hf & _ & Hw')]; rewrite Hw in Hw';
      injection Hw' as ->.
    { split; [constructor | by intros ? ?%elem_of_nil]. }
    split; [apply NoDup_dict_of|]. intros k Hk.
    apply elem_of_keys_dict_of, elem_of_zip_fst, list_elem_of_fmap in Hk as (e & -> & He).
    eapply Forall_forall in Hf; [|exact He]. apply elem_of_scored in Hf as (? & ? & ? & ?).
    exists e. split_and!; try done. unfold pay_key. case_bool_decide; [by left | by right].
  - unfold compute_weights in Hw. rewrite Hck in Hw.
    destruct (_champion _ _ _ _); [done|]. injection Hw as <-.
    split; [constructor | by intros ? ?%elem_of_nil].
Qed.

(** Only full-benchmark, fold-ready rows with a positive effective score
    are paid. No key appears twice; every key but the unpaid marker is the
    hotkey of such a row whose agent is not the provisional incumbent; and the
    marker appears only for the incumbent or a row that carries it as hotkey. *)
Lemma compute_weights_recipients m entries w :
  compute_weights m entries = Ok w →
  NoDup w.*1 ∧
  ∀ k, k ∈ w.*1 → ∃ e, e ∈ entries ∧ _entry_eligible e = true ∧
    _dueling_fold_ready e = true ∧ fgtb (_effective_composite e) zero = true ∧
    ((Some (agent_id e) = unpaid_agent_id m ∧ k = UNPAID_SHARE_KEY) ∨
     (Some (agent_id e) ≠ unpaid_agent_id m ∧ k = miner_hotkey e)).
Proof. apply compute_weights_keys. Qed.

Lemma distinct_ranked_perm l1 l2 : l1 ≡ₚ l2 → agents_distinct l1 →
  _distinct_ranked l1 = _distinct_ranked l2.
Proof. intros Hp Hd. unfold _distinct_ranked. by rewrite (ranked_perm _ _ Hp Hd). Qed.

Lemma cohort_perm p l1 l2 champion : l1 ≡ₚ l2 → agents_distinct l1 →
  _score_ceiling_cohort p l1 champion = _score_ceiling_cohort p l2 champion.
Proof.
  intros Hp Hd. unfold _score_ceiling_cohort.
  by rewrite (quality_primary_perm _ _ Hp), (distinct_ranked_perm _ _ Hp Hd).
Qed.

(** C1: consensus: the memory vector is a function of the set of served
    rows. Validators that receive the same ledger in different orders compute
    the same dict, with the same items in the same order, or the same error. *)
Theorem compute_weights_order_independent m l1 l2 :
  l1 ≡ₚ l2 → agents_distinct l1 → compute_weights m l1 = compute_weights m l2.
Proof.
  intros Hp Hd. unfold compute_weights. fold (scored_pool l1) (scored_pool l2).
  apply scored_pool_perm in Hp. apply scored_pool_distinct in Hd.
  rewrite (champion_perm _ _ _ _ _ Hp Hd). destruct (_champion _ _ _ _) as [c|]; [|done].
  unfold recipients_and_shares.
  by rewrite (cohort_perm _ _ _ c Hp Hd), (tail_perm _ _ c _ _ Hp Hd).
Qed.

(** The champion takes the first rank share. Without tie pooling, on a
    ledger with one row per agent whose hotkeys are not the marker, the
    champion's key holds exactly [rank_shares[0]]: no tail slot overwrites it. *)
Lemma champion_first_share m entries c share rest :
  agents_distinct entries → Forall (λ e, miner_hotkey e ≠ UNPAID_SHARE_KEY) entries →
  tie_pooling m = false → check_rank_shares (tail_size m) (rank_shares m) = Ok tt →
  rank_shares m = share :: rest →
  select_champion (fold_params m) (incumbent_agent_id m) (crown_gate m) entries = Some c →
  ∃ w, compute_weights m entries = Ok w ∧ dict_get (pay_key (unpaid_agent_id m) c) w = Some share.
Proof.
  intros Hd Hh Ht Hck Hs Hc.
  assert (_champion (fold_params m) (incumbent_agent_id m) (crown_gate m)
    (scored_pool entries) = Some c) as Hc'.
  { unfold select_champion in Hc. fold (scored_pool entries) in Hc.
    by destruct (scored_pool entries). }
  destruct (compute_weights_run m entries Hck)
    as [[Hnil _]|(c' & rs & ss & Hc2 & Hr & Hl & _ & Hf & _ & Hw)].
  { rewrite Hnil in Hc'. apply champion_elem in Hc'. by apply elem_of_nil in Hc'. }
  rewrite Hc' in Hc2. injection Hc2 as <-. eexists. split; [exact Hw|].
  unfold recipients_and_shares in Hr. rewrite Ht, Hs in Hr. cbn in Hr. injection Hr as <- <-.
  cbn [fmap list_fmap zip zip_with]. apply dict_get_of_once. intros Hin.
  apply elem_of_zip_fst, list_elem_of_fmap in Hin as (e & Hk & He).
  assert (e ∈ entries ∧ c ∈ entries) as [Hee Hce].
  { apply Forall_cons in Hf as [Hcs Hf]. eapply Forall_forall in Hf; [|exact He].
    apply elem_of_scored in Hf, Hcs. tauto. }
  apply tail_elem in He as [_ Hne].
  pose proof (proj1 (Forall_forall _ _) Hh e Hee) as He2.
  pose proof (proj1 (Forall_forall _ _) Hh c Hce) as Hc2. cbv beta in He2, Hc2.
  revert Hk. unfold pay_key. case_bool_decide as H1; case_bool_decide as H2; try congruence.
  intros _. apply Hne. f_equal. apply (agents_distinct_eq entries); [done..|]. congruence.
Qed.
End memory_properties.

(** * The ranked folds *)

#[global] Instance router_key_order : CmpOrder router_key.
Proof.
  apply cmp_then_order; [apply cmp_desc_order, cmp_by_order, fcompare_order|].
  apply cmp_then_order; apply cmp_by_order, Zcompare_order.
Qed.
#[global] Instance generator_key_order : CmpOrder generator_key.
Proof.
  apply cmp_then_order; [apply cmp_desc_order, cmp_by_order, fcompare_order|].
  apply cmp_then_order; apply cmp_by_order, Zcompare_order.
Qed.

Lemma cmp_by_distinct {A} (cmp : A → A → comparison) (id : A → Z) (l : list A) :
  (∀ a b, cmp a b = Eq → id a = id b) → NoDup (id <$> l) → key_distinct cmp l.
Proof.
  intros Hid Hnd a b Ha Hb Heq. apply Hid in Heq.
  induction l as [|x l IH]; [by apply elem_of_nil in Ha|].
  simpl in Hnd. apply NoDup_cons in Hnd as [Hx Hnd].
  apply elem_of_cons in Ha as [->|Ha], Hb as [->|Hb]; try done; [..|by apply IH];
    destruct Hx; [rewrite Heq | rewrite <- Heq]; by apply list_elem_of_fmap_2.
Qed.

(** Ranking a pool and handing out the shares by position. *)
Section ranked_fold.
Context {A : Type} (cmp : A → A → comparison) `{!CmpOrder cmp} (hotkey : A → string).

Definition ranked_vector (scored : list A) (rank_shares : list F64) : vector :=
  dict_of (zip (hotkey <$> distinct_by hotkey [] (py_sorted cmp scored)) rank_shares).

Lemma ranked_vector_zip scored s : ranked_vector scored s =
  zip (hotkey <$> distinct_by hotkey [] (py_sorted cmp scored)) s.
Proof.
  unfold ranked_vector. apply dict_of_NoDup.
  set (l := hotkey <$> _). assert (NoDup l) as Hnd by apply distinct_by_NoDup.
  clearbody l. revert s. induction Hnd as [|k l Hk Hnd IH]; intros [|x s]; simpl;
    [constructor..|]. constructor; [|apply IH]. by intros ?%elem_of_zip_fst.
Qed.

(** Who is paid: distinct hotkeys of the pool, best first; the shares are used
    in order; nobody is left out while a share is left. *)
Definition ranked_payout (scored : list A) (rank_shares : list F64) (w : vector) : Prop :=
  NoDup w.*1 ∧ w.*2 `prefix_of` rank_shares ∧
  (∀ h, h ∈ w.*1 → ∃ e, e ∈ scored ∧ hotkey e = h) ∧
  (∀ e, e ∈ scored → hotkey e ∉ w.*1 → length w = length rank_shares).

Lemma zip_snd_prefix {B C} (l : list B) (k : list C) : (zip l k).*2 `prefix_of` k.
Proof.
  revert k. induction l as [|b l IH]; intros [|c k]; simpl; try apply prefix_nil.
  apply prefix_cons, IH.
Qed.

Lemma ranked_vector_payout scored s : ranked_payout scored s (ranked_vector scored s).
Proof.
  assert (∀ h, h ∈ (ranked_vector scored s).*1 →
    h ∈ (hotkey <$> distinct_by hotkey [] (py_sorted cmp scored))) as Hsub.
  { rewrite ranked_vector_zip. intros h. apply elem_of_zip_fst. }
  repeat split.
  - apply NoDup_dict_of.
  - rewrite ranked_vector_zip. apply zip_snd_prefix.
  - intros h (e & -> & He)%Hsub%list_elem_of_fmap. exists e. split; [|done].
    apply (elem_of_py_sorted cmp). eapply elem_of_submseteq; [exact He|].
    apply sublist_submseteq, distinct_by_sublist.
  - intros e He Hout. rewrite ranked_vector_zip in *.
    apply (elem_of_py_sorted cmp) in He.
    destruct (distinct_by_covers hotkey [] _ _ He) as [Hnil|Hin]; [by apply elem_of_nil in Hnil|].
    rewrite length_zip. set (l := hotkey <$> _) in *.
    destruct (Nat.le_gt_cases (length l) (length s)) as [Hle|]; [|lia].
    destruct Hout. by rewrite fst_zip.
Qed.

Lemma ranked_vector_perm scored1 scored2 s :
  scored1 ≡ₚ scored2 → key_distinct cmp scored1 →
  ranked_vector scored1 s = ranked_vector scored2 s.
Proof. intros Hp Hd. unfold ranked_vector. by rewrite (py_sorted_perm_eq cmp _ _ Hp Hd). Qed.
End ranked_fold.

Definition router_scored (entries : list RouterLedgerEntry) : list RouterLedgerEntry :=
  filter (λ e, router_weight_eligible e && fgtb (combined_score e) zero = true) entries.
Definition generator_scored (entries : list GeneratorLedgerEntry) : list GeneratorLedgerEntry :=
  filter (λ e, generator_weight_eligible e &&
            (isfinite (generator_score e) && fgtb (generator_score e) zero) = true) entries.

(** Who the ranked folds pay. *)
Lemma router_keys entries rank_shares h : h ∈ (compute_router_weights entries rank_shares).*1 →
  ∃ e, e ∈ router_scored entries ∧ router_hotkey e = h.
Proof.
  unfold compute_router_weights. destruct (existsb bad_share rank_shares);
    [by intros ?%elem_of_nil|]. apply (ranked_vector_payout router_key).
Qed.
Lemma generator_keys entries rank_shares h :
  h ∈ (compute_generator_weights entries rank_shares).*1 →
  ∃ e, e ∈ generator_scored entries ∧ generator_hotkey e = h.
Proof.
  unfold compute_generator_weights. destruct (existsb bad_share rank_shares);
    [by intros ?%elem_of_nil|]. apply (ranked_vector_payout generator_key).
Qed.

(** The router fold pays, by rank, distinct hotkeys of weight-eligible
    entries with a positive score; the shares are used in order and no such
    hotkey is left out while a share remains; malformed shares pay nobody; and
    on a feed with one row per agent the order of the rows is irrelevant. *)
Lemma router_fold_correct entries entries' rank_shares :
  (existsb bad_share rank_shares = true → compute_router_weights entries rank_shares = []) ∧
  (existsb bad_share rank_shares = false →
    ranked_payout router_hotkey (router_scored entries) rank_shares
      (compute_router_weights entries rank_shares)) ∧
  (entries ≡ₚ entries' → NoDup (router_agent_id <$> entries) →
    compute_router_weights entries rank_shares = compute_router_weights entries' rank_shares).
Proof.
  unfold compute_router_weights. destruct (existsb bad_share rank_shares).
  { split_and!; done. }
  split_and!; [done | intros _; apply (ranked_vector_payout router_key) |].
  intros Hp Hnd. apply (ranked_vector_perm router_key router_hotkey).
  - by rewrite Hp.
  - apply (key_distinct_incl _ _ entries).
    { intros e. rewrite list_elem_of_filter. tauto. }
    apply (cmp_by_distinct _ router_agent_id); [|done].
    intros a b H. apply cmp_then_Eq, cmp_then_Eq in H. by apply Z.compare_eq.
Qed.

(** The generator fold pays, by rank, distinct hotkeys of weight-eligible
    entries with a finite positive score, with the same guarantees. *)
Lemma generator_fold_correct entries entries' rank_shares :
  (existsb bad_share rank_shares = true → compute_generator_weights entries rank_shares = []) ∧
  (existsb bad_share rank_shares = false →
    ranked_payout generator_hotkey (generator_scored entries) rank_shares
      (compute_generator_weights entries rank_shares)) ∧
  (entries ≡ₚ entries' → NoDup (submission_id <$> entries) →
    compute_generator_weights entries rank_shares = compute_generator_weights entries' rank_shares).
Proof.
  unfold compute_generator_weights. destruct (existsb bad_share rank_shares).
  { split_and!; done. }
  split_and!; [done | intros _; apply (ranked_vector_payout generator_key) |].
  intros Hp Hnd. apply (ranked_vector_perm generator_key generator_hotkey).
  - by rewrite Hp.
  - apply (key_distinct_incl _ _ entries).
    { intros e. rewrite list_elem_of_filter. tauto. }
    apply (cmp_by_distinct _ submission_id); [|done].
    intros a b H. apply cmp_then_Eq, cmp_then_Eq in H. by apply Z.compare_eq.
Qed.

(** * Concrete instances *)

Definition sample_fold (pooling : bool) (unpaid : option Z) : MemoryFoldParams := {|
  fold_params := sample_params; tail_size := 1; rank_shares := [flit 6 10; flit 4 10];
  tie_pooling := pooling; incumbent_agent_id := None; unpaid_agent_id := unpaid;
  crown_gate := None |}.

(** [bob] takes the crown from [alice]; [carol] ties with him and takes the tail. *)
Example sample_weights :
  compute_weights (L := sample_libm) (sample_fold false None) sample_pool =
  Ok [("bob", flit 6 10); ("carol", flit 4 10)]%string.
Proof. vm_compute. reflexivity. Qed.
(** With pooling the tied pair shares the mean; unpaid, the crown's slot is marked. *)
Example sample_weights_pooled :
  compute_weights (L := sample_libm) (sample_fold true (Some 2)) sample_pool =
  Ok [(UNPAID_SHARE_KEY, flit 5 10); ("carol", flit 5 10)]%string.
Proof. vm_compute. reflexivity. Qed.

Lemma pool_implements_groups_witness :
  ∃ out, _pool_tied_rank_shares (L := sample_libm) sample_params [bob; carol; alice]
      [flit 5 10; flit 3 10; flit 2 10] = Ok out ∧
    pooled_groups (_weight_tied (L := sample_libm) sample_params) [bob; carol; alice]
      [flit 5 10; flit 3 10; flit 2 10] out ∧
    length out = 3%nat.
Proof.
  exact (pool_implements_groups (L := sample_libm) sample_params [bob; carol; alice]
    [flit 5 10; flit 3 10; flit 2 10] eq_refl).
Defined.

Lemma compute_weights_total_witness :
  ∃ w, compute_weights (L := sample_libm) (sample_fold true None) sample_pool = Ok w ∧
    (w = [] ↔ scored_pool sample_pool = []).
Proof.
  apply (compute_weights_total (L := sample_libm) (sample_fold true None) sample_pool).
  vm_compute. reflexivity.
Defined.

Lemma compute_weights_recipients_witness :
  NoDup [UNPAID_SHARE_KEY; "carol"%string].
Proof.
  refine (proj1 (compute_weights_recipients (L := sample_libm) (sample_fold true (Some 2))
    sample_pool [(UNPAID_SHARE_KEY, flit 5 10); ("carol"%string, flit 5 10)] _)).
  vm_compute. reflexivity.
Defined.

Lemma compute_weights_order_independent_witness :
  compute_weights (L := sample_libm) (sample_fold true None) sample_pool =
  compute_weights (L := sample_libm) (sample_fold true None) (rev sample_pool).
Proof.
  apply (compute_weights_order_independent (L := sample_libm) (sample_fold true None)).
  - apply Permutation_rev.
  - apply (bool_decide_unpack _). vm_compute. exact I.
Defined.

Lemma champion_first_share_witness :
  ∃ w, compute_weights (L := sample_libm) (sample_fold false None) sample_pool = Ok w ∧
    dict_get "bob"%string w = Some (flit 6 10).
Proof.
  apply (champion_first_share (L := sample_libm) (sample_fold false None) sample_pool bob
           (flit 6 10) [flit 4 10]).
  - apply (bool_decide_unpack _). vm_compute. exact I.
  - repeat constructor; vm_compute; discriminate.
  - reflexivity.
  - vm_compute. reflexivity.
  - reflexivity.
  - vm_compute. reflexivity.
Defined.
