(* ===== verification/Blend.v ===== *)
(** From track vectors to the submitted vector, in [ditto/validator/weights.py]:
    the track blend, the hand-over of unclaimed shares, the provisional
    incumbent's split, the burn cap and the two governance resolvers. *)
From Stdlib Require Import ZArith Lia.
From stdpp Require Import base list gmap strings sorting.
From S2P Require Import Prelude Binary64 Dueling Ledger Crown Emission.

Notation shares := (list (string * Z)).

(** * Blending the tracks *)

Definition _has_positive_weight (v : vector) : bool := existsb (λ kv, fgtb kv.2 zero) v.

Definition positives (v : vector) : vector := filter (λ kv, fgtb kv.2 zero = true) v.

(** [shares.get(track, 0)] *)
Definition bps_of (shares_bps : shares) (track : string) : Z := default 0 (dict_get track shares_bps).

Definition contributing (vectors : list (string * vector)) (shares_bps : shares)
    : list (string * vector) :=
  filter (λ tv, _has_positive_weight tv.2 && (0 <? bps_of shares_bps tv.1) = true) vectors.

(** [combined[hotkey] = combined.get(hotkey, 0.0) + weight * scale] *)
Definition accrue (scale : F64) (combined : vector) (hw : string * F64) : vector :=
  dict_set hw.1 (fadd (default zero (dict_get hw.1 combined)) (fmul hw.2 scale)) combined.

Definition blend_step (shares_bps : shares) (combined : vector) (tv : string * vector) : vector :=
  let total := fsum (positives tv.2).*2 in
  if fleb total zero then combined else
  let scale := fdiv (int_truediv (bps_of shares_bps tv.1) BASIS_POINT_SCALE) total in
  foldl (accrue scale) combined (positives tv.2).

Definition blend_track_weights (vectors : list (string * vector)) (shares_bps : shares) : vector :=
  match contributing vectors shares_bps with
  | [] => []
  | [(only_id, only_vector)] as contrib =>
      if bps_of shares_bps only_id =? BASIS_POINT_SCALE then positives only_vector
      else foldl (blend_step shares_bps) [] contrib
  | contrib => foldl (blend_step shares_bps) [] contrib
  end.

Definition vector_of (vectors : list (string * vector)) (track : string) : vector :=
  default [] (dict_get track vectors).

Definition track_allocated_share (shares_bps : shares) (vectors : list (string * vector)) : F64 :=
  let allocated := sum_Z (filter (λ tb, (0 <? tb.2) &&
                     _has_positive_weight (vector_of vectors tb.1) = true) shares_bps).*2 in
  int_truediv allocated BASIS_POINT_SCALE.

(** The guard of the loop of [reassign_unclaimed_shares], as the target the
    track's bps move to. *)
Definition moves_to (original : shares) (vectors : list (string * vector))
    (fallbacks : list (string * string)) (track : string) : option string :=
  match dict_get track fallbacks with
  | None => None
  | Some target =>
      if bool_decide (target = track) || bool_decide (dict_get target original = None) ||
         _has_positive_weight (vector_of vectors track)
      then None else Some target
  end.

Definition reassign_step (original : shares) (vectors : list (string * vector))
    (fallbacks : list (string * string)) (resolved : shares) (track : string) : shares :=
  match moves_to original vectors fallbacks track with
  | None => resolved
  | Some target =>
      let resolved := dict_set track (bps_of resolved track - bps_of original track) resolved in
      dict_set target (bps_of resolved target + bps_of original track) resolved
  end.

Definition paying_bps (shares_bps : shares) : shares := filter (λ tb, 0 < tb.2) shares_bps.

Definition reassign_unclaimed_shares (shares_bps : shares) (vectors : list (string * vector))
    (fallbacks : list (string * string)) : shares :=
  let original := paying_bps shares_bps in
  paying_bps (foldl (reassign_step original vectors fallbacks) original
                (py_sorted str_cmp original.*1)).

Definition split_unpaid_share (weights : vector) : vector * F64 :=
  match dict_get UNPAID_SHARE_KEY weights with
  | None => (weights, one)
  | Some _ =>
      let paid := filter (λ kv, kv.1 ≠ UNPAID_SHARE_KEY) weights in
      let total := fsum (positives weights).*2 in
      if fleb total zero then (paid, zero)
      else (paid, fdiv (fsum (positives paid).*2) total)
  end.

(** * The burn *)

(** A ledger attribute read with [getattr]: the Python values the two
    resolvers tell apart. *)
Inductive PyValue :=
  | PyNone
  | PyBool (b : bool)
  | PyInt (i : Z)
  | PyFloat (x : F64)
  | PyOther.

Definition resolve_miner_emission_share (burn_share : PyValue) (default_share : F64) : F64 :=
  match (match burn_share with
         | PyInt i => Some (of_int i)
         | PyFloat x => Some x
         | PyNone | PyBool _ | PyOther => None
         end) with
  | None => default_share
  | Some burn_share =>
      if negb (unit_interval burn_share) then default_share else fsub one burn_share
  end.

Definition apply_miner_emission_cap (weights : vector) (miner_share : F64) (burn_hotkey : string)
    : result vector :=
  if negb (fleb zero miner_share && fleb miner_share one)
  then Err (ValueError "miner_share must be in [0, 1]") else
  let miners := filter (λ hw, hw.1 ≠ burn_hotkey ∧ fgtb hw.2 zero = true) weights in
  let total := py_sum miners.*2 in
  if (fleb total zero || fltb miner_share one) && String.eqb burn_hotkey ""
  then Err (ValueError "burn_hotkey must be non-empty") else
  if fleb total zero then Ok [(burn_hotkey, one)] else
  let capped := (λ hw, (hw.1, fmul (fdiv hw.2 total) miner_share)) <$> miners in
  let burn_share := fsub one miner_share in
  if fgtb burn_share zero then Ok (dict_set burn_hotkey burn_share capped) else Ok capped.

Definition owner_burn_destination_required (weights : vector)
    (miner_share paid_miner_fraction : F64) (service_bps : Z) : bool :=
  if negb (isfinite miner_share) || negb (isfinite paid_miner_fraction) ||
     negb (fleb zero miner_share && fleb miner_share one) ||
     negb (fleb zero paid_miner_fraction && fleb paid_miner_fraction one) ||
     negb ((0 <=? service_bps) && (service_bps <=? 10000))
  then true else
  let positive := existsb (λ hw, fgtb hw.2 zero) weights in
  let service := int_truediv service_bps 10000 in
  let paid := if positive then fmul (fmul (fsub one service) miner_share) paid_miner_fraction
              else zero in
  fgtb (fsub (fsub one service) paid) zero.

(** * The track split *)

(** [track_shares_bps]: [None] where the value is not a mapping; a key that is
    not a [str] is [None]. *)
Definition bps_entry (kv : option string * PyValue) : option (string * Z) :=
  match kv with
  | (Some track_id, PyInt bps) =>
      if String.eqb track_id "" || negb ((0 <=? bps) && (bps <=? BASIS_POINT_SCALE))
      then None else Some (track_id, bps)
  | _ => None
  end.

Definition resolve_track_shares (raw : option (list (option string * PyValue)))
    (default : shares) : shares :=
  match raw with
  | None | Some [] => default
  | Some items =>
      match mapM bps_entry items with
      | None => default
      | Some resolved =>
          if BASIS_POINT_SCALE <? sum_Z resolved.*2 then default else resolved
      end
  end.

(** * The blend *)

(** A finite double divided by a larger one. *)
Lemma fgtb_zero_cases x : fgtb x zero = true → (∃ z, x = Fin z ∧ 0 < z) ∨ x = PInf.
Proof.
  unfold fgtb, zero. destruct x as [z| | |]; simpl; try done; [|by right].
  intros Hz%Z.ltb_lt. left. by exists z.
Qed.

Lemma exact_sum_pos xs : Forall (λ x, fgtb x zero = true) xs → xs ≠ [] →
  forallb isfinite xs = true → 0 < foldr (λ x s, fin_part x + s) 0 xs.
Proof.
  intros Hp Hne. assert (∀ ys, Forall (λ x, fgtb x zero = true) ys →
    forallb isfinite ys = true → 0 <= foldr (λ x s, fin_part x + s) 0 ys) as Hge.
  { induction 1 as [|y ys Hy Hys IH]; simpl; [lia|]. intros [Hf Hfs]%andb_true_iff.
    apply fgtb_zero_cases in Hy as [(z & -> & Hz)| ->]; [|done]. simpl. specialize (IH Hfs). lia. }
  destruct Hp as [|x xs Hx Hxs]; [done|]. simpl. intros [Hf Hfs]%andb_true_iff.
  apply fgtb_zero_cases in Hx as [(z & -> & Hz)| ->]; [|done]. simpl.
  specialize (Hge _ Hxs Hfs). lia.
Qed.

Lemma rep_1 : rep 1.
Proof. apply (bool_decide_unpack _). vm_compute. exact I. Qed.

Lemma round_pos_fgtb n d : 0 < d → d <= n → fgtb (round n d) zero = true.
Proof.
  intros Hd Hn. pose proof (round_mono 1 1 n d ltac:(lia) Hd ltac:(lia)) as Hm.
  rewrite (round_rep 1 rep_1) in Hm. unfold fgtb, zero.
  apply fltb_fleb_trans with (Fin 1); [reflexivity | exact Hm].
Qed.

(** The exact sum of positive weights is positive: the blend never skips a
    contributing track. *)
Lemma fsum_positive xs : Forall (λ x, fgtb x zero = true) xs → xs ≠ [] →
  fleb (fsum xs) zero = false.
Proof.
  intros Hp Hne. unfold fsum. destruct (forallb isfinite xs) eqn:Ef.
  - pose proof (exact_sum_pos _ Hp Hne Ef) as Hs.
    pose proof (round_pos_fgtb (foldr (λ x s, fin_part x + s) 0 xs) 1 ltac:(lia) ltac:(lia)) as Hg.
    revert Hg. generalize (round (foldr (λ x s, fin_part x + s) 0 xs) 1). intros y Hy.
    apply fgtb_zero_cases in Hy as [(z & -> & Hz)| ->]; [|done].
    apply not_true_iff_false. unfold zero. rewrite fleb_Fin. lia.
  - assert (∃ x, x ∈ filter (λ x, isfinite x = false) xs) as [x Hx].
    { clear -Ef. induction xs as [|x xs IH]; [done|]. simpl in Ef.
      destruct (isfinite x) eqn:Ex.
      - destruct (IH Ef) as [y Hy]. exists y.
        rewrite list_elem_of_filter in *. destruct Hy. split; [done | by right].
      - exists x. apply list_elem_of_filter. split; [done | by left]. }
    assert (Forall (λ x, x = PInf) (filter (λ x, isfinite x = false) xs)) as Hinf.
    { apply Forall_forall. intros y [Hy Hin]%list_elem_of_filter.
      eapply Forall_forall in Hp; [|exact Hin].
      apply fgtb_zero_cases in Hp as [(z & -> & _)| ->]; [discriminate Hy | done]. }
    destruct (filter _ xs) as [|y ys]; [by apply elem_of_nil in Hx|].
    assert (foldr fadd (Fin 0) (y :: ys) = PInf) as ->; [|done].
    clear -Hinf. revert y Hinf. induction ys as [|z ys IH]; intros y Hinf;
      apply Forall_cons in Hinf as [-> Hinf]; [done|].
    change (fadd PInf (foldr fadd (Fin 0) (z :: ys)) = PInf). by rewrite (IH z Hinf).
Qed.

Lemma positives_Forall v : Forall (λ x, fgtb x zero = true) (positives v).*2.
Proof.
  apply Forall_fmap, Forall_forall. intros kv Hkv. by apply list_elem_of_filter in Hkv as [? _].
Qed.

Lemma positives_ne v : _has_positive_weight v = true → (positives v).*2 ≠ [].
Proof.
  unfold _has_positive_weight. intros H. apply existsb_exists in H as (kv & Hin & Hp).
  intros Hnil. assert (kv ∈ positives v) as Hk
    by (apply list_elem_of_filter; split; [done | by apply list_elem_of_In]).
  destruct (positives v); [by apply elem_of_nil in Hk | done].
Qed.

Lemma keys_accrue scale hws acc h :
  h ∈ (foldl (accrue scale) acc hws).*1 ↔ h ∈ acc.*1 ∨ h ∈ hws.*1.
Proof.
  revert acc. induction hws as [|[k w] hws IH]; intros acc; simpl.
  { split; [by left | intros [?|?%elem_of_nil]; done]. }
  rewrite IH. unfold accrue at 1. rewrite elem_of_keys_dict_set, elem_of_cons. simpl. tauto.
Qed.

Lemma keys_blend shares_bps contrib acc h :
  Forall (λ tv, _has_positive_weight tv.2 = true) contrib →
  h ∈ (foldl (blend_step shares_bps) acc contrib).*1 ↔
  h ∈ acc.*1 ∨ ∃ tv, tv ∈ contrib ∧ h ∈ (positives tv.2).*1.
Proof.
  intros Hf. revert acc. induction Hf as [|tv contrib Htv Hf IH]; intros acc; simpl.
  { split; [by left | intros [?|(? & ?%elem_of_nil & _)]; done]. }
  rewrite IH. unfold blend_step at 1.
  rewrite (fsum_positive _ (positives_Forall _) (positives_ne _ Htv)), keys_accrue.
  setoid_rewrite elem_of_cons. split.
  - intros [[?|?]|(tv' & ? & ?)]; [by left | right; exists tv; auto | right; exists tv'; auto].
  - intros [?|(tv' & [->|?] & ?)]; [auto | auto | right; by exists tv'].
Qed.

(** Who the blend pays. *)
Lemma blend_keys vectors shares_bps h :
  h ∈ (blend_track_weights vectors shares_bps).*1 ↔
  ∃ t v w, (t, v) ∈ vectors ∧ 0 < bps_of shares_bps t ∧ (h, w) ∈ v ∧ fgtb w zero = true.
Proof.
  assert ((∃ tv, tv ∈ contributing vectors shares_bps ∧ h ∈ (positives tv.2).*1) ↔
    ∃ t v w, (t, v) ∈ vectors ∧ 0 < bps_of shares_bps t ∧ (h, w) ∈ v ∧ fgtb w zero = true) as <-.
  { split.
    - intros ([t v] & [Hc Hin]%list_elem_of_filter & ([h' w] & -> & Hw)%list_elem_of_fmap).
      apply list_elem_of_filter in Hw as [Hp Hw]. apply andb_true_iff in Hc as [_ Hb].
      exists t, v, w. split_and!; [done | by apply Z.ltb_lt | done | done].
    - intros (t & v & w & Hin & Hb & Hw & Hp). exists (t, v). split.
      + apply list_elem_of_filter. split; [|done]. apply andb_true_iff. split.
        * apply existsb_exists. exists (h, w). split; [by apply list_elem_of_In | done].
        * by apply Z.ltb_lt.
      + apply list_elem_of_fmap. exists (h, w). split; [done|]. by apply list_elem_of_filter. }
  assert (Forall (λ tv, _has_positive_weight tv.2 = true) (contributing vectors shares_bps)) as Hf.
  { apply Forall_forall. intros tv [Hc _]%list_elem_of_filter. by apply andb_true_iff in Hc as [? _]. }
  pose proof (keys_blend shares_bps _ [] h Hf) as Hk.
  unfold blend_track_weights. destruct (contributing vectors shares_bps) as [|[t v] [|tv' rest]].
  - split; [by intros ?%elem_of_nil | by intros (? & ?%elem_of_nil & _)].
  - destruct (bps_of shares_bps t =? BASIS_POINT_SCALE).
    + split; [intros Hh; exists (t, v); split; [left | done]|].
      intros (tv & ->%list_elem_of_singleton & Hh). done.
    + rewrite Hk. split; [intros [?%elem_of_nil|?] | right]; done.
  - rewrite Hk. split; [intros [?%elem_of_nil|?] | right]; done.
Qed.

(** The blend pays exactly the miners of the paying tracks: a hotkey is in
    the blended vector if and only if some track with positive basis points
    gives it a positive weight. No track is lost and no miner is invented. *)
Lemma blend_pays_contributors vectors shares_bps h :
  h ∈ (blend_track_weights vectors shares_bps).*1 ↔
  ∃ t v w, (t, v) ∈ vectors ∧ 0 < bps_of shares_bps t ∧ (h, w) ∈ v ∧ fgtb w zero = true.
Proof. apply blend_keys. Qed.

(** The regression guard: when a single track pays and it holds the whole
    10000 basis points, the blend is that track's own vector, bit for bit, less
    its non-positive entries; and the allocated share is exactly one. *)
Lemma blend_passthrough vectors shares_bps t v :
  NoDup vectors.*1 → NoDup shares_bps.*1 →
  (t, v) ∈ vectors → _has_positive_weight v = true → bps_of shares_bps t = BASIS_POINT_SCALE →
  (∀ t' v', (t', v') ∈ vectors → t' ≠ t →
     _has_positive_weight v' = false ∨ bps_of shares_bps t' <= 0) →
  blend_track_weights vectors shares_bps = positives v ∧
  track_allocated_share shares_bps vectors = one.
Proof.
  intros Hnv Hns Hin Hp Hb Hother.
  split.
  - unfold blend_track_weights, contributing.
    rewrite (filter_single vectors (λ tv, _has_positive_weight tv.2 && (0 <? bps_of shares_bps tv.1)) t v);
      [by rewrite Hb, Z.eqb_refl | done | done | by simpl; rewrite Hp, Hb |].
    intros t' v' Hin' Hne. simpl. destruct (Hother t' v' Hin' Hne) as [->|Hle]; [done|].
    apply andb_false_iff. right. by apply Z.ltb_ge.
  - unfold track_allocated_share.
    assert (∃ b, (t, b) ∈ shares_bps ∧ b = BASIS_POINT_SCALE) as (b & Hbin & ->).
    { revert Hb. unfold bps_of. destruct (dict_get t shares_bps) as [b|] eqn:Eb; [|done].
      simpl. intros ->. apply dict_get_Some_elem in Eb. eauto. }
    rewrite (filter_single shares_bps (λ tb, (0 <? tb.2) && _has_positive_weight (vector_of vectors tb.1))
      t BASIS_POINT_SCALE); [vm_compute; reflexivity | done | done | |].
    + simpl. unfold vector_of. by rewrite (elem_dict_get _ _ _ Hnv Hin).
    + intros t' b' Hin' Hne. simpl. unfold vector_of.
      destruct (dict_get t' vectors) as [v'|] eqn:Ev; [|by rewrite andb_false_r].
      apply dict_get_Some_elem in Ev. destruct (Hother t' v' Ev Hne) as [H|Hle].
      * simpl. by rewrite H, andb_false_r.
      * revert Hle. unfold bps_of. rewrite (elem_dict_get _ _ _ Hns Hin'). simpl. intros.
        apply andb_false_iff. left. by apply Z.ltb_ge.
Qed.

(** * Unclaimed shares *)

Lemma bps_of_set k v d t : bps_of (dict_set k v d) t = if decide (t = k) then v else bps_of d t.
Proof. unfold bps_of. rewrite dict_get_set. by case_decide. Qed.

Lemma sum_dict_set (d : shares) k v : NoDup d.*1 →
  sum_Z (dict_set k v d).*2 = sum_Z d.*2 - bps_of d k + v.
Proof.
  unfold bps_of. induction d as [|[k0 v0] d IH]; csimpl; intros Hnd; [lia|].
  apply NoDup_cons in Hnd as [Hk Hnd]. case_decide as Hd; csimpl; [lia|].
  rewrite IH by done. lia.
Qed.

Lemma NoDup_keys_filter {V} (P : string * V → Prop) `{∀ x, Decision (P x)} (d : list (string * V)) :
  NoDup d.*1 → NoDup (filter P d).*1.
Proof. intros Hnd. eapply sublist_NoDup; [exact Hnd|]. apply fmap_sublist, sublist_filter. Qed.

Lemma bps_of_elem d t b : NoDup d.*1 → (t, b) ∈ d → bps_of d t = b.
Proof. intros Hnd Hin. unfold bps_of. by rewrite (elem_dict_get _ _ _ Hnd Hin). Qed.

Lemma bps_of_paying d t : NoDup d.*1 →
  bps_of (paying_bps d) t = Z.max 0 (bps_of d t).
Proof.
  intros Hnd. unfold bps_of at 2. destruct (dict_get t d) as [b|] eqn:Eb; simpl.
  - apply dict_get_Some_elem in Eb. destruct (Z.lt_ge_cases 0 b).
    + rewrite (bps_of_elem _ t b); [lia | by apply NoDup_keys_filter |].
      by apply list_elem_of_filter.
    + unfold bps_of. destruct (dict_get t (paying_bps d)) as [b'|] eqn:Eb'; [|simpl; lia].
      apply dict_get_Some_elem, list_elem_of_filter in Eb' as [Hp Hin]. simpl in Hp.
      rewrite <- (bps_of_elem d t b), (bps_of_elem d t b') in * by done. lia.
  - unfold bps_of. destruct (dict_get t (paying_bps d)) as [b'|] eqn:Eb'; [|done].
    apply dict_get_Some_elem, list_elem_of_filter in Eb' as [_ Hin].
    rewrite (elem_dict_get _ _ _ Hnd Hin) in Eb. done.
Qed.

Lemma sum_paying (d : shares) : (∀ t b, (t, b) ∈ d → 0 <= b) →
  sum_Z (paying_bps d).*2 = sum_Z d.*2.
Proof.
  induction d as [|[t b] d IH]; intros Hge; [done|]. unfold paying_bps in *.
  pose proof (Hge t b ltac:(left)). assert (∀ t b, (t, b) ∈ d → 0 <= b) as Hge'.
  { intros ? ? ?. eapply Hge. by right. }
  destruct (decide (0 < b)).
  - rewrite filter_cons_True by done. csimpl. by rewrite IH.
  - rewrite filter_cons_False by done. csimpl. rewrite IH by done. lia.
Qed.

Section reassign.
Context (original : shares) (vectors : list (string * vector))
  (fallbacks : list (string * string)).

Definition moves (t : string) : option string := moves_to original vectors fallbacks t.
(** What the tracks of [ts] hand over to [t]. *)
Definition received (ts : list string) (t : string) : Z :=
  sum_Z (bps_of original <$> filter (λ u, moves u = Some t) ts).
Definition gives (t : string) : Z :=
  match moves t with Some _ => bps_of original t | None => 0 end.

Lemma moves_other t t' : moves t = Some t' → t' ≠ t.
Proof.
  unfold moves, moves_to. destruct (dict_get t fallbacks); [|done].
  case_bool_decide; [done|]. simpl. destruct (_ || _); [done|]. by intros [= <-].
Qed.

Lemma bps_of_step acc u t :
  bps_of (reassign_step original vectors fallbacks acc u) t =
  bps_of acc t - (if decide (t = u) then gives u else 0) +
    (if decide (moves u = Some t) then bps_of original u else 0).
Proof.
  unfold reassign_step, gives. fold (moves u). pose proof (moves_other u) as Ho.
  destruct (moves u) as [target|].
  - specialize (Ho target eq_refl). rewrite !bps_of_set.
    destruct (decide (t = target)) as [->|]; destruct (decide (Some target = Some _));
      simplify_eq; rewrite ?(decide_False (P := target = u)) by done; try lia.
    destruct (decide (t = u)) as [->|]; lia.
  - rewrite (decide_False (P := None = Some t)) by done. destruct (decide (t = u)); lia.
Qed.

Lemma bps_of_steps ts acc t : NoDup ts →
  bps_of (foldl (reassign_step original vectors fallbacks) acc ts) t =
  bps_of acc t - (if decide (t ∈ ts) then gives t else 0) + received ts t.
Proof.
  intros Hnd. revert acc. induction Hnd as [|u ts Hu Hnd IH]; intros acc; cbn [foldl].
  { rewrite decide_False by apply not_elem_of_nil. unfold received. simpl. lia. }
  rewrite IH, bps_of_step. unfold received. rewrite filter_cons. clear IH.
  destruct (decide (t = u)) as [->|Hne].
  - rewrite (decide_True (P := u ∈ u :: ts)) by left. rewrite (decide_False (P := u ∈ ts)) by done.
    destruct (decide (moves u = Some u)); csimpl; lia.
  - assert (t ∈ u :: ts ↔ t ∈ ts) as Hiff by (rewrite elem_of_cons; naive_solver).
    rewrite (decide_ext _ _ _ _ Hiff).
    destruct (decide (moves u = Some t)); csimpl; lia.
Qed.

Lemma step_sum acc u : NoDup acc.*1 →
  sum_Z (reassign_step original vectors fallbacks acc u).*2 = sum_Z acc.*2 ∧
  NoDup (reassign_step original vectors fallbacks acc u).*1.
Proof.
  intros Hnd. unfold reassign_step. fold (moves u). pose proof (moves_other u) as Ho.
  destruct (moves u) as [target|]; [|done]. specialize (Ho target eq_refl).
  assert (∀ v, NoDup (dict_set u v acc).*1) as Hnd' by (intros; by apply NoDup_dict_set).
  split; [|by apply NoDup_dict_set].
  rewrite !sum_dict_set, bps_of_set by done. lia.
Qed.

Lemma steps_sum ts acc : NoDup acc.*1 →
  sum_Z (foldl (reassign_step original vectors fallbacks) acc ts).*2 = sum_Z acc.*2 ∧
  NoDup (foldl (reassign_step original vectors fallbacks) acc ts).*1.
Proof.
  revert acc. induction ts as [|u ts IH]; intros acc Hnd; [done|].
  destruct (step_sum acc u Hnd) as [Hs Hn]. simpl.
  destruct (IH _ Hn) as [Hs' Hn']. split; [lia | done].
Qed.
End reassign.

(** Unclaimed shares move exactly one hop and nothing is lost. With
    [moves] the hand-over decided on the original split, every track ends with
    its own basis points (none if it hands over) plus the original basis points
    of the tracks that hand over to it, never what those received; the total is
    the total of the positive shares; every entry left is positive. *)
Lemma reassign_one_hop shares_bps vectors fallbacks :
  NoDup shares_bps.*1 →
  let original := paying_bps shares_bps in
  let r := reassign_unclaimed_shares shares_bps vectors fallbacks in
  (∀ t, bps_of r t = bps_of original t - gives original vectors fallbacks t +
                     received original vectors fallbacks original.*1 t) ∧
  sum_Z r.*2 = sum_Z original.*2 ∧
  (∀ t b, (t, b) ∈ r → 0 < b).
Proof.
  intros Hnd original r.
  assert (NoDup original.*1) as Hno by by apply NoDup_keys_filter.
  set (ts := py_sorted str_cmp original.*1).
  assert (ts ≡ₚ original.*1) as Hts by apply py_sorted_perm.
  set (final := foldl (reassign_step original vectors fallbacks) original ts).
  destruct (steps_sum original vectors fallbacks ts original Hno) as [Hsum Hnf].
  fold final in Hsum, Hnf.
  assert (∀ t, 0 <= bps_of original t) as Hge.
  { intros t. unfold original. rewrite bps_of_paying by done. lia. }
  assert (∀ t, bps_of final t = bps_of original t - gives original vectors fallbacks t +
                     received original vectors fallbacks original.*1 t) as Hf.
  { intros t. unfold final. rewrite bps_of_steps by by rewrite Hts.
    assert (received original vectors fallbacks ts t =
      received original vectors fallbacks original.*1 t) as ->.
    { unfold received. by apply sum_Z_perm; rewrite Hts. }
    case_decide as Hin; [done|]. rewrite Hts in Hin.
    unfold gives. destruct (moves _ _ _ _); [|done].
    unfold bps_of. destruct (dict_get t original) as [b|] eqn:Eb; [|done].
    apply dict_get_Some_elem in Eb. destruct Hin. apply list_elem_of_fmap. by exists (t, b). }
  assert (∀ t, 0 <= bps_of final t) as Hfge.
  { intros t. rewrite Hf. pose proof (Hge t).
    assert (0 <= received original vectors fallbacks original.*1 t).
    { unfold received. apply sum_Z_nonneg, Forall_fmap, Forall_forall. intros u _. apply Hge. }
    unfold gives. destruct (moves _ _ _ _); lia. }
  split_and!.
  - intros t. rewrite <- Hf. unfold r, reassign_unclaimed_shares.
    fold original. fold ts. fold final. rewrite bps_of_paying by done. specialize (Hfge t). lia.
  - unfold r, reassign_unclaimed_shares. fold original. fold ts. fold final.
    rewrite <- Hsum. apply sum_paying. intros t b Hin.
    rewrite <- (bps_of_elem final t b) by done. apply Hfge.
  - intros t b Hin. by apply list_elem_of_filter in Hin as [? _].
Qed.

(** * The provisional incumbent *)

Lemma exact_sum_filter (P : string * F64 → Prop) `{∀ x, Decision (P x)} (v : vector) :
  Forall (λ x, fgtb x zero = true) v.*2 → forallb isfinite v.*2 = true →
  0 <= foldr (λ x s, fin_part x + s) 0 (filter P v).*2 <= foldr (λ x s, fin_part x + s) 0 v.*2.
Proof.
  induction v as [|[k x] v IH]; [simpl; lia|]. csimpl.
  intros [Hx Hv]%Forall_cons [Hfx Hfv]%andb_true_iff. specialize (IH Hv Hfv).
  apply fgtb_zero_cases in Hx as [(z & -> & Hz)| ->]; [|done].
  rewrite filter_cons. destruct (decide (P (k, Fin z))); csimpl; cbn [fin_part]; lia.
Qed.

(** Dividing by something larger stays within [0, 1]. *)
Lemma fdiv_unit a b : 0 <= a <= b → 0 < b →
  fleb zero (fdiv (Fin a) (Fin b)) = true ∧ fleb (fdiv (Fin a) (Fin b)) one = true.
Proof.
  intros [Ha Hab] Hb. rewrite one_Fin. unfold zero. destruct b as [|b|]; [lia| |lia].
  destruct a as [|a|]; [simpl; vm_compute; done| |lia]. simpl.
  destruct (strip_ratio a b) as (k & Ea & Eb). destruct (strip a b) as [a' b']. simpl in *.
  assert (Zpos a' <= Zpos b') by (subst; nia). pose proof f64_one_pos.
  split; [apply round_nonneg; lia|].
  rewrite <- (round_rep f64_one); [|apply (bool_decide_unpack _); vm_compute; exact I].
  rewrite <- (round_scale f64_one (Zpos b')) by lia. apply round_mono; nia.
Qed.

Lemma positives_filter (P : string * F64 → Prop) `{∀ x, Decision (P x)} (v : vector) :
  positives (filter P v) = filter P (positives v).
Proof.
  unfold positives. rewrite !list_filter_filter. apply list_filter_iff. tauto.
Qed.

(** The exact sum of a part of the positive weights, against the whole. *)
Lemma fsum_part (P : string * F64 → Prop) `{∀ x, Decision (P x)} (v : vector) b :
  Forall (λ x, fgtb x zero = true) v.*2 → forallb isfinite v.*2 = true →
  fsum v.*2 = Fin b → ∃ a, fsum (filter P v).*2 = Fin a ∧ 0 <= a <= b.
Proof.
  intros Hp Hf Hs. pose proof (exact_sum_filter P v Hp Hf) as [Hlo Hhi].
  assert (forallb isfinite (filter P v).*2 = true) as Hff.
  { apply forallb_forall. intros x Hx%list_elem_of_In.
    apply list_elem_of_fmap in Hx as (kv & -> & [_ Hin]%list_elem_of_filter).
    apply (proj1 (forallb_forall _ _) Hf). apply list_elem_of_In, list_elem_of_fmap. eauto. }
  unfold fsum in *. rewrite Hff. rewrite Hf in Hs.
  pose proof (round_mono _ 1 _ 1 ltac:(lia) ltac:(lia)
    (proj1 (Z.mul_le_mono_pos_r _ _ 1 ltac:(lia)) Hhi)) as Hm.
  pose proof (round_nonneg _ 1 ltac:(lia) Hlo) as H0. rewrite Hs in Hm. revert Hm H0.
  generalize (round (foldr (λ x s, fin_part x + s) 0 (filter P v).*2) 1).
  intros [a| | |]; try done. intros Ha%fleb_Fin H0%fleb_Fin. by exists a.
Qed.

(** The provisional incumbent's weight is set apart, never redistributed:
    the marker is never payable, every other item is kept with its weight, and
    the paid fraction is exactly one without a marker and within [0, 1] in
    every case, as long as the weights and their exact total are finite. *)
Lemma split_unpaid_correct (weights : vector) :
  forallb isfinite (positives weights).*2 = true →
  isfinite (fsum (positives weights).*2) = true →
  let '(paid, fraction) := split_unpaid_share weights in
  UNPAID_SHARE_KEY ∉ paid.*1 ∧
  (∀ h w, (h, w) ∈ paid ↔ (h, w) ∈ weights ∧ h ≠ UNPAID_SHARE_KEY) ∧
  (fleb zero fraction = true ∧ fleb fraction one = true) ∧
  (UNPAID_SHARE_KEY ∉ weights.*1 → paid = weights ∧ fraction = one).
Proof.
  intros Hf Ht. unfold split_unpaid_share.
  destruct (dict_get UNPAID_SHARE_KEY weights) as [w0|] eqn:Ed.
  - set (paid := filter _ weights).
    assert (UNPAID_SHARE_KEY ∉ paid.*1) as Hp.
    { intros (kv & Hk & [Hne _]%list_elem_of_filter)%list_elem_of_fmap. congruence. }
    assert (∀ h w, (h, w) ∈ paid ↔ (h, w) ∈ weights ∧ h ≠ UNPAID_SHARE_KEY) as Hiff.
    { intros h w. split; [by intros [? ?]%list_elem_of_filter|].
      intros [? ?]. by apply list_elem_of_filter. }
    assert (UNPAID_SHARE_KEY ∈ weights.*1) as Hin.
    { apply dict_get_Some_elem in Ed. apply list_elem_of_fmap.
      by exists (UNPAID_SHARE_KEY, w0). }
    destruct (fsum (positives weights).*2) as [b| | |] eqn:Eb; try done. cbv zeta.
    destruct (fleb (Fin b) zero) eqn:Eb0.
    { split; [exact Hp|]. split; [exact Hiff|]. split; [split; vm_compute; reflexivity|].
      intros Hn. destruct (Hn Hin). }
    split; [exact Hp|]. split; [exact Hiff|]. split; [|intros Hn; destruct (Hn Hin)].
    unfold paid. rewrite positives_filter.
    destruct (fsum_part (λ kv, kv.1 ≠ UNPAID_SHARE_KEY) _ b (positives_Forall _) Hf Eb)
      as (a & -> & Ha).
    apply fdiv_unit; [done|]. unfold zero in Eb0. apply not_true_iff_false in Eb0.
    rewrite fleb_Fin in Eb0. lia.
  - apply dict_get_None in Ed. split; [exact Ed|]. split; [|split].
    + intros h w. split; [|tauto]. intros Hin. split; [exact Hin|]. intros ->. apply Ed.
      apply list_elem_of_fmap. by exists (UNPAID_SHARE_KEY, w).
    + split; vm_compute; reflexivity.
    + intros _. split; reflexivity.
Qed.

(** What the split lets through. *)
Lemma split_unpaid_keys weights h : h ∈ (split_unpaid_share weights).1.*1 →
  h ≠ UNPAID_SHARE_KEY ∧ h ∈ weights.*1.
Proof.
  unfold split_unpaid_share. destruct (dict_get UNPAID_SHARE_KEY weights) eqn:Ed.
  - cbv zeta. destruct (fleb _ zero); cbn [fst];
      intros (kv & -> & [Hne Hin]%list_elem_of_filter)%list_elem_of_fmap;
      (split; [exact Hne | by apply list_elem_of_fmap_2]).
  - apply dict_get_None in Ed. intros Hin. split; [|exact Hin]. intros ->. by apply Ed.
Qed.

(** * The burn *)

Lemma unit_interval_Fin x : unit_interval x = true → ∃ a, x = Fin a ∧ 0 <= a <= f64_one.
Proof.
  unfold unit_interval. destruct x as [a| | |]; try done. cbn [isfinite andb].
  intros [Hlo Hhi]%andb_true_iff. unfold zero in Hlo. rewrite one_Fin in Hhi.
  apply fleb_Fin in Hlo, Hhi. by exists a.
Qed.

Lemma rep_one : rep f64_one.
Proof. apply (bool_decide_unpack _). vm_compute. exact I. Qed.

(** [1.0 - x] on a share. *)
Lemma one_minus_share a : 0 <= a <= f64_one →
  unit_interval (fsub one (Fin a)) = true ∧
  fgtb (fsub one (Fin a)) zero = bool_decide (a < f64_one).
Proof.
  intros Ha. rewrite one_Fin. unfold fsub, fneg, fadd.
  pose proof (round_nonneg (f64_one + - a) 1 ltac:(lia) ltac:(lia)) as Hlo.
  pose proof (round_mono (f64_one + - a) 1 f64_one 1 ltac:(lia) ltac:(lia) ltac:(lia)) as Hhi.
  rewrite (round_rep _ rep_one) in Hhi. case_bool_decide as Hlt.
  - split; [|apply round_pos_fgtb; lia].
    revert Hlo Hhi. generalize (round (f64_one + - a) 1). intros [z| | |] Hlo Hhi; try done.
    unfold unit_interval. simpl isfinite. rewrite one_Fin. unfold zero. by rewrite Hlo, Hhi.
  - assert (a = f64_one) as -> by lia. rewrite Z.add_opp_diag_r, (round_rep _ rep_0).
    unfold unit_interval. rewrite one_Fin. split; vm_compute; reflexivity.
Qed.

Lemma fltb_one a : fltb (Fin a) one = bool_decide (a < f64_one).
Proof.
  rewrite one_Fin. cbn [fltb]. destruct (Z.ltb_spec a f64_one);
    case_bool_decide; [reflexivity | lia | lia | reflexivity].
Qed.

Definition capped_miners (weights : vector) (burn_hotkey : string) : vector :=
  filter (λ hw, hw.1 ≠ burn_hotkey ∧ fgtb hw.2 zero = true) weights.

Lemma share_range ms : fleb zero ms && fleb ms one = true → ∃ a, ms = Fin a ∧ 0 <= a <= f64_one.
Proof.
  intros H. apply unit_interval_Fin. unfold unit_interval. rewrite H.
  apply andb_true_iff in H as [Hlo Hhi]. rewrite one_Fin in Hhi. unfold zero in Hlo.
  by destruct ms.
Qed.

(** The vector the cap returns. *)
Lemma cap_shape weights ms burn :
  let miners := capped_miners weights burn in
  let total := py_sum miners.*2 in
  match apply_miner_emission_cap weights ms burn with
  | Err e => fleb zero ms && fleb ms one = false ∨
      (burn = EmptyString ∧ (fleb total zero = true ∨ fltb ms one = true))
  | Ok w =>
      fleb zero ms && fleb ms one = true ∧
      (burn = EmptyString → fleb total zero = false ∧ fltb ms one = false) ∧
      (fleb total zero = true → w = [(burn, one)]) ∧
      (fleb total zero = false →
        w = ((λ hw, (hw.1, fmul (fdiv hw.2 total) ms)) <$> miners) ++
            (if fltb ms one then [(burn, fsub one ms)] else []))
  end.
Proof.
  intros miners total. unfold apply_miner_emission_cap. fold (capped_miners weights burn).
  fold miners. fold total.
  destruct (fleb zero ms && fleb ms one) eqn:Er; cbn [negb]; [|by left].
  destruct (String.eqb_spec burn EmptyString) as [Hb|Hb].
  - destruct (fleb total zero) eqn:Et; cbn [orb andb]; [right; auto|].
    destruct (fltb ms one) eqn:Em; cbn [orb andb]; [right; auto|].
    apply share_range in Er as (a & -> & Ha). destruct (one_minus_share a Ha) as [_ Hg].
    rewrite Hg, bool_decide_eq_false_2.
    { rewrite app_nil_r. split; [reflexivity|]. split; [intros _; split; reflexivity|].
      split; [intros [=] | intros _; reflexivity]. }
    rewrite fltb_one in Em. by apply bool_decide_eq_false in Em.
  - rewrite andb_false_r. destruct (fleb total zero) eqn:Et.
    { split; [reflexivity|]. split; [intros Hn; destruct (Hb Hn)|].
      split; [intros _; reflexivity | intros [=]]. }
    apply share_range in Er as (a & -> & Ha). destruct (one_minus_share a Ha) as [_ Hg].
    cbv zeta. rewrite Hg, fltb_one. case_bool_decide as Hlt.
    + split; [reflexivity|]. split; [intros Hn; destruct (Hb Hn)|]. split; [intros [=]|]. intros _.
      apply dict_set_fresh. intros (hw & Hk & Hin)%list_elem_of_fmap.
      apply list_elem_of_fmap in Hin as (hw' & -> & [[Hne _] _]%list_elem_of_filter).
      exact (Hne (eq_sym Hk)).
    + rewrite app_nil_r. split; [reflexivity|]. split; [intros Hn; destruct (Hb Hn)|].
      split; [intros [=] | intros _; reflexivity].
Qed.

(** The burn cap. A share outside [0, 1] is refused, and so is a vector
    that needs a burn destination without one. Otherwise an idle pool is exactly
    [{burn: 1.0}]; a paying pool keeps exactly its positive miners, each at
    [weight / total * share], in order, and the burn hotkey never competes: it
    holds [1 - share], and at the full share it is absent. *)
Lemma emission_cap_correct weights ms burn :
  let miners := capped_miners weights burn in
  let total := py_sum miners.*2 in
  match apply_miner_emission_cap weights ms burn with
  | Err e => fleb zero ms && fleb ms one = false ∨
      (burn = EmptyString ∧ (fleb total zero = true ∨ fltb ms one = true))
  | Ok w =>
      fleb zero ms && fleb ms one = true ∧
      (burn = EmptyString → fleb total zero = false ∧ fltb ms one = false) ∧
      (fleb total zero = true → w = [(burn, one)]) ∧
      (fleb total zero = false →
        w = ((λ hw, (hw.1, fmul (fdiv hw.2 total) ms)) <$> miners) ++
            (if fltb ms one then [(burn, fsub one ms)] else []))
  end.
Proof. apply cap_shape. Qed.

(** Who the cap pays. *)
Lemma cap_keys weights ms burn w h : apply_miner_emission_cap weights ms burn = Ok w →
  h ∈ w.*1 → (h = burn ∧ burn ≠ EmptyString) ∨ h ∈ weights.*1.
Proof.
  intros Hw Hin. pose proof (cap_shape weights ms burn) as H. cbv zeta in H. rewrite Hw in H.
  destruct H as (_ & Hb & Hidle & Hpay).
  destruct (fleb (py_sum (capped_miners weights burn).*2) zero).
  - rewrite (Hidle eq_refl) in Hin. apply list_elem_of_singleton in Hin. left.
    split; [exact Hin|]. intros He. destruct (Hb He) as [Hf _]. discriminate Hf.
  - rewrite (Hpay eq_refl), fmap_app in Hin. apply elem_of_app in Hin as [Hin|Hin].
    + right. apply list_elem_of_fmap in Hin as (hw & -> & Hin).
      apply list_elem_of_fmap in Hin as (hw' & -> & [_ Hin]%list_elem_of_filter).
      change (hw'.1 ∈ weights.*1). apply list_elem_of_fmap_2. exact Hin.
    + left. destruct (fltb ms one); [|apply elem_of_nil in Hin; destruct Hin].
      apply list_elem_of_singleton in Hin. split; [exact Hin|]. intros He.
      destruct (Hb He) as [_ Hf]. discriminate Hf.
Qed.

(** The doubles below one stop at [1 - 2^-53]. *)
Lemma rep_below_one a : rep a → 0 <= a < f64_one → a <= (2 ^ 53 - 1) * unit53.
Proof.
  intros [Hd _] Ha. rewrite Z.abs_eq in Hd by lia.
  destruct unit53_facts as (Hu & E1 & E2 & _ & Eulp & _). revert Hu E1 E2 Eulp.
  generalize unit53. intros u Hu E1 E2 Eulp.
  destruct (Z.le_gt_cases (2 ^ 1073) a) as [Hhi|Hlo]; [|nia].
  assert ((u | a)) as [k Hk].
  { transitivity (ulp a); [|exact Hd]. rewrite <- Eulp. by apply ulp_divides. }
  nia.
Qed.

Lemma unit_interval_share a : 0 <= a <= f64_one → unit_interval (Fin a) = true.
Proof.
  intros Ha. unfold unit_interval, zero. rewrite one_Fin.
  apply andb_true_iff. split; [reflexivity|]. apply andb_true_iff. split; apply fleb_Fin; lia.
Qed.

Lemma share_product a b : 0 <= a <= f64_one → 0 <= b <= f64_one →
  ∃ c, fmul (Fin a) (Fin b) = Fin c ∧ 0 <= c <= f64_one.
Proof.
  intros Ha Hb. apply share_range. unfold fmul, zero. rewrite one_Fin. pose proof f64_one_pos.
  apply andb_true_iff. split; [apply round_nonneg; nia|].
  rewrite <- (round_rep _ rep_one). apply round_mono; nia.
Qed.

(** A product of two shares is one only if both are. *)
Lemma share_product_one x y :
  valid x → valid y → unit_interval x = true → unit_interval y = true →
  fleb one (fmul x y) = true → x = one ∧ y = one.
Proof.
  intros Hvx Hvy (a & -> & Ha)%unit_interval_Fin (b & -> & Hb)%unit_interval_Fin Hle.
  rewrite one_Fin in *. pose proof f64_one_pos as H1.
  destruct unit53_facts as (Hu & E1 & _ & Hlim & _).
  assert (∀ c d, 0 <= c <= (2 ^ 53 - 1) * unit53 → 0 <= d <= f64_one →
    fleb (Fin f64_one) (round (c * d) f64_one) = true → False) as Hcut.
  { intros c d Hc Hd Hone.
    assert (rep ((2 ^ 53 - 1) * unit53)) as Hp by (apply rep_multiple; [lia | lia | fold unit53; nia]).
    pose proof (round_mono (c * d) f64_one ((2 ^ 53 - 1) * unit53) 1 H1 ltac:(lia) ltac:(nia)) as Hm.
    rewrite (round_rep _ Hp) in Hm. pose proof (fleb_trans _ _ _ Hone Hm) as Hf.
    apply fleb_Fin in Hf. nia. }
  unfold fmul in Hle. split; f_equal.
  - destruct (Z.lt_ge_cases a f64_one) as [Hlt|]; [|lia]. exfalso.
    apply (Hcut a b); [split; [lia | apply rep_below_one; [exact Hvx | lia]] | lia | exact Hle].
  - destruct (Z.lt_ge_cases b f64_one) as [Hlt|]; [|lia]. exfalso. rewrite Z.mul_comm in Hle.
    apply (Hcut b a); [split; [lia | apply rep_below_one; [exact Hvy | lia]] | lia | exact Hle].
Qed.

Lemma fmul_one_l a : rep a → fmul one (Fin a) = Fin a.
Proof.
  intros Hr. rewrite one_Fin. unfold fmul. rewrite Z.mul_comm, round_scale by apply f64_one_pos.
  by apply round_rep.
Qed.

(** Skipping the owner lookup is safe. When the guard says that no burn
    destination is needed outside a treasury fold, the cap called with the empty
    burn hotkey and the same shares does not raise and pays exactly the positive
    miners: every share is exactly one, so no residual is dropped. *)
Lemma no_destination_needed weights ms allocated paid :
  valid ms → valid allocated → valid paid →
  unit_interval allocated = true → unit_interval paid = true →
  EmptyString ∉ weights.*1 → fleb (py_sum (positives weights).*2) zero = false →
  owner_burn_destination_required weights ms (fmul allocated paid) 0 = false →
  ∃ w, apply_miner_emission_cap weights (fmul (fmul ms allocated) paid) EmptyString = Ok w ∧
    w.*1 = (positives weights).*1.
Proof.
  intros Hvm Hva Hvp Hua Hup Hkeys Htot Hg.
  assert (ms = one ∧ fmul allocated paid = one) as [-> Hap].
  { revert Hg. unfold owner_burn_destination_required.
    destruct (isfinite ms) eqn:Efm; [|done]. destruct (isfinite (fmul allocated paid)) eqn:Efp; [|done].
    destruct (fleb zero ms && fleb ms one) eqn:Em; [|done].
    destruct (fleb zero (fmul allocated paid) && fleb (fmul allocated paid) one) eqn:Ep; [|done].
    cbn [negb orb]. rewrite (eq_refl : (0 <=? 0) && (0 <=? 10000) = true). cbn [negb].
    assert (fsub one (int_truediv 0 10000) = one) as -> by (vm_compute; reflexivity).
    assert (valid (fmul allocated paid)) as Hvap by apply fmul_valid.
    revert Ep Hvap. generalize (fmul allocated paid). intros y Ep Hvy.
    apply share_range in Em as (a & -> & Ha), Ep as (b & -> & Hb). simpl in Hvm, Hvy.
    rewrite (fmul_one_l a Hvm).
    assert (∀ z, 0 <= z <= f64_one → fgtb (fsub one (Fin z)) zero = false → z = f64_one) as Hone.
    { intros z Hz Hgz. destruct (one_minus_share z Hz) as [_ Hgt]. rewrite Hgt in Hgz.
      apply bool_decide_eq_false in Hgz. lia. }
    destruct (existsb _ weights).
    - intros Hgt. destruct (share_product a b Ha Hb) as (z & Ez & Hz).
      rewrite Ez in Hgt. apply share_product_one; [exact Hvm | exact Hvy | | |].
      + by apply unit_interval_share.
      + by apply unit_interval_share.
      + rewrite Ez, (Hone z Hz Hgt), one_Fin. apply fleb_Fin. lia.
    - intros Hgt. pose proof f64_one_pos. apply (Hone 0) in Hgt; lia. }
  assert (allocated = one ∧ paid = one) as [-> ->].
  { apply share_product_one; [done..|]. rewrite Hap, one_Fin. apply fleb_Fin. lia. }
  assert (fmul (fmul one one) one = one) as -> by (vm_compute; reflexivity).
  assert (capped_miners weights EmptyString = positives weights) as Hcm.
  { unfold capped_miners, positives. clear -Hkeys. induction weights as [|[k w] ws IH]; [done|].
    simpl in Hkeys. apply not_elem_of_cons in Hkeys as [Hk Hks].
    rewrite !filter_cons, (IH Hks). cbn [fst snd].
    destruct (decide (fgtb w zero = true)), (decide (k ≠ EmptyString ∧ fgtb w zero = true));
      try reflexivity; naive_solver. }
  unfold apply_miner_emission_cap. fold (capped_miners weights EmptyString). rewrite Hcm, Htot.
  assert (fleb zero one && fleb one one = true) as -> by (vm_compute; reflexivity).
  assert (fltb one one = false) as -> by (vm_compute; reflexivity).
  assert (fgtb (fsub one one) zero = false) as -> by (vm_compute; reflexivity).
  cbn [negb orb andb]. eexists. split; [reflexivity|].
  rewrite <- list_fmap_compose. apply list_fmap_ext. intros i hw _. reflexivity.
Qed.

(** * Governance values *)

(** A coherent split: named tracks, each within the scale, together within it. *)
Definition coherent_split (s : shares) : Prop :=
  Forall (λ tb, tb.1 ≠ EmptyString ∧ 0 <= tb.2 <= BASIS_POINT_SCALE) s ∧
  sum_Z s.*2 <= BASIS_POINT_SCALE.

(** The ledger can only move the fold between coherent policies. Whatever
    value the two governance fields hold, the miner share is a finite double in
    [0, 1] and the track split is coherent, provided the compiled defaults are;
    a value that is not a share, or a map that is not a split, gives the
    default. *)
Lemma governance_values_coherent v raw default_share default_split :
  unit_interval default_share = true → coherent_split default_split →
  unit_interval (resolve_miner_emission_share v default_share) = true ∧
  coherent_split (resolve_track_shares raw default_split) ∧
  (∀ x, v = PyFloat x → unit_interval x = false →
     resolve_miner_emission_share v default_share = default_share) ∧
  (∀ items, raw = Some items → (∃ kv, kv ∈ items ∧ bps_entry kv = None) →
     resolve_track_shares raw default_split = default_split).
Proof.
  intros Hs Hd. split_and!.
  - assert (∀ x, unit_interval (if negb (unit_interval x) then default_share
      else fsub one x) = true) as Hx.
    { intros x. destruct (unit_interval x) eqn:Ex; [|exact Hs]. cbn [negb].
      apply unit_interval_Fin in Ex as (a & -> & Ha). exact (proj1 (one_minus_share a Ha)). }
    destruct v; cbn; [exact Hs | exact Hs | apply Hx | apply Hx | exact Hs].
  - destruct raw as [[|kv items]|]; [exact Hd | | exact Hd]. cbn [resolve_track_shares].
    destruct (mapM bps_entry (kv :: items)) as [resolved|] eqn:Em; [|exact Hd].
    destruct (Z.ltb_spec BASIS_POINT_SCALE (sum_Z resolved.*2)) as [|Hle]; [exact Hd|].
    split; [|exact Hle]. apply mapM_Some_1 in Em.
    clear -Em. induction Em as [|[k v] [t b] items0 rs Hkv Hr IH]; constructor; [|exact IH].
    revert Hkv. unfold bps_entry. destruct k as [k|], v; try done.
    destruct (String.eqb_spec k EmptyString); [done|]. cbn [orb].
    destruct ((0 <=? i) && (i <=? BASIS_POINT_SCALE)) eqn:Ei; [|done]. intros [= <- <-].
    bool_to_prop. split; [done | simpl; lia].
  - intros x -> Hx. unfold resolve_miner_emission_share. by rewrite Hx.
  - intros items -> (kv & Hin & Hnone). unfold resolve_track_shares.
    destruct items as [|kv0 items]; [done|].
    destruct (mapM bps_entry (kv0 :: items)) as [rs|] eqn:Em; [|done].
    apply mapM_Some_1 in Em. apply list_elem_of_lookup in Hin as [i Hi].
    destruct (Forall2_lookup_l _ _ _ _ _ Em Hi) as (y & _ & Hy). congruence.
Qed.

(** * Concrete instances *)

Definition sample_memory : vector := [("bob", flit 6 10); ("carol", flit 4 10)]%string.
Definition sample_tracks : list (string * vector) :=
  [("memory", sample_memory); ("router", []); ("generator", [])]%string.
Definition sample_shares : shares := [("memory", 9000); ("generator", 1000)]%string.
Definition sample_fallbacks : list (string * string) := [("generator", "memory")]%string.

Lemma blend_passthrough_witness :
  blend_track_weights sample_tracks [("memory", 10000)]%string = positives sample_memory ∧
  track_allocated_share [("memory", 10000)]%string sample_tracks = one.
Proof.
  apply (blend_passthrough sample_tracks [("memory", 10000)]%string "memory" sample_memory).
  - apply (bool_decide_unpack _). vm_compute. exact I.
  - apply (bool_decide_unpack _). vm_compute. exact I.
  - left.
  - vm_compute. reflexivity.
  - reflexivity.
  - intros t' v' Hin Hne. unfold sample_tracks in Hin. rewrite !elem_of_cons, elem_of_nil in Hin.
    destruct Hin as [[= -> _]|[[= -> ->]|[[= -> ->]|[]]]]; [destruct (Hne eq_refl) | |];
      left; reflexivity.
Defined.

(** The empty generator hands its thousand points to memory. *)
Lemma reassign_one_hop_witness :
  reassign_unclaimed_shares sample_shares sample_tracks sample_fallbacks =
    [("memory", 10000)]%string ∧
  sum_Z (reassign_unclaimed_shares sample_shares sample_tracks sample_fallbacks).*2 = 10000.
Proof.
  split; [vm_compute; reflexivity|].
  assert (NoDup sample_shares.*1) as Hnd by (apply (bool_decide_unpack _); vm_compute; exact I).
  exact (proj1 (proj2 (reassign_one_hop sample_shares sample_tracks sample_fallbacks Hnd))).
Defined.

Lemma split_unpaid_correct_witness :
  let '(paid, fraction) := split_unpaid_share
    [(UNPAID_SHARE_KEY, flit 6 10); ("carol"%string, flit 4 10)] in
  UNPAID_SHARE_KEY ∉ paid.*1 ∧ fleb zero fraction = true ∧ fleb fraction one = true.
Proof.
  pose proof (split_unpaid_correct [(UNPAID_SHARE_KEY, flit 6 10); ("carol"%string, flit 4 10)]
    ltac:(vm_compute; reflexivity) ltac:(vm_compute; reflexivity)) as H.
  destruct (split_unpaid_share _) as [paid fraction]. destruct H as (H1 & _ & [H2 H3] & _).
  split; [exact H1 | split; [exact H2 | exact H3]].
Defined.

Lemma no_destination_needed_witness :
  ∃ w, apply_miner_emission_cap sample_memory (fmul (fmul one one) one) EmptyString = Ok w ∧
    w.*1 = (positives sample_memory).*1.
Proof.
  apply (no_destination_needed sample_memory one one one).
  1-3: apply (bool_decide_unpack _); vm_compute; exact I.
  1-2: vm_compute; reflexivity.
  - apply (bool_decide_unpack _). vm_compute. exact I.
  - vm_compute. reflexivity.
  - vm_compute. reflexivity.
Defined.

Lemma governance_values_coherent_witness :
  unit_interval (resolve_miner_emission_share (PyFloat (flit 12 10)) one) = true ∧
  coherent_split (resolve_track_shares (Some [(Some "memory"%string, PyInt 12000)])
    [("memory"%string, 10000)]).
Proof.
  assert (unit_interval one = true) as Hs by (vm_compute; reflexivity).
  assert (coherent_split [("memory"%string, 10000)]) as Hd.
  { split; [|vm_compute; discriminate]. constructor; [|constructor].
    split; [discriminate | split; vm_compute; discriminate]. }
  pose proof (governance_values_coherent (PyFloat (flit 12 10))
    (Some [(Some "memory"%string, PyInt 12000)]) one [("memory"%string, 10000)] Hs Hd) as H.
  split; [exact (proj1 H) | exact (proj1 (proj2 H))].
Defined.
