(* ===== verification/Tracks.v ===== *)
(** The competition tracks of [ditto/validator/tracks.py]: the registry, its
    validation, the shipped four tracks and their folds. *)
From Stdlib Require Import ZArith Lia.
From stdpp Require Import base list gmap strings sorting.
From S2P Require Import Prelude Binary64 Dueling Ledger Crown Emission Blend.

Definition TRACK_MEMORY : string := "memory".
Definition TRACK_CODING : string := "coding".
Definition TRACK_ROUTER : string := "router".
Definition TRACK_GENERATOR : string := "generator".

Inductive TrackState := SHADOW | ACTIVE | RETIRING | RETIRED.

#[global] Instance TrackState_eq_dec : EqDecision TrackState.
Proof. solve_decision. Defined.

(** [_PAYING_STATES] *)
Definition paying_state (s : TrackState) : bool :=
  match s with ACTIVE | RETIRING => true | SHADOW | RETIRED => false end.

Record TrackFoldInputs := {
  memory_entries : list LedgerEntry;
  memory_params : option MemoryFoldParams;
  router_entries : list RouterLedgerEntry;
  router_rank_shares : list F64;
  generator_entries : list GeneratorLedgerEntry;
  generator_rank_shares : list F64
}.

Section tracks.
Context {L : Libm}.

(** A fold may raise: the memory fold validates its rank shares. *)
Definition TrackFold : Type := TrackFoldInputs → result vector.

Definition memory_fold : TrackFold := λ inputs,
  match memory_params inputs with
  | None => Ok []
  | Some params => compute_weights params (memory_entries inputs)
  end.
Definition router_fold : TrackFold := λ inputs,
  Ok (compute_router_weights (router_entries inputs) (router_rank_shares inputs)).
Definition generator_fold : TrackFold := λ inputs,
  Ok (compute_generator_weights (generator_entries inputs) (generator_rank_shares inputs)).
Definition reserved_fold : TrackFold := λ _, Ok [].

Record Track := {
  track_id : string;
  track_name : string;
  state : TrackState;
  emission_share_bps : Z;
  weight_eligible : bool;
  track_fold : TrackFold;
  unclaimed_share_to : option string
}.

(** [Track.__post_init__]; the state is a [TrackState] by type. *)
Definition mk_track (t : Track) : result Track :=
  require (negb (String.eqb (track_id t) "")) (ValueError "track_id must be non-empty") ≫= λ _,
  require ((0 <=? emission_share_bps t) && (emission_share_bps t <=? BASIS_POINT_SCALE))
    (ValueError "emission_share_bps out of range") ≫= λ _,
  Ok t.

Definition draws_emission (t : Track) : bool := weight_eligible t && paying_state (state t).
Definition effective_bps (t : Track) : Z := if draws_emission t then emission_share_bps t else 0.

(** [TrackRegistry] is its tuple of tracks. *)
Definition TrackRegistry : Type := list Track.

Fixpoint duplicate_id (tracks : list Track) (seen : list string) : bool :=
  match tracks with
  | [] => false
  | t :: tracks' => bool_decide (track_id t ∈ seen) || duplicate_id tracks' (track_id t :: seen)
  end.

Definition total_active_bps (r : TrackRegistry) : Z := sum_Z (effective_bps <$> r).

(** [TrackRegistry.__post_init__] *)
Definition mk_registry (tracks : list Track) : result TrackRegistry :=
  require (negb (duplicate_id tracks [])) (ValueError "duplicate track id") ≫= λ _,
  require (total_active_bps tracks <=? BASIS_POINT_SCALE)
    (ValueError "eligible track emission shares exceed 10000 bps") ≫= λ _,
  Ok tracks.

Definition get (r : TrackRegistry) (id : string) : option Track :=
  List.find (λ t, String.eqb (track_id t) id) r.
Definition active_eligible (r : TrackRegistry) : list Track :=
  filter (λ t, draws_emission t = true) r.
Definition shares_bps (r : TrackRegistry) : shares :=
  dict_of ((λ t, (track_id t, effective_bps t)) <$> active_eligible r).
Definition fallbacks (r : TrackRegistry) : list (string * string) :=
  dict_of (omap (λ t, (λ f, (track_id t, f)) <$> unclaimed_share_to t) (active_eligible r)).
Definition claimed_shares_bps (r : TrackRegistry) (vectors : list (string * vector)) : shares :=
  reassign_unclaimed_shares (shares_bps r) vectors (fallbacks r).

(** * The shipped registry *)

Record RegistryConfig := {
  router_state : TrackState;
  router_eligible : bool;
  coding_state : TrackState;
  coding_eligible : bool;
  generator_state : TrackState;
  generator_eligible : bool
}.

(** [track_shares_bps.get(id, d)] *)
Definition share_or (s : shares) (id : string) (d : Z) : Z := default d (dict_get id s).

Definition _build_registry (track_shares_bps : shares) (c : RegistryConfig)
    : result TrackRegistry :=
  mk_track {| track_id := TRACK_MEMORY; track_name := "Memory"; state := ACTIVE;
    emission_share_bps := share_or track_shares_bps TRACK_MEMORY BASIS_POINT_SCALE;
    weight_eligible := true; track_fold := memory_fold; unclaimed_share_to := None |} ≫= λ memory,
  mk_track {| track_id := TRACK_CODING; track_name := "Coding"; state := coding_state c;
    emission_share_bps := share_or track_shares_bps TRACK_CODING 0;
    weight_eligible := coding_eligible c; track_fold := reserved_fold;
    unclaimed_share_to := None |} ≫= λ coding,
  mk_track {| track_id := TRACK_ROUTER; track_name := "Router"; state := router_state c;
    emission_share_bps := share_or track_shares_bps TRACK_ROUTER 0;
    weight_eligible := router_eligible c; track_fold := router_fold;
    unclaimed_share_to := None |} ≫= λ router,
  mk_track {| track_id := TRACK_GENERATOR; track_name := "Generator"; state := generator_state c;
    emission_share_bps := share_or track_shares_bps TRACK_GENERATOR 0;
    weight_eligible := generator_eligible c; track_fold := generator_fold;
    unclaimed_share_to := Some TRACK_MEMORY |} ≫= λ generator,
  mk_registry [memory; coding; router; generator].

Definition _SAFE_TRACK_SHARES_BPS : shares :=
  [(TRACK_MEMORY, BASIS_POINT_SCALE); (TRACK_CODING, 0); (TRACK_ROUTER, 0); (TRACK_GENERATOR, 0)].

Definition build_default_registry (track_shares_bps : shares) (c : RegistryConfig)
    : result TrackRegistry :=
  match _build_registry track_shares_bps c with
  | Ok r => Ok r
  | Err (ValueError _) => _build_registry _SAFE_TRACK_SHARES_BPS c
  | Err e => Err e
  end.

(** * Folding the tracks *)

Definition fold_tracks (r : TrackRegistry) (inputs : TrackFoldInputs)
    : result (list (string * vector)) :=
  foldr (λ t acc, track_fold t inputs ≫= λ v, acc ≫= λ vs, Ok ((track_id t, v) :: vs)) (Ok []) r.

End tracks.

(** * The shipped registry *)

Section registry_theory.
Context {L : Libm}.

(** The four tracks, for a split and a configuration. *)
Definition default_tracks (s : shares) (c : RegistryConfig) : list Track := [
  {| track_id := TRACK_MEMORY; track_name := "Memory"; state := ACTIVE;
     emission_share_bps := share_or s TRACK_MEMORY BASIS_POINT_SCALE;
     weight_eligible := true; track_fold := memory_fold; unclaimed_share_to := None |};
  {| track_id := TRACK_CODING; track_name := "Coding"; state := coding_state c;
     emission_share_bps := share_or s TRACK_CODING 0;
     weight_eligible := coding_eligible c; track_fold := reserved_fold;
     unclaimed_share_to := None |};
  {| track_id := TRACK_ROUTER; track_name := "Router"; state := router_state c;
     emission_share_bps := share_or s TRACK_ROUTER 0;
     weight_eligible := router_eligible c; track_fold := router_fold;
     unclaimed_share_to := None |};
  {| track_id := TRACK_GENERATOR; track_name := "Generator"; state := generator_state c;
     emission_share_bps := share_or s TRACK_GENERATOR 0;
     weight_eligible := generator_eligible c; track_fold := generator_fold;
     unclaimed_share_to := Some TRACK_MEMORY |}].

Definition bps_in_range (t : Track) : bool :=
  (0 <=? emission_share_bps t) && (emission_share_bps t <=? BASIS_POINT_SCALE).

(** A split the registry accepts: each track within the scale, and the paying
    ones within it together. *)
Definition acceptable_split (s : shares) (c : RegistryConfig) : bool :=
  forallb bps_in_range (default_tracks s c) &&
  (total_active_bps (default_tracks s c) <=? BASIS_POINT_SCALE).

Lemma mk_track_spec t : track_id t ≠ EmptyString →
  mk_track t = if bps_in_range t
               then Ok t else Err (ValueError "emission_share_bps out of range").
Proof.
  intros Hid. unfold mk_track. rewrite (proj2 (String.eqb_neq _ _) Hid). simpl.
  unfold bps_in_range. by destruct (_ && _).
Qed.

Lemma build_registry_spec s c :
  (acceptable_split s c = true ∧ _build_registry s c = Ok (default_tracks s c)) ∨
  (acceptable_split s c = false ∧ ∃ m, _build_registry s c = Err (ValueError m)).
Proof.
  unfold acceptable_split, default_tracks, _build_registry. rewrite !mk_track_spec by done.
  cbn [forallb].
  do 4 (destruct (bps_in_range _); [|right; split; [reflexivity | by eexists]];
        cbn [mbind result_bind andb]).
  unfold mk_registry. destruct (_ <=? _); [left | right]; split; try done. by eexists.
Qed.

Lemma safe_split_acceptable c : acceptable_split _SAFE_TRACK_SHARES_BPS c = true.
Proof.
  unfold acceptable_split, total_active_bps, effective_bps, draws_emission. simpl.
  by destruct (_ && _), (_ && _), (_ && _).
Qed.

Lemma build_default_registry_tracks s c :
  build_default_registry s c =
    Ok (default_tracks (if acceptable_split s c then s else _SAFE_TRACK_SHARES_BPS) c).
Proof.
  unfold build_default_registry.
  destruct (build_registry_spec s c) as [[-> ->]|(-> & m & ->)]; [done|].
  destruct (build_registry_spec _SAFE_TRACK_SHARES_BPS c) as [[_ ->]|(Hs & _)]; [done|].
  by rewrite safe_split_acceptable in Hs.
Qed.

(** The registry is never the reason an epoch dies. Whatever split the
    ledger governs, building the shipped registry succeeds: with that split when
    every track is within the scale and the paying ones fit in it together, with
    the memory-only split otherwise. Either way at most 10000 basis points are
    paid, the track ids are distinct, and only the generator has a fallback. *)
Lemma build_default_registry_total s c :
  ∃ r, build_default_registry s c = Ok r ∧
    r = default_tracks (if acceptable_split s c then s else _SAFE_TRACK_SHARES_BPS) c ∧
    total_active_bps r <= BASIS_POINT_SCALE ∧ NoDup (track_id <$> r) ∧
    Forall (λ t, unclaimed_share_to t = None ∨
                 (track_id t = TRACK_GENERATOR ∧ unclaimed_share_to t = Some TRACK_MEMORY)) r.
Proof.
  eexists. split; [apply build_default_registry_tracks|]. split; [done|]. split_and!.
  - destruct (acceptable_split s c) eqn:E.
    + unfold acceptable_split in E. bool_to_prop. lia.
    + pose proof (safe_split_acceptable c) as H. unfold acceptable_split in H. bool_to_prop. lia.
  - apply (bool_decide_unpack _). vm_compute. exact I.
  - do 3 (constructor; [by left|]). constructor; [by right | constructor].
Qed.

Lemma fold_tracks_elem r inputs vs t v : fold_tracks r inputs = Ok vs → (t, v) ∈ vs →
  ∃ tr, tr ∈ r ∧ track_id tr = t ∧ track_fold tr inputs = Ok v.
Proof.
  revert vs. induction r as [|tr r IH]; intros vs H Hin; simpl in H.
  - injection H as <-. by apply elem_of_nil in Hin.
  - fold (fold_tracks r inputs) in H. inv_ok H. apply elem_of_cons in Hin as [[= -> ->]|Hin].
    + exists tr. split; [left | done].
    + edestruct IH as (tr' & ? & ? & ?); [eassumption..|]. exists tr'. split; [by right | done].
Qed.
End registry_theory.
