(* ===== verification/ServiceAllocation.v ===== *)
(** Treasury service arithmetic:
    [packages/ditto-screening-protocol/.../treasury_weight_math.py], the
    service-first vector and the largest-remainder split of collector earnings. *)
From Stdlib Require Import ZArith Lia.
From stdpp Require Import base list gmap strings sorting.
From S2P Require Import Prelude Binary64 Dueling Ledger Crown Emission Blend.

(** * The service-first vector *)

Definition finite_nonneg (w : F64) : bool := isfinite w && negb (fltb w zero).

(** The treasury roles, which never compete. *)
Definition excluded (burn_hotkey collector_hotkey : string) : list string :=
  (if String.eqb burn_hotkey "" then [] else [burn_hotkey]) ++
  (if String.eqb collector_hotkey "" then [] else [collector_hotkey]).

Definition competing (weights : vector) (roles : list string) : vector :=
  filter (λ hw, hw.1 ∉ roles ∧ fgtb hw.2 zero = true) weights.

Definition py_max_list (x : F64) (xs : list F64) : F64 := foldl py_max x xs.

(** The scaled miners' slice, [w / maximum / total * miner]. *)
Definition miner_slice (miners : vector) (miner : F64) : vector :=
  match miners.*2 with
  | [] => []
  | x :: xs =>
      let maximum := py_max_list x xs in
      let scaled := (λ hw, (hw.1, fdiv hw.2 maximum)) <$> miners in
      let total := fsum scaled.*2 in
      (λ hw, (hw.1, fmul (fdiv hw.2 total) miner)) <$> scaled
  end.

(** [(1 - service) * (1 - burn_share) * paid_miner_fraction if miners else 0] *)
Definition miner_share_of (miners : vector) (service burn_share paid_miner_fraction : F64) : F64 :=
  match miners with
  | [] => zero
  | _ => fmul (fmul (fsub one service) (fsub one burn_share)) paid_miner_fraction
  end.

Definition service_first_weights (weights : vector) (service_bps : Z) (burn_share : F64)
    (collector_hotkey : string) (collector_verified : bool) (burn_hotkey : string)
    (paid_miner_fraction : F64) : result vector :=
  require ((0 <=? service_bps) && (service_bps <=? 10000))
    (ValueError "service allocation must be between 0 and 10000 bps") ≫= λ _,
  require (unit_interval burn_share && unit_interval paid_miner_fraction)
    (ValueError "invalid burn or paid miner share") ≫= λ _,
  require (negb (negb (service_bps =? 0) &&
      (negb collector_verified || String.eqb collector_hotkey "" ||
       String.eqb collector_hotkey burn_hotkey)))
    (ValueError "service collector identity is not independently verified") ≫= λ _,
  require (forallb finite_nonneg weights.*2) (ValueError "invalid miner vector") ≫= λ _,
  let miners := competing weights (excluded burn_hotkey collector_hotkey) in
  let service := int_truediv service_bps 10000 in
  let miner := miner_share_of miners service burn_share paid_miner_fraction in
  let result := if feqb miner zero then [] else miner_slice miners miner in
  let result := if feqb service zero then result else dict_set collector_hotkey service result in
  let residual := fsub (fsub one service) miner in
  if fgtb residual zero
  then require (negb (String.eqb burn_hotkey "")) (ValueError "burn hotkey is required") ≫= λ _,
       Ok (dict_set burn_hotkey residual result)
  else Ok result.

(** * The distribution of collector earnings *)

Record ServiceDestination := {
  bucket_id : string;
  allocation_bps : Z;
  holding_coldkey : string
}.
Record ServiceDistribution := {
  dist_bucket_id : string;
  dist_holding_coldkey : string;
  alpha_rao : Z
}.

Definition bad_destination (collector_coldkey : string) (d : ServiceDestination) : bool :=
  String.eqb (bucket_id d) "" || String.eqb (holding_coldkey d) "" ||
  String.eqb (holding_coldkey d) collector_coldkey ||
  negb ((0 <=? allocation_bps d) && (allocation_bps d <=? 10000)).

Definition by_bucket : ServiceDestination → ServiceDestination → comparison :=
  cmp_by str_cmp bucket_id.

Definition floor_share (attributed total : Z) (d : ServiceDestination) : Z :=
  (attributed * allocation_bps d) / total.
Definition remainder_share (attributed total : Z) (d : ServiceDestination) : Z :=
  (attributed * allocation_bps d) mod total.

(** The indices in the order in which they receive one extra rao; an index is
    paired with its destination. *)
Definition by_remainder (attributed total : Z)
    : nat * ServiceDestination → nat * ServiceDestination → comparison :=
  cmp_then (cmp_desc (cmp_by Z.compare (λ p, remainder_share attributed total p.2)))
    (cmp_by str_cmp (λ p, bucket_id p.2)).

(** [amounts[index] += 1] *)
Definition bump (amounts : list Z) (i : nat) : list Z := alter (λ a, a + 1) i amounts.

Definition distribute (attributed : Z) (destinations : list ServiceDestination) : list (ServiceDestination * Z) :=
  let total := sum_Z (allocation_bps <$> destinations) in
  let ordered := py_sorted by_bucket
                   (filter (λ d, allocation_bps d ≠ 0) destinations) in
  let amounts := floor_share attributed total <$> ordered in
  let dust := attributed - sum_Z amounts in
  let remainders := py_sorted (by_remainder attributed total) (imap pair ordered) in
  zip ordered (foldl bump amounts (take (Z.to_nat dust) remainders.*1)).

Definition plan_service_distribution (attributed_alpha_rao available_alpha_rao : Z)
    (collector_coldkey : string) (destinations : list ServiceDestination)
    : result (list ServiceDistribution) :=
  require ((0 <=? attributed_alpha_rao) && (0 <=? available_alpha_rao))
    (ValueError "amounts must be nonnegative integer alpha rao") ≫= λ _,
  require (attributed_alpha_rao <=? available_alpha_rao)
    (ValueError "attributed earnings exceed available collector stake") ≫= λ _,
  require (negb (String.eqb collector_coldkey "") && negb (length destinations =? 0)%nat &&
           (length destinations <=? 20)%nat)
    (ValueError "collector and service destinations are required") ≫= λ _,
  require (bool_decide (NoDup (bucket_id <$> destinations))) (ValueError "duplicate bucket") ≫= λ _,
  require (bool_decide (NoDup (holding_coldkey <$> destinations)))
    (ValueError "duplicate holding wallet") ≫= λ _,
  require (negb (existsb (bad_destination collector_coldkey) destinations))
    (ValueError "invalid service destination") ≫= λ _,
  let total := sum_Z (allocation_bps <$> destinations) in
  require ((0 <? total) && (total <=? 10000))
    (ValueError "service pool must be between 1 and 10000 bps") ≫= λ _,
  Ok (omap (λ da, if da.2 =? 0 then None else
        Some {| dist_bucket_id := bucket_id da.1; dist_holding_coldkey := holding_coldkey da.1;
                alpha_rao := da.2 |})
      (distribute attributed_alpha_rao destinations)).

(** * The split conserves the payout *)

Lemma length_bump a i : length (bump a i) = length a.
Proof. apply length_alter. Qed.

Lemma sum_bump a i : (i < length a)%nat → sum_Z (bump a i) = sum_Z a + 1.
Proof.
  unfold bump. revert i. induction a as [|x a IH]; intros i Hi; simpl in Hi; [lia|].
  destruct i as [|i]; simpl; [lia|]. change (x + sum_Z (alter (λ a, a + 1) i a) = x + sum_Z a + 1).
  rewrite IH by lia. lia.
Qed.

Lemma sum_bumps ix a : Forall (λ i, (i < length a)%nat) ix →
  sum_Z (foldl bump a ix) = sum_Z a + Z.of_nat (length ix).
Proof.
  revert a. induction ix as [|i ix IH]; intros a Hf; simpl; [lia|].
  apply Forall_cons in Hf as [Hi Hf]. rewrite IH.
  - rewrite sum_bump by done. lia.
  - eapply Forall_impl; [exact Hf|]. intros j Hj. cbv beta in *. by rewrite length_bump.
Qed.

Lemma length_bumps ix a : length (foldl bump a ix) = length a.
Proof. revert a. induction ix as [|i ix IH]; intros a; simpl; [done|]. by rewrite IH, length_bump. Qed.

(** Distinct indices: an amount grows by at most one. *)
Lemma lookup_bumps ix a j x : NoDup ix → a !! j = Some x →
  foldl bump a ix !! j = Some (if decide (j ∈ ix) then x + 1 else x).
Proof.
  intros Hnd. revert a x. induction Hnd as [|i ix Hi Hnd IH]; intros a x Hx; cbn [foldl].
  { rewrite decide_False by apply not_elem_of_nil. done. }
  destruct (decide (i = j)) as [->|Hne].
  - rewrite (IH _ (x + 1)).
    + rewrite (decide_False (P := j ∈ ix)) by done. by rewrite decide_True by left.
    + unfold bump. rewrite list_lookup_alter, decide_True, Hx by done. done.
  - rewrite (IH _ x).
    + f_equal. assert (j ∈ i :: ix ↔ j ∈ ix) as Hiff by (rewrite elem_of_cons; naive_solver).
      by rewrite (decide_ext _ _ _ _ Hiff).
    + unfold bump. by rewrite list_lookup_alter_ne.
Qed.

Lemma imap_pair_fst {A} (l : list A) : (imap pair l).*1 = seq 0 (length l).
Proof.
  apply list_eq. intros i. rewrite list_lookup_fmap, list_lookup_imap.
  destruct (l !! i) eqn:E; simpl.
  - apply lookup_lt_Some in E. by rewrite lookup_seq_lt.
  - apply lookup_ge_None_1 in E. by rewrite lookup_seq_ge.
Qed.

Section conservation.
Context (attributed : Z) (destinations : list ServiceDestination).
Let total := sum_Z (allocation_bps <$> destinations).
Let ordered := py_sorted by_bucket (filter (λ d, allocation_bps d ≠ 0) destinations).
Let amounts := floor_share attributed total <$> ordered.
Let dust := attributed - sum_Z amounts.
Let indices := take (Z.to_nat dust)
  (py_sorted (by_remainder attributed total) (imap pair ordered)).*1.

Context (Ha : 0 <= attributed) (Ht : 0 < total).

Lemma total_ordered : sum_Z (allocation_bps <$> ordered) = total.
Proof.
  unfold ordered. rewrite (sum_Z_perm _ (allocation_bps <$>
    filter (λ d, allocation_bps d ≠ 0) destinations)) by by rewrite py_sorted_perm.
  unfold total. clear. induction destinations as [|d ds IH]; [done|].
  rewrite filter_cons. case_decide; csimpl; lia.
Qed.

Lemma floor_remainder ds :
  total * sum_Z (floor_share attributed total <$> ds) +
  sum_Z (remainder_share attributed total <$> ds) =
  attributed * sum_Z (allocation_bps <$> ds).
Proof.
  induction ds as [|d ds IH]; csimpl; [lia|].
  unfold floor_share at 1, remainder_share at 1.
  pose proof (Z.div_mod (attributed * allocation_bps d) total ltac:(lia)). nia.
Qed.

Lemma remainder_bound ds :
  0 <= sum_Z (remainder_share attributed total <$> ds) ∧
  (ds ≠ [] → sum_Z (remainder_share attributed total <$> ds) < total * Z.of_nat (length ds)).
Proof.
  induction ds as [|d ds [IH1 IH2]]; [split; [simpl; lia | done]|]. csimpl.
  pose proof (Z.mod_pos_bound (attributed * allocation_bps d) total Ht).
  unfold remainder_share at 1 3.
  destruct (decide (ds = [])) as [->|Hne]; [simpl; split; intros; lia|].
  specialize (IH2 Hne). split; [lia|]. intros _. lia.
Qed.

Lemma ordered_ne : ordered ≠ [].
Proof. intros Hn. pose proof total_ordered as H. rewrite Hn in H. simpl in H. lia. Qed.

Lemma dust_bounds : 0 <= dust < Z.of_nat (length ordered).
Proof.
  pose proof (floor_remainder ordered) as Hf. rewrite total_ordered in Hf.
  destruct (remainder_bound ordered) as [Hr1 Hr2]. specialize (Hr2 ordered_ne).
  unfold dust, amounts. nia.
Qed.

Lemma remainders_perm :
  (py_sorted (by_remainder attributed total) (imap pair ordered)).*1 ≡ₚ seq 0 (length ordered).
Proof. rewrite py_sorted_perm. by rewrite imap_pair_fst. Qed.

Lemma indices_facts : NoDup indices ∧ length indices = Z.to_nat dust ∧
  Forall (λ i, (i < length amounts)%nat) indices.
Proof.
  assert (length amounts = length ordered) as Hla by apply length_fmap.
  split_and!.
  - eapply sublist_NoDup; [|apply sublist_take]. rewrite remainders_perm. apply NoDup_seq.
  - unfold indices. rewrite length_take, remainders_perm, length_seq.
    pose proof dust_bounds. lia.
  - apply Forall_forall. intros i Hi. rewrite Hla.
    assert (i ∈ seq 0 (length ordered)) as Hs%elem_of_seq; [|lia].
    rewrite <- remainders_perm. eapply elem_of_submseteq; [exact Hi|].
    apply sublist_submseteq, sublist_take.
Qed.

Lemma distribute_unfold : distribute attributed destinations =
  zip ordered (foldl bump amounts indices).
Proof. done. Qed.

Lemma distribute_sum : sum_Z (distribute attributed destinations).*2 = attributed.
Proof.
  destruct indices_facts as (_ & Hl & Hf).
  rewrite distribute_unfold, snd_zip.
  - rewrite sum_bumps, Hl by done. pose proof dust_bounds. unfold dust in *. lia.
  - rewrite length_bumps. unfold amounts. by rewrite length_fmap.
Qed.

Lemma distribute_elem d a : (d, a) ∈ distribute attributed destinations →
  d ∈ destinations ∧ allocation_bps d ≠ 0 ∧
  (a = floor_share attributed total d ∨ a = floor_share attributed total d + 1).
Proof.
  rewrite distribute_unfold. intros [i Hi]%list_elem_of_lookup.
  apply lookup_zip_Some in Hi as [Hd Ha'].
  assert (amounts !! i = Some (floor_share attributed total d)) as Hfl
    by (unfold amounts; by rewrite list_lookup_fmap, Hd).
  destruct indices_facts as (Hnd & _ & _).
  rewrite (lookup_bumps _ _ _ _ Hnd Hfl) in Ha'. injection Ha' as <-.
  apply list_elem_of_lookup_2 in Hd. apply elem_of_py_sorted, list_elem_of_filter in Hd as [Hb Hin].
  split_and!; [done | done |]. case_decide; auto.
Qed.
End conservation.

Lemma omap_positive_sum (ds : list (ServiceDestination * Z)) :
  sum_Z (alpha_rao <$> omap (λ da, if da.2 =? 0 then None else
    Some {| dist_bucket_id := bucket_id da.1; dist_holding_coldkey := holding_coldkey da.1;
            alpha_rao := da.2 |}) ds) = sum_Z ds.*2.
Proof.
  induction ds as [|[d a] ds IH]; [done|]. csimpl.
  destruct (Z.eqb_spec a 0) as [->|]; csimpl; lia.
Qed.

(** The checks [plan_service_distribution] makes before it splits. *)
Lemma plan_inv attributed available collector destinations ds :
  plan_service_distribution attributed available collector destinations = Ok ds →
  0 <= attributed <= available ∧
  NoDup (bucket_id <$> destinations) ∧ NoDup (holding_coldkey <$> destinations) ∧
  existsb (bad_destination collector) destinations = false ∧
  0 < sum_Z (allocation_bps <$> destinations) <= 10000 ∧
  ds = omap (λ da, if da.2 =? 0 then None else
        Some {| dist_bucket_id := bucket_id da.1; dist_holding_coldkey := holding_coldkey da.1;
                alpha_rao := da.2 |}) (distribute attributed destinations).
Proof.
  unfold plan_service_distribution. intros H. inv_ok H. bool_to_prop. split_and!; try lia; done.
Qed.

(** C40: an accepted distribution pays out exactly the attributed earnings, to
    the rao. Every transfer is positive and goes to a destination of the policy
    with a positive allocation, never to the collector itself, and its amount is
    the exact pro-rata share rounded down or that plus one. *)
Theorem plan_service_distribution_correct attributed available collector destinations ds :
  plan_service_distribution attributed available collector destinations = Ok ds →
  let total := sum_Z (allocation_bps <$> destinations) in
  sum_Z (alpha_rao <$> ds) = attributed ∧
  Forall (λ x, 0 < alpha_rao x ∧ dist_holding_coldkey x ≠ collector ∧
    ∃ d, d ∈ destinations ∧ dist_bucket_id x = bucket_id d ∧
      dist_holding_coldkey x = holding_coldkey d ∧ 0 < allocation_bps d ∧
      (alpha_rao x = attributed * allocation_bps d / total ∨
       alpha_rao x = attributed * allocation_bps d / total + 1)) ds.
Proof.
  intros (Ha & _ & _ & Hbad & Ht & ->)%plan_inv. cbv zeta.
  split; [rewrite omap_positive_sum; apply distribute_sum; lia|].
  apply Forall_forall. intros x ([d a] & Hin & Hx)%list_elem_of_omap. simpl in Hx.
  destruct (Z.eqb_spec a 0) as [|Hne]; [done|]. injection Hx as <-. simpl.
  apply distribute_elem in Hin as (Hd & Hb & Hfl); [|lia..].
  assert (bad_destination collector d = false) as Hdb.
  { apply not_true_iff_false. intros Hbt. apply not_true_iff_false in Hbad. apply Hbad.
    apply existsb_exists. exists d. split; [by apply list_elem_of_In | done]. }
  unfold bad_destination in Hdb. rewrite !orb_false_iff, negb_false_iff in Hdb.
  destruct Hdb as [[[_ _] Hc] Hr]. apply andb_true_iff in Hr as [Hr _]. apply Z.leb_le in Hr.
  apply String.eqb_neq in Hc. unfold floor_share in Hfl.
  assert (0 <= attributed * allocation_bps d / sum_Z (allocation_bps <$> destinations))
    by (apply Z.div_pos; nia).
  split_and!; [lia | done |]. exists d. split_and!; [done.. | lia | done].
Qed.

#[global] Instance by_bucket_order : CmpOrder by_bucket.
Proof. apply cmp_by_order, str_cmp_order. Qed.

Lemma by_bucket_distinct ds : NoDup (bucket_id <$> ds) → key_distinct by_bucket ds.
Proof.
  intros Hnd a b Ha Hb Heq. apply str_cmp_Eq in Heq.
  induction ds as [|x ds IH]; [by apply elem_of_nil in Ha|].
  simpl in Hnd. apply NoDup_cons in Hnd as [Hx Hnd].
  apply elem_of_cons in Ha as [->|Ha], Hb as [->|Hb]; try done; [..|by apply IH];
    destruct Hx; [rewrite Heq | rewrite <- Heq]; by apply list_elem_of_fmap_2.
Qed.

Lemma distribute_perm attributed ds1 ds2 :
  ds1 ≡ₚ ds2 → NoDup (bucket_id <$> ds1) → distribute attributed ds1 = distribute attributed ds2.
Proof.
  intros Hp Hnd. unfold distribute.
  assert (sum_Z (allocation_bps <$> ds1) = sum_Z (allocation_bps <$> ds2)) as ->
    by by apply sum_Z_perm; rewrite Hp.
  set (P := λ d : ServiceDestination, allocation_bps d ≠ 0).
  assert (filter P ds1 ≡ₚ filter P ds2) as Hf by by rewrite Hp.
  rewrite (py_sorted_perm_eq by_bucket _ _ Hf); [done|]. apply by_bucket_distinct.
  eapply sublist_NoDup; [exact Hnd|]. apply fmap_sublist, sublist_filter.
Qed.


(** The distribution, or the refusal, is a function of the set of
    destinations: the order in which the policy lists them, and with it every
    tie of the largest remainders, does not matter. *)
Lemma plan_order_independent attributed available collector ds1 ds2 :
  ds1 ≡ₚ ds2 →
  plan_service_distribution attributed available collector ds1 =
  plan_service_distribution attributed available collector ds2.
Proof.
  intros Hp. unfold plan_service_distribution.
  assert (bool_decide (NoDup (bucket_id <$> ds1)) = bool_decide (NoDup (bucket_id <$> ds2))) as Hb
    by (apply bool_decide_ext; by rewrite Hp).
  assert (bool_decide (NoDup (holding_coldkey <$> ds1)) =
    bool_decide (NoDup (holding_coldkey <$> ds2))) as Hh by (apply bool_decide_ext; by rewrite Hp).
  assert (sum_Z (allocation_bps <$> ds1) = sum_Z (allocation_bps <$> ds2)) as Hs
    by by apply sum_Z_perm; rewrite Hp.
  rewrite (existsb_perm _ _ _ Hp), (Permutation_length Hp), <- Hb, Hh, Hs.
  destruct (bool_decide_reflect (NoDup (bucket_id <$> ds1))) as [Hnd|]; [|done].
  by rewrite (distribute_perm _ _ _ Hp Hnd).
Qed.

(** * The service-first vector *)

Lemma keys_miner_slice miners miner : (miner_slice miners miner).*1 = miners.*1.
Proof.
  unfold miner_slice. destruct miners as [|hw miners]; [done|]. csimpl. f_equal.
  rewrite <- !list_fmap_compose. by apply list_fmap_ext.
Qed.

Lemma competing_not_role weights roles h : h ∈ (competing weights roles).*1 →
  h ∉ roles ∧ h ∈ weights.*1.
Proof.
  intros (hw & -> & [[Hr _] Hin]%list_elem_of_filter)%list_elem_of_fmap.
  split; [done|]. by apply list_elem_of_fmap_2.
Qed.

Lemma role_burn burn collector : burn ≠ EmptyString → burn ∈ excluded burn collector.
Proof.
  intros Hb. unfold excluded. rewrite (proj2 (String.eqb_neq _ _) Hb). left.
Qed.
Lemma role_collector burn collector : collector ≠ EmptyString → collector ∈ excluded burn collector.
Proof.
  intros Hc. unfold excluded. rewrite (proj2 (String.eqb_neq collector _) Hc).
  apply elem_of_app. right. left.
Qed.

Lemma service_share_zero bps : 0 <= bps <= 10000 →
  feqb (int_truediv bps 10000) zero = (bps =? 0).
Proof.
  intros Hb. destruct (Z.eqb_spec bps 0) as [->|Hne]; [vm_compute; reflexivity|].
  rewrite int_truediv_round by lia.
  assert (10000 <= f64_one) as Hone by (vm_compute; discriminate).
  pose proof (round_pos_fgtb (bps * f64_one) 10000 ltac:(lia) ltac:(nia)) as Hg.
  revert Hg. generalize (round (bps * f64_one) 10000). intros x Hg.
  apply fgtb_zero_cases in Hg as [(z & -> & Hz)| ->]; [|reflexivity].
  unfold zero. cbn [feqb]. apply Z.eqb_neq. lia.
Qed.

Lemma collector_guard bps verified collector burn :
  negb (negb (bps =? 0) && (negb verified || String.eqb collector EmptyString ||
    String.eqb collector burn)) = true →
  bps ≠ 0 → verified = true ∧ collector ≠ EmptyString ∧ collector ≠ burn.
Proof.
  intros H Hb. rewrite (proj2 (Z.eqb_neq bps 0) Hb) in H. simpl in H.
  destruct verified, (String.eqb_spec collector EmptyString), (String.eqb_spec collector burn);
    try discriminate H. done.
Qed.

(** The items of the treasury vector. *)
Lemma service_first_shape weights bps burn_share collector verified burn paid w :
  service_first_weights weights bps burn_share collector verified burn paid = Ok w →
  let miners := competing weights (excluded burn collector) in
  let service := int_truediv bps 10000 in
  let miner := miner_share_of miners service burn_share paid in
  let residual := fsub (fsub one service) miner in
  let slice := if feqb miner zero then [] else miner_slice miners miner in
  w = slice ++ (if bps =? 0 then [] else [(collector, service)]) ++
        (if fgtb residual zero then [(burn, residual)] else []) ∧
  (bps ≠ 0 → verified = true ∧ collector ≠ EmptyString ∧ collector ≠ burn) ∧
  (fgtb residual zero = true → burn ≠ EmptyString) ∧
  (∀ h, h ∈ slice.*1 → h ∈ miners.*1 ∧ h ∉ excluded burn collector).
Proof.
  intros H miners service miner residual slice. unfold service_first_weights in H.
  do 4 inv_ok_step H. cbv zeta in H. fold miners service in H.
  fold miner in H. fold residual in H. fold slice in H.
  assert (0 <= bps <= 10000) as Hbps by (bool_to_prop; lia).
  assert (∀ h, h ∈ slice.*1 → h ∈ miners.*1 ∧ h ∉ excluded burn collector) as Hslice.
  { intros h Hh. unfold slice in Hh. destruct (feqb miner zero); [apply elem_of_nil in Hh; destruct Hh|].
    rewrite keys_miner_slice in Hh. split; [exact Hh|]. exact (proj1 (competing_not_role _ _ _ Hh)). }
  assert (bps ≠ 0 → verified = true ∧ collector ≠ EmptyString ∧ collector ≠ burn) as Hcol.
  { eapply collector_guard. eassumption. }
  assert (feqb service zero = (bps =? 0)) as Hz by exact (service_share_zero bps Hbps).
  rewrite Hz in H.
  assert ((if bps =? 0 then slice else dict_set collector service slice) =
    slice ++ (if bps =? 0 then [] else [(collector, service)])) as Hsvc.
  { destruct (Z.eqb_spec bps 0); [rewrite app_nil_r; reflexivity|]. apply dict_set_fresh.
    intros Hin. apply Hslice in Hin as [_ Hin]. apply Hin, role_collector. apply Hcol. assumption. }
  assert (H' : (if fgtb residual zero
      then require (negb (String.eqb burn EmptyString)) (ValueError "burn hotkey is required") ≫= λ _,
        Ok (dict_set burn residual
              (slice ++ (if bps =? 0 then [] else [(collector, service)])))
      else Ok (slice ++ (if bps =? 0 then [] else [(collector, service)]))) = Ok w)
    by (rewrite <- Hsvc; exact H). clear H Hsvc Hz. rename H' into H.
  destruct (fgtb residual zero).
  - apply bind_Ok in H as (u & Hbn & H). apply require_Ok, negb_true_iff, String.eqb_neq in Hbn.
    injection H as <-.
    split; [|split; [exact Hcol | split; [intros _; exact Hbn | exact Hslice]]].
    rewrite app_assoc. apply dict_set_fresh. rewrite fmap_app.
    intros [Hin|Hin]%elem_of_app.
    + apply Hslice in Hin as [_ Hin]. exact (Hin (role_burn _ _ Hbn)).
    + destruct (Z.eqb_spec bps 0) as [|Hne]; [apply elem_of_nil in Hin; destruct Hin|].
      apply list_elem_of_singleton in Hin. destruct (Hcol Hne) as (_ & _ & Hcb). exact (Hcb (eq_sym Hin)).
  - injection H as <-. rewrite app_nil_r.
    split; [reflexivity | split; [exact Hcol | split; [intros [=] | exact Hslice]]].
Qed.

(** The treasury vector is the miners' slice, then the service share, then
    the residual burn, and nothing else. The slice holds exactly the positive
    miners that are not treasury roles, or nobody when their share is zero; a
    funded collector holds exactly [service_bps / 10000] and must be verified,
    named and not the burn hotkey; a positive residual goes whole to a named
    burn hotkey. The collector and the burn hotkey never compete. *)
Lemma service_first_correct weights bps burn_share collector verified burn paid w :
  service_first_weights weights bps burn_share collector verified burn paid = Ok w →
  let miners := competing weights (excluded burn collector) in
  let service := int_truediv bps 10000 in
  let miner := miner_share_of miners service burn_share paid in
  let residual := fsub (fsub one service) miner in
  let slice := if feqb miner zero then [] else miner_slice miners miner in
  w = slice ++ (if bps =? 0 then [] else [(collector, service)]) ++
        (if fgtb residual zero then [(burn, residual)] else []) ∧
  (bps ≠ 0 → verified = true ∧ collector ≠ EmptyString ∧ collector ≠ burn) ∧
  (fgtb residual zero = true → burn ≠ EmptyString) ∧
  (∀ h, h ∈ slice.*1 → h ∈ miners.*1 ∧ h ∉ excluded burn collector).
Proof. apply service_first_shape. Qed.

(** Who the treasury vector pays. *)
Lemma service_first_keys weights bps burn_share collector verified burn paid w h :
  service_first_weights weights bps burn_share collector verified burn paid = Ok w →
  h ∈ w.*1 → (h = burn ∧ burn ≠ EmptyString) ∨ h = collector ∨ h ∈ weights.*1.
Proof.
  intros Hw Hin. apply service_first_shape in Hw as (-> & _ & Hb & Hs). cbv zeta in *.
  rewrite !fmap_app in Hin. apply elem_of_app in Hin as [Hin|Hin].
  { right. right. apply Hs in Hin as [Hin _]. by apply competing_not_role in Hin as [_ ?]. }
  apply elem_of_app in Hin as [Hin|Hin].
  - right. left. destruct (bps =? 0); [apply elem_of_nil in Hin; destruct Hin|].
    apply list_elem_of_singleton in Hin. exact Hin.
  - left. destruct (fgtb _ zero); [|apply elem_of_nil in Hin; destruct Hin].
    apply list_elem_of_singleton in Hin. split; [exact Hin | by apply Hb].
Qed.

(** * Concrete instances *)

Definition sample_destinations : list ServiceDestination := [
  {| bucket_id := "storage"; allocation_bps := 500; holding_coldkey := "k2" |};
  {| bucket_id := "infra"; allocation_bps := 500; holding_coldkey := "k1" |};
  {| bucket_id := "audit"; allocation_bps := 1000; holding_coldkey := "k3" |};
  {| bucket_id := "spare"; allocation_bps := 0; holding_coldkey := "k4" |}]%string.

(** Eleven rao over 500 : 500 : 1000: the largest remainders round up. *)
Definition sample_distribution : list ServiceDistribution := [
  {| dist_bucket_id := "audit"; dist_holding_coldkey := "k3"; alpha_rao := 5 |};
  {| dist_bucket_id := "infra"; dist_holding_coldkey := "k1"; alpha_rao := 3 |};
  {| dist_bucket_id := "storage"; dist_holding_coldkey := "k2"; alpha_rao := 3 |}]%string.

Lemma plan_service_distribution_correct_witness :
  sum_Z (alpha_rao <$> sample_distribution) = 11.
Proof.
  refine (proj1 (plan_service_distribution_correct 11 20 "collector" sample_destinations
    sample_distribution _)).
  vm_compute. reflexivity.
Defined.

Lemma plan_order_independent_witness :
  plan_service_distribution 11 20 "collector" sample_destinations =
  plan_service_distribution 11 20 "collector" (rev sample_destinations).
Proof. apply (plan_order_independent 11 20 "collector"). apply Permutation_rev. Defined.

Lemma service_first_correct_witness :
  ∃ w, service_first_weights [("bob", flit 6 10); ("treasury", flit 4 10)]%string 2000
      (flit 1 10) "treasury" true "owner" one = Ok w ∧
    (fgtb (fsub (fsub one (int_truediv 2000 10000))
       (miner_share_of (competing [("bob", flit 6 10); ("treasury", flit 4 10)]%string
          (excluded "owner" "treasury")) (int_truediv 2000 10000) (flit 1 10) one)) zero = true →
     "owner"%string ≠ EmptyString).
Proof.
  destruct (service_first_weights _ 2000 _ _ _ _ _) as [w|e] eqn:E.
  2: { exfalso. revert E. vm_compute. discriminate. }
  exists w. split; [reflexivity|].
  exact (proj1 (proj2 (proj2 (service_first_correct _ _ _ _ _ _ _ _ E)))).
Defined.
