(* ===== verification/Epoch.v ===== *)
(** One weight epoch of the validator, [ValidatorWorker._update_weights] in
    [ditto/validator/worker.py]: from the served ledger and the chain reads to
    the candidate vector, or to leaving the last accepted vector in place.

    Reads are arguments: what the platform, the metagraph, the scorer feeds and
    the owner lookup returned.  The checks after the vector is computed (permit,
    stake, submission) are not modelled. *)
From Stdlib Require Import ZArith Lia.
From stdpp Require Import base list gmap strings sorting.
From S2P Require Import Prelude Binary64 Dueling Ledger Crown Emission Blend Tracks ServiceAllocation.

Definition MAX_STALE_LEDGER_AGE_SECONDS : Z := 6 * 60 * 60.

(** [LedgerResponse], the fields the epoch reads.  A mode marker is [None] when
    the platform omits it; a UUID field is [None] when it holds no UUID. *)
Record LedgerResponse := {
  entries : list LedgerEntry;
  provisional_incumbent : option LedgerEntry;
  crown_mode : option string;
  crown_incumbent_agent_id : option Z;
  (** [min_dethrone_confirmations], [champion_standing_rank], [duel_window_pairs] *)
  crown_gate_served : option (PyValue * PyValue * PyValue);
  dethrone_band_mode : option string;
  statistical_band_mode : option string;
  tie_weighting_mode : option string;
  v9_confirmation_mode : option string;
  rank_shares_served : list F64;
  stale : bool;
  age_seconds : PyValue;
  burn_share : PyValue;
  track_shares_raw : option (list (option string * PyValue))
}.

Record ValidatorConfig := {
  koth_margin : F64;
  koth_tail_size : Z;
  koth_rank_shares : list F64;
  koth_dethrone_z : F64;
  config_track_shares_bps : shares;
  router_track_state : TrackState;
  config_router_eligible : bool;
  generator_track_state : TrackState;
  config_generator_eligible : bool;
  config_router_rank_shares : list F64;
  config_generator_rank_shares : list F64;
  miner_emission_share : F64;
  burn_hotkey : option string
}.

(** What the treasury checks of the ledger's pin decided: no enforcing pin, an
    enforcing pin that was refused, or one whose authority holds. *)
Inductive TreasuryPin :=
  | NotEnforcing
  | Refused
  | Enforcing (collector_hotkey : string) (service_bps : Z).

#[global] Instance TreasuryPin_eq_dec : EqDecision TreasuryPin.
Proof. solve_decision. Defined.

(** The epoch's reads; [None] is a failed read. *)
Record EpochReads := {
  treasury : TreasuryPin;
  registered : option (list string);
  router_feed : list RouterLedgerEntry;
  generator_feed : option (list GeneratorLedgerEntry);
  owner_read : option string
}.

(** * Reading the ledger's markers *)

Definition is_mode (m : option string) (s : string) : bool := bool_decide (m = Some s).

Definition _ledger_ceiling_band_clamp (l : LedgerResponse) : bool :=
  is_mode (dethrone_band_mode l) "headroom_capped".
Definition _ledger_statistical_band_cap (l : LedgerResponse) : bool :=
  is_mode (statistical_band_mode l) "capped".

Definition _ledger_crown_gate (l : LedgerResponse) : option CrownGate :=
  match crown_gate_served l with
  | Some (PyInt min_seeds, PyInt standing, window) =>
      if negb ((2 <=? min_seeds) && (min_seeds <=? TOP5_MAX_CONFIRMATION_SEEDS)) ||
         negb ((1 <=? standing) && (standing <=? 5))
      then None
      else Some {|
        min_shared_seeds := min_seeds; standing_rank := standing;
        duel_window := match window with
          | PyInt w => if (2 <=? w) && (w <=? TOP5_MAX_CONFIRMATION_SEEDS) then Some w else None
          | _ => None
          end |}
  | _ => None
  end.

Definition _ledger_rank_shares (l : LedgerResponse) (legacy : list F64) : list F64 :=
  match rank_shares_served l with
  | [] => legacy
  | shares =>
      if negb (length shares =? length legacy)%nat || existsb bad_share shares ||
         negb (isclose_one (py_sum shares))
      then legacy else shares
  end.

Definition _ledger_crown_incumbent (l : LedgerResponse) : option Z :=
  if is_mode (crown_mode l) "incumbent" then crown_incumbent_agent_id l else None.

Definition _ledger_provisional_incumbent (l : LedgerResponse) : option LedgerEntry :=
  match provisional_incumbent l, _ledger_crown_incumbent l with
  | Some provisional, Some incumbent =>
      if negb (agent_id provisional =? incumbent) ||
         existsb (λ e, agent_id e =? incumbent) (entries l)
      then None else Some provisional
  | _, _ => None
  end.

Definition _ledger_weight_entries (l : LedgerResponse) : list LedgerEntry :=
  filter_weight_confirmed (is_mode (v9_confirmation_mode l) "enforce")
    (match _ledger_provisional_incumbent l with
     | Some provisional => entries l ++ [provisional]
     | None => entries l
     end).

(** * The steps of the epoch *)

Definition collector_of (t : TreasuryPin) : option string :=
  match t with Enforcing collector _ => Some collector | _ => None end.

(** [e.miner_hotkey != treasury_pin.policy.collector_hotkey], under a pin. *)
Definition competes (t : TreasuryPin) (hotkey : string) : bool :=
  negb (bool_decide (collector_of t = Some hotkey)).

Definition too_stale (l : LedgerResponse) : bool :=
  stale l && match age_seconds l with
             | PyInt age => MAX_STALE_LEDGER_AGE_SECONDS <? age
             | _ => false
             end.

Definition _registered_ledger_entries (registered : list string) (es : list LedgerEntry)
    : list LedgerEntry := filter (λ e, miner_hotkey e ∈ registered) es.

Definition _resolve_burn_hotkey (c : ValidatorConfig) (registered : list string)
    (owner_read : option string) : option string :=
  match burn_hotkey c with
  | Some burn => Some burn
  | None =>
      match owner_read with
      | Some owner =>
          if String.eqb owner "" || negb (length (filter (λ h, h = owner) registered) =? 1)%nat
          then None else Some owner
      | None => None
      end
  end.

Definition epoch_registry_config (c : ValidatorConfig) : RegistryConfig := {|
  router_state := router_track_state c; router_eligible := config_router_eligible c;
  coding_state := SHADOW; coding_eligible := false;
  generator_state := generator_track_state c;
  generator_eligible := config_generator_eligible c |}.

Definition epoch_params (c : ValidatorConfig) (l : LedgerResponse) : MemoryFoldParams := {|
  fold_params := {|
    margin := koth_margin c; dethrone_z := koth_dethrone_z c;
    ceiling_band_clamp := _ledger_ceiling_band_clamp l;
    statistical_band_cap := _ledger_statistical_band_cap l |};
  tail_size := koth_tail_size c;
  rank_shares := _ledger_rank_shares l (koth_rank_shares c);
  tie_pooling := is_mode (tie_weighting_mode l) "pool";
  incumbent_agent_id := _ledger_crown_incumbent l;
  unpaid_agent_id := agent_id <$> _ledger_provisional_incumbent l;
  crown_gate := _ledger_crown_gate l |}.

Definition epoch_inputs (c : ValidatorConfig) (l : LedgerResponse) (t : TreasuryPin)
    (registered_entries : list LedgerEntry) (registered : list string)
    (router : list RouterLedgerEntry) (generator : list GeneratorLedgerEntry)
    : TrackFoldInputs := {|
  memory_entries := registered_entries;
  memory_params := Some (epoch_params c l);
  router_entries := filter (λ e, competes t (router_hotkey e) = true) router;
  router_rank_shares := config_router_rank_shares c;
  generator_entries := filter (λ e, generator_hotkey e ∈ registered ∧
                         competes t (generator_hotkey e) = true) generator;
  generator_rank_shares := config_generator_rank_shares c |}.

Section epoch.
Context {L : Libm}.

(** The payable miners, the paid fraction and the allocated share. *)
Definition miner_vector (r : TrackRegistry) (track_vectors : list (string * vector))
    : vector * F64 * F64 :=
  let paying_shares_bps := claimed_shares_bps r track_vectors in
  let eligible_vectors := filter (λ tv, tv.1 ∈ paying_shares_bps.*1) track_vectors in
  let '(miner_weights, paid_fraction) :=
    split_unpaid_share (blend_track_weights eligible_vectors paying_shares_bps) in
  (miner_weights, paid_fraction, track_allocated_share paying_shares_bps eligible_vectors).

(** The final fold: the treasury's, whose refusals keep the last vector, or the
    burn cap. *)
Definition final_vector (t : TreasuryPin) (miner_weights : vector)
    (miner_share allocated paid_fraction : F64) (burn : string) : result (option vector) :=
  match t with
  | Enforcing collector service_bps =>
      if String.eqb burn collector then Ok None else
      match service_first_weights miner_weights service_bps (fsub one miner_share) collector true
              burn (fmul allocated paid_fraction) with
      | Ok w => Ok (Some w)
      | Err (ValueError _) => Ok None
      | Err e => Err e
      end
  | _ => apply_miner_emission_cap miner_weights (fmul (fmul miner_share allocated) paid_fraction)
           burn ≫= λ w, Ok (Some w)
  end.

Definition service_bps_of (t : TreasuryPin) : Z :=
  match t with Enforcing _ service_bps => service_bps | _ => 0 end.

(** The folds, the blend, the burn destination and the final fold. *)
Definition fold_vectors (c : ValidatorConfig) (l : LedgerResponse) (reads : EpochReads)
    (registered : list string) (registered_entries : list LedgerEntry)
    (registry : TrackRegistry) (generator : list GeneratorLedgerEntry)
    : result (option vector) :=
  let t := treasury reads in
  fold_tracks registry (epoch_inputs c l t registered_entries registered
                          (router_feed reads) generator) ≫= λ track_vectors,
  let '(miner_weights, paid_fraction, allocated) := miner_vector registry track_vectors in
  let miner_share := resolve_miner_emission_share (burn_share l) (miner_emission_share c) in
  let required := bool_decide (is_Some (burn_hotkey c)) ||
    owner_burn_destination_required miner_weights miner_share
      (fmul allocated paid_fraction) (service_bps_of t) in
  match (if required then _resolve_burn_hotkey c registered (owner_read reads)
         else Some EmptyString) with
  | None => Ok None
  | Some burn => final_vector t miner_weights miner_share allocated paid_fraction burn
  end.

(** [Ok None]: weights unchanged this epoch. *)
Definition _update_weights (c : ValidatorConfig) (l : LedgerResponse) (reads : EpochReads)
    : result (option vector) :=
  let t := treasury reads in
  if bool_decide (t = Refused) || too_stale l then Ok None else
  let weight_entries := filter (λ e, competes t (miner_hotkey e) = true)
                          (_ledger_weight_entries l) in
  let competitive_entries := filter (λ e, competes t (miner_hotkey e) = true) (entries l) in
  if negb (length competitive_entries =? 0)%nat && (length weight_entries =? 0)%nat
  then Ok None else
  match registered reads with
  | None => Ok None
  | Some registered =>
      let registered_entries := _registered_ledger_entries registered weight_entries in
      build_default_registry
        (resolve_track_shares (track_shares_raw l) (config_track_shares_bps c))
        (epoch_registry_config c) ≫= λ registry,
      match generator_feed reads with
      | Some generator =>
          fold_vectors c l reads registered registered_entries registry generator
      | None =>
          if 0 <? bps_of (shares_bps registry) TRACK_GENERATOR then Ok None
          else fold_vectors c l reads registered registered_entries registry []
      end
  end.
End epoch.

(** * Who an epoch can pay *)

Section epoch_theory.
Context {L : Libm}.

Lemma final_vector_keys t mw ms a p burn w h :
  final_vector t mw ms a p burn = Ok (Some w) → h ∈ w.*1 →
  (h = burn ∧ burn ≠ EmptyString) ∨ collector_of t = Some h ∨ h ∈ mw.*1.
Proof.
  intros Hw Hin. assert (∀ w', apply_miner_emission_cap mw (fmul (fmul ms a) p) burn ≫=
    (λ w, Ok (Some w)) = Ok (Some w') → h ∈ w'.*1 →
    (h = burn ∧ burn ≠ EmptyString) ∨ h ∈ mw.*1) as Hcap.
  { intros w' (w0 & Hw0 & [= ->])%bind_Ok Hin'. by eapply cap_keys. }
  destruct t as [| |collector bps]; cbn [final_vector] in Hw.
  - destruct (Hcap _ Hw Hin); auto.
  - destruct (Hcap _ Hw Hin); auto.
  - destruct (String.eqb burn collector); [discriminate Hw|].
    destruct (service_first_weights _ _ _ _ _ _ _) as [w0|e] eqn:E;
      [|destruct e; discriminate Hw].
    injection Hw as ->. destruct (service_first_keys _ _ _ _ _ _ _ _ _ E Hin) as [?|[->|?]]; auto.
Qed.

Lemma miner_vector_keys r vs h : h ∈ (miner_vector r vs).1.1.*1 →
  h ≠ UNPAID_SHARE_KEY ∧ ∃ t v, (t, v) ∈ vs ∧ h ∈ v.*1.
Proof.
  unfold miner_vector. destruct (split_unpaid_share _) as [mw p] eqn:E. cbn [fst]. intros Hin.
  assert (h ∈ (split_unpaid_share (blend_track_weights
    (filter (λ tv, tv.1 ∈ (claimed_shares_bps r vs).*1) vs) (claimed_shares_bps r vs))).1.*1)
    as [Hne Hb]%split_unpaid_keys by by rewrite E.
  split; [done|]. apply blend_keys in Hb as (t & v & w & [_ Hv]%list_elem_of_filter & _ & Hw & _).
  exists t, v. split; [done|]. apply list_elem_of_fmap. by exists (h, w).
Qed.

(** A miner the epoch may pay. *)
Definition payable (l : LedgerResponse) (reads : EpochReads) (registered : list string)
    (h : string) : Prop :=
  (∃ e, e ∈ _ledger_weight_entries l ∧ miner_hotkey e = h ∧ h ∈ registered ∧
     _entry_eligible e = true ∧ _dueling_fold_ready e = true ∧
     fgtb (_effective_composite e) zero = true ∧
     Some (agent_id e) ≠ agent_id <$> _ledger_provisional_incumbent l) ∨
  (∃ e, e ∈ router_feed reads ∧ router_hotkey e = h ∧ router_weight_eligible e = true) ∨
  (∃ e, e ∈ default [] (generator_feed reads) ∧ generator_hotkey e = h ∧ h ∈ registered ∧
     generator_weight_eligible e = true).

Lemma track_vector_payable c l reads registered generator s rc tr v h :
  tr ∈ default_tracks s rc →
  track_fold tr (epoch_inputs c l (treasury reads)
    (_registered_ledger_entries registered
       (filter (λ e, competes (treasury reads) (miner_hotkey e) = true) (_ledger_weight_entries l)))
    registered (router_feed reads) generator) = Ok v →
  generator = default [] (generator_feed reads) →
  h ∈ v.*1 → h ≠ UNPAID_SHARE_KEY →
  payable l reads registered h ∧ competes (treasury reads) h = true.
Proof.
  intros Htr Hv -> Hh Hne. unfold default_tracks in Htr. rewrite !elem_of_cons, elem_of_nil in Htr.
  destruct Htr as [->|[->|[->|[->|[]]]]]; cbn [track_fold] in Hv.
  - unfold memory_fold in Hv. cbn [memory_params epoch_inputs] in Hv.
    apply compute_weights_keys in Hv as [_ Hk]. destruct (Hk h Hh) as (e & He & H1 & H2 & H3 & Hwho).
    destruct Hwho as [[_ ->]|[Hu ->]]; [done|].
    apply list_elem_of_filter in He as [Hreg [Hc He]%list_elem_of_filter].
    split; [left; by exists e | done].
  - injection Hv as <-. by apply elem_of_nil in Hh.
  - injection Hv as <-.
    apply router_keys in Hh as (e & [H1 [Hc He]%list_elem_of_filter]%list_elem_of_filter & <-).
    apply andb_true_iff in H1 as [H1 _]. split; [right; left; by exists e | done].
  - injection Hv as <-.
    apply generator_keys in Hh as (e & [H1 [[Hreg Hc] He]%list_elem_of_filter]%list_elem_of_filter & <-).
    apply andb_true_iff in H1 as [H1 _]. split; [right; right; by exists e | done].
Qed.

Lemma fold_vectors_keys c l reads registered registry generator w h s rc :
  registry = default_tracks s rc → generator = default [] (generator_feed reads) →
  fold_vectors c l reads registered
    (_registered_ledger_entries registered
       (filter (λ e, competes (treasury reads) (miner_hotkey e) = true) (_ledger_weight_entries l)))
    registry generator = Ok (Some w) →
  h ∈ w.*1 →
  _resolve_burn_hotkey c registered (owner_read reads) = Some h ∨
  collector_of (treasury reads) = Some h ∨
  (h ≠ UNPAID_SHARE_KEY ∧ payable l reads registered h ∧ competes (treasury reads) h = true).
Proof.
  intros -> Hgen. unfold fold_vectors. intros (vs & Hvs & Hw)%bind_Ok Hin.
  destruct (miner_vector _ vs) as [[mw p] a] eqn:Emv.
  destruct (if _ || _ then _ else _) as [burn|] eqn:Eb; [|discriminate Hw].
  destruct (final_vector_keys _ _ _ _ _ _ _ _ Hw Hin) as [[-> Hne]|[?|Hmw]].
  - left. destruct (_ || _); [exact Eb|]. injection Eb as <-. by destruct Hne.
  - right. by left.
  - right. right. assert (h ∈ (miner_vector (default_tracks s rc) vs).1.1.*1)
      as (Hu & t & v & Hv & Hhv)%miner_vector_keys by by rewrite Emv.
    split; [done|]. destruct (fold_tracks_elem _ _ _ _ _ Hvs Hv) as (tr & Htr & _ & Hf).
    by eapply track_vector_payable.
Qed.

(** C2: nobody else is ever paid. Whatever the ledger and the chain served, a
    hotkey of the epoch's vector is the resolved burn destination, the enforced
    treasury's collector, or a payable miner: the hotkey, registered now, of an
    eligible row with a positive effective score whose agent is not the
    provisional incumbent, or of a weight-eligible router or registered
    generator row. The unpaid marker is never submitted as a miner, and under a
    treasury pin the collector never competes as one. *)
Theorem update_weights_recipients c l reads w h :
  _update_weights c l reads = Ok (Some w) → h ∈ w.*1 →
  ∃ hotkeys, registered reads = Some hotkeys ∧
    (_resolve_burn_hotkey c hotkeys (owner_read reads) = Some h ∨
     collector_of (treasury reads) = Some h ∨
     (h ≠ UNPAID_SHARE_KEY ∧ payable l reads hotkeys h ∧ competes (treasury reads) h = true)).
Proof.
  unfold _update_weights. cbv zeta. destruct (bool_decide _ || _); [discriminate|].
  destruct (negb _ && _); [discriminate|].
  destruct (registered reads) as [reg|] eqn:Er; [|discriminate]. intros (r & Hr & Hw)%bind_Ok Hin.
  rewrite build_default_registry_tracks in Hr. injection Hr as <-.
  exists reg. split; [done|].
  destruct (generator_feed reads) as [generator|] eqn:Eg.
  - eapply fold_vectors_keys; [done | | exact Hw | exact Hin]. by rewrite Eg.
  - destruct (0 <? _); [discriminate Hw|].
    eapply fold_vectors_keys; [done | | exact Hw | exact Hin]. by rewrite Eg.
Qed.
End epoch_theory.

(** * An epoch by evaluation

    Carol ties Bob on score but is not registered; a tenth of the emission
    burns to the subnet owner, read from the chain. *)
Definition sample_ledger : LedgerResponse := {|
  entries := sample_pool; provisional_incumbent := None; crown_mode := None;
  crown_incumbent_agent_id := None; crown_gate_served := None; dethrone_band_mode := None;
  statistical_band_mode := None; tie_weighting_mode := None; v9_confirmation_mode := None;
  rank_shares_served := []; stale := false; age_seconds := PyInt 0;
  burn_share := PyFloat (flit 1 10); track_shares_raw := None |}.
Definition sample_config : ValidatorConfig := {|
  koth_margin := flit 2 100; koth_tail_size := 1; koth_rank_shares := [flit 6 10; flit 4 10];
  koth_dethrone_z := flit 196 100; config_track_shares_bps := [(TRACK_MEMORY, 10000)];
  router_track_state := SHADOW; config_router_eligible := false;
  generator_track_state := SHADOW; config_generator_eligible := false;
  config_router_rank_shares := [one]; config_generator_rank_shares := [one];
  miner_emission_share := one; burn_hotkey := None |}.
Definition sample_reads : EpochReads := {|
  treasury := NotEnforcing; registered := Some ["alice"; "bob"; "owner"]%string;
  router_feed := []; generator_feed := Some []; owner_read := Some "owner"%string |}.

Lemma update_weights_recipients_witness :
  ∃ w, _update_weights (L := sample_libm) sample_config sample_ledger sample_reads = Ok (Some w) ∧
    w.*1 = ["bob"; "alice"; "owner"]%string ∧
    ∃ hotkeys, registered sample_reads = Some hotkeys ∧
      (_resolve_burn_hotkey sample_config hotkeys (owner_read sample_reads) = Some "owner"%string ∨
       collector_of NotEnforcing = Some "owner"%string ∨
       ("owner"%string ≠ UNPAID_SHARE_KEY ∧ payable sample_ledger sample_reads hotkeys "owner" ∧
        competes NotEnforcing "owner" = true)).
Proof.
  eexists. split; [vm_compute; reflexivity|]. split; [reflexivity|].
  eapply (update_weights_recipients (L := sample_libm) sample_config sample_ledger sample_reads).
  - vm_compute. reflexivity.
  - right. right. left.
Defined.
