(* ===== verification/PyText.v ===== *)
(** The text side of the Python standard library the treasury uses: canonical
    JSON ([json.dumps] with sorted keys and no spaces), the character classes
    of its regular expressions, [str.strip], and UTC timestamps as
    [datetime.isoformat] writes them.

    A character of a Rocq string is a code point below 256.  An instant is a
    number of microseconds since 1970-01-01T00:00:00 UTC. *)
From Stdlib Require Import ZArith Lia Ascii.
From stdpp Require Import base list strings pretty.
From S2P Require Import Prelude.

#[local] Open Scope string_scope.
#[local] Open Scope Z_scope.

(** * Characters and patterns *)

Definition code (c : ascii) : Z := Z.of_N (N_of_ascii c).
Definition between (lo c hi : Z) : bool := (lo <=? c) && (c <=? hi).

Fixpoint str_forall (p : Z → bool) (s : string) : bool :=
  match s with EmptyString => true | String c s' => p (code c) && str_forall p s' end.

(** [[0-9a-f]] *)
Definition lower_hex (c : Z) : bool := between 48 c 57 || between 97 c 102.
(** [[A-Za-z0-9_-]] *)
Definition key_char (c : Z) : bool :=
  between 65 c 90 || between 97 c 122 || between 48 c 57 || (c =? 95) || (c =? 45).

(** [re.fullmatch] of [[0-9a-f]{64}] and of [0x[0-9a-f]{64}]. *)
Definition digest_text (s : string) : bool :=
  (String.length s =? 64)%nat && str_forall lower_hex s.
Definition hash_text (s : string) : bool :=
  match s with String "0" (String "x" s') => digest_text s' | _ => false end.

(** [str.isspace] below 256, and the length of [s.strip()]. *)
Definition is_space (c : Z) : bool :=
  between 9 c 13 || between 28 c 32 || (c =? 133) || (c =? 160).
Fixpoint lstrip (s : string) : string :=
  match s with
  | String c s' => if is_space (code c) then lstrip s' else s
  | EmptyString => EmptyString
  end.
Definition stripped_length (s : string) : Z :=
  Z.of_nat (String.length (lstrip (String.rev (lstrip s)))).

(** [s.strip()] *)
Definition strip (s : string) : string := String.rev (lstrip (String.rev (lstrip s))).

(** [s.removeprefix(p)] *)
Definition removeprefix (p s : string) : string :=
  if String.prefix p s then String.substring (String.length p) (String.length s - String.length p) s
  else s.

(** [s.lower()] below 256. *)
Fixpoint lower (s : string) : string :=
  match s with
  | EmptyString => EmptyString
  | String c s' =>
      let n := code c in
      String (if between 65 n 90 || (between 192 n 222 && negb (n =? 215))
              then ascii_of_N (Z.to_N (n + 32)) else c) (lower s')
  end.

(** [hashlib.sha256(text.encode()).hexdigest()]: a parameter. *)
Class Sha256 := sha256 : string → string.

(** [bytes.fromhex]: pairs of hexadecimal digits, with ASCII white space
    between them. *)
Definition hex_digit_value (c : Z) : option Z :=
  if between 48 c 57 then Some (c - 48)
  else if between 97 c 102 then Some (c - 87)
  else if between 65 c 70 then Some (c - 55) else None.
Fixpoint fromhex (s : string) : option (list Z) :=
  match s with
  | EmptyString => Some []
  | String c s' =>
      if between 9 (code c) 13 || (code c =? 32) then fromhex s'
      else match s' with
           | EmptyString => None
           | String d t =>
               match hex_digit_value (code c), hex_digit_value (code d), fromhex t with
               | Some h, Some l, Some r => Some (16 * h + l :: r)
               | _, _, _ => None
               end
           end
  end.

(** * Canonical JSON *)

Inductive Json :=
  | JNull
  | JBool (b : bool)
  | JInt (i : Z)
  | JStr (s : string)
  | JList (l : list Json)
  | JObj (l : list (string * Json)).

Definition hex_digit (n : Z) : string :=
  match String.get (Z.to_nat n) "0123456789abcdef" with
  | Some c => String c EmptyString | None => EmptyString end.

(** [str(UUID)] of the integer of a UUID: 8-4-4-4-12 hexadecimal digits. *)
Fixpoint hex_text (width : nat) (z : Z) : string :=
  match width with O => "" | S w => hex_text w (z / 16) +:+ hex_digit (z mod 16) end.
Definition uuid_text (u : Z) : string :=
  hex_text 8 (u / 16 ^ 24) +:+ "-" +:+ hex_text 4 (u / 16 ^ 20) +:+ "-" +:+ hex_text 4 (u / 16 ^ 16) +:+ "-" +:+
  hex_text 4 (u / 16 ^ 12) +:+ "-" +:+ hex_text 12 u.

(** [ensure_ascii]: quote, backslash and everything outside space..tilde. *)
Definition escape_char (c : ascii) : string :=
  let n := code c in
  if n =? 34 then String "\" (String c EmptyString)
  else if n =? 92 then String c (String c EmptyString)
  else if n =? 10 then "\n" else if n =? 13 then "\r" else if n =? 9 then "\t"
  else if n =? 12 then "\f" else if n =? 8 then "\b"
  else if between 32 n 126 then String c EmptyString
  else "\u00" +:+ hex_digit (n / 16) +:+ hex_digit (n mod 16).

Fixpoint escape (s : string) : string :=
  match s with EmptyString => EmptyString | String c s' => escape_char c +:+ escape s' end.

Definition dquote : string := String (ascii_of_N 34) EmptyString.
Definition quoted (s : string) : string := dquote +:+ escape s +:+ dquote.

Definition key_cmp (a b : string * string) : comparison := str_cmp a.1 b.1.

Fixpoint join (l : list string) : string :=
  match l with
  | [] => EmptyString
  | [x] => x
  | x :: l' => x +:+ "," +:+ join l'
  end.

(** [json.dumps(value, sort_keys=True, separators=(",", ":"))] *)
Fixpoint _canonical (j : Json) : string :=
  match j with
  | JNull => "null"
  | JBool b => if b then "true" else "false"
  | JInt i => pretty i
  | JStr s => quoted s
  | JList l => "[" +:+ join (map _canonical l) +:+ "]"
  | JObj l =>
      let members := map (λ kv, (kv.1, _canonical kv.2)) l in
      "{" +:+ join (map (λ kv, quoted kv.1 +:+ ":" +:+ kv.2) (py_sorted key_cmp members)) +:+ "}"
  end.

Example canonical_sorts :
  _canonical (JObj [("operator", JStr "ops"); ("epoch", JInt (-12)); ("note", JNull)]) =
  "{" +:+ quoted "epoch" +:+ ":-12," +:+ quoted "note" +:+ ":null," +:+ quoted "operator" +:+
    ":" +:+ quoted "ops" +:+ "}".
Proof. vm_compute. reflexivity. Qed.

(** ** Reading a parsed value

    A JSON column is kept as the value its canonical text encodes; a [dict]
    comparison is a comparison of canonical texts. *)

(** [j[k]] and [j.get(k)] *)
Definition member (k : string) (j : Json) : result Json :=
  match j with
  | JObj l => match dict_get k l with Some v => Ok v | None => Err (KeyError k) end
  | _ => Err (TypeError "not a mapping")
  end.
Definition lookup_key (k : string) (j : Json) : option Json :=
  match j with JObj l => dict_get k l | _ => None end.
Definition is_obj (j : Json) : bool := match j with JObj _ => true | _ => false end.
Definition same_json (a b : Json) : bool := String.eqb (_canonical a) (_canonical b).

Definition as_str (j : option Json) : option string :=
  match j with Some (JStr s) => Some s | _ => None end.
Definition as_int (j : option Json) : option Z :=
  match j with Some (JInt i) => Some i | _ => None end.
(** [set(j) == keys] *)
Definition has_keys (keys : list string) (j : Json) : bool :=
  match j with
  | JObj l => bool_decide (Forall (λ k, k ∈ keys) l.*1) && bool_decide (Forall (λ k, k ∈ l.*1) keys)
  | _ => false
  end.

Definition jopt (z : option Z) : Json := match z with Some z => JInt z | None => JNull end.
Definition jstr (s : option string) : Json := match s with Some s => JStr s | None => JNull end.

(** * Timestamps *)

(** A [datetime] with a timezone, as its instant, or without one. *)
Inductive datetime :=
  | Aware (instant : Z)
  | Naive (wall_clock : Z).

Definition seconds (n : Z) : Z := n * 1000000.
Definition minutes (n : Z) : Z := seconds (60 * n).

(** The proleptic Gregorian date of a day number (day 0 is 1970-01-01). *)
Definition civil (day : Z) : Z * Z * Z :=
  let z := day + 719468 in
  let era := z / 146097 in
  let doe := z mod 146097 in
  let yoe := (doe - doe / 1460 + doe / 36524 - doe / 146096) / 365 in
  let doy := doe - (365 * yoe + yoe / 4 - yoe / 100) in
  let mp := (5 * doy + 2) / 153 in
  let d := doy - (153 * mp + 2) / 5 + 1 in
  let m := if mp <? 10 then mp + 3 else mp - 9 in
  (yoe + era * 400 + (if m <=? 2 then 1 else 0), m, d).

(** [n] in decimal, padded with zeros to [width]. *)
Definition padded (width : nat) (n : Z) : string :=
  let s := pretty n in
  String.concat EmptyString (replicate (width - String.length s)%nat "0") +:+ s.

Definition date_isoformat (instant : Z) : string :=
  let '(y, m, d) := civil (instant / seconds 86400) in
  padded 4 y +:+ "-" +:+ padded 2 m +:+ "-" +:+ padded 2 d.

Definition isoformat (instant : Z) : string :=
  let us := instant mod seconds 86400 in
  let s := us / seconds 1 in
  let frac := us mod seconds 1 in
  date_isoformat instant +:+ "T" +:+ padded 2 (s / 3600) +:+ ":" +:+
  padded 2 (s / 60 mod 60) +:+ ":" +:+ padded 2 (s mod 60) +:+
  (if frac =? 0 then EmptyString else "." +:+ padded 6 frac) +:+ "+00:00".

Example isoformat_leap_day :
  isoformat (seconds 1709251199 + 250) = "2024-02-29T23:59:59.000250+00:00".
Proof. vm_compute. reflexivity. Qed.

(** * Escaped strings read back *)

(** One escaped character, and the rest. *)
Definition hex_value (c : ascii) : N :=
  let n := N_of_ascii c in if (n <? 97)%N then (n - 48)%N else (n - 87)%N.
Definition unescape_char (s : string) : option (ascii * string) :=
  match s with
  | String c s' =>
      if code c =? 34 then None
      else if negb (code c =? 92) then Some (c, s')
      else match s' with
           | String "n" t => Some (ascii_of_N 10, t)
           | String "r" t => Some (ascii_of_N 13, t)
           | String "t" t => Some (ascii_of_N 9, t)
           | String "f" t => Some (ascii_of_N 12, t)
           | String "b" t => Some (ascii_of_N 8, t)
           | String "u" (String _ (String _ (String h (String l t)))) =>
               Some (ascii_of_N (16 * hex_value h + hex_value l), t)
           | String e t => Some (e, t)
           | EmptyString => None
           end
  | EmptyString => None
  end.

Lemma unescape_escape c rest : unescape_char (escape_char c +:+ rest) = Some (c, rest).
Proof. destruct c as [[] [] [] [] [] [] [] []]; reflexivity. Qed.

Lemma string_app_assoc (a b c : string) : (a +:+ b) +:+ c = a +:+ b +:+ c.
Proof. induction a as [|x a IH]; [done|]. exact (f_equal (String x) IH). Qed.

(** A quoted string is a prefix code: what follows it does not matter. *)
Lemma escape_inj s s' r r' :
  escape s +:+ dquote +:+ r = escape s' +:+ dquote +:+ r' → s = s' ∧ r = r'.
Proof.
  revert s'. induction s as [|c s IH]; intros [|c' s']; cbn [escape]; intros E.
  - cbn in E. injection E as E. by split.
  - apply (f_equal unescape_char) in E.
    by rewrite (string_app_assoc (escape_char c')), unescape_escape in E.
  - apply (f_equal unescape_char) in E.
    by rewrite (string_app_assoc (escape_char c)), unescape_escape in E.
  - apply (f_equal unescape_char) in E.
    rewrite (string_app_assoc (escape_char c)), (string_app_assoc (escape_char c')),
      !unescape_escape in E.
    injection E as -> E. by destruct (IH _ E) as [-> ->].
Qed.

Lemma quoted_inj s s' r r' : quoted s +:+ r = quoted s' +:+ r' → s = s' ∧ r = r'.
Proof. unfold quoted. intros E.
  rewrite !(string_app_assoc dquote), !(string_app_assoc (escape _)) in E.
  cbn [dquote String.app] in E. injection E as E. by apply escape_inj. Qed.
