(* ===== verification/Canonical.v ===== *)
(** The canonical JSON text of the treasury is a faithful encoding: two values
    have the same text exactly when they are the same value up to the order in
    which the members of their objects were written.

    The values are those of [PyText.Json]: strings of code points below 256, and
    no floats, tuples or keys that are not strings.

    Digests, approvals and idempotency keys of the treasury and the collector
    all compare or hash this text ([PyText._canonical]). *)
From Stdlib Require Import ZArith Lia Ascii.
From stdpp Require Import base list strings pretty.
From S2P Require Import Prelude PyText.

#[local] Open Scope string_scope.
#[local] Open Scope list_scope.

(** * Values up to the order of members *)

Section json_ind.
Variable P : Json → Prop.
Hypotheses (Hnull : P JNull) (Hbool : ∀ b, P (JBool b)) (Hint : ∀ i, P (JInt i))
  (Hstr : ∀ s, P (JStr s)) (Hlist : ∀ l, Forall P l → P (JList l))
  (Hobj : ∀ l, Forall (λ kv, P kv.2) l → P (JObj l)).

Fixpoint json_induction (j : Json) : P j :=
  match j with
  | JNull => Hnull | JBool b => Hbool b | JInt i => Hint i | JStr s => Hstr s
  | JList l => Hlist l ((fix go l := match l return Forall P l with
      | [] => List.Forall_nil _ | x :: l' => @List.Forall_cons _ _ x l' (json_induction x) (go l') end) l)
  | JObj l => Hobj l ((fix go l := match l return Forall (λ kv, P kv.2) l with
      | [] => List.Forall_nil _ | kv :: l' => @List.Forall_cons _ _ kv l' (json_induction kv.2) (go l') end) l)
  end.
End json_ind.

Definition member_cmp (a b : string * Json) : comparison := str_cmp a.1 b.1.

(** The members of every object sorted by key. *)
Fixpoint sorted_members (j : Json) : Json :=
  match j with
  | JList l => JList (map sorted_members l)
  | JObj l => JObj (py_sorted member_cmp (map (λ kv, (kv.1, sorted_members kv.2)) l))
  | j => j
  end.

(** The text in the order written. *)
Fixpoint text (j : Json) : string :=
  match j with
  | JNull => "null"
  | JBool b => if b then "true" else "false"
  | JInt i => pretty i
  | JStr s => quoted s
  | JList l => "[" +:+ join (map text l) +:+ "]"
  | JObj l => "{" +:+ join (map (λ kv, quoted kv.1 +:+ ":" +:+ text kv.2) l) +:+ "}"
  end.

Lemma canonical_text j : _canonical j = text (sorted_members j).
Proof.
  induction j using json_induction; try done; cbn [_canonical sorted_members text].
  - do 3 f_equal. rewrite map_map. by apply map_ext_Forall.
  - do 3 f_equal. set (g := λ kv : string * Json, (kv.1, text kv.2)).
    assert (map (λ kv : string * Json, (kv.1, _canonical kv.2)) l =
            g <$> map (λ kv : string * Json, (kv.1, sorted_members kv.2)) l) as ->.
    { unfold fmap. change (list_fmap ?A ?B) with (@map A B). rewrite map_map.
      apply map_ext_Forall. eapply Forall_impl; [exact H|]. intros kv E. unfold g. cbn. by rewrite E. }
    rewrite (py_sorted_fmap g key_cmp member_cmp) by done.
    change (g <$> ?l) with (map g l). by rewrite map_map.
Qed.

(** * The text is a prefix code *)

Lemma str_app_nil_r s : s +:+ "" = s.
Proof. induction s as [|c s IH]; [done|]. exact (f_equal (String c) IH). Qed.

Definition delimiter (c : ascii) : bool :=
  match c with "," | "]" | "}" => true | _ => false end%char.
(** What may follow a value. *)
Definition delimited (r : string) : Prop :=
  match r with EmptyString => True | String c _ => delimiter c = true end.

(** ** Numbers *)

Definition number_char (c : ascii) : bool :=
  match c with
  | "0" | "1" | "2" | "3" | "4" | "5" | "6" | "7" | "8" | "9" | "-" => true
  | _ => false
  end%char.
Fixpoint all_chars (f : ascii → bool) (s : string) : bool :=
  match s with EmptyString => true | String c s' => f c && all_chars f s' end.

Lemma pretty_N_go_chars n s : all_chars number_char s = true → all_chars number_char (pretty_N_go n s) = true.
Proof.
  revert s. induction (N.lt_wf_0 n) as [n _ IH]; intros s Hs.
  destruct (decide (n = 0%N)) as [->|]; [done|].
  rewrite pretty_N_go_step by lia. apply IH; [apply N.div_lt; lia|]. cbn [all_chars].
  rewrite Hs, andb_true_r. unfold pretty_N_char. by repeat case_match.
Qed.

Lemma pretty_N_go_nonempty n s : s ≠ "" → pretty_N_go n s ≠ "".
Proof.
  revert s. induction (N.lt_wf_0 n) as [n _ IH]; intros s Hs.
  destruct (decide (n = 0%N)) as [->|]; [done|].
  rewrite pretty_N_go_step by lia. apply IH; [apply N.div_lt; lia|done].
Qed.

Lemma pretty_N_chars (n : N) : all_chars number_char (pretty n) = true ∧ pretty n ≠ "".
Proof.
  unfold pretty, pretty_N. case_decide; [done|]. split; [by apply pretty_N_go_chars|].
  rewrite pretty_N_go_step by lia. by apply pretty_N_go_nonempty.
Qed.

Lemma pretty_Z_chars (i : Z) : all_chars number_char (pretty i) = true ∧ pretty i ≠ "".
Proof.
  destruct i as [|n|n]; [done| |].
  - apply (pretty_N_chars (N.pos n)).
  - destruct (pretty_N_chars (N.pos n)) as [H _]. split; [|done]. exact H.
Qed.

(** Text of one class of characters ends where another begins. *)
Lemma span_inj f s s' r r' : all_chars f s = true → all_chars f s' = true →
  (∀ c t, r = String c t → f c = false) → (∀ c t, r' = String c t → f c = false) →
  s +:+ r = s' +:+ r' → s = s' ∧ r = r'.
Proof.
  revert s'. induction s as [|c s IH]; intros [|c' s'] Hs Hs' Hr Hr' E; cbn [all_chars] in *.
  - done.
  - change ("" +:+ r) with r in E. rewrite (Hr c' (s' +:+ r') E) in Hs'. discriminate.
  - change ("" +:+ r') with r' in E. rewrite (Hr' c (s +:+ r) (eq_sym E)) in Hs. discriminate.
  - apply andb_true_iff in Hs as [_ Hs], Hs' as [_ Hs']. injection E as -> E.
    by destruct (IH s' Hs Hs' Hr Hr' E) as [-> ->].
Qed.

Lemma delimited_not_number r c t : delimited r → r = String c t → number_char c = false.
Proof. intros Hd ->. cbn in Hd. destruct c as [[] [] [] [] [] [] [] []]; done. Qed.

Lemma number_inj (i k : Z) r r' : delimited r → delimited r' →
  (pretty i : string) +:+ r = pretty k +:+ r' → i = k ∧ r = r'.
Proof.
  intros Hr Hr' E. apply (span_inj number_char) in E as [E ->];
    [by apply (inj pretty) in E|apply pretty_Z_chars|apply pretty_Z_chars|(intros c t; by apply delimited_not_number)..].
Qed.

(** ** Values *)

(** What the text of a value can begin with. *)
Definition opens (j : Json) (c : ascii) : Prop :=
  match j with
  | JNull => c = "n"%char
  | JBool b => c = (if b then "t" else "f")%char
  | JInt _ => number_char c = true
  | JStr _ => c = ascii_of_N 34
  | JList _ => c = "["%char
  | JObj _ => c = "{"%char
  end.

Lemma text_opens j : ∃ c t, text j = String c t ∧ opens j c.
Proof.
  destruct j as [|[]|i|s|l|l]; cbn [text opens]; try by eexists _, _.
  destruct (pretty_Z_chars i) as [H Hne]. destruct (pretty i : string) as [|c t]; [done|].
  exists c, t. split; [done|]. cbn in H. by apply andb_true_iff in H as [H _].
Qed.

Definition uniquely_read (j : Json) : Prop :=
  ∀ k r r', delimited r → delimited r' → text j +:+ r = text k +:+ r' → j = k ∧ r = r'.

(** A bracketed, comma-separated list of items. *)
Lemma join_inj {A} (f : A → string) (close : ascii) (l l' : list A) r r' :
  Forall (λ x, ∀ y r r', delimited r → delimited r' → f x +:+ r = f y +:+ r' → x = y ∧ r = r') l →
  (∀ x, ∃ c t, f x = String c t ∧ delimiter c = false) → delimiter close = true → close ≠ ","%char →
  join (map f l) +:+ String close r = join (map f l') +:+ String close r' → l = l' ∧ r = r'.
Proof.
  intros Hl Hopen Hclose Hcomma. revert l'.
  assert (∀ x k, ∃ t, join (map f (x :: k)) = f x +:+ t ∧
    ∀ r, delimited (t +:+ String close r) ∧
         (t +:+ String close r = match k with [] => String close r
           | _ => String "," (join (map f k) +:+ String close r) end)) as Hjoin.
  { intros x [|y k]; [exists ""; split; [by rewrite str_app_nil_r|]; done|].
    exists ("," +:+ join (map f (y :: k))). by split. }
  assert (∀ x k t, f x +:+ k = String close t → False) as Hfirst.
  { intros x k t E. destruct (Hopen x) as (c & s & Ef & Hc). rewrite Ef in E. injection E as -> _. congruence. }
  induction Hl as [|x l Hx _ IH]; intros [|y l'] E.
  - by injection E.
  - destruct (Hjoin y l') as (t & Ht & _). rewrite Ht, string_app_assoc in E. by apply eq_sym, Hfirst in E.
  - destruct (Hjoin x l) as (t & Ht & _). rewrite Ht, string_app_assoc in E. by apply Hfirst in E.
  - destruct (Hjoin x l) as (t & Ht & Hd). destruct (Hjoin y l') as (t' & Ht' & Hd').
    rewrite Ht, Ht', !string_app_assoc in E.
    apply Hx in E as [-> E]; [|apply Hd|apply Hd']. rewrite (proj2 (Hd r)), (proj2 (Hd' r')) in E.
    destruct l as [|z l], l' as [|z' l'].
    + by injection E.
    + injection E as E _. congruence.
    + injection E as E _. congruence.
    + injection E as E. by destruct (IH (z' :: l') E) as [-> ->].
Qed.

Lemma same_opening j k r r' : text j +:+ r = text k +:+ r' → ∃ c, opens j c ∧ opens k c.
Proof.
  destruct (text_opens j) as (c & t & Et & Hc), (text_opens k) as (c' & t' & Et' & Hc').
  rewrite Et, Et'. intros E. injection E as -> _. by exists c'.
Qed.

Lemma member_inj (kv kv' : string * Json) r r' : uniquely_read kv.2 → delimited r → delimited r' →
  (quoted kv.1 +:+ ":" +:+ text kv.2) +:+ r = (quoted kv'.1 +:+ ":" +:+ text kv'.2) +:+ r' →
  kv = kv' ∧ r = r'.
Proof.
  destruct kv as [a j], kv' as [b k]. cbn [fst snd]. intros Hj Hr Hr'. rewrite !string_app_assoc.
  intros [-> E]%quoted_inj. assert (text j +:+ r = text k +:+ r') as E' by by injection E.
  by apply Hj in E' as [-> ->].
Qed.

Lemma text_not_delimiter j : ∃ c t, text j = String c t ∧ delimiter c = false.
Proof.
  destruct (text_opens j) as (c & t & -> & Hc). exists c, t. split; [done|].
  destruct j as [|[]|i|s|l|l]; cbn in Hc; subst; try done.
  destruct c as [[] [] [] [] [] [] [] []]; done.
Qed.

Lemma text_uniquely_read j : uniquely_read j.
Proof.
  induction j using json_induction; intros k r r' Hr Hr' E;
    destruct (same_opening _ _ _ _ E) as (c & Hj & Hk);
    destruct k as [|b'|i'|s'|l'|l']; cbn [opens] in Hj, Hk;
    try (exfalso; subst c; repeat match goal with b : bool |- _ => destruct b end; discriminate).
  - by injection E.
  - destruct b, b'; try (subst c; discriminate); by injection E.
  - by apply number_inj in E as [-> ->].
  - by apply quoted_inj in E as [-> ->].
  - cbn [text] in E. rewrite !string_app_assoc in E. 
    assert (join (map text l) +:+ String "]" r = join (map text l') +:+ String "]" r') as E' by by injection E.
    apply join_inj in E' as [-> ->]; [done|exact H|apply text_not_delimiter|done|done].
  - cbn [text] in E. rewrite !string_app_assoc in E.
    match type of E with _ +:+ join ?a +:+ _ +:+ _ = _ +:+ join ?b +:+ _ +:+ _ =>
      assert (join a +:+ String "}" r = join b +:+ String "}" r') as E' by by injection E end.
    apply join_inj in E' as [-> ->]; [done| | |done|done].
    + eapply Forall_impl; [exact H|]. intros kv Hkv kv' s s' Hs Hs'. by apply member_inj.
    + intros kv. eexists _, _. by split.
Qed.

Lemma canonical_same a b : _canonical a = _canonical b ↔ sorted_members a = sorted_members b.
Proof.
  rewrite !canonical_text. split; [|by intros ->]. intros E.
  apply (text_uniquely_read (sorted_members a) (sorted_members b) "" ""); [done..|].
  by rewrite !str_app_nil_r.
Qed.

(** ** Members of equal objects *)

Lemma dict_get_sorted k (l : list (string * Json)) :
  dict_get k (map (λ kv, (kv.1, sorted_members kv.2)) l) = sorted_members <$> dict_get k l.
Proof. induction l as [|[k' v] l IH]; [done|]. cbn. by case_decide. Qed.

Lemma same_members l l' k : NoDup l.*1 → sorted_members (JObj l) = sorted_members (JObj l') →
  sorted_members <$> dict_get k l = sorted_members <$> dict_get k l'.
Proof.
  intros Hn. cbn [sorted_members]. intros [= H].
  rewrite <- !dict_get_sorted. apply dict_get_perm.
  - rewrite <- list_fmap_compose. exact Hn.
  - rewrite <- (py_sorted_perm member_cmp (map _ l)), H. by rewrite py_sorted_perm.
Qed.
