(* ===== verification/Journal.v ===== *)
(** The append-only, hash-chained event table of [ditto/treasury/store.py]:
    [TreasuryStore._event] and [TreasuryStore.verify].

    SHA-256 is a parameter, [Sha256]; no property assumes anything of it. *)
From Stdlib Require Import ZArith Lia Ascii.
From stdpp Require Import base list sets strings pretty.
From S2P Require Import Prelude PyText.

Definition GENESIS : string := String.concat EmptyString (replicate 64 "0"%string).

(** A row of [events]; [body_json] is the canonical text. *)
Record Event := {
  sequence : Z;
  event_plan_key : option string;
  kind : string;
  body_json : string;
  previous_hash : string;
  hash : string;
  recorded_at : string
}.

#[global] Instance Event_eq_dec : EqDecision Event.
Proof. solve_decision. Defined.

Definition _timestamp (now : datetime) : result string :=
  match now with
  | Aware t => Ok (isoformat t)
  | Naive _ => Err (ValueError "timezone required")
  end.

(** The text an event's hash covers. *)
Definition link_text (key : option string) (kind body previous recorded_at : string) : string :=
  _canonical (JList [match key with Some k => JStr k | None => JNull end;
                     JStr kind; JStr body; JStr previous; JStr recorded_at]).

Definition last_hash (events : list Event) : string :=
  match last events with Some e => hash e | None => GENESIS end.
(** The table is append-only, so AUTOINCREMENT continues from the last row. *)
Definition last_sequence (events : list Event) : Z :=
  match last events with Some e => sequence e | None => 0 end.

Section journal.
Context {SH : Sha256}.

Definition _event (events : list Event) (key : option string) (kind : string) (body : Json)
    (now : datetime) : result (list Event) :=
  let previous := last_hash events in
  _timestamp now ≫= λ recorded_at,
  let canonical := _canonical body in
  Ok (events ++ [{|
    sequence := last_sequence events + 1; event_plan_key := key; kind := kind;
    body_json := canonical; previous_hash := previous;
    hash := sha256 (link_text key kind canonical previous recorded_at);
    recorded_at := recorded_at |}]).

Definition expected_hash (previous : string) (row : Event) : string :=
  sha256 (link_text (event_plan_key row) (kind row) (body_json row) previous (recorded_at row)).

Definition row_links (count : Z) (previous : string) (row : Event) : bool :=
  (sequence row =? count + 1) && String.eqb (previous_hash row) previous &&
  String.eqb (hash row) (expected_hash previous row).

Fixpoint verify_from (count : Z) (previous : string) (events : list Event) : result Z :=
  match events with
  | [] => Ok count
  | row :: rest =>
      if row_links count previous row
      then verify_from (count + 1) (expected_hash previous row) rest
      else Err (ValueError "treasury journal breaks")
  end.

Definition verify (events : list Event) : result Z := verify_from 0 GENESIS events.

(** * The chain grows intact *)

Lemma row_links_true count previous row : row_links count previous row = true ↔
  sequence row = count + 1 ∧ previous_hash row = previous ∧ hash row = expected_hash previous row.
Proof.
  unfold row_links. rewrite !andb_true_iff, Z.eqb_eq, !String.eqb_eq. tauto.
Qed.

Lemma verify_from_app count previous l1 l2 :
  verify_from count previous (l1 ++ l2) =
  (verify_from count previous l1 ≫= λ n,
   verify_from n (match last l1 with Some e => hash e | None => previous end) l2).
Proof.
  revert count previous. induction l1 as [|row l1 IH]; intros count previous; [done|].
  cbn [app verify_from]. destruct (row_links count previous row) eqn:E; [|done].
  apply row_links_true in E as (_ & _ & E). rewrite IH, <- E, last_cons.
  by destruct (last l1).
Qed.

Lemma verify_from_count count previous l n :
  verify_from count previous l = Ok n → n = count + Z.of_nat (length l).
Proof.
  revert count previous. induction l as [|row l IH]; intros count previous; cbn [verify_from].
  - intros [= <-]. simpl. lia.
  - destruct (row_links _ _ _); [|discriminate]. intros ->%IH. cbn [length]. lia.
Qed.

Lemma verify_from_sequence count previous l n :
  verify_from count previous l = Ok n →
  match last l with Some e => sequence e | None => count end = n.
Proof.
  revert count previous. induction l as [|row l IH]; intros count previous; cbn [verify_from].
  - by intros [= <-].
  - destruct (row_links _ _ _) eqn:E; [|discriminate]. apply row_links_true in E as (E & _).
    intros H%IH. rewrite last_cons. destruct (last l); congruence.
Qed.

(** An event appended to a journal that verifies keeps it verifying. *)
Lemma event_verifies events n key kind body now events' :
  verify events = Ok n → _event events key kind body now = Ok events' →
  verify events' = Ok (n + 1).
Proof.
  unfold verify, _event. intros Hv (t & _ & [= <-])%bind_Ok.
  rewrite verify_from_app, Hv. cbn [mbind result_bind verify_from].
  pose proof (verify_from_sequence _ _ _ _ Hv) as Hs.
  assert (row_links n (last_hash events) {|
    sequence := last_sequence events + 1; event_plan_key := key; kind := kind;
    body_json := _canonical body; previous_hash := last_hash events;
    hash := sha256 (link_text key kind (_canonical body) (last_hash events) t);
    recorded_at := t |} = true) as Hl.
  { apply row_links_true. split; [|done]. cbn. unfold last_sequence.
    destruct (last events); by rewrite Hs. }
  unfold last_hash in Hl |- *. by rewrite Hl.
Qed.

Lemma event_appends events key k body now events' :
  _event events key k body now = Ok events' →
  ∃ e, events' = events ++ [e] ∧ event_plan_key e = key ∧ kind e = k.
Proof. unfold _event. intros (t & _ & [= <-])%bind_Ok. eauto. Qed.

(** * Tampering *)

(** What a row's hash covers: every column but [sequence] and [hash]. *)
Definition row_text (e : Event) : string :=
  link_text (event_plan_key e) (kind e) (body_json e) (previous_hash e) (recorded_at e).

(** A row of each journal, with different covered texts and the same digest. *)
Definition collision (l1 l2 : list Event) : Prop :=
  ∃ e1 e2, e1 ∈ l1 ∧ e2 ∈ l2 ∧ row_text e1 ≠ row_text e2 ∧
    sha256 (row_text e1) = sha256 (row_text e2).

Definition after_key (k : option string) (rest : string) : string :=
  match k with Some k => quoted k +:+ rest | None => ("null" +:+ rest)%string end.

Lemma after_key_inj k k' r r' : after_key k r = after_key k' r' → k = k' ∧ r = r'.
Proof.
  destruct k as [k|], k' as [k'|]; cbn [after_key].
  - by intros [-> ->]%quoted_inj.
  - discriminate.
  - discriminate.
  - intros E. cbn in E. injection E as E. by split.
Qed.

Lemma link_text_shape k d b p t :
  link_text k d b p t = String "["%char (after_key k (String ","%char (quoted d +:+ String ","%char (quoted b +:+
    String ","%char (quoted p +:+ String ","%char (quoted t +:+ "]"%string)))))).
Proof.
  unfold link_text. cbn [_canonical map join].
  destruct k as [k|]; cbn [_canonical after_key];
    repeat first [rewrite (string_app_assoc (quoted _)) | rewrite (string_app_assoc ",")
      | rewrite (string_app_assoc "null")];
    reflexivity.
Qed.

Lemma string_tail c s s' : String c s = String c s' → s = s'.
Proof. by intros [= ->]. Qed.

Lemma link_text_inj k d b p t k' d' b' p' t' :
  link_text k d b p t = link_text k' d' b' p' t' →
  k = k' ∧ d = d' ∧ b = b' ∧ p = p' ∧ t = t'.
Proof.
  rewrite !link_text_shape. intros E. apply string_tail in E.
  apply after_key_inj in E as [-> E]. apply string_tail in E.
  apply quoted_inj in E as [-> E]. apply string_tail in E.
  apply quoted_inj in E as [-> E]. apply string_tail in E.
  apply quoted_inj in E as [-> E]. apply string_tail in E.
  by apply quoted_inj in E as [-> _].
Qed.

Lemma verify_snoc l e n :
  verify (l ++ [e]) = Ok n ↔
  ∃ m, verify l = Ok m ∧ row_links m (last_hash l) e = true ∧ n = m + 1.
Proof.
  unfold verify. rewrite verify_from_app. fold (last_hash l).
  destruct (verify_from 0 GENESIS l) as [m|x]; cbn [mbind result_bind verify_from].
  - destruct (row_links m (last_hash l) e) eqn:E; split.
    + intros [= <-]. eauto.
    + by intros (m' & [= <-] & _ & ->).
    + discriminate.
    + intros (m' & [= <-] & Hl & _). congruence.
  - split; [discriminate | by intros (? & ? & _)].
Qed.

Lemma row_links_text n l e : row_links n (last_hash l) e = true →
  sequence e = n + 1 ∧ previous_hash e = last_hash l ∧ hash e = sha256 (row_text e).
Proof. intros (H1 & H2 & H3)%row_links_true. unfold row_text. rewrite H2. auto. Qed.

Lemma collision_app l1 l2 e1 e2 : collision l1 l2 → collision (l1 ++ [e1]) (l2 ++ [e2]).
Proof. intros (a & b & Ha & Hb & H). exists a, b. rewrite !elem_of_app. auto. Qed.

(** C11: tamper evidence. Two journals that both verify and end in the same
    digest are the same table, row by row, unless they exhibit two different
    hashed texts with one digest, or a row whose digest is the genesis value:
    no row can be changed, dropped or reordered under an unchanged head hash. *)
Theorem journal_tamper_evident l1 l2 n1 n2 :
  verify l1 = Ok n1 → verify l2 = Ok n2 → last_hash l1 = last_hash l2 →
  l1 = l2 ∨ collision l1 l2 ∨ ∃ e, e ∈ l1 ++ l2 ∧ hash e = GENESIS.
Proof.
  revert l2 n1 n2. induction l1 as [|e1 l1 IH] using rev_ind; intros l2 n1 n2.
  - destruct l2 as [|e2 l2 _] using rev_ind; [by left|]. unfold last_hash. rewrite last_snoc.
    intros _ _ E. right. right. exists e2. split; [set_solver | by rewrite <- E].
  - destruct l2 as [|e2 l2 _] using rev_ind; unfold last_hash at 1 2; rewrite ?last_snoc.
    { intros _ _ E. right. right. exists e1. split; [set_solver | done]. }
    intros (m1 & Hv1 & Hl1 & ->)%verify_snoc (m2 & Hv2 & Hl2 & ->)%verify_snoc Hh.
    apply row_links_text in Hl1 as (S1 & P1 & T1). apply row_links_text in Hl2 as (S2 & P2 & T2).
    destruct (decide (row_text e1 = row_text e2)) as [Ht|Ht].
    2: { right. left. exists e1, e2. rewrite <- T1, <- T2. set_solver. }
    apply link_text_inj in Ht as (K & D & B & P & R).
    destruct (IH l2 m1 m2 Hv1 Hv2) as [->|[Hc|(e & He & Hg)]]; [congruence | | |].
    + left. rewrite Hv1 in Hv2. injection Hv2 as ->. do 2 f_equal.
      destruct e1, e2. cbn in *. subst. by f_equal.
    + right. left. by apply collision_app.
    + right. right. exists e. split; [set_solver | done].
Qed.
End journal.

(** A toy digest makes the chain concrete. *)
Definition sample_sha256 : Sha256 := λ t, pretty (length (String.list_ascii_of_string t)).
Definition sample_journal : list Event :=
  match _event (SH := sample_sha256) [] None "unpause" (JObj [("operator", JStr "ops")])%string (Aware 0) with
  | Ok l => l | Err _ => [] end.

Lemma journal_tamper_evident_witness :
  sample_journal ≠ [] ∧
  (sample_journal = sample_journal ∨ collision (SH := sample_sha256) sample_journal sample_journal ∨
   ∃ e, e ∈ sample_journal ++ sample_journal ∧ hash e = GENESIS).
Proof.
  split; [discriminate|].
  apply (journal_tamper_evident (SH := sample_sha256) sample_journal sample_journal 1 1); reflexivity.
Defined.
