(* ===== verification/TreasuryStore.v ===== *)
(** The treasury journal of [ditto/treasury/store.py] and the checks of
    [ditto/treasury/preflight.py].

    A [TreasuryDb] is the SQLite file: the control row and the three tables.
    Each operation of [TreasuryStore] is a function from the tables to the new
    tables or the exception; [_db] rolls back on every exception, so an
    operation that fails leaves the state as it was ([exec]).  A TEXT column
    that holds a timestamp is kept as its instant and [plan_json] as the plan
    it encodes.  INTEGER columns and SUM keep SQLite's 64-bit range. *)
From Stdlib Require Import ZArith Lia.
From stdpp Require Import base list strings.
From S2P Require Import Prelude PyText Journal.

#[local] Open Scope string_scope.
#[local] Open Scope Z_scope.

(** How the host reads a [datetime] without a timezone ([astimezone]). *)
Class LocalZone := local_instant : Z → Z.

Definition MAX_SOURCE_ALPHA_RAO : Z := 10000000000.

(** [LEGS], indexed by route. *)
Definition LEGS (route : string) : option (list string) :=
  if String.eqb route "tao" then Some ["unstake"; "deposit_tao"]
  else if String.eqb route "gm_alpha" then Some ["unstake"; "stake_gm"; "deposit_gm"]
  else None.

Record TopUpIntent := {
  route : string;
  policy_revision : Z;
  quote_block_hash : string;
  quoted_at : datetime;
  source_alpha_rao : Z;
  tao_value_rao : Z;
  price_impact_bps : Z;
  linked_wallet : string;
  payment_instructions_sha256 : string;
  idempotency_key : string
}.

Record TopUpBounds := {
  max_source_alpha_rao : Z;
  max_single_topup_rao : Z;
  max_daily_outflow_rao : Z;
  bounds_max_slippage_bps : Z;
  daily_spent_rao : Z;
  expected_linked_wallet : string;
  expected_payment_instructions_sha256 : string;
  reconciled : bool
}.

Record PaymentPlan := {
  intent : TopUpIntent;
  destination_coldkey : string;
  treasury_hotkey : string;
  gm_hotkey : string;
  gm_account_ref : string;
  operator : string;
  instructions_observed_at : datetime;
  gm_balance_before_nano_usd : Z;
  min_tao_proceeds_rao : Z;
  min_gm_alpha_rao : Z;
  max_slippage_bps : Z
}.

(** The values of [plans.state]. *)
Inductive PlanState :=
  | planned | approved | dispatching | awaiting_review | awaiting_gm
  | reconciled_state | cancelled.

#[global] Instance PlanState_eq_dec : EqDecision PlanState.
Proof. solve_decision. Defined.

Record PlanRow := {
  row_key : string;
  day : string;
  row_route : string;
  row_policy_revision : Z;
  row_source_alpha_rao : Z;
  reserved_tao_rao : Z;
  plan_json : PaymentPlan;
  plan_hash : string;
  state : PlanState;
  leg_index : nat;
  amount_for_next_leg_rao : option Z;
  instructions_checked_at : Z;
  quote_checked_at : Z;
  created_at : Z
}.

Record Allocation := {
  epoch : Z;
  alloc_policy_revision : Z;
  source_block_hash : string;
  gm_alpha_rao : Z;
  maintenance_alpha_rao : Z;
  alloc_operator : string;
  alloc_reviewer : string
}.

Record TreasuryDb := {
  paused : bool;
  reason : string;
  plans : list PlanRow;
  allocations : list Allocation;
  events : list Event
}.

(** The file [_connect] creates. *)
Definition initial_db : TreasuryDb := {|
  paused := true; reason := "initial fail-closed pause";
  plans := []; allocations := []; events := [] |}.

Definition empty (s : string) : bool := String.eqb s "".
Definition is_zoned (t : datetime) : bool := match t with Aware _ => true | Naive _ => false end.
(** [timedelta(0) <= age <= limit] *)
Definition fresh (age limit : Z) : bool := (0 <=? age) && (age <=? limit).

Definition find_plan (key : string) (db : TreasuryDb) : option PlanRow :=
  find (λ r, String.eqb (row_key r) key) (plans db).

(** [UPDATE plans SET ... WHERE idempotency_key=?] *)
Definition update_plan (key : string) (f : PlanRow → PlanRow) (db : TreasuryDb) : TreasuryDb := {|
  paused := paused db; reason := reason db;
  plans := map (λ r, if String.eqb (row_key r) key then f r else r) (plans db);
  allocations := allocations db; events := events db |}.

Definition set_state (s : PlanState) (r : PlanRow) : PlanRow := {|
  row_key := row_key r; day := day r; row_route := row_route r;
  row_policy_revision := row_policy_revision r; row_source_alpha_rao := row_source_alpha_rao r;
  reserved_tao_rao := reserved_tao_rao r; plan_json := plan_json r; plan_hash := plan_hash r;
  state := s; leg_index := leg_index r; amount_for_next_leg_rao := amount_for_next_leg_rao r;
  instructions_checked_at := instructions_checked_at r; quote_checked_at := quote_checked_at r;
  created_at := created_at r |}.
Definition set_checks (instructions quote : Z) (r : PlanRow) : PlanRow := {|
  row_key := row_key r; day := day r; row_route := row_route r;
  row_policy_revision := row_policy_revision r; row_source_alpha_rao := row_source_alpha_rao r;
  reserved_tao_rao := reserved_tao_rao r; plan_json := plan_json r; plan_hash := plan_hash r;
  state := state r; leg_index := leg_index r; amount_for_next_leg_rao := amount_for_next_leg_rao r;
  instructions_checked_at := instructions; quote_checked_at := quote;
  created_at := created_at r |}.
Definition next_leg (amount : option Z) (r : PlanRow) : PlanRow := {|
  row_key := row_key r; day := day r; row_route := row_route r;
  row_policy_revision := row_policy_revision r; row_source_alpha_rao := row_source_alpha_rao r;
  reserved_tao_rao := reserved_tao_rao r; plan_json := plan_json r; plan_hash := plan_hash r;
  state := state r; leg_index := S (leg_index r); amount_for_next_leg_rao := amount;
  instructions_checked_at := instructions_checked_at r; quote_checked_at := quote_checked_at r;
  created_at := created_at r |}.

(** [LEGS[row["route"]][row["leg_index"]]] *)
Definition leg_of (r : PlanRow) : result string :=
  match LEGS (row_route r) with
  | None => Err (KeyError (row_route r))
  | Some legs =>
      match legs !! leg_index r with
      | Some leg => Ok leg
      | None => Err (IndexError "tuple index out of range")
      end
  end.

(** [state NOT IN ('reconciled','cancelled')] *)
Definition unresolved (r : PlanRow) : bool :=
  negb (bool_decide (state r ∈ [reconciled_state; cancelled])).
Definition live (r : PlanRow) : bool := negb (bool_decide (state r = cancelled)).

Section store.
Context {SH : Sha256} {LZ : LocalZone}.

(** [value.astimezone(UTC)] *)
Definition to_utc (t : datetime) : Z :=
  match t with Aware i => i | Naive w => local_instant w end.

(** * [preflight] *)

Definition preflight (intent : TopUpIntent) (bounds : TopUpBounds) (now : datetime)
    : result unit :=
  require (bool_decide (route intent ∈ ["tao"; "gm_alpha"]))
    (ValueError "unsupported GM deposit asset");;
  require (negb ((policy_revision intent <=? 0) || empty (idempotency_key intent)))
    (ValueError "revision and idempotency key are required");;
  require (hash_text (quote_block_hash intent))
    (ValueError "finalized quote block hash is required");;
  require (is_zoned (quoted_at intent) && is_zoned now)
    (ValueError "quote times must carry a timezone");;
  require (fresh (to_utc now - to_utc (quoted_at intent)) (seconds 120))
    (ValueError "quote is stale or from the future");;
  require (reconciled bounds) (ValueError "treasury or GM balance has not reconciled");;
  require ((0 <? source_alpha_rao intent) &&
           (source_alpha_rao intent <=? max_source_alpha_rao bounds))
    (ValueError "source amount exceeds limit");;
  require ((0 <? tao_value_rao intent) && (tao_value_rao intent <=? max_single_topup_rao bounds))
    (ValueError "single top-up exceeds limit");;
  require (daily_spent_rao bounds + tao_value_rao intent <=? max_daily_outflow_rao bounds)
    (ValueError "daily outflow exceeds limit");;
  require ((0 <=? price_impact_bps intent) &&
           (price_impact_bps intent <=? bounds_max_slippage_bps bounds) &&
           (bounds_max_slippage_bps bounds <=? 500))
    (ValueError "price impact exceeds limit");;
  require (negb (empty (linked_wallet intent)) &&
           String.eqb (linked_wallet intent) (expected_linked_wallet bounds))
    (ValueError "sender is not the reviewed GM-linked wallet");;
  require (digest_text (payment_instructions_sha256 intent) &&
           String.eqb (payment_instructions_sha256 intent)
                      (expected_payment_instructions_sha256 bounds))
    (ValueError "GM payment instructions are not current").

(** [replace(bounds, daily_spent_rao=spent)] *)
Definition with_spent (b : TopUpBounds) (spent : Z) : TopUpBounds := {|
  max_source_alpha_rao := max_source_alpha_rao b; max_single_topup_rao := max_single_topup_rao b;
  max_daily_outflow_rao := max_daily_outflow_rao b;
  bounds_max_slippage_bps := bounds_max_slippage_bps b; daily_spent_rao := spent;
  expected_linked_wallet := expected_linked_wallet b;
  expected_payment_instructions_sha256 := expected_payment_instructions_sha256 b;
  reconciled := reconciled b |}.

(** * The operations *)

(** [self._event(db, ...)] at the end of a transaction. *)
Definition log (db : TreasuryDb) (key : option string) (kind : string) (body : Json)
    (now : datetime) : result TreasuryDb :=
  _event (events db) key kind body now ≫= λ events',
  Ok {| paused := paused db; reason := reason db; plans := plans db;
        allocations := allocations db; events := events' |}.

Definition record_allocation (db : TreasuryDb) (a : Allocation) (now : datetime)
    : result TreasuryDb :=
  require (negb ((epoch a <? 0) || (alloc_policy_revision a <=? 0)))
    (ValueError "finalized epoch and policy revision are required");;
  require (hash_text (source_block_hash a))
    (ValueError "finalized source block hash is required");;
  require (negb ((gm_alpha_rao a <? 0) || (maintenance_alpha_rao a <? 0) ||
                 ((gm_alpha_rao a =? 0) && (maintenance_alpha_rao a =? 0))))
    (ValueError "nonnegative distinct allocations are required");;
  require (negb (empty (alloc_operator a) || empty (alloc_reviewer a) ||
                 String.eqb (alloc_reviewer a) (alloc_operator a)))
    (ValueError "independent allocation reviewer is required");;
  sql_int (epoch a);; sql_int (alloc_policy_revision a);;
  sql_int (gm_alpha_rao a);; sql_int (maintenance_alpha_rao a);;
  require (negb (existsb (λ b, epoch b =? epoch a) (allocations db)))
    (IntegrityError "UNIQUE constraint failed: allocations.epoch");;
  log {| paused := paused db; reason := reason db; plans := plans db;
         allocations := allocations db ++ [a]; events := events db |}
    None "allocation"
    (JObj [("epoch", JInt (epoch a)); ("policy_revision", JInt (alloc_policy_revision a));
           ("source_block_hash", JStr (source_block_hash a));
           ("gm_alpha_rao", JInt (gm_alpha_rao a));
           ("maintenance_alpha_rao", JInt (maintenance_alpha_rao a));
           ("operator", JStr (alloc_operator a)); ("reviewer", JStr (alloc_reviewer a))]) now.

Definition set_pause (db : TreasuryDb) (pause : bool) (operator why : string) (now : datetime)
    (reviewer : option string) : result TreasuryDb :=
  require (negb (empty operator || (stripped_length why <? 12)))
    (ValueError "operator and a specific reason are required");;
  (if pause then Ok tt else
   require (match reviewer with
            | Some r => negb (empty r || String.eqb r operator) | None => false end)
     (ValueError "independent reviewer is required to unpause");;
   verify (events db);;
   require (negb (existsb (λ r, bool_decide (state r ∈ [dispatching; awaiting_gm])) (plans db)))
     (ValueError "unresolved plans block unpause"));;
  log {| paused := pause; reason := why; plans := plans db;
         allocations := allocations db; events := events db |}
    None (if pause then "pause" else "unpause")
    (JObj [("operator", JStr operator); ("reviewer", jstr reviewer); ("reason", JStr why)]) now.

(** The JSON of [asdict(plan)], with both times as UTC text. *)
Definition plan_body (p : PaymentPlan) (quoted observed : string) : Json :=
  let i := intent p in
  JObj [("intent", JObj [("route", JStr (route i)); ("policy_revision", JInt (policy_revision i));
          ("quote_block_hash", JStr (quote_block_hash i)); ("quoted_at", JStr quoted);
          ("source_alpha_rao", JInt (source_alpha_rao i)); ("tao_value_rao", JInt (tao_value_rao i));
          ("price_impact_bps", JInt (price_impact_bps i)); ("linked_wallet", JStr (linked_wallet i));
          ("payment_instructions_sha256", JStr (payment_instructions_sha256 i));
          ("idempotency_key", JStr (idempotency_key i))]);
        ("destination_coldkey", JStr (destination_coldkey p));
        ("treasury_hotkey", JStr (treasury_hotkey p)); ("gm_hotkey", JStr (gm_hotkey p));
        ("gm_account_ref", JStr (gm_account_ref p)); ("operator", JStr (operator p));
        ("instructions_observed_at", JStr observed);
        ("gm_balance_before_nano_usd", JInt (gm_balance_before_nano_usd p));
        ("min_tao_proceeds_rao", JInt (min_tao_proceeds_rao p));
        ("min_gm_alpha_rao", JInt (min_gm_alpha_rao p));
        ("max_slippage_bps", JInt (max_slippage_bps p))].

(** The checks [create_plan] makes before it opens the database. *)
Definition check_plan (plan : PaymentPlan) (bounds : TopUpBounds) (now : datetime) : result unit :=
  let i := intent plan in
  require (negb (empty (operator plan) || empty (destination_coldkey plan) ||
                 empty (treasury_hotkey plan) || empty (gm_account_ref plan)))
    (ValueError "operator and reviewed chain identities are required");;
  require (negb (String.eqb (route i) "gm_alpha" && empty (gm_hotkey plan)))
    (ValueError "GM alpha route needs the exact linked hotkey");;
  require (negb ((MAX_SOURCE_ALPHA_RAO <? source_alpha_rao i) ||
                 (MAX_SOURCE_ALPHA_RAO <? max_source_alpha_rao bounds)))
    (ValueError "source alpha exceeds the 10 DITTO prototype ceiling");;
  require (negb (gm_balance_before_nano_usd plan <? 0))
    (ValueError "GM credit balance must be nonnegative");;
  require ((0 <? min_tao_proceeds_rao plan) && (min_tao_proceeds_rao plan <=? tao_value_rao i))
    (ValueError "minimum TAO proceeds must fit the reserved quote");;
  require (negb (String.eqb (route i) "gm_alpha" && (min_gm_alpha_rao plan <=? 0)))
    (ValueError "minimum GM alpha output is required");;
  require ((0 <=? max_slippage_bps plan) &&
           (max_slippage_bps plan <=? bounds_max_slippage_bps bounds))
    (ValueError "signer price tolerance exceeds policy");;
  require (is_zoned (instructions_observed_at plan) && is_zoned now)
    (ValueError "instruction and current times need a timezone");;
  require (fresh (to_utc now - to_utc (instructions_observed_at plan)) (minutes 30))
    (ValueError "GM payment instructions are stale");;
  require ((8 <=? String.length (idempotency_key i))%nat &&
           (String.length (idempotency_key i) <=? 96)%nat &&
           str_forall key_char (idempotency_key i))
    (ValueError "invalid idempotency key").

Definition hash_plan (plan : PaymentPlan) : result string :=
  _timestamp (quoted_at (intent plan)) ≫= λ quoted,
  _timestamp (instructions_observed_at plan) ≫= λ observed,
  Ok (sha256 (_canonical (plan_body plan quoted observed))).

(** The row [create_plan] inserts. *)
Definition new_row (plan : PaymentPlan) (hash : string) (now : Z) : PlanRow :=
  let i := intent plan in {|
  row_key := idempotency_key i; day := date_isoformat now; row_route := route i;
  row_policy_revision := policy_revision i; row_source_alpha_rao := source_alpha_rao i;
  reserved_tao_rao := tao_value_rao i; plan_json := plan; plan_hash := hash;
  state := planned; leg_index := 0; amount_for_next_leg_rao := None;
  instructions_checked_at := to_utc (instructions_observed_at plan);
  quote_checked_at := to_utc (quoted_at i); created_at := now |}.

Definition daily_reserved (db : TreasuryDb) (on : string) : list Z :=
  reserved_tao_rao <$> filter (λ r, day r = on ∧ live r = true) (plans db).
Definition allocated_up_to (db : TreasuryDb) (revision : Z) : list Z :=
  gm_alpha_rao <$> filter (λ a, alloc_policy_revision a <= revision) (allocations db).
Definition reserved_source (db : TreasuryDb) : list Z :=
  row_source_alpha_rao <$> filter (λ r, live r = true) (plans db).

(** The transaction of [create_plan] for a key the table does not hold. *)
Definition insert_plan (db : TreasuryDb) (plan : PaymentPlan) (bounds : TopUpBounds)
    (hash : string) (now : datetime) : result TreasuryDb :=
  let i := intent plan in
  require (negb (existsb unresolved (plans db)))
    (ValueError "another treasury payment is unresolved");;
  sql_sum (daily_reserved db (date_isoformat (to_utc now))) ≫= λ spent,
  preflight i (with_spent bounds spent) now;;
  sql_int (policy_revision i);;
  sql_sum (allocated_up_to db (policy_revision i)) ≫= λ allocated,
  sql_sum (reserved_source db) ≫= λ reserved,
  require (source_alpha_rao i <=? allocated - reserved)
    (ValueError "GM budget lacks finalized allocated alpha");;
  sql_int (source_alpha_rao i);; sql_int (tao_value_rao i);;
  log {| paused := paused db; reason := reason db;
         plans := plans db ++ [new_row plan hash (to_utc now)];
         allocations := allocations db; events := events db |}
    (Some (idempotency_key i)) "planned"
    (JObj [("plan_hash", JStr hash); ("operator", JStr (operator plan))]) now.

Definition create_plan (db : TreasuryDb) (plan : PaymentPlan) (bounds : TopUpBounds)
    (now : datetime) : result (TreasuryDb * string) :=
  check_plan plan bounds now;;
  hash_plan plan ≫= λ hash,
  require (negb (paused db)) (ValueError "treasury execution is paused");;
  match find_plan (idempotency_key (intent plan)) db with
  | Some existing =>
      require (String.eqb (plan_hash existing) hash)
        (ValueError "idempotency key reused with a different plan");;
      Ok (db, hash)
  | None => insert_plan db plan bounds hash now ≫= λ db', Ok (db', hash)
  end.

(** [row is None or row["state"] != s or ...], for the three exact-plan reads. *)
Definition in_state (s : PlanState) (row : PlanRow) : bool := bool_decide (state row = s).
Definition select_plan (db : TreasuryDb) (key : string) (ok : PlanRow → bool) (msg : string)
    : result PlanRow :=
  match find_plan key db with
  | Some row => require (ok row) (ValueError msg);; Ok row
  | None => Err (ValueError msg)
  end.

Definition approve (db : TreasuryDb) (key reviewer expected_plan_hash : string) (now : datetime)
    : result TreasuryDb :=
  select_plan db key (λ row, in_state planned row &&
                       String.eqb (plan_hash row) expected_plan_hash)
    "exact pending plan hash is required" ≫= λ row,
  let plan := plan_json row in
  require (negb (empty reviewer || String.eqb reviewer (operator plan)))
    (ValueError "independent reviewer is required");;
  require (fresh (to_utc now - to_utc (instructions_observed_at plan)) (minutes 30))
    (ValueError "GM payment instructions expired");;
  log (update_plan key (set_state approved) db) (Some key) "approved"
    (JObj [("reviewer", JStr reviewer); ("plan_hash", JStr expected_plan_hash)]) now.

Definition approve_next_leg (db : TreasuryDb) (key reviewer expected_plan_hash
    instructions_sha256 quote_block_hash : string) (quote_observed_at now : datetime)
    : result TreasuryDb :=
  require (hash_text quote_block_hash) (ValueError "fresh finalized quote hash is required");;
  require (is_zoned quote_observed_at && is_zoned now)
    (ValueError "quote time requires a timezone");;
  require (fresh (to_utc now - to_utc quote_observed_at) (seconds 120))
    (ValueError "next-leg quote is stale");;
  select_plan db key (λ row, in_state awaiting_review row &&
                       String.eqb (plan_hash row) expected_plan_hash)
    "exact next-leg plan is required" ≫= λ row,
  let plan := plan_json row in
  require (negb (empty reviewer || String.eqb reviewer (operator plan)))
    (ValueError "independent reviewer is required");;
  require (String.eqb instructions_sha256 (payment_instructions_sha256 (intent plan)))
    (ValueError "GM payment instructions changed");;
  leg_of row ≫= λ leg,
  log (update_plan key (λ r, set_checks (to_utc now) (to_utc quote_observed_at)
                               (set_state approved r)) db)
    (Some key) "next_leg_approved"
    (JObj [("reviewer", JStr reviewer); ("leg", JStr leg);
           ("quote_block_hash", JStr quote_block_hash);
           ("instructions_sha256", JStr instructions_sha256)]) now.

(** The amount the current leg moves. *)
Definition leg_amount (row : PlanRow) : option Z :=
  if (leg_index row =? 0)%nat then Some (row_source_alpha_rao row)
  else amount_for_next_leg_rao row.

Definition claim_leg (db : TreasuryDb) (key : string) (now : datetime)
    : result (TreasuryDb * (string * Z * PaymentPlan)) :=
  require (negb (paused db)) (ValueError "treasury execution is paused");;
  select_plan db key (in_state approved)
    "leg is not approved or prior dispatch is unresolved" ≫= λ row,
  leg_of row ≫= λ leg,
  require (fresh (to_utc now - instructions_checked_at row) (minutes 30))
    (ValueError "GM payment instructions expired");;
  require (fresh (to_utc now - quote_checked_at row) (seconds 120))
    (ValueError "approved leg quote expired");;
  match leg_amount row with
  | Some amount =>
      require (negb (amount <=? 0)) (ValueError "next leg amount has not reconciled");;
      log (update_plan key (set_state dispatching) db) (Some key) "dispatch_started"
        (JObj [("leg", JStr leg); ("amount_rao", JInt amount)]) now ≫= λ db',
      Ok (db', (leg, amount, plan_json row))
  | None => Err (ValueError "next leg amount has not reconciled")
  end.

Definition finalize_leg (db : TreasuryDb) (key leg extrinsic_hash block_hash : string)
    (next_amount_rao : option Z) (now : datetime) : result TreasuryDb :=
  require (hash_text extrinsic_hash && hash_text block_hash)
    (ValueError "finalized extrinsic and block hashes are required");;
  select_plan db key (in_state dispatching) "no matching in-flight leg" ≫= λ row,
  leg_of row ≫= λ current,
  require (String.eqb current leg) (ValueError "no matching in-flight leg");;
  let final := bool_decide (Some (S (leg_index row)) = length <$> LEGS (row_route row)) in
  require (final || match next_amount_rao with Some n => 0 <? n | None => false end)
    (ValueError "reconciled next-leg amount is required");;
  require (negb (final && bool_decide (is_Some next_amount_rao)))
    (ValueError "deposit leg cannot produce another payment");;
  require (negb (String.eqb leg "unstake" &&
             match next_amount_rao with Some n => reserved_tao_rao row <? n | None => false end))
    (ValueError "unstake proceeds exceed reserved top-up");;
  sql_int (default 0 next_amount_rao);;
  log (update_plan key (λ r, next_leg next_amount_rao
                  (set_state (if final then awaiting_gm else awaiting_review) r)) db)
    (Some key) "leg_finalized"
    (JObj [("leg", JStr leg); ("extrinsic_hash", JStr extrinsic_hash);
           ("block_hash", JStr block_hash); ("next_amount_rao", jopt next_amount_rao)]) now.

Definition reconcile_gm (db : TreasuryDb) (key : string)
    (before_nano_usd after_nano_usd deposit_nano_usd intervening_usage_nano_usd : Z)
    (deposit_reference reviewer : string) (now : datetime) : result TreasuryDb :=
  require (negb (empty deposit_reference || empty reviewer || (deposit_nano_usd <=? 0) ||
                 (intervening_usage_nano_usd <? 0) || (after_nano_usd <? 0) ||
                 negb (after_nano_usd =?
                       before_nano_usd + deposit_nano_usd - intervening_usage_nano_usd)))
    (ValueError "GM deposit, usage, and final balance must reconcile");;
  select_plan db key (in_state awaiting_gm) "finalized deposit is required" ≫= λ row,
  let plan := plan_json row in
  require (negb (negb (before_nano_usd =? gm_balance_before_nano_usd plan) ||
                 String.eqb reviewer (operator plan)))
    (ValueError "independent matching credit observation is required");;
  log (update_plan key (set_state reconciled_state) db) (Some key) "gm_reconciled"
    (JObj [("before_nano_usd", JInt before_nano_usd); ("after_nano_usd", JInt after_nano_usd);
           ("deposit_nano_usd", JInt deposit_nano_usd);
           ("intervening_usage_nano_usd", JInt intervening_usage_nano_usd);
           ("deposit_reference", JStr deposit_reference); ("reviewer", JStr reviewer)]) now.

Definition cancel (db : TreasuryDb) (key operator why : string) (now : datetime)
    : result TreasuryDb :=
  require (negb (empty operator || (stripped_length why <? 12)))
    (ValueError "operator and specific reason are required");;
  select_plan db key (in_state planned) "only an undispatched, unapproved plan may be cancelled";;
  log (update_plan key (set_state cancelled) db) (Some key) "cancelled"
    (JObj [("operator", JStr operator); ("reason", JStr why)]) now.

(** * The readers *)

(** [status], newest plan first. *)
Definition newest_first : PlanRow → PlanRow → comparison :=
  cmp_desc (cmp_by Z.compare created_at).
Definition status (db : TreasuryDb) : result (bool * string * list PlanRow) :=
  verify (events db);;
  Ok (paused db, reason db, py_sorted newest_first (plans db)).

Definition plan (db : TreasuryDb) (key : string) : result PaymentPlan :=
  verify (events db);;
  match find_plan key db with
  | Some row => Ok (plan_json row)
  | None => Err (ValueError "unknown treasury plan")
  end.

(** * Sequences of operations *)

Inductive Op :=
  | RecordAllocation (a : Allocation) (now : datetime)
  | SetPause (pause : bool) (operator why : string) (now : datetime) (reviewer : option string)
  | CreatePlan (p : PaymentPlan) (bounds : TopUpBounds) (now : datetime)
  | Approve (key reviewer expected_plan_hash : string) (now : datetime)
  | ApproveNextLeg (key reviewer expected_plan_hash instructions quote_hash : string)
      (quote_observed_at now : datetime)
  | ClaimLeg (key : string) (now : datetime)
  | FinalizeLeg (key leg extrinsic_hash block_hash : string) (next_amount : option Z)
      (now : datetime)
  | ReconcileGm (key : string) (before after deposit usage : Z) (reference reviewer : string)
      (now : datetime)
  | Cancel (key operator why : string) (now : datetime).

Definition run (db : TreasuryDb) (op : Op) : result TreasuryDb :=
  match op with
  | RecordAllocation a now => record_allocation db a now
  | SetPause pause operator why now reviewer => set_pause db pause operator why now reviewer
  | CreatePlan p bounds now => create_plan db p bounds now ≫= λ r, Ok r.1
  | Approve key reviewer hash now => approve db key reviewer hash now
  | ApproveNextLeg key reviewer hash instructions quote_hash quote now =>
      approve_next_leg db key reviewer hash instructions quote_hash quote now
  | ClaimLeg key now => claim_leg db key now ≫= λ r, Ok r.1
  | FinalizeLeg key leg extrinsic block next now =>
      finalize_leg db key leg extrinsic block next now
  | ReconcileGm key before after deposit usage reference reviewer now =>
      reconcile_gm db key before after deposit usage reference reviewer now
  | Cancel key operator why now => cancel db key operator why now
  end.

(** [_db]: commit, or roll back on any exception. *)
Definition exec (db : TreasuryDb) (op : Op) : TreasuryDb :=
  match run db op with Ok db' => db' | Err _ => db end.

(** One caller after another. *)
Definition run_all (db : TreasuryDb) (ops : list Op) : TreasuryDb := foldl exec db ops.

Inductive reachable : TreasuryDb → Prop :=
  | reachable_initial : reachable initial_db
  | reachable_step db op db' : reachable db → run db op = Ok db' → reachable db'.
End store.
