(* ===== verification/TreasurySafety.v ===== *)
(** What the treasury journal guarantees: the lifecycle of a plan, the
    invariant of the tables and its consequences, for every sequence of
    operations on the file [_connect] creates.

    [db_step] is the lifecycle as a step relation; [run_step] shows that every
    successful operation is one of its steps (or a repeated [create_plan]), and
    the invariant is proved once, by cases on the steps. *)
From Stdlib Require Import ZArith Lia.
From stdpp Require Import base list strings sets sorting.
From S2P Require Import Prelude PyText Journal TreasuryStore.

#[local] Open Scope string_scope.
#[local] Open Scope list_scope.
#[local] Open Scope Z_scope.

Definition legs_count (r : PlanRow) : nat := length (default [] (LEGS (row_route r))).

(** * The lifecycle *)

Section lifecycle.
Context {SH : Sha256} {LZ : LocalZone}.

(** One step of a plan at an instant: the row before, the journal kind, the row
    after. *)
Inductive plan_step (is_paused : bool) (now : Z) : PlanRow → string → PlanRow → Prop :=
  | step_approve r reviewer :
      state r = planned → reviewer ≠ "" → reviewer ≠ operator (plan_json r) →
      plan_step is_paused now r "approved" (set_state approved r)
  | step_next r reviewer quote :
      state r = awaiting_review → reviewer ≠ "" → reviewer ≠ operator (plan_json r) →
      0 <= now - quote <= seconds 120 →
      plan_step is_paused now r "next_leg_approved"
        (set_checks now quote (set_state approved r))
  | step_claim r leg amount :
      is_paused = false → state r = approved → leg_of r = Ok leg →
      leg_amount r = Some amount → 0 < amount →
      0 <= now - instructions_checked_at r <= minutes 30 →
      0 <= now - quote_checked_at r <= seconds 120 →
      plan_step is_paused now r "dispatch_started" (set_state dispatching r)
  | step_finalize r leg n :
      state r = dispatching → leg_of r = Ok leg →
      S (leg_index r) ≠ legs_count r → 0 < n →
      (leg = "unstake" → n <= reserved_tao_rao r) →
      plan_step is_paused now r "leg_finalized" (next_leg (Some n) (set_state awaiting_review r))
  | step_finalize_last r leg :
      state r = dispatching → leg_of r = Ok leg → S (leg_index r) = legs_count r →
      plan_step is_paused now r "leg_finalized" (next_leg None (set_state awaiting_gm r))
  | step_reconcile r reviewer :
      state r = awaiting_gm → reviewer ≠ operator (plan_json r) →
      plan_step is_paused now r "gm_reconciled" (set_state reconciled_state r)
  | step_cancel r :
      state r = planned → plan_step is_paused now r "cancelled" (set_state cancelled r).

(** [insert_plan]'s guards. *)
Record may_insert (db : TreasuryDb) (plan : PaymentPlan) (bounds : TopUpBounds) (hash : string)
    (now : Z) : Prop := {
  ins_running : paused db = false;
  ins_fresh_key : find_plan (idempotency_key (intent plan)) db = None;
  ins_hash : hash_plan plan = Ok hash;
  ins_none_open : existsb unresolved (plans db) = false;
  ins_route : route (intent plan) = "tao" ∨ route (intent plan) = "gm_alpha";
  ins_source : 0 < source_alpha_rao (intent plan) <= MAX_SOURCE_ALPHA_RAO;
  ins_bounds_source : source_alpha_rao (intent plan) <= max_source_alpha_rao bounds;
  ins_value : 0 < tao_value_rao (intent plan) <= max_single_topup_rao bounds;
  ins_daily : sum_Z (daily_reserved db (date_isoformat now)) + tao_value_rao (intent plan)
                <= max_daily_outflow_rao bounds;
  ins_budget : source_alpha_rao (intent plan) <=
    sum_Z (allocated_up_to db (policy_revision (intent plan))) - sum_Z (reserved_source db);
  ins_quote : 0 <= now - to_utc (quoted_at (intent plan)) <= seconds 120;
  ins_reconciled : reconciled bounds = true
}.

Definition alloc_ok (a : Allocation) : Prop :=
  0 <= epoch a ∧ 0 <= gm_alpha_rao a ∧ 0 <= maintenance_alpha_rao a ∧
  alloc_operator a ≠ alloc_reviewer a.

Definition op_now (op : Op) : datetime :=
  match op with
  | RecordAllocation _ now | SetPause _ _ _ now _ | CreatePlan _ _ now | Approve _ _ _ now
  | ApproveNextLeg _ _ _ _ _ _ now | ClaimLeg _ now | FinalizeLeg _ _ _ _ _ now
  | ReconcileGm _ _ _ _ _ _ _ now | Cancel _ _ _ now => now
  end.

(** One step of the tables; every step appends one journal event. *)
(** The plan an operation works on and the kind of event it writes. *)
Definition op_event (op : Op) : option (string * string) :=
  match op with
  | Approve key _ _ _ => Some (key, "approved")
  | ApproveNextLeg key _ _ _ _ _ _ => Some (key, "next_leg_approved")
  | ClaimLeg key _ => Some (key, "dispatch_started")
  | FinalizeLeg key _ _ _ _ _ => Some (key, "leg_finalized")
  | ReconcileGm key _ _ _ _ _ _ _ => Some (key, "gm_reconciled")
  | Cancel key _ _ _ => Some (key, "cancelled")
  | _ => None
  end.

(** A [create_plan] that finds its own plan, bytes and all, in the file. *)
Definition replayed (db : TreasuryDb) (op : Op) : Prop :=
  ∃ p bounds now row, op = CreatePlan p bounds now ∧
    find_plan (idempotency_key (intent p)) db = Some row ∧ hash_plan p = Ok (plan_hash row).

Inductive db_step : TreasuryDb → Op → TreasuryDb → Prop :=
  | db_allocation db a now ev :
      alloc_ok a → existsb (λ b, epoch b =? epoch a) (allocations db) = false →
      (∃ body, _event (events db) None "allocation" body now = Ok ev) →
      db_step db (RecordAllocation a now)
        {| paused := paused db; reason := reason db; plans := plans db;
           allocations := allocations db ++ [a]; events := ev |}
  | db_pause db pause operator why now reviewer ev :
      (pause = false → (∃ n, verify (events db) = Ok n) ∧
         Forall (λ r, state r ≠ dispatching ∧ state r ≠ awaiting_gm) (plans db) ∧
         ∃ r, reviewer = Some r ∧ r ≠ "" ∧ r ≠ operator) →
      (∃ body k, _event (events db) None k body now = Ok ev) →
      db_step db (SetPause pause operator why now reviewer)
        {| paused := pause; reason := why; plans := plans db;
           allocations := allocations db; events := ev |}
  | db_create db plan bounds hash now ev :
      may_insert db plan bounds hash (to_utc now) →
      (∃ body, _event (events db) (Some (idempotency_key (intent plan))) "planned" body now
               = Ok ev) →
      db_step db (CreatePlan plan bounds now)
        {| paused := paused db; reason := reason db;
           plans := plans db ++ [new_row plan hash (to_utc now)];
           allocations := allocations db; events := ev |}
  | db_plan db op key r k f ev :
      op_event op = Some (key, k) →
      find_plan key db = Some r → plan_step (paused db) (to_utc (op_now op)) r k (f r) →
      (∃ body, _event (events db) (Some key) k body (op_now op) = Ok ev) →
      db_step db op
        {| paused := paused db; reason := reason db; plans := plans (update_plan key f db);
           allocations := allocations db; events := ev |}.

(** ** Every operation is a step *)

Lemma log_Ok db key k body now db' : log db key k body now = Ok db' →
  ∃ ev, _event (events db) key k body now = Ok ev ∧
    db' = {| paused := paused db; reason := reason db; plans := plans db;
             allocations := allocations db; events := ev |}.
Proof. unfold log. intros (ev & E & [= <-])%bind_Ok. eauto. Qed.

Ltac inv_log H ev He :=
  apply log_Ok in H as (ev & He & ->); cbn [paused reason plans allocations events] in *.

Lemma select_plan_Ok db key ok msg r : select_plan db key ok msg = Ok r →
  find_plan key db = Some r ∧ ok r = true.
Proof.
  unfold select_plan. destruct (find_plan key db) as [row|]; [|discriminate].
  intros H. inv_ok H. done.
Qed.

Lemma empty_false s : empty s = false ↔ s ≠ "".
Proof. unfold empty. apply String.eqb_neq. Qed.

Lemma fresh_true age limit : fresh age limit = true → 0 <= age <= limit.
Proof. unfold fresh. intros H. bool_to_prop. lia. Qed.

Lemma in_state_true s r : in_state s r = true → state r = s.
Proof. apply bool_decide_eq_true. Qed.

(** A logged single-plan update is a step. *)
Lemma update_step db op key r k f body db' :
  op_event op = Some (key, k) → find_plan key db = Some r → plan_step (paused db) (to_utc (op_now op)) r k (f r) →
  log (update_plan key f db) (Some key) k body (op_now op) = Ok db' → db_step db op db'.
Proof.
  intros Hop Hf Hs (ev & He & ->)%log_Ok.
  exact (db_plan db op key r k f ev Hop Hf Hs (ex_intro _ body He)).
Qed.

Lemma reviewer_guard reviewer op :
  negb (empty reviewer || String.eqb reviewer op) = true → reviewer ≠ "" ∧ reviewer ≠ op.
Proof.
  intros H. bool_to_prop. split; [by apply empty_false | by apply String.eqb_neq].
Qed.

Lemma record_allocation_step db a now db' :
  record_allocation db a now = Ok db' → db_step db (RecordAllocation a now) db'.
Proof.
  unfold record_allocation. intros H. inv_ok H. inv_log H ev He.
  bool_to_prop. apply db_allocation; [|assumption|by eexists; exact He].
  repeat split; try lia. apply not_eq_sym, String.eqb_neq. assumption.
Qed.

Lemma set_pause_step db pause operator why now reviewer db' :
  set_pause db pause operator why now reviewer = Ok db' →
  db_step db (SetPause pause operator why now reviewer) db'.
Proof.
  unfold set_pause. intros H. apply bind_Ok in H as (_ & _ & H).
  apply bind_Ok in H as (u0 & Hp & H). inv_log H ev He.
  apply db_pause; [|by eexists; eexists; exact He]. intros ->.
  apply bind_Ok in Hp as (u1 & Hr%require_Ok & Hp). apply bind_Ok in Hp as (n & Hv & Hp%require_Ok).
  destruct reviewer as [r|]; [|discriminate]. apply reviewer_guard in Hr as [Hr Ho].
  split; [by eauto|]. split; [|by eauto].
  apply Forall_forall. intros x Hx. apply negb_true_iff in Hp.
  assert (¬ (state x ∈ [dispatching; awaiting_gm])) as Hn.
  { intros Hin. rewrite <- not_true_iff_false in Hp. apply Hp, existsb_exists.
    exists x. split; [by apply list_elem_of_In | by apply bool_decide_eq_true]. }
  split; intros E; apply Hn; rewrite E; set_solver.
Qed.

Lemma preflight_Ok i b now u : preflight i b now = Ok u →
  (route i = "tao" ∨ route i = "gm_alpha") ∧
  0 <= to_utc now - to_utc (quoted_at i) <= seconds 120 ∧ reconciled b = true ∧
  0 < source_alpha_rao i <= max_source_alpha_rao b ∧
  0 < tao_value_rao i <= max_single_topup_rao b ∧
  daily_spent_rao b + tao_value_rao i <= max_daily_outflow_rao b.
Proof.
  unfold preflight. intros H. inv_ok H. bool_to_prop.
  match goal with Hf : fresh _ _ = true |- _ => apply fresh_true in Hf end.
  split; [set_solver|]. repeat split; try lia; assumption.
Qed.


Lemma create_plan_shape db plan bounds now db' hash :
  create_plan db plan bounds now = Ok (db', hash) →
  db' = db ∧ replayed db (CreatePlan plan bounds now) ∨
  may_insert db plan bounds hash (to_utc now) ∧ ∃ body ev,
    _event (events db) (Some (idempotency_key (intent plan))) "planned" body now = Ok ev ∧
    db' = {| paused := paused db; reason := reason db;
             plans := plans db ++ [new_row plan hash (to_utc now)];
             allocations := allocations db; events := ev |}.
Proof.
  unfold create_plan. intros H. apply bind_Ok in H as (? & Hc & H).
  apply bind_Ok in H as (h & Hh & H). apply bind_Ok in H as (? & Hp & H).
  apply require_Ok, negb_true_iff in Hp.
  destruct (find_plan _ _) as [row|] eqn:Ef.
  { left. apply bind_Ok in H as (? & E%require_Ok%String.eqb_eq & [= <- _]).
    split; [done|]. exists plan, bounds, now, row. by rewrite E. }
  right. apply bind_Ok in H as (db1 & H & [= -> ->]). unfold insert_plan in H.
  apply bind_Ok in H as (? & Hn & H). apply require_Ok, negb_true_iff in Hn.
  apply bind_Ok in H as (spent & ->%sql_sum_Ok & H).
  apply bind_Ok in H as (u & Hpre & H). apply preflight_Ok in Hpre as (?&?&?&?&?&?).
  apply bind_Ok in H as (? & _ & H). apply bind_Ok in H as (al & ->%sql_sum_Ok & H).
  apply bind_Ok in H as (re & ->%sql_sum_Ok & H). apply bind_Ok in H as (? & Hb & H).
  apply require_Ok, Z.leb_le in Hb.
  apply bind_Ok in H as (? & _ & H). apply bind_Ok in H as (? & _ & H).
  inv_log H ev He. split; [|by do 2 eexists].
  unfold check_plan in Hc. inv_ok Hc. bool_to_prop. cbn in *.
  constructor; try assumption; try lia.
Qed.

Lemma create_run db plan bounds now db' :
  run db (CreatePlan plan bounds now) = Ok db' →
  db' = db ∧ replayed db (CreatePlan plan bounds now) ∨ db_step db (CreatePlan plan bounds now) db'.
Proof.
  cbn [run]. intros ((d & h) & H & [= <-])%bind_Ok. cbn.
  apply create_plan_shape in H as [[-> Hr]|(Hm & body & ev & He & ->)]; [by left|]. right.
  apply db_create; [done | by eexists].
Qed.

Lemma approve_step db key reviewer h now db' :
  approve db key reviewer h now = Ok db' → db_step db (Approve key reviewer h now) db'.
Proof.
  unfold approve. intros H.
  apply bind_Ok in H as (r & [Hf [Hs%in_state_true _]%andb_true_iff]%select_plan_Ok & H).
  apply bind_Ok in H as (? & [Hr Ho]%require_Ok%reviewer_guard & H).
  apply bind_Ok in H as (? & _ & H).
  eapply update_step; [done | exact Hf | | exact H]. by eapply step_approve.
Qed.

Lemma approve_next_step db key reviewer h i q qa now db' :
  approve_next_leg db key reviewer h i q qa now = Ok db' → db_step db (ApproveNextLeg key reviewer h i q qa now) db'.
Proof.
  unfold approve_next_leg. intros H.
  apply bind_Ok in H as (? & _ & H). apply bind_Ok in H as (? & _ & H).
  apply bind_Ok in H as (? & Hq%require_Ok%fresh_true & H).
  apply bind_Ok in H as (r & [Hf [Hs%in_state_true _]%andb_true_iff]%select_plan_Ok & H).
  apply bind_Ok in H as (? & [Hr Ho]%require_Ok%reviewer_guard & H).
  apply bind_Ok in H as (? & _ & H). apply bind_Ok in H as (leg & _ & H).
  eapply update_step; [done | exact Hf | | exact H]. by eapply step_next.
Qed.

Lemma claim_step db key now db' out :
  claim_leg db key now = Ok (db', out) → db_step db (ClaimLeg key now) db'.
Proof.
  unfold claim_leg. intros H.
  apply bind_Ok in H as (? & Hp%require_Ok%negb_true_iff & H).
  apply bind_Ok in H as (r & [Hf Hs%in_state_true]%select_plan_Ok & H).
  apply bind_Ok in H as (leg & Hl & H).
  apply bind_Ok in H as (? & Hi%require_Ok%fresh_true & H).
  apply bind_Ok in H as (? & Hq%require_Ok%fresh_true & H).
  destruct (leg_amount r) as [amount|] eqn:Ha; [|discriminate].
  apply bind_Ok in H as (? & Hpos%require_Ok%negb_true_iff%Z.leb_gt & H).
  apply bind_Ok in H as (d & H & [= -> <-]).
  eapply update_step; [done | exact Hf | | exact H]. eapply step_claim; eauto.
Qed.

Lemma finalize_step db key leg x b n now db' :
  finalize_leg db key leg x b n now = Ok db' → db_step db (FinalizeLeg key leg x b n now) db'.
Proof.
  unfold finalize_leg. intros H.
  apply bind_Ok in H as (? & _ & H).
  apply bind_Ok in H as (r & [Hf Hs%in_state_true]%select_plan_Ok & H).
  apply bind_Ok in H as (leg' & Hl & H).
  apply bind_Ok in H as (? & ->%require_Ok%String.eqb_eq & H).
  apply bind_Ok in H as (? & Hn%require_Ok & H). apply bind_Ok in H as (? & Hz%require_Ok & H).
  apply bind_Ok in H as (? & Hu%require_Ok & H). apply bind_Ok in H as (? & _ & H).
  eapply update_step; [done | exact Hf | | exact H]. clear H.
  assert (legs_count r = S (leg_index r) ↔
    Some (S (leg_index r)) = length <$> LEGS (row_route r)) as Hc.
  { unfold legs_count. unfold leg_of in Hl. destruct (LEGS (row_route r)); [|discriminate].
    cbn. split; congruence. }
  case_bool_decide as Hfin.
  - apply Hc in Hfin. destruct n as [n|]; [discriminate|]. by eapply step_finalize_last.
  - destruct n as [n|]; [|discriminate]. cbn in Hn. apply Z.ltb_lt in Hn.
    eapply step_finalize; eauto; [by intros E; apply Hfin, Hc|].
    intros ->. apply negb_true_iff in Hu. cbn in Hu. apply Z.ltb_ge in Hu. lia.
Qed.

Lemma reconcile_step db key b a d u ref reviewer now db' :
  reconcile_gm db key b a d u ref reviewer now = Ok db' → db_step db (ReconcileGm key b a d u ref reviewer now) db'.
Proof.
  unfold reconcile_gm. intros H. apply bind_Ok in H as (? & _ & H).
  apply bind_Ok in H as (r & [Hf Hs%in_state_true]%select_plan_Ok & H).
  apply bind_Ok in H as (? & Hr%require_Ok%negb_true_iff & H).
  apply orb_false_iff in Hr as [_ Hr]. apply String.eqb_neq in Hr.
  eapply update_step; [done | exact Hf | | exact H]. by eapply step_reconcile.
Qed.

Lemma cancel_step db key o why now db' :
  cancel db key o why now = Ok db' → db_step db (Cancel key o why now) db'.
Proof.
  unfold cancel. intros H. apply bind_Ok in H as (? & _ & H).
  apply bind_Ok in H as (r & [Hf Hs%in_state_true]%select_plan_Ok & H).
  eapply update_step; [done | exact Hf | | exact H]. by eapply step_cancel.
Qed.

Lemma run_step db op db' : run db op = Ok db' →
  db' = db ∧ replayed db op ∨ db_step db op db'.
Proof.
  destruct op.
  - intros H. right. by apply record_allocation_step.
  - intros H. right. by apply set_pause_step.
  - apply create_run.
  - intros H. right. by eapply approve_step.
  - intros H. right. by eapply approve_next_step.
  - cbn [run]. intros ((d & out) & H & [= <-])%bind_Ok. right. by eapply claim_step.
  - intros H. right. by eapply finalize_step.
  - intros H. right. by eapply reconcile_step.
  - intros H. right. by eapply cancel_step.
Qed.

(** * The invariant *)

(** What a row records of its plan, and how far each state has come. *)
Record row_ok (r : PlanRow) : Prop := {
  ok_key : row_key r = idempotency_key (intent (plan_json r));
  ok_route_plan : row_route r = route (intent (plan_json r));
  ok_route : row_route r = "tao" ∨ row_route r = "gm_alpha";
  ok_source : row_source_alpha_rao r = source_alpha_rao (intent (plan_json r));
  ok_source_cap : 0 < row_source_alpha_rao r <= MAX_SOURCE_ALPHA_RAO;
  ok_reserved : reserved_tao_rao r = tao_value_rao (intent (plan_json r));
  ok_reserved_pos : 0 < reserved_tao_rao r;
  ok_hash : hash_plan (plan_json r) = Ok (plan_hash r);
  ok_phase : match state r with
             | planned | cancelled => leg_index r = 0%nat
             | approved | dispatching => (leg_index r < legs_count r)%nat
             | awaiting_review => (0 < leg_index r < legs_count r)%nat
             | awaiting_gm | reconciled_state => leg_index r = legs_count r
             end;
  ok_amount : (0 < leg_index r < legs_count r)%nat →
    ∃ a, amount_for_next_leg_rao r = Some a ∧ 0 < a ∧
      (leg_index r = 1%nat → a <= reserved_tao_rao r);
  ok_no_amount : leg_index r = 0%nat ∨ leg_index r = legs_count r →
    amount_for_next_leg_rao r = None
}.

(** The journal kinds of a plan, from its row. *)
Definition approval_kind (leg : nat) : string :=
  match leg with O => "approved" | _ => "next_leg_approved" end.
Definition leg_script (leg : nat) : list string :=
  [approval_kind leg; "dispatch_started"; "leg_finalized"].
Definition history (r : PlanRow) : list string :=
  "planned" :: mjoin (leg_script <$> seq 0 (leg_index r)) ++
  match state r with
  | planned | awaiting_review | awaiting_gm => []
  | approved => [approval_kind (leg_index r)]
  | dispatching => [approval_kind (leg_index r); "dispatch_started"]
  | reconciled_state => ["gm_reconciled"]
  | cancelled => ["cancelled"]
  end.

Definition events_of (key : string) (l : list Event) : list string :=
  kind <$> filter (λ e, event_plan_key e = Some key) l.

Definition live_source (l : list PlanRow) : Z :=
  sum_Z (row_source_alpha_rao <$> filter (λ r, live r = true) l).
Definition allocated (db : TreasuryDb) : Z := sum_Z (gm_alpha_rao <$> allocations db).

Record Inv (db : TreasuryDb) : Prop := {
  inv_keys : NoDup (row_key <$> plans db);
  inv_rows : Forall row_ok (plans db);
  inv_one_open : (length (filter (λ r, unresolved r = true) (plans db)) <= 1)%nat;
  inv_epochs : NoDup (epoch <$> allocations db);
  inv_allocations : Forall alloc_ok (allocations db);
  inv_budget : live_source (plans db) <= allocated db;
  inv_journal : verify (events db) = Ok (Z.of_nat (length (events db)));
  inv_event_keys : Forall (λ e, ∀ k, event_plan_key e = Some k → k ∈ row_key <$> plans db)
                     (events db);
  inv_history : Forall (λ r, events_of (row_key r) (events db) = history r) (plans db)
}.

Lemma initial_inv : Inv initial_db.
Proof. constructor; cbn; try constructor; try done; lia. Qed.

Lemma legs_count_pos r : row_ok r → (2 <= legs_count r)%nat.
Proof. intros H. unfold legs_count. destruct (ok_route r H) as [-> | ->]; cbn; lia. Qed.

Lemma leg_of_Ok r leg : leg_of r = Ok leg →
  (leg_index r < legs_count r)%nat ∧ default [] (LEGS (row_route r)) !! leg_index r = Some leg.
Proof.
  unfold leg_of, legs_count. destruct (LEGS _) as [legs|]; [|discriminate].
  destruct (legs !! leg_index r) eqn:E; [|discriminate]. intros [= <-]. split; [|done].
  cbn. by eapply lookup_lt_Some.
Qed.

(** Only the first leg is the unstake. *)
Lemma leg_unstake r leg : row_ok r → leg_of r = Ok leg → leg = "unstake" ↔ leg_index r = 0%nat.
Proof.
  intros H [Hlt Hl]%leg_of_Ok.
  destruct (ok_route r H) as [E|E]; unfold legs_count in Hlt; rewrite E in Hl, Hlt; cbn in Hl, Hlt;
    destruct (leg_index r) as [|[|[|]]]; cbn in Hl; try discriminate Hl; try lia;
    injection Hl as <-; split; (done || discriminate || lia).
Qed.

Lemma history_finalized r : state r = dispatching → ∀ a s,
  s = awaiting_review ∨ s = awaiting_gm →
  history (next_leg a (set_state s r)) = history r ++ ["leg_finalized"].
Proof.
  intros Hs a s Hcase. unfold history. rewrite Hs. cbn [leg_index next_leg set_state state].
  rewrite seq_S, fmap_app, join_app. cbn [fmap list_fmap mjoin list_join].
  destruct Hcase as [-> | ->]; cbn [app]; rewrite !app_nil_r, <- ?app_assoc; reflexivity.
Qed.

Lemma plan_step_history p now r k r' : row_ok r → plan_step p now r k r' →
  history r' = history r ++ [k].
Proof.
  intros Hok Hs. pose proof (ok_phase r Hok) as Hph. destruct Hs as [r rv E|r rv q E|r leg a _ E|
    r leg n E|r leg E|r rv E|r E]; try (apply history_finalized; auto; fail);
    rewrite E in Hph; unfold history; cbn [state set_state set_checks leg_index]; rewrite E;
    cbn [app]; f_equal; rewrite <- app_assoc; f_equal.
  - by rewrite Hph.
  - by destruct (leg_index r); [lia|].
Qed.

Lemma plan_step_facts p now r k r' : row_ok r → plan_step p now r k r' →
  row_ok r' ∧ row_key r' = row_key r ∧ unresolved r = true ∧ live r = true ∧
  row_source_alpha_rao r' = row_source_alpha_rao r.
Proof.
  intros Hok Hs. pose proof (ok_phase r Hok) as Hph. pose proof (legs_count_pos r Hok) as Hlen.
  pose proof (λ leg, leg_unstake r leg Hok) as Hunstake.
  assert (Hun : unresolved r = true ∧ live r = true).
  { unfold unresolved, live. destruct Hs as [r rv E|r rv q E|r leg a _ E|r leg n E|r leg E|r rv E|r E];
      rewrite E; split; reflexivity. }
  destruct Hun as [Hun Hlive]. split; [|by destruct Hs].
  destruct Hs as [r rv E|r rv q E|r leg a _ E|r leg n E Hl Hne Hn Hu|r leg E Hl Heq|r rv E|r E];
    rewrite E in Hph; destruct Hok; constructor; try assumption; cbn in *;
    change (legs_count (next_leg _ _)) with (legs_count r);
    change (legs_count (set_state _ _)) with (legs_count r);
    change (legs_count (set_checks _ _ _)) with (legs_count r); try assumption; try lia;
    try (intros; lia).
  - intros _. exists n. split; [done|]. split; [done|]. intros [= Hi]. by apply Hu, (Hunstake leg).
  - done.
Qed.

(** ** Steps preserve it *)

Lemma find_plan_split db key r : find_plan key db = Some r → NoDup (row_key <$> plans db) →
  row_key r = key ∧ ∃ l1 l2, plans db = l1 ++ r :: l2 ∧
    ∀ f, plans (update_plan key f db) = l1 ++ f r :: l2.
Proof.
  unfold find_plan, update_plan. cbn [plans]. induction (plans db) as [|x l IH]; [discriminate|].
  cbn [find fmap list_fmap map]. rewrite NoDup_cons. destruct (String.eqb_spec (row_key x) key) as [Hk|Hk].
  - intros [= ->] [Hn _]. split; [done|]. exists [], l. split; [done|]. intros f. cbn [app]. f_equal.
    rewrite <- (map_id l) at 2. apply map_ext_in. intros y Hy%list_elem_of_In.
    destruct (String.eqb_spec (row_key y) key) as [Hy'|]; [|done].
    destruct Hn. rewrite Hk, <- Hy'. by apply list_elem_of_fmap_2.
  - intros Hf [_ Hnd]. destruct (IH Hf Hnd) as (Hr & l1 & l2 & Hl & Hu). split; [done|].
    exists (x :: l1), l2. split; [by rewrite Hl|]. intros f. cbn [app]. by rewrite Hu.
Qed.

Lemma events_of_snoc key l e : events_of key (l ++ [e]) =
  events_of key l ++ (if decide (event_plan_key e = Some key) then [kind e] else []).
Proof.
  unfold events_of. rewrite filter_app, fmap_app. f_equal.
  cbn [filter list_filter]. by destruct (decide _).
Qed.

Lemma live_source_app l1 l2 : live_source (l1 ++ l2) = live_source l1 + live_source l2.
Proof. unfold live_source. by rewrite filter_app, fmap_app, sum_Z_app. Qed.

Lemma live_source_one r : 0 <= row_source_alpha_rao r →
  live_source [r] = (if live r then row_source_alpha_rao r else 0).
Proof.
  intros. unfold live_source. destruct (live r) eqn:E;
    [rewrite filter_cons_True by done | rewrite filter_cons_False by congruence];
    rewrite filter_nil; cbn; lia.
Qed.

(** An event for another plan or for none leaves a plan's history alone. *)
Lemma history_other rows evs e :
  Forall (λ r, events_of (row_key r) evs = history r) rows →
  (∀ r, r ∈ rows → event_plan_key e ≠ Some (row_key r)) →
  Forall (λ r, events_of (row_key r) (evs ++ [e]) = history r) rows.
Proof.
  rewrite !Forall_forall. intros H Hne r Hr. rewrite events_of_snoc.
  rewrite decide_False by by apply Hne. rewrite app_nil_r. by apply H.
Qed.

(** The journal part of the invariant, for a step that appends one event. *)
Lemma event_inv db key k body now ev :
  verify (events db) = Ok (Z.of_nat (length (events db))) →
  _event (events db) key k body now = Ok ev →
  verify ev = Ok (Z.of_nat (length ev)) ∧
  ∃ e, ev = events db ++ [e] ∧ event_plan_key e = key ∧ kind e = k.
Proof.
  intros Hv He. pose proof (event_verifies _ _ _ _ _ _ _ Hv He) as Hv'.
  apply event_appends in He as (e & -> & Hk & Hd). split; [|by eauto].
  rewrite Hv', length_app. f_equal. cbn. lia.
Qed.

Lemma insert_row_ok db p b h now : may_insert db p b h now → row_ok (new_row p h now).
Proof.
  intros []. constructor; cbn; try done; try lia.
Qed.

Lemma open_one (l1 l2 : list PlanRow) (r r' : PlanRow) : unresolved r = true →
  (length (filter (λ r, unresolved r = true) (l1 ++ r :: l2)) <= 1)%nat →
  (length (filter (λ r, unresolved r = true) (l1 ++ r' :: l2)) <= 1)%nat.
Proof.
  intros Hr. rewrite !filter_app, !filter_cons, !length_app, decide_True by done.
  destruct (decide _); cbn [length]; lia.
Qed.

Lemma plan_update_inv db key r f k now ev :
  Inv db → find_plan key db = Some r → plan_step (paused db) (to_utc now) r k (f r) →
  (∃ body, _event (events db) (Some key) k body now = Ok ev) →
  Inv {| paused := paused db; reason := reason db; plans := plans (update_plan key f db);
         allocations := allocations db; events := ev |}.
Proof.
  intros HI Hf Hs (body & He). destruct HI as [Hk Hrow Hone Hep Hal Hbud Hj Hek Hh].
  destruct (find_plan_split _ _ _ Hf Hk) as (<- & l1 & l2 & Hl & ->).
  destruct (event_inv _ _ _ _ _ _ Hj He) as (Hv & e & -> & Hek' & Hkind).
  rewrite Hl in *. rewrite fmap_app, fmap_cons in *.
  pose proof Hrow as (Hrow1 & [Hr Hrow2]%Forall_cons)%Forall_app.
  destruct (plan_step_facts _ _ _ _ _ Hr Hs) as (Hr' & Hkey & Hun & Hlive & Hsrc).
  constructor; cbn [plans events allocations]; rewrite ?fmap_app, ?fmap_cons, ?Hkey.
  - done.
  - apply Forall_app. split; [done|]. by constructor.
  - by apply (open_one l1 l2 r).
  - done.
  - done.
  - change (l1 ++ r :: l2) with (l1 ++ [r] ++ l2) in Hbud.
    change (l1 ++ f r :: l2) with (l1 ++ [f r] ++ l2). unfold allocated in *. cbn [allocations].
    rewrite !live_source_app in *.
    pose proof (ok_source_cap r Hr). rewrite live_source_one in Hbud by lia.
    rewrite live_source_one by lia. rewrite Hlive in Hbud. destruct (live (f r)); lia.
  - done.
  - apply Forall_app. split; [done|]. constructor; [|constructor].
    rewrite Hek'. intros k0 [= <-]. set_solver.
  - apply NoDup_app in Hk as (Hk1 & Hd & [Hnr Hk2]%NoDup_cons).
    apply Forall_app in Hh as [Hh1 [Hhr Hh2]%Forall_cons].
    apply Forall_app. split; [|constructor].
    + apply history_other; [done|]. intros x Hx. rewrite Hek'. intros [= Hxk].
      apply (Hd (row_key x)); [by apply list_elem_of_fmap_2 | rewrite <- Hxk; by apply list_elem_of_here].
    + rewrite Hkey, events_of_snoc, decide_True by done.
      rewrite Hhr, Hkind. symmetry. by eapply plan_step_history.
    + apply history_other; [done|]. intros x Hx. rewrite Hek'. intros [= Hxk].
      apply Hnr. rewrite Hxk. by apply list_elem_of_fmap_2.
Qed.

Lemma find_plan_None db key : find_plan key db = None → key ∉ row_key <$> plans db.
Proof.
  intros Hf (r & -> & Hr)%list_elem_of_fmap. unfold find_plan in Hf.
  apply list_elem_of_In, (find_none _ _ Hf) in Hr. by rewrite String.eqb_refl in Hr.
Qed.

Lemma events_of_nil key l : Forall (λ e, event_plan_key e ≠ Some key) l → events_of key l = [].
Proof.
  intros H. unfold events_of. induction H as [|e l He _ IH]; [done|].
  by rewrite filter_cons_False.
Qed.

Lemma allocation_inv db a now ev : Inv db → alloc_ok a →
  existsb (λ b, epoch b =? epoch a) (allocations db) = false →
  (∃ body, _event (events db) None "allocation" body now = Ok ev) →
  Inv {| paused := paused db; reason := reason db; plans := plans db;
         allocations := allocations db ++ [a]; events := ev |}.
Proof.
  intros HI Ha Hex (body & He). destruct HI as [Hk Hrow Hone Hep Hal Hbud Hj Hek Hh].
  destruct (event_inv _ _ _ _ _ _ Hj He) as (Hv & e & -> & Hek' & Hkind).
  constructor; cbn [plans events allocations]; try done.
  - rewrite fmap_app. apply NoDup_app. split; [done|]. split; [|apply NoDup_singleton].
    intros x (b & -> & Hb)%list_elem_of_fmap Hx%list_elem_of_singleton.
    assert (existsb (λ b, epoch b =? epoch a) (allocations db) = true); [|congruence].
    apply existsb_exists. exists b. split; [by apply list_elem_of_In | by apply Z.eqb_eq].
  - apply Forall_app. split; [done|]. by constructor.
  - unfold allocated in *. cbn [allocations]. rewrite fmap_app, sum_Z_app.
    destruct Ha as (_ & Hg & _). cbn. lia.
  - apply Forall_app. split; [done|]. constructor; [|constructor]. rewrite Hek'. discriminate.
  - apply history_other; [done|]. intros r _. rewrite Hek'. discriminate.
Qed.

Lemma pause_inv db p why k now ev : Inv db →
  (∃ body, _event (events db) None k body now = Ok ev) →
  Inv {| paused := p; reason := why; plans := plans db;
         allocations := allocations db; events := ev |}.
Proof.
  intros HI (body & He). destruct HI as [Hk Hrow Hone Hep Hal Hbud Hj Hek Hh].
  destruct (event_inv _ _ _ _ _ _ Hj He) as (Hv & e & -> & Hek' & Hkind).
  constructor; cbn [plans events allocations]; try done.
  - apply Forall_app. split; [done|]. constructor; [|constructor]. rewrite Hek'. discriminate.
  - apply history_other; [done|]. intros r _. rewrite Hek'. discriminate.
Qed.

Lemma allocated_up_to_le db revision : Forall alloc_ok (allocations db) →
  sum_Z (allocated_up_to db revision) <= allocated db.
Proof.
  unfold allocated_up_to, allocated. induction 1 as [|a l Ha _ IH]; [cbn; lia|].
  destruct Ha as (_ & Hg & _). rewrite filter_cons. destruct (decide _); cbn [fmap list_fmap sum_Z]; lia.
Qed.

Lemma open_none (l : list PlanRow) : existsb unresolved l = false →
  filter (λ r, unresolved r = true) l = [].
Proof.
  induction l as [|r l IH]; [done|]. cbn [existsb]. intros [Hr Hl]%orb_false_iff.
  rewrite filter_cons_False by congruence. by apply IH.
Qed.

Lemma create_inv db p b h now ev : Inv db → may_insert db p b h (to_utc now) →
  (∃ body, _event (events db) (Some (idempotency_key (intent p))) "planned" body now = Ok ev) →
  Inv {| paused := paused db; reason := reason db;
         plans := plans db ++ [new_row p h (to_utc now)];
         allocations := allocations db; events := ev |}.
Proof.
  intros HI Hm (body & He). destruct HI as [Hk Hrow Hone Hep Hal Hbud Hj Hek Hh].
  destruct (event_inv _ _ _ _ _ _ Hj He) as (Hv & e & -> & Hek' & Hkind).
  pose proof (insert_row_ok _ _ _ _ _ Hm) as Hnew. destruct Hm.
  apply find_plan_None in ins_fresh_key0.
  constructor; cbn [plans events allocations]; try done.
  - rewrite fmap_app. apply NoDup_app. split; [done|]. split; [|apply NoDup_singleton].
    intros x Hx ->%list_elem_of_singleton. done.
  - apply Forall_app. split; [done|]. by constructor.
  - rewrite filter_app, length_app, open_none by done. rewrite filter_cons, filter_nil.
    destruct (decide _); cbn; lia.
  - unfold allocated. cbn [allocations]. rewrite live_source_app, live_source_one by (cbn; lia).
    pose proof (allocated_up_to_le db (policy_revision (intent p)) Hal) as Hle.
    unfold live_source at 1. unfold allocated, reserved_source in *. cbn [live new_row].
    destruct (live _); cbn [row_source_alpha_rao new_row]; lia.
  - apply Forall_app. split.
    + eapply Forall_impl; [exact Hek|]. intros x Hx k0 Hk0. rewrite fmap_app. set_solver.
    + constructor; [|constructor]. rewrite Hek'. intros k0 [= <-]. rewrite fmap_app. set_solver.
  - apply Forall_app. split.
    + apply history_other; [done|]. intros x Hx. rewrite Hek'. intros [= Hxk].
      apply ins_fresh_key0. rewrite Hxk. by apply list_elem_of_fmap_2.
    + constructor; [|constructor]. rewrite events_of_snoc, decide_True by done.
      rewrite events_of_nil, Hkind; [done|]. eapply Forall_impl; [exact Hek|].
      intros x Hx Hxk. by apply ins_fresh_key0, Hx.
Qed.

Lemma step_inv db op db' : Inv db → db_step db op db' → Inv db'.
Proof.
  intros HI Hs. destruct Hs as [db a now ev Ha Hex He|db p o why now rv ev _ (body & k & He)|
    db p b h now ev Hm He|db op key r k f ev _ Hf Hs He].
  - by eapply allocation_inv.
  - by eapply pause_inv; [|eexists].
  - by eapply create_inv.
  - by eapply plan_update_inv.
Qed.

Lemma reachable_inv db : reachable db → Inv db.
Proof.
  induction 1 as [|db op db' _ IH Hr]; [apply initial_inv|].
  destruct (run_step _ _ _ Hr) as [[-> _] | Hs]; [done | by eapply step_inv].
Qed.

(** * Consequences *)

Lemma open_list (l : list PlanRow) r : r ∈ l → unresolved r = true →
  (length (filter (λ r, unresolved r = true) l) <= 1)%nat →
  filter (λ r, unresolved r = true) l = [r].
Proof.
  intros Hr Hun Hlen. assert (r ∈ filter (λ r, unresolved r = true) l) as Hin
    by by apply list_elem_of_filter.
  destruct (filter _ l) as [|x [|y l']]; cbn in Hlen; try lia; [by apply elem_of_nil in Hin|].
  by apply list_elem_of_singleton in Hin as ->.
Qed.

Lemma find_plan_elem db key r : find_plan key db = Some r → r ∈ plans db ∧ row_key r = key.
Proof.
  intros [Hr Hk]%find_some. split; [by apply list_elem_of_In | by apply String.eqb_eq].
Qed.

Lemma find_plan_In db r : NoDup (row_key <$> plans db) → r ∈ plans db →
  find_plan (row_key r) db = Some r.
Proof.
  unfold find_plan. induction (plans db) as [|x l IH]; [by intros _ ?%elem_of_nil|].
  cbn [fmap list_fmap find]. rewrite NoDup_cons, elem_of_cons. intros [Hx Hl] [->|Hr].
  - by rewrite String.eqb_refl.
  - destruct (String.eqb_spec (row_key x) (row_key r)) as [E|]; [|by apply IH].
    destruct Hx. rewrite E. by apply list_elem_of_fmap_2.
Qed.

Lemma row_at db key r : Inv db → find_plan key db = Some r → row_ok r ∧
  events_of key (events db) = history r ∧ r ∈ plans db.
Proof.
  intros HI Hf. destruct (find_plan_elem _ _ _ Hf) as [Hr <-]. split_and!; [| |done].
  - by eapply Forall_forall in Hr; [|apply HI].
  - by eapply Forall_forall in Hr; [|apply (inv_history _ HI)].
Qed.

Lemma exec_reachable db op : reachable db → reachable (exec db op).
Proof.
  intros H. unfold exec. destruct (run db op) eqn:E; [|done]. by eapply reachable_step.
Qed.

Lemma run_all_reachable db ops : reachable db → reachable (run_all db ops).
Proof.
  revert db. induction ops as [|op ops IH]; intros db H; [done|]. by apply IH, exec_reachable.
Qed.

(** C5: the tables stay sound. On every file the operations can produce from
    the one [_connect] creates: any two plans that are not reconciled or
    cancelled are the same plan; the alpha of all plans that are not cancelled
    is within the alpha allocated to GM; no plan moves more than the 10 DITTO
    ceiling; no allocation is its own reviewer's; and the journal verifies with
    its full count. *)
Theorem treasury_invariant db : reachable db →
  (∀ r1 r2, r1 ∈ plans db → r2 ∈ plans db → unresolved r1 = true → unresolved r2 = true → r1 = r2) ∧
  live_source (plans db) <= allocated db ∧
  Forall (λ r, 0 < row_source_alpha_rao r <= MAX_SOURCE_ALPHA_RAO) (plans db) ∧
  Forall (λ a, alloc_operator a ≠ alloc_reviewer a) (allocations db) ∧
  NoDup (row_key <$> plans db) ∧ NoDup (epoch <$> allocations db) ∧
  verify (events db) = Ok (Z.of_nat (length (events db))).
Proof.
  intros HI%reachable_inv. split; [|split_and!; try apply HI].
  - intros r1 r2 H1 H2 U1 U2. pose proof (inv_one_open _ HI) as Hone.
    pose proof (open_list _ _ H1 U1 Hone) as E1. rewrite (open_list _ _ H2 U2 Hone) in E1.
    by injection E1.
  - eapply Forall_impl; [apply (inv_rows _ HI)|]. intros r Hr. apply (ok_source_cap _ Hr).
  - eapply Forall_impl; [apply (inv_allocations _ HI)|]. by intros a (_ & _ & _ & ?).
Qed.

Definition dispatches (l : list string) : nat := length (filter (λ k, k = "dispatch_started") l).

Lemma dispatches_app l1 l2 : dispatches (l1 ++ l2) = (dispatches l1 + dispatches l2)%nat.
Proof. unfold dispatches. by rewrite filter_app, length_app. Qed.

Lemma leg_script_counts start n :
  dispatches (mjoin (leg_script <$> seq start n)) = n ∧
  length (mjoin (leg_script <$> seq start n)) = (3 * n)%nat.
Proof.
  revert start. induction n as [|n IH]; intros start; [done|].
  change (mjoin (leg_script <$> seq start (S n)))
    with (leg_script start ++ mjoin (leg_script <$> seq (S start) n)).
  destruct (IH (S start)) as [H1 H2].
  rewrite dispatches_app, length_app, H1, H2.
  assert (dispatches (leg_script start) = 1%nat) as -> by by destruct start.
  cbn [leg_script length]. lia.
Qed.

Lemma history_counts r : row_ok r →
  dispatches (history r) =
    (leg_index r + if bool_decide (state r = dispatching) then 1 else 0)%nat ∧
  (length (history r) <= 3 * legs_count r + 2)%nat.
Proof.
  intros Hok. pose proof (ok_phase _ Hok) as Hph. pose proof (legs_count_pos _ Hok).
  unfold history. destruct (leg_script_counts 0 (leg_index r)) as [H1 H2].
  change ("planned" :: ?x) with (["planned"] ++ x).
  rewrite !dispatches_app, !length_app, H1, H2.
  change (dispatches ["planned"]) with 0%nat. change (length ["planned"]) with 1%nat.
  assert (∀ leg, dispatches [approval_kind leg] = 0%nat ∧
    dispatches [approval_kind leg; "dispatch_started"] = 1%nat) as Hone by by intros [|leg].
  destruct (Hone (leg_index r)) as [Ha Hd].
  destruct (state r); rewrite ?Ha, ?Hd; cbn [length];
    repeat match goal with |- context [dispatches ?l] =>
      let n := eval vm_compute in (dispatches l) in change (dispatches l) with n end;
    split; try lia; try reflexivity.
  all: cbn; lia.
Qed.

(** C6: the journal tells a plan's whole story, and no leg is dispatched
    twice. The kinds recorded for a plan are exactly the script of its row:
    "planned", then for each finalized leg in order an approval, one dispatch
    and one finalization, then what the state says of the current leg. So
    every dispatch follows its own fresh approval, the number of dispatches is
    the finalized legs plus the one in flight, and it never exceeds the route's
    legs. *)
Theorem journal_tells_plan db key r : reachable db → find_plan key db = Some r →
  events_of key (events db) = history r ∧
  dispatches (events_of key (events db)) =
    (leg_index r + if bool_decide (state r = dispatching) then 1 else 0)%nat ∧
  (dispatches (events_of key (events db)) <= legs_count r)%nat.
Proof.
  intros HI%reachable_inv Hf. destruct (row_at _ _ _ HI Hf) as (Hok & Hh & _).
  destruct (history_counts _ Hok) as [Hd _]. rewrite Hh. split; [done|]. split; [done|].
  rewrite Hd. pose proof (ok_phase _ Hok). pose proof (legs_count_pos _ Hok).
  case_bool_decide as E; [rewrite E in *; lia|]. destruct (state r); lia.
Qed.

Lemma create_adds db plan bounds now db' hash : Inv db →
  create_plan db plan bounds now = Ok (db', hash) → db' ≠ db →
  may_insert db plan bounds hash (to_utc now) ∧ Inv db' ∧
  plans db' = plans db ++ [new_row plan hash (to_utc now)] ∧ allocations db' = allocations db.
Proof.
  intros HI Hc Hne.
  destruct (create_plan_shape _ _ _ _ _ _ Hc) as [[-> _]|(Hm & body & ev & He & ->)]; [done|].
  split; [done|]. split; [|done]. by eapply create_inv; [..|eexists].
Qed.

(** What a new plan may spend. When [create_plan] adds a plan, the
    journal was not paused and held no open plan; afterwards the TAO reserved
    on that UTC day, this plan included and whatever its later calls do, is
    within the daily cap, the plan alone within the single cap, and all alpha
    of plans that are not cancelled within the alpha allocated to GM up to the
    plan's policy revision. *)
Lemma create_plan_bounds db plan bounds now db' hash :
  reachable db → create_plan db plan bounds now = Ok (db', hash) → db' ≠ db →
  paused db = false ∧ existsb unresolved (plans db) = false ∧
  sum_Z (daily_reserved db' (date_isoformat (to_utc now))) <= max_daily_outflow_rao bounds ∧
  0 < tao_value_rao (intent plan) <= max_single_topup_rao bounds ∧
  live_source (plans db') <= sum_Z (allocated_up_to db' (policy_revision (intent plan))) ∧
  find_plan (idempotency_key (intent plan)) db' = Some (new_row plan hash (to_utc now)).
Proof.
  intros HI%reachable_inv Hc Hne.
  destruct (create_adds _ _ _ _ _ _ HI Hc Hne) as (Hm & HI' & Hp & Ha). destruct Hm.
  split; [done|]. split; [done|]. split_and!; try lia.
  - unfold daily_reserved in *. rewrite Hp, filter_app, fmap_app, sum_Z_app, filter_cons, filter_nil.
    rewrite decide_True by done. cbn [fmap list_fmap sum_Z reserved_tao_rao new_row]. lia.
  - unfold allocated_up_to, reserved_source in *. rewrite Ha, Hp, live_source_app.
    rewrite live_source_one by (cbn; lia). cbn [live new_row row_source_alpha_rao].
    change (live (new_row plan hash (to_utc now))) with true. unfold live_source. lia.
  - apply (find_plan_In db' (new_row plan hash (to_utc now))); [apply HI'|]. rewrite Hp. set_solver.
Qed.

Lemma find_plan_update db key r f ev : find_plan key db = Some r → row_key (f r) = key →
  find_plan key {| paused := paused db; reason := reason db; plans := plans (update_plan key f db);
    allocations := allocations db; events := ev |} = Some (f r).
Proof.
  unfold find_plan, update_plan. cbn [plans]. induction (plans db) as [|x l IH]; [discriminate|].
  cbn [find map]. destruct (String.eqb (row_key x) key) eqn:E.
  - intros [= ->] Hk. cbn [find]. by rewrite Hk, String.eqb_refl.
  - intros Hf Hk. cbn [find]. rewrite E. by apply IH.
Qed.

Lemma claim_needs_approved db key now r : find_plan key db = Some r → state r ≠ approved →
  is_ok (claim_leg db key now) = false.
Proof.
  intros Hf Hs. unfold claim_leg, select_plan. rewrite Hf. unfold in_state.
  rewrite bool_decide_false by done. by destruct (negb (paused db)).
Qed.

(** A dispatch claim. [claim_leg] succeeds only when the journal is not
    paused, the plan is approved, its instructions are at most 30 minutes and
    its quote at most 120 seconds old. It hands out the route's current leg:
    the reviewed source amount for the unstake, afterwards the positive amount
    the previous leg was finalized with, and directly after the unstake no more
    than the TAO the plan reserved. The plan is then in flight, and no second
    claim can succeed. *)
Lemma claim_leg_guarded db key now db' leg amount plan :
  reachable db → claim_leg db key now = Ok (db', (leg, amount, plan)) →
  ∃ r, find_plan key db = Some r ∧ find_plan key db' = Some (set_state dispatching r) ∧
    paused db = false ∧ state r = approved ∧ plan = plan_json r ∧
    0 <= to_utc now - instructions_checked_at r <= minutes 30 ∧
    0 <= to_utc now - quote_checked_at r <= seconds 120 ∧
    leg_of r = Ok leg ∧ 0 < amount ∧
    (leg = "unstake" → amount = source_alpha_rao (intent plan)) ∧
    (leg ≠ "unstake" → amount_for_next_leg_rao r = Some amount) ∧
    (leg_index r = 1%nat → amount <= tao_value_rao (intent plan)) ∧
    ∀ now', is_ok (claim_leg db' key now') = false.
Proof.
  intros HI%reachable_inv H. unfold claim_leg in H.
  apply bind_Ok in H as (? & Hp%require_Ok%negb_true_iff & H).
  apply bind_Ok in H as (r & [Hf Hs%in_state_true]%select_plan_Ok & H).
  apply bind_Ok in H as (leg' & Hl & H).
  apply bind_Ok in H as (? & Hi%require_Ok%fresh_true & H).
  apply bind_Ok in H as (? & Hq%require_Ok%fresh_true & H).
  destruct (leg_amount r) as [amount'|] eqn:Ha; [|discriminate].
  apply bind_Ok in H as (? & Hpos%require_Ok%negb_true_iff%Z.leb_gt & H).
  apply bind_Ok in H as (d & H & [= -> -> -> <-]). inv_log H ev He.
  destruct (row_at _ _ _ HI Hf) as (Hok & _ & Hin). destruct (find_plan_elem _ _ _ Hf) as [_ Hkey].
  assert (Hf' : find_plan key {| paused := paused db; reason := reason db;
     plans := plans (update_plan key (set_state dispatching) db);
     allocations := allocations db; events := ev |} = Some (set_state dispatching r))
    by by apply find_plan_update.
  pose proof (leg_unstake _ _ Hok Hl) as Hu. apply leg_of_Ok in Hl as Hlt.
  exists r. split; [done|]. split; [exact Hf'|]. unfold leg_amount in Ha.
  split_and!; try done; try lia.
  - intros E%Hu. rewrite E in Ha. injection Ha as <-. apply (ok_source r Hok).
  - intros Hne. destruct (leg_index r); [by destruct Hne; apply Hu | done].
  - intros E. rewrite E in *. destruct (ok_amount r Hok) as (a & Ha' & _ & Hle); [lia|].
    rewrite <- (ok_reserved r Hok). cbn in Ha. rewrite Ha in Ha'. injection Ha' as ->. by apply Hle.
  - intros now'. by eapply claim_needs_approved; [exact Hf'|].
Qed.
End lifecycle.

(** * A payment by evaluation *)

Definition utc_host : LocalZone := λ w, w.
#[local] Existing Instance utc_host.
#[local] Existing Instance sample_sha256.

Definition sample_digest : string := String.concat "" (replicate 64 "a").
Definition sample_hash : string := "0x" +:+ sample_digest.
Definition sample_why : string := "reviewed by hand".
Definition sample_allocation : Allocation := {|
  epoch := 7; alloc_policy_revision := 1; source_block_hash := sample_hash;
  gm_alpha_rao := 5000; maintenance_alpha_rao := 100;
  alloc_operator := "ops"; alloc_reviewer := "rev" |}.
Definition sample_intent : TopUpIntent := {|
  route := "tao"; policy_revision := 1; quote_block_hash := sample_hash; quoted_at := Aware 0;
  source_alpha_rao := 3000; tao_value_rao := 900; price_impact_bps := 10;
  linked_wallet := "wallet"; payment_instructions_sha256 := sample_digest;
  idempotency_key := "payment-1" |}.
Definition sample_plan : PaymentPlan := {|
  intent := sample_intent; destination_coldkey := "dest"; treasury_hotkey := "hot";
  gm_hotkey := ""; gm_account_ref := "acct"; operator := "ops";
  instructions_observed_at := Aware 0; gm_balance_before_nano_usd := 50;
  min_tao_proceeds_rao := 800; min_gm_alpha_rao := 0; max_slippage_bps := 20 |}.
Definition sample_bounds : TopUpBounds := {|
  max_source_alpha_rao := 4000; max_single_topup_rao := 1000; max_daily_outflow_rao := 1000;
  bounds_max_slippage_bps := 50; daily_spent_rao := 0; expected_linked_wallet := "wallet";
  expected_payment_instructions_sha256 := sample_digest; reconciled := true |}.
Definition sample_plan_hash : string :=
  match hash_plan sample_plan with Ok h => h | Err _ => "" end.

(** The operations up to the first dispatch, at one instant. *)
Definition sample_ops : list Op := [
  RecordAllocation sample_allocation (Aware 0);
  SetPause false "ops" sample_why (Aware 0) (Some "rev");
  CreatePlan sample_plan sample_bounds (Aware 0);
  Approve "payment-1" "rev" sample_plan_hash (Aware 0);
  ClaimLeg "payment-1" (Aware 0)].

Definition sample_db (n : nat) : TreasuryDb := run_all initial_db (take n sample_ops).

Lemma sample_reachable n : reachable (sample_db n).
Proof. apply run_all_reachable, reachable_initial. Qed.

Lemma treasury_invariant_witness :
  reachable (sample_db 5) ∧ live_source (plans (sample_db 5)) <= allocated (sample_db 5).
Proof.
  split; [apply sample_reachable|].
  exact (proj1 (proj2 (treasury_invariant (sample_db 5) (sample_reachable 5)))).
Defined.

(** The rows of the sample after creation, approval and dispatch. *)
Definition sample_row : PlanRow := new_row sample_plan sample_plan_hash 0.

Lemma sample_found :
  find_plan "payment-1" (sample_db 4) = Some (set_state approved sample_row) ∧
  find_plan "payment-1" (sample_db 5) = Some (set_state dispatching sample_row).
Proof. vm_compute. split; reflexivity. Qed.

Lemma journal_tells_plan_witness :
  events_of "payment-1" (events (sample_db 5)) = ["planned"; "approved"; "dispatch_started"].
Proof.
  exact (proj1 (journal_tells_plan (sample_db 5) "payment-1" _ (sample_reachable 5)
    (proj2 sample_found))).
Defined.

Lemma create_plan_bounds_witness :
  sum_Z (daily_reserved (sample_db 3) (date_isoformat 0)) <= 1000.
Proof.
  refine (proj1 (proj2 (proj2 (create_plan_bounds (sample_db 2) sample_plan sample_bounds (Aware 0)
    (sample_db 3) sample_plan_hash (sample_reachable 2) _ _)))).
  - vm_compute. reflexivity.
  - intros E. apply (f_equal (length ∘ plans)) in E. vm_compute in E. discriminate E.
Defined.

Lemma claim_leg_guarded_witness :
  ∃ r, find_plan "payment-1" (sample_db 4) = Some r ∧ state r = approved.
Proof.
  destruct (claim_leg_guarded (sample_db 4) "payment-1" (Aware 0) (sample_db 5) "unstake" 3000
    sample_plan (sample_reachable 4)) as (r & Hf & _ & _ & Hs & _).
  - vm_compute. reflexivity.
  - exists r. split; [exact Hf | exact Hs].
Defined.
