(* ===== verification/TreasuryProgress.v ===== *)
(** How treasury plans end: a plan takes a bounded number of steps and its
    final states are final; an approval that outlives its quote freezes the
    plan table; any other open plan can be driven to reconciliation. *)
From Stdlib Require Import ZArith Lia.
From stdpp Require Import base list strings sets sorting.
From S2P Require Import Prelude PyText Journal TreasuryStore TreasurySafety.

#[local] Open Scope string_scope.
#[local] Open Scope list_scope.
#[local] Open Scope Z_scope.

Section progress.
Context {SH : Sha256} {LZ : LocalZone}.

(** * The frame of a step *)

Lemma find_plan_app l1 l2 key r :
  find (λ r, String.eqb (row_key r) key) l1 = Some r →
  find (λ r, String.eqb (row_key r) key) (l1 ++ l2) = Some r.
Proof.
  induction l1 as [|x l1 IH]; [discriminate|]. cbn [app find].
  by destruct (String.eqb (row_key x) key).
Qed.

Lemma find_replace key (a b : PlanRow) l1 l2 : row_key a ≠ key → row_key b ≠ key →
  find (λ r, String.eqb (row_key r) key) (l1 ++ a :: l2) =
  find (λ r, String.eqb (row_key r) key) (l1 ++ b :: l2).
Proof.
  intros Ha%String.eqb_neq Hb%String.eqb_neq. induction l1 as [|x l1 IH]; cbn [app find].
  - by rewrite Ha, Hb.
  - by destruct (String.eqb (row_key x) key).
Qed.

(** A step leaves a plan's row alone, or is a lifecycle step of that plan and
    appends an event for it. *)
Lemma step_frame db op db' key r : Inv db → db_step db op db' → find_plan key db = Some r →
  find_plan key db' = Some r ∨
  ∃ k r' e, find_plan key db' = Some r' ∧
    plan_step (paused db) (to_utc (op_now op)) r k r' ∧
    events db' = events db ++ [e] ∧ event_plan_key e = Some key.
Proof.
  intros HI Hs Hf. destruct Hs as [db a now ev _ _ _|db p o why now rv ev _ _|
    db p b h now ev Hm _|db op key' r' k f ev _ Hf' Hs (body & He)]; try (by left).
  - left. unfold find_plan in *. cbn [plans]. by apply find_plan_app.
  - destruct (decide (key = key')) as [<-|Hne].
    + right. rewrite Hf in Hf'. injection Hf' as <-. apply event_appends in He as (e & -> & Hk & _).
      destruct (row_at _ _ _ HI Hf) as (Hok & _ & _).
      destruct (plan_step_facts _ _ _ _ _ Hok Hs) as (_ & Hkey & _).
      destruct (find_plan_elem _ _ _ Hf) as [_ Hrk].
      exists k, (f r), e. split; [|done]. apply find_plan_update; [done | congruence].
    + left. destruct (row_at _ _ _ HI Hf') as (Hok & _ & _).
      destruct (plan_step_facts _ _ _ _ _ Hok Hs) as (_ & Hkey & _).
      destruct (find_plan_split _ _ _ Hf' (inv_keys _ HI)) as (Hk & l1 & l2 & Hl & Hu).
      unfold find_plan in *. cbn [plans]. rewrite Hu, Hl in *.
      rewrite <- Hf. apply find_replace; congruence.
Qed.

(** * Plans end *)

Lemma closed_no_step p now r k r' : unresolved r = false → ¬ plan_step p now r k r'.
Proof.
  intros Hun Hs. destruct Hs as [r rv E|r rv q E|r leg a _ E|r leg n E|r leg E|r rv E|r E];
    unfold unresolved in Hun; rewrite E in Hun; discriminate Hun.
Qed.

Lemma exec_cases db op : exec db op = db ∨ db_step db op (exec db op).
Proof.
  unfold exec. destruct (run db op) as [db'|] eqn:E; [|by left].
  by destruct (run_step _ _ _ E) as [[-> _]|]; [left|right].
Qed.

Lemma exec_closed db op key r : Inv db → find_plan key db = Some r → unresolved r = false →
  find_plan key (exec db op) = Some r.
Proof.
  intros HI Hf Hun. destruct (exec_cases db op) as [->|Hs]; [done|].
  destruct (step_frame _ _ _ _ _ HI Hs Hf) as [?|(k & r' & e & _ & Hp & _)]; [done|].
  by apply closed_no_step in Hp.
Qed.

Lemma exec_inv db op : Inv db → Inv (exec db op).
Proof.
  intros HI. destruct (exec_cases db op) as [->|Hs]; [done | by eapply step_inv].
Qed.

(** C10: plans end. Every operation that changes a plan's row appends one
    event for that plan, the events of a plan never exceed three per leg of its
    route plus two (so at most eleven), and a reconciled or cancelled row is
    never changed again by any sequence of operations. *)
Theorem plan_terminates db key r : reachable db → find_plan key db = Some r →
  (length (events_of key (events db)) <= 3 * legs_count r + 2)%nat ∧ (legs_count r <= 3)%nat ∧
  (∀ op, find_plan key (exec db op) = Some r ∨
     length (events_of key (events (exec db op))) = S (length (events_of key (events db)))) ∧
  (unresolved r = false → ∀ ops, find_plan key (run_all db ops) = Some r).
Proof.
  intros HI%reachable_inv Hf. destruct (row_at _ _ _ HI Hf) as (Hok & Hh & _).
  split; [rewrite Hh; by apply history_counts|].
  split; [unfold legs_count; destruct (ok_route _ Hok) as [-> | ->]; cbn; lia|]. split.
  - intros op. destruct (exec_cases db op) as [->|Hs]; [by left|].
    destruct (step_frame _ _ _ _ _ HI Hs Hf) as [?|(k & r' & e & _ & _ & -> & He)]; [by left|].
    right. rewrite events_of_snoc, decide_True, length_app by done. cbn. lia.
  - intros Hun ops. revert db HI Hf Hh. induction ops as [|op ops IH]; intros db HI Hf Hh; [done|].
    assert (HI' : Inv (exec db op)) by by apply exec_inv.
    assert (Hf' : find_plan key (exec db op) = Some r) by by apply exec_closed.
    exact (IH (exec db op) HI' Hf' (proj1 (proj2 (row_at _ _ _ HI' Hf')))).

Qed.

(** * An approval that expires *)

(** With [key] approved and its quote expired, no step changes the plans. *)
Lemma expired_step db op db' key r T : Inv db → find_plan key db = Some r → state r = approved →
  quote_checked_at r + seconds 120 < T → T <= to_utc (op_now op) →
  db_step db op db' → plans db' = plans db.
Proof.
  intros HI Hf Hs Hq HT Hstep. destruct (row_at _ _ _ HI Hf) as (_ & _ & Hin).
  assert (Hun : unresolved r = true) by (unfold unresolved; by rewrite Hs).
  pose proof (open_list _ _ Hin Hun (inv_one_open _ HI)) as Hopen.
  destruct Hstep as [| |db p b h now ev Hm _|db op key' r' k f ev _ Hf' Hp _]; try done.
  - exfalso. pose proof (ins_none_open _ _ _ _ _ Hm) as Hno. apply open_none in Hno.
    rewrite Hno in Hopen. discriminate.
  - exfalso. destruct (row_at _ _ _ HI Hf') as (Hok & _ & Hin').
    destruct (plan_step_facts _ _ _ _ _ Hok Hp) as (_ & _ & Hun' & _).
    rewrite (open_list _ _ Hin' Hun' (inv_one_open _ HI)) in Hopen. injection Hopen as ->.
    inversion Hp; try congruence. unfold seconds in *. lia.
Qed.

(** C8: an approval that is not dispatched in time freezes the journal. Once
    an approved plan's quote is more than 120 seconds old, no sequence of later
    operations changes the table of plans: the leg cannot be claimed, approved
    again with a fresh quote, or cancelled, and no other plan can be created. *)
Theorem expired_approval_freezes db key r T ops : reachable db → find_plan key db = Some r →
  state r = approved → quote_checked_at r + seconds 120 < T →
  Forall (λ op, T <= to_utc (op_now op)) ops → plans (run_all db ops) = plans db.
Proof.
  intros HI%reachable_inv Hf Hs Hq Hops. revert db HI Hf.
  induction Hops as [|op ops HT _ IH]; intros db HI Hf; [done|].
  change (run_all db (op :: ops)) with (run_all (exec db op) ops).
  assert (Hp : plans (exec db op) = plans db).
  { destruct (exec_cases db op) as [->|Hstep]; [done|]. by eapply expired_step. }
  rewrite IH; [done | by apply exec_inv |]. unfold find_plan in *. by rewrite Hp.
Qed.

(** * Driving a plan to the end *)

(** The journal runs and [r] is the row of [key]. *)
Definition running_with (db : TreasuryDb) (key : string) (r : PlanRow) : Prop :=
  Inv db ∧ paused db = false ∧ find_plan key db = Some r.

Lemma log_exec db op key r f k body T : running_with db key r →
  row_key (f r) = row_key r →
  run db op = log (update_plan key f db) (Some key) k body (Aware T) →
  running_with (exec db op) key (f r).
Proof.
  intros (HI & Hp & Hf) Hk Hrun. pose proof (exec_inv db op HI) as HI'.
  unfold exec in *. rewrite Hrun in *. unfold log, _event, _timestamp in *.
  cbn [mbind result_bind] in *. destruct (find_plan_elem _ _ _ Hf) as [_ Hkey].
  split; [done|]. split; [done|].
  refine (find_plan_update db key r f _ Hf _). congruence.
Qed.

Lemma fresh_ok age limit : 0 <= age <= limit → fresh age limit = true.
Proof. unfold fresh. intros [? ?]. apply andb_true_iff. split; by apply Z.leb_le. Qed.

Lemma select_found db key r ok msg : find_plan key db = Some r → ok r = true →
  select_plan db key ok msg = Ok r.
Proof. intros Hf Hok. unfold select_plan. rewrite Hf, Hok. reflexivity. Qed.

Lemma in_state_eq r s : state r = s → in_state s r = true.
Proof. apply bool_decide_eq_true_2. Qed.

Lemma leg_exists r : row_ok r → (leg_index r < legs_count r)%nat → ∃ leg, leg_of r = Ok leg.
Proof.
  intros Hok. unfold leg_of, legs_count.
  destruct (ok_route r Hok) as [-> | ->]; cbn; destruct (leg_index r) as [|[|[|]]]; cbn; eauto; lia.
Qed.

(** Nobody is their own reviewer. *)
Definition other_reviewer (op : string) : string := "r" +:+ op.

Lemma other_reviewer_ok op :
  negb (empty (other_reviewer op) || String.eqb (other_reviewer op) op) = true.
Proof.
  apply negb_true_iff, orb_false_iff. split; [reflexivity|].
  apply String.eqb_neq. intros E.
  assert (String.length (other_reviewer op) = S (String.length op)) as Hl by reflexivity.
  rewrite E in Hl. lia.
Qed.

Lemma approve_forward db key r T : running_with db key r → state r = planned →
  0 <= T - to_utc (instructions_observed_at (plan_json r)) <= minutes 30 →
  ∃ op, op_now op = Aware T ∧ running_with (exec db op) key (set_state approved r).
Proof.
  intros Hw Hs Hfresh. exists (Approve key (other_reviewer (operator (plan_json r))) (plan_hash r) (Aware T)).
  split; [done|]. eapply log_exec; [exact Hw | done |].
  cbn [run]. unfold approve. erewrite select_found;
    [|apply Hw | by rewrite in_state_eq, String.eqb_refl].
  cbn [mbind result_bind]. rewrite other_reviewer_ok. cbn [require mbind result_bind].
  change (to_utc (Aware T)) with T. rewrite (fresh_ok _ _ Hfresh). reflexivity.
Qed.

Lemma approve_next_forward db key r T : running_with db key r → state r = awaiting_review →
  ∃ op, op_now op = Aware T ∧ running_with (exec db op) key (set_checks T T (set_state approved r)).
Proof.
  intros Hw Hs. pose proof Hw as (HI & _ & Hf). destruct (row_at _ _ _ HI Hf) as (Hok & _ & _).
  pose proof (ok_phase r Hok) as Hph. rewrite Hs in Hph.
  destruct (leg_exists r Hok) as [leg Hleg]; [lia|].
  exists (ApproveNextLeg key (other_reviewer (operator (plan_json r))) (plan_hash r)
    (payment_instructions_sha256 (intent (plan_json r))) sample_hash (Aware T) (Aware T)).
  split; [done|].
  eapply (log_exec _ _ _ _ (λ r, set_checks T T (set_state approved r))); [exact Hw | done |].
  cbn [run]. unfold approve_next_leg.
  change (hash_text sample_hash) with true. cbn [is_zoned andb require mbind result_bind to_utc].
  rewrite Z.sub_diag. change (fresh 0 (seconds 120)) with true. cbn [require mbind result_bind].
  erewrite select_found; [|exact Hf | by rewrite in_state_eq, String.eqb_refl].
  cbn [mbind result_bind]. rewrite other_reviewer_ok, String.eqb_refl.
  cbn [require mbind result_bind]. rewrite Hleg. reflexivity.
Qed.

Lemma claim_forward db key r T : running_with db key r → state r = approved →
  0 <= T - instructions_checked_at r <= minutes 30 → 0 <= T - quote_checked_at r <= seconds 120 →
  ∃ op, op_now op = Aware T ∧ running_with (exec db op) key (set_state dispatching r).
Proof.
  intros Hw Hs Hi Hq. pose proof Hw as (HI & Hp & Hf). destruct (row_at _ _ _ HI Hf) as (Hok & _ & _).
  pose proof (ok_phase r Hok) as Hph. rewrite Hs in Hph.
  destruct (leg_exists r Hok) as [leg Hleg]; [lia|].
  assert (∃ a, leg_amount r = Some a ∧ (a <=? 0) = false) as (a & Ha & Hpos).
  { unfold leg_amount. destruct (leg_index r) eqn:E.
    - eexists. split; [done|]. apply Z.leb_gt, (ok_source_cap r Hok).
    - destruct (ok_amount r Hok) as (a & Ha & Hpos & _); [lia|]. exists a. split; [done|].
      by apply Z.leb_gt. }
  exists (ClaimLeg key (Aware T)). split; [done|].
  destruct (log_exec db (ClaimLeg key (Aware T)) key r (set_state dispatching) "dispatch_started"
    (JObj [("leg", JStr leg); ("amount_rao", JInt a)]) T Hw eq_refl) as (H1 & H2 & H3); [|done].
  cbn [run]. unfold claim_leg. rewrite Hp. cbn [negb require mbind result_bind].
  rewrite (select_found _ _ _ _ _ Hf (in_state_eq _ _ Hs)). cbn [mbind result_bind].
  rewrite Hleg. cbn [mbind result_bind to_utc].
  rewrite (fresh_ok _ _ Hi), (fresh_ok _ _ Hq), Ha. cbn [require mbind result_bind].
  rewrite Hpos. cbn [require negb mbind result_bind]. unfold log. cbn. done.
Qed.

(** The row after the in-flight leg is finalized with [n] left to move. *)
Definition finalized (r : PlanRow) (n : Z) : PlanRow :=
  if (S (leg_index r) =? legs_count r)%nat then next_leg None (set_state awaiting_gm r)
  else next_leg (Some n) (set_state awaiting_review r).

Lemma last_leg r : row_ok r →
  bool_decide (Some (S (leg_index r)) = length <$> LEGS (row_route r)) =
  (S (leg_index r) =? legs_count r)%nat.
Proof.
  intros Hok. unfold legs_count.
  destruct (ok_route r Hok) as [-> | ->]; cbn; destruct (leg_index r) as [|[|[|]]]; reflexivity.
Qed.

Lemma finalize_forward db key r T : running_with db key r → state r = dispatching →
  ∃ op, op_now op = Aware T ∧ running_with (exec db op) key (finalized r 1).
Proof.
  intros Hw Hs. pose proof Hw as (HI & Hp & Hf). destruct (row_at _ _ _ HI Hf) as (Hok & _ & _).
  pose proof (ok_phase r Hok) as Hph. rewrite Hs in Hph.
  destruct (leg_exists r Hok) as [leg Hleg]; [lia|].
  pose proof (ok_reserved_pos r Hok) as Hres.
  set (n := if (S (leg_index r) =? legs_count r)%nat then None else Some 1).
  exists (FinalizeLeg key leg sample_hash sample_hash n (Aware T)). split; [done|].
  assert (finalized r 1 = next_leg n (set_state (if (S (leg_index r) =? legs_count r)%nat
    then awaiting_gm else awaiting_review) r)) as ->.
  { unfold finalized, n. by destruct (_ =? _)%nat. }
  eapply (log_exec _ _ _ _ (λ x, next_leg n (set_state (if (S (leg_index r) =? legs_count r)%nat
    then awaiting_gm else awaiting_review) x)) "leg_finalized"
    (JObj [("leg", JStr leg); ("extrinsic_hash", JStr sample_hash);
           ("block_hash", JStr sample_hash); ("next_amount_rao", jopt n)])); [exact Hw | done |].
  cbn [run]. unfold finalize_leg. change (hash_text sample_hash) with true.
  cbn [andb require mbind result_bind].
  rewrite (select_found _ _ _ _ _ Hf (in_state_eq _ _ Hs)). cbn [mbind result_bind].
  rewrite Hleg, last_leg by done. cbn [mbind result_bind]. rewrite String.eqb_refl.
  unfold n. destruct (S (leg_index r) =? legs_count r)%nat; cbn [require mbind result_bind orb negb andb].
  - rewrite andb_false_r. reflexivity.
  - assert ((reserved_tao_rao r <? 1) = false) as -> by (apply Z.ltb_ge; lia).
    rewrite andb_false_r. reflexivity.
Qed.

Lemma reconcile_forward db key r T : running_with db key r → state r = awaiting_gm →
  ∃ op, op_now op = Aware T ∧ running_with (exec db op) key (set_state reconciled_state r).
Proof.
  intros Hw Hs. pose proof Hw as (HI & Hp & Hf).
  set (b := gm_balance_before_nano_usd (plan_json r)). set (d := Z.max 1 (1 - b)).
  exists (ReconcileGm key b (b + d) d 0 "deposit" (other_reviewer (operator (plan_json r))) (Aware T)).
  split; [done|]. eapply log_exec; [exact Hw | done |].
  cbn [run]. unfold reconcile_gm.
  assert ((d <=? 0) = false) as -> by (apply Z.leb_gt; lia).
  assert ((b + d <? 0) = false) as -> by (apply Z.ltb_ge; lia).
  assert ((b + d =? b + d - 0) = true) as -> by (apply Z.eqb_eq; lia).
  change (empty "deposit") with false. change (0 <? 0) with false.
  pose proof (other_reviewer_ok (operator (plan_json r))) as Hrev.
  apply negb_true_iff, orb_false_iff in Hrev as [He Hne]. rewrite He.
  cbn [orb negb require mbind result_bind].
  rewrite (select_found _ _ _ _ _ Hf (in_state_eq _ _ Hs)). cbn [mbind result_bind].
  fold b. rewrite Z.eqb_refl, Hne. reflexivity.
Qed.

(** Operations at [T] take the plan from here to reconciliation. *)
Definition completes (db : TreasuryDb) (key : string) (T : Z) : Prop :=
  ∃ ops, Forall (λ op, op_now op = Aware T) ops ∧
    state <$> find_plan key (run_all db ops) = Some reconciled_state.

Lemma completes_after db op key T : op_now op = Aware T → completes (exec db op) key T →
  completes db key T.
Proof. intros Hop (ops & Hops & Hend). exists (op :: ops). split; [by constructor | exact Hend]. Qed.

Lemma credit_completes db key r T : running_with db key r → state r = awaiting_gm →
  completes db key T.
Proof.
  intros Hw Hs. destruct (reconcile_forward _ _ _ T Hw Hs) as (op & E & _ & _ & Hf).
  exists [op]. split; [by repeat constructor|]. change (run_all db [op]) with (exec db op). by rewrite Hf.
Qed.

Lemma flight_completes db key r T : running_with db key r → state r = dispatching →
  (∀ db' r', running_with db' key r' → state r' = awaiting_review →
     legs_count r' = legs_count r → leg_index r' = S (leg_index r) → completes db' key T) →
  completes db key T.
Proof.
  intros Hw Hs Hreview. destruct (finalize_forward _ _ _ T Hw Hs) as (op & E & Hw').
  apply (completes_after _ op); [done|]. unfold finalized in Hw'.
  destruct (S (leg_index r) =? legs_count r)%nat.
  - by apply (credit_completes _ _ _ T Hw').
  - by apply (Hreview _ _ Hw').
Qed.

Lemma approved_completes n db key r T : running_with db key r → state r = approved →
  (legs_count r - leg_index r <= n)%nat →
  0 <= T - instructions_checked_at r <= minutes 30 → 0 <= T - quote_checked_at r <= seconds 120 →
  completes db key T.
Proof.
  revert db r. induction n as [|n IH]; intros db r Hw Hs Hn Hi Hq;
    pose proof Hw as (HI & _ & Hf); destruct (row_at _ _ _ HI Hf) as (Hok & _ & _);
    pose proof (ok_phase r Hok) as Hph; rewrite Hs in Hph; [lia|].
  destruct (claim_forward _ _ _ T Hw Hs Hi Hq) as (op1 & E1 & Hw1).
  apply (completes_after _ op1 _ _ E1), (flight_completes _ _ _ T Hw1 eq_refl).
  intros db' r' Hw2 Hs2 Hlen Hidx.
  change (legs_count (set_state dispatching r)) with (legs_count r) in Hlen.
  cbn [leg_index set_state] in Hidx.
  destruct (approve_next_forward _ _ _ T Hw2 Hs2) as (op3 & E3 & Hw3).
  apply (completes_after _ op3 _ _ E3), (IH _ _ Hw3 eq_refl).
  - change (legs_count (set_checks _ _ _)) with (legs_count r'). cbn [leg_index set_checks set_state]. lia.
  - cbn [instructions_checked_at set_checks]. unfold minutes, seconds. lia.
  - cbn [quote_checked_at set_checks]. unfold seconds. lia.
Qed.

Lemma review_completes db key r T : running_with db key r → state r = awaiting_review →
  completes db key T.
Proof.
  intros Hw Hs. destruct (approve_next_forward _ _ _ T Hw Hs) as (op & E & Hw').
  apply (completes_after _ op _ _ E), (approved_completes _ _ _ _ _ Hw' eq_refl (le_n _));
    cbn [instructions_checked_at quote_checked_at set_checks]; unfold minutes, seconds; lia.
Qed.

(** A plan's next step needs no quote or instructions that may already have
    expired at [T]. *)
Definition in_time (r : PlanRow) (T : Z) : Prop :=
  match state r with
  | planned => 0 <= T - to_utc (instructions_observed_at (plan_json r)) <= minutes 30 ∧
      0 <= T - instructions_checked_at r <= minutes 30 ∧ 0 <= T - quote_checked_at r <= seconds 120
  | approved =>
      0 <= T - instructions_checked_at r <= minutes 30 ∧ 0 <= T - quote_checked_at r <= seconds 120
  | _ => True
  end.

(** C9: an open plan can be completed. While the journal is not paused, a
    plan that is neither reconciled nor cancelled, and is not a proposal or an
    approval whose quote or instructions have expired, can be driven to
    reconciliation by operations at one instant: there is always a next call
    that succeeds, on both routes and from every state. *)
Theorem open_plan_completes db key r T :
  reachable db → paused db = false → find_plan key db = Some r → unresolved r = true →
  in_time r T →
  ∃ ops, Forall (λ op, op_now op = Aware T) ops ∧
    state <$> find_plan key (run_all db ops) = Some reconciled_state.
Proof.
  intros HI%reachable_inv Hp Hf Hun Ht. assert (Hw : running_with db key r) by done.
  change (completes db key T). unfold in_time in Ht. unfold unresolved in Hun.
  destruct (state r) eqn:Hs; try discriminate Hun.
  - destruct Ht as (H1 & H2 & H3). destruct (approve_forward _ _ _ T Hw Hs H1) as (op & E & Hw').
    by apply (completes_after _ op _ _ E), (approved_completes _ _ _ _ T Hw' eq_refl (le_n _)).
  - destruct Ht as [H2 H3]. by apply (approved_completes _ _ _ _ T Hw Hs (le_n _)).
  - apply (flight_completes _ _ _ T Hw Hs). intros db' r' Hw' Hs' _ _. by apply (review_completes _ _ _ T Hw').
  - by apply (review_completes _ _ _ T Hw).
  - by apply (credit_completes _ _ _ T Hw).
Qed.
End progress.

(** * By evaluation *)

#[local] Existing Instance sample_sha256.
#[local] Existing Instance utc_host.

Lemma plan_terminates_witness :
  (length (events_of "payment-1" (events (sample_db 5))) <= 8)%nat.
Proof.
  exact (proj1 (plan_terminates (sample_db 5) "payment-1" _ (sample_reachable 5)
    (proj2 sample_found))).
Defined.

(** Two minutes later nothing helps the approved payment. *)
Definition late : datetime := Aware (seconds 121).
Lemma expired_approval_freezes_witness :
  plans (run_all (sample_db 4) [ClaimLeg "payment-1" late; Cancel "payment-1" "ops" sample_why late;
    Approve "payment-1" "rev" sample_plan_hash late; CreatePlan sample_plan sample_bounds late]) =
  plans (sample_db 4).
Proof.
  apply (expired_approval_freezes (sample_db 4) "payment-1" (set_state approved sample_row)
    (seconds 121)).
  - apply sample_reachable.
  - exact (proj1 sample_found).
  - reflexivity.
  - reflexivity.
  - repeat constructor; vm_compute; discriminate.
Defined.

Lemma open_plan_completes_witness :
  ∃ ops, Forall (λ op, op_now op = Aware 60) ops ∧
    state <$> find_plan "payment-1" (run_all (sample_db 4) ops) = Some reconciled_state.
Proof.
  apply (open_plan_completes (sample_db 4) "payment-1" (set_state approved sample_row) 60).
  - apply sample_reachable.
  - vm_compute. reflexivity.
  - exact (proj1 sample_found).
  - reflexivity.
  - vm_compute. repeat split; discriminate.
Defined.
