(* ===== verification/TreasuryRefinement.v ===== *)
(** What the treasury journal promises its callers, with no tables: an account
    of unspent alpha and at most one payment, moving through its legs one
    approval, one dispatch and one settlement at a time.  Each transition of
    the account is labelled with the request it answers.  The journal refines
    it: [payment_account] maps tables to accounts, [request] maps an operation
    to its label, an operation that succeeds is the transition with its label,
    and only a repeated [create_plan] succeeds without one. *)
From Stdlib Require Import ZArith Lia.
From stdpp Require Import base list strings sets sorting.
From S2P Require Import Prelude PyText Journal TreasuryStore TreasurySafety.

#[local] Open Scope string_scope.
#[local] Open Scope list_scope.
#[local] Open Scope Z_scope.

(** * The account *)

(** Where the payment stands; a leg is its number on the route. *)
Inductive Phase :=
  | Proposed
  | Approved (leg : nat)
  | InFlight (leg : nat)
  | Settled (legs : nat)
  | AwaitingCredit.

Record Payment := {
  pay_key : string;
  pay_alpha : Z;
  pay_legs : nat;
  pay_phase : Phase
}.
Definition at_phase (p : Payment) (ph : Phase) : Payment := {|
  pay_key := pay_key p; pay_alpha := pay_alpha p; pay_legs := pay_legs p; pay_phase := ph |}.

Record Account := {
  running : bool;
  unspent : Z;
  payment : option Payment
}.

(** No payment is at a stage where money may be moving. *)
Definition quiescent (a : Account) : Prop :=
  match pay_phase <$> payment a with
  | Some (InFlight _) | Some AwaitingCredit => False
  | _ => True
  end.

(** What a caller asks of the account; a payment is named by its key. *)
Inductive Request :=
  | Fund (alpha : Z)
  | Halt
  | Resume
  | Propose (key : string) (alpha : Z)
  | ApprovePayment (key : string)
  | ApproveNext (key : string)
  | Dispatch (key : string)
  | Settle (key : string)
  | Credit (key : string)
  | Withdraw (key : string).

Inductive account_step : Account → Request → Account → Prop :=
  | fund a alpha : 0 <= alpha → account_step a (Fund alpha)
      {| running := running a; unspent := unspent a + alpha; payment := payment a |}
  | halt a : account_step a Halt
      {| running := false; unspent := unspent a; payment := payment a |}
  | resume a : quiescent a → account_step a Resume
      {| running := true; unspent := unspent a; payment := payment a |}
  | propose u key alpha n : 0 < alpha <= u → (0 < n)%nat →
      account_step {| running := true; unspent := u; payment := None |} (Propose key alpha)
        {| running := true; unspent := u - alpha; payment := Some
             {| pay_key := key; pay_alpha := alpha; pay_legs := n; pay_phase := Proposed |} |}
  | approve_first b u p : pay_phase p = Proposed →
      account_step {| running := b; unspent := u; payment := Some p |} (ApprovePayment (pay_key p))
        {| running := b; unspent := u; payment := Some (at_phase p (Approved 0)) |}
  | approve_leg b u p leg : pay_phase p = Settled leg →
      account_step {| running := b; unspent := u; payment := Some p |} (ApproveNext (pay_key p))
        {| running := b; unspent := u; payment := Some (at_phase p (Approved leg)) |}
  | dispatch u p leg : pay_phase p = Approved leg →
      account_step {| running := true; unspent := u; payment := Some p |} (Dispatch (pay_key p))
        {| running := true; unspent := u; payment := Some (at_phase p (InFlight leg)) |}
  | settle b u p leg : pay_phase p = InFlight leg → (S leg < pay_legs p)%nat →
      account_step {| running := b; unspent := u; payment := Some p |} (Settle (pay_key p))
        {| running := b; unspent := u; payment := Some (at_phase p (Settled (S leg))) |}
  | settle_last b u p leg : pay_phase p = InFlight leg → S leg = pay_legs p →
      account_step {| running := b; unspent := u; payment := Some p |} (Settle (pay_key p))
        {| running := b; unspent := u; payment := Some (at_phase p AwaitingCredit) |}
  | credit b u p : pay_phase p = AwaitingCredit →
      account_step {| running := b; unspent := u; payment := Some p |} (Credit (pay_key p))
        {| running := b; unspent := u; payment := None |}
  | withdraw b u p : pay_phase p = Proposed →
      account_step {| running := b; unspent := u; payment := Some p |} (Withdraw (pay_key p))
        {| running := b; unspent := u + pay_alpha p; payment := None |}.

(** * The map *)

Definition phase_of (r : PlanRow) : Phase :=
  match state r with
  | planned => Proposed
  | approved => Approved (leg_index r)
  | dispatching => InFlight (leg_index r)
  | awaiting_review => Settled (leg_index r)
  | _ => AwaitingCredit
  end.
Definition payment_of (r : PlanRow) : Payment := {|
  pay_key := row_key r; pay_alpha := row_source_alpha_rao r; pay_legs := legs_count r;
  pay_phase := phase_of r |}.
Definition open_payment (rows : list PlanRow) : option Payment :=
  payment_of <$> head (filter (λ r, unresolved r = true) rows).
Definition payment_account (db : TreasuryDb) : Account := {|
  running := negb (paused db);
  unspent := allocated db - live_source (plans db);
  payment := open_payment (plans db) |}.

(** The request an operation makes of the account. *)
Definition request (op : Op) : Request :=
  match op with
  | RecordAllocation a _ => Fund (gm_alpha_rao a)
  | SetPause pause _ _ _ _ => if pause then Halt else Resume
  | CreatePlan p _ _ => Propose (idempotency_key (intent p)) (source_alpha_rao (intent p))
  | Approve key _ _ _ => ApprovePayment key
  | ApproveNextLeg key _ _ _ _ _ _ => ApproveNext key
  | ClaimLeg key _ => Dispatch key
  | FinalizeLeg key _ _ _ _ _ => Settle key
  | ReconcileGm key _ _ _ _ _ _ _ => Credit key
  | Cancel key _ _ _ => Withdraw key
  end.

Section refinement.
Context {SH : Sha256} {LZ : LocalZone}.

Lemma open_payment_app l1 l2 : filter (λ r, unresolved r = true) l1 = [] →
  open_payment (l1 ++ l2) = open_payment l2.
Proof. intros H. unfold open_payment. by rewrite filter_app, H. Qed.

Lemma open_payment_cons r l : filter (λ r, unresolved r = true) l = [] →
  open_payment (r :: l) =
  if unresolved r then Some (payment_of r) else None.
Proof.
  intros H. unfold open_payment. rewrite filter_cons, H.
  destruct (decide _) as [->|Hn]; [done|]. by destruct (unresolved r).
Qed.

Lemma around_open (l1 l2 : list PlanRow) r : unresolved r = true →
  (length (filter (λ r, unresolved r = true) (l1 ++ r :: l2)) <= 1)%nat →
  filter (λ r, unresolved r = true) l1 = [] ∧ filter (λ r, unresolved r = true) l2 = [].
Proof.
  intros Hr. rewrite filter_app, filter_cons, length_app, decide_True by done. cbn [length].
  intros H. split; apply length_zero_iff_nil; lia.
Qed.

(** The requests of the plan operations, by the kind of event they write. *)
Definition plan_request (key kind : string) : option Request :=
  if String.eqb kind "approved" then Some (ApprovePayment key)
  else if String.eqb kind "next_leg_approved" then Some (ApproveNext key)
  else if String.eqb kind "dispatch_started" then Some (Dispatch key)
  else if String.eqb kind "leg_finalized" then Some (Settle key)
  else if String.eqb kind "gm_reconciled" then Some (Credit key)
  else if String.eqb kind "cancelled" then Some (Withdraw key) else None.

Lemma op_request op key kind : op_event op = Some (key, kind) →
  plan_request key kind = Some (request op).
Proof. destruct op; intros [= <- <-]; done. Qed.

Lemma plan_step_account p now r k r' u q : row_ok r → plan_step p now r k r' →
  plan_request (row_key r) k = Some q →
  account_step {| running := negb p; unspent := u; payment := Some (payment_of r) |} q
    {| running := negb p;
       unspent := u + row_source_alpha_rao r - (if live r' then row_source_alpha_rao r' else 0);
       payment := if unresolved r' then Some (payment_of r') else None |}.
Proof.
  intros Hok Hs. pose proof (ok_phase r Hok) as Hph.
  assert (Hpay : ∀ s, state r = s → pay_phase (payment_of r) = phase_of (set_state s r)).
  { intros s <-. done. }
  destruct Hs as [r rv E|r rv q' E|r leg a Hp E|r leg n E _ Hn|r leg E _ Hn|r rv E|r E];
    rewrite E in Hph; specialize (Hpay _ E); intros [= <-];
    cbn -[Z.add Z.sub payment_of]; rewrite ?Z.add_simpl_r, ?Z.sub_0_r.
  - replace (payment_of (set_state approved r)) with (at_phase (payment_of r) (Approved 0))
      by (unfold payment_of, at_phase, phase_of; cbn; by rewrite Hph).
    by apply (approve_first _ _ (payment_of r)).
  - by apply (approve_leg _ _ (payment_of r) (leg_index r)).
  - rewrite Hp. by apply (dispatch _ (payment_of r) (leg_index r)).
  - apply (settle _ _ (payment_of r) (leg_index r)); [done|]. cbn in *. lia.
  - by apply (settle_last _ _ (payment_of r) (leg_index r)).
  - by apply (credit _ _ (payment_of r)).
  - by apply (withdraw _ _ (payment_of r)).
Qed.

Lemma fund_account db a ev : alloc_ok a →
  account_step (payment_account db) (Fund (gm_alpha_rao a)) (payment_account
    {| paused := paused db; reason := reason db; plans := plans db;
       allocations := allocations db ++ [a]; events := ev |}).
Proof.
  intros (_ & Hg & _). pose proof (fund (payment_account db) (gm_alpha_rao a) Hg) as H.
  unfold payment_account, allocated in *. cbn [running unspent payment paused plans allocations] in *.
  rewrite fmap_app, sum_Z_app. cbn [fmap list_fmap sum_Z].
  by replace (sum_Z (gm_alpha_rao <$> allocations db) + (gm_alpha_rao a + 0) - live_source (plans db))
    with (sum_Z (gm_alpha_rao <$> allocations db) - live_source (plans db) + gm_alpha_rao a) by lia.
Qed.

Lemma open_payment_quiescent db :
  Forall (λ r, state r ≠ dispatching ∧ state r ≠ awaiting_gm) (plans db) →
  quiescent (payment_account db).
Proof.
  intros H. unfold quiescent, payment_account, open_payment. cbn [payment].
  destruct (filter _ (plans db)) as [|r l] eqn:E; [done|].
  assert (r ∈ filter (λ r, unresolved r = true) (plans db)) as [Hun Hr]%list_elem_of_filter
    by (rewrite E; apply list_elem_of_here).
  rewrite Forall_forall in H. destruct (H r Hr) as [H1 H2].
  unfold unresolved in Hun. cbn. unfold phase_of. destruct (state r); done.
Qed.

Lemma pause_account db p (why : string) ev n (rv : option string) (o : string) :
  (p = false → n ∧ Forall (λ r, state r ≠ dispatching ∧ state r ≠ awaiting_gm) (plans db) ∧
     ∃ r, rv = Some r ∧ r ≠ "" ∧ r ≠ o) →
  account_step (payment_account db) (if p then Halt else Resume) (payment_account
    {| paused := p; reason := why; plans := plans db;
       allocations := allocations db; events := ev |}).
Proof.
  intros Hp. destruct p; [exact (halt (payment_account db))|].
  destruct (Hp eq_refl) as (_ & Hq & _). exact (resume _ (open_payment_quiescent db Hq)).
Qed.

Lemma create_account db p b h now ev : may_insert db p b h now → Inv db →
  account_step (payment_account db) (Propose (idempotency_key (intent p)) (source_alpha_rao (intent p)))
    (payment_account
      {| paused := paused db; reason := reason db; plans := plans db ++ [new_row p h now];
         allocations := allocations db; events := ev |}).
Proof.
  intros Hm HI. pose proof (allocated_up_to_le db (policy_revision (intent p)) (inv_allocations _ HI)).
  destruct Hm as [Hrun _ _ Hno Hroute Hsrc _ _ _ Hbud _ _]. apply open_none in Hno.
  unfold payment_account. cbn [paused plans allocations].
  rewrite Hrun, (open_payment_app _ [_]) by done.
  replace (open_payment (plans db)) with (@None Payment)
    by (unfold open_payment; by rewrite Hno).
  rewrite live_source_app, live_source_one by (cbn; lia).
  change (live (new_row p h now)) with true. unfold allocated in *. cbn [allocations].
  rewrite Z.sub_add_distr. apply propose.
  - cbn [row_source_alpha_rao new_row]. unfold reserved_source in *. unfold live_source. lia.
  - cbn. unfold legs_count. cbn. destruct Hroute as [E|E]; rewrite E; cbn; lia.
Qed.

Lemma plan_account db key r k f now ev q : Inv db → find_plan key db = Some r →
  plan_step (paused db) now r k (f r) → plan_request key k = Some q →
  account_step (payment_account db) q (payment_account
    {| paused := paused db; reason := reason db; plans := plans (update_plan key f db);
       allocations := allocations db; events := ev |}).
Proof.
  intros HI Hf Hs Hq. destruct (find_plan_split _ _ _ Hf (inv_keys _ HI)) as (Hkey & l1 & l2 & Hl & Hu).
  destruct (row_at _ _ _ HI Hf) as (Hok & _ & _).
  destruct (plan_step_facts _ _ _ _ _ Hok Hs) as (Hok' & _ & Hun & Hlive & Hsrc).
  pose proof (inv_one_open _ HI) as Hone. rewrite Hl in Hone.
  destruct (around_open _ _ _ Hun Hone) as [H1 H2].
  pose proof (ok_source_cap _ Hok). pose proof (ok_source_cap _ Hok').
  unfold payment_account, allocated. cbn [paused plans allocations]. rewrite Hu, Hl.
  rewrite !open_payment_app, !open_payment_cons, Hun by done.
  change (l1 ++ r :: l2) with (l1 ++ [r] ++ l2). change (l1 ++ f r :: l2) with (l1 ++ [f r] ++ l2).
  rewrite !live_source_app, !live_source_one, Hlive by lia.
  set (u := sum_Z (gm_alpha_rao <$> allocations db) -
            (live_source l1 + (row_source_alpha_rao r + live_source l2))).
  rewrite <- Hkey in Hq. pose proof (plan_step_account _ _ _ _ _ u q Hok Hs Hq) as Hstep.
  match goal with |- account_step _ _ {| running := _; unspent := ?v; payment := _ |} =>
    replace v with (u + row_source_alpha_rao r - (if live (f r) then row_source_alpha_rao (f r) else 0))
      by (unfold u; destruct (live (f r)); lia) end.
  exact Hstep.
Qed.

(** C7: the journal implements the payment account. On every reachable file, an
    operation that succeeds is the transition of the account that its request
    labels - funding, halting and resuming, proposing, approving, dispatching,
    settling, crediting or withdrawing the payment of that key - or is a
    repeated [create_plan], which finds its own plan in the file and changes
    nothing; an operation that fails leaves the file as it was. What is unspent
    is never negative, and the account of the initial file is halted and empty. *)
Theorem journal_refines_account db op : reachable db →
  payment_account initial_db = {| running := false; unspent := 0; payment := None |} ∧
  0 <= unspent (payment_account db) ∧
  match run db op with
  | Ok db' => exec db op = db' ∧
      (account_step (payment_account db) (request op) (payment_account db') ∨
       db' = db ∧ replayed db op)
  | Err _ => exec db op = db
  end.
Proof.
  intros HI%reachable_inv. split; [done|].
  split; [pose proof (inv_budget _ HI); cbn [unspent payment_account]; lia|]. unfold exec.
  destruct (run db op) as [db'|] eqn:Hrun; [|done]. split; [done|].
  destruct (run_step _ _ _ Hrun) as [?|Hs]; [by right|]. left.
  destruct Hs as [db a now ev Ha _ _|db p o why now rv ev Hp _|db p b h now ev Hm _|
    db op key r k f ev Hop Hf Hs _].
  - by apply fund_account.
  - by eapply pause_account.
  - by eapply create_account.
  - eapply plan_account; [done | exact Hf | exact Hs | by apply op_request].
Qed.
End refinement.

#[local] Existing Instance sample_sha256.
#[local] Existing Instance utc_host.

(** In the sample run, the claim of the approved leg is a [Dispatch] of the
    payment. *)
Lemma journal_refines_account_witness :
  match run (sample_db 4) (ClaimLeg "payment-1" (Aware 0)) with
  | Ok db' => account_step (payment_account (sample_db 4)) (Dispatch "payment-1") (payment_account db')
  | Err _ => False
  end.
Proof.
  generalize (sample_reachable 4).
  assert (match run (sample_db 4) (ClaimLeg "payment-1" (Aware 0)) with
    Ok _ => true | Err _ => false end = true) as Hok by (vm_compute; reflexivity).
  revert Hok. generalize (sample_db 4). intros db Hok Hdb.
  destruct (journal_refines_account db (ClaimLeg "payment-1" (Aware 0)) Hdb) as (_ & _ & H).
  destruct (run db _) as [db'|e]; [|discriminate Hok].
  destruct H as [_ [H | [_ (p & b & n & r & E & _)]]]; [exact H | discriminate E].
Defined.
