(* ===== verification/CapacityPolicy.v ===== *)
(** The screening capacity policy of
    [services/screener-orchestrator/screener_capacity/controller.py]: demand,
    the provider routing Platform serves and its cached form, and the GCE
    target.

    A decoded JSON value is a [JsonValue]; [str] of a number with a fraction, a
    list or a dict is a parameter, the rest of Python's conversions are
    written out. *)
From Stdlib Require Import ZArith Lia Ascii.
From stdpp Require Import base list strings pretty.
From S2P Require Import Prelude Binary64 PyText.

#[local] Open Scope string_scope.
#[local] Open Scope list_scope.
#[local] Open Scope Z_scope.

(** * Decoded JSON *)

Inductive JsonValue :=
  | VNone
  | VBool (b : bool)
  | VInt (i : Z)
  | VFloat (x : F64)
  | VStr (s : string)
  | VList (l : list JsonValue)
  | VDict (d : list (string * JsonValue)).

(** [value.get(key)] and [value[key]] *)
Definition get_key (key : string) (d : list (string * JsonValue)) : JsonValue :=
  default VNone (dict_get key d).
Definition item (key : string) (d : list (string * JsonValue)) : result JsonValue :=
  match dict_get key d with Some v => Ok v | None => Err (KeyError key) end.

Definition truthy (v : JsonValue) : bool :=
  match v with
  | VNone => false | VBool b => b | VInt i => negb (i =? 0)
  | VFloat x => negb (feqb x (Fin 0)) | VStr s => negb (String.eqb s "")
  | VList l => negb (length l =? 0)%nat | VDict d => negb (length d =? 0)%nat
  end.

(** [isinstance(v, int)]: a bool is one. *)
Definition as_int (v : JsonValue) : option Z :=
  match v with VInt i => Some i | VBool b => Some (Z.b2z b) | _ => None end.
(** An int that is not a bool. *)
Definition strict_int (v : JsonValue) : option Z :=
  match v with VInt i => Some i | _ => None end.

(** Decimal digits, single underscores between them. *)
Fixpoint digits (acc : Z) (seen : bool) (s : string) : option Z :=
  match s with
  | EmptyString => if seen then Some acc else None
  | String c s' =>
      if between 48 (code c) 57 then digits (10 * acc + (code c - 48)) true s'
      else if (code c =? 95) && seen then
        match s' with
        | String c' _ => if between 48 (code c') 57 then digits acc false s' else None
        | EmptyString => None
        end
      else None
  end.
Definition rstrip (s : string) : string := String.rev (lstrip (String.rev s)).
(** [int(s)] of a string. *)
Definition int_of_string (s : string) : option Z :=
  match rstrip (lstrip s) with
  | String c s' =>
      if code c =? 45 then Z.opp <$> digits 0 false s'
      else if code c =? 43 then digits 0 false s' else digits 0 false (String c s')
  | EmptyString => None
  end.

(** [int(v)] *)
Definition py_int (v : JsonValue) : result Z :=
  match v with
  | VInt i => Ok i
  | VBool b => Ok (Z.b2z b)
  | VFloat (Fin m) => Ok (Z.quot m f64_one)
  | VFloat NaN => Err (ValueError "cannot convert float NaN to integer")
  | VFloat _ => Err (OverflowError "cannot convert float infinity to integer")
  | VStr s => match int_of_string s with
              | Some i => Ok i | None => Err (ValueError "invalid literal for int()") end
  | _ => Err (TypeError "int() argument")
  end.

(** [math.ceil(x)] *)
Definition math_ceil (x : F64) : result Z :=
  match x with
  | Fin m => Ok (- ((- m) / f64_one))
  | NaN => Err (ValueError "cannot convert float NaN to integer")
  | _ => Err (OverflowError "cannot convert float infinity to integer")
  end.

(** * Demand *)

Record Demand := { runnable : Z; active : Z; desired : Z }.
Record ProviderCounts := { healthy : Z; pending : Z; draining : Z }.
Definition supplied (c : ProviderCounts) : Z := healthy c + pending c.

Definition desired_slots (runnable active jobs_per_slot cap : Z) : result Z :=
  require (negb ((Z.min (Z.min runnable active) cap <? 0) || (jobs_per_slot <? 1)))
    (ValueError "capacity inputs are out of range");;
  math_ceil (int_truediv runnable jobs_per_slot) ≫= λ catch_up,
  Ok (Z.min cap (active + catch_up)).

(** [PlatformControl.demand], from the two counts Platform reports. *)
Definition demand (waiting screening jobs_per_slot cap : Z) : result Demand :=
  desired_slots waiting screening jobs_per_slot cap ≫= λ d,
  Ok {| runnable := waiting; active := screening; desired := d |}.

Definition gce_capacity_target (demand : Z) : Z := demand.

(** * Routing *)

Record OverflowPolicy := {
  enabled : bool;
  primary_node_id : option string;
  backlog_multiplier : Z;
  min_backlog : Z;
  max_instances : Z
}.
Record ProviderRouting := {
  routing_revision : Z;
  runtime_provider_priority : list string;
  source_review_provider_priority : list string;
  build_provider_priority : list string;
  overflow : OverflowPolicy
}.

#[global] Instance OverflowPolicy_eq_dec : EqDecision OverflowPolicy.
Proof. solve_decision. Defined.
#[global] Instance ProviderRouting_eq_dec : EqDecision ProviderRouting.
Proof. solve_decision. Defined.

Definition default_overflow : OverflowPolicy := {|
  enabled := false; primary_node_id := None; backlog_multiplier := 3; min_backlog := 12;
  max_instances := 6 |}.

Definition priorities (r : ProviderRouting) : list (list string) :=
  [build_provider_priority r; runtime_provider_priority r; source_review_provider_priority r].
(** [priority and priority[0] == provider] *)
Definition leads (provider : string) (priority : list string) : bool :=
  bool_decide (head priority = Some provider).
Definition gcp_first (r : ProviderRouting) : bool := existsb (leads "gcp") (priorities r).
Definition hetzner_first (r : ProviderRouting) : bool := forallb (leads "hetzner") (priorities r).

Definition providers : list string := ["hetzner"; "targon"; "gcp"].

(** [priority(field)] inside [_parse_provider_routing]. *)
Definition provider_name (v : JsonValue) : option string :=
  match v with VStr s => if bool_decide (s ∈ providers) then Some s else None | _ => None end.
Definition parse_priority (values : list (string * JsonValue)) (field : string)
    : result (list string) :=
  match get_key field values with
  | VList raw =>
      match mapM provider_name raw with
      | Some names =>
          if negb (length names =? 0)%nat && bool_decide (NoDup names) &&
             bool_decide ("gcp" ∈ names)
          then Ok names else Err (ControllerError "Platform provider priority is invalid")
      | None => Err (ControllerError "Platform provider priority is invalid")
      end
  | _ => Err (ControllerError "Platform provider priority is invalid")
  end.

(** [str] of what is neither a string, an int, a bool nor None. *)
Class PyRepr := other_str : JsonValue → string.

Section routing.
Context {PR : PyRepr}.

Definition py_str (v : JsonValue) : string :=
  match v with
  | VStr s => s
  | VInt i => pretty i
  | VBool b => if b then "True" else "False"
  | VNone => "None"
  | _ => other_str v
  end.

(** The policy part, whose conversion failures become one error. *)
Definition read_overflow (values : list (string * JsonValue)) : result OverflowPolicy :=
  item "gce_overflow_enabled" values ≫= λ on,
  (match get_key "primary_node_id" values with
   | VNone => Ok None | v => Ok (Some (py_str v)) end) ≫= λ primary,
  item "gce_overflow_backlog_multiplier" values ≫= λ multiplier, py_int multiplier ≫= λ multiplier,
  item "gce_overflow_min_backlog" values ≫= λ backlog, py_int backlog ≫= λ backlog,
  item "gce_overflow_max_instances" values ≫= λ instances, py_int instances ≫= λ instances,
  Ok {| enabled := truthy on; primary_node_id := primary; backlog_multiplier := multiplier;
        min_backlog := backlog; max_instances := instances |}.

Definition overflow_in_range (o : OverflowPolicy) : bool :=
  (2 <=? backlog_multiplier o) && (backlog_multiplier o <=? 20) &&
  (1 <=? min_backlog o) && (min_backlog o <=? 1000) &&
  (0 <=? max_instances o) && (max_instances o <=? 32) &&
  negb (enabled o && match primary_node_id o with Some s => String.eqb s "" | None => true end).

Definition _parse_provider_routing (body : JsonValue) : result ProviderRouting :=
  match body with
  | VDict body =>
      match as_int (get_key "revision" body), get_key "settings" body with
      | Some revision, VDict values =>
          require (0 <=? revision)
            (ControllerError "Platform provider settings response is invalid");;
          match read_overflow values with
          | Err _ => Err (ControllerError "Platform overflow settings are invalid")
          | Ok overflow =>
              require (overflow_in_range overflow)
                (ControllerError "Platform overflow settings are invalid");;
              parse_priority values "runtime_provider_priority" ≫= λ runtime,
              parse_priority values "source_review_provider_priority" ≫= λ source_review,
              parse_priority values "build_provider_priority" ≫= λ build,
              Ok {| routing_revision := revision; runtime_provider_priority := runtime;
                    source_review_provider_priority := source_review;
                    build_provider_priority := build; overflow := overflow |}
          end
      | _, _ => Err (ControllerError "Platform provider settings response is invalid")
      end
  | _ => Err (ControllerError "Platform provider settings response is invalid")
  end.

Definition _routing_from_state (value : JsonValue) : option ProviderRouting :=
  match _parse_provider_routing value with Ok r => Some r | Err _ => None end.
End routing.

Definition _routing_to_state (r : ProviderRouting) : JsonValue :=
  let o := overflow r in
  VDict [("revision", VInt (routing_revision r));
    ("settings", VDict [
       ("runtime_provider_priority", VList (VStr <$> runtime_provider_priority r));
       ("source_review_provider_priority", VList (VStr <$> source_review_provider_priority r));
       ("build_provider_priority", VList (VStr <$> build_provider_priority r));
       ("gce_overflow_enabled", VBool (enabled o));
       ("primary_node_id", match primary_node_id o with Some s => VStr s | None => VNone end);
       ("gce_overflow_backlog_multiplier", VInt (backlog_multiplier o));
       ("gce_overflow_min_backlog", VInt (min_backlog o));
       ("gce_overflow_max_instances", VInt (max_instances o))])].

(** * The GCE target *)

(** What a row says of a boolean key: absent (or null), a bool, anything else. *)
Inductive Flag := Unset | Bool (b : bool) | OtherValue.

#[global] Instance Flag_eq_dec : EqDecision Flag.
Proof. solve_decision. Defined.

(** A row of the node inventory, the keys the controller reads. *)
Record NodeRow := {
  node_id : string;
  provider_resource_id : string;
  provider : option string;
  status : option string;
  ready : Flag;
  screening_concurrency : option Z;
  admission_open : Flag;
  active_lease : Flag;
  instance_busy : Flag;
  heartbeat_seen_at : string
}.

#[global] Instance NodeRow_eq_dec : EqDecision NodeRow.
Proof. solve_decision. Defined.

(** The primary's admission as the target reads it: the field, else what an
    older Platform implies by its concurrency. *)
Definition admission (primary : option NodeRow) : Flag :=
  match primary with
  | None => Unset
  | Some row =>
      match admission_open row, screening_concurrency row with
      | Unset, Some c => Bool (0 <? c)
      | a, _ => a
      end
  end.
Definition primary_ready (primary : option NodeRow) : bool :=
  match primary with
  | Some row => bool_decide (status row = Some "active") && bool_decide (ready row = Bool true)
  | None => false
  end.
(** A known operator closure. *)
Definition closed (primary : option NodeRow) : bool :=
  bool_decide (admission primary = Bool false) ||
  bool_decide (primary ≫= screening_concurrency = Some 0).

Definition gce_overflow_target (d : Demand) (routing : ProviderRouting)
    (primary : option NodeRow) (jobs_per_slot global_cap : Z) : result (Z * string) :=
  require (negb ((jobs_per_slot <? 1) || (global_cap <? 0)))
    (ValueError "capacity inputs are out of range");;
  let concurrency := default 0 (primary ≫= screening_concurrency) in
  if closed primary then Ok (0, "HETZNER_PRIMARY_ADMISSION_CLOSED")
  else if bool_decide (admission primary = Unset) then Ok (0, "HETZNER_PRIMARY_UNKNOWN")
  else if gcp_first routing then
    Ok (Z.min global_cap (desired d), "GCP_SCREENERS_PRIORITIZED_BY_POLICY")
  else if existsb (leads "targon") (priorities routing) then
    Ok (Z.min global_cap (desired d), "RETIRED_PROVIDER_ROUTING")
  else
  let policy := overflow routing in
  if negb (hetzner_first routing) || negb (enabled policy) then Ok (0, "GCE_OVERFLOW_DISABLED")
  else
  let cap := Z.min global_cap (max_instances policy) in
  if cap =? 0 then Ok (0, "GCE_OVERFLOW_CAPPED_AT_ZERO")
  else if negb (primary_ready primary) then
    Ok (Z.min cap (desired d), "HETZNER_PRIMARY_UNAVAILABLE")
  else
  let threshold := Z.max (min_backlog policy) (concurrency * backlog_multiplier policy) in
  if runnable d <=? threshold then Ok (0, "HETZNER_PRIMARY_HANDLING_BASE_LOAD")
  else
  math_ceil (int_truediv (runnable d - threshold) jobs_per_slot) ≫= λ instances,
  Ok (Z.min cap instances, "HETZNER_BACKLOG_OVERFLOW").

(** * Slots *)

(** The number of slots of [b] jobs that [a] jobs need. *)
Definition slots_for (a b : Z) : Z := - ((- a) / b).

Lemma slots_for_spec a b : 0 < b → b * (slots_for a b - 1) < a <= b * slots_for a b.
Proof.
  intros Hb. unfold slots_for. pose proof (Z.div_mod (- a) b) as H.
  pose proof (Z.mod_pos_bound (- a) b Hb). nia.
Qed.

Lemma slots_for_unique a b c : 0 < b → b * (c - 1) < a <= b * c → slots_for a b = c.
Proof. intros Hb Hc. pose proof (slots_for_spec a b Hb). nia. Qed.

(** A double just above an integer below 2^52. *)
Definition above (k : Z) : Z := (k * 2 ^ (52 - Z.log2 k) + 1) * 2 ^ (1022 + Z.log2 k).

Lemma above_spec k : 0 <= k < 2 ^ 52 →
  rep (above k) ∧ above k = k * f64_one + 2 ^ (1022 + Z.log2 k).
Proof.
  intros Hk. assert (0 <= Z.log2 k < 52) as Hl.
  { split; [apply Z.log2_nonneg|]. destruct (Z.eq_dec k 0) as [->|]; [cbn; lia|].
    apply Z.log2_lt_pow2; lia. }
  assert (k * 2 ^ (52 - Z.log2 k) < 2 ^ 53) as Hb.
  { destruct (Z.eq_dec k 0) as [->|]; [cbn; lia|].
    pose proof (Z.log2_spec k ltac:(lia)) as [_ Hs].
    replace (2 ^ 53) with (2 ^ Z.succ (Z.log2 k) * 2 ^ (52 - Z.log2 k))
      by (rewrite <- Z.pow_add_r by lia; f_equal; lia).
    apply Zmult_lt_compat_r; [apply Z.pow_pos_nonneg; lia | done]. }
  assert (0 < 2 ^ (52 - Z.log2 k)) by (apply Z.pow_pos_nonneg; lia).
  split.
  - apply rep_multiple; [lia|nia|]. unfold f64_limit.
    apply Z.le_lt_trans with (2 ^ 53 * 2 ^ (1022 + Z.log2 k)).
    + apply Zmult_le_compat_r; [lia | apply Z.pow_nonneg; lia].
    + rewrite <- Z.pow_add_r by lia. apply Z.pow_lt_mono_r; lia.
  - unfold above, f64_one. rewrite Z.mul_add_distr_r, Z.mul_1_l, <- Z.mul_assoc, <- Z.pow_add_r by lia.
    do 3 f_equal. lia.
Qed.

(** Dividing in binary64 and rounding up counts exactly. *)
Lemma ceil_truediv a b : 0 <= a <= 2 ^ 52 → 1 <= b <= 2 ^ 52 →
  math_ceil (int_truediv a b) = Ok (slots_for a b).
Proof.
  intros Ha Hb. rewrite int_truediv_round by lia. pose proof (slots_for_spec a b ltac:(lia)) as Hs.
  set (c := slots_for a b) in *. assert (0 <= c <= 2 ^ 52) as Hc by nia.
  assert (Hup : fleb (round (a * f64_one) b) (Fin (c * f64_one)) = true).
  { rewrite <- (round_rep (c * f64_one)).
    - apply round_mono; try lia. pose proof f64_one_pos. nia.
    - unfold f64_one. apply rep_multiple; [lia|lia|]. unfold f64_limit.
      apply Z.le_lt_trans with (2 ^ 52 * 2 ^ 1074); [|rewrite <- Z.pow_add_r by lia; apply Z.pow_lt_mono_r; lia].
      apply Zmult_le_compat_r; [lia | apply Z.pow_nonneg; lia]. }
  assert (Hlow : 0 < c → fleb (Fin (above (c - 1))) (round (a * f64_one) b) = true).
  { intros Hpos. destruct (above_spec (c - 1)) as [Hrep Heq]; [lia|].
    rewrite <- (round_rep _ Hrep). apply round_mono; try lia.
    rewrite Heq. set (l := Z.log2 (c - 1)).
    assert (b * 2 ^ l <= 2 ^ 52) as Hbl.
    { unfold l. destruct (Z.eq_dec (c - 1) 0) as [->|]; [cbn [Z.log2]; lia|].
      pose proof (Z.log2_spec (c - 1) ltac:(lia)) as [Hl _]. nia. }
    assert (0 <= l) by apply Z.log2_nonneg.
    assert (f64_one = 2 ^ 52 * 2 ^ 1022) as Hone by (unfold f64_one; by rewrite <- Z.pow_add_r by lia).
    rewrite Z.pow_add_r by lia. pose proof f64_one_pos.
    assert (0 < 2 ^ 1022) by (apply Z.pow_pos_nonneg; lia). nia. }
  assert (Hnn : fleb (Fin 0) (round (a * f64_one) b) = true).
  { apply round_nonneg; [lia|]. pose proof f64_one_pos. nia. }
  destruct (round (a * f64_one) b) as [m| | |]; try discriminate Hup; try discriminate Hnn.
  cbn [math_ceil]. f_equal. apply fleb_Fin in Hup. apply fleb_Fin in Hnn.
  apply (slots_for_unique m f64_one c f64_one_pos). pose proof f64_one_pos.
  destruct (Z.eq_dec c 0) as [E|]; [nia|]. specialize (Hlow ltac:(lia)). apply fleb_Fin in Hlow.
  destruct (above_spec (c - 1)) as [_ Heq]; [lia|].
  assert (0 < 2 ^ (1022 + Z.log2 (c - 1))).
  { apply Z.pow_pos_nonneg; [lia|]. pose proof (Z.log2_nonneg (c - 1)). lia. }
  nia.
Qed.

(** Demand is counted exactly. For fewer than 2^52 runnable jobs the
    division in binary64 does not lose a slot: the desired capacity is the
    active leases plus the least number of slots that holds every runnable job,
    cut to the cap; a negative count, a negative cap or a job size below one is
    refused. *)
Lemma desired_slots_exact runnable active jobs_per_slot cap :
  runnable <= 2 ^ 52 → jobs_per_slot <= 2 ^ 52 →
  if (0 <=? runnable) && (0 <=? active) && (0 <=? cap) && (1 <=? jobs_per_slot)
  then ∃ slots, desired_slots runnable active jobs_per_slot cap = Ok (Z.min cap (active + slots)) ∧
    jobs_per_slot * (slots - 1) < runnable <= jobs_per_slot * slots
  else desired_slots runnable active jobs_per_slot cap =
    Err (ValueError "capacity inputs are out of range").
Proof.
  intros Hr Hj. unfold desired_slots.
  assert (negb ((Z.min (Z.min runnable active) cap <? 0) || (jobs_per_slot <? 1)) =
    (0 <=? runnable) && (0 <=? active) && (0 <=? cap) && (1 <=? jobs_per_slot)) as ->.
  { apply eq_true_iff_eq. rewrite negb_true_iff, orb_false_iff, !andb_true_iff, !Z.ltb_ge, !Z.leb_le.
    lia. }
  destruct (_ && _) eqn:E; [|done]. bool_to_prop. cbn [require mbind result_bind].
  rewrite ceil_truediv by lia. exists (slots_for runnable jobs_per_slot).
  split; [done | apply slots_for_spec; lia].
Qed.

(** * Routing round trip *)

Definition priority_ok (l : list string) : Prop :=
  l ≠ [] ∧ NoDup l ∧ "gcp" ∈ l ∧ Forall (λ s, s ∈ providers) l.
(** What a validated routing is. *)
Record routing_ok (r : ProviderRouting) : Prop := {
  rok_revision : 0 <= routing_revision r;
  rok_runtime : priority_ok (runtime_provider_priority r);
  rok_review : priority_ok (source_review_provider_priority r);
  rok_build : priority_ok (build_provider_priority r);
  rok_overflow : overflow_in_range (overflow r) = true
}.

Lemma provider_names l : Forall (λ s, s ∈ providers) l →
  mapM provider_name (VStr <$> l) = Some l.
Proof.
  induction 1 as [|s l Hs _ IH]; [done|].
  cbn [fmap list_fmap mapM]. rewrite IH. cbn [provider_name]. by rewrite bool_decide_true.
Qed.

Lemma provider_name_Some v s : provider_name v = Some s → s ∈ providers.
Proof. destruct v; try discriminate. cbn. case_bool_decide; [by intros [= <-] | discriminate]. Qed.

Lemma parse_priority_ok values field l : parse_priority values field = Ok l → priority_ok l.
Proof.
  unfold parse_priority. destruct (get_key field values) as [| | | | |raw|]; try discriminate.
  destruct (mapM provider_name raw) as [names|] eqn:Em; [|discriminate].
  destruct (_ && _) eqn:E; [|discriminate]. intros [= <-].
  apply andb_true_iff in E as [[H1 H2]%andb_true_iff H3]. bool_to_prop.
  split; [by intros ->|]. split; [done|]. split; [done|].
  apply mapM_Some in Em. clear - Em. induction Em as [|v s raw names Hv _ IH]; constructor; [|done].
  by apply provider_name_Some in Hv.
Qed.

Lemma parse_priority_list values field l : get_key field values = VList (VStr <$> l) →
  priority_ok l → parse_priority values field = Ok l.
Proof.
  intros Hg (Hne & Hnd & Hg' & Hp). unfold parse_priority. rewrite Hg, provider_names by done.
  rewrite !bool_decide_true by done. by destruct l.
Qed.

Section roundtrip.
Context {PR : PyRepr}.

Lemma parse_routing_ok v r : _parse_provider_routing v = Ok r → routing_ok r.
Proof.
  unfold _parse_provider_routing. destruct v as [| | | | | |body]; try discriminate.
  destruct (as_int _) as [revision|]; [|discriminate].
  destruct (get_key "settings" body) as [| | | | | |values]; try discriminate.
  intros H. apply bind_Ok in H as (? & Hrev%require_Ok%Z.leb_le & H).
  destruct (read_overflow values) as [o|]; [|discriminate].
  apply bind_Ok in H as (? & Ho%require_Ok & H).
  apply bind_Ok in H as (rt & Hrt%parse_priority_ok & H).
  apply bind_Ok in H as (sr & Hsr%parse_priority_ok & H).
  apply bind_Ok in H as (bd & Hbd%parse_priority_ok & [= <-]). by constructor.
Qed.

Lemma parse_routing_state r : routing_ok r → _parse_provider_routing (_routing_to_state r) = Ok r.
Proof.
  intros [Hrev Hrt Hsr Hbd Ho]. destruct r as [rev rt sr bd [on primary mult backlog inst]].
  cbn [routing_revision runtime_provider_priority source_review_provider_priority
       build_provider_priority overflow] in *.
  set (values := [("runtime_provider_priority", VList (VStr <$> rt));
    ("source_review_provider_priority", VList (VStr <$> sr));
    ("build_provider_priority", VList (VStr <$> bd)); ("gce_overflow_enabled", VBool on);
    ("primary_node_id", match primary with Some s => VStr s | None => VNone end);
    ("gce_overflow_backlog_multiplier", VInt mult); ("gce_overflow_min_backlog", VInt backlog);
    ("gce_overflow_max_instances", VInt inst)]).
  change (_routing_to_state _) with (VDict [("revision", VInt rev); ("settings", VDict values)]).
  assert (read_overflow values = Ok {| enabled := on; primary_node_id := primary;
    backlog_multiplier := mult; min_backlog := backlog; max_instances := inst |}) as Hread
    by by destruct primary.
  unfold _parse_provider_routing. change (get_key "revision" _) with (VInt rev).
  change (get_key "settings" _) with (VDict values). cbn [as_int].
  rewrite (proj2 (Z.leb_le 0 rev) Hrev), Hread, Ho. cbn [require mbind result_bind].
  rewrite (parse_priority_list values "runtime_provider_priority" rt eq_refl Hrt).
  rewrite (parse_priority_list values "source_review_provider_priority" sr eq_refl Hsr).
  by rewrite (parse_priority_list values "build_provider_priority" bd eq_refl Hbd).
Qed.

(** The routing cache is faithful. The cached form of a routing reads
    back as that very routing exactly when the routing is valid: revision not
    negative, each priority a duplicate-free list of known providers that
    names gcp, overflow settings in range. Every routing Platform serves and
    the controller accepts is valid, so it survives the cache. *)
Lemma routing_cache_roundtrip r :
  (_routing_from_state (_routing_to_state r) = Some r ↔ routing_ok r) ∧
  (∀ v, _parse_provider_routing v = Ok r → _routing_from_state (_routing_to_state r) = Some r).
Proof.
  assert (∀ r, routing_ok r → _routing_from_state (_routing_to_state r) = Some r) as Hback.
  { intros r' Hr'. unfold _routing_from_state. by rewrite parse_routing_state. }
  split; [split; [|apply Hback]|].
  - unfold _routing_from_state. destruct (_parse_provider_routing _) as [r'|] eqn:E; [|discriminate].
    intros [= ->]. by apply parse_routing_ok in E.
  - intros v Hv. by apply Hback, (parse_routing_ok v).
Qed.
End roundtrip.

(** * The target *)

Lemma zero_target why cap (P : Prop) (Q : Z → Prop) : 0 <= cap →
  why ≠ "HETZNER_BACKLOG_OVERFLOW" →
  ∃ target w, Ok (0, why) = Ok (target, w) ∧ 0 <= target <= cap ∧ (P → target = 0) ∧
    (w = "HETZNER_BACKLOG_OVERFLOW" → Q target).
Proof. intros Hc Hw. by exists 0, why. Qed.

(** The GCE target respects the operator. With inputs in range and a
    demand that is not negative the target is always computed, is between zero
    and the global cap, and is zero whenever the primary's admission is closed
    or unknown, whatever the backlog, the routing or the host's health. On the
    backlog branch it supplies every job over the threshold unless a cap cuts
    it. *)
Lemma gce_target_respects_operator d routing primary jobs cap :
  0 <= desired d → 0 <= runnable d <= 2 ^ 52 → 1 <= jobs <= 2 ^ 52 → 0 <= cap →
  routing_ok routing →
  ∃ target why, gce_overflow_target d routing primary jobs cap = Ok (target, why) ∧
    0 <= target <= cap ∧
    (closed primary = true ∨ admission primary = Unset → target = 0) ∧
    (why = "HETZNER_BACKLOG_OVERFLOW" →
     target < Z.min cap (max_instances (overflow routing)) →
     runnable d <= jobs * target + Z.max (min_backlog (overflow routing))
       (default 0 (primary ≫= screening_concurrency) * backlog_multiplier (overflow routing))).
Proof.
  intros Hd Hr Hj Hc Hok. unfold gce_overflow_target.
  assert (negb ((jobs <? 1) || (cap <? 0)) = true) as ->.
  { apply negb_true_iff, orb_false_iff. rewrite !Z.ltb_ge. lia. }
  cbn [require mbind result_bind].
  destruct (closed primary) eqn:Ecl; [by apply zero_target|].
  case_bool_decide as Eun; [by apply zero_target|].
  assert (¬ (false = true ∨ admission primary = Unset)) as Hopen by by intros [?|?].
  destruct (gcp_first routing).
  { eexists _, _. split; [reflexivity|]. split; [lia|]. split; [done | discriminate]. }
  destruct (existsb _ _).
  { eexists _, _. split; [reflexivity|]. split; [lia|]. split; [done | discriminate]. }
  destruct (negb (hetzner_first _) || _); [by apply zero_target|].
  destruct (Z.eqb_spec (Z.min cap (max_instances (overflow routing))) 0); [by apply zero_target|].
  pose proof (rok_overflow _ Hok) as Hover. unfold overflow_in_range in Hover. bool_to_prop.
  destruct (primary_ready primary); cbn [negb].
  2: { eexists _, _. split; [reflexivity|]. split; [lia|]. split; [done | discriminate]. }
  set (threshold := Z.max _ _).
  destruct (Z.leb_spec (runnable d) threshold); [by apply zero_target|].
  assert (0 <= threshold) by (unfold threshold; lia).
  rewrite ceil_truediv by lia. cbn [mbind result_bind]. eexists _, _. split; [reflexivity|].
  pose proof (slots_for_spec (runnable d - threshold) jobs ltac:(lia)).
  split; [nia|]. split; [done|]. intros _ Hlt. nia.
Qed.

(** * By evaluation *)

Definition sample_policy : OverflowPolicy := {|
  enabled := true; primary_node_id := Some "hetzner-1"; backlog_multiplier := 3;
  min_backlog := 12; max_instances := 4 |}.
Definition sample_routing : ProviderRouting := {|
  routing_revision := 5; runtime_provider_priority := ["hetzner"; "gcp"];
  source_review_provider_priority := ["hetzner"; "gcp"];
  build_provider_priority := ["hetzner"; "targon"; "gcp"]; overflow := sample_policy |}.
Definition sample_primary : NodeRow := {|
  node_id := "hetzner-1"; provider_resource_id := "hz-1"; provider := Some "hetzner";
  status := Some "active"; ready := Bool true; screening_concurrency := Some 6;
  admission_open := Bool true; active_lease := Bool true; instance_busy := Unset;
  heartbeat_seen_at := "" |}.
Definition sample_demand : Demand := {| runnable := 31; active := 6; desired := 6 |}.

Lemma sample_routing_ok : routing_ok sample_routing.
Proof.
  constructor; try done; split_and!; try discriminate; try (apply (bool_decide_unpack _); reflexivity).
Qed.

(** 31 runnable jobs are 13 over 6 * 3: three instances of six. *)
Example sample_target :
  gce_overflow_target sample_demand sample_routing (Some sample_primary) 6 10 =
  Ok (3, "HETZNER_BACKLOG_OVERFLOW").
Proof. vm_compute. reflexivity. Qed.

Lemma gce_target_respects_operator_witness :
  ∃ target why,
    gce_overflow_target sample_demand sample_routing (Some sample_primary) 6 10 = Ok (target, why) ∧
    0 <= target <= 10.
Proof.
  destruct (gce_target_respects_operator sample_demand sample_routing (Some sample_primary) 6 10)
    as (target & why & H & Hr & _); [vm_compute; discriminate | vm_compute; by split |
    vm_compute; by split | vm_compute; discriminate | exact sample_routing_ok |].
  exists target, why. split; [exact H | exact Hr].
Defined.

Lemma desired_slots_exact_witness :
  ∃ slots, desired_slots 13 2 6 10 = Ok (Z.min 10 (2 + slots)) ∧ 6 * (slots - 1) < 13 <= 6 * slots.
Proof. exact (desired_slots_exact 13 2 6 10 ltac:(lia) ltac:(lia)). Defined.

Definition sample_repr : PyRepr := λ _, "".
Lemma routing_cache_roundtrip_witness :
  _routing_from_state (PR := sample_repr) (_routing_to_state sample_routing) = Some sample_routing.
Proof. exact (proj2 (proj1 (routing_cache_roundtrip (PR := sample_repr) sample_routing)) sample_routing_ok). Defined.
