(* ===== verification/CapacityController.v ===== *)
(** One reconcile pass of the screening capacity controller,
    [services/screener-orchestrator/screener_capacity/controller.py]: what it
    reads, what it decides, and the effects it performs in order.

    The replies of Platform and of the GCE managed group are an argument, [None]
    or [false] for a call that raised [ControllerError]; [reconcile] returns the
    state file it leaves, the effects it performed (also when it then fails)
    and the published snapshot or the exception.  File errors are not
    modelled. *)
From Stdlib Require Import ZArith Lia.
From stdpp Require Import base list strings pretty.
From S2P Require Import Prelude Binary64 PyText CapacityPolicy.

#[local] Open Scope string_scope.
#[local] Open Scope list_scope.
#[local] Open Scope Z_scope.

(** * Data *)

Record Settings := {
  environment : string;
  epoch : string;
  source_sha : string;
  global_cap : Z;
  jobs_per_slot : Z;
  dry_run : bool;
  inventory_failure_hold_passes : Z
}.

(** The keys of the state file the controller reads, as decoded values. *)
Record StateFile := {
  last_good_provider_routing : JsonValue;
  inventory_failures : JsonValue;
  gce_scale_in_deferral : JsonValue;
  last_fallback_reason : JsonValue;
  provider_ready : JsonValue;
  last_provider_error_code : JsonValue;
  last_provider_error_at : JsonValue
}.

Record ScaleInDeferral := { source : Z; target : Z; deferral_reason : option string }.

#[global] Instance ScaleInDeferral_eq_dec : EqDecision ScaleInDeferral.
Proof. solve_decision. Defined.

Definition opt_str (s : option string) : JsonValue :=
  match s with Some s => VStr s | None => VNone end.

Definition to_state (d : ScaleInDeferral) : JsonValue :=
  VDict [("from", VInt (source d)); ("to", VInt (target d)); ("reason", opt_str (deferral_reason d))].

Definition from_state (value : JsonValue) : option ScaleInDeferral :=
  match value with
  | VDict d =>
      match strict_int (get_key "from" d), strict_int (get_key "to" d), get_key "reason" d with
      | Some s, Some t, VNone => Some {| source := s; target := t; deferral_reason := None |}
      | Some s, Some t, VStr r => Some {| source := s; target := t; deferral_reason := Some r |}
      | _, _, _ => None
      end
  | _ => None
  end.

Record ControllerEvent := {
  event_type : string;
  event_provider : option string;
  detail : string
}.

(** The published snapshot; its retired Targon fields are constants. *)
Record Snapshot := {
  snap_environment : string;
  controller_epoch : string;
  controller_source_sha : string;
  provider_settings_revision : Z;
  snap_demand : Demand;
  snap_global_cap : Z;
  snap_provider_ready : bool;
  gce_target : Z;
  gce : ProviderCounts;
  fallback_reason : string;
  snap_success_at : option string;
  snap_error_code : option string;
  snap_error_at : option string;
  snap_events : list ControllerEvent
}.

(** The node inventory as re-read before a scale-in. *)
Record NodeInventory := {
  rows : list NodeRow;
  legacy_gcp_running_attempts : option Z
}.

Record Replies := {
  status_counts : option (Z * Z);
  provider_settings : option JsonValue;
  nodes : option (list NodeRow);
  managed_target : option Z;
  managed_counts : option ProviderCounts;
  renewed : bool;
  fenced : bool;
  watchdog : bool;
  resized : bool;
  reread : option NodeInventory;
  members : option (list string);
  deleted : bool;
  renewed_again : bool;
  error_clock : string;
  success_clock : string;
  failure_clock : string
}.

Inductive Effect :=
  | WriteState (s : StateFile)
  | Renew (s : Snapshot)
  | Fence
  | EnsureWatchdog
  | Resize (size : Z)
  | DeleteInstances (names : list string).

(** * The effect monad *)

Definition Run (A : Type) : Type := StateFile → list Effect * StateFile * result A.

Definition pure {A} (a : A) : Run A := λ s, ([], s, Ok a).
Definition fail {A} (e : exn) : Run A := λ s, ([], s, Err e).
Definition and_then {A B} (m : Run A) (k : A → Run B) : Run B := λ s,
  match m s with
  | (l, s', Ok a) => let '(l', s'', r) := k a s' in (l ++ l', s'', r)
  | (l, s', Err e) => (l, s', Err e)
  end.
Declare Scope run_scope.
Delimit Scope run_scope with run.
Notation "x <- m ; k" := (and_then m (λ x, k))
  (at level 100, m at next level, k at level 200, right associativity) : run_scope.
Notation "m >> k" := (and_then m (λ _, k)) (at level 100, right associativity) : run_scope.
#[local] Open Scope run_scope.

(** An external call: the effect is issued whether or not the call succeeds. *)
Definition call (e : Effect) (ok : bool) (msg : string) : Run unit := λ s,
  ([e], s, if ok then Ok tt else Err (ControllerError msg)).
Definition load_state : Run StateFile := λ s, ([], s, Ok s).
Definition _write_state (s : StateFile) : Run unit := λ _, ([WriteState s], s, Ok tt).
Definition lift {A} (r : result A) : Run A := λ s, ([], s, r).
Definition reply {A} (r : option A) (msg : string) : Run A :=
  match r with Some a => pure a | None => fail (ControllerError msg) end.
(** [except ControllerError: handler; raise] *)
Definition on_error {A} (m : Run A) (handler : Run unit) : Run A := λ s,
  match m s with
  | (l, s', Err (ControllerError msg)) =>
      let '(l', s'', _) := handler s' in (l ++ l', s'', Err (ControllerError msg))
  | r => r
  end.
(** [contextlib.suppress(ControllerError)] *)
Definition suppress (m : Run unit) : Run unit := λ s,
  match m s with
  | (l, s', Err (ControllerError _)) => (l, s', Ok tt)
  | r => r
  end.

(** * What a pass decides *)

Section controller.
Context {PR : PyRepr}.

(** [platform.node_states()]: rows under both of their names. *)
Definition node_states (rows : list NodeRow) : list (string * NodeRow) :=
  foldl (λ d row, dict_set (provider_resource_id row) row (dict_set (node_id row) row d)) [] rows.

Definition is_gcp (row : NodeRow) : bool := bool_decide (provider row = Some "gcp").
Definition leased (row : NodeRow) : bool := bool_decide (active_lease row = Bool true).

(** What the reads of a pass established. *)
Record Observed := {
  routing : ProviderRouting;
  routing_available : bool;
  cached : bool;
  states : option (list (string * NodeRow));
  failures : Z;
  holding : bool
}.

(** The routing of a platform without a usable cache. *)
Definition outage_routing : ProviderRouting := {|
  routing_revision := 0; runtime_provider_priority := ["hetzner"; "gcp"];
  source_review_provider_priority := ["hetzner"; "gcp"];
  build_provider_priority := ["hetzner"; "gcp"]; overflow := default_overflow |}.

Definition read_routing (r : Replies) : option ProviderRouting :=
  match provider_settings r with
  | Some body => _routing_from_state body
  | None => None
  end.

Definition observe (cfg : Settings) (r : Replies) (s : StateFile) : Observed :=
  let served := read_routing r in
  let cache := _routing_from_state (last_good_provider_routing s) in
  let failed := match served, nodes r with Some _, Some _ => false | _, _ => true end in
  let prior := match strict_int (inventory_failures s) with
               | Some n => if n <? 0 then 0 else n
               | None => 0
               end in
  let count := if failed then prior + 1 else 0 in {|
    routing := match served, cache with
               | Some p, _ => p | None, Some p => p | None, None => outage_routing end;
    routing_available := bool_decide (is_Some served);
    cached := bool_decide (is_Some cache);
    states := node_states <$> nodes r;
    failures := count;
    holding := failed && (count <=? inventory_failure_hold_passes cfg) |}.

Definition nodes_available (o : Observed) : bool := bool_decide (is_Some (states o)).

Definition failed_reads (o : Observed) : list string :=
  (if routing_available o then [] else ["routing"]) ++ (if nodes_available o then [] else ["nodes"]).

Definition provider_error (o : Observed) : option string :=
  if negb (routing_available o) && (negb (cached o) || negb (holding o))
  then Some "PROVIDER_ROUTING_UNAVAILABLE"
  else if negb (nodes_available o) && negb (holding o)
  then Some "PLATFORM_INVENTORY_UNAVAILABLE"
  else None.

Definition primary_of (o : Observed) : option NodeRow :=
  states o ≫= dict_get (default "" (primary_node_id (overflow (routing o)))).

Definition gce_has_active_lease (o : Observed) : bool :=
  existsb (λ kv, is_gcp kv.2 && leased kv.2) (default [] (states o)).

(** The target of the pass and why. *)
Definition choose_target (cfg : Settings) (o : Observed) (d : Demand) (current : Z)
    : result (Z * string) :=
  (if routing_available o
   then gce_overflow_target d (routing o) (primary_of o) (jobs_per_slot cfg) (global_cap cfg)
   else Ok (current, "PROVIDER_ROUTING_UNAVAILABLE")) ≫= λ '(target, reason),
  let target := if (target <? current) && gce_has_active_lease o then current else target in
  let target := if (target <? current) && negb (nodes_available o) && (0 <? active d)
                then current else target in
  Ok (if holding o then (current, "PLATFORM_INVENTORY_UNAVAILABLE") else (target, reason)).

(** The delivered deferral that this pass continues. *)
Definition continuing (s : StateFile) (current target' : Z) : option ScaleInDeferral :=
  match from_state (gce_scale_in_deferral s) with
  | Some d => if (target' <? current) && (source d =? current) && (target d =? target')
              then Some d else None
  | None => None
  end.

Definition arrow (from to : Z) : string :=
  ("GCE target " +:+ pretty from +:+ " -> " +:+ pretty to)%string.
Definition failed_detail (o : Observed) : string :=
  (match failed_reads o with [a; b] => a +:+ " and " +:+ b | l => String.concat "" l end +:+ " read")%string.

Definition pass_events (cfg : Settings) (o : Observed) (s : StateFile) (current target' : Z)
    (reason : string) : list ControllerEvent :=
  let hold_passes := inventory_failure_hold_passes cfg in
  (if negb (target' =? current) && negb (bool_decide (is_Some (continuing s current target')))
   then [{| event_type := "gce_target_changed"; event_provider := Some "gcp";
            detail := arrow current target' |}] else []) ++
  (if failures o =? 1
   then [{| event_type := "platform_inventory_unavailable"; event_provider := Some "gcp";
            detail := (failed_detail o +:+ " failed" +:+
              (if holding o then "; holding GCE target " +:+ pretty current else ""))%string |}]
   else []) ++
  (if (0 <? hold_passes) && (failures o =? hold_passes + 1)
   then [{| event_type := "platform_inventory_hold_expired"; event_provider := Some "gcp";
            detail := (failed_detail o +:+ " still failing after " +:+ pretty hold_passes +:+
                       " held passes")%string |}]
   else []) ++
  match last_fallback_reason s with
  | VStr last => if String.eqb last reason then [] else
      [{| event_type := "fallback_reason_changed"; event_provider := Some "hetzner";
          detail := (last +:+ " -> " +:+ reason)%string |}]
  | _ => []
  end.

Definition str_of (v : JsonValue) : option string :=
  match v with VStr s => Some s | _ => None end.
Definition is_ready (s : StateFile) : bool :=
  match provider_ready s with VBool true => true | _ => false end.

(** The snapshot of the first renew: errors of the last pass stay published
    until a pass completes. *)
Definition _snapshot (cfg : Settings) (o : Observed) (s : StateFile) (d : Demand)
    (counts : ProviderCounts) (r : Replies) (target' : Z) (reason : string)
    (events : list ControllerEvent) : Snapshot :=
  let error := provider_error o in
  let error_at := (λ _, error_clock r) <$> error in
  let carried := negb (bool_decide (is_Some error)) && negb (is_ready s) in {|
  snap_environment := environment cfg; controller_epoch := epoch cfg;
  controller_source_sha := source_sha cfg; provider_settings_revision := routing_revision (routing o);
  snap_demand := d; snap_global_cap := global_cap cfg;
  snap_provider_ready := is_ready s && negb (bool_decide (is_Some error));
  gce_target := target'; gce := counts; fallback_reason := reason;
  snap_success_at := Some (success_clock r);
  snap_error_code := if carried then str_of (last_provider_error_code s) else error;
  snap_error_at := if carried then str_of (last_provider_error_at s) else error_at;
  snap_events := events |}.

(** * Scale-in *)

(** [_plan_gce_scale_in]: the instances to delete, or why the scale-in waits. *)
Definition _plan_gce_scale_in (r : Replies) (target' current : Z) (fenced_at_zero : bool)
    : Run (list string * option string) :=
  match reread r with
  | None => pure ([], Some "inventory_unavailable")
  | Some inventory =>
      let gcp := filter (λ row, is_gcp row = true) (snd <$> node_states (rows inventory)) in
      let by_id := dict_of ((λ row, (node_id row, row)) <$> gcp) in
      let running := legacy_gcp_running_attempts inventory in
      if target' =? 0 then
        if negb fenced_at_zero then pure ([], Some "legacy_claims_not_fenced") else
        match running with
        | None => pure ([], Some "attribution_incomplete")
        | Some n =>
            if (0 <? n) || existsb (λ kv, leased kv.2) by_id
            then pure ([], Some "gce_active_lease") else
            names <- reply (members r) "GCE instance list is invalid";
            if negb (Z.of_nat (length names) =? current) ||
               existsb (λ m, match dict_get m by_id with
                             | None => true
                             | Some row => negb (bool_decide (ready row = Bool true)) ||
                                           negb (bool_decide (instance_busy row = Bool false))
                             end) names
            then pure ([], Some "instance_inventory_incomplete")
            else pure ([], Some "durable_claim_fence_unavailable")
        end
      else
        let legacy := filter (λ row, instance_busy row ≠ Unset) (snd <$> by_id) in
        let busy := Z.of_nat (length (filter (λ row, instance_busy row = Bool true) legacy)) in
        if match running with None => true | Some n => busy <? n end
        then pure ([], Some "attribution_incomplete") else
        names <- reply (members r) "GCE instance list is invalid";
        let idle := py_sorted (cmp_by str_cmp heartbeat_seen_at)
          (filter (λ row, ready row = Bool true ∧ instance_busy row = Bool false ∧
                     node_id row ∈ names) legacy) in
        if Z.of_nat (length idle) <? current - target'
        then pure ([], Some "insufficient_idle_instances")
        else pure ([], Some "per_instance_claim_fence_unavailable")
  end.

(** * The effects of a pass *)

Definition with_routing (p : ProviderRouting) (s : StateFile) : StateFile := {|
  last_good_provider_routing := _routing_to_state p; inventory_failures := inventory_failures s;
  gce_scale_in_deferral := gce_scale_in_deferral s; last_fallback_reason := last_fallback_reason s;
  provider_ready := provider_ready s; last_provider_error_code := last_provider_error_code s;
  last_provider_error_at := last_provider_error_at s |}.
(** What the first renew delivered. *)
Definition with_decision (count : Z) (reason : string) (deferral : option ScaleInDeferral)
    (s : StateFile) : StateFile := {|
  last_good_provider_routing := last_good_provider_routing s; inventory_failures := VInt count;
  gce_scale_in_deferral := match deferral with Some d => to_state d | None => VNone end;
  last_fallback_reason := VStr reason;
  provider_ready := provider_ready s; last_provider_error_code := last_provider_error_code s;
  last_provider_error_at := last_provider_error_at s |}.
Definition with_provider (is_up : bool) (error_code error_at : option string) (s : StateFile)
    : StateFile := {|
  last_good_provider_routing := last_good_provider_routing s;
  inventory_failures := inventory_failures s; gce_scale_in_deferral := gce_scale_in_deferral s;
  last_fallback_reason := last_fallback_reason s; provider_ready := VBool is_up;
  last_provider_error_code := opt_str error_code; last_provider_error_at := opt_str error_at |}.
Definition with_deferral (deferral : option ScaleInDeferral) (s : StateFile) : StateFile := {|
  last_good_provider_routing := last_good_provider_routing s;
  inventory_failures := inventory_failures s;
  gce_scale_in_deferral := match deferral with Some d => to_state d | None => VNone end;
  last_fallback_reason := last_fallback_reason s; provider_ready := provider_ready s;
  last_provider_error_code := last_provider_error_code s;
  last_provider_error_at := last_provider_error_at s |}.

Definition with_errors (snap : Snapshot) (is_up : bool) (code at_ : option string) (reason : string)
    (events : list ControllerEvent) : Snapshot := {|
  snap_environment := snap_environment snap; controller_epoch := controller_epoch snap;
  controller_source_sha := controller_source_sha snap;
  provider_settings_revision := provider_settings_revision snap;
  snap_demand := snap_demand snap; snap_global_cap := snap_global_cap snap;
  snap_provider_ready := is_up; gce_target := gce_target snap; gce := gce snap;
  fallback_reason := reason; snap_success_at := snap_success_at snap;
  snap_error_code := code; snap_error_at := at_; snap_events := events |}.

Definition _record_provider_failure (r : Replies) (snap : Snapshot) (code why : string) : Run unit :=
  s <- load_state;
  _write_state (with_provider false (Some code) (Some (failure_clock r)) s) >>
  suppress (call (Renew (with_errors snap false (Some code) (Some (failure_clock r))
    (fallback_reason snap)
    [{| event_type := "provider_mutation_failed"; event_provider := None; detail := why |}]))
    (renewed_again r) "controller lease is held by another writer").

Definition fence (r : Replies) : Run unit :=
  call Fence (fenced r) "controller lease is held by another writer".

(** Restore the watchdog whenever the pass does not scale up. *)
Definition restore_watchdog (r : Replies) (snap : Snapshot) : Run unit :=
  on_error (fence r >> call EnsureWatchdog (watchdog r) "GCE managed-group operation failed")
    (_record_provider_failure r snap "GCE_WATCHDOG_RESTORE_FAILED"
       "GCE emergency autoscaler restore failed").
Definition scale_up (r : Replies) (snap : Snapshot) (size : Z) : Run unit :=
  on_error (fence r >> call (Resize size) (resized r) "GCE managed-group operation failed")
    (_record_provider_failure r snap "GCE_SCALE_UP_FAILED" "GCE fallback scale-up failed").
Definition scale_in (r : Replies) (snap : Snapshot) (size current : Z) (fenced_at_zero : bool)
    : Run (option string) :=
  on_error (fence r >>
    planned <- _plan_gce_scale_in r size current fenced_at_zero;
    (match planned.2 with
     | None => if 0 <? size
               then call (DeleteInstances planned.1) (deleted r) "GCE managed-group operation failed"
               else pure tt
     | Some _ => pure tt
     end) >> pure planned.2)
    (_record_provider_failure r snap "GCE_SCALE_DOWN_FAILED" "GCE scale-down failed").

(** A zero target's claims are withdrawn while the route prefers the primary. *)
Definition claims_fenced_at_zero (o : Observed) (snap : Snapshot) : bool :=
  snap_provider_ready snap && existsb (leads "hetzner") (priorities (routing o)).

(** The last renew and what it delivers. *)
Definition complete (o : Observed) (r : Replies) (snap : Snapshot) (continued : option ScaleInDeferral)
    (size current : Z) (why : option string) : Run Snapshot :=
  let error := provider_error o in
  let error_at := (λ _, error_clock r) <$> error in
  let deferral := (λ why, {| source := current; target := size; deferral_reason := Some why |})
                  <$> why in
  let events := match deferral with
    | Some d => if bool_decide (continued = Some d) then [] else
        [{| event_type := "gce_scale_in_deferred"; event_provider := Some "gcp";
            detail := (arrow current size +:+ " deferred: " +:+
                       default "" (deferral_reason d))%string |}]
    | None => []
    end in
  let is_up := negb (bool_decide (is_Some error)) in
  let completed := with_errors snap is_up error error_at
    (if bool_decide (is_Some deferral) then "GCE_SCALE_IN_DEFERRED" else fallback_reason snap)
    events in
  call (Renew completed) (renewed_again r) "controller lease is held by another writer" >>
  s <- load_state;
  _write_state (with_deferral deferral (with_provider is_up error error_at s)) >>
  pure completed.

(** The part after the decision is published. *)
Definition carry_out (cfg : Settings) (o : Observed) (r : Replies) (snap : Snapshot)
    (continued : option ScaleInDeferral) (current size : Z) (reason : string) : Run Snapshot :=
  call (Renew snap) (renewed r) "controller lease is held by another writer" >>
  s <- load_state;
  _write_state (with_decision (failures o) reason
    (if size <? current
     then Some (default {| source := current; target := size; deferral_reason := None |} continued)
     else None) s) >>
  (if size <=? current then restore_watchdog r snap else pure tt) >>
  (if current <? size then scale_up r snap size else pure tt) >>
  let now_at := if current <? size then size else current in
  why <- (if size <? now_at
          then scale_in r snap size now_at (claims_fenced_at_zero o snap) else pure None);
  complete o r snap continued size now_at why.

(** From the state file read at the start and the demand. *)
Definition pass (cfg : Settings) (r : Replies) (d : Demand) (s0 : StateFile) : Run Snapshot :=
  let o := observe cfg r s0 in
  (if dry_run cfg then pure tt
   else _write_state (if routing_available o then with_routing (routing o) s0 else s0)) >>
  current <- reply (managed_target r) "GCE managed-group operation failed";
  counts <- reply (managed_counts r) "GCE managed-group operation failed";
  chosen <- lift (choose_target cfg o d current);
  s <- load_state;
  let continued := continuing s current chosen.1 in
  let snap := _snapshot cfg o s d counts r chosen.1 chosen.2
                (pass_events cfg o s current chosen.1 chosen.2) in
  if dry_run cfg then pure snap
  else carry_out cfg o r snap continued current chosen.1 chosen.2.

Definition reconcile (cfg : Settings) (r : Replies) : Run Snapshot :=
  counts <- reply (status_counts r) "Platform GET transport failed";
  d <- lift (demand counts.1 counts.2 (jobs_per_slot cfg) (global_cap cfg));
  s0 <- load_state;
  pass cfg r d s0.
End controller.
