(* ===== verification/CapacityReconcile.v ===== *)
(** What a reconcile pass of the capacity controller guarantees: it never
    removes GCE capacity, adds it only under a renewed and fenced lease, holds
    it while Platform cannot be read, and publishes nothing twice. *)
From Stdlib Require Import ZArith Lia.
From stdpp Require Import base list strings pretty.
From S2P Require Import Prelude Binary64 PyText CapacityPolicy CapacityController.

#[local] Open Scope string_scope.
#[local] Open Scope list_scope.
#[local] Open Scope Z_scope.
#[local] Open Scope run_scope.

(** * Effects of a run *)

(** Every effect [m] performs, from any state file, satisfies [P]. *)
Definition performs {A} (P : Effect → Prop) (m : Run A) : Prop := ∀ s, Forall P (m s).1.1.

Section performs.
Context (P : Effect → Prop).

Lemma performs_pure {A} (a : A) : performs P (pure a).
Proof. intros s. constructor. Qed.
Lemma performs_reply {A} (r : option A) msg : performs P (reply r msg).
Proof. intros s. destruct r; constructor. Qed.
Lemma performs_lift {A} (r : result A) : performs P (lift r).
Proof. intros s. constructor. Qed.
Lemma performs_load : performs P load_state.
Proof. intros s. constructor. Qed.
Lemma performs_call e ok msg : P e → performs P (call e ok msg).
Proof. intros H s. by repeat constructor. Qed.
Lemma performs_write s : P (WriteState s) → performs P (_write_state s).
Proof. intros H s'. by repeat constructor. Qed.

Lemma performs_bind {A B} (m : Run A) (k : A → Run B) :
  performs P m → (∀ a, performs P (k a)) → performs P (and_then m k).
Proof.
  intros Hm Hk s. unfold and_then. specialize (Hm s).
  destruct (m s) as [[l s'] [a|e]]; [|done].
  specialize (Hk a s'). destruct (k a s') as [[l' s''] r]. cbn in *. by apply Forall_app.
Qed.

(** A call that must succeed before the rest runs. *)
Lemma performs_call_then {B} e ok msg (k : unit → Run B) :
  P e → (ok = true → performs P (k tt)) → performs P (and_then (call e ok msg) k).
Proof.
  intros He Hk s. unfold and_then, call. destruct ok; [|by repeat constructor].
  specialize (Hk eq_refl s). destruct (k tt s) as [[l' s''] r]. cbn in *. by constructor.
Qed.

(** What a reply or a computation returned is known to the rest. *)
Lemma performs_reply_then {A B} (r : option A) msg (k : A → Run B) :
  (∀ a, r = Some a → performs P (k a)) → performs P (and_then (reply r msg) k).
Proof.
  intros Hk s. destruct r as [a|]; [|constructor]. specialize (Hk a eq_refl s).
  unfold and_then. cbn. by destruct (k a s) as [[l s'] res].
Qed.
Lemma performs_lift_then {A B} (r : result A) (k : A → Run B) :
  (∀ a, r = Ok a → performs P (k a)) → performs P (and_then (lift r) k).
Proof.
  intros Hk s. destruct r as [a|]; [|constructor]. specialize (Hk a eq_refl s).
  unfold and_then. cbn. by destruct (k a s) as [[l s'] res].
Qed.

Lemma performs_on_error {A} (m : Run A) h : performs P m → performs P h → performs P (on_error m h).
Proof.
  intros Hm Hh s. unfold on_error. specialize (Hm s).
  destruct (m s) as [[l s'] [a|[]]]; try done.
  specialize (Hh s'). destruct (h s') as [[l' s''] r]. cbn in *. by apply Forall_app.
Qed.

Lemma performs_suppress m : performs P m → performs P (suppress m).
Proof. intros Hm s. unfold suppress. specialize (Hm s). by destruct (m s) as [[l s'] [a|[]]]. Qed.
End performs.

(** Walk a run, leaving the effects that need an argument. *)
Ltac performs :=
  repeat first
    [ (apply performs_reply_then; intros ? ?) | (apply performs_lift_then; intros ? ?)
    | apply performs_pure | apply performs_reply | apply performs_lift | apply performs_load
    | apply performs_call | apply performs_write | apply performs_suppress
    | apply performs_on_error | (apply performs_bind; [|intros ?]) ].

(** [Ok] runs, taken apart. *)
Lemma and_then_Ok {A B} (m : Run A) (k : A → Run B) s l s' b :
  and_then m k s = (l, s', Ok b) →
  ∃ l1 s1 a l2, m s = (l1, s1, Ok a) ∧ k a s1 = (l2, s', Ok b) ∧ l = l1 ++ l2.
Proof.
  unfold and_then. destruct (m s) as [[l1 s1] [a|e]]; [|discriminate].
  destruct (k a s1) as [[l2 s2] r] eqn:E. intros [= <- <- ->]. by exists l1, s1, a, l2.
Qed.

Section reconcile.
Context {PR : PyRepr}.

(** Neither a resize nor a deletion. *)
Definition quiet (e : Effect) : Prop :=
  match e with Resize _ | DeleteInstances _ => False | _ => True end.

(** A scale-in plan always ends in a reason to wait. *)
Lemma plan_waits r size current fenced :
  (∃ why, ∀ s, _plan_gce_scale_in r size current fenced s = ([], s, Ok ([], Some why))) ∨
  (∃ e, ∀ s, _plan_gce_scale_in r size current fenced s = ([], s, Err e)).
Proof.
  unfold _plan_gce_scale_in, and_then, reply, pure, fail.
  destruct (reread r) as [inv|]; [|by left; eexists].
  destruct (size =? 0); [destruct (negb fenced); [by left; eexists|]|];
    destruct (legacy_gcp_running_attempts inv), (members r); cbv zeta;
    repeat match goal with |- context [(if ?b then _ else _) _] => destruct b end;
    first [by left; eexists | by right; eexists].
Qed.

Lemma failure_quiet P r snap code why : (∀ e, quiet e → P e) →
  performs P (_record_provider_failure r snap code why).
Proof. intros HP. unfold _record_provider_failure. performs; by apply HP. Qed.

Lemma scale_in_quiet P r snap size current fenced : (∀ e, quiet e → P e) →
  performs P (scale_in r snap size current fenced).
Proof.
  intros HP. apply performs_on_error; [|by apply failure_quiet].
  apply performs_bind; [apply performs_call; by apply HP|]. intros _ s. unfold and_then.
  destruct (plan_waits r size current fenced) as [[why E]|[e E]]; rewrite E; constructor.
Qed.

(** What a pass may do: resizes only upward and within the cap, and only after
    the lease was renewed and the fence held; no deletion; nothing in a dry
    run. *)
Definition allowed (cfg : Settings) (r : Replies) (e : Effect) : Prop :=
  dry_run cfg = false ∧
  match e with
  | Resize size => renewed r = true ∧ fenced r = true ∧
      ∃ current, managed_target r = Some current ∧ current < size <= global_cap cfg
  | DeleteInstances _ => False
  | _ => True
  end.

Lemma overflow_target_cap d p node jobs cap size why :
  gce_overflow_target d p node jobs cap = Ok (size, why) → size <= cap.
Proof.
  unfold gce_overflow_target. intros H.
  apply bind_Ok in H as (? & Hb%require_Ok%negb_true_iff%orb_false_iff & H).
  destruct Hb as [_ Hc%Z.ltb_ge].
  repeat (match type of H with (if ?b then _ else _) = _ => destruct b end;
    [injection H as <- _; lia|]).
  apply bind_Ok in H as (n & _ & [= <- _]). lia.
Qed.

Lemma choose_target_up cfg o d current size why :
  choose_target cfg o d current = Ok (size, why) → size <= current ∨ size <= global_cap cfg.
Proof.
  unfold choose_target. intros ([t w] & Ht & H)%bind_Ok. cbn zeta in H.
  assert (t <= current ∨ t <= global_cap cfg) as Hc.
  { destruct (routing_available o); [right; by eapply overflow_target_cap | injection Ht as <- _; lia]. }
  destruct (holding o); injection H as <- _; [lia|].
  destruct ((t <? current) && gce_has_active_lease o); cbn;
    repeat match goal with |- context [if ?b then _ else _] => destruct b end; lia.
Qed.

Lemma carry_out_allowed cfg o r snap continued current size reason :
  dry_run cfg = false → managed_target r = Some current →
  size <= current ∨ size <= global_cap cfg →
  performs (allowed cfg r) (carry_out cfg o r snap continued current size reason).
Proof.
  intros Hdry Hcur Hcap. assert (∀ e, quiet e → allowed cfg r e) as Hq.
  { intros e He. split; [done|]. by destruct e. }
  unfold carry_out. apply performs_call_then; [by apply Hq|]. intros Hren.
  performs; try by apply Hq.
  - destruct (size <=? current); unfold restore_watchdog; performs; by apply Hq.
  - destruct (Z.ltb_spec current size); [|performs]. unfold scale_up.
    apply performs_on_error; [|by apply failure_quiet].
    apply performs_call_then; [by apply Hq|]. intros Hfence. apply performs_call.
    split; [done|]. split; [done|]. split; [done|]. exists current. split; [done | lia].
  - destruct (_ <? _); [by apply scale_in_quiet | performs].
Qed.

#[local] Opaque carry_out.

Lemma dry_run_silent cfg r s : dry_run cfg = true → (reconcile cfg r s).1.1 = [].
Proof.
  intros Hdry. assert (performs (λ _, False) (reconcile cfg r)) as H.
  { unfold reconcile, pass. rewrite Hdry. performs. }
  specialize (H s). by inversion H.
Qed.

(** C35: a pass never removes GCE capacity and adds it only under the lease.
    Whatever the replies and the state file, no instance is deleted; the group
    is resized only upward from its current target and not past the global
    cap, and only when the capacity lease was renewed and the fence succeeded;
    a dry run performs no effect at all. *)
Theorem pass_never_shrinks cfg r s :
  let effects := (reconcile cfg r s).1.1 in
  Forall (allowed cfg r) effects ∧ (dry_run cfg = true → effects = []).
Proof.
  cbv zeta. split; [|by apply dry_run_silent]. destruct (dry_run cfg) eqn:Hdry.
  { by rewrite dry_run_silent. }
  revert s. change (performs (allowed cfg r) (reconcile cfg r)).
  assert (∀ e, quiet e → allowed cfg r e) as Hq by (intros e He; split; [done | by destruct e]).
  unfold reconcile, pass. rewrite Hdry. performs; try by apply Hq.
  apply carry_out_allowed; [done | done |]. match goal with H : choose_target _ _ _ _ = Ok ?c |- _ => destruct c; by eapply choose_target_up end.
Qed.

(** * Holding capacity *)

(** No resize, and every publication names the current target. *)
Definition keeps (r : Replies) (e : Effect) : Prop :=
  match e with
  | Resize _ | DeleteInstances _ => False
  | Renew snap => managed_target r = Some (gce_target snap)
  | _ => True
  end.

Lemma choose_target_held cfg o d current size why :
  holding o = true ∨ routing_available o = false →
  choose_target cfg o d current = Ok (size, why) → size = current.
Proof.
  intros Ho. unfold choose_target. intros ([t w] & Ht & H)%bind_Ok. cbn zeta in H.
  destruct (holding o); [by injection H|]. destruct Ho as [?|Ho]; [done|]. rewrite Ho in Ht.
  injection Ht as <- <-. rewrite Z.ltb_irrefl in H. cbn in H. rewrite Z.ltb_irrefl in H.
  by injection H.
Qed.

Transparent carry_out.
Lemma carry_out_keeps cfg o r snap continued current reason :
  managed_target r = Some current → gce_target snap = current →
  performs (keeps r) (carry_out cfg o r snap continued current current reason).
Proof.
  intros Hcur Hsnap. unfold carry_out. rewrite Z.ltb_irrefl, Z.leb_refl.
  unfold restore_watchdog, fence, _record_provider_failure, complete.
  performs; cbn [keeps gce_target with_errors]; rewrite ?Hsnap; try done.
  rewrite Z.ltb_irrefl. performs.
Qed.
#[local] Opaque carry_out.

(** A reconcile runs its pass from the state file it found. *)
Lemma reconcile_pass cfg r :
  (∃ e, ∀ s, reconcile cfg r s = ([], s, Err e)) ∨
  ∃ d, ∀ s, reconcile cfg r s = pass cfg r d s s.
Proof.
  unfold reconcile, reply. destruct (status_counts r) as [c|]; [|by left; eexists].
  destruct (demand c.1 c.2 (jobs_per_slot cfg) (global_cap cfg)) as [d|e] eqn:Hd.
  - right. exists d. intros s. unfold and_then, pure, lift, load_state. rewrite Hd.
    by destruct (pass cfg r d s s) as [[l s'] res].
  - left. exists e. intros s. unfold and_then, pure, lift. by rewrite Hd.
Qed.

(** An unreadable Platform does not move capacity. While a routing or
    node read fails inside the hold window, and for as long as the routing
    cannot be read at all, the pass neither resizes nor deletes, and every
    snapshot it publishes names the group's current target. *)
Lemma unreadable_platform_holds cfg r s :
  holding (observe cfg r s) = true ∨ routing_available (observe cfg r s) = false →
  Forall (keeps r) (reconcile cfg r s).1.1.
Proof.
  intros Ho. destruct (reconcile_pass cfg r) as [[e ->]|[d ->]]; [constructor|].
  enough (performs (keeps r) (pass cfg r d s)) as H by apply H.
  unfold pass. destruct (dry_run cfg); performs; try done.
  match goal with H : choose_target _ _ _ _ = Ok ?c |- _ =>
    destruct c as [size why]; apply choose_target_held in H as ->; [|done] end.
  by apply carry_out_keeps.
Qed.

#[local] Transparent carry_out.

(** * A repeated pass is silent *)

(** Why a scale-in waits, when its plan can be made; [None] without one. *)
Definition wait_reason (r : Replies) (size current : Z) (fenced_at_zero : bool)
    (why : option string) : Prop :=
  if size <? current
  then ∃ w, why = Some w ∧
    ∀ s, _plan_gce_scale_in r size current fenced_at_zero s = ([], s, Ok ([], Some w))
  else why = None.

(** Every call of a pass that does not scale up succeeded. *)
Record all_granted (r : Replies) : Prop := {
  granted_renew : renewed r = true;
  granted_fence : fenced r = true;
  granted_watchdog : watchdog r = true;
  granted_complete : renewed_again r = true
}.

Definition deferral_of (size current : Z) (why : option string) : option ScaleInDeferral :=
  (λ w, {| source := current; target := size; deferral_reason := Some w |}) <$> why.

(** The state file a granted pass leaves. *)
Definition final_state (o : Observed) (r : Replies) (size current : Z) (reason : string)
    (why : option string) (s : StateFile) : StateFile :=
  with_deferral (deferral_of size current why)
    (with_provider (negb (bool_decide (is_Some (provider_error o)))) (provider_error o)
       ((λ _, error_clock r) <$> provider_error o)
       (with_decision (failures o) reason None s)).

Lemma carry_out_granted cfg o r snap continued current size reason why s : size <= current →
  all_granted r → wait_reason r size current (claims_fenced_at_zero o snap) why →
  ∃ l sn, carry_out cfg o r snap continued current size reason s =
    (l, final_state o r size current reason why s, Ok sn) ∧
    Forall (λ e, match e with
                 | Renew p => snap_events p = snap_events snap ∨
                     (snap_events p = [] ∨ continued ≠ deferral_of size current why)
                 | Resize _ | DeleteInstances _ => False | _ => True end) l.
Proof.
  intros Hle [G1 G2 G3 G4] Hwhy. unfold carry_out, wait_reason in *.
  rewrite (proj2 (Z.leb_le _ _) Hle), (proj2 (Z.ltb_ge _ _) Hle).
  unfold restore_watchdog, scale_in, complete, and_then, on_error, fence, call, load_state,
    _write_state, pure. rewrite G1, G2, G3, G4. destruct (size <? current) eqn:Es.
  - destruct Hwhy as (w & -> & Hplan). rewrite Hplan. cbn [app snd].
    eexists _, _. split; [reflexivity|]. rewrite !Forall_cons, Forall_nil. split_and!; try exact I; [by left|].
    right. cbn [snap_events with_errors]. cbn [fmap option_fmap option_map deferral_of]. case_bool_decide; [by left | by right].
  - subst why. cbn [app]. eexists _, _. split; [reflexivity|].
    rewrite !Forall_cons, Forall_nil. split_and!; try exact I; [by left | by right; left].
Qed.

Lemma carry_out_Ok cfg o r snap continued current size reason s l s' sn : size <= current →
  carry_out cfg o r snap continued current size reason s = (l, s', Ok sn) →
  all_granted r ∧ ∃ why, wait_reason r size current (claims_fenced_at_zero o snap) why ∧
    s' = final_state o r size current reason why s.
Proof.
  intros Hle Hrun. assert (all_granted r ∧ ∃ why,
    wait_reason r size current (claims_fenced_at_zero o snap) why) as [HG [why Hwhy]].
  { unfold carry_out in Hrun. rewrite (proj2 (Z.leb_le _ _) Hle), (proj2 (Z.ltb_ge _ _) Hle) in Hrun.
    unfold restore_watchdog, scale_in, complete, and_then, on_error, fence, call, load_state,
      _write_state, pure, suppress, wait_reason in *.
    destruct (renewed r) eqn:G1; [|discriminate Hrun].
    destruct (fenced r) eqn:G2; [|destruct (_record_provider_failure _ _ _ _ _) as [[??]?]; discriminate Hrun].
    destruct (watchdog r) eqn:G3; [|destruct (_record_provider_failure _ _ _ _ _) as [[??]?]; discriminate Hrun].
    destruct (size <? current) eqn:Es.
    - destruct (plan_waits r size current (claims_fenced_at_zero o snap)) as [[w Hplan]|[e Hplan]];
        rewrite Hplan in Hrun; cbn [app snd] in Hrun.
      + destruct (renewed_again r) eqn:G4; [|discriminate Hrun]. split; [done|]. exists (Some w). eauto.
      + destruct e; try destruct (_record_provider_failure _ _ _ _ _) as [[??]?]; discriminate Hrun.
    - destruct (renewed_again r) eqn:G4; [|discriminate Hrun]. split; [done|]. by exists None. }
  split; [done|]. exists why. split; [done|].
  destruct (carry_out_granted cfg o r snap continued current size reason why s Hle HG Hwhy)
    as (l' & sn' & E & _). rewrite E in Hrun. by injection Hrun as <- <- <-.
Qed.

Lemma carry_out_target cfg o r snap continued current size reason s l s' sn :
  carry_out cfg o r snap continued current size reason s = (l, s', Ok sn) →
  gce_target sn = gce_target snap.
Proof.
  unfold carry_out.
  intros (? & ? & ? & ? & _ & H & _)%and_then_Ok.
  apply and_then_Ok in H as (? & ? & ? & ? & _ & H & _).
  apply and_then_Ok in H as (? & ? & ? & ? & _ & H & _).
  apply and_then_Ok in H as (? & ? & ? & ? & _ & H & _).
  apply and_then_Ok in H as (? & ? & ? & ? & _ & H & _).
  apply and_then_Ok in H as (? & ? & ? & ? & _ & H & _).
  unfold complete in H. apply and_then_Ok in H as (? & ? & ? & ? & _ & H & _).
  apply and_then_Ok in H as (? & ? & ? & ? & _ & H & _).
  apply and_then_Ok in H as (? & ? & ? & ? & _ & H & _). by injection H as <- <- <-.
Qed.

(** With both reads served, what a pass observes but for the cache. *)
Record served (o : Observed) (p : ProviderRouting) (ns : list NodeRow) : Prop := {
  served_routing : routing o = p;
  served_available : routing_available o = true;
  served_states : states o = Some (node_states ns);
  served_failures : failures o = 0;
  served_holding : holding o = false
}.

Lemma observe_served cfg r s p ns : read_routing r = Some p → nodes r = Some ns →
  served (observe cfg r s) p ns.
Proof. intros Hp Hn. unfold observe. rewrite Hp, Hn. by constructor. Qed.

Lemma served_error o p ns : served o p ns → provider_error o = None.
Proof.
  intros []. unfold provider_error, nodes_available. by rewrite served_available0, served_states0.
Qed.

Lemma choose_target_served cfg o o' p ns d current : served o p ns → served o' p ns →
  choose_target cfg o d current = choose_target cfg o' d current.
Proof.
  intros [H1 H2 H3 _ H5] [K1 K2 K3 _ K5]. unfold choose_target, primary_of, gce_has_active_lease, nodes_available.
  by rewrite H1, H2, H3, H5, K1, K2, K3, K5.
Qed.

(** A pass from its reads to its decision. *)
Lemma pass_decided cfg r d s p ns current counts size reason :
  dry_run cfg = false → read_routing r = Some p → nodes r = Some ns →
  managed_target r = Some current → managed_counts r = Some counts →
  choose_target cfg (observe cfg r s) d current = Ok (size, reason) →
  let o := observe cfg r s in let s' := with_routing p s in
  let snap := _snapshot cfg o s' d counts r size reason (pass_events cfg o s' current size reason) in
  pass cfg r d s s =
  (let '(l, s'', res) :=
     carry_out cfg o r snap (continuing s' current size) current size reason s' in
   (WriteState s' :: l, s'', res)).
Proof.
  intros Hd Hp Hn Ht Hc Hch. cbv zeta. unfold pass. rewrite Hd.
  destruct (observe_served cfg r s p ns Hp Hn) as [H1 H2 _ _ _]. cbv zeta.
  rewrite H2, H1. unfold and_then, _write_state, reply, pure, lift, load_state.
  rewrite Ht, Hc, Hch. cbn [fst snd app].
  by destruct (carry_out _ _ _ _ _ _ _ _ _) as [[l s''] res].
Qed.

Lemma final_state_cached o r size current reason why p s :
  with_routing p (final_state o r size current reason why (with_routing p s)) =
  final_state o r size current reason why (with_routing p s).
Proof. reflexivity. Qed.

Lemma deferral_roundtrip d : from_state (to_state d) = Some d.
Proof. by destruct d as [x y [w|]]. Qed.

Lemma continuing_final o r size current reason why fenced s :
  wait_reason r size current fenced why →
  continuing (final_state o r size current reason why s) current size = deferral_of size current why.
Proof.
  unfold continuing, final_state, wait_reason. cbn [gce_scale_in_deferral with_deferral].
  destruct (size <? current); [intros (w & -> & _) | by intros ->].
  cbn [deferral_of fmap option_fmap option_map]. rewrite deferral_roundtrip.
  cbn [source target]. by rewrite !Z.eqb_refl.
Qed.

(** Nothing new to say. *)
Lemma silent_events cfg o o' r size current reason why fenced s p ns : served o' p ns →
  size <= current → wait_reason r size current fenced why →
  pass_events cfg o' (final_state o r size current reason why s) current size reason = [].
Proof.
  intros Ho Hle Hwhy. unfold pass_events.
  rewrite (continuing_final _ _ _ _ _ _ _ _ Hwhy), (served_failures _ _ _ Ho).
  cbn [last_fallback_reason final_state with_deferral with_provider with_decision].
  rewrite String.eqb_refl.
  assert ((0 <? inventory_failure_hold_passes cfg) && (0 =? inventory_failure_hold_passes cfg + 1) = false)
    as -> by (apply andb_false_iff; rewrite Z.ltb_ge, Z.eqb_neq; lia).
  unfold wait_reason in Hwhy. destruct (Z.ltb_spec size current).
  - destruct Hwhy as (w & -> & _). cbn. by rewrite andb_false_r.
  - assert (size = current) as -> by lia. by rewrite Z.eqb_refl.
Qed.

Lemma pass_Ok cfg r d s l s1 snap current : dry_run cfg = false → managed_target r = Some current →
  pass cfg r d s s = (l, s1, Ok snap) →
  ∃ counts size reason, managed_counts r = Some counts ∧
    choose_target cfg (observe cfg r s) d current = Ok (size, reason).
Proof.
  intros Hd Ht. unfold pass. rewrite Hd. cbv zeta.
  unfold and_then, _write_state, reply, pure, fail, lift, load_state. rewrite Ht.
  destruct (managed_counts r) as [counts|]; [|discriminate].
  destruct (choose_target _ _ _ _) as [[size reason]|]; [by exists counts, size, reason | discriminate].
Qed.

(** A state file that says ready gives the same claim fence. *)
Lemma fenced_same o o1 s s1 p ns : served o p ns → served o1 p ns →
  provider_ready s = VBool true → provider_ready s1 = VBool true →
  ∀ cfg d counts r size reason ev ev',
  claims_fenced_at_zero o (_snapshot cfg o (with_routing p s) d counts r size reason ev) =
  claims_fenced_at_zero o1 (_snapshot cfg o1 s1 d counts r size reason ev').
Proof.
  intros Ho Ho1 Hs Hs1 *. unfold claims_fenced_at_zero, _snapshot. cbn [snap_provider_ready].
  rewrite (served_error _ _ _ Ho), (served_error _ _ _ Ho1),
    (served_routing _ _ _ Ho), (served_routing _ _ _ Ho1).
  unfold is_ready. cbn [provider_ready with_routing]. by rewrite Hs, Hs1.
Qed.

Lemma final_ready o r size current reason why s p ns : served o p ns →
  provider_ready (final_state o r size current reason why s) = VBool true.
Proof. intros Ho. unfold final_state. by rewrite (served_error _ _ _ Ho). Qed.

Lemma final_state_again o o1 r size current reason why s p ns : served o p ns → served o1 p ns →
  final_state o1 r size current reason why (final_state o r size current reason why s) =
  final_state o r size current reason why s.
Proof.
  intros Ho Ho1. unfold final_state.
  by rewrite (served_error _ _ _ Ho), (served_error _ _ _ Ho1), (served_failures _ _ _ Ho),
    (served_failures _ _ _ Ho1).
Qed.

(** A settled decision is published once. After a completed pass that
    served both reads and did not scale up, on a controller that was ready,
    the same replies make the next pass complete too, leave the state file
    exactly as it is and publish no event: a deferred scale-in, like an
    unchanged target, is reported once. *)
Lemma repeated_pass_silent cfg r s l s1 snap p ns current :
  dry_run cfg = false → read_routing r = Some p → nodes r = Some ns →
  provider_ready s = VBool true → managed_target r = Some current →
  reconcile cfg r s = (l, s1, Ok snap) → gce_target snap <= current →
  ∃ l' snap', reconcile cfg r s1 = (l', s1, Ok snap') ∧
    Forall (λ e, match e with Renew published => snap_events published = []
                 | Resize _ | DeleteInstances _ => False | _ => True end) l'.
Proof.
  intros Hd Hp Hn Hready Ht Hrun Hle.
  pose proof (observe_served cfg r s p ns Hp Hn) as Ho.
  destruct (reconcile_pass cfg r) as [[e He]|[d Hrec]]; [rewrite He in Hrun; discriminate|].
  rewrite Hrec in Hrun.
  destruct (pass_Ok _ _ _ _ _ _ _ _ Hd Ht Hrun) as (counts & size & reason & Hc & Hch).
  rewrite (pass_decided cfg r d s p ns current counts size reason) in Hrun by done.
  destruct (carry_out _ _ _ _ _ _ _ _ _) as [[l0 s0] res] eqn:Hco.
  injection Hrun as <- -> ->.
  pose proof (carry_out_target _ _ _ _ _ _ _ _ _ _ _ _ Hco) as Htarget.
  cbn [gce_target _snapshot] in Htarget. rewrite Htarget in Hle.
  destruct (carry_out_Ok _ _ _ _ _ _ _ _ _ _ _ _ Hle Hco) as (HG & why & Hwhy & Hs1).
  set (o := observe cfg r s) in *. set (o1 := observe cfg r s1).
  assert (Ho1 : served o1 p ns) by by apply observe_served.
  assert (with_routing p s1 = s1) as Hw by (rewrite Hs1; apply final_state_cached).
  rewrite Hrec, (pass_decided cfg r d s1 p ns current counts size reason); try done;
    [|rewrite <- Hch; by apply choose_target_served with p ns].
  cbv zeta. rewrite Hw. fold o1.
  assert (pass_events cfg o1 s1 current size reason = []) as ->
    by (rewrite Hs1; by eapply silent_events).
  assert (Hr1 : provider_ready s1 = VBool true)
    by (rewrite Hs1; by apply (final_ready _ _ _ _ _ _ _ p ns)).
  rewrite (fenced_same o o1 s s1 p ns Ho Ho1 Hready Hr1 cfg d counts r size reason _ []) in Hwhy.
  destruct (carry_out_granted cfg o1 r (_snapshot cfg o1 s1 d counts r size reason [])
    (continuing s1 current size) current size reason why s1 Hle HG Hwhy) as (l' & sn & E & Hev).
  rewrite E. exists (WriteState s1 :: l'), sn. split.
  - do 2 f_equal. rewrite Hs1. by apply (final_state_again _ _ _ _ _ _ _ _ p ns).
  - constructor; [done|]. eapply Forall_impl; [exact Hev|]. intros [|pub| | | |]; try done.
    intros [H|[H|H]]; [exact H | exact H |]. destruct H. rewrite Hs1. by eapply continuing_final.
Qed.
End reconcile.

(** * A pass by evaluation *)

#[local] Existing Instance sample_repr.

Definition sample_settings : Settings := {|
  environment := "prod"; epoch := "prod:1"; source_sha := "sha"; global_cap := 10;
  jobs_per_slot := 6; dry_run := false; inventory_failure_hold_passes := 4 |}.
Definition sample_file : StateFile := {|
  last_good_provider_routing := VNone; inventory_failures := VNone;
  gce_scale_in_deferral := VNone; last_fallback_reason := VStr "HETZNER_PRIMARY_UNAVAILABLE";
  provider_ready := VBool true; last_provider_error_code := VNone;
  last_provider_error_at := VNone |}.
(** Five instances run; three are wanted, and one of them is idle. *)
Definition sample_worker : NodeRow := {|
  node_id := "gce-1"; provider_resource_id := "vm-1"; provider := Some "gcp";
  status := Some "active"; ready := Bool true; screening_concurrency := None;
  admission_open := Unset; active_lease := Bool false; instance_busy := Bool false;
  heartbeat_seen_at := "t" |}.
Definition sample_replies (size : Z) : Replies := {|
  status_counts := Some (31, 6); provider_settings := Some (_routing_to_state sample_routing);
  nodes := Some [sample_primary; sample_worker]; managed_target := Some size;
  managed_counts := Some {| healthy := size; pending := 0; draining := 0 |};
  renewed := true; fenced := true; watchdog := true; resized := true;
  reread := Some {| rows := [sample_worker]; legacy_gcp_running_attempts := Some 0 |};
  members := Some ["gce-1"]; deleted := true; renewed_again := true;
  error_clock := "t1"; success_clock := "t2"; failure_clock := "t3" |}.

Definition published (l : list Effect) : list (Z * string * list string) :=
  omap (λ e, match e with
             | Renew p => Some (gce_target p, fallback_reason p, event_type <$> snap_events p)
             | _ => None end) l.

(** Scaling in is published once and waits; scaling up happens. *)
Example sample_scale_in :
  published (reconcile sample_settings (sample_replies 5) sample_file).1.1 =
  [(3, "HETZNER_BACKLOG_OVERFLOW", ["gce_target_changed"; "fallback_reason_changed"]);
   (3, "GCE_SCALE_IN_DEFERRED", ["gce_scale_in_deferred"])].
Proof. vm_compute. reflexivity. Qed.
Example sample_scale_up :
  Resize 3 ∈ (reconcile sample_settings (sample_replies 1) sample_file).1.1.
Proof. apply (list_elem_of_lookup_2 _ 4). vm_compute. reflexivity. Qed.

Lemma repeated_pass_silent_witness :
  let s1 := (reconcile sample_settings (sample_replies 5) sample_file).1.2 in
  ∃ l' snap', reconcile sample_settings (sample_replies 5) s1 = (l', s1, Ok snap') ∧
    Forall (λ e, match e with Renew published => snap_events published = []
                 | Resize _ | DeleteInstances _ => False | _ => True end) l'.
Proof.
  intros s1. destruct (reconcile sample_settings (sample_replies 5) sample_file)
    as [[l s'] [snap|e]] eqn:E; [|vm_compute in E; discriminate E].
  apply (repeated_pass_silent sample_settings (sample_replies 5) sample_file l s1 snap
    sample_routing [sample_primary; sample_worker] 5).
  - reflexivity.
  - vm_compute. reflexivity.
  - reflexivity.
  - reflexivity.
  - reflexivity.
  - exact E.
  - vm_compute in E. injection E as _ _ <-. vm_compute. discriminate.
Defined.

(** Without a node inventory the pass holds the five instances. *)
Definition blind_replies : Replies := {|
  status_counts := Some (31, 6); provider_settings := Some (_routing_to_state sample_routing);
  nodes := None; managed_target := Some 5;
  managed_counts := Some {| healthy := 5; pending := 0; draining := 0 |};
  renewed := true; fenced := true; watchdog := true; resized := true; reread := None;
  members := None; deleted := true; renewed_again := true;
  error_clock := "t1"; success_clock := "t2"; failure_clock := "t3" |}.

Lemma unreadable_platform_holds_witness :
  Forall (keeps blind_replies) (reconcile sample_settings blind_replies sample_file).1.1.
Proof.
  apply (unreadable_platform_holds sample_settings blind_replies sample_file).
  left. vm_compute. reflexivity.
Defined.

Lemma pass_never_shrinks_witness :
  Forall (allowed sample_settings (sample_replies 5))
    (reconcile sample_settings (sample_replies 5) sample_file).1.1.
Proof. exact (proj1 (pass_never_shrinks sample_settings (sample_replies 5) sample_file)). Defined.
