(* ===== verification/CollectorPolicy.v ===== *)
(** The signed policy of the service collector and the operator intents that
    narrow it: [CollectorPolicy], [TransferCanary] and [ManualTransfer] of
    [ditto/treasury/collector.py], [ManualBatchTransfer] of [manual_batch.py],
    the request and approval schemas of
    [ditto_screening_protocol/treasury_manual.py] and
    [treasury_manual_limit.py], and [policy_transition] of
    [collector_migration.py].

    A dataclass is a record whose [__post_init__] is a checking function; the
    JSON a journal keeps is decoded field by field, a missing or unexpected
    field raising [TypeError] as the constructor does.  The signature check of
    the wallet library is the parameter [VerifySignature]. *)
From Stdlib Require Import ZArith Lia Ascii.
From stdpp Require Import base list strings.
From S2P Require Import Prelude PyText ServiceAllocation.

#[local] Open Scope string_scope.
#[local] Open Scope Z_scope.

(** [verify_public_signature(address, message, signature)] *)
Class VerifySignature := verify_public_signature : string → string → list Z → bool.

Definition empty (s : string) : bool := String.eqb s "".
Definition positive_bounded (z : Z) : bool := (0 <? z) && (z <? 2 ^ 63).

Fixpoint has_suffix (suffix s : string) : bool :=
  String.eqb s suffix || match s with EmptyString => false | String _ s' => has_suffix suffix s' end.

(** * The policy *)

Record CollectorPolicy := {
  genesis_hash : string;
  runtime_code_hash : string;
  collector_coldkey : string;
  collector_hotkey : string;
  registration_delegate : string;
  transfer_delegate : string;
  revision : Z;
  start_block : Z;
  destinations : list ServiceDestination;
  max_registration_burn_rao : Z;
  registration_budget_rao : Z;
  max_fee_rao : Z;
  fee_reserve_rao : Z;
  recovery_cooldown_blocks : Z;
  distribution_interval_blocks : Z;
  max_distribution_rao : Z;
  gcp_project : string;
  registration_service_account : string;
  transfer_service_account : string;
  registration_secret_version : Z;
  transfer_secret_version : Z;
  enabled : bool;
  netuid : Z
}.

Definition hash_field (s : string) : bool :=
  (String.length s =? 66)%nat && String.prefix "0x" s &&
  match fromhex (String.substring 2 64 s) with Some _ => true | None => false end.

Definition signer_keys (p : CollectorPolicy) : list string :=
  [collector_coldkey p; collector_hotkey p; registration_delegate p; transfer_delegate p].

Definition policy_integers (p : CollectorPolicy) : list Z :=
  [revision p; start_block p; max_registration_burn_rao p; registration_budget_rao p;
   max_fee_rao p; fee_reserve_rao p; recovery_cooldown_blocks p; distribution_interval_blocks p;
   max_distribution_rao p; registration_secret_version p; transfer_secret_version p].

Definition check_policy (p : CollectorPolicy) : result unit :=
  require (hash_field (genesis_hash p)) (ValueError "invalid genesis_hash");;
  require (hash_field (runtime_code_hash p)) (ValueError "invalid runtime_code_hash");;
  require (bool_decide (NoDup (signer_keys p)) && negb (existsb empty (signer_keys p)))
    (ValueError "four distinct collector and delegate identities required");;
  require (netuid p =? 118)
    (ValueError "only SN118 and explicit boolean activation supported");;
  require (forallb positive_bounded (policy_integers p))
    (ValueError "positive bounded integer required");;
  require (negb (empty (gcp_project p)) &&
           has_suffix ".iam.gserviceaccount.com" (registration_service_account p) &&
           has_suffix ".iam.gserviceaccount.com" (transfer_service_account p) &&
           negb (String.eqb (registration_service_account p) (transfer_service_account p)))
    (ValueError "distinct dedicated GCP signer principals required");;
  require (max_fee_rao p <=? fee_reserve_rao p) (ValueError "fee reserve must cover maximum fee");;
  require ((0 <? sum_Z (allocation_bps <$> destinations p)) &&
           (sum_Z (allocation_bps <$> destinations p) <=? 10000))
    (ValueError "combined service pool must be between 1 and 10000 bps");;
  plan_service_distribution 1 1 (collector_coldkey p) (destinations p);;
  require (negb (existsb (λ d, bool_decide (holding_coldkey d ∈ signer_keys p)) (destinations p)))
    (ValueError "holding wallets must be distinct from signer roles").

Definition destination_json (d : ServiceDestination) : Json :=
  JObj [("bucket_id", JStr (bucket_id d)); ("allocation_bps", JInt (allocation_bps d));
        ("holding_coldkey", JStr (holding_coldkey d))].

(** [asdict(policy)] *)
Definition policy_dict (p : CollectorPolicy) : list (string * Json) :=
  [("genesis_hash", JStr (genesis_hash p)); ("runtime_code_hash", JStr (runtime_code_hash p));
   ("collector_coldkey", JStr (collector_coldkey p)); ("collector_hotkey", JStr (collector_hotkey p));
   ("registration_delegate", JStr (registration_delegate p));
   ("transfer_delegate", JStr (transfer_delegate p)); ("revision", JInt (revision p));
   ("start_block", JInt (start_block p));
   ("destinations", JList (map destination_json (destinations p)));
   ("max_registration_burn_rao", JInt (max_registration_burn_rao p));
   ("registration_budget_rao", JInt (registration_budget_rao p));
   ("max_fee_rao", JInt (max_fee_rao p)); ("fee_reserve_rao", JInt (fee_reserve_rao p));
   ("recovery_cooldown_blocks", JInt (recovery_cooldown_blocks p));
   ("distribution_interval_blocks", JInt (distribution_interval_blocks p));
   ("max_distribution_rao", JInt (max_distribution_rao p)); ("gcp_project", JStr (gcp_project p));
   ("registration_service_account", JStr (registration_service_account p));
   ("transfer_service_account", JStr (transfer_service_account p));
   ("registration_secret_version", JInt (registration_secret_version p));
   ("transfer_secret_version", JInt (transfer_secret_version p));
   ("enabled", JBool (enabled p)); ("netuid", JInt (netuid p))].

Definition policy_fields : list string :=
  ["genesis_hash"; "runtime_code_hash"; "collector_coldkey"; "collector_hotkey";
   "registration_delegate"; "transfer_delegate"; "revision"; "start_block"; "destinations";
   "max_registration_burn_rao"; "registration_budget_rao"; "max_fee_rao"; "fee_reserve_rao";
   "recovery_cooldown_blocks"; "distribution_interval_blocks"; "max_distribution_rao";
   "gcp_project"; "registration_service_account"; "transfer_service_account";
   "registration_secret_version"; "transfer_secret_version"; "enabled"; "netuid"].

(** A keyword argument of a dataclass constructor.  A value of another type
    than the field's is refused here; the code refuses it in [__post_init__] or
    in the comparison with the current policy that follows. *)
Definition str_field (k : string) (j : Json) : result string :=
  match lookup_key k j with
  | Some (JStr s) => Ok s
  | Some _ => Err (ValueError k)
  | None => Err (TypeError "missing argument")
  end.
Definition int_field (k : string) (j : Json) : result Z :=
  match lookup_key k j with
  | Some (JInt i) => Ok i
  | Some _ => Err (ValueError k)
  | None => Err (TypeError "missing argument")
  end.
(** Only the fields of the dataclass are accepted as keyword arguments. *)
Definition only_keys (keys : list string) (j : Json) : result unit :=
  match j with
  | JObj l => require (bool_decide (Forall (λ k, k ∈ keys) l.*1))
                (TypeError "unexpected keyword argument")
  | _ => Err (TypeError "not a mapping")
  end.

Definition decode_destination (j : Json) : result ServiceDestination :=
  only_keys ["bucket_id"; "allocation_bps"; "holding_coldkey"] j;;
  str_field "bucket_id" j ≫= λ b, int_field "allocation_bps" j ≫= λ a,
  str_field "holding_coldkey" j ≫= λ h,
  Ok {| bucket_id := b; allocation_bps := a; holding_coldkey := h |}.

Fixpoint map_result {A B} (f : A → result B) (l : list A) : result (list B) :=
  match l with
  | [] => Ok []
  | x :: l' => f x ≫= λ y, map_result f l' ≫= λ ys, Ok (y :: ys)
  end.

(** [decode(raw)] of [historical_policy_limits]. *)
Definition decode_policy (raw : Json) : result CollectorPolicy :=
  member "destinations" raw ≫= λ ds,
  (match ds with JList l => map_result decode_destination l
                | _ => Err (TypeError "not iterable") end) ≫= λ ds,
  only_keys policy_fields raw;;
  str_field "genesis_hash" raw ≫= λ f1, str_field "runtime_code_hash" raw ≫= λ f2,
  str_field "collector_coldkey" raw ≫= λ f3, str_field "collector_hotkey" raw ≫= λ f4,
  str_field "registration_delegate" raw ≫= λ f5, str_field "transfer_delegate" raw ≫= λ f6,
  int_field "revision" raw ≫= λ f7, int_field "start_block" raw ≫= λ f8,
  int_field "max_registration_burn_rao" raw ≫= λ f9,
  int_field "registration_budget_rao" raw ≫= λ f10,
  int_field "max_fee_rao" raw ≫= λ f11, int_field "fee_reserve_rao" raw ≫= λ f12,
  int_field "recovery_cooldown_blocks" raw ≫= λ f13,
  int_field "distribution_interval_blocks" raw ≫= λ f14,
  int_field "max_distribution_rao" raw ≫= λ f15, str_field "gcp_project" raw ≫= λ f16,
  str_field "registration_service_account" raw ≫= λ f17,
  str_field "transfer_service_account" raw ≫= λ f18,
  int_field "registration_secret_version" raw ≫= λ f19,
  int_field "transfer_secret_version" raw ≫= λ f20,
  (match lookup_key "enabled" raw with
   | None => Ok false | Some (JBool b) => Ok b | Some _ => Err (ValueError "enabled") end) ≫= λ f21,
  (match lookup_key "netuid" raw with
   | None => Ok 118 | Some (JInt i) => Ok i | Some _ => Err (ValueError "netuid") end) ≫= λ f22,
  let p := {| genesis_hash := f1; runtime_code_hash := f2; collector_coldkey := f3;
    collector_hotkey := f4; registration_delegate := f5; transfer_delegate := f6; revision := f7;
    start_block := f8; destinations := ds; max_registration_burn_rao := f9;
    registration_budget_rao := f10; max_fee_rao := f11; fee_reserve_rao := f12;
    recovery_cooldown_blocks := f13; distribution_interval_blocks := f14;
    max_distribution_rao := f15; gcp_project := f16; registration_service_account := f17;
    transfer_service_account := f18; registration_secret_version := f19;
    transfer_secret_version := f20; enabled := f21; netuid := f22 |} in
  check_policy p;; Ok p.

Section digest.
Context {SH : Sha256}.
(** [CollectorPolicy.digest] *)
Definition digest (p : CollectorPolicy) : string := sha256 (_canonical (JObj (policy_dict p))).
End digest.

(** * [policy_transition] *)

Definition HISTORICAL_COLLECTOR_CODE_HASH : string :=
  "0x43bc67be9df30636d7e948e7bdb1ed065f2fb92029458cc939abf89d76d8ada3".
Definition V473_COLLECTOR_CODE_HASH : string :=
  "0x7773f5c0a6d6e9ea9ff347edcc491246eec08a5cf441d964ee96f40d7fa65a08".
Definition V478_COLLECTOR_CODE_HASH : string :=
  "0x7e722b3aa5c9192c98665a5d65fa91364bf9055e21fc90efce6d59bf4ef414e1".
Definition V481_COLLECTOR_CODE_HASH : string :=
  "0x5fb504c1c793a3ddb5456f189ddef98b5146853aea6ff998501f1b6c6eb720bc".
Definition V482_COLLECTOR_CODE_HASH : string :=
  "0x37d83888085e2f1b7c9c36c1341cfb6c0d6689f8efd6e0c6128e3666eb5d8b62".
Definition AUDITED_COLLECTOR_CODE_HASH : string :=
  "0x99856ec64a61eb8011999a803bd336979512275214a173fea583abd5c89952d2".

Definition audited_transitions : list (string * string) :=
  [(HISTORICAL_COLLECTOR_CODE_HASH, V473_COLLECTOR_CODE_HASH);
   (HISTORICAL_COLLECTOR_CODE_HASH, V478_COLLECTOR_CODE_HASH);
   (V473_COLLECTOR_CODE_HASH, V478_COLLECTOR_CODE_HASH);
   (HISTORICAL_COLLECTOR_CODE_HASH, V482_COLLECTOR_CODE_HASH);
   (V473_COLLECTOR_CODE_HASH, V482_COLLECTOR_CODE_HASH);
   (HISTORICAL_COLLECTOR_CODE_HASH, V481_COLLECTOR_CODE_HASH);
   (V473_COLLECTOR_CODE_HASH, V481_COLLECTOR_CODE_HASH);
   (V478_COLLECTOR_CODE_HASH, V481_COLLECTOR_CODE_HASH);
   (V478_COLLECTOR_CODE_HASH, V482_COLLECTOR_CODE_HASH);
   (V481_COLLECTOR_CODE_HASH, V482_COLLECTOR_CODE_HASH);
   (V482_COLLECTOR_CODE_HASH, AUDITED_COLLECTOR_CODE_HASH)].

(** [{key for key in before if before[key] != after[key]}] *)
Definition changed_fields (old new : CollectorPolicy) : list string :=
  (filter (λ ba : (string * Json) * (string * Json), same_json ba.1.2 ba.2.2 = false)
     (zip (policy_dict old) (policy_dict new))).*1.*1.
Definition same_set (a b : list string) : bool :=
  bool_decide (Forall (λ x, x ∈ b) a) && bool_decide (Forall (λ x, x ∈ a) b).

Definition isolated_account (role : string) : string :=
  "sn118-collector-" +:+ role +:+ "@sn118-gamma-custody.iam.gserviceaccount.com".
Definition accounts_isolated (p : CollectorPolicy) : bool :=
  String.eqb (registration_service_account p) (isolated_account "registration") &&
  String.eqb (transfer_service_account p) (isolated_account "transfer").

(** Both branches: an audited runtime upgrade, or the one move of custody. *)
Definition runtime_upgrade (old new : CollectorPolicy) : bool :=
  same_set (changed_fields old new) ["revision"; "runtime_code_hash"] &&
  String.eqb (gcp_project old) (gcp_project new) &&
  String.eqb (gcp_project new) "sn118-gamma-custody" &&
  (revision new =? revision old + 1) &&
  bool_decide ((runtime_code_hash old, runtime_code_hash new) ∈ audited_transitions) &&
  accounts_isolated new.

Definition policy_transition (old new : CollectorPolicy) : result unit :=
  if runtime_upgrade old new then Ok tt else
  require (same_set (changed_fields old new)
             ["revision"; "gcp_project"; "registration_delegate"; "transfer_delegate";
              "registration_service_account"; "transfer_service_account"] &&
           String.eqb (gcp_project old) "ditto-app-dev" &&
           String.eqb (gcp_project new) "sn118-gamma-custody" &&
           (revision new =? revision old + 1))
    (ValueError "unsupported custody-only policy transition");;
  require (accounts_isolated new) (ValueError "new signer account not isolated");;
  require (negb (bool_decide (registration_delegate old ∈ [registration_delegate new; transfer_delegate new]) ||
                 bool_decide (transfer_delegate old ∈ [registration_delegate new; transfer_delegate new])))
    (ValueError "fresh delegates required").

(** * Operator intents *)

Record TransferCanary := { max_alpha_rao : Z; canary_after_operation : Z }.
#[global] Instance TransferCanary_eq_dec : EqDecision TransferCanary.
Proof. solve_decision. Defined.

Definition check_canary (c : TransferCanary) : result unit :=
  require (positive_bounded (max_alpha_rao c) &&
           (0 <=? canary_after_operation c) && (canary_after_operation c <? 2 ^ 63))
    (ValueError "invalid transfer canary bounds").

(** [TransferCanary(body["max_alpha_rao"], body["after_operation"])] *)
Definition decode_canary (body : Json) : result TransferCanary :=
  member "max_alpha_rao" body ≫= λ m, member "after_operation" body ≫= λ a,
  match m, a with
  | JInt m, JInt a =>
      let c := {| max_alpha_rao := m; canary_after_operation := a |} in check_canary c;; Ok c
  | _, _ => Err (ValueError "invalid transfer canary bounds")
  end.

Definition canary_dict (c : TransferCanary) : list (string * Json) :=
  [("max_alpha_rao", JInt (max_alpha_rao c)); ("after_operation", JInt (canary_after_operation c))].

(** One source of a batch. *)
Record ManualSourceClaim := { claim_block : Z; claim_amount : Z }.
(** What [ManualBatchTransfer] adds; the approval is the raw dict. *)
Record Batch := { sources : list ManualSourceClaim; manual_approval : Json }.

(** [ManualTransfer], and [ManualBatchTransfer] when [batch] is there. *)
Record ManualTransfer := {
  request_id : string;
  after_operation : Z;
  source_block : Z;
  request_bucket : string;
  amount_rao : Z;
  retained_alpha_rao : Z;
  expires_block : Z;
  reason : string;
  batch : option Batch
}.

#[global] Instance ManualSourceClaim_eq_dec : EqDecision ManualSourceClaim.
Proof. solve_decision. Defined.

(** [str(UUID(s)) == s]: 8-4-4-4-12 lower-case hexadecimal digits. *)
Fixpoint uuid_at (i : nat) (s : string) : bool :=
  match s with
  | EmptyString => (i =? 36)%nat
  | String c s' =>
      (if bool_decide (i ∈ [8; 13; 18; 23])%nat then code c =? 45 else lower_hex (code c)) &&
      uuid_at (S i) s'
  end.
Definition canonical_uuid (s : string) : bool := uuid_at 0 s.

Definition request_integers (r : ManualTransfer) : list Z :=
  [after_operation r; source_block r; amount_rao r; retained_alpha_rao r; expires_block r].

Definition bounded_reason (s : string) : bool :=
  (8 <=? stripped_length s) && (stripped_length s <=? 240).

(** [^[a-z][a-z0-9_]{1,47}$] *)
Definition bucket_text (s : string) : bool :=
  match s with
  | EmptyString => false
  | String c s' => between 97 (code c) 122 && (1 <=? String.length s')%nat &&
      (String.length s' <=? 47)%nat &&
      str_forall (λ c, between 97 c 122 || between 48 c 57 || (c =? 95)) s'
  end.
Definition wire_positive (z : Z) : bool := (0 <? z) && (z <=? 2 ^ 53 - 1).

Fixpoint increasing (l : list Z) : bool :=
  match l with
  | x :: (y :: _) as l' => (x <? y) && increasing l'
  | _ => true
  end.

(** [ManualBatchRequest.model_validate]: the field constraints of
    [ManualRequest] and [ManualSourceClaim], then [exact_sources]. *)
Definition batch_request_valid (r : ManualTransfer) (l : list ManualSourceClaim) : bool :=
  canonical_uuid (request_id r) && forallb wire_positive (request_integers r) &&
  bucket_text (request_bucket r) && (8 <=? String.length (reason r))%nat &&
  (String.length (reason r) <=? 240)%nat && String.eqb (strip (reason r)) (reason r) &&
  (1 <=? length l)%nat && (length l <=? 512)%nat &&
  forallb (λ s, wire_positive (claim_block s) && wire_positive (claim_amount s)) l &&
  increasing (map claim_block l) &&
  bool_decide (head (map claim_block l) = Some (source_block r)) &&
  (sum_Z (map claim_amount l) =? amount_rao r).

(** Both [__post_init__] methods. *)
Definition check_manual (r : ManualTransfer) : result unit :=
  require (canonical_uuid (request_id r)) (ValueError "canonical manual request UUID required");;
  require (forallb positive_bounded (request_integers r))
    (ValueError "positive bounded manual transfer integer required");;
  require (negb (empty (request_bucket r))) (ValueError "manual bucket required");;
  require (bounded_reason (reason r)) (ValueError "bounded manual operator reason required");;
  match batch r with
  | None => Ok tt
  | Some b => require (batch_request_valid r (sources b)) (ValueError "validation error")
  end.

(** ** As JSON *)

Definition claim_json (s : ManualSourceClaim) : Json :=
  JObj [("source_block", JInt (claim_block s)); ("amount_rao", JInt (claim_amount s))].

(** [asdict(request)] *)
Definition manual_dict (r : ManualTransfer) : list (string * Json) :=
  [("request_id", JStr (request_id r)); ("after_operation", JInt (after_operation r));
   ("source_block", JInt (source_block r)); ("bucket_id", JStr (request_bucket r));
   ("amount_rao", JInt (amount_rao r)); ("retained_alpha_rao", JInt (retained_alpha_rao r));
   ("expires_block", JInt (expires_block r)); ("reason", JStr (reason r))] ++
  match batch r with
  | None => []
  | Some b => [("sources", JList (map claim_json (sources b)));
               ("manual_approval", manual_approval b)]
  end.

(** Dataclass equality. *)
Definition same_request (a b : ManualTransfer) : bool :=
  same_json (JObj (manual_dict a)) (JObj (manual_dict b)).

Definition decode_claim (j : Json) : result ManualSourceClaim :=
  match as_int (lookup_key "source_block" j), as_int (lookup_key "amount_rao" j) with
  | Some b, Some a => Ok {| claim_block := b; claim_amount := a |}
  | _, _ => Err (ValueError "validation error")
  end.

Definition manual_fields : list string :=
  ["request_id"; "after_operation"; "source_block"; "bucket_id"; "amount_rao";
   "retained_alpha_rao"; "expires_block"; "reason"].

(** The constructor by whether [sources] is in the body. *)
Definition decode_manual (body : Json) : result ManualTransfer :=
  (match lookup_key "sources" body with
   | None => only_keys manual_fields body;; Ok None
   | Some l =>
       only_keys (manual_fields ++ ["sources"; "manual_approval"]) body;;
       (match lookup_key "manual_approval" body with
        | Some a => Ok a | None => Err (TypeError "missing argument") end) ≫= λ approval,
       (match l with JList l => map_result decode_claim l
                    | _ => Err (ValueError "validation error") end) ≫= λ claims,
       Ok (Some {| sources := claims; manual_approval := approval |})
   end) ≫= λ b,
  str_field "request_id" body ≫= λ f1, int_field "after_operation" body ≫= λ f2,
  int_field "source_block" body ≫= λ f3, str_field "bucket_id" body ≫= λ f4,
  int_field "amount_rao" body ≫= λ f5, int_field "retained_alpha_rao" body ≫= λ f6,
  int_field "expires_block" body ≫= λ f7, str_field "reason" body ≫= λ f8,
  let r := {| request_id := f1; after_operation := f2; source_block := f3; request_bucket := f4;
    amount_rao := f5; retained_alpha_rao := f6; expires_block := f7; reason := f8; batch := b |} in
  check_manual r;; Ok r.

(** * The cold-approved manual range *)

Definition MANUAL_LIMIT_DOMAIN : string := "ditto-treasury-manual-limit-v1:".
Definition MAX_MANUAL_ALPHA_RAO : Z := 2500000000000.

Record ManualLimitPolicy := {
  limit_policy_digest : string;
  limit_coldkey : string;
  limit_revision : Z;
  max_amount_rao : Z
}.
Record ManualLimitApproval := { approved : ManualLimitPolicy; signature : string }.
#[global] Instance ManualLimitPolicy_eq_dec : EqDecision ManualLimitPolicy.
Proof. solve_decision. Defined.
#[global] Instance ManualLimitApproval_eq_dec : EqDecision ManualLimitApproval.
Proof. solve_decision. Defined.

(** [^[1-9A-HJ-NP-Za-km-z]{47,48}$] *)
Definition address_text (s : string) : bool :=
  (47 <=? String.length s)%nat && (String.length s <=? 48)%nat &&
  str_forall (λ c, between 49 c 57 || between 65 c 72 || between 74 c 78 || between 80 c 90 ||
                   between 97 c 107 || between 109 c 122) s.
(** [^0x[0-9a-f]{128}$] *)
Definition signature_text (s : string) : bool :=
  match s with
  | String "0" (String "x" s') => (String.length s' =? 128)%nat && str_forall lower_hex s'
  | _ => false
  end.

(** [model_dump()] of both models. *)
Definition limit_dict (p : ManualLimitPolicy) : Json :=
  JObj [("version", JInt 1); ("scope", JStr "manual_once");
        ("collector_policy_digest", JStr (limit_policy_digest p));
        ("collector_coldkey", JStr (limit_coldkey p)); ("revision", JInt (limit_revision p));
        ("min_amount_rao", JInt 1); ("max_amount_rao", JInt (max_amount_rao p));
        ("max_sources", JInt 512)].
Definition approval_dict (a : ManualLimitApproval) : Json :=
  JObj [("policy", limit_dict (approved a)); ("signature", JStr (signature a))].

(** A [Literal] field: its default when absent. *)
Definition literal (k : string) (v : Json) (j : Json) : bool :=
  match lookup_key k j with None => true | Some w => same_json v w end.

Definition parse_limit (j : Json) : option ManualLimitPolicy :=
  match as_str (lookup_key "collector_policy_digest" j), as_str (lookup_key "collector_coldkey" j),
        as_int (lookup_key "revision" j), as_int (lookup_key "max_amount_rao" j) with
  | Some d, Some k, Some r, Some m =>
      if literal "version" (JInt 1) j && literal "scope" (JStr "manual_once") j &&
         literal "min_amount_rao" (JInt 1) j && literal "max_sources" (JInt 512) j &&
         digest_text d && address_text k && wire_positive r &&
         (0 <? m) && (m <=? MAX_MANUAL_ALPHA_RAO)
      then Some {| limit_policy_digest := d; limit_coldkey := k; limit_revision := r;
                   max_amount_rao := m |}
      else None
  | _, _, _, _ => None
  end.

(** [ManualLimitApproval.model_validate] *)
Definition parse_approval (j : Json) : result ManualLimitApproval :=
  match lookup_key "policy" j ≫= parse_limit, as_str (lookup_key "signature" j) with
  | Some p, Some s =>
      require (signature_text s) (ValueError "validation error");;
      Ok {| approved := p; signature := s |}
  | _, _ => Err (ValueError "validation error")
  end.

Section approval.
Context {SH : Sha256} {VS : VerifySignature}.

Definition limit_digest (p : ManualLimitPolicy) : string :=
  sha256 (MANUAL_LIMIT_DOMAIN +:+ _canonical (limit_dict p)).

(** [ManualLimitApproval.verify] *)
Definition verify_approval (a : ManualLimitApproval) (policy_digest coldkey : string)
    : result ManualLimitPolicy :=
  require (String.eqb (limit_policy_digest (approved a)) policy_digest &&
           String.eqb (limit_coldkey (approved a)) coldkey &&
           match fromhex (String.substring 2 128 (signature a)) with
           | Some bytes => verify_public_signature coldkey
                             (MANUAL_LIMIT_DOMAIN +:+ limit_digest (approved a)) bytes
           | None => false
           end)
    (ValueError "manual limit lacks exact collector cold approval");;
  Ok (approved a).

(** [manual_maximum], with the digest the intent is bound to. *)
Definition manual_maximum (r : ManualTransfer) (p : CollectorPolicy) (collector_digest : string)
    : result Z :=
  match batch r with
  | Some b =>
      parse_approval (manual_approval b) ≫= λ a,
      verify_approval a collector_digest (collector_coldkey p) ≫= λ l,
      Ok (max_amount_rao l)
  | None => Ok (max_distribution_rao p)
  end.
End approval.
