(* ===== verification/CollectorJournal.v ===== *)
(** The collector's journal of [ditto/treasury/collector.py] and
    [manual_batch.py]: its tables, the readings of its history, and what a
    receipt still owes each bucket.

    A [CollectorDb] is the SQLite file of one signer.  [call_json],
    [signed_json] and [settlement_json] are kept as the values they encode, and
    so is an event's payload.  A table is a list in insertion order; rows are
    never deleted, so the next INTEGER PRIMARY KEY is one more than the
    greatest.  [CollectorChain] holds what the chain adapter answers to one
    invocation. *)
From Stdlib Require Import ZArith Lia.
From stdpp Require Import base list strings.
From S2P Require Import Prelude PyText ServiceAllocation CollectorPolicy.

#[local] Open Scope string_scope.
#[local] Open Scope Z_scope.

(** * Observations and signed bytes *)

Record Observation := {
  block : Z;
  observed_hash : string;
  uid : option Z;
  burn_rao : Z;
  collector_free_rao : Z;
  delegate_free_rao : Z;
  alpha_available : Z
}.

Record SignedOperation := {
  encoded : string;
  signed_hash : string;
  signed_start : Z;
  signed_expires : Z;
  fee_rao : Z
}.

Record FinalizedEarnings := { earned_rao : Z; earned_hash : string; earned_digest : string }.
#[global] Instance FinalizedEarnings_eq_dec : EqDecision FinalizedEarnings.
Proof. solve_decision. Defined.

Record Settlement := {
  status : string;
  settled_block : option Z;
  settled_hash : option string;
  settled_uid : option Z;
  scanned_through : option Z;
  extrinsic_index : option Z;
  extrinsic_hash : option string
}.

(** [asdict(settlement)] *)
Definition settlement_dict (s : Settlement) : list (string * Json) :=
  [("status", JStr (status s)); ("block", jopt (settled_block s));
   ("block_hash", jstr (settled_hash s)); ("uid", jopt (settled_uid s));
   ("scanned_through", jopt (scanned_through s)); ("extrinsic_index", jopt (extrinsic_index s));
   ("extrinsic_hash", jstr (extrinsic_hash s))].

Definition earnings_dict (e : FinalizedEarnings) : list (string * Json) :=
  [("amount_rao", JInt (earned_rao e)); ("block_hash", JStr (earned_hash e));
   ("event_digest", JStr (earned_digest e))].

(** * The tables *)

Record Operation := {
  op_id : Z;
  op_state : string;
  op_role : string;
  op_amount : Z;
  op_source_block : option Z;
  op_bucket : option string;
  op_destination : option string;
  op_call : Json;
  op_signed : SignedOperation;
  op_at_block : Z;
  op_settlement : option Settlement;
  op_reconciled : Z
}.

Record Earning := {
  e_block : Z;
  e_amount : Z;
  e_hash : string;
  e_digest : string;
  completed : bool
}.

Record Event := { event_id : Z; event : string; payload : Json }.

Record CollectorDb := {
  pin : option (string * string);
  cursor : Z;
  earnings : list Earning;
  operations : list Operation;
  events : list Event
}.

Definition with_operations (db : CollectorDb) (l : list Operation) : CollectorDb := {|
  pin := pin db; cursor := cursor db; earnings := earnings db; operations := l; events := events db |}.
Definition with_earnings (db : CollectorDb) (l : list Earning) : CollectorDb := {|
  pin := pin db; cursor := cursor db; earnings := l; operations := operations db;
  events := events db |}.
Definition with_cursor (db : CollectorDb) (b : Z) : CollectorDb := {|
  pin := pin db; cursor := b; earnings := earnings db; operations := operations db;
  events := events db |}.
Definition with_events (db : CollectorDb) (l : list Event) : CollectorDb := {|
  pin := pin db; cursor := cursor db; earnings := earnings db; operations := operations db;
  events := l |}.

(** [COALESCE(MAX(id),0)] *)
Definition max_id (l : list Z) : Z := foldr Z.max 0 l.
Definition last_operation (db : CollectorDb) : Z := max_id (op_id <$> operations db).

(** [journal.event(name, payload)] *)
Definition log (db : CollectorDb) (name : string) (body : list (string * Json)) : CollectorDb :=
  with_events db (events db ++
    [{| event_id := max_id (event_id <$> events db) + 1; event := name; payload := JObj body |}]).

(** [SELECT ... FROM events WHERE event=? ORDER BY id] *)
Definition events_named (name : string) (db : CollectorDb) : list Event :=
  filter (λ e, String.eqb (event e) name = true) (events db).
(** [json_extract(payload,'$.request_id')=?] *)
Definition for_request (id : string) (e : Event) : bool :=
  bool_decide (as_str (lookup_key "request_id" (payload e)) = Some id).

Definition operation_by_id (id : Z) (db : CollectorDb) : option Operation :=
  find (λ o, op_id o =? id) (operations db).
Definition earning_at (b : Z) (db : CollectorDb) : option Earning :=
  find (λ e, e_block e =? b) (earnings db).
Definition receipt (e : Earning) : FinalizedEarnings :=
  {| earned_rao := e_amount e; earned_hash := e_hash e; earned_digest := e_digest e |}.

(** [SELECT 1 FROM events WHERE event='dispatch_reserved' AND id>? [AND id<?]] *)
Definition reserved_between (lo hi : Z) (db : CollectorDb) : bool :=
  existsb (λ e, (lo <? event_id e) && (event_id e <? hi)) (events_named "dispatch_reserved" db).

(** * The chain adapter *)

(** What the methods of [CollectorChain] return to one invocation for its
    policy; [observe n] is the answer to the [n]-th call. *)
Class CollectorChain := {
  observe : nat → string → result Observation;
  chain_earnings : Z → result (option FinalizedEarnings);
  prepare : string → Json → Observation → result SignedOperation;
  prepare_manual : Json → Observation → ManualTransfer → result SignedOperation;
  broadcast : string → result unit;
  reconcile : Operation → Observation → result Settlement;
  retryable_transfer_failure : Operation → result Settlement;
  active_approval : option ManualLimitApproval
}.

Section journal.
Context {SH : Sha256} {VS : VerifySignature}.

(** [CollectorJournal.__init__] with [initialize=True] on a fresh file, and the
    check of an existing one. *)
Definition initial_journal (p : CollectorPolicy) (role : string) : result CollectorDb :=
  require (bool_decide (role ∈ ["registration"; "transfer"])) (ValueError "unknown signer role");;
  Ok {| pin := Some (digest p, role); cursor := start_block p - 1; earnings := [];
        operations := []; events := [] |}.
Definition open_journal (db : CollectorDb) (p : CollectorPolicy) (role : string) : result unit :=
  require (bool_decide (role ∈ ["registration"; "transfer"])) (ValueError "unknown signer role");;
  require (bool_decide (pin db = Some (digest p, role)))
    (ValueError "existing journal pin unavailable or changed").

(** [tuple(SELECT digest,role FROM pin) != (policy.digest, role)] *)
Definition require_pin (db : CollectorDb) (p : CollectorPolicy) (role msg : string) : result unit :=
  match pin db with
  | None => Err (TypeError "'NoneType' object is not iterable")
  | Some dr => require (bool_decide (dr = (digest p, role))) (ValueError msg)
  end.

(** * Earlier policies *)

(** [proof[k] != v] raises. *)
Definition expect (k : string) (v proof : Json) : result unit :=
  member k proof ≫= λ w,
  require (same_json w v) (ValueError "runtime migration ancestry differs from current pin").

(** One step of the walk back through the approved runtime migrations:
    the policy the row led to, and the limits found so far. *)
Definition migration_step (st : CollectorPolicy * list (string * option Z)) (row : Event)
    : result (CollectorPolicy * list (string * option Z)) :=
  let '(current, limits) := st in
  let body := payload row in
  require (has_keys ["manifest"; "signature"; "from_policy"; "to_policy"] body)
    (ValueError "invalid runtime migration ancestry");;
  member "from_policy" body ≫= λ from, member "to_policy" body ≫= λ to,
  decode_policy from ≫= λ old, decode_policy to ≫= λ new,
  member "manifest" body ≫= λ proof,
  let same_policy := same_json (JObj (policy_dict new)) (JObj (policy_dict current)) in
  require (same_policy && negb (String.eqb (runtime_code_hash old) (runtime_code_hash new)))
    (ValueError "runtime migration ancestry differs from current pin");;
  expect "schema" (JStr "ditto-collector-custody-migration-v1") proof;;
  expect "role" (JStr "transfer") proof;;
  expect "from_policy_digest" (JStr (digest old)) proof;;
  expect "to_policy_digest" (JStr (digest new)) proof;;
  member "counts" proof ≫= λ counts, expect "events" (JInt (event_id row - 1)) counts;;
  policy_transition old new;;
  str_field "signature" body ≫= λ sig,
  let message := "ditto-collector-custody-migration-v1:" +:+ sha256 (_canonical proof) in
  match fromhex (removeprefix "0x" sig) with
  | None => Err (ValueError "non-hexadecimal number found in fromhex() arg")
  | Some bytes =>
      require (verify_public_signature (collector_coldkey current) message bytes)
        (ValueError "runtime migration ancestry lacks cold approval");;
      Ok (old, dict_set (digest old) (Some (event_id row)) limits)
  end.

Fixpoint fold_result {A B} (f : A → B → result A) (a : A) (l : list B) : result A :=
  match l with
  | [] => Ok a
  | x :: l' => f a x ≫= λ a', fold_result f a' l'
  end.

Definition historical_policy_limits (db : CollectorDb) (p : CollectorPolicy)
    : result (list (string * option Z)) :=
  let rows := take 17 (rev (events_named "offline_approved_runtime_migration" db)) in
  require (length rows <=? 16)%nat (ValueError "runtime migration ancestry exceeds bound");;
  fold_result migration_step (p, [(digest p, None)]) rows ≫= λ st, Ok st.2.

Definition historical_policy_matches (db : CollectorDb) (p : CollectorPolicy) (d : string)
    (event_id : Z) : result bool :=
  if String.eqb d (digest p) then Ok true else
  historical_policy_limits db p ≫= λ limits,
  Ok (match dict_get d limits with Some (Some limit) => event_id <? limit | _ => false end).

(** * The manual history *)

(** One [manual_unsigned_expired] row into the dict [expired]. *)
Definition expired_entry (expired : list (string * (Json * Z))) (row : Event)
    : result (list (string * (Json * Z))) :=
  let body := payload row in
  match as_str (lookup_key "request_id" body), as_str (lookup_key "policy" body),
        as_str (lookup_key "request_digest" body), as_int (lookup_key "after_operation" body),
        as_int (lookup_key "finalized_block" body) with
  | Some id, Some _, Some _, Some _, Some _ =>
      require (negb (bool_decide (id ∈ expired.*1))) (ValueError "duplicate unsigned expiry");;
      Ok (dict_set id (body, event_id row) expired)
  | _, _, _, _, _ => Err (ValueError "malformed unsigned expiry payload")
  end.

(** The loop variables of [manual_transfer_history]. *)
Record HistoryState := {
  ids : list string;
  previous : Z;
  previous_expired : bool;
  closed_before : Z;
  expired : list (string * (Json * Z));
  requests : list ManualTransfer
}.

(** [body.pop("policy", None)]: the rest, and the digest looked up in [limits]. *)
Definition without_policy (body : Json) : Json :=
  match body with JObj l => JObj (filter (λ kv, String.eqb kv.1 "policy" = false) l) | j => j end.
Definition request_digest (r : ManualTransfer) : string :=
  sha256 (_canonical (JObj (manual_dict r))).

Definition limit_of (limits : list (string * option Z)) (body : Json) : result (string * option Z) :=
  match lookup_key "policy" body with
  | Some (JList _) | Some (JObj _) => Err (TypeError "unhashable type")
  | Some (JStr d) =>
      match dict_get d limits with
      | Some l => Ok (d, l)
      | None => Err (ValueError "manual transfer policy changed")
      end
  | _ => Err (ValueError "manual transfer policy changed")
  end.

Definition bucket_funded (p : CollectorPolicy) (b : string) : bool :=
  existsb (λ d, String.eqb (bucket_id d) b && (0 <? allocation_bps d)) (destinations p).

(** The closure matches the intent and nothing was reserved in between. *)
Definition closure_matches (db : CollectorDb) (r : ManualTransfer) (d : string) (opened : Z)
    (closure : Json) (closed_at : Z) : bool :=
  bool_decide (as_str (lookup_key "policy" closure) = Some d) &&
  bool_decide (as_str (lookup_key "request_digest" closure) = Some (request_digest r)) &&
  bool_decide (as_int (lookup_key "after_operation" closure) = Some (after_operation r)) &&
  match as_int (lookup_key "finalized_block" closure) with
  | Some b => expires_block r <=? b | None => false end &&
  (opened <? closed_at) && negb (reserved_between opened closed_at db).

Definition history_step (db : CollectorDb) (p : CollectorPolicy)
    (limits : list (string * option Z)) (st : HistoryState) (row : Event) : result HistoryState :=
  require (closed_before st <? event_id row)
    (ValueError "manual intent advanced before unsigned expiry");;
  require (is_obj (payload row)) (AttributeError "pop");;
  limit_of limits (payload row) ≫= λ dl,
  require (match dl.2 with Some limit => event_id row <? limit | None => true end)
    (ValueError "manual transfer policy changed");;
  decode_manual (without_policy (payload row)) ≫= λ r,
  require (negb (bool_decide (request_id r ∈ ids st)) &&
           (previous st <=? after_operation r) &&
           negb ((after_operation r =? previous st) && negb (previous_expired st)))
    (ValueError "manual transfer history reset or reused");;
  manual_maximum r p dl.1 ≫= λ maximum,
  require ((amount_rao r <=? maximum) && bucket_funded p (request_bucket r) &&
           (start_block p <=? source_block r))
    (ValueError "manual intent exceeds signed policy");;
  match dict_get (request_id r) (expired st) with
  | Some (closure, closed_at) =>
      require (closure_matches db r dl.1 (event_id row) closure closed_at)
        (ValueError "unsigned expiry differs from unspent exact intent");;
      Ok {| ids := request_id r :: ids st; previous := after_operation r;
            previous_expired := true; closed_before := closed_at;
            expired := filter (λ kv, String.eqb kv.1 (request_id r) = false) (expired st);
            requests := requests st |}
  | None =>
      Ok {| ids := request_id r :: ids st; previous := after_operation r;
            previous_expired := false; closed_before := closed_before st;
            expired := expired st; requests := requests st ++ [r] |}
  end.

(** [next(d.holding_coldkey for d in policy.destinations if ...)] *)
Definition destination_of (p : CollectorPolicy) (b : string) : option string :=
  holding_coldkey <$> find (λ d, String.eqb (bucket_id d) b) (destinations p).

Definition claim_matches (p : CollectorPolicy) (r : ManualTransfer) (o : Operation) : bool :=
  String.eqb (op_role o) "transfer" && (op_amount o =? amount_rao r) &&
  bool_decide (op_source_block o = Some (source_block r)) &&
  bool_decide (op_bucket o = Some (request_bucket r)) &&
  bool_decide (op_destination o = destination_of p (request_bucket r)).

(** [SELECT * FROM operations WHERE id>? AND id<=?] *)
Definition operations_between (lo hi : Z) (db : CollectorDb) : list Operation :=
  filter (λ o, (lo <? op_id o) && (op_id o <=? hi) = true) (operations db).

(** The last loop: each request has at most its own exact claim. *)
Fixpoint check_claims (db : CollectorDb) (p : CollectorPolicy) (l : list ManualTransfer)
    : result unit :=
  match l with
  | [] => Ok tt
  | r :: rest =>
      let bound := match rest with next :: _ => after_operation next | [] => 2 ^ 63 - 1 end in
      let claims := operations_between (after_operation r) bound db in
      require ((length claims <=? 1)%nat && forallb (claim_matches p r) claims)
        (ValueError "manual transfer claim differs from exact request");;
      require (match rest, claims with
               | [], _ => true
               | _, [c] => String.eqb (op_state c) "finalized"
               | _, _ => false
               end)
        (ValueError "manual history advanced without finalized claim");;
      check_claims db p rest
  end.

Definition manual_transfer_history (db : CollectorDb) (p : CollectorPolicy)
    : result (list ManualTransfer) :=
  let records := events_named "manual_transfer_armed" db in
  require (Z.of_nat (length records) <=? 100000) (ValueError "manual history exceeds explicit bound");;
  require (forallb (λ e, is_obj (payload e)) records) (AttributeError "get");;
  (if existsb (λ e, negb (bool_decide (as_str (lookup_key "policy" (payload e)) = Some (digest p)))) records
   then historical_policy_limits db p else Ok [(digest p, None)]) ≫= λ limits,
  fold_result expired_entry [] (events_named "manual_unsigned_expired" db) ≫= λ expired0,
  fold_result (history_step db p limits)
    {| ids := []; previous := 0; previous_expired := false; closed_before := 0;
       expired := expired0; requests := [] |} records ≫= λ st,
  require (bool_decide (expired st = []))
    (ValueError "unsigned expiry lacks its original manual intent");;
  check_claims db p (requests st);;
  Ok (requests st).

(** * What a receipt still owes *)

(** [remaining_distribution]: one operation into the dict [paid]. *)
Definition paid_step (expected : list (string * ServiceDistribution))
    (paid : list (string * Z)) (o : Operation) : result (list (string * Z)) :=
  match op_bucket o ≫= λ b, pair b <$> dict_get b expected with
  | None => Err (ValueError "invalid finalized receipt distribution history")
  | Some (b, part) =>
      require (String.eqb (op_role o) "transfer" && String.eqb (op_state o) "finalized" &&
               bool_decide (op_destination o = Some (dist_holding_coldkey part)) &&
               (0 <? op_amount o))
        (ValueError "invalid finalized receipt distribution history");;
      let total := default 0 (dict_get b paid) + op_amount o in
      require (total <=? alpha_rao part)
        (ValueError "finalized distribution exceeds receipt bucket");;
      Ok (dict_set b total paid)
  end.

Definition with_alpha (d : ServiceDistribution) (a : Z) : ServiceDistribution := {|
  dist_bucket_id := dist_bucket_id d; dist_holding_coldkey := dist_holding_coldkey d; alpha_rao := a |}.

Definition remaining_distribution (parts : list ServiceDistribution) (ops : list Operation)
    : result (list ServiceDistribution) :=
  let expected := dict_of ((λ d, (dist_bucket_id d, d)) <$> parts) in
  fold_result (paid_step expected) ((λ kv : string * ServiceDistribution, (kv.1, 0)) <$> expected) ops ≫= λ paid,
  let paid_to d := default 0 (dict_get (dist_bucket_id d) paid) in
  Ok (omap (λ d, if paid_to d <? alpha_rao d then Some (with_alpha d (alpha_rao d - paid_to d))
                 else None) parts).

(** [NOT EXISTS (SELECT 1 FROM events x WHERE x.event='manual_unsigned_expired' ...)] *)
Definition unexpired (db : CollectorDb) (e : Event) : bool :=
  negb (match as_str (lookup_key "request_id" (payload e)) with
        | Some id => existsb (for_request id) (events_named "manual_unsigned_expired" db)
        | None => false
        end).
(** [json_type(payload,'$.sources')='array'] *)
Definition has_sources (e : Event) : bool :=
  match lookup_key "sources" (payload e) with Some (JList _) => true | _ => false end.

(** The dict [claims], from operation to aggregate intent. *)
Definition claims_step (claims : list (Z * ManualTransfer)) (row : Event)
    : result (list (Z * ManualTransfer)) :=
  decode_manual (without_policy (payload row)) ≫= λ r,
  let id := after_operation r + 1 in
  require (negb (bool_decide (id ∈ claims.*1)))
    (ValueError "ambiguous aggregate operation attribution");;
  Ok (dict_set id r claims).

Definition aggregate_claims (db : CollectorDb) : result (list (Z * ManualTransfer)) :=
  fold_result claims_step []
    (filter (λ e, has_sources e && unexpired db e = true) (events_named "manual_transfer_armed" db)).

Definition with_amount (o : Operation) (a : Z) : Operation := {|
  op_id := op_id o; op_state := op_state o; op_role := op_role o; op_amount := a;
  op_source_block := op_source_block o; op_bucket := op_bucket o;
  op_destination := op_destination o; op_call := op_call o; op_signed := op_signed o;
  op_at_block := op_at_block o; op_settlement := op_settlement o; op_reconciled := op_reconciled o |}.

Definition claims_of_batch (r : ManualTransfer) : list ManualSourceClaim :=
  match batch r with Some b => sources b | None => [] end.

(** What one operation took from the receipt of block [b]. *)
Definition attributed (claims : list (Z * ManualTransfer)) (b : Z) (o : Operation)
    : result (list Operation) :=
  match dict_get (op_id o) claims with
  | Some r =>
      require (String.eqb (op_role o) "transfer" && (op_amount o =? amount_rao r) &&
               bool_decide (op_bucket o = Some (request_bucket r)) &&
               bool_decide (op_source_block o = Some (source_block r)))
        (ValueError "aggregate operation differs from durable intent");;
      Ok ((λ c, with_amount o (claim_amount c)) <$>
            filter (λ c, claim_block c =? b = true) (claims_of_batch r))
  | None => Ok (if bool_decide (op_source_block o = Some b) then [o] else [])
  end.

Definition source_operations (db : CollectorDb) (b exclude : Z) : result (list Operation) :=
  aggregate_claims db ≫= λ claims,
  map_result (attributed claims b) (filter (λ o, op_id o =? exclude = false) (operations db)) ≫= λ l,
  Ok (concat l).

(** * The canary *)

Record Replacement := {
  replacement_canary : TransferCanary;
  replacement_source : Z;
  replacement_proof : Json
}.

Definition canary_replacement (db : CollectorDb) (p : CollectorPolicy) : result (option Replacement) :=
  match events_named "transfer_canary_replaced" db with
  | [] => Ok None
  | [row] =>
      let body := payload row in
      let invalid := ValueError "invalid canary replacement history" in
      require (has_keys ["policy"; "max_alpha_rao"; "after_operation"; "source_block"; "proof"; "reason"] body)
        invalid;;
      member "policy" body ≫= λ d, member "proof" body ≫= λ proof,
      historical_policy_matches db p (default "" (as_str (Some d))) (event_id row) ≫= λ known,
      match as_int (lookup_key "source_block" body), as_str (lookup_key "reason" body) with
      | Some b, Some reason =>
          require (known && is_obj proof &&
                   bool_decide (as_str (lookup_key "status" proof) = Some "failed") &&
                   match as_int (lookup_key "extrinsic_index" proof) with
                   | Some i => 0 <=? i | None => false end &&
                   match as_str (lookup_key "extrinsic_hash" proof) with
                   | Some _ => true | None => false end &&
                   (start_block p <=? b) && bounded_reason reason) invalid;;
          decode_canary body ≫= λ c,
          Ok (Some {| replacement_canary := c; replacement_source := b; replacement_proof := proof |})
      | _, _ => Err invalid
      end
  | _ => Err (ValueError "only one explicit canary replacement is supported")
  end.

(** [source_operations(..., exclude=replacement["after_operation"] if replacement else -1)] *)
Definition excluded_operation (r : option Replacement) : Z :=
  match r with Some r => canary_after_operation (replacement_canary r) | None => -1 end.

Definition remaining_source (db : CollectorDb) (p : CollectorPolicy) (row : Earning)
    (manual : bool) : result (list ServiceDistribution) :=
  require (manual || (e_amount row <=? max_distribution_rao p))
    (ValueError "source exceeds unchanged signed receipt batch");;
  plan_service_distribution (e_amount row) (e_amount row) (collector_coldkey p) (destinations p) ≫= λ parts,
  canary_replacement db p ≫= λ replacement,
  source_operations db (e_block row) (excluded_operation replacement) ≫= λ ops,
  remaining_distribution parts ops.

(** [replacement["proof"][k] == json.loads(column)[k]] *)
Definition same_field (k : string) (proof : Json) (column : option Json) : result bool :=
  member k proof ≫= λ a,
  match column with
  | None => Err (TypeError "the JSON object must be str, bytes or bytearray, not NoneType")
  | Some j => member k j ≫= λ b, Ok (same_json a b)
  end.

Definition settlement_json (o : Operation) : option Json :=
  (λ s, JObj (settlement_dict s)) <$> op_settlement o.
Definition signed_json (s : SignedOperation) : Json :=
  JObj [("encoded", JStr (encoded s)); ("extrinsic_hash", JStr (signed_hash s));
        ("start_block", JInt (signed_start s)); ("expires_block", JInt (signed_expires s));
        ("fee_rao", JInt (fee_rao s))].

(** The replaced canary is the failed claim the journal records. *)
Definition check_replacement (db : CollectorDb) (existing : TransferCanary) (r : Replacement)
    : result unit :=
  let differs := ValueError "replacement history differs from failed claim" in
  let after := canary_after_operation (replacement_canary r) in
  match operation_by_id after db with
  | None => Err differs
  | Some old =>
      require (String.eqb (op_state old) "failed" && String.eqb (op_role old) "transfer" &&
               bool_decide (op_source_block old = Some (replacement_source r)) &&
               (after =? canary_after_operation existing + 1) &&
               (0 <? op_amount old) && (op_amount old <=? max_alpha_rao existing)) differs;;
      let proof := replacement_proof r in
      same_field "block" proof (settlement_json old) ≫= λ s1, require s1 differs;;
      same_field "block_hash" proof (settlement_json old) ≫= λ s2, require s2 differs;;
      same_field "extrinsic_hash" proof (Some (signed_json (op_signed old))) ≫= λ s3,
      require s3 differs
  end.

(** The canary the history holds, if any. *)
Definition existing_canary (db : CollectorDb) (p : CollectorPolicy)
    : result (option TransferCanary) :=
  match events_named "transfer_canary_armed" db with
  | [] =>
      canary_replacement db p ≫= λ r,
      match r with
      | Some _ => Err (ValueError "replacement lacks original canary history")
      | None => Ok None
      end
  | [row] =>
      let body := payload row in
      require (has_keys ["policy"; "max_alpha_rao"; "after_operation"] body)
        (ValueError "invalid transfer canary history");;
      member "policy" body ≫= λ d,
      historical_policy_matches db p (default "" (as_str (Some d))) (event_id row) ≫= λ known,
      require known (ValueError "transfer canary policy changed");;
      decode_canary body ≫= λ existing,
      canary_replacement db p ≫= λ r,
      match r with
      | None => Ok (Some existing)
      | Some r => check_replacement db existing r;; Ok (Some (replacement_canary r))
      end
  | _ => Err (ValueError "ambiguous transfer canary history")
  end.

(** The operations counted against a canary stop at the first manual intent. *)
Definition claims_bounded (db : CollectorDb) (c : TransferCanary) (manual : list ManualTransfer) : bool :=
  let original_end := match manual with r :: _ => after_operation r | [] => 2 ^ 63 - 1 end in
  let claimed := operations_between (canary_after_operation c) original_end db in
  (length claimed <=? 1)%nat &&
  forallb (λ o, String.eqb (op_role o) "transfer" && (0 <? op_amount o) &&
                (op_amount o <=? max_alpha_rao c)) claimed.

Definition transfer_canary (db : CollectorDb) (p : CollectorPolicy) (role : string)
    (requested : option TransferCanary) : result (CollectorDb * option TransferCanary) :=
  existing_canary db p ≫= λ existing,
  require (match existing, requested with
           | Some e, Some r => bool_decide (r = e) | _, _ => true end)
    (ValueError "transfer canary cannot be reset or widened");;
  match (match existing with Some e => Some e | None => requested end) with
  | None => Ok (db, None)
  | Some c =>
      require (String.eqb role "transfer" && (max_alpha_rao c <=? max_distribution_rao p))
        (ValueError "canary requires transfer role within signed ceiling");;
      (match existing with
       | Some _ => Ok db
       | None =>
           require ((last_operation db =? canary_after_operation c) &&
                    negb (existsb (λ o, String.eqb (op_state o) "dispatching") (operations db)))
             (ValueError "canary baseline must equal quiesced current journal");;
           Ok (log db "transfer_canary_armed" (("policy", JStr (digest p)) :: canary_dict c))
       end) ≫= λ db,
      manual_transfer_history db p ≫= λ manual,
      require (claims_bounded db c manual)
        (ValueError "transfer canary claim exceeds approved bound");;
      (match last manual with
       | None => Ok (db, Some c)
       | Some r =>
           let bound := {| max_alpha_rao := amount_rao r; canary_after_operation := after_operation r |} in
           check_canary bound;; Ok (db, Some bound)
       end)
  end.
End journal.
