(* ===== verification/Collector.v ===== *)
(** The operations of the service collector: [tick], [arm_manual_transfer],
    [manual_transfer_readiness], [replace_failed_canary], [observe_earnings]
    and [observe_earning_source] of [ditto/treasury/collector.py],
    [validate_batch] of [manual_batch.py] and [expire_unsigned_manual] of
    [manual_expiry.py].

    The body of a transaction is a function from the tables to the tables it
    commits, or the exception that rolls them back ([transaction]).  Only
    [tick] acts on the outside, by broadcasting after its commit. *)
From Stdlib Require Import ZArith Lia.
From stdpp Require Import base list strings.
From S2P Require Import Prelude PyText ServiceAllocation CollectorPolicy CollectorJournal.

#[local] Open Scope string_scope.
#[local] Open Scope Z_scope.

(** [BEGIN ... COMMIT] with [except BaseException: ROLLBACK; raise]. *)
Definition transaction {A} (db : CollectorDb) (body : result (CollectorDb * A))
    : CollectorDb * result A :=
  match body with Ok (db', a) => (db', Ok a) | Err e => (db, Err e) end.

Section collector.
Context {SH : Sha256} {VS : VerifySignature} {CC : CollectorChain}.

(** * Earnings *)

Definition _record_earning (db : CollectorDb) (p : CollectorPolicy) (b : Z)
    (earned : option FinalizedEarnings) : result CollectorDb :=
  match earning_at b db with
  | Some previous =>
      require (bool_decide (earned = Some (receipt previous)))
        (ValueError "previously proved earning changed");;
      Ok db
  | None =>
      match earned with
      | None => Ok db
      | Some e =>
          require (positive_bounded (earned_rao e)) (ValueError "invalid finalized emission");;
          sql_int b;;
          let row := {| e_block := b; e_amount := earned_rao e; e_hash := earned_hash e;
                        e_digest := earned_digest e; completed := false |} in
          Ok (log (with_earnings db (earnings db ++ [row])) "emission_attributed"
                (("block", JInt b) :: ("policy", JStr (digest p)) :: earnings_dict e))
      end
  end.

(** One block of the scan. *)
Definition scan_block (p : CollectorPolicy) (db : CollectorDb) (b : Z) : result CollectorDb :=
  chain_earnings b ≫= λ earned,
  _record_earning db p b earned ≫= λ db,
  Ok (with_cursor db b).

(** [range(first, last + 1)] *)
Definition z_range (first last : Z) : list Z :=
  (λ i, first + Z.of_nat i) <$> seq 0 (Z.to_nat (last + 1 - first)).

Definition _scan_finalized_earnings (db : CollectorDb) (p : CollectorPolicy) (finalized max_blocks : Z)
    : result CollectorDb :=
  fold_result (scan_block p) db
    (z_range (cursor db + 1) (Z.min finalized (cursor db + max_blocks))).

Definition observe_earnings (db : CollectorDb) (p : CollectorPolicy) (max_blocks : Z)
    : CollectorDb * result string :=
  if negb ((1 <=? max_blocks) && (max_blocks <=? 32))
  then (db, Err (ValueError "receipt chunk must be between one and 32 blocks"))
  else if negb (enabled p) then (db, Ok "disabled") else
  transaction db
    (require_pin db p "transfer" "earnings scan requires pinned transfer journal";;
     observe 0 "transfer" ≫= λ observed,
     _scan_finalized_earnings db p (block observed) max_blocks ≫= λ db,
     Ok (db, "observed")).

Definition observe_earning_source (db : CollectorDb) (p : CollectorPolicy) (b : Z)
    : CollectorDb * result unit :=
  transaction db
    (require (bool_decide (pin db = Some (digest p, "transfer")))
       (ValueError "source proof requires pinned transfer journal");;
     match active_approval with
     | None => Err (ValueError "recent source proof requires active manual approval")
     | Some approval =>
         require (enabled p) (ValueError "recent source proof requires active manual approval");;
         verify_approval approval (digest p) (collector_coldkey p);;
         observe 0 "transfer" ≫= λ observed,
         require ((start_block p <=? b) && (b <=? block observed - distribution_interval_blocks p))
           (ValueError "candidate source is not mature");;
         chain_earnings b ≫= λ earned,
         _record_earning db p b earned ≫= λ db,
         Ok (log db "manual_source_probed" [("policy", JStr (digest p)); ("block", JInt b)], tt)
     end).

(** * Manual intents *)

(** One source of an aggregate intent, at the spending boundary. *)
Definition validate_claim (db : CollectorDb) (p : CollectorPolicy) (observed : Observation)
    (bucket destination : string) (c : ManualSourceClaim) : result unit :=
  let b := claim_block c in
  require ((start_block p <=? b) && (b + distribution_interval_blocks p <=? block observed))
    (ManualIntentRefused "aggregate source is immature or unapproved");;
  match find (λ e, negb (completed e)) (filter (λ e, e_block e =? b = true) (earnings db)) with
  | None => Err (ManualIntentRefused "aggregate source receipt absent")
  | Some row =>
      chain_earnings b ≫= λ earned,
      require (bool_decide (earned = Some (receipt row)))
        (ValueError "aggregate source proof changed or unavailable");;
      remaining_source db p row true ≫= λ remaining,
      require (existsb (λ d, String.eqb (dist_bucket_id d) bucket &&
                             String.eqb (dist_holding_coldkey d) destination &&
                             (claim_amount c <=? alpha_rao d)) remaining)
        (ManualIntentRefused "aggregate source entitlement exceeded")
  end.

Definition validate_batch (db : CollectorDb) (p : CollectorPolicy) (r : ManualTransfer) (b : Batch)
    (observed : Observation) : result string :=
  require (batch_request_valid r (sources b)) (ValueError "validation error");;
  parse_approval (manual_approval b) ≫= λ approval,
  verify_approval approval (digest p) (collector_coldkey p);;
  require (bool_decide (active_approval = Some approval))
    (ManualIntentRefused "manual approval differs from deployed exact pin");;
  require (amount_rao r <=? max_amount_rao (approved approval))
    (ManualIntentRefused "manual amount exceeds cold-approved range");;
  require (amount_rao r + retained_alpha_rao r <=? alpha_available observed)
    (ManualIntentRefused "manual request would consume retained stake");;
  match holding_coldkey <$> filter (λ d, String.eqb (bucket_id d) (request_bucket r) &&
                                         (0 <? allocation_bps d) = true) (destinations p) with
  | [destination] =>
      fold_result (λ _, validate_claim db p observed (request_bucket r) destination) tt (sources b);;
      Ok destination
  | _ => Err (ManualIntentRefused "manual bucket must have one signed destination")
  end.

(** The previous claim is finalized, and the chain still proves it exactly. *)
Definition check_prior_claim (db : CollectorDb) (maximum : Z) : result Observation :=
  match operation_by_id maximum db with
  | None => Err (TypeError "'NoneType' object is not subscriptable")
  | Some o =>
      require (String.eqb (op_state o) "finalized" && String.eqb (op_role o) "transfer")
        (ValueError "prior claim must be finalized, not unknown/failed/expired");;
      observe 0 "transfer" ≫= λ observed,
      reconcile o observed ≫= λ proof,
      match op_settlement o with
      | None => Err (TypeError "the JSON object must be str, bytes or bytearray, not NoneType")
      | Some saved =>
          require (String.eqb (status proof) "finalized" &&
                   match extrinsic_index proof with Some i => 0 <=? i | None => false end &&
                   bool_decide (settled_block proof = settled_block saved) &&
                   bool_decide (settled_hash proof = settled_hash saved) &&
                   bool_decide (extrinsic_index proof = extrinsic_index saved) &&
                   bool_decide (extrinsic_hash proof = extrinsic_hash saved) &&
                   bool_decide (extrinsic_hash proof = Some (signed_hash (op_signed o))))
            (ValueError "prior claim lacks exact independently finalized proof");;
          Ok observed
      end
  end.

(** The checks of a single-source request against its receipt. *)
Definition check_single_source (db : CollectorDb) (p : CollectorPolicy) (r : ManualTransfer)
    (observed : Observation) : result unit :=
  require ((start_block p <=? source_block r) &&
           (source_block r + distribution_interval_blocks p <=? block observed))
    (ValueError "manual source is not mature approved earnings");;
  require (amount_rao r + retained_alpha_rao r <=? alpha_available observed)
    (ManualIntentRefused "manual request would consume retained stake");;
  match find (λ e, negb (completed e)) (filter (λ e, e_block e =? source_block r = true) (earnings db)) with
  | None => Err (ValueError "manual source receipt absent or exceeds signed batch")
  | Some row =>
      require (e_amount row <=? max_distribution_rao p)
        (ValueError "manual source receipt absent or exceeds signed batch");;
      chain_earnings (source_block r) ≫= λ earned,
      require (bool_decide (earned = Some (receipt row)))
        (ValueError "manual source receipt changed");;
      canary_replacement db p ≫= λ replacement,
      plan_service_distribution (e_amount row) (e_amount row) (collector_coldkey p) (destinations p)
        ≫= λ split,
      source_operations db (source_block r) (excluded_operation replacement) ≫= λ ops,
      remaining_distribution split ops ≫= λ remaining,
      require (existsb (λ d, String.eqb (dist_bucket_id d) (request_bucket r) &&
                             (amount_rao r <=? alpha_rao d)) remaining)
        (ManualIntentRefused "manual amount exceeds remaining exact bucket entitlement")
  end.

Definition armed_body (p : CollectorPolicy) (r : ManualTransfer) : list (string * Json) :=
  ("policy", JStr (digest p)) :: manual_dict r.

Definition arm_body (db : CollectorDb) (p : CollectorPolicy) (r : ManualTransfer) (record : bool)
    : result (CollectorDb * string) :=
  require (negb (existsb (for_request (request_id r)) (events_named "manual_unsigned_expired" db)))
    (ManualIntentRefused "expired unsigned request cannot be rearmed");;
  require_pin db p "transfer" "manual request requires pinned transfer journal";;
  manual_transfer_history db p ≫= λ history,
  match find (λ q, String.eqb (request_id q) (request_id r)) history with
  | Some q =>
      require (same_request q r) (ManualIntentRefused "manual idempotency key changed");;
      Ok (db, "already_armed")
  | None =>
      transfer_canary db p "transfer" None ≫= λ '(db, existing),
      let maximum := last_operation db in
      match existing with
      | None => Err (ValueError "manual request requires a reconciled canary")
      | Some c =>
          require (maximum =? after_operation r)
            (ManualIntentRefused "manual request requires current exact operation");;
          require (maximum =? canary_after_operation c + 1)
            (ValueError "manual request requires exact spent canary/current claim");;
          check_prior_claim db maximum ≫= λ observed,
          require ((block observed <? expires_block r) && (expires_block r <=? block observed + 7200))
            (ManualIntentRefused "manual request expiry must be within one bounded day");;
          require (bucket_funded p (request_bucket r))
            (ManualIntentRefused "manual request bucket is not allocated");;
          (match batch r with
           | Some b => validate_batch db p r b observed;; Ok tt
           | None => check_single_source db p r observed
           end);;
          Ok (if record then (log db "manual_transfer_armed" (armed_body p r), "armed")
              else (db, "ready_not_armed"))
      end
  end.

Definition arm_manual_transfer (db : CollectorDb) (p : CollectorPolicy) (r : ManualTransfer)
    (record : bool) : CollectorDb * result string :=
  match (require (enabled p) (ManualIntentRefused "manual request requires enabled signed policy");;
         manual_maximum r p (digest p) ≫= λ maximum,
         require (amount_rao r <=? maximum)
           (ManualIntentRefused "manual request requires enabled signed policy")) with
  | Err e => (db, Err e)
  | Ok _ => transaction db (arm_body db p r record)
  end.

(** * [expire_unsigned_manual] *)

Definition expire_body (db : CollectorDb) (p : CollectorPolicy) (id why : string)
    : result (CollectorDb * list (string * Json)) :=
  require (bool_decide (pin db = Some (digest p, "transfer")))
    (ValueError "recovery requires current pinned transfer journal");;
  (match manual_transfer_history db p with
   | Err (KeyError _) | Err (TypeError _) => Err (ValueError "invalid armed manual history")
   | r => r end) ≫= λ history,
  match last history, find (for_request id) (events_named "manual_transfer_armed" db) with
  | Some r, armed =>
      require (String.eqb (request_id r) id)
        (ValueError "recovery requires exact latest armed request");;
      match armed with
      | None => Err (ValueError "recovery cannot cross a policy migration")
      | Some armed =>
          require (bool_decide (as_str (lookup_key "policy" (payload armed)) = Some (digest p)))
            (ValueError "recovery cannot cross a policy migration");;
          let maximum := last_operation db in
          require ((maximum =? after_operation r) &&
                   match operation_by_id maximum db with
                   | Some o => String.eqb (op_role o) "transfer" && String.eqb (op_state o) "finalized"
                   | None => false
                   end &&
                   negb (existsb (λ e, event_id armed <? event_id e) (events_named "dispatch_reserved" db)))
            (ValueError "signed or unresolved claim requires chain reconciliation");;
          observe 0 "transfer" ≫= λ observed,
          require (expires_block r <=? block observed)
            (ValueError "request has not reached finalized expiry");;
          let proof := [("policy", JStr (digest p)); ("request_id", JStr id);
            ("request_digest", JStr (request_digest r)); ("after_operation", JInt maximum);
            ("finalized_block", JInt (block observed));
            ("finalized_block_hash", JStr (observed_hash observed)); ("reason", JStr (strip why))] in
          let db := log db "manual_unsigned_expired" proof in
          manual_transfer_history db p;;
          Ok (db, proof)
      end
  | None, _ => Err (ValueError "recovery requires exact latest armed request")
  end.

Definition expire_unsigned_manual (db : CollectorDb) (p : CollectorPolicy) (id why : string)
    : CollectorDb * result (list (string * Json)) :=
  if negb (bounded_reason why)
  then (db, Err (ValueError "bounded operator recovery reason required"))
  else transaction db (expire_body db p id why).

(** * [replace_failed_canary] *)

Definition replace_body (db : CollectorDb) (p : CollectorPolicy) (requested : TransferCanary)
    (why : string) : result (CollectorDb * unit) :=
  require_pin db p "transfer" "replacement requires pinned transfer journal";;
  canary_replacement db p ≫= λ replaced,
  require (match replaced with None => true | Some _ => false end)
    (ValueError "canary already replaced");;
  transfer_canary db p "transfer" None ≫= λ '(db, existing),
  let maximum := last_operation db in
  require (match existing with
           | None => false
           | Some c => (canary_after_operation requested =? maximum) &&
                       (maximum =? canary_after_operation c + 1) &&
                       (max_alpha_rao requested <=? max_distribution_rao p)
           end)
    (ValueError "replacement requires exactly one spent canary within signed ceiling");;
  match operation_by_id maximum db with
  | None => Err (TypeError "'NoneType' object is not subscriptable")
  | Some o =>
      require (String.eqb (op_state o) "failed" && String.eqb (op_role o) "transfer")
        (ValueError "replacement requires failed transfer, not unknown or paid");;
      retryable_transfer_failure o ≫= λ proof,
      match op_settlement o with
      | None => Err (TypeError "the JSON object must be str, bytes or bytearray, not NoneType")
      | Some saved =>
          require (String.eqb (status proof) "failed" &&
                   bool_decide (settled_block proof = settled_block saved) &&
                   bool_decide (settled_hash proof = settled_hash saved) &&
                   bool_decide (extrinsic_hash proof = Some (signed_hash (op_signed o))) &&
                   match extrinsic_index proof with Some i => 0 <=? i | None => false end)
            (ValueError "replacement lacks exact finalized failure proof");;
          let untouched := ValueError "replacement requires untouched same-source receipt" in
          match op_source_block o ≫= λ b, earning_at b db with
          | None => Err untouched
          | Some row =>
              require (negb (completed row) &&
                       (length (filter (λ q, op_source_block q = Some (e_block row)) (operations db)) =? 1)%nat)
                untouched;;
              chain_earnings (e_block row) ≫= λ earned,
              require (bool_decide (earned = Some (receipt row)))
                (ValueError "replacement earnings changed or unavailable");;
              Ok (log db "transfer_canary_replaced"
                    (("policy", JStr (digest p)) :: canary_dict requested ++
                     [("source_block", JInt (e_block row)); ("proof", JObj (settlement_dict proof));
                      ("reason", JStr (strip why))]), tt)
          end
      end
  end.

Definition replace_failed_canary (db : CollectorDb) (p : CollectorPolicy) (requested : TransferCanary)
    (why : string) : CollectorDb * result unit :=
  if negb (enabled p && bounded_reason why)
  then (db, Err (ValueError "enabled policy and bounded operator reason required"))
  else transaction db (replace_body db p requested why).

(** * [tick] *)

(** What a tick decides inside its transaction: the word it returns, or the
    signed bytes it has reserved and now broadcasts. *)
Inductive Verdict := Return (outcome : string) | Broadcast (bytes : string).

(** What the prepared operation will record. *)
Record Leg := {
  leg_amount : Z;
  leg_bucket : option string;
  leg_destination : option string;
  leg_source : option Z;
  leg_call : Json;
  leg_observed : Observation
}.

(** A branch of the body either ends the transaction with a word or goes on to
    sign a leg. *)
Definition Step : Type := CollectorDb * (string + Leg).
Definition stop (db : CollectorDb) (outcome : string) : result Step := Ok (db, inl outcome).

Definition set_settlement (st : string) (s : Settlement) (o : Operation) : Operation := {|
  op_id := op_id o; op_state := st; op_role := op_role o; op_amount := op_amount o;
  op_source_block := op_source_block o; op_bucket := op_bucket o;
  op_destination := op_destination o; op_call := op_call o; op_signed := op_signed o;
  op_at_block := op_at_block o; op_settlement := Some s; op_reconciled := op_reconciled o |}.
Definition set_reconciled (b : Z) (o : Operation) : Operation := {|
  op_id := op_id o; op_state := op_state o; op_role := op_role o; op_amount := op_amount o;
  op_source_block := op_source_block o; op_bucket := op_bucket o;
  op_destination := op_destination o; op_call := op_call o; op_signed := op_signed o;
  op_at_block := op_at_block o; op_settlement := op_settlement o; op_reconciled := b |}.
(** [UPDATE operations SET ... WHERE id=?] *)
Definition update_operation (id : Z) (f : Operation → Operation) (db : CollectorDb) : CollectorDb :=
  with_operations db (map (λ o, if op_id o =? id then f o else o) (operations db)).

Definition pending_operation (db : CollectorDb) : option Operation :=
  find (λ o, String.eqb (op_state o) "dispatching") (operations db).

(** The branch [if pending:]. *)
Definition settle (db : CollectorDb) (pending : Operation) (observed : Observation)
    : result (CollectorDb * string) :=
  reconcile pending observed ≫= λ s,
  require (bool_decide (status s ∈ ["finalized"; "failed"; "expired"; "pending"]))
    (ValueError "invalid settlement");;
  if String.eqb (status s) "pending" then
    match scanned_through s with
    | None => Ok (db, "pending")
    | Some b =>
        require ((op_reconciled pending <=? b) && (b <=? block observed))
          (ValueError "invalid reconciliation progress");;
        sql_int b;;
        Ok (update_operation (op_id pending) (set_reconciled b) db, "pending")
    end
  else
    let db := update_operation (op_id pending) (set_settlement (status s) s) db in
    let db := log db "settlement" (("operation", JInt (op_id pending)) :: settlement_dict s) in
    if String.eqb (op_role pending) "registration" && String.eqb (status s) "finalized" then
      require (match settled_uid s with Some _ => true | None => false end)
        (ValueError "registration receipt lacks finalized UID binding");;
      Ok (log db "collector_uid_rebound" (settlement_dict s), status s)
    else Ok (db, status s).

(** [SELECT MAX(at_block) FROM operations [WHERE source_block!=?]] *)
Definition max_at_block (l : list Operation) : option Z :=
  match l with [] => None | o :: l' => Some (foldr Z.max (op_at_block o) (op_at_block <$> l')) end.

Definition registration_call (p : CollectorPolicy) : Json :=
  JObj [("module", JStr "SubtensorModule"); ("function", JStr "register_limit");
        ("params", JObj [("netuid", JInt 118); ("hotkey", JStr (collector_hotkey p));
                         ("limit_price", JInt (max_registration_burn_rao p))])].
Definition transfer_call (p : CollectorPolicy) (destination : string) (amount : Z) : Json :=
  JObj [("module", JStr "SubtensorModule"); ("function", JStr "transfer_stake");
        ("params", JObj [("destination_coldkey", JStr destination);
                         ("hotkey", JStr (collector_hotkey p)); ("origin_netuid", JInt 118);
                         ("destination_netuid", JInt 118); ("alpha_amount", JInt amount)])].

Definition registration_leg (db : CollectorDb) (p : CollectorPolicy) (observed : Observation)
    : result Step :=
  match uid observed with
  | Some _ => stop db "registered"
  | None =>
      if match max_at_block (operations db) with
         | Some last => block observed - last <? recovery_cooldown_blocks p
         | None => false end
      then stop db "cooldown" else
      sql_sum (op_amount <$> operations db) ≫= λ spent,
      let amount := max_registration_burn_rao p in
      require ((burn_rao observed <=? amount) &&
               (amount + max_fee_rao p + spent <=? registration_budget_rao p))
        (ValueError "registration burn or lifetime budget exceeded");;
      require (amount + fee_reserve_rao p <=? collector_free_rao observed)
        (ValueError "collector registration reserve insufficient");;
      Ok (db, inr {| leg_amount := amount; leg_bucket := None; leg_destination := None;
                     leg_source := None; leg_call := registration_call p;
                     leg_observed := observed |})
  end.

Definition transfer_leg_of (p : CollectorPolicy) (amount : Z) (bucket destination : string)
    (source : Z) (observed : Observation) : Leg := {|
  leg_amount := amount; leg_bucket := Some bucket; leg_destination := Some destination;
  leg_source := Some source; leg_call := transfer_call p destination amount;
  leg_observed := observed |}.

(** The aggregate intent. *)
Definition batch_leg (db : CollectorDb) (p : CollectorPolicy) (intent : ManualTransfer) (b : Batch)
    (requested : option string) (observed : Observation) : result Step :=
  if bool_decide (requested = None) then stop db "manual_ready"
  else if expires_block intent <? block observed + 128 then stop db "manual_expired" else
  validate_batch db p intent b observed ≫= λ destination,
  observe 1 "transfer" ≫= λ observed,
  require (match uid observed with Some _ => true | None => false end)
    (ValueError "collector absent after source verification");;
  if expires_block intent <? block observed + 128 then stop db "manual_expired" else
  require (amount_rao intent + retained_alpha_rao intent <=? alpha_available observed)
    (ValueError "manual retained stake changed during source proof");;
  Ok (db, inr (transfer_leg_of p (amount_rao intent) (request_bucket intent) destination
                 (source_block intent) observed)).

Definition by_block : Earning → Earning → comparison := cmp_by Z.compare e_block.
Definition stuck (o : Operation) : bool :=
  bool_decide (op_state o ∈ ["dispatching"; "failed"; "expired"]).

(** The oldest mature receipt without an unsettled or failed leg. *)
Definition mature (p : CollectorPolicy) (observed : Observation) (e : Earning) : bool :=
  negb (completed e) && (e_block e + distribution_interval_blocks p <=? block observed).
Definition next_receipt (db : CollectorDb) (p : CollectorPolicy) (observed : Observation)
    : option Earning :=
  head (py_sorted by_block (filter (λ e,
    mature p observed e &&
    negb (existsb (λ o, stuck o && bool_decide (op_source_block o = Some (e_block e))) (operations db)) = true)
    (earnings db))).

(** The receipt a replacement or an intent names. *)
Definition selected_receipt (db : CollectorDb) (p : CollectorPolicy) (observed : Observation)
    (intent : option ManualTransfer) (replacement : option Replacement)
    : result (option Earning) :=
  match (source_block <$> intent), (replacement_source <$> replacement) with
  | None, None => Ok (next_receipt db p observed)
  | Some b, _ | None, Some b =>
      match find (mature p observed) (filter (λ e, e_block e =? b = true) (earnings db)) with
      | Some row => Ok (Some row)
      | None => Err (ValueError "replacement same-source receipt unavailable")
      end
  end.

(** The leg of one receipt: the next unpaid bucket, the canary's slice of it,
    or the exact amount of a single-source intent. *)
Definition receipt_leg (db : CollectorDb) (p : CollectorPolicy) (row : Earning)
    (intent : option ManualTransfer) (canary : option TransferCanary)
    (replacement : option Replacement) (observed : Observation) : result Step :=
  require (e_amount row <=? max_distribution_rao p)
    (ValueError "distribution ceiling exceeded; no partial unreviewed split");;
  plan_service_distribution (e_amount row) (e_amount row) (collector_coldkey p) (destinations p) ≫= λ parts,
  source_operations db (e_block row) (excluded_operation replacement) ≫= λ ops,
  remaining_distribution parts ops ≫= λ remaining,
  require (sum_Z (alpha_rao <$> remaining) <=? alpha_available observed)
    (ValueError "remaining attributed earnings exceed finalized stake");;
  let part := find (λ d, match intent with
                         | Some r => String.eqb (dist_bucket_id d) (request_bucket r)
                         | None => true end) remaining in
  require (match intent, part with
           | Some r, Some d => amount_rao r <=? alpha_rao d
           | Some _, None => false
           | None, _ => true end)
    (ValueError "manual amount exceeds exact remaining bucket entitlement");;
  match part with
  | None =>
      let db := with_earnings db (map (λ e, if e_block e =? e_block row then
        {| e_block := e_block e; e_amount := e_amount e; e_hash := e_hash e;
           e_digest := e_digest e; completed := true |} else e) (earnings db)) in
      stop (log db "distribution_complete"
              [("source_block", JInt (e_block row)); ("amount", JInt (e_amount row))]) "distributed"
  | Some d =>
      let amount := match canary with
                    | Some c => Z.min (alpha_rao d) (max_alpha_rao c) | None => alpha_rao d end in
      let amount := match intent with Some r => amount_rao r | None => amount end in
      require (match intent with
               | Some r => retained_alpha_rao r <=? alpha_available observed - amount
               | None => true end)
        (ValueError "manual retained stake floor changed");;
      let db := match canary with
        | None => db
        | Some _ => log db "canary_receipt_reserved"
            [("source_block", JInt (e_block row)); ("source_hash", JStr (e_hash row));
             ("source_event_digest", JStr (e_digest row)); ("source_amount", JInt (e_amount row));
             ("bucket", JStr (dist_bucket_id d)); ("bucket_remaining_before", JInt (alpha_rao d));
             ("canary_amount", JInt amount);
             ("receipt_remaining_after", JInt (sum_Z (alpha_rao <$> remaining) - amount))]
        end in
      Ok (db, inr (transfer_leg_of p amount (dist_bucket_id d) (dist_holding_coldkey d)
                     (e_block row) observed))
  end.

(** A canary or single-source intent, or the recurring distribution. *)
Definition single_leg (db : CollectorDb) (p : CollectorPolicy) (intent : option ManualTransfer)
    (canary : option TransferCanary) (requested : option string) (observed : Observation)
    : result Step :=
  canary_replacement db p ≫= λ replacement,
  if match intent with Some _ => bool_decide (requested = None) | None => false end
  then stop db "manual_ready"
  else if match intent with Some r => expires_block r <? block observed + 128 | None => false end
  then stop db "manual_expired" else
  selected_receipt db p observed intent replacement ≫= λ row,
  match row with
  | None =>
      _scan_finalized_earnings db p (block observed) 32 ≫= λ db, stop db "observing"
  | Some row =>
      if match max_at_block (filter (λ o, match op_source_block o with
                                          | Some b => negb (b =? e_block row) | None => false end = true)
                               (operations db)) with
         | Some last => block observed - last <? distribution_interval_blocks p
         | None => false end
      then stop db "interval"
      else receipt_leg db p row intent canary replacement observed
  end.

Definition transfer_leg (db : CollectorDb) (p : CollectorPolicy) (manual : list ManualTransfer)
    (canary : option TransferCanary) (requested : option string) (observed : Observation)
    : result Step :=
  require (match uid observed with Some _ => true | None => false end)
    (ValueError "collector absent; service transfers halted");;
  let intent := last manual in
  match intent, intent ≫= batch with
  | Some r, Some b => batch_leg db p r b requested observed
  | _, _ => single_leg db p intent canary requested observed
  end.

Definition new_operation (db : CollectorDb) (p : CollectorPolicy) (role : string) (leg : Leg)
    (signed : SignedOperation) : Operation := {|
  op_id := last_operation db + 1; op_state := "dispatching"; op_role := role;
  op_amount := if String.eqb role "registration" then leg_amount leg + max_fee_rao p
               else leg_amount leg;
  op_source_block := leg_source leg; op_bucket := leg_bucket leg;
  op_destination := leg_destination leg; op_call := leg_call leg; op_signed := signed;
  op_at_block := block (leg_observed leg); op_settlement := None; op_reconciled := 0 |}.

(** From the leg to its durable reservation: the signature, its checks and the
    row. *)
Definition reserve (db : CollectorDb) (p : CollectorPolicy) (role : string)
    (manual : list ManualTransfer) (leg : Leg) : result (CollectorDb * Verdict) :=
  let observed := leg_observed leg in
  require (max_fee_rao p + fee_reserve_rao p <=? delegate_free_rao observed)
    (ValueError "delegate fee reserve insufficient");;
  (match last manual with
   | Some r => if batch r then prepare_manual (leg_call leg) observed r
               else prepare role (leg_call leg) observed
   | None => prepare role (leg_call leg) observed
   end) ≫= λ signed,
  require ((0 <=? fee_rao signed) && (fee_rao signed <=? max_fee_rao p))
    (ValueError "quoted fee exceeds ceiling");;
  require ((signed_start signed =? block observed) && (block observed <? signed_expires signed) &&
           (signed_expires signed <=? block observed + 128))
    (ValueError "invalid transaction mortality");;
  let row := new_operation db p role leg signed in
  sql_int (op_amount row);; sql_int (op_at_block row);;
  Ok (log (with_operations db (operations db ++ [row])) "dispatch_reserved"
        [("hash", JStr (signed_hash signed)); ("policy", JStr (digest p)); ("role", JStr role)],
      Broadcast (encoded signed)).

Definition tick_body (db : CollectorDb) (p : CollectorPolicy) (role : string)
    (canary : option TransferCanary) (requested : option string)
    : result (CollectorDb * Verdict) :=
  require_pin db p role "policy or role changed";;
  transfer_canary db p role canary ≫= λ '(db, canary),
  manual_transfer_history db p ≫= λ manual,
  require (match requested with
           | None => true
           | Some id => bool_decide (request_id <$> last manual = Some id)
           end)
    (ManualIntentChanged "manual execute request differs from current exact intent");;
  if match canary with
     | None => false
     | Some c => existsb (λ o, (canary_after_operation c <? op_id o) &&
                               negb (String.eqb (op_state o) "dispatching")) (operations db)
     end
  then Ok (db, Return "canary_spent") else
  observe 0 role ≫= λ observed,
  match pending_operation db with
  | Some pending => settle db pending observed ≫= λ '(db, outcome), Ok (db, Return outcome)
  | None =>
      (if String.eqb role "registration" then registration_leg db p observed
       else transfer_leg db p manual canary requested observed) ≫= λ '(db, next),
      match next with
      | inl outcome => Ok (db, Return outcome)
      | inr leg => reserve db p role manual leg
      end
  end.

(** The tables, the bytes handed to the network, and the result. *)
Definition tick (db : CollectorDb) (p : CollectorPolicy) (role : string)
    (canary : option TransferCanary) (requested : option string)
    : CollectorDb * list string * result string :=
  if negb (enabled p) then (db, [], Ok "disabled") else
  match transaction db (tick_body db p role canary requested) with
  | (db, Ok (Return outcome)) => (db, [], Ok outcome)
  | (db, Ok (Broadcast bytes)) => (db, [bytes], broadcast bytes;; Ok "dispatching")
  | (db, Err e) => (db, [], Err e)
  end.

(** * [manual_transfer_readiness] *)

Definition part_json (d : ServiceDistribution) : Json :=
  JObj [("bucket_id", JStr (dist_bucket_id d)); ("holding_coldkey", JStr (dist_holding_coldkey d));
        ("alpha_rao", JInt (alpha_rao d))].

(** The loop over mature receipts, with its cut-off. *)
Fixpoint ready_sources (db : CollectorDb) (p : CollectorPolicy) (approved : bool) (limit : nat)
    (l : list Earning) : result (list (Z * list ServiceDistribution)) :=
  match limit, l with
  | O, _ | _, [] => Ok []
  | S limit', row :: l' =>
      if negb approved && (max_distribution_rao p <? e_amount row)
      then ready_sources db p approved limit l' else
      remaining_source db p row approved ≫= λ remaining,
      match remaining with
      | [] => ready_sources db p approved limit l'
      | _ => ready_sources db p approved limit' l' ≫= λ rest,
             Ok ((e_block row, remaining) :: rest)
      end
  end.

Definition readiness_body (db : CollectorDb) (p : CollectorPolicy)
    : result (CollectorDb * Json) :=
  require_pin db p "transfer" "manual readiness requires pinned transfer journal";;
  transfer_canary db p "transfer" None ≫= λ '(db, bound),
  let maximum := last_operation db in
  let previous := op_state <$> operation_by_id maximum db in
  observe 0 "transfer" ≫= λ observed,
  manual_transfer_history db p ≫= λ history,
  let unsigned := match last history with
                  | Some r => if maximum =? after_operation r then Some r else None
                  | None => None end in
  (match active_approval with
   | None => Ok tt
   | Some a => verify_approval a (digest p) (collector_coldkey p);; Ok tt end);;
  let approved := bool_decide (is_Some active_approval) in
  ready_sources db p approved (if approved then 512 else 100)%nat
    (py_sorted by_block (filter (λ e, mature p observed e = true) (earnings db))) ≫= λ sources,
  Ok (db, JObj [
    ("policy", JStr (digest p)); ("after_operation", JInt maximum);
    ("previous_state", jstr previous);
    ("unsigned_intent", match unsigned with
       | Some r => JObj [("request_id", JStr (request_id r));
                         ("after_operation", JInt (after_operation r));
                         ("expires_block", JInt (expires_block r))]
       | None => JNull end);
    ("bounded_claim_available", JBool (match bound with
       | Some c => (maximum =? canary_after_operation c + 1) &&
                   bool_decide (previous = Some "finalized")
       | None => false end));
    ("finalized_block", JInt (block observed)); ("available_alpha_rao", JInt (alpha_available observed));
    ("transfer_delegate", JStr (transfer_delegate p));
    ("delegate_free_rao", JInt (delegate_free_rao observed));
    ("required_delegate_free_rao", JInt (max_fee_rao p + fee_reserve_rao p));
    ("max_distribution_rao", JInt (max_distribution_rao p));
    ("sources", JList (map (λ s, JObj [("source_block", JInt s.1);
                                       ("remaining", JList (map part_json s.2))]) sources));
    ("manual_approval", match active_approval with Some a => approval_dict a | None => JNull end);
    ("authority", JStr "none"); ("publication", JStr "not_performed")]).

Definition manual_transfer_readiness (db : CollectorDb) (p : CollectorPolicy)
    : CollectorDb * result Json := transaction db (readiness_body db p).
End collector.
