(* ===== verification/CollectorFacts.v ===== *)
(** Lemmas about the readings of the collector's journal: the error monad's
    folds, event selection under appends, the split of a receipt into paid and
    remaining parts, and the attribution of operations to receipts. *)
From Stdlib Require Import ZArith Lia.
From stdpp Require Import base list strings sets sorting.
From S2P Require Import Prelude PyText ServiceAllocation CollectorPolicy CollectorJournal Collector.

#[local] Open Scope string_scope.
#[local] Open Scope list_scope.
#[local] Open Scope Z_scope.

(** [bool_to_prop], string tests included. *)
Ltac to_prop :=
  repeat (progress bool_to_prop || match goal with
  | H : String.eqb _ _ = true |- _ => apply String.eqb_eq in H
  | H : String.eqb _ _ = false |- _ => apply String.eqb_neq in H
  | H : (_ <=? _)%nat = true |- _ => apply Nat.leb_le in H
  | H : (_ =? _)%nat = true |- _ => apply Nat.eqb_eq in H
  end).

(** * Folds that may fail *)

Lemma fold_result_ind {A B} (f : A → B → result A) (P : A → list B → Prop) a l a' :
  (∀ a, P a []) → (∀ a x a1 l, f a x = Ok a1 → P a1 l → P a (x :: l)) →
  fold_result f a l = Ok a' → P a l.
Proof.
  intros H0 HS. revert a. induction l as [|x l IH]; intros a; [intros _; apply H0|].
  cbn [fold_result]. intros (a1 & Hf & H)%bind_Ok. eauto.
Qed.

Lemma fold_result_app {A B} (f : A → B → result A) a l1 l2 :
  fold_result f a (l1 ++ l2) = (fold_result f a l1 ≫= λ a', fold_result f a' l2).
Proof.
  revert a. induction l1 as [|x l1 IH]; intros a; [done|]. cbn [fold_result app].
  destruct (f a x); simpl; [apply IH | done].
Qed.

Lemma map_result_Ok {A B} (f : A → result B) l l' :
  map_result f l = Ok l' ↔ Forall2 (λ x y, f x = Ok y) l l'.
Proof.
  revert l'. induction l as [|x l IH]; intros l'; cbn [map_result].
  - split; [by intros [= <-] | by intros ->%Forall2_nil_inv_l].
  - split.
    + intros (y & Hy & (ys & Hys%IH & [= <-])%bind_Ok)%bind_Ok. by constructor.
    + intros (y & ys & Hy & Hys%IH & ->)%Forall2_cons_inv_l. rewrite Hy. cbn. by rewrite Hys.
Qed.

Lemma map_result_app {A B} (f : A → result B) l1 l2 :
  map_result f (l1 ++ l2) = (map_result f l1 ≫= λ a, map_result f l2 ≫= λ b, Ok (a ++ b)).
Proof.
  induction l1 as [|x l1 IH]; cbn [map_result app].
  - simpl. by destruct (map_result f l2).
  - destruct (f x); simpl; [|done]. rewrite IH. destruct (map_result f l1); simpl; [|done].
    by destruct (map_result f l2).
Qed.

Lemma elem_of_fmap_eq {A B} (f : A → B) (x : A) (y : B) (l : list A) : x ∈ l → y = f x → y ∈ f <$> l.
Proof. intros H ->. by apply list_elem_of_fmap_2. Qed.

Lemma filter_ext_all {A} (P Q : A → Prop) `{!∀ x, Decision (P x), !∀ x, Decision (Q x)} (l : list A) :
  Forall (λ x, P x ↔ Q x) l → filter P l = filter Q l.
Proof.
  induction 1 as [|x l Hx _ IH]; [done|]. rewrite !filter_cons, IH.
  by rewrite (decide_ext _ _ _ _ Hx).
Qed.

(** * Sums over a bucket *)

(** What the operations of a list paid into one bucket. *)
Definition bucket_sum (k : string) (ops : list Operation) : Z :=
  sum_Z (op_amount <$> filter (λ o, op_bucket o = Some k) ops).
Definition part_of (k : string) (parts : list ServiceDistribution) : Z :=
  sum_Z (alpha_rao <$> filter (λ d, dist_bucket_id d = k) parts).

Lemma bucket_sum_app k l1 l2 : bucket_sum k (l1 ++ l2) = bucket_sum k l1 + bucket_sum k l2.
Proof. unfold bucket_sum. by rewrite filter_app, fmap_app, sum_Z_app. Qed.
Lemma bucket_sum_nil k : bucket_sum k [] = 0.
Proof. done. Qed.
Lemma bucket_sum_cons k o l :
  bucket_sum k (o :: l) = (if decide (op_bucket o = Some k) then op_amount o else 0) + bucket_sum k l.
Proof. unfold bucket_sum. rewrite filter_cons. case_decide; csimpl; lia. Qed.

Lemma part_of_elem parts d : NoDup (dist_bucket_id <$> parts) → d ∈ parts →
  part_of (dist_bucket_id d) parts = alpha_rao d.
Proof.
  intros Hnd Hd. unfold part_of. induction parts as [|x parts IH]; [by apply elem_of_nil in Hd|].
  simpl in Hnd. apply NoDup_cons in Hnd as [Hx Hnd]. rewrite filter_cons.
  apply elem_of_cons in Hd as [->|Hd].
  - rewrite decide_True by done. csimpl.
    assert (filter (λ d, dist_bucket_id d = dist_bucket_id x) parts = []) as ->; [|csimpl; lia].
    apply elem_of_nil_inv. intros y [Hy1 Hy2]%list_elem_of_filter.
    apply Hx. rewrite <- Hy1. by apply list_elem_of_fmap_2.
  - rewrite decide_False; [by apply IH|]. intros E. apply Hx. rewrite E. by apply list_elem_of_fmap_2.
Qed.

Lemma part_of_none parts k : k ∉ dist_bucket_id <$> parts → part_of k parts = 0.
Proof.
  intros Hk. unfold part_of.
  assert (filter (λ d, dist_bucket_id d = k) parts = []) as ->; [|done].
  apply elem_of_nil_inv. intros y [Hy1 Hy2]%list_elem_of_filter.
  apply Hk. rewrite <- Hy1. by apply list_elem_of_fmap_2.
Qed.

(** * [plan_service_distribution] *)

Lemma plan_parts attributed available collector ds parts :
  plan_service_distribution attributed available collector ds = Ok parts →
  NoDup (dist_bucket_id <$> parts) ∧ sum_Z (alpha_rao <$> parts) = attributed ∧
  Forall (λ d, 0 < alpha_rao d ∧ ∃ s, s ∈ ds ∧ bucket_id s = dist_bucket_id d ∧
                 holding_coldkey s = dist_holding_coldkey d ∧ 0 < allocation_bps s) parts ∧
  NoDup (bucket_id <$> ds).
Proof.
  intros (Ha & Hnd & _ & Hbad & Ht & ->)%plan_inv.
  split_and!; [|rewrite omap_positive_sum; apply distribute_sum; lia | |done].
  - assert (NoDup (bucket_id <$> (distribute attributed ds).*1)) as Hn.
    { unfold distribute. rewrite fst_zip.
      - rewrite (py_sorted_perm by_bucket).
        eapply sublist_NoDup; [exact Hnd|]. apply fmap_sublist, sublist_filter.
      - by rewrite length_bumps, length_fmap. }
    revert Hn. generalize (distribute attributed ds). intros l.
    induction l as [|[d a] l IH]; csimpl; intros Hn; [constructor|].
    apply NoDup_cons in Hn as [Hd Hn]. destruct (a =? 0); csimpl; [by apply IH|].
    constructor; [|by apply IH]. intros Hin. apply Hd.
    apply list_elem_of_fmap in Hin as (x & Hx & ([d' a'] & Hin & Hx')%list_elem_of_omap).
    simpl in Hx'. destruct (a' =? 0); [done|]. injection Hx' as <-. simpl in Hx. rewrite Hx.
    apply list_elem_of_fmap_2. by apply (list_elem_of_fmap_2 fst _ (d', a')).
  - apply Forall_forall. intros x ([d a] & Hin & Hx)%list_elem_of_omap. simpl in Hx.
    destruct (Z.eqb_spec a 0) as [|Hne]; [done|]. injection Hx as <-. simpl.
    apply distribute_elem in Hin as (Hd & Hb & Hfl); [|lia..].
    assert (0 <= allocation_bps d) as Hpos.
    { apply not_true_iff_false in Hbad. destruct (decide (0 <= allocation_bps d)) as [|Hneg]; [done|].
      exfalso. apply Hbad. apply existsb_exists. exists d. split; [by apply list_elem_of_In|].
      unfold bad_destination. apply orb_true_iff. right. apply negb_true_iff, andb_false_iff.
      left. apply Z.leb_gt. lia. }
    assert (0 <= floor_share attributed (sum_Z (allocation_bps <$> ds)) d).
    { unfold floor_share. apply Z.div_pos; nia. }
    split; [lia|]. exists d. split_and!; [done..|lia].
Qed.

(** * [remaining_distribution] *)

(** An operation the split accepts as a settled leg. *)
Definition settled_leg (parts : list ServiceDistribution) (o : Operation) : Prop :=
  op_role o = "transfer" ∧ op_state o = "finalized" ∧ 0 < op_amount o ∧
  ∃ d, d ∈ parts ∧ op_bucket o = Some (dist_bucket_id d) ∧
       op_destination o = Some (dist_holding_coldkey d).

Definition by_id (parts : list ServiceDistribution) : list (string * ServiceDistribution) :=
  (λ d, (dist_bucket_id d, d)) <$> parts.

Section remaining.
Context (parts : list ServiceDistribution) (Hnd : NoDup (dist_bucket_id <$> parts)).

Lemma by_id_keys : (by_id parts).*1 = dist_bucket_id <$> parts.
Proof using. unfold by_id. rewrite <- list_fmap_compose. done. Qed.

Lemma expected_eq : dict_of (by_id parts) = by_id parts.
Proof using Hnd. apply dict_of_NoDup. by rewrite by_id_keys. Qed.

Lemma get_by_id k d : dict_get k (by_id parts) = Some d ↔ d ∈ parts ∧ dist_bucket_id d = k.
Proof using Hnd.
  split.
  - intros (d' & [= -> <-] & Hd)%dict_get_Some_elem%list_elem_of_fmap. done.
  - intros [Hd <-]. apply elem_dict_get; [by rewrite by_id_keys|].
    by apply (list_elem_of_fmap_2 (λ d, (dist_bucket_id d, d))).
Qed.

Lemma paid_step_Ok paid o paid' : paid_step (by_id parts) paid o = Ok paid' →
  settled_leg parts o ∧ ∃ d, d ∈ parts ∧ op_bucket o = Some (dist_bucket_id d) ∧
    default 0 (dict_get (dist_bucket_id d) paid) + op_amount o <= alpha_rao d ∧
    paid' = dict_set (dist_bucket_id d)
              (default 0 (dict_get (dist_bucket_id d) paid) + op_amount o) paid.
Proof using Hnd.
  unfold paid_step. destruct (op_bucket o) as [b|] eqn:Hb; simpl; [|discriminate].
  destruct (dict_get b (by_id parts)) as [d|] eqn:Hd; simpl; [|discriminate].
  apply get_by_id in Hd as [Hd <-]. intros H. inv_ok H. to_prop.
  split; [|by exists d]. unfold settled_leg. split_and!; [done..|by exists d].
Qed.

Lemma paid_fold ops paid paid' : fold_result (paid_step (by_id parts)) paid ops = Ok paid' →
  Forall (settled_leg parts) ops ∧
  (∀ k, default 0 (dict_get k paid') = default 0 (dict_get k paid) + bucket_sum k ops) ∧
  (∀ d, d ∈ parts → default 0 (dict_get (dist_bucket_id d) paid) <= alpha_rao d →
        default 0 (dict_get (dist_bucket_id d) paid') <= alpha_rao d).
Proof using Hnd.
  revert paid. induction ops as [|o ops IH]; intros paid; cbn [fold_result].
  - intros [= <-]. split_and!; [constructor | intros k; rewrite bucket_sum_nil; lia | done].
  - intros (paid1 & (Hs & d & Hd & Hb & Hle & ->)%paid_step_Ok & H)%bind_Ok.
    apply IH in H as (Hf & Hsum & Hcap). split_and!.
    + by constructor.
    + intros k. rewrite Hsum, dict_get_set, bucket_sum_cons. rewrite Hb.
      destruct (decide (k = dist_bucket_id d)) as [->|Hk].
      * rewrite decide_True by done. simpl. lia.
      * rewrite decide_False by congruence. lia.
    + intros d' Hd' Hle'. apply Hcap; [done|]. rewrite dict_get_set.
      destruct (decide (dist_bucket_id d' = dist_bucket_id d)) as [E|]; [|done]. simpl.
      assert (d' = d) as ->; [|done].
      assert (dict_get (dist_bucket_id d) (by_id parts) = Some d') as E1 by by apply get_by_id.
      assert (dict_get (dist_bucket_id d) (by_id parts) = Some d) as E2 by by apply get_by_id.
      congruence.
Qed.
End remaining.

(** What [remaining_distribution] returns: exactly the unpaid part of every
    bucket, in the order of the split. *)
Lemma remaining_spec parts ops rem :
  NoDup (dist_bucket_id <$> parts) → Forall (λ d, 0 < alpha_rao d) parts →
  remaining_distribution parts ops = Ok rem →
  Forall (settled_leg parts) ops ∧
  (∀ d, d ∈ parts → bucket_sum (dist_bucket_id d) ops <= alpha_rao d) ∧
  rem = omap (λ d, if bucket_sum (dist_bucket_id d) ops <? alpha_rao d
                   then Some (with_alpha d (alpha_rao d - bucket_sum (dist_bucket_id d) ops))
                   else None) parts.
Proof.
  intros Hnd Hpos. unfold remaining_distribution. fold (by_id parts). rewrite expected_eq by done.
  set (paid0 := (λ kv : string * ServiceDistribution, (kv.1, 0)) <$> by_id parts).
  intros (paid & (Hf & Hsum & Hcap)%paid_fold & [= <-])%bind_Ok; [|done].
  assert (∀ k, default 0 (dict_get k paid0) = 0) as H0.
  { intros k. destruct (dict_get k paid0) eqn:E; [|done].
    apply dict_get_Some_elem in E. unfold paid0 in E.
    by apply list_elem_of_fmap in E as (? & [= _ ->] & _). }
  assert (∀ k, default 0 (dict_get k paid) = bucket_sum k ops) as Hp.
  { intros k. rewrite Hsum, H0. lia. }
  split_and!; [done | |].
  - intros d Hd. rewrite <- Hp. apply Hcap; [done|]. rewrite H0.
    eapply Forall_forall in Hpos; [|exact Hd]. simpl in Hpos. lia.
  - apply omap_ext_all. intros d. by rewrite Hp.
Qed.

(** A part that remains is a bucket of the split with what is left of it. *)
Lemma remaining_elem parts ops rem d :
  NoDup (dist_bucket_id <$> parts) → Forall (λ d, 0 < alpha_rao d) parts →
  remaining_distribution parts ops = Ok rem → d ∈ rem →
  0 < alpha_rao d ∧ bucket_sum (dist_bucket_id d) ops + alpha_rao d = part_of (dist_bucket_id d) parts ∧
  ∃ d', d' ∈ parts ∧ dist_bucket_id d' = dist_bucket_id d ∧
        dist_holding_coldkey d' = dist_holding_coldkey d.
Proof.
  intros Hnd Hpos (_ & _ & ->)%remaining_spec Hd; [|done..].
  apply list_elem_of_omap in Hd as (d' & Hd' & E).
  destruct (Z.ltb_spec (bucket_sum (dist_bucket_id d') ops) (alpha_rao d')); [|done].
  injection E as <-. simpl. rewrite part_of_elem by done. split_and!; [lia..|]. by exists d'.
Qed.

(** * The event table *)

Lemma events_named_log name db n body :
  events_named name (log db n body) =
  events_named name db ++
  (if String.eqb n name
   then [{| event_id := max_id (event_id <$> events db) + 1; event := n; payload := JObj body |}]
   else []).
Proof.
  unfold events_named, log. cbn [events with_events]. rewrite filter_app, filter_cons, filter_nil. cbn.
  destruct (String.eqb n name); [by rewrite decide_True|by rewrite decide_False].
Qed.

Lemma events_named_other name db n body :
  String.eqb n name = false → events_named name (log db n body) = events_named name db.
Proof. intros E. rewrite events_named_log, E. apply app_nil_r. Qed.

Lemma events_named_ext name db db' : events db' = events db → events_named name db' = events_named name db.
Proof. unfold events_named. by intros ->. Qed.

Lemma max_id_cons x l : max_id (x :: l) = Z.max x (max_id l).
Proof. done. Qed.
Lemma max_id_ge l x : x ∈ l → x <= max_id l.
Proof.
  induction l as [|y l IH]; [by intros ?%elem_of_nil|]. rewrite max_id_cons.
  intros [->|H%IH]%elem_of_cons; lia.
Qed.
Lemma max_id_nonneg l : 0 <= max_id l.
Proof. induction l; [done|]. rewrite max_id_cons. lia. Qed.
Lemma max_id_app l1 l2 : max_id (l1 ++ l2) = Z.max (max_id l1) (max_id l2).
Proof.
  induction l1 as [|x l1 IH]; cbn [app].
  - pose proof (max_id_nonneg l2). change (max_id []) with 0. lia.
  - rewrite !max_id_cons, IH. lia.
Qed.

Section attribution.
Context {SH : Sha256} {VS : VerifySignature}.

(** * The aggregate intents *)

Definition decodes (e : Event) (r : ManualTransfer) : Prop :=
  decode_manual (without_policy (payload e)) = Ok r.

(** The rows behind [aggregate_claims]. *)
Definition batch_rows (db : CollectorDb) : list Event :=
  filter (λ e, has_sources e && unexpired db e = true) (events_named "manual_transfer_armed" db).

Definition claim_entry (r : ManualTransfer) : Z * ManualTransfer := (after_operation r + 1, r).

Lemma claims_step_Ok acc e acc' : claims_step acc e = Ok acc' ↔
  ∃ r, decodes e r ∧ after_operation r + 1 ∉ acc.*1 ∧ acc' = acc ++ [claim_entry r].
Proof.
  unfold claims_step. split.
  - intros (r & Hr & (? & Hk%require_Ok & [= <-])%bind_Ok)%bind_Ok. to_prop.
    exists r. split_and!; [done|done|]. by rewrite dict_set_fresh.
  - intros (r & Hr & Hk & ->). rewrite Hr. cbn [mbind result_bind].
    rewrite require_true by by rewrite bool_decide_eq_false_2.
    cbn [mbind result_bind]. by rewrite dict_set_fresh.
Qed.

Lemma NoDup_keys_snoc {A} (acc : list (Z * A)) k v : NoDup acc.*1 → k ∉ acc.*1 → NoDup (acc ++ [(k, v)]).*1.
Proof.
  intros Ha Hk. rewrite fmap_app. apply NoDup_app. split_and!; [done| |apply NoDup_singleton].
  by intros y Hy ->%list_elem_of_singleton.
Qed.

Lemma claims_fold acc rows claims : NoDup acc.*1 →
  fold_result claims_step acc rows = Ok claims ↔
  ∃ rs, Forall2 decodes rows rs ∧ NoDup (acc ++ (claim_entry <$> rs)).*1 ∧
        claims = acc ++ (claim_entry <$> rs).
Proof.
  revert acc. induction rows as [|e rows IH]; intros acc Hacc; cbn [fold_result].
  - split.
    + intros [= <-]. exists []. by rewrite app_nil_r.
    + by intros (rs & ->%Forall2_nil_inv_l & _ & ->); rewrite app_nil_r.
  - split.
    + intros (acc1 & (r & Hr & Hk & ->)%claims_step_Ok & H)%bind_Ok.
      apply IH in H as (rs & Hrs & Hn & ->); [|by apply NoDup_keys_snoc].
      exists (r :: rs). rewrite <- app_assoc in Hn |- *. split_and!; [by constructor|done|done].
    + intros (rs0 & (r & rs & Hr & Hrs & ->)%Forall2_cons_inv_l & Hn & ->).
      assert (after_operation r + 1 ∉ acc.*1) as Hk.
      { rewrite fmap_app in Hn. apply NoDup_app in Hn as (_ & Hd & _). intros Hin.
        apply (Hd _ Hin). cbn. left. }
      rewrite (proj2 (claims_step_Ok acc e _)) by by exists r.
      cbn [mbind result_bind]. apply IH; [by apply NoDup_keys_snoc|].
      exists rs. rewrite <- app_assoc. done.
Qed.

#[local] Instance succ_inj : Inj eq eq (λ a : Z, a + 1).
Proof. intros ? ?. lia. Qed.
Lemma claim_keys rs : NoDup (claim_entry <$> rs).*1 ↔ NoDup (after_operation <$> rs).
Proof.
  rewrite <- list_fmap_compose, <- (NoDup_fmap (λ a, a + 1) (after_operation <$> rs)).
  by rewrite <- list_fmap_compose.
Qed.

Lemma aggregate_claims_Ok db claims : aggregate_claims db = Ok claims ↔
  ∃ rs, Forall2 decodes (batch_rows db) rs ∧ NoDup (after_operation <$> rs) ∧
        claims = claim_entry <$> rs.
Proof.
  unfold aggregate_claims. fold (batch_rows db). rewrite claims_fold by constructor. cbn [app].
  split; intros (rs & H1 & H2 & H3); exists rs; (split_and!; [done|by apply claim_keys|done]).
Qed.

(** A claim belongs to an unexpired aggregate intent of the journal. *)
Lemma get_claim rs id r : NoDup (after_operation <$> rs) →
  dict_get id (claim_entry <$> rs) = Some r ↔ r ∈ rs ∧ id = after_operation r + 1.
Proof.
  intros Hn. split.
  - intros (r' & [= -> <-] & Hr)%dict_get_Some_elem%list_elem_of_fmap. done.
  - intros [Hr ->]. apply elem_dict_get; [by apply claim_keys|].
    by apply (list_elem_of_fmap_2 claim_entry).
Qed.

(** * What an operation takes from a receipt *)

(** The receipts one operation draws on, and how much from each. *)
Definition legs (claims : list (Z * ManualTransfer)) (o : Operation) : list (Z * Z) :=
  match dict_get (op_id o) claims with
  | Some r => (λ c, (claim_block c, claim_amount c)) <$> claims_of_batch r
  | None => match op_source_block o with Some b => [(b, op_amount o)] | None => [] end
  end.
Definition taken (claims : list (Z * ManualTransfer)) (b : Z) (o : Operation) : Z :=
  sum_Z (filter (λ l, l.1 = b) (legs claims o)).*2.

(** An operation that has moved, or may still move, its amount. *)
Definition live (o : Operation) : Prop := op_state o = "dispatching" ∨ op_state o = "finalized".
#[global] Instance live_dec o : Decision (live o).
Proof. unfold live. apply _. Defined.

(** What is spent or committed from a receipt for a bucket. *)
Definition committed (claims : list (Z * ManualTransfer)) (ops : list Operation) (b : Z) (k : string) : Z :=
  sum_Z (taken claims b <$> filter (λ o, live o ∧ op_bucket o = Some k) ops).

Lemma attributed_Ok claims b o l : attributed claims b o = Ok l →
  sum_Z (op_amount <$> l) = taken claims b o ∧
  Forall (λ q, op_bucket q = op_bucket o ∧ op_state q = op_state o) l ∧
  (l = [] ↔ b ∉ (legs claims o).*1).
Proof.
  unfold attributed, taken, legs. destruct (dict_get (op_id o) claims) as [r|].
  - intros (? & _ & [= <-])%bind_Ok. induction (claims_of_batch r) as [|c cs (IH1 & IH2 & IH3)].
    + split_and!; [done|constructor|]. split; [intros _; apply not_elem_of_nil|done].
    + csimpl. rewrite !filter_cons. cbn [fst].
      destruct (Z.eqb_spec (claim_block c) b) as [E|E].
      * rewrite !decide_True by done. csimpl. rewrite IH1. split_and!; [done|by constructor|].
        split; [done|]. intros H. destruct H. rewrite E. left.
      * rewrite !decide_False by done. split_and!; [done|done|]. rewrite IH3.
        rewrite not_elem_of_cons. intuition congruence.
  - intros [= <-]. destruct (op_source_block o) as [b'|].
    + destruct (decide (b' = b)) as [->|E].
      * rewrite bool_decide_eq_true_2 by done. csimpl. rewrite filter_cons, decide_True by done.
        cbn. split_and!; [lia|by repeat constructor|]. split; [done|]. intros H. destruct H. left.
      * rewrite bool_decide_eq_false_2 by congruence. rewrite filter_cons, decide_False by done.
        split_and!; [done|constructor|]. csimpl. rewrite not_elem_of_cons.
        split; [intros _; split; [congruence|apply not_elem_of_nil]|done].
    + rewrite bool_decide_eq_false_2 by done. split_and!; [done|constructor|].
      split; [intros _; apply not_elem_of_nil|done].
Qed.

Lemma source_operations_Ok db b ex ops : source_operations db b ex = Ok ops →
  ∃ claims, aggregate_claims db = Ok claims ∧
    (∀ k, bucket_sum k ops =
       sum_Z (taken claims b <$> filter (λ o, op_bucket o = Some k)
                (filter (λ o, op_id o =? ex = false) (operations db)))) ∧
    (∀ o, o ∈ operations db → op_id o ≠ ex → b ∈ (legs claims o).*1 →
       ∃ q, q ∈ ops ∧ op_bucket q = op_bucket o ∧ op_state q = op_state o).
Proof.
  unfold source_operations. intros (claims & Hc & (l & Hl%map_result_Ok & [= <-])%bind_Ok)%bind_Ok.
  exists claims. split; [done|].
  assert (∀ o, o ∈ operations db ∧ op_id o ≠ ex ↔
    o ∈ filter (λ o, op_id o =? ex = false) (operations db)) as Hf.
  { intros o. rewrite list_elem_of_filter, Z.eqb_neq. tauto. }
  split.
  - intros k. clear Hf. induction Hl as [|o q os qs Ho Hl IH]; [done|].
    apply attributed_Ok in Ho as (Hs & Hf & _). cbn [concat]. rewrite bucket_sum_app, IH, filter_cons.
    assert (bucket_sum k q = if decide (op_bucket o = Some k) then taken claims b o else 0) as ->.
    { clear -Hs Hf. rewrite <- Hs. clear Hs.
      induction Hf as [|x q [Hx _] Hf IH]; [by case_decide|]. rewrite bucket_sum_cons, IH, Hx.
      case_decide; csimpl; lia. }
    case_decide; csimpl; lia.
  - intros o Ho Hne Hb. assert (o ∈ filter (λ o, op_id o =? ex = false) (operations db)) as Hin
      by by apply Hf.
    apply list_elem_of_lookup in Hin as [i Hi]. eapply Forall2_lookup_l in Hl as (q & Hq & Ho'); [|exact Hi].
    apply attributed_Ok in Ho' as (_ & Hall & Hnil). destruct q as [|x q].
    { by apply Hnil in Hb. }
    apply Forall_cons in Hall as [[H1 H2] _]. exists x. split; [|done].
    apply list_elem_of_In, in_concat. exists (x :: q). split; apply list_elem_of_In; [|left].
    by eapply list_elem_of_lookup_2.
Qed.

(** * The manual history *)

(** What [history_step] demands of an intent under the digest [d]. *)
Record intent_ok (p : CollectorPolicy) (d : string) (r : ManualTransfer) : Prop := {
  intent_maximum : ∃ m, manual_maximum r p d = Ok m ∧ amount_rao r <= m;
  intent_bucket : bucket_funded p (request_bucket r) = true;
  intent_start : start_block p <= source_block r
}.

Lemma history_step_Ok db p limits st row st' : history_step db p limits st row = Ok st' →
  ∃ r d, decodes row r ∧ intent_ok p d r ∧ lookup_key "policy" (payload row) = Some (JStr d) ∧
    request_id r ∉ ids st ∧ previous st <= after_operation r ∧
    (previous_expired st = false → previous st < after_operation r) ∧
    closed_before st < event_id row ∧
    ids st' = request_id r :: ids st ∧ previous st' = after_operation r ∧
    ((request_id r ∉ (expired st).*1 ∧ previous_expired st' = false ∧ expired st' = expired st ∧
      closed_before st' = closed_before st ∧ requests st' = requests st ++ [r]) ∨
     (∃ closure at_, dict_get (request_id r) (expired st) = Some (closure, at_) ∧
      closure_matches db r d (event_id row) closure at_ = true ∧
      previous_expired st' = true ∧ closed_before st' = at_ ∧
      expired st' = filter (λ kv, String.eqb kv.1 (request_id r) = false) (expired st) ∧
      requests st' = requests st)).
Proof.
  unfold history_step. intros H.
  apply bind_Ok in H as (? & Hc%require_Ok & H). apply bind_Ok in H as (? & _ & H).
  apply bind_Ok in H as ([d l] & Hl & H). apply bind_Ok in H as (? & _ & H).
  apply bind_Ok in H as (r & Hr & H). apply bind_Ok in H as (? & Hord%require_Ok & H).
  apply bind_Ok in H as (m & Hm & H). apply bind_Ok in H as (? & Hok%require_Ok & H).
  cbn [fst] in *. to_prop.
  assert (lookup_key "policy" (payload row) = Some (JStr d)) as Hp.
  { unfold limit_of in Hl. destruct (lookup_key "policy" (payload row)) as [[]|]; try discriminate.
    destruct (dict_get s limits); [|discriminate]. by injection Hl as <- _. }
  exists r, d. split_and!; try done.
  - split; [by exists m | done..].
  - intros Hpe. match goal with E : _ && negb (previous_expired st) = false |- _ =>
      rewrite Hpe, andb_true_r in E end. to_prop. lia.
  - destruct (dict_get _ _) as [[closure at_]|];
      [apply bind_Ok in H as (? & _ & [= <-])|injection H as <-]; done.
  - destruct (dict_get _ _) as [[closure at_]|];
      [apply bind_Ok in H as (? & _ & [= <-])|injection H as <-]; done.
  - destruct (dict_get (request_id r) (expired st)) as [[closure at_]|] eqn:E.
    + right. exists closure, at_. apply bind_Ok in H as (? & Hcl%require_Ok & [= <-]).
      split_and!; done.
    + left. injection H as <-. split_and!; try done. by apply dict_get_None.
Qed.

(** Intents not in the dict of expiries, in the order of their rows. *)
Definition unexpired_in (keys : list string) (rs : list ManualTransfer) : list ManualTransfer :=
  filter (λ r, request_id r ∉ keys) rs.
Definition by_after (a b : ManualTransfer) : Prop := after_operation a < after_operation b.

Lemma unexpired_in_pop (d : list (string * (Json * Z))) id rs :
  Forall (λ r, request_id r ≠ id) rs →
  unexpired_in (filter (λ kv, String.eqb kv.1 id = false) d).*1 rs = unexpired_in d.*1 rs.
Proof.
  intros Hrs. unfold unexpired_in. apply filter_ext_all. eapply Forall_impl; [exact Hrs|].
  intros r Hne. cbn. split; intros Hn Hin; apply Hn; clear Hn.
  - apply list_elem_of_fmap in Hin as (kv & E & Hin). rewrite E. apply list_elem_of_fmap_2.
    apply list_elem_of_filter. split; [|done]. apply String.eqb_neq. congruence.
  - apply list_elem_of_fmap in Hin as (kv & E & [_ Hin]%list_elem_of_filter). rewrite E.
    by apply list_elem_of_fmap_2.
Qed.

Lemma history_fold db p limits rows st st' : fold_result (history_step db p limits) st rows = Ok st' →
  ∃ rs, Forall2 decodes rows rs ∧ Forall (λ r, ∃ d, intent_ok p d r) rs ∧
    NoDup (request_id <$> rs) ∧ Forall (λ r, request_id r ∉ ids st) rs ∧
    requests st' = requests st ++ unexpired_in (expired st).*1 rs ∧
    Forall (λ r, previous st <= after_operation r ∧
                 (previous_expired st = false → previous st < after_operation r)) rs ∧
    StronglySorted by_after (unexpired_in (expired st).*1 rs).
Proof.
  revert st. induction rows as [|row rows IH]; intros st; cbn [fold_result].
  { intros [= <-]. exists []. unfold unexpired_in. cbn. rewrite app_nil_r.
    split_and!; try done; constructor. }
  intros (st1 & (r & d & Hr & Hok & _ & Hid & Hle & Hlt & _ & Hids & Hprev & Hcase)%history_step_Ok
    & (rs & Hrs & Hoks & Hnd & Hfresh & Hreq & Hord & Hsort)%IH)%bind_Ok.
  exists (r :: rs). rewrite Hids in Hfresh. rewrite Hprev in Hord.
  assert (Forall (λ q, request_id q ≠ request_id r) rs) as Hne.
  { eapply Forall_impl; [exact Hfresh|]. cbn. intros q Hq E. apply Hq. rewrite E. left. }
  assert (unexpired_in (expired st1).*1 rs = unexpired_in (expired st).*1 rs) as Hsame.
  { destruct Hcase as [(_ & _ & -> & _)|(? & ? & _ & _ & _ & _ & -> & _)]; [done|].
    by apply unexpired_in_pop. }
  rewrite Hsame in Hreq, Hsort. split_and!.
  - by constructor.
  - constructor; [by exists d|done].
  - csimpl. apply NoDup_cons. split; [|done]. intros (q & E & Hq)%list_elem_of_fmap.
    eapply Forall_forall in Hne; [|exact Hq]. by apply Hne.
  - constructor; [done|]. eapply Forall_impl; [exact Hfresh|]. cbn. intros q Hq Hin. apply Hq. by right.
  - unfold unexpired_in at 1. rewrite filter_cons. fold (unexpired_in (expired st).*1 rs).
    destruct Hcase as [(Hn & _ & _ & _ & E)|(c & a & Hc & _ & _ & _ & _ & E)]; rewrite Hreq, E.
    + rewrite decide_True by done. by rewrite <- app_assoc.
    + rewrite decide_False; [done|]. intros Hn. apply Hn. apply dict_get_Some_elem in Hc.
      by eapply (elem_of_fmap_eq fst).
  - constructor; [done|]. eapply Forall_impl; [exact Hord|]. cbn. intros q [H1 _]. split; [lia|].
    intros Hpe. specialize (Hlt Hpe). lia.
  - unfold unexpired_in. rewrite filter_cons. fold (unexpired_in (expired st).*1 rs).
    case_decide as Hn; [|done]. constructor; [done|].
    destruct Hcase as [(_ & Hpe & _)|(c & a & Hc & _)].
    + rewrite Hpe in Hord. apply Forall_forall. intros q [_ Hq]%list_elem_of_filter.
      eapply Forall_forall in Hord; [|exact Hq]. cbn in Hord. unfold by_after. destruct Hord as [_ H].
      by apply H.
    + exfalso. apply Hn. apply dict_get_Some_elem in Hc. by eapply (elem_of_fmap_eq fst).
Qed.

(** The identifiers of the expired intents. *)
Definition expired_ids (db : CollectorDb) : list string :=
  omap (λ e, as_str (lookup_key "request_id" (payload e))) (events_named "manual_unsigned_expired" db).

Lemma expired_fold rows d d' : fold_result expired_entry d rows = Ok d' →
  ∀ id, id ∈ d'.*1 ↔ id ∈ d.*1 ∨
    id ∈ omap (λ e, as_str (lookup_key "request_id" (payload e))) rows.
Proof.
  revert d. induction rows as [|e rows IH]; intros d; cbn [fold_result omap list_omap].
  { intros [= <-] id. rewrite elem_of_nil. tauto. }
  intros (d1 & H & Hf)%bind_Ok id. unfold expired_entry in H.
  destruct (as_str (lookup_key "request_id" (payload e))) as [i|] eqn:E; [|discriminate].
  repeat match type of H with match ?x with _ => _ end = _ => destruct x; [|discriminate H] end.
  apply bind_Ok in H as (? & _ & [= <-]).
  rewrite (IH _ Hf id), elem_of_keys_dict_set, elem_of_cons. intuition congruence.
Qed.

Lemma manual_history_Ok db p manual : manual_transfer_history db p = Ok manual →
  ∃ rs, Forall2 decodes (events_named "manual_transfer_armed" db) rs ∧
    Forall (λ r, ∃ d, intent_ok p d r) rs ∧ NoDup (request_id <$> rs) ∧
    manual = unexpired_in (expired_ids db) rs ∧ StronglySorted by_after manual ∧
    Forall (λ r, 0 < after_operation r) rs ∧ check_claims db p manual = Ok tt.
Proof.
  unfold manual_transfer_history. intros H.
  apply bind_Ok in H as (? & _ & H). apply bind_Ok in H as (? & _ & H).
  apply bind_Ok in H as (limits & _ & H). apply bind_Ok in H as (d & Hd & H).
  apply bind_Ok in H as (st & Hst & H). apply bind_Ok in H as (? & _ & H).
  apply bind_Ok in H as ([] & Hcl & [= <-]).
  apply history_fold in Hst as (rs & Hrs & Hok & Hnd & _ & Hreq & Hord & Hsort). cbn in *.
  assert (unexpired_in d.*1 rs = unexpired_in (expired_ids db) rs) as E.
  { unfold unexpired_in. apply list_filter_iff. intros r.
    pose proof (expired_fold _ _ _ Hd (request_id r)) as Hi. cbn in Hi. rewrite elem_of_nil in Hi.
    unfold expired_ids. tauto. }
  exists rs. rewrite <- E, <- Hreq in *. split_and!; try done.
  eapply Forall_impl; [exact Hord|]. cbn. intros r [_ H]. by apply H.
Qed.

(** ** Reading an intent back from its row *)

Lemma lookup_without_policy k j : k ≠ "policy" → lookup_key k (without_policy j) = lookup_key k j.
Proof.
  intros Hk. destruct j; try done. cbn. induction l as [|[k' v] l IH]; [done|].
  rewrite filter_cons. cbn [fst]. destruct (String.eqb_spec k' "policy") as [->|Hp].
  - rewrite decide_False by done. rewrite IH. cbn. by rewrite decide_False.
  - rewrite decide_True by done. cbn. by rewrite IH.
Qed.

Lemma decodes_fields e r : decodes e r →
  as_str (lookup_key "request_id" (payload e)) = Some (request_id r) ∧
  as_int (lookup_key "after_operation" (payload e)) = Some (after_operation r) ∧
  (has_sources e = true ↔ is_Some (batch r)).
Proof.
  unfold decodes, decode_manual. intros (b & Hb & H)%bind_Ok.
  rewrite lookup_without_policy in Hb by done. unfold str_field, int_field in H.
  rewrite !lookup_without_policy in H by done.
  apply bind_Ok in H as (id & Hid & H). apply bind_Ok in H as (after & Hafter & H).
  do 6 (apply bind_Ok in H as (? & _ & H)). apply bind_Ok in H as (? & _ & [= <-]). cbn. split_and!.
  - destruct (lookup_key "request_id" _) as [[]|]; try discriminate. by injection Hid as <-.
  - destruct (lookup_key "after_operation" _) as [[]|]; try discriminate. by injection Hafter as <-.
  - unfold has_sources. destruct (lookup_key "sources" (payload e)) as [l|].
    + apply bind_Ok in Hb as (? & _ & Hb). apply bind_Ok in Hb as (? & _ & Hb).
      apply bind_Ok in Hb as (? & Hl & [= <-]). destruct l; try discriminate. by split.
    + apply bind_Ok in Hb as (? & _ & [= <-]). split; [done|]. by intros [? ?].
Qed.

Lemma unexpired_spec db e r : decodes e r → unexpired db e = true ↔ request_id r ∉ expired_ids db.
Proof.
  intros (Hid & _ & _)%decodes_fields. unfold unexpired. rewrite Hid, negb_true_iff, <- not_true_iff_false.
  apply not_iff_compat. rewrite existsb_exists. unfold expired_ids. rewrite list_elem_of_omap.
  setoid_rewrite list_elem_of_In. unfold for_request. split.
  - intros (x & Hx & E). to_prop. by exists x.
  - intros (x & Hx & E). exists x. by rewrite bool_decide_eq_true_2.
Qed.

Lemma Forall2_decodes_elem rows rs r : Forall2 decodes rows rs → r ∈ rs → ∃ e, e ∈ rows ∧ decodes e r.
Proof.
  intros Hf [i Hi]%list_elem_of_lookup. eapply Forall2_lookup_r in Hf as (e & He & Hd); [|exact Hi].
  exists e. split; [|done]. by eapply list_elem_of_lookup_2.
Qed.
Lemma Forall2_decodes_row rows rs e r : Forall2 decodes rows rs → e ∈ rows → decodes e r → r ∈ rs.
Proof.
  intros Hf [i Hi]%list_elem_of_lookup Hd. eapply Forall2_lookup_l in Hf as (r' & Hr & Hd'); [|exact Hi].
  unfold decodes in *. assert (r = r') as -> by congruence. by eapply list_elem_of_lookup_2.
Qed.

(** The aggregate claims are the aggregate intents of the history. *)
Lemma claims_history db p manual rs : manual_transfer_history db p = Ok manual →
  Forall2 decodes (batch_rows db) rs → ∀ r, r ∈ rs ↔ r ∈ manual ∧ is_Some (batch r).
Proof.
  intros (all & Hall & _ & _ & -> & _)%manual_history_Ok Hrs r.
  unfold unexpired_in. rewrite list_elem_of_filter. split.
  - intros (e & He & Hd)%(Forall2_decodes_elem _ _ _ Hrs).
    apply list_elem_of_filter in He as [[Hs Hu]%andb_true_iff He].
    split_and!; [by apply (unexpired_spec db e) | by eapply Forall2_decodes_row|].
    by apply (decodes_fields e r Hd).
  - intros ((Hn & Hr) & Hb). apply (Forall2_decodes_elem _ _ _ Hall) in Hr as (e & He & Hd).
    eapply Forall2_decodes_row; [exact Hrs| |exact Hd]. apply list_elem_of_filter. split; [|done].
    apply andb_true_iff. split; [by apply (decodes_fields e r Hd) | by apply (unexpired_spec db e r)].
Qed.

Lemma sorted_last l r x : StronglySorted by_after l → last l = Some x → r ∈ l →
  after_operation r <= after_operation x ∧ (after_operation r = after_operation x → r = x).
Proof.
  intros Hs (l' & ->)%last_Some Hr. apply elem_of_app in Hr as [Hr|Hr];
    [|by apply list_elem_of_singleton in Hr as ->].
  assert (by_after r x) as Hlt; [|unfold by_after in Hlt; lia].
  induction l' as [|y l' IH]; [by apply elem_of_nil in Hr|].
  apply StronglySorted_inv in Hs as [Hs Hf]. apply elem_of_cons in Hr as [->|Hr]; [|by apply IH].
  eapply Forall_forall in Hf; [exact Hf|]. apply elem_of_app. right. left.
Qed.
End attribution.
