(* ===== verification/CollectorSafety.v ===== *)
(** What the collector's journal guarantees for every sequence of its
    operations, whatever the chain adapter answers.

    [Call] and [run] are the entry points of [collector.py], [manual_expiry.py]
    and the refusal record of [manual_worker.py] on one journal; [reachable] is
    the set of journals they produce from a fresh one.  [journal_step] lists the
    changes of the tables with the guards under which each happens, [run_steps]
    shows that every call is a sequence of them, and the invariants are proved
    once, by cases on these steps. *)
From Stdlib Require Import ZArith Lia.
From stdpp Require Import base list strings sets sorting relations.
From S2P Require Import Prelude PyText ServiceAllocation CollectorPolicy CollectorJournal Collector CollectorFacts.

#[local] Open Scope string_scope.
#[local] Open Scope list_scope.
#[local] Open Scope Z_scope.

(** * Calls *)

(** The arguments of one invocation.  [TransferCanary] and [ManualTransfer]
    arguments are objects: their constructors have run. *)
Inductive Call :=
  | Tick (role : string) (canary : option TransferCanary) (requested : option string)
  | Arm (r : ManualTransfer) (record : bool)
  | Expire (id why : string)
  | Replace (c : TransferCanary) (why : string)
  | ObserveEarnings (max_blocks : Z)
  | ObserveSource (b : Z)
  | Readiness
  | Refuse (id request_digest : string).

(** The event [manual_mailbox_refused] of [manual_worker.py]. *)
Definition refusal_body {SH : Sha256} (p : CollectorPolicy) (id d : string) : list (string * Json) :=
  [("request_id", JStr id); ("request_digest", JStr d); ("policy", JStr (digest p))].

(** The events whose payloads later readings interpret. *)
Definition interpreted : list string :=
  ["manual_transfer_armed"; "manual_unsigned_expired"; "transfer_canary_armed";
   "transfer_canary_replaced"; "dispatch_reserved"; "offline_approved_runtime_migration"].

Ltac is_interpreted := unfold interpreted; set_solver.
Ltac not_interpreted := apply (bool_decide_unpack _); vm_compute; exact I.

Section safety.
Context {SH : Sha256} {VS : VerifySignature}.

(** The journal after a call, and the bytes handed to the network. *)
Definition run (CC : CollectorChain) (p : CollectorPolicy) (db : CollectorDb) (c : Call)
    : CollectorDb * list string :=
  match c with
  | Tick role canary requested =>
      match canary with
      | Some c => if is_ok (check_canary c) then (tick db p role canary requested).1 else (db, [])
      | None => (tick db p role canary requested).1
      end
  | Arm r record =>
      (if is_ok (check_manual r) then (arm_manual_transfer db p r record).1 else db, [])
  | Expire id why => ((expire_unsigned_manual db p id why).1, [])
  | Replace c why =>
      (if is_ok (check_canary c) then (replace_failed_canary db p c why).1 else db, [])
  | ObserveEarnings n => ((observe_earnings db p n).1, [])
  | ObserveSource b => ((observe_earning_source db p b).1, [])
  | Readiness => ((manual_transfer_readiness db p).1, [])
  | Refuse id d => (log db "manual_mailbox_refused" (refusal_body p id d), [])
  end.

(** A history: the calls, each with what the chain answered to it. *)
Fixpoint run_all (p : CollectorPolicy) (db : CollectorDb) (l : list (CollectorChain * Call))
    : CollectorDb :=
  match l with
  | [] => db
  | (CC, c) :: l' => run_all p (run CC p db c).1 l'
  end.

Definition reachable (p : CollectorPolicy) (role : string) (db : CollectorDb) : Prop :=
  ∃ db0 l, initial_journal p role = Ok db0 ∧ db = run_all p db0 l.

(** * Steps of the tables *)

(** The canary in force: the last intent supersedes the armed one. *)
Definition in_force (c : TransferCanary) (manual : list ManualTransfer) : TransferCanary :=
  match last manual with
  | Some r => {| max_alpha_rao := amount_rao r; canary_after_operation := after_operation r |}
  | None => c
  end.

(** [a] of the receipt of block [b] is drawn within what the receipt still owes
    bucket [k], and goes to that bucket's wallet. *)
Definition drawn (db : CollectorDb) (p : CollectorPolicy) (k dest : string) (ba : Z * Z) : Prop :=
  ∃ row parts replacement ops rem d,
    row ∈ earnings db ∧ e_block row = ba.1 ∧
    plan_service_distribution (e_amount row) (e_amount row) (collector_coldkey p) (destinations p)
      = Ok parts ∧
    canary_replacement db p = Ok replacement ∧
    source_operations db ba.1 (excluded_operation replacement) = Ok ops ∧
    remaining_distribution parts ops = Ok rem ∧ d ∈ rem ∧
    dist_bucket_id d = k ∧ dist_holding_coldkey d = dest ∧ 0 < ba.2 <= alpha_rao d.

Definition claim_pairs (r : ManualTransfer) : list (Z * Z) :=
  match batch r with
  | Some b => (λ c, (claim_block c, claim_amount c)) <$> sources b
  | None => [(source_block r, amount_rao r)]
  end.

(** What a row holds of the bytes it was reserved for. *)
Definition call_of (p : CollectorPolicy) (o : Operation) : Prop :=
  if String.eqb (op_role o) "registration" then op_call o = registration_call p
  else ∃ dest, op_destination o = Some dest ∧ op_call o = transfer_call p dest (op_amount o).
Definition stored_int (z : Z) : Prop := - 2 ^ 63 <= z < 2 ^ 63.

Record reserved_row (p : CollectorPolicy) (o : Operation) : Prop := {
  row_unsettled : op_settlement o = None;
  row_call : call_of p o;
  row_fee : 0 <= fee_rao (op_signed o) <= max_fee_rao p;
  row_mortality : signed_start (op_signed o) = op_at_block o ∧
                  op_at_block o < signed_expires (op_signed o) <= op_at_block o + 128;
  row_stored : stored_int (op_amount o) ∧ stored_int (op_at_block o)
}.

(** The guards of a transfer's reservation. *)
Record transfer_reservation (db : CollectorDb) (p : CollectorPolicy) (o : Operation)
    (manual : list ManualTransfer) (existing : option TransferCanary) (draws : list (Z * Z)) : Prop := {
  res_pin : pin db = Some (digest p, "transfer");
  res_pending : pending_operation db = None;
  res_history : manual_transfer_history db p = Ok manual;
  res_existing : existing_canary db p = Ok existing;
  res_quiet : ∀ c, existing = Some c →
    Forall (λ q, op_id q <= canary_after_operation (in_force c manual)) (operations db);
  res_new : op_id o = last_operation db + 1 ∧ op_state o = "dispatching" ∧ op_role o = "transfer" ∧
            reserved_row p o;
  res_request : match last manual with
    | Some r => op_amount o = amount_rao r ∧ op_source_block o = Some (source_block r) ∧
                op_bucket o = Some (request_bucket r) ∧ draws = claim_pairs r
    | None => (∃ b, op_source_block o = Some b ∧ draws = [(b, op_amount o)]) ∧
              ∀ c, existing = Some c → op_amount o <= max_alpha_rao c
    end;
  res_draws : ∃ k dest, op_bucket o = Some k ∧ op_destination o = Some dest ∧
                Forall (drawn db p k dest) draws;
  res_sum : NoDup draws.*1 ∧ sum_Z draws.*2 = op_amount o
}.

(** The guards of an arming. *)
Record may_arm (db : CollectorDb) (p : CollectorPolicy) (r : ManualTransfer)
    (manual : list ManualTransfer) (c : TransferCanary) : Prop := {
  arm_valid : check_manual r = Ok tt;
  arm_fresh : request_id r ∉ expired_ids db;
  arm_history : manual_transfer_history db p = Ok manual;
  arm_new : Forall (λ q, request_id q ≠ request_id r) manual;
  arm_canary : existing_canary db p = Ok (Some c);
  arm_current : last_operation db = after_operation r ∧
                last_operation db = canary_after_operation (in_force c manual) + 1;
  arm_intent : intent_ok p (digest p) r;
  arm_prior : ∃ o, operation_by_id (last_operation db) db = Some o ∧ op_state o = "finalized" ∧
                   op_role o = "transfer"
}.

(** The guards of a replacement. *)
Record may_replace (db : CollectorDb) (p : CollectorPolicy) (c0 c : TransferCanary) (o : Operation)
    (saved proof : Settlement) (row : Earning) : Prop := {
  rep_valid : check_canary c = Ok tt;
  rep_first : canary_replacement db p = Ok None;
  rep_canary : ∃ manual, existing_canary db p = Ok (Some c0) ∧ manual_transfer_history db p = Ok manual ∧
      last_operation db = canary_after_operation (in_force c0 manual) + 1;
  rep_current : canary_after_operation c = last_operation db;
  rep_ceiling : max_alpha_rao c <= max_distribution_rao p;
  rep_failed : operation_by_id (last_operation db) db = Some o ∧ op_state o = "failed" ∧
               op_role o = "transfer" ∧ op_source_block o = Some (e_block row) ∧
               op_settlement o = Some saved ∧ row ∈ earnings db;
  rep_proof : status proof = "failed" ∧ settled_block proof = settled_block saved ∧
    settled_hash proof = settled_hash saved ∧
    extrinsic_hash proof = Some (signed_hash (op_signed o)) ∧
    ∃ i, extrinsic_index proof = Some i ∧ 0 <= i
}.

Definition add_operation (db : CollectorDb) (o : Operation) (body : list (string * Json)) : CollectorDb :=
  log (with_operations db (operations db ++ [o])) "dispatch_reserved" body.

Inductive journal_step (p : CollectorPolicy) : CollectorDb → CollectorDb → Prop :=
  | step_note db name body : name ∉ interpreted → journal_step p db (log db name body)
  | step_canary db c : existing_canary db p = Ok None →
      last_operation db = canary_after_operation c → pending_operation db = None →
      check_canary c = Ok tt → max_alpha_rao c <= max_distribution_rao p →
      journal_step p db
        (log db "transfer_canary_armed" (("policy", JStr (digest p)) :: canary_dict c))
  | step_replace db c0 c o saved proof row why : may_replace db p c0 c o saved proof row →
      bounded_reason why = true →
      journal_step p db (log db "transfer_canary_replaced"
        (("policy", JStr (digest p)) :: canary_dict c ++
         [("source_block", JInt (e_block row)); ("proof", JObj (settlement_dict proof));
          ("reason", JStr (strip why))]))
  | step_arm db r manual c : may_arm db p r manual c →
      journal_step p db (log db "manual_transfer_armed" (armed_body p r))
  | step_expire db manual r body : manual_transfer_history db p = Ok manual →
      last manual = Some r → last_operation db = after_operation r →
      as_str (lookup_key "request_id" (JObj body)) = Some (request_id r) →
      is_ok (manual_transfer_history (log db "manual_unsigned_expired" body) p) = true →
      journal_step p db (log db "manual_unsigned_expired" body)
  | step_earn db row : earning_at (e_block row) db = None → 0 < e_amount row < 2 ^ 63 →
      start_block p <= e_block row →
      journal_step p db (with_earnings db (earnings db ++ [row]))
  | step_cursor db b : start_block p <= b + 1 → journal_step p db (with_cursor db b)
  | step_complete db f : (∀ e, e_block (f e) = e_block e ∧ e_amount (f e) = e_amount e) →
      journal_step p db (with_earnings db (map f (earnings db)))
  | step_settle db o st s : pending_operation db = Some o →
      st ∈ ["finalized"; "failed"; "expired"] → st = status s →
      journal_step p db (update_operation (op_id o) (set_settlement st s) db)
  | step_progress db o b : pending_operation db = Some o →
      journal_step p db (update_operation (op_id o) (set_reconciled b) db)
  | step_transfer db o manual existing draws body :
      transfer_reservation db p o manual existing draws →
      journal_step p db (add_operation db o body)
  | step_register db o body : pin db = Some (digest p, "registration") →
      pending_operation db = None → op_role o = "registration" → op_state o = "dispatching" →
      op_amount o = max_registration_burn_rao p + max_fee_rao p →
      sum_Z (op_amount <$> operations db) + op_amount o <= registration_budget_rao p →
      op_id o = last_operation db + 1 → reserved_row p o →
      op_bucket o = None ∧ op_destination o = None ∧ op_source_block o = None →
      journal_step p db (add_operation db o body).

Definition steps (p : CollectorPolicy) : CollectorDb → CollectorDb → Prop := rtc (journal_step p).

(** * Every call is a sequence of steps *)

Lemma steps_one p db db' : journal_step p db db' → steps p db db'.
Proof. apply rtc_once. Qed.

Lemma steps_note p db name body : name ∉ interpreted → steps p db (log db name body).
Proof. intros H. by apply steps_one, step_note. Qed.

Lemma transaction_fst {A} db (body : result (CollectorDb * A)) P :
  P db → (∀ db' a, body = Ok (db', a) → P db') → P (transaction db body).1.
Proof. intros H1 H2. destruct body as [[db' a]|]; cbn; eauto. Qed.

Lemma record_earning_steps p db b earned db' : _record_earning db p b earned = Ok db' →
  start_block p <= b → steps p db db'.
Proof.
  unfold _record_earning. destruct (earning_at b db) as [e|] eqn:E; intros H Hb.
  { inv_ok H. constructor. }
  destruct earned as [e|]; [|injection H as <-; constructor].
  apply bind_Ok in H as (? & Hp%require_Ok & H). apply bind_Ok in H as (? & _ & [= <-]).
  unfold positive_bounded in Hp. to_prop.
  match goal with |- steps p db (log ?d _ _) => transitivity d end.
  - by apply steps_one, step_earn.
  - apply steps_note. not_interpreted.
Qed.

Lemma z_range_ge first last b : b ∈ z_range first last → first <= b.
Proof. unfold z_range. intros (i & -> & _)%list_elem_of_fmap. lia. Qed.

Lemma scan_steps (CC : CollectorChain) p db n m db' :
  _scan_finalized_earnings db p n m = Ok db' → start_block p <= cursor db + 1 → steps p db db'.
Proof.
  unfold _scan_finalized_earnings. intros H Hc.
  assert (Forall (λ b, start_block p <= b) (z_range (cursor db + 1) (Z.min n (cursor db + m)))) as Hge.
  { apply Forall_forall. intros b Hb%z_range_ge. lia. }
  clear Hc. revert Hge H. generalize (z_range (cursor db + 1) (Z.min n (cursor db + m))).
  intros l. revert db. induction l as [|b l IH]; intros db Hge; cbn [fold_result].
  { intros [= <-]. constructor. }
  apply Forall_cons in Hge as [Hb Hge]. unfold scan_block at 1.
  intros (db1 & (e & _ & (db2 & H2 & [= <-])%bind_Ok)%bind_Ok & H)%bind_Ok.
  apply record_earning_steps in H2; [|done].
  etrans; [exact H2|]. etrans; [apply steps_one, (step_cursor p _ b); lia|]. by apply IH.
Qed.

(** [transfer_canary], by what it found. *)
Lemma transfer_canary_Ok p db role req db' c : transfer_canary db p role req = Ok (db', c) →
  ∃ ex, existing_canary db p = Ok ex ∧
  ((ex = None ∧ req = None ∧ db' = db ∧ c = None) ∨
   ∃ c0 manual, role = "transfer" ∧ max_alpha_rao c0 <= max_distribution_rao p ∧
     manual_transfer_history db' p = Ok manual ∧ claims_bounded db' c0 manual = true ∧
     c = Some (in_force c0 manual) ∧
     ((ex = Some c0 ∧ db' = db ∧ (∀ c1, req = Some c1 → c1 = c0)) ∨
      (ex = None ∧ req = Some c0 ∧ last_operation db = canary_after_operation c0 ∧
       pending_operation db = None ∧
       db' = log db "transfer_canary_armed" (("policy", JStr (digest p)) :: canary_dict c0)))).
Proof.
  unfold transfer_canary. intros (ex & Hex & H)%bind_Ok. exists ex. split; [done|].
  apply bind_Ok in H as (? & Hreq%require_Ok & H).
  destruct (match ex with Some e => Some e | None => req end) as [c0|] eqn:Hc0.
  2: { left. destruct ex; [discriminate|]. subst req. by injection H as <- <-. }
  right. apply bind_Ok in H as (? & Hg%require_Ok & H). to_prop.
  apply bind_Ok in H as (db1 & Hdb & H). apply bind_Ok in H as (manual & Hm & H).
  apply bind_Ok in H as (? & Hb%require_Ok & H).
  assert (db' = db1 ∧ c = Some (in_force c0 manual)) as [-> ->].
  { unfold in_force. destruct (last manual); [apply bind_Ok in H as (? & _ & [= <- <-])|
      injection H as <- <-]; done. }
  exists c0, manual. split_and!; try done.
  destruct ex as [e|].
  - left. injection Hc0 as ->. injection Hdb as <-. split_and!; try done.
    intros c1 ->. by to_prop.
  - right. subst req. apply bind_Ok in Hdb as (? & Hq%require_Ok & [= <-]). to_prop.
    split_and!; try done. unfold pending_operation.
    match goal with E : existsb _ _ = false |- _ => revert E end. clear.
    induction (operations db) as [|o l IH]; [done|]. cbn. intros [-> ?]%orb_false_iff. auto.
Qed.

(** The reading right after an arming. *)
Lemma canary_replacement_log p db name body :
  String.eqb name "transfer_canary_replaced" = false →
  String.eqb name "offline_approved_runtime_migration" = false →
  canary_replacement (log db name body) p = canary_replacement db p.
Proof.
  intros H1 H2. unfold canary_replacement, historical_policy_matches, historical_policy_limits.
  by rewrite !events_named_other.
Qed.

Lemma decode_canary_dict c l : check_canary c = Ok tt →
  decode_canary (JObj (("policy", l) :: canary_dict c)) = Ok c.
Proof.
  destruct c as [m a]. intros H.
  change (decode_canary _) with
    (check_canary {| max_alpha_rao := m; canary_after_operation := a |};;
     Ok {| max_alpha_rao := m; canary_after_operation := a |}).
  by rewrite H.
Qed.

Lemma existing_canary_None p db : existing_canary db p = Ok None →
  events_named "transfer_canary_armed" db = [] ∧ canary_replacement db p = Ok None.
Proof.
  unfold existing_canary. destruct (events_named _ db) as [|e [|]]; [|intros H|discriminate].
  - intros ([r|] & Hr & H)%bind_Ok; [discriminate|done].
  - do 6 (apply bind_Ok in H as (? & _ & H)).
    match type of H with match ?x with _ => _ end = _ => destruct x end; [|discriminate].
    by apply bind_Ok in H as (? & _ & H).
Qed.

Lemma existing_after_arming p db c : existing_canary db p = Ok None → check_canary c = Ok tt →
  existing_canary (log db "transfer_canary_armed" (("policy", JStr (digest p)) :: canary_dict c)) p
    = Ok (Some c).
Proof.
  intros [H1 H2]%existing_canary_None Hc. unfold existing_canary.
  rewrite events_named_log, H1. cbn [app String.eqb Ascii.eqb Bool.eqb].
  rewrite require_true by (vm_compute; reflexivity). cbn [mbind result_bind payload].
  cbn [member dict_get]. rewrite decide_True by done. cbn [mbind result_bind as_str default].
  unfold historical_policy_matches at 1. rewrite String.eqb_refl. cbn [mbind result_bind].
  rewrite require_true by done. cbn [mbind result_bind]. rewrite decode_canary_dict by done.
  cbn [mbind result_bind]. by rewrite canary_replacement_log, H2.
Qed.

Lemma history_log p db name body :
  name ∉ interpreted ∨ name = "transfer_canary_armed" ∨ name = "transfer_canary_replaced" →
  manual_transfer_history (log db name body) p = manual_transfer_history db p.
Proof.
  intros H.
  assert (∀ n, n ∈ ["manual_transfer_armed"; "manual_unsigned_expired"; "dispatch_reserved";
    "offline_approved_runtime_migration"] → events_named n (log db name body) = events_named n db) as E.
  { intros n Hn. apply events_named_other, String.eqb_neq. unfold interpreted in H.
    set_unfold. naive_solver. }
  unfold manual_transfer_history, historical_policy_limits.
  rewrite !(E "manual_transfer_armed"), (E "manual_unsigned_expired"),
    (E "offline_approved_runtime_migration") by set_solver.
  assert (∀ st l limits, fold_result (history_step (log db name body) p limits) st l =
                         fold_result (history_step db p limits) st l) as Hf.
  { intros st l limits. revert st. induction l as [|e l IH]; intros st; cbn [fold_result]; [done|].
    assert (history_step (log db name body) p limits st e = history_step db p limits st e) as ->.
    { unfold history_step, closure_matches, reserved_between. by rewrite (E "dispatch_reserved") by set_solver. }
    destruct (history_step db p limits st e); [apply IH|done]. }
  assert (∀ l, check_claims (log db name body) p l = check_claims db p l) as Hc.
  { induction l as [|r l IH]; [done|]. cbn [check_claims]. by rewrite IH. }
  repeat match goal with
  | |- (?m ≫= _) = (?m ≫= _) => destruct m; cbn [mbind result_bind]; [|done]
  | |- context [fold_result (history_step (log db name body) p ?l)] => rewrite Hf
  end.
  by rewrite Hc.
Qed.

(** ** Intents of the history are valid *)

Lemma decode_manual_check body r : decode_manual body = Ok r → check_manual r = Ok tt.
Proof.
  unfold decode_manual. intros H. do 9 (apply bind_Ok in H as (? & _ & H)).
  apply bind_Ok in H as ([] & Hc & [= <-]). exact Hc.
Qed.

Lemma check_manual_positive r : check_manual r = Ok tt →
  0 < amount_rao r ∧ 0 < after_operation r ∧
  ∀ b, batch r = Some b → batch_request_valid r (sources b) = true.
Proof.
  unfold check_manual. intros H. apply bind_Ok in H as (? & _ & H).
  apply bind_Ok in H as (? & Hi%require_Ok & H). do 2 (apply bind_Ok in H as (? & _ & H)).
  unfold request_integers, positive_bounded in Hi. cbn [forallb] in Hi. to_prop.
  split_and!; [done|done|]. intros b Hb. rewrite Hb in H. by apply require_Ok in H.
Qed.

Lemma manual_valid db p manual r : manual_transfer_history db p = Ok manual → r ∈ manual →
  check_manual r = Ok tt.
Proof.
  intros (rs & Hd & _ & _ & -> & _)%manual_history_Ok [_ Hr]%list_elem_of_filter.
  apply list_elem_of_lookup in Hr as [i Hi]. eapply Forall2_lookup_r in Hd as (e & _ & He); [|exact Hi].
  by eapply decode_manual_check.
Qed.

Lemma last_in {A} (l : list A) x : last l = Some x → x ∈ l.
Proof. intros (l' & ->)%last_Some. apply elem_of_app. right. left. Qed.

Lemma increasing_NoDup l : increasing l = true → NoDup l.
Proof.
  intros H. assert (StronglySorted Z.lt l) as Hs.
  { apply Sorted_StronglySorted; [intros ? ? ?; lia|].
    induction l as [|x [|y l] IH]; [constructor|by repeat constructor|].
    cbn [increasing] in H. to_prop. constructor; [by apply IH|by constructor]. }
  clear H. induction Hs as [|x l Hs IH Hf]; constructor; [|done].
  intros Hin. eapply Forall_forall in Hf; [|exact Hin]. cbn in Hf. lia.
Qed.

Lemma batch_pairs r b : batch r = Some b → batch_request_valid r (sources b) = true →
  NoDup (claim_pairs r).*1 ∧ sum_Z (claim_pairs r).*2 = amount_rao r ∧
  Forall (λ c, 0 < claim_amount c) (sources b).
Proof.
  intros Hb. unfold batch_request_valid, claim_pairs. rewrite Hb. intros H. to_prop.
  rewrite <- !list_fmap_compose. split_and!.
  - by apply increasing_NoDup.
  - done.
  - apply Forall_forall. intros c Hc.
    match goal with E : forallb (λ s, _) _ = true |- _ => rename E into Hf end.
    rewrite forallb_forall in Hf. specialize (Hf c (proj1 (list_elem_of_In _ _) Hc)).
    unfold wire_positive in Hf. by to_prop.
Qed.

(** ** Draws *)

Lemma find_filter_elem {A} (f : A → bool) (P : A → Prop) `{!∀ x, Decision (P x)} l x :
  find f (filter P l) = Some x → x ∈ l ∧ P x ∧ f x = true.
Proof. intros [Hi Hf]%find_some. apply list_elem_of_In, list_elem_of_filter in Hi. tauto. Qed.

Lemma remaining_drawn db p row parts replacement ops rem d a :
  row ∈ earnings db →
  plan_service_distribution (e_amount row) (e_amount row) (collector_coldkey p) (destinations p)
    = Ok parts →
  canary_replacement db p = Ok replacement →
  source_operations db (e_block row) (excluded_operation replacement) = Ok ops →
  remaining_distribution parts ops = Ok rem → d ∈ rem → 0 < a <= alpha_rao d →
  drawn db p (dist_bucket_id d) (dist_holding_coldkey d) (e_block row, a).
Proof. intros. exists row, parts, replacement, ops, rem, d. done. Qed.

Section chain.
Context {CC : CollectorChain}.

Lemma validate_claim_drawn db p observed k dest c :
  validate_claim db p observed k dest c = Ok tt → 0 < claim_amount c →
  drawn db p k dest (claim_block c, claim_amount c).
Proof.
  unfold validate_claim. intros (? & _ & H)%bind_Ok Hpos.
  destruct (find _ _) as [row|] eqn:E; [|discriminate].
  apply find_filter_elem in E as (Hrow & Hb & _). to_prop.
  apply bind_Ok in H as (? & _ & H). apply bind_Ok in H as (? & _ & H).
  apply bind_Ok in H as (rem & Hrem & H). apply require_Ok in H.
  apply existsb_exists in H as (d & Hd%list_elem_of_In & H). to_prop.
  unfold remaining_source in Hrem. apply bind_Ok in Hrem as (? & _ & Hrem).
  apply bind_Ok in Hrem as (parts & Hparts & Hrem). apply bind_Ok in Hrem as (r & Hr & Hrem).
  apply bind_Ok in Hrem as (ops & Hops & Hrem). subst k dest. rewrite <- Hb.
  by eapply remaining_drawn.
Qed.

Lemma validate_batch_Ok db p r b observed dest : validate_batch db p r b observed = Ok dest →
  batch r = Some b → NoDup (claim_pairs r).*1 ∧ sum_Z (claim_pairs r).*2 = amount_rao r ∧
  Forall (drawn db p (request_bucket r) dest) (claim_pairs r) ∧
  Forall (λ c, start_block p <= claim_block c) (sources b) ∧
  (∃ d, d ∈ destinations p ∧ bucket_id d = request_bucket r ∧ holding_coldkey d = dest).
Proof.
  unfold validate_batch. intros (? & Hv%require_Ok & H)%bind_Ok Hb.
  do 5 (apply bind_Ok in H as (? & _ & H)).
  destruct (holding_coldkey <$> _) as [|d0 [|]] eqn:Ed; [discriminate| |discriminate].
  apply bind_Ok in H as (? & Hf & [= <-]).
  destruct (batch_pairs r b Hb Hv) as (H1 & H2 & H3). split_and!; [done|done| | |].
  - unfold claim_pairs. rewrite Hb. clear H1 H2 Hv. revert H3 Hf. generalize (sources b).
    induction l as [|c l IH]; intros H3; [constructor|]. apply Forall_cons in H3 as [Hc H3].
    cbn [fold_result]. intros ([] & Hc' & Hf)%bind_Ok. csimpl. constructor; [|by apply IH].
    by eapply validate_claim_drawn.
  - clear H1 H2 H3 Hv. revert Hf. generalize (sources b).
    induction l as [|c l IH]; [constructor|]. cbn [fold_result].
    intros ([] & Hc' & Hf)%bind_Ok. constructor; [|by apply IH].
    unfold validate_claim in Hc'. apply bind_Ok in Hc' as (? & Hg%require_Ok & _). by to_prop.
  - assert (d0 ∈ [d0]) as Hd by left. rewrite <- Ed in Hd.
    apply list_elem_of_fmap in Hd as (d & -> & [Hd1 Hd2]%list_elem_of_filter). to_prop. by exists d.
Qed.

(** ** Readings do not see uninterpreted events *)

Lemma note_named db name body n : name ∉ interpreted → n ∈ interpreted →
  events_named n (log db name body) = events_named n db.
Proof. intros H Hn. apply events_named_other, String.eqb_neq. by intros ->. Qed.

Lemma replacement_note p db name body : name ∉ interpreted →
  canary_replacement (log db name body) p = canary_replacement db p.
Proof.
  intros H. apply canary_replacement_log; apply String.eqb_neq; intros ->; apply H; is_interpreted.
Qed.

Lemma existing_note p db name body : name ∉ interpreted →
  existing_canary (log db name body) p = existing_canary db p.
Proof.
  intros H. unfold existing_canary, historical_policy_matches, historical_policy_limits.
  rewrite !(note_named db name body) by (done || is_interpreted). by rewrite replacement_note.
Qed.

Lemma claims_log db name body :
  name ≠ "manual_transfer_armed" → name ≠ "manual_unsigned_expired" →
  aggregate_claims (log db name body) = aggregate_claims db.
Proof.
  intros H1 H2. unfold aggregate_claims, unexpired. by rewrite !events_named_other by by apply String.eqb_neq.
Qed.

Lemma claims_note db name body : name ∉ interpreted →
  aggregate_claims (log db name body) = aggregate_claims db.
Proof. intros H. apply claims_log; intros ->; apply H; is_interpreted. Qed.

Lemma drawn_note p db name body k dest ba : name ∉ interpreted →
  drawn db p k dest ba → drawn (log db name body) p k dest ba.
Proof.
  intros Hn (row & parts & r & ops & rem & d & H1 & H2 & H3 & H4 & H5 & H6).
  exists row, parts, r, ops, rem, d. rewrite replacement_note by done.
  unfold source_operations. by rewrite claims_note.
Qed.

(** ** The legs of a tick *)

(** What a prepared transfer leg takes, and the tables it leaves. *)
Definition leg_facts (db : CollectorDb) (p : CollectorPolicy) (manual : list ManualTransfer)
    (canary : option TransferCanary) (db' : CollectorDb) (leg : Leg) (draws : list (Z * Z)) : Prop :=
  (db' = db ∨ ∃ name body, name ∉ interpreted ∧ db' = log db name body) ∧
  (∃ k dest, leg_bucket leg = Some k ∧
     (leg_destination leg = Some dest ∧ leg_call leg = transfer_call p dest (leg_amount leg)) ∧
     Forall (drawn db p k dest) draws ∧
     match last manual with
     | Some r => leg_amount leg = amount_rao r ∧ leg_source leg = Some (source_block r) ∧
                 k = request_bucket r ∧ draws = claim_pairs r
     | None => (∃ b, leg_source leg = Some b ∧ draws = [(b, leg_amount leg)]) ∧
               ∀ c, canary = Some c → leg_amount leg <= max_alpha_rao c
     end) ∧
  NoDup draws.*1 ∧ sum_Z draws.*2 = leg_amount leg.

Definition step_facts (db : CollectorDb) (p : CollectorPolicy) (manual : list ManualTransfer)
    (canary : option TransferCanary) (s : Step) : Prop :=
  match s.2 with
  | inl _ => steps p db s.1
  | inr leg => ∃ draws, leg_facts db p manual canary s.1 leg draws
  end.

Lemma selected_receipt_elem db p observed intent repl row :
  selected_receipt db p observed intent repl = Ok (Some row) →
  row ∈ earnings db ∧ ∀ r, intent = Some r → e_block row = source_block r.
Proof.
  unfold selected_receipt, next_receipt. destruct intent as [r|]; cbn.
  - destruct (find _ _) as [e|] eqn:E; [|discriminate]. intros [= <-].
    apply find_filter_elem in E as (? & ? & _). to_prop. split; [done|]. by intros ? [= <-].
  - destruct repl as [q|]; cbn.
    + destruct (find _ _) as [e|] eqn:E; [|discriminate]. intros [= <-].
      by apply find_filter_elem in E as (? & _).
    + intros [= H]. split; [|done]. apply head_Some in H as (l & H).
      assert (row ∈ row :: l) as Hin by left. rewrite <- H in Hin.
      by apply elem_of_py_sorted, list_elem_of_filter in Hin as [_ ?].
Qed.

Lemma receipt_leg_Ok db p row manual canary repl observed s :
  receipt_leg db p row (last manual) canary repl observed = Ok s →
  row ∈ earnings db → canary_replacement db p = Ok repl →
  (∀ c, canary = Some c → 0 < max_alpha_rao c) →
  (∀ r, last manual = Some r → 0 < amount_rao r ∧ batch r = None ∧ e_block row = source_block r) →
  step_facts db p manual canary s.
Proof.
  intros H Hrow Hrepl Hpos Hint. unfold receipt_leg in H.
  apply bind_Ok in H as (? & _ & H). apply bind_Ok in H as (parts & Hparts & H).
  apply bind_Ok in H as (ops & Hops & H). apply bind_Ok in H as (rem & Hrem & H).
  apply bind_Ok in H as (? & _ & H). apply bind_Ok in H as (? & Hamt%require_Ok & H).
  destruct (find _ rem) as [d|] eqn:Hd.
  2: { injection H as <-. unfold step_facts. cbn [fst snd].
       match goal with |- steps p db (log ?d _ _) => transitivity d end.
       - apply steps_one, step_complete. intros e. by destruct (e_block e =? e_block row).
       - apply steps_note. not_interpreted. }
  apply bind_Ok in H as (? & _ & H). injection H as <-. unfold step_facts. cbn [fst snd].
  apply find_some in Hd as [Hd%list_elem_of_In Hk].
  pose proof (plan_parts _ _ _ _ _ Hparts) as (Hnd & _ & Hp & _).
  assert (Forall (λ d, 0 < alpha_rao d) parts) as Hp' by by eapply Forall_impl; [exact Hp|]; intros ? [? _].
  pose proof (remaining_elem _ _ _ _ Hnd Hp' Hrem Hd) as (Hdpos & _ & _).
  set (amount := match last manual with Some r => amount_rao r | None => _ end).
  assert (0 < amount <= alpha_rao d) as Ha.
  { unfold amount. destruct (last manual) as [r|] eqn:El.
    - to_prop. destruct (Hint r eq_refl) as (? & _). lia.
    - destruct canary as [c|]; [specialize (Hpos c eq_refl)|]; lia. }
  exists [(e_block row, amount)]. unfold leg_facts. cbn. split; [|split; [|split]].
  - destruct canary; [right|by left]. do 2 eexists. split; [|done]. not_interpreted.
  - exists (dist_bucket_id d), (dist_holding_coldkey d). split_and!; [done|done|done| |].
    + constructor; [|constructor]. by eapply remaining_drawn.
    + destruct (last manual) as [r|] eqn:El.
      * destruct (Hint r eq_refl) as (_ & Hb & Hs). to_prop. rewrite Hs. unfold claim_pairs.
        rewrite Hb. done.
      * split; [by eexists|]. intros c ->. unfold amount. lia.
  - apply NoDup_singleton.
  - lia.
Qed.

Lemma transfer_leg_Ok db p manual canary req observed s :
  transfer_leg db p manual canary req observed = Ok s →
  manual_transfer_history db p = Ok manual →
  (∀ c, canary = Some c → 0 < max_alpha_rao c) → start_block p <= cursor db + 1 →
  step_facts db p manual canary s.
Proof.
  unfold transfer_leg. intros (? & _ & H)%bind_Ok Hm Hpos Hcur.
  assert (∀ r, last manual = Some r → 0 < amount_rao r) as Hval.
  { intros r Hr. apply last_in in Hr. eapply manual_valid, check_manual_positive in Hm; [|exact Hr]. lia. }
  destruct (last manual ≫= batch) as [b|] eqn:Eb.
  - apply bind_Some in Eb as (r & Hr & Hb). rewrite Hr in H. cbv zeta in H.
    change (Some r ≫= batch) with (batch r) in H. rewrite Hb in H. unfold batch_leg, stop in H.
    case_bool_decide; [injection H as <-; constructor|].
    destruct (_ <? _); [injection H as <-; constructor|].
    apply bind_Ok in H as (dest & Hdest & H). apply bind_Ok in H as (obs & _ & H).
    apply bind_Ok in H as (? & _ & H). destruct (_ <? _); [injection H as <-; constructor|].
    apply bind_Ok in H as (? & _ & [= <-]).
    eapply validate_batch_Ok in Hdest as (H1 & H2 & H3 & _); [|exact Hb].
    exists (claim_pairs r). unfold leg_facts. cbn [fst snd]. rewrite Hr.
    split; [by left|]. split; [|done]. exists (request_bucket r), dest. done.
  - assert (single_leg db p (last manual) canary req observed = Ok s) as H'.
    { revert H Eb. cbv zeta. destruct (last manual) as [r|]; [|done].
      change (Some r ≫= batch) with (batch r). intros H E. by rewrite ?E in H. }
    clear H. unfold single_leg, stop in H'. apply bind_Ok in H' as (repl & Hrepl & H).
    destruct (match last manual with Some _ => _ | None => _ end); [injection H as <-; constructor|].
    destruct (match last manual with Some r => _ | None => _ end); [injection H as <-; constructor|].
    apply bind_Ok in H as ([row|] & Hrow & H).
    + apply selected_receipt_elem in Hrow as [Hrow Hsrc].
      destruct (match max_at_block _ with Some _ => _ | None => _ end); [injection H as <-; constructor|].
      eapply receipt_leg_Ok; [exact H|done..|]. intros r Hr. rewrite Hr in Eb. cbn in Eb. auto.
    + apply bind_Ok in H as (db1 & Hs & [= <-]). by eapply scan_steps.
Qed.

(** ** The tick *)

Lemma reserve_Ok db p role manual leg db' v : reserve db p role manual leg = Ok (db', v) →
  ∃ signed body, db' = add_operation db (new_operation db p role leg signed) body ∧
    v = Broadcast (encoded signed) ∧
    (call_of p (new_operation db p role leg signed) → reserved_row p (new_operation db p role leg signed)).
Proof.
  unfold reserve. intros (? & _ & H)%bind_Ok. apply bind_Ok in H as (signed & _ & H).
  apply bind_Ok in H as (? & Hfee%require_Ok & H). apply bind_Ok in H as (? & Hmort%require_Ok & H).
  apply bind_Ok in H as (? & [_ Ha]%sql_int_Ok & H).
  apply bind_Ok in H as (? & [_ Hb]%sql_int_Ok & H).
  injection H as <- <-. to_prop. eexists _, _. split_and!; [done|done|]. intros Hcall.
  split; cbn in *; unfold stored_int; split_and?; done || lia.
Qed.

(** The canary [transfer_canary] returns is the one its tables hold. *)
Lemma transfer_canary_existing p db role req db' c : transfer_canary db p role req = Ok (db', c) →
  (∀ c, req = Some c → check_canary c = Ok tt) →
  steps p db db' ∧ operations db' = operations db ∧ pin db' = pin db ∧ cursor db' = cursor db ∧
  ((existing_canary db' p = Ok None ∧ c = None ∧ db' = db) ∨
   ∃ c0 manual, existing_canary db' p = Ok (Some c0) ∧ manual_transfer_history db' p = Ok manual ∧
     c = Some (in_force c0 manual) ∧ role = "transfer").
Proof.
  intros H Hreq.
  apply transfer_canary_Ok in H as (ex & Hex & [(-> & -> & -> & ->)|(c0 & manual & Hrole & Hmax & Hm & _ & -> & Hc)]).
  { split; [constructor|]. split_and!; try done. by left. }
  destruct Hc as [(-> & -> & _)|(-> & Hq & Hl & Hp & ->)].
  - split; [constructor|]. split_and!; try done. right. by exists c0, manual.
  - specialize (Hreq c0 Hq). split; [by apply steps_one, step_canary|].
    split_and!; try done. right. exists c0, manual. by rewrite existing_after_arming.
Qed.

Lemma existing_positive p db c : existing_canary db p = Ok (Some c) → 0 < max_alpha_rao c.
Proof.
  assert (∀ c, check_canary c = Ok tt → 0 < max_alpha_rao c) as Hc.
  { intros x H. unfold check_canary, positive_bounded in H. apply require_Ok in H. by to_prop. }
  assert (∀ b x, decode_canary b = Ok x → 0 < max_alpha_rao x) as Hd.
  { intros b x H. unfold decode_canary in H. do 2 (apply bind_Ok in H as ([] & _ & H); try discriminate).
    apply bind_Ok in H as ([] & H & [= <-]). by apply Hc. }
  unfold existing_canary. destruct (events_named _ db) as [|e [|]]; [| |discriminate].
  - intros ([r|] & _ & H)%bind_Ok; discriminate.
  - intros H. do 4 (apply bind_Ok in H as (? & _ & H)). apply bind_Ok in H as (c1 & H1 & H).
    apply bind_Ok in H as ([r|] & Hr & H).
    + apply bind_Ok in H as (? & _ & [= <-]). unfold canary_replacement in Hr.
      destruct (events_named _ db) as [|e' [|]]; [discriminate| |discriminate].
      do 4 (apply bind_Ok in Hr as (? & _ & Hr)).
      destruct (as_int _); [|discriminate]. destruct (as_str _); [|discriminate].
      apply bind_Ok in Hr as (? & _ & Hr). apply bind_Ok in Hr as (cc & Hcc & [= <-]).
      by apply Hd in Hcc.
    + injection H as <-. by eapply Hd.
Qed.

Lemma in_force_positive p db c manual : existing_canary db p = Ok (Some c) →
  manual_transfer_history db p = Ok manual → 0 < max_alpha_rao (in_force c manual).
Proof.
  intros Hc Hm. unfold in_force. destruct (last manual) as [r|] eqn:Hr; cbn.
  - apply last_in in Hr. eapply manual_valid, check_manual_positive in Hm; [|exact Hr]. tauto.
  - by eapply existing_positive.
Qed.

Lemma settle_steps p db o observed db' s : settle db o observed = Ok (db', s) →
  pending_operation db = Some o → steps p db db'.
Proof.
  unfold settle. intros (s0 & _ & H)%bind_Ok Hp. apply bind_Ok in H as (? & Hst%require_Ok & H).
  apply bool_decide_eq_true in Hst. destruct (String.eqb_spec (status s0) "pending") as [Es|Es].
  - destruct (scanned_through s0) as [b|]; [|injection H as <- _; constructor].
    do 2 (apply bind_Ok in H as (? & _ & H)). injection H as <- _.
    by apply steps_one, step_progress.
  - transitivity (update_operation (op_id o) (set_settlement (status s0) s0) db).
    { apply steps_one, step_settle; [done|set_solver|done]. }
    destruct (_ && _).
    + apply bind_Ok in H as (? & _ & [= <- _]).
      match goal with |- steps p _ (log ?d _ _) => transitivity d end;
        apply steps_note; not_interpreted.
    + injection H as <- _. apply steps_note. not_interpreted.
Qed.

Lemma registration_leg_Ok p db observed s : registration_leg db p observed = Ok s →
  s.1 = db ∧ ∀ leg, s.2 = inr leg → leg_amount leg = max_registration_burn_rao p ∧
    leg_call leg = registration_call p ∧
    (leg_bucket leg = None ∧ leg_destination leg = None ∧ leg_source leg = None) ∧
    sum_Z (op_amount <$> operations db) + (max_registration_burn_rao p + max_fee_rao p)
      <= registration_budget_rao p.
Proof.
  unfold registration_leg, stop. destruct (uid observed); [intros [= <-]; done|].
  destruct (match max_at_block _ with Some _ => _ | None => _ end); [intros [= <-]; done|].
  intros (spent & ->%sql_sum_Ok & H)%bind_Ok. apply bind_Ok in H as (? & Hb%require_Ok & H).
  apply bind_Ok in H as (? & _ & [= <-]). split; [done|]. intros leg [= <-]. cbn. to_prop.
  split_and!; [done..|lia].
Qed.

Lemma no_pending db : pending_operation db = None →
  Forall (λ o, op_state o ≠ "dispatching") (operations db).
Proof.
  intros H. apply Forall_forall. intros o Ho E.
  eapply find_none in H; [|by apply list_elem_of_In]. apply String.eqb_neq in H. done.
Qed.

Lemma transfer_reservation_leg p db db1 manual existing c leg draws signed :
  pin db = Some (digest p, "transfer") →
  manual_transfer_history db p = Ok manual → existing_canary db p = Ok existing →
  c = (λ c, in_force c manual) <$> existing →
  pending_operation db = None →
  (∀ c0, c = Some c0 → Forall (λ q, op_id q <= canary_after_operation c0) (operations db)) →
  leg_facts db p manual c db1 leg draws →
  (let row := new_operation db1 p "transfer" leg signed in call_of p row → reserved_row p row) →
  transfer_reservation db1 p (new_operation db1 p "transfer" leg signed) manual existing draws.
Proof.
  intros Hpin Hm He Hc Hp Hq (Hdb & (k & dest & Hk & [Hdest Hcall] & Hd & Hreq) & Hnd & Hsum) Hrow.
  assert (operations db1 = operations db) as Hops by (destruct Hdb as [->|(n & b & _ & ->)]; done).
  split.
  - destruct Hdb as [->|(n & b & _ & ->)]; done.
  - unfold pending_operation. by rewrite Hops.
  - destruct Hdb as [->|(n & b & Hn & ->)]; [done|]. rewrite history_log by by left. done.
  - destruct Hdb as [->|(n & b & Hn & ->)]; [done|]. by rewrite existing_note.
  - intros c0 ->. rewrite Hops. by apply Hq.
  - split_and!; [done..|]. apply Hrow. by exists dest.
  - cbn. destruct (last manual) as [r|] eqn:El.
    + destruct Hreq as (-> & -> & -> & ->). done.
    + destruct Hreq as [(b & -> & ->) Hcap]. split; [by eexists|]. intros c0 ->.
      cbn in Hc. specialize (Hcap _ Hc). unfold in_force in Hcap. by rewrite El in Hcap.
  - cbn. exists k, dest. split_and!; [done|done|].
    destruct Hdb as [->|(n & b & Hn & ->)]; [done|]. eapply Forall_impl; [exact Hd|].
    intros ba. by apply drawn_note.
  - by split.
Qed.

(** The pin and the cursor of a journal in use. *)
Definition pinned (p : CollectorPolicy) (db : CollectorDb) : Prop :=
  (pin db = Some (digest p, "registration") ∨ pin db = Some (digest p, "transfer")) ∧
  start_block p <= cursor db + 1.

Lemma require_pin_Ok db p role msg u : require_pin db p role msg = Ok u → pin db = Some (digest p, role).
Proof.
  unfold require_pin. destruct (pin db); [|discriminate]. intros H%require_Ok. to_prop. by subst.
Qed.

Lemma tick_body_steps p db role req id db' v : tick_body db p role req id = Ok (db', v) →
  pinned p db → (∀ c, req = Some c → check_canary c = Ok tt) → steps p db db'.
Proof.
  unfold tick_body. intros (? & Hpin%require_pin_Ok & H)%bind_Ok Hknown Hreq.
  apply bind_Ok in H as ([db1 c] & Htc & H).
  apply transfer_canary_existing in Htc as (Hs & Hops & Hpin1 & Hcur1 & Hex); [|done].
  etrans; [exact Hs|]. clear Hs. apply bind_Ok in H as (manual & Hm & H).
  apply bind_Ok in H as (? & _ & H).
  destruct (match c with Some _ => _ | None => _ end) eqn:Hspent; [injection H as <- _; constructor|].
  apply bind_Ok in H as (observed & _ & H).
  destruct (pending_operation db1) as [o|] eqn:Hp.
  { apply bind_Ok in H as ([db2 out] & Hset & [= <- _]). by eapply settle_steps. }
  apply bind_Ok in H as ([db2 next] & Hleg & H).
  destruct (String.eqb_spec role "registration") as [->|Hrole].
  - apply registration_leg_Ok in Hleg as [E Hleg]. cbn [fst snd] in E, Hleg. subst db2.
    destruct next as [out|leg]; [injection H as <- _; constructor|].
    apply reserve_Ok in H as (signed & body & -> & _ & Hrow).
    destruct (Hleg leg eq_refl) as (Ha & Hcall & Hbucket & Hb). apply steps_one, step_register; try done.
    + by rewrite Hpin1.
    + cbn. by rewrite Ha.
    + cbn. by rewrite Ha.
    + by apply Hrow.
  - assert (role = "transfer") as -> by (destruct Hknown as [[] _]; congruence).
    assert (∃ existing, existing_canary db1 p = Ok existing ∧
      c = (λ c, in_force c manual) <$> existing) as (existing & He & Hc).
    { destruct Hex as [(He & -> & _)|(c0 & m & He & Hm' & -> & _)]; [by exists None|].
      exists (Some c0). rewrite Hm in Hm'. by injection Hm' as <-. }
    assert (∀ c0, c = Some c0 → 0 < max_alpha_rao c0) as Hpos.
    { intros c0 ->. destruct existing as [e|]; [|discriminate]. injection Hc as ->.
      by eapply in_force_positive. }
    eapply transfer_leg_Ok in Hleg as Hf; [|exact Hm|exact Hpos|].
    2: { rewrite Hcur1. apply Hknown. }
    unfold step_facts in Hf. cbn [fst snd] in Hf.
    destruct next as [out|leg]; [injection H as <- _; done|].
    destruct Hf as (draws & Hf). apply reserve_Ok in H as (signed & body & -> & _ & Hrow).
    etrans; [|apply steps_one; eapply step_transfer;
      apply (transfer_reservation_leg p db1 db2 manual existing c leg draws signed); try done].
    + destruct Hf as ([->|(n & b & Hn & ->)] & _); [constructor|]. by apply steps_note.
    + by rewrite Hpin1.
    + intros c0 ->. apply Forall_forall. intros q Hq. apply no_pending in Hp.
      eapply Forall_forall in Hp; [|exact Hq]. cbn in Hspent, Hp.
      rewrite <- not_true_iff_false, existsb_exists in Hspent.
      destruct (Z.le_gt_cases (op_id q) (canary_after_operation c0)) as [|Hgt]; [done|].
      destruct Hspent. exists q. split; [by apply list_elem_of_In|].
      apply andb_true_iff. split; [by apply Z.ltb_lt|]. by apply negb_true_iff, String.eqb_neq.
Qed.

(** ** The other calls *)

Lemma transfer_canary_plain p db role db' c : transfer_canary db p role None = Ok (db', c) →
  db' = db ∧ (c = None ∨ ∃ c0 manual, existing_canary db p = Ok (Some c0) ∧
    manual_transfer_history db p = Ok manual ∧ c = Some (in_force c0 manual)).
Proof.
  intros (ex & Hex & [(-> & _ & -> & ->)|(c0 & manual & _ & _ & Hm & _ & -> & [(-> & -> & _)|(_ & ? & _)])])%transfer_canary_Ok;
    [by auto| |discriminate].
  split; [done|]. right. by exists c0, manual.
Qed.

Lemma check_single_source_start db p r observed u : check_single_source db p r observed = Ok u →
  start_block p <= source_block r.
Proof. unfold check_single_source. intros (? & H%require_Ok & _)%bind_Ok. by to_prop. Qed.

Lemma expired_ids_existsb db id :
  existsb (for_request id) (events_named "manual_unsigned_expired" db) = false → id ∉ expired_ids db.
Proof.
  intros H. unfold expired_ids. intros (e & He & Hid)%list_elem_of_omap.
  apply not_true_iff_false in H. apply H, existsb_exists. exists e.
  split; [by apply list_elem_of_In|]. by apply bool_decide_eq_true.
Qed.

Lemma arm_body_steps db p r record db' s : arm_body db p r record = Ok (db', s) →
  check_manual r = Ok tt → (∃ m, manual_maximum r p (digest p) = Ok m ∧ amount_rao r <= m) →
  steps p db db'.
Proof.
  unfold arm_body. intros (? & Hexp%require_Ok & H)%bind_Ok Hcheck Hmax.
  apply bind_Ok in H as (? & _ & H). apply bind_Ok in H as (manual & Hm & H).
  destruct (find _ manual) as [q|] eqn:Hfind.
  { apply bind_Ok in H as (? & _ & [= <- _]). constructor. }
  apply bind_Ok in H as ([db1 c] & Htc & H). apply transfer_canary_plain in Htc as [-> Hc].
  destruct c as [c|]; [|discriminate].
  destruct Hc as [|(c0 & m' & He & Hm' & E)]; [discriminate|].
  rewrite Hm in Hm'. injection Hm' as <-. injection E as ->.
  apply bind_Ok in H as (? & Hcur%require_Ok & H). apply bind_Ok in H as (? & Hspent%require_Ok & H).
  apply bind_Ok in H as (observed & Hprior & H). apply bind_Ok in H as (? & _ & H).
  apply bind_Ok in H as (? & Hbucket%require_Ok & H). apply bind_Ok in H as ([] & Hsrc & H).
  destruct record; injection H as <- _; [|constructor]. to_prop.
  apply steps_one, (step_arm p db r manual c0). split; try done.
  - by apply expired_ids_existsb.
  - apply Forall_forall. intros q Hq E. eapply find_none in Hfind; [|by apply list_elem_of_In].
    cbn in Hfind. by apply String.eqb_neq in Hfind.
  - split; [done|done|]. destruct (batch r) as [b|] eqn:Hb.
    + apply bind_Ok in Hsrc as (dest & Hv & _).
      pose proof (check_manual_positive _ Hcheck) as (_ & _ & Hbv). specialize (Hbv b Hb).
      eapply validate_batch_Ok in Hv as (_ & _ & _ & Hs & _); [|exact Hb].
      unfold batch_request_valid in Hbv. to_prop.
      destruct (sources b) as [|claim claims]; [discriminate|]. cbn [map head] in *.
      match goal with E : Some _ = Some _ |- _ => injection E as <- end.
      by apply Forall_cons in Hs as [Hs _].
    + by eapply check_single_source_start.
  - unfold check_prior_claim in Hprior. destruct (operation_by_id _ db) as [o|]; [|discriminate].
    apply bind_Ok in Hprior as (? & Hst%require_Ok & _). to_prop. by exists o.
Qed.

Lemma expire_body_steps db p id why db' proof : expire_body db p id why = Ok (db', proof) → steps p db db'.
Proof.
  unfold expire_body. intros (? & _ & H)%bind_Ok. apply bind_Ok in H as (manual & Hm & H).
  assert (manual_transfer_history db p = Ok manual) as Hm'.
  { destruct (manual_transfer_history db p) as [|[]]; congruence. }
  destruct (last manual) as [r|] eqn:Hr; [|discriminate].
  apply bind_Ok in H as (? & Hid%require_Ok & H).
  destruct (find _ _) as [armed|]; [|discriminate].
  do 4 (apply bind_Ok in H as (? & ? & H)). apply bind_Ok in H as (? & Hh & [= <- _]).
  repeat match goal with E : require _ _ = Ok _ |- _ => apply require_Ok in E end. to_prop.
  apply steps_one, (step_expire p db manual r); try done; [by subst id|].
  by rewrite Hh.
Qed.

Lemma replace_body_steps db p c why db' u : replace_body db p c why = Ok (db', u) →
  check_canary c = Ok tt → bounded_reason why = true → steps p db db'.
Proof.
  unfold replace_body. intros (? & _ & H)%bind_Ok Hc Hwhy.
  apply bind_Ok in H as (repl & Hrepl & H). apply bind_Ok in H as (? & Hnone%require_Ok & H).
  destruct repl; [discriminate|].
  apply bind_Ok in H as ([db1 c1] & Htc & H). apply transfer_canary_plain in Htc as [-> Hex].
  apply bind_Ok in H as (? & Hg%require_Ok & H).
  destruct c1 as [c1|]; [|discriminate].
  destruct Hex as [|(c0 & manual & He & Hm & E)]; [discriminate|]. injection E as ->.
  destruct (operation_by_id _ db) as [o|] eqn:Ho; [|discriminate].
  apply bind_Ok in H as (? & Hst%require_Ok & H). apply bind_Ok in H as (proof & _ & H).
  destruct (op_settlement o) as [saved|] eqn:Hs; [|discriminate].
  apply bind_Ok in H as (? & Hproof%require_Ok & H).
  destruct (op_source_block o ≫= _) as [row|] eqn:Hrow; [|discriminate].
  apply bind_Some in Hrow as (b & Hb & Hrow). apply find_some in Hrow as [Hin%list_elem_of_In Hrow].
  do 2 (apply bind_Ok in H as (? & _ & H)). apply bind_Ok in H as (? & _ & [= <- _]).
  destruct (extrinsic_index proof) as [i|] eqn:Hi; [|by rewrite andb_false_r in Hproof]. to_prop.
  subst b. apply steps_one, (step_replace p db c0 c o saved proof row); [|done]. split; try done.
  - by exists manual.
  - split_and!; try done. by exists i.
Qed.

Lemma readiness_steps db p : (manual_transfer_readiness db p).1 = db.
Proof.
  unfold manual_transfer_readiness, readiness_body. apply transaction_fst; [done|].
  intros db' a. intros (? & _ & H)%bind_Ok.
  apply bind_Ok in H as ([db1 c] & [-> _]%transfer_canary_plain & H).
  do 4 (apply bind_Ok in H as (? & _ & H)). by injection H as <- _.
Qed.

Lemma observe_earnings_steps db p n : start_block p <= cursor db + 1 →
  steps p db (observe_earnings db p n).1.
Proof.
  intros Hcur. unfold observe_earnings. destruct (negb _); [constructor|]. destruct (negb _); [constructor|].
  apply transaction_fst; [constructor|]. intros db' a (? & _ & H)%bind_Ok.
  apply bind_Ok in H as (? & _ & H). apply bind_Ok in H as (? & Hs & [= <- _]).
  by eapply scan_steps.
Qed.

Lemma observe_source_steps db p b : steps p db (observe_earning_source db p b).1.
Proof.
  unfold observe_earning_source. apply transaction_fst; [constructor|].
  intros db' a (? & _ & H)%bind_Ok. destruct active_approval; [|discriminate].
  do 3 (apply bind_Ok in H as (? & _ & H)). apply bind_Ok in H as (? & Hb%require_Ok & H).
  apply bind_Ok in H as (? & _ & H). apply bind_Ok in H as (db1 & Hr & [= <- _]). to_prop.
  etrans; [by eapply record_earning_steps|]. apply steps_note. not_interpreted.
Qed.

Lemma tick_steps db p role req id : pinned p db → (∀ c, req = Some c → check_canary c = Ok tt) →
  steps p db (tick db p role req id).1.1.
Proof.
  intros Hp Hreq. unfold tick. destruct (negb _); [constructor|].
  destruct (tick_body db p role req id) as [[db' v]|e] eqn:H; cbn; [|constructor].
  apply tick_body_steps in H; [|done..]. by destruct v.
Qed.
End chain.

Lemma is_ok_tt (r : result unit) : is_ok r = true → r = Ok tt.
Proof. by destruct r as [[]|]. Qed.

Lemma run_steps CC p db c : pinned p db → steps p db (run CC p db c).1.
Proof.
  intros Hp. destruct c as [role canary req|r record|id why|c why|n|b| |id d]; cbn [run fst].
  - destruct canary as [c|]; [|by apply tick_steps].
    destruct (is_ok (check_canary c)) eqn:E; [|constructor]. apply tick_steps; [done|].
    intros ? [= <-]. by apply is_ok_tt.
  - destruct (is_ok (check_manual r)) eqn:E; [|constructor]. apply is_ok_tt in E.
    unfold arm_manual_transfer. destruct (_ ≫= _) as [|x] eqn:Hg; [|constructor].
    apply bind_Ok in Hg as (? & _ & Hg). apply bind_Ok in Hg as (m & Hm & Hg%require_Ok).
    apply transaction_fst; [constructor|]. intros db' s H. eapply arm_body_steps; [exact H|done|].
    exists m. by to_prop.
  - unfold expire_unsigned_manual. destruct (negb _); [constructor|].
    apply transaction_fst; [constructor|]. intros. by eapply expire_body_steps.
  - destruct (is_ok (check_canary c)) eqn:E; [|constructor]. apply is_ok_tt in E.
    unfold replace_failed_canary. destruct (negb _) eqn:Hg; [constructor|]. to_prop.
    apply transaction_fst; [constructor|]. intros. by eapply replace_body_steps.
  - apply observe_earnings_steps, Hp.
  - apply observe_source_steps.
  - rewrite readiness_steps. constructor.
  - apply steps_note. not_interpreted.
Qed.

Lemma step_pin p db db' : journal_step p db db' → pin db' = pin db.
Proof. by destruct 1. Qed.

Lemma steps_ind p (P : CollectorDb → Prop) db db' :
  (∀ a b, P a → journal_step p a b → P b) → steps p db db' → P db → P db'.
Proof. intros H. induction 1; eauto. Qed.

Lemma steps_pin p db db' : steps p db db' → pin db' = pin db.
Proof. induction 1 as [|a b c H _ IH]; [done|]. rewrite IH. by eapply step_pin. Qed.

Lemma steps_pinned p db db' : steps p db db' → pinned p db → pinned p db'.
Proof.
  induction 1 as [|a b c H _ IH]; [done|]. intros [Hp Hc]. apply IH.
  split; [by rewrite (step_pin _ _ _ H)|]. by destruct H.
Qed.

(** An invariant of the steps that a fresh journal has holds of every
    reachable journal. *)
Lemma reachable_ind p role (P : CollectorDb → Prop) :
  (∀ db, initial_journal p role = Ok db → P db) →
  (∀ a b, P a → journal_step p a b → P b) →
  ∀ db, reachable p role db → P db ∧ pin db = Some (digest p, role) ∧ pinned p db.
Proof.
  intros Hinit Hstep db (db0 & l & H0 & ->).
  assert (pin db0 = Some (digest p, role) ∧ pinned p db0) as [Hpin Hknown].
  { unfold initial_journal in H0. apply bind_Ok in H0 as (? & Hr%require_Ok & [= <-]).
    unfold pinned. cbn. to_prop. split; [done|]. split; [set_unfold; naive_solver|lia]. }
  apply Hinit in H0. revert db0 H0 Hpin Hknown.
  induction l as [|[CC c] l IH]; intros db0 H0 Hpin Hknown; [done|]. cbn [run_all].
  pose proof (run_steps CC p db0 c Hknown) as Hs.
  assert (pin (run CC p db0 c).1 = pin db0) as E by by eapply steps_pin.
  apply IH; [by eapply steps_ind|by rewrite E|by eapply steps_pinned].
Qed.
End safety.
