(* ===== verification/CollectorSamples.v ===== *)
(** A concrete policy, chain and history of the collector, on which the
    theorems of the collector files are instantiated. *)
From Stdlib Require Import ZArith Lia.
From stdpp Require Import base list strings.
From S2P Require Import Prelude PyText ServiceAllocation CollectorPolicy CollectorJournal Collector CollectorSafety.

#[local] Open Scope string_scope.
#[local] Open Scope list_scope.
#[local] Open Scope Z_scope.

Definition sample_hash : string :=
  "0xabcdefabcdefabcdefabcdefabcdefabcdefabcdefabcdefabcdefabcdefabcd".

Definition sample_sha : Sha256 := λ s, s.
Definition sample_verify : VerifySignature := λ _ _ _, true.
#[local] Existing Instance sample_sha.
#[local] Existing Instance sample_verify.

Definition sample_policy : CollectorPolicy := {|
  genesis_hash := sample_hash; runtime_code_hash := sample_hash;
  collector_coldkey := "cold"; collector_hotkey := "hot";
  registration_delegate := "register"; transfer_delegate := "transfer";
  revision := 1; start_block := 100;
  destinations :=
    [{| bucket_id := "research"; allocation_bps := 3000; holding_coldkey := "wallet_a" |};
     {| bucket_id := "security"; allocation_bps := 1000; holding_coldkey := "wallet_b" |}];
  max_registration_burn_rao := 500; registration_budget_rao := 1200; max_fee_rao := 10;
  fee_reserve_rao := 20; recovery_cooldown_blocks := 5; distribution_interval_blocks := 10;
  max_distribution_rao := 5000; gcp_project := "project";
  registration_service_account := "r@project.iam.gserviceaccount.com";
  transfer_service_account := "t@project.iam.gserviceaccount.com";
  registration_secret_version := 1; transfer_secret_version := 1; enabled := true; netuid := 118 |}.

(** A chain at height [h]: blocks 100 and 101 earned 1000 rao each, and an operation's outcome
    is [outcome]. *)
Definition sample_chain (h : Z) (registered : option Z) (outcome : string) : CollectorChain := {|
  observe := λ _ _, Ok {| block := h; observed_hash := sample_hash; uid := registered; burn_rao := 400;
    collector_free_rao := 10000; delegate_free_rao := 10000; alpha_available := 100000 |};
  chain_earnings := λ b, Ok (if (b =? 100) || (b =? 101) then
    Some {| earned_rao := 1000; earned_hash := sample_hash; earned_digest := "digest" |} else None);
  prepare := λ _ _ _, Ok {| encoded := "signed"; signed_hash := "xt"; signed_start := h;
    signed_expires := h + 64; fee_rao := 5 |};
  prepare_manual := λ _ _ _, Ok {| encoded := "manual"; signed_hash := "xt"; signed_start := h;
    signed_expires := h + 64; fee_rao := 5 |};
  broadcast := λ _, Ok tt;
  reconcile := λ o _, Ok {| status := outcome; settled_block := Some (op_at_block o + 1);
    settled_hash := Some "block"; settled_uid := registered; scanned_through := Some h;
    extrinsic_index := Some 0; extrinsic_hash := Some "xt" |};
  retryable_transfer_failure := λ o, Ok {| status := "failed"; settled_block := Some (op_at_block o + 1);
    settled_hash := Some "block"; settled_uid := registered; scanned_through := Some h;
    extrinsic_index := Some 0; extrinsic_hash := Some "xt" |};
  active_approval := None |}.

Definition sample_canary : TransferCanary := {| max_alpha_rao := 100; canary_after_operation := 0 |}.

Definition sample_request : ManualTransfer := {|
  request_id := "12345678-1234-1234-1234-123456789abc"; after_operation := 1; source_block := 101;
  request_bucket := "research"; amount_rao := 600; retained_alpha_rao := 1; expires_block := 400;
  reason := "operator approved"; batch := None |}.

(** Scan two blocks, pay a canary from the first, settle it, arm an intent on the second and
    sign it. *)
Definition canary_then_intent (outcome : string) : list (CollectorChain * Call) :=
  let at_ h outcome := sample_chain h (Some 7) outcome in
  [(at_ 120 "pending", ObserveEarnings 2);
   (at_ 120 "pending", Tick "transfer" (Some sample_canary) None);
   (at_ 121 "pending", Tick "transfer" (Some sample_canary) None);
   (at_ 125 "finalized", Tick "transfer" (Some sample_canary) None);
   (at_ 130 "finalized", Arm sample_request true);
   (at_ 135 outcome, Tick "transfer" None (Some (request_id sample_request)))].

Definition fresh (role : string) : CollectorDb :=
  match initial_journal sample_policy role with Ok db => db | Err _ =>
    {| pin := None; cursor := 0; earnings := []; operations := []; events := [] |} end.

Definition canary_journal : CollectorDb :=
  run_all sample_policy (fresh "transfer") (canary_then_intent "pending").

Lemma fresh_initial role : role ∈ ["registration"; "transfer"] →
  initial_journal sample_policy role = Ok (fresh role).
Proof. unfold fresh, initial_journal. intros H. by rewrite bool_decide_true. Qed.

Lemma fresh_reachable role l : role ∈ ["registration"; "transfer"] →
  reachable sample_policy role (run_all sample_policy (fresh role) l).
Proof. intros H. exists (fresh role), l. split; [by apply fresh_initial|done]. Qed.

Lemma transfer_reachable l : reachable sample_policy "transfer" (run_all sample_policy (fresh "transfer") l).
Proof. apply fresh_reachable. right. left. Qed.
Lemma registration_reachable l :
  reachable sample_policy "registration" (run_all sample_policy (fresh "registration") l).
Proof. apply fresh_reachable. left. Qed.

(** The history runs as intended. *)
Example canary_journal_operations :
  (λ o, (op_id o, op_state o, op_amount o, op_bucket o)) <$> operations canary_journal =
  [(1, "finalized", 100, Some "research"); (2, "dispatching", 600, Some "research")].
Proof. vm_compute. reflexivity. Qed.
