(* ===== verification/CollectorSpending.v ===== *)
(** The collector spends only what it has earned: the invariant of a transfer
    journal that bounds, receipt by receipt and bucket by bucket, what its
    operations have moved or may still move. *)
From Stdlib Require Import ZArith Lia.
From stdpp Require Import base list strings sets sorting relations.
From S2P Require Import Prelude PyText ServiceAllocation CollectorPolicy CollectorJournal Collector CollectorFacts CollectorSafety CollectorSamples.

#[local] Open Scope string_scope.
#[local] Open Scope list_scope.
#[local] Open Scope Z_scope.

(** * Identifiers *)

(** The rows of [operations] are numbered from 1 in insertion order. *)
Definition numbered (l : list Operation) : Prop := ∀ i o, l !! i = Some o → op_id o = Z.of_nat i + 1.

Lemma numbered_max l : numbered l → max_id (op_id <$> l) = Z.of_nat (length l).
Proof.
  induction l as [|o l IH] using rev_ind; intros Hn; [done|].
  rewrite fmap_app, max_id_app, IH, length_app.
  - specialize (Hn (length l) o (list_lookup_middle l [] o _ eq_refl)). cbn in Hn |- *. lia.
  - intros i q Hq. apply Hn. by apply lookup_app_l_Some.
Qed.

Lemma numbered_le l o : numbered l → o ∈ l → 1 <= op_id o <= Z.of_nat (length l).
Proof. intros Hn [i Hi]%list_elem_of_lookup. rewrite (Hn i o Hi). apply lookup_lt_Some in Hi. lia. Qed.

Lemma numbered_inj l o q : numbered l → o ∈ l → q ∈ l → op_id o = op_id q → o = q.
Proof.
  intros Hn [i Hi]%list_elem_of_lookup [j Hj]%list_elem_of_lookup E.
  rewrite (Hn i o Hi), (Hn j q Hj) in E. assert (i = j) as -> by lia. congruence.
Qed.

Lemma numbered_last l : numbered l → 0 < Z.of_nat (length l) →
  ∃ q, q ∈ l ∧ op_id q = Z.of_nat (length l).
Proof.
  intros Hn. destruct l as [|q l _] using rev_ind; [cbn; lia|]. intros _. exists q.
  split; [apply elem_of_app; right; left|].
  rewrite (Hn (length l) q (list_lookup_middle l [] q _ eq_refl)), length_app. cbn. lia.
Qed.

Lemma numbered_snoc l o : numbered l → op_id o = Z.of_nat (length l) + 1 → numbered (l ++ [o]).
Proof.
  intros Hn Ho i q Hq. apply lookup_app_Some in Hq as [Hq|[Hle Hq]]; [by apply Hn|].
  apply list_lookup_singleton_Some in Hq as [Hi <-]. lia.
Qed.

Lemma numbered_map l f : numbered l → (∀ o, op_id (f o) = op_id o) → numbered (map f l).
Proof.
  intros Hn Hf i q Hq. change (map f l) with (f <$> l) in Hq. rewrite list_lookup_fmap in Hq.
  apply fmap_Some in Hq as (o & Ho & ->). rewrite Hf. by apply Hn.
Qed.

Section spending.
Context {SH : Sha256} {VS : VerifySignature} (p : CollectorPolicy).

(** * The invariant *)

(** The legs of an operation add up to its amount, are positive and draw on
    recorded receipts. *)
Definition backed (claims : list (Z * ManualTransfer)) (db : CollectorDb) (o : Operation) : Prop :=
  is_Some (op_bucket o) ∧ sum_Z (legs claims o).*2 = op_amount o ∧ NoDup (legs claims o).*1 ∧
  Forall (λ l, 0 < l.2 ∧ l.1 ∈ e_block <$> earnings db) (legs claims o).

(** No receipt owes a bucket less than what is committed from it. *)
Definition within (claims : list (Z * ManualTransfer)) (db : CollectorDb) (e : Earning) : Prop :=
  ∀ parts k,
    plan_service_distribution (e_amount e) (e_amount e) (collector_coldkey p) (destinations p) = Ok parts →
    committed claims (operations db) (e_block e) k <= part_of k parts.

Record spend_inv (db : CollectorDb) : Prop := {
  inv_ids : numbered (operations db);
  inv_blocks : NoDup (e_block <$> earnings db);
  inv_amounts : Forall (λ e, 0 < e_amount e) (earnings db);
  inv_canary : events_named "transfer_canary_armed" db = [] → events_named "manual_transfer_armed" db = [];
  inv_armed : ∃ rs, Forall2 decodes (events_named "manual_transfer_armed" db) rs ∧
    Forall (λ r, after_operation r <= Z.of_nat (length (operations db))) rs;
  inv_spent : ∃ claims, aggregate_claims db = Ok claims ∧
    Forall (backed claims db) (operations db) ∧ Forall (within claims db) (earnings db)
}.

Lemma last_operation_length db : numbered (operations db) →
  last_operation db = Z.of_nat (length (operations db)).
Proof. apply numbered_max. Qed.

(** ** Legs depend on few columns *)

Lemma legs_ext claims claims' o o' : op_id o' = op_id o → op_source_block o' = op_source_block o →
  op_amount o' = op_amount o → dict_get (op_id o) claims' = dict_get (op_id o) claims →
  legs claims' o' = legs claims o.
Proof. unfold legs. by intros -> -> -> ->. Qed.

Lemma taken_nonneg claims db b o : backed claims db o → 0 <= taken claims b o.
Proof.
  intros (_ & _ & _ & Hf). unfold taken. apply sum_Z_nonneg, Forall_fmap, Forall_forall.
  intros l [_ Hl]%list_elem_of_filter. eapply Forall_forall in Hf; [|exact Hl]. cbn in *. lia.
Qed.

Lemma sum_Z_filter_le {A} (f : A → Z) (P Q : A → Prop) `{!∀ x, Decision (P x), !∀ x, Decision (Q x)}
    (l : list A) : Forall (λ x, 0 <= f x ∧ (P x → Q x)) l →
  sum_Z (f <$> filter P l) <= sum_Z (f <$> filter Q l).
Proof.
  induction 1 as [|x l [Hx HPQ] _ IH]; [done|]. rewrite !filter_cons.
  destruct (decide (P x)), (decide (Q x)); csimpl; try tauto; lia.
Qed.

Lemma committed_app claims l o b k : committed claims (l ++ [o]) b k =
  committed claims l b k + (if decide (live o ∧ op_bucket o = Some k) then taken claims b o else 0).
Proof.
  unfold committed. rewrite filter_app, fmap_app, sum_Z_app, filter_cons, filter_nil.
  case_decide; csimpl; lia.
Qed.

(** A draw of a receipt that is not among the legs takes nothing. *)
Lemma taken_other claims b o : b ∉ (legs claims o).*1 → taken claims b o = 0.
Proof.
  intros Hb. unfold taken. rewrite (elem_of_nil_inv (filter _ (legs claims o))); [done|].
  intros l [<- Hl]%list_elem_of_filter. apply Hb. by apply list_elem_of_fmap_2.
Qed.

Lemma taken_leg claims b a o : NoDup (legs claims o).*1 → (b, a) ∈ legs claims o →
  taken claims b o = a.
Proof.
  unfold taken. induction (legs claims o) as [|[b' a'] l IH]; [by intros _ ?%elem_of_nil|].
  csimpl. intros [Hb Hnd]%NoDup_cons Hin. rewrite filter_cons. cbn [fst].
  apply elem_of_cons in Hin as [[= <- <-]|Hin].
  - rewrite decide_True by done. csimpl. rewrite (elem_of_nil_inv (filter _ l)); [cbn; lia|].
    intros x [Hx Hl]%list_elem_of_filter. apply Hb. rewrite <- Hx. by apply list_elem_of_fmap_2.
  - rewrite decide_False; [by apply IH|]. intros ->. apply Hb. by apply (elem_of_fmap_eq fst (b, a)).
Qed.

(** ** What a reservation may draw *)

(** The operation a canary replacement excludes is the failed claim. *)
Lemma excluded_not_live db existing replacement o :
  numbered (operations db) → existing_canary db p = Ok existing →
  canary_replacement db p = Ok replacement → o ∈ operations db →
  op_id o = excluded_operation replacement → ¬ live o.
Proof.
  intros Hn He Hr Ho Hid. destruct replacement as [r|]; cbn in Hid.
  2: { apply numbered_le in Ho; [lia|done]. }
  unfold existing_canary in He. destruct (events_named _ db) as [|e [|]]; [| |discriminate].
  { rewrite Hr in He. discriminate. }
  do 5 (apply bind_Ok in He as (? & _ & He)). rewrite Hr in He. cbn [mbind result_bind] in He.
  apply bind_Ok in He as (? & Hc & _). unfold check_replacement in Hc.
  destruct (operation_by_id _ db) as [old|] eqn:Hold; [|discriminate].
  apply find_some in Hold as [Hin%list_elem_of_In Hid']. apply bind_Ok in Hc as (? & Hg%require_Ok & _).
  to_prop. assert (o = old) as -> by (eapply numbered_inj; [done..|]; congruence).
  unfold live. intros [?|?]; congruence.
Qed.

Lemma drawn_within db claims existing k dest b a e parts :
  spend_inv db → aggregate_claims db = Ok claims → Forall (backed claims db) (operations db) →
  existing_canary db p = Ok existing → drawn db p k dest (b, a) →
  e ∈ earnings db → e_block e = b →
  plan_service_distribution (e_amount e) (e_amount e) (collector_coldkey p) (destinations p) = Ok parts →
  committed claims (operations db) b k + a <= part_of k parts.
Proof.
  intros Hinv Hc Hback He (row & parts' & r & ops & rem & d & Hrow & Hb & Hparts & Hr & Hops & Hrem & Hd
    & <- & _ & Ha) Hin Hblock Hplan. cbn [fst snd] in *.
  assert (row = e) as ->.
  { assert (e_block row = e_block e) as E by congruence. clear -Hinv Hrow Hin E.
    destruct Hinv as [_ Hnd _ _ _ _]. revert Hnd Hrow Hin. induction (earnings db) as [|x l IH]; cbn.
    - by intros _ ?%elem_of_nil.
    - intros [Hx Hnd]%NoDup_cons. rewrite !elem_of_cons. intros [->|H1] [->|H2]; [done| | |by apply IH].
      + destruct Hx. rewrite E. by apply list_elem_of_fmap_2.
      + destruct Hx. rewrite <- E. by apply list_elem_of_fmap_2. }
  rewrite Hplan in Hparts. injection Hparts as <-.
  pose proof (plan_parts _ _ _ _ _ Hplan) as (Hnd & _ & Hp & _).
  assert (Forall (λ d, 0 < alpha_rao d) parts) as Hp' by by eapply Forall_impl; [exact Hp|]; intros ? [? _].
  pose proof (remaining_elem _ _ _ _ Hnd Hp' Hrem Hd) as (_ & <- & _).
  apply source_operations_Ok in Hops as (claims' & Hc' & Hsum & _).
  rewrite Hc in Hc'. injection Hc' as <-. rewrite Hsum.
  assert (committed claims (operations db) b (dist_bucket_id d) <=
    sum_Z (taken claims b <$> filter (λ o, op_bucket o = Some (dist_bucket_id d))
      (filter (λ o, op_id o =? excluded_operation r = false) (operations db)))); [|lia].
  unfold committed. rewrite list_filter_filter. apply sum_Z_filter_le, Forall_forall.
  intros o Ho. split.
  - eapply taken_nonneg, Forall_forall; [exact Hback|done].
  - intros [Hl Hk]. split; [done|]. apply Z.eqb_neq. intros Hid.
    eapply excluded_not_live; [apply Hinv|done..].
Qed.

(** * A reservation keeps the books *)

(** The journal attributes the new operation exactly the draws that were
    checked. *)
Lemma new_legs db o manual existing draws claims :
  spend_inv db → transfer_reservation db p o manual existing draws →
  aggregate_claims db = Ok claims → legs claims o = draws.
Proof.
  intros Hinv [_ _ Hm He Hq (Hid & _ & _) Hreq _ _] (rs & Hrs & Hnd & ->)%aggregate_claims_Ok.
  destruct Hinv as [Hn _ _ Hcan (all & Hall & Hafter) _].
  pose proof (claims_history db p manual rs Hm Hrs) as Hiff.
  pose proof (manual_history_Ok db p manual Hm) as (all' & Hall' & _ & _ & Eman & Hsort & Hpos & _).
  assert (all' = all) as ->.
  { clear -Hall Hall'. revert all Hall. induction Hall' as [|e r es rs He _ IH]; intros all Hall.
    - by apply Forall2_nil_inv_l in Hall.
    - apply Forall2_cons_inv_l in Hall as (r' & rs' & He' & Hall & ->). unfold decodes in *.
      rewrite He in He'. injection He' as ->. f_equal. by apply IH. }
  rewrite last_operation_length in Hid by done.
  assert (∀ r, r ∈ manual → after_operation r <= Z.of_nat (length (operations db)) ∧ 0 < after_operation r) as Hb.
  { intros r Hr. rewrite Eman in Hr. apply list_elem_of_filter in Hr as [_ Hr].
    split; [by eapply Forall_forall in Hafter|by eapply Forall_forall in Hpos]. }
  assert (∀ r x, last manual = Some x → r ∈ manual →
    after_operation r = Z.of_nat (length (operations db)) → r = x ∧ after_operation x = after_operation r) as Huniq.
  { intros r x Hx Hr Er. destruct (sorted_last _ _ _ Hsort Hx Hr) as [Hle Heq].
    destruct (Hb x (last_in _ _ Hx)) as [Hx1 _]. assert (after_operation r = after_operation x) by lia.
    split; [by apply Heq|done]. }
  assert (∀ x, last manual = Some x → after_operation x = Z.of_nat (length (operations db))) as Hlast.
  { intros x Hx. destruct (Hb x (last_in _ _ Hx)) as [Hx1 Hx0].
    destruct existing as [c|].
    - specialize (Hq c eq_refl). unfold in_force in Hq. rewrite Hx in Hq. cbn in Hq.
      destruct (numbered_last (operations db) Hn) as (q & Hqin & Hqid); [lia|].
      eapply Forall_forall in Hq; [|exact Hqin]. cbn in Hq. lia.
    - apply existing_canary_None in He as [He _]. specialize (Hcan He).
      rewrite Hcan in Hall. apply Forall2_nil_inv_l in Hall as ->. rewrite Eman in Hx. done. }
  unfold legs. destruct (dict_get (op_id o) (claim_entry <$> rs)) as [r|] eqn:Hget.
  - apply get_claim in Hget as [Hr Er]; [|done]. apply Hiff in Hr as [Hr [b Hbatch]].
    destruct (last manual) as [x|] eqn:Hx.
    2: { apply last_None in Hx as ->. by apply elem_of_nil in Hr. }
    destruct (Huniq r x eq_refl Hr ltac:(lia)) as [<- _].
    destruct Hreq as (_ & _ & _ & ->). unfold claims_of_batch, claim_pairs. by rewrite Hbatch.
  - destruct (last manual) as [x|] eqn:Hx.
    + destruct Hreq as (Ha & Hs & _ & ->). unfold claim_pairs. destruct (batch x) as [b|] eqn:Hbatch.
      * assert (dict_get (op_id o) (claim_entry <$> rs) = Some x) as E; [|congruence].
        apply get_claim; [done|]. split; [|rewrite (Hlast x eq_refl); lia].
        apply Hiff. split; [by apply last_in|by rewrite Hbatch].
      * by rewrite Hs, Ha.
    + destruct Hreq as [(b & -> & ->) _]. done.
Qed.

Lemma within_claims claims claims' db db' e :
  operations db' = operations db →
  Forall (λ o, legs claims' o = legs claims o) (operations db) →
  within claims db e → within claims' db' e.
Proof.
  intros Ho Hl Hw parts k Hp. specialize (Hw parts k Hp). unfold committed in *. rewrite Ho.
  assert (taken claims' (e_block e) <$> filter (λ o, live o ∧ op_bucket o = Some k) (operations db) =
          taken claims (e_block e) <$> filter (λ o, live o ∧ op_bucket o = Some k) (operations db)) as ->; [|done].
  apply list_fmap_ext. intros i o Hi%list_elem_of_lookup_2. apply list_elem_of_filter in Hi as [_ Hi].
  unfold taken. eapply Forall_forall in Hl; [|exact Hi]. by rewrite Hl.
Qed.

Lemma backed_claims claims claims' db db' o :
  (∀ b, b ∈ e_block <$> earnings db → b ∈ e_block <$> earnings db') →
  legs claims' o = legs claims o → backed claims db o → backed claims' db' o.
Proof.
  intros He Hl (H0 & H1 & H2 & H3). unfold backed. rewrite Hl. split_and!; [done|done|done|].
  eapply Forall_impl; [exact H3|]. intros l [? ?]. auto.
Qed.

(** Steps that leave operations, intents and expiries alone. *)
Lemma spend_inv_frame db db' :
  operations db' = operations db → earnings db' = earnings db →
  events_named "manual_transfer_armed" db' = events_named "manual_transfer_armed" db →
  aggregate_claims db' = aggregate_claims db →
  (events_named "transfer_canary_armed" db' = [] → events_named "transfer_canary_armed" db = []) →
  spend_inv db → spend_inv db'.
Proof.
  intros Ho He Ha Hc Hcan [H1 H2 H3 H4 H5 (claims & H6 & H7 & H8)].
  split; rewrite ?Ho, ?He, ?Ha; try done; [by auto|].
  exists claims. rewrite Hc. split_and!; [done| |].
  - eapply Forall_impl; [exact H7|]. intros o. apply backed_claims; [by rewrite He|done].
  - eapply Forall_impl; [exact H8|]. intros e. apply within_claims; [done|]. by apply Forall_true.
Qed.

Lemma spend_inv_transfer db o manual existing draws body : spend_inv db →
  transfer_reservation db p o manual existing draws → spend_inv (add_operation db o body).
Proof.
  intros Hinv Hres. destruct Hinv as [H1 H2 H3 H4 (all & Hall & Hafter) (claims & H6 & H7 & H8)] eqn:Einv.
  clear Einv. assert (spend_inv db) as Hinv' by done. clear Hinv.
  assert (legs claims o = draws) as Hlegs by by eapply new_legs.
  destruct Hres as [_ Hp Hm He Hq (Hid & Hst & _) Hreq (k & dest & Hk & Hdest & Hd) [Hnd Hsum]].
  rewrite last_operation_length in Hid by done.
  assert (Forall (λ l, 0 < l.2 ∧ l.1 ∈ e_block <$> earnings db) draws) as Hdraws.
  { eapply Forall_impl; [exact Hd|].
    intros [b a] (row & parts & r & ops & rem & d & Hrow & Hb & _ & _ & _ & _ & _ & _ & _ & Ha). cbn in *.
    split; [lia|]. rewrite <- Hb. by apply list_elem_of_fmap_2. }
  split; cbn [add_operation log with_events with_operations operations earnings].
  - by apply numbered_snoc.
  - done.
  - done.
  - unfold add_operation. by rewrite !events_named_other by done.
  - exists all. unfold add_operation. rewrite events_named_other by done. split; [done|].
    rewrite length_app. eapply Forall_impl; [exact Hafter|]. cbn. lia.
  - exists claims. split; [|split].
    + unfold add_operation. rewrite claims_log by done. done.
    + apply Forall_app. split.
      * eapply Forall_impl; [exact H7|]. intros q. by apply backed_claims.
      * apply Forall_singleton. unfold backed. rewrite Hlegs. split; [by exists k|done].
    + apply Forall_forall. intros e Hin parts k' Hplan.
      change (operations (add_operation db o body)) with (operations db ++ [o]). rewrite committed_app.
      assert (committed claims (operations db) (e_block e) k' <= part_of k' parts) as Hold.
      { eapply Forall_forall in H8; [|exact Hin]. by apply H8. }
      case_decide as Hlk; [|lia]. destruct Hlk as [_ Hk']. rewrite Hk in Hk'. injection Hk' as <-.
      destruct (decide (e_block e ∈ (legs claims o).*1)) as [Hin'|Hnin].
      2: { rewrite taken_other by done. lia. }
      apply list_elem_of_fmap in Hin' as ([b a] & Hb & Hl). cbn in Hb. subst b.
      rewrite (taken_leg claims _ a) by (rewrite ?Hlegs in *; done).
      rewrite Hlegs in Hl. eapply Forall_forall in Hd; [|exact Hl].
      eapply drawn_within; [done..|exact Hplan].
Qed.

Lemma spend_inv_update db o f : spend_inv db →
  (∀ q, op_id (f q) = op_id q ∧ op_source_block (f q) = op_source_block q ∧
        op_amount (f q) = op_amount q ∧ op_bucket (f q) = op_bucket q) →
  pending_operation db = Some o → spend_inv (update_operation (op_id o) f db).
Proof.
  intros [H1 H2 H3 H4 (all & Hall & Hafter) (claims & H6 & H7 & H8)] Hf Hp.
  apply find_some in Hp as [Hin%list_elem_of_In Hst]. apply String.eqb_eq in Hst.
  set (g := λ q, if op_id q =? op_id o then f q else q).
  assert (∀ q, op_id (g q) = op_id q ∧ op_source_block (g q) = op_source_block q ∧
    op_amount (g q) = op_amount q ∧ op_bucket (g q) = op_bucket q) as Hg.
  { intros q. unfold g. by destruct (_ =? _). }
  assert (∀ q, legs claims (g q) = legs claims q) as Hlegs.
  { intros q. destruct (Hg q) as (E1 & E2 & E3 & _). apply legs_ext; rewrite ?E1; done. }
  split; cbn [update_operation with_operations operations earnings].
  - apply numbered_map; [done|]. intros q. apply Hg.
  - done.
  - done.
  - by erewrite !(events_named_ext _ db) by done.
  - exists all. erewrite (events_named_ext _ db) by done. rewrite length_map. done.
  - exists claims. split; [|split].
    + done.
    + apply Forall_fmap. eapply Forall_impl; [exact H7|]. intros q (B0 & B1 & B2 & B3).
      change (backed claims (update_operation (op_id o) f db) (g q)). unfold backed.
      rewrite Hlegs. destruct (Hg q) as (_ & _ & -> & ->). done.
    + eapply Forall_impl; [exact H8|]. intros e Hw parts k Hplan.
      change (operations (update_operation (op_id o) f db)) with (g <$> operations db).
      etrans; [|by apply Hw]. unfold committed.
      assert (∀ l, Forall (λ q, q ∈ operations db) l →
        sum_Z (taken claims (e_block e) <$> filter (λ o, live o ∧ op_bucket o = Some k) (g <$> l)) <=
        sum_Z (taken claims (e_block e) <$> filter (λ o, live o ∧ op_bucket o = Some k) l)) as Hle.
      { induction 1 as [|q l Hq _ IH]; [done|]. csimpl. rewrite !filter_cons.
        destruct (Hg q) as (_ & _ & _ & Eb). rewrite Eb.
        assert (taken claims (e_block e) (g q) = taken claims (e_block e) q) as Et
          by (unfold taken; by rewrite Hlegs).
        assert (0 <= taken claims (e_block e) q) as Hnn
          by (eapply taken_nonneg, Forall_forall; [exact H7|done]).
        assert (live (g q) → live q) as Hgl.
        { unfold g. destruct (Z.eqb_spec (op_id q) (op_id o)) as [E|]; [|done].
          intros _. left. assert (q = o) as -> by (by eapply numbered_inj). done. }
        destruct (decide (live (g q) ∧ op_bucket q = Some k)) as [[? ?]|];
          [rewrite decide_True by auto|case_decide]; csimpl; lia. }
      apply Hle. apply Forall_forall. done.
Qed.

(** * Receipts *)

Lemma part_of_nonneg a ds collector parts k :
  plan_service_distribution a a collector ds = Ok parts → 0 <= part_of k parts.
Proof.
  intros (_ & _ & Hp & _)%plan_parts. unfold part_of. apply sum_Z_nonneg, Forall_fmap, Forall_forall.
  intros d [_ Hd]%list_elem_of_filter. eapply Forall_forall in Hp as [H _]; [|exact Hd]. cbn in *. lia.
Qed.

Lemma committed_fresh claims db b k :
  Forall (backed claims db) (operations db) → b ∉ e_block <$> earnings db →
  committed claims (operations db) b k = 0.
Proof.
  intros Hb Hn. unfold committed.
  assert (∀ l, Forall (λ o, taken claims b o = 0) l → sum_Z (taken claims b <$> l) = 0) as Hz.
  { induction 1 as [|o l Ho _ IH]; [done|]. csimpl. lia. }
  apply Hz, Forall_forall. intros o [_ Ho]%list_elem_of_filter. apply taken_other. intros Hin.
  apply Hn. apply list_elem_of_fmap in Hin as (l & -> & Hl).
  eapply Forall_forall in Hb as (_ & _ & _ & Hf); [|exact Ho]. eapply Forall_forall in Hf; [|exact Hl].
  apply Hf.
Qed.

Lemma spend_inv_earn db row : spend_inv db → earning_at (e_block row) db = None → 0 < e_amount row →
  spend_inv (with_earnings db (earnings db ++ [row])).
Proof.
  intros [H1 H2 H3 H4 H5 (claims & H6 & H7 & H8)] Hnew Hpos.
  assert (e_block row ∉ e_block <$> earnings db) as Hfresh.
  { intros (e & E & He)%list_elem_of_fmap. eapply find_none in Hnew; [|by apply list_elem_of_In].
    by apply Z.eqb_neq in Hnew. }
  split; cbn [with_earnings operations earnings].
  - done.
  - rewrite fmap_app. apply NoDup_app. split_and!; [done| |apply NoDup_singleton].
    intros b Hb ->%list_elem_of_singleton. done.
  - apply Forall_app. split; [done|by apply Forall_singleton].
  - by erewrite !(events_named_ext _ db) by done.
  - by erewrite !(events_named_ext _ db) by done.
  - exists claims. split; [done|]. split.
    + eapply Forall_impl; [exact H7|]. intros o. apply backed_claims; [|done].
      intros b Hb. cbn. rewrite fmap_app. apply elem_of_app. by left.
    + apply Forall_app. split; [by eapply Forall_impl; [exact H8|]|]. apply Forall_singleton.
      intros parts k Hplan. change (operations (with_earnings _ _)) with (operations db).
      rewrite committed_fresh by done. by eapply part_of_nonneg.
Qed.

Lemma spend_inv_complete db f : spend_inv db →
  (∀ e, e_block (f e) = e_block e ∧ e_amount (f e) = e_amount e) →
  spend_inv (with_earnings db (map f (earnings db))).
Proof.
  intros [H1 H2 H3 H4 H5 (claims & H6 & H7 & H8)] Hf.
  assert (e_block <$> map f (earnings db) = e_block <$> earnings db) as Eb.
  { rewrite <- list_fmap_compose. apply list_fmap_ext. intros i e _. apply Hf. }
  split; cbn [with_earnings operations earnings].
  - done.
  - by rewrite Eb.
  - apply Forall_fmap. eapply Forall_impl; [exact H3|]. intros e He. cbn. destruct (Hf e) as [_ ->]. done.
  - by erewrite !(events_named_ext _ db) by done.
  - by erewrite !(events_named_ext _ db) by done.
  - exists claims. split; [done|]. split.
    + eapply Forall_impl; [exact H7|]. intros o. apply backed_claims; [|done].
      intros b Hb. cbn. by rewrite Eb.
    + apply Forall_fmap. eapply Forall_impl; [exact H8|]. intros e He parts k. cbn.
      destruct (Hf e) as [-> ->]. apply He.
Qed.

(** * Intents *)

Lemma events_armed_log db body name :
  events_named name (log db name body) =
  events_named name db ++
    [{| event_id := max_id (event_id <$> events db) + 1; event := name; payload := JObj body |}].
Proof. by rewrite events_named_log, String.eqb_refl. Qed.

Lemma decode_claims l : map_result decode_claim (map claim_json l) = Ok l.
Proof. induction l as [|[b a] l IH]; [done|]. cbn [map map_result]. by rewrite IH. Qed.

Lemma manual_fields_read r : let j := JObj (manual_dict r) in
  str_field "request_id" j = Ok (request_id r) ∧ int_field "after_operation" j = Ok (after_operation r) ∧
  int_field "source_block" j = Ok (source_block r) ∧ str_field "bucket_id" j = Ok (request_bucket r) ∧
  int_field "amount_rao" j = Ok (amount_rao r) ∧
  int_field "retained_alpha_rao" j = Ok (retained_alpha_rao r) ∧
  int_field "expires_block" j = Ok (expires_block r) ∧ str_field "reason" j = Ok (reason r).
Proof. by destruct r as [? ? ? ? ? ? ? ? [[l a]|]]. Qed.

Ltac finish_decode :=
  match goal with
  | Hc : check_manual ?r = Ok tt |- _ =>
      transitivity (check_manual r;; Ok r); [reflexivity | by rewrite Hc]
  end.

Lemma decode_manual_dict r : check_manual r = Ok tt → decode_manual (JObj (manual_dict r)) = Ok r.
Proof.
  intros Hc. unfold decode_manual.
  destruct (manual_fields_read r) as (-> & -> & -> & -> & -> & -> & -> & ->).
  cbn [mbind result_bind]. destruct r as [f1 f2 f3 f4 f5 f6 f7 f8 [[l a]|]].
  - change (lookup_key "sources" (JObj (manual_dict _))) with (Some (JList (map claim_json l))).
    change (lookup_key "manual_approval" (JObj (manual_dict _))) with (Some a).
    cbn [mbind result_bind only_keys]. rewrite require_true by (vm_compute; reflexivity).
    cbn [mbind result_bind]. rewrite decode_claims. finish_decode.
  - change (lookup_key "sources" (JObj (manual_dict _))) with (@None Json).
    cbn [mbind result_bind only_keys]. rewrite require_true by (vm_compute; reflexivity).
    finish_decode.
Qed.

Lemma armed_decodes r id name : check_manual r = Ok tt →
  decodes {| event_id := id; event := name; payload := JObj (armed_body p r) |} r.
Proof.
  intros Hc. unfold decodes.
  assert (without_policy (JObj (armed_body p r)) = JObj (manual_dict r)) as E.
  { by destruct r as [? ? ? ? ? ? ? ? [[l a]|]]. }
  cbn [payload]. rewrite E. by apply decode_manual_dict.
Qed.

(** The aggregate intents in force, among the decoded rows. *)
Definition aggregates (db : CollectorDb) (all : list ManualTransfer) : list ManualTransfer :=
  filter (λ r, is_Some (batch r) ∧ request_id r ∉ expired_ids db) all.

Lemma batch_rows_decode db all : Forall2 decodes (events_named "manual_transfer_armed" db) all →
  Forall2 decodes (batch_rows db) (aggregates db all).
Proof.
  unfold batch_rows, aggregates. induction 1 as [|e r rows rs Hd _ IH]; [constructor|].
  rewrite !filter_cons. pose proof (decodes_fields e r Hd) as (_ & _ & Hs).
  pose proof (unexpired_spec db e r Hd) as Hu.
  destruct (decide (is_Some (batch r) ∧ request_id r ∉ expired_ids db)) as [[H1 H2]|Hn].
  - rewrite decide_True; [by constructor|]. apply andb_true_iff. tauto.
  - rewrite decide_False; [done|]. rewrite andb_true_iff. tauto.
Qed.

Lemma Forall2_decodes_inj rows rs rs' : Forall2 decodes rows rs → Forall2 decodes rows rs' → rs = rs'.
Proof.
  intros H. revert rs'. induction H as [|e r rows rs He _ IH]; intros rs' H'.
  - by apply Forall2_nil_inv_l in H'.
  - apply Forall2_cons_inv_l in H' as (r' & rs1 & He' & H' & ->). unfold decodes in *.
    rewrite He in He'. injection He' as ->. f_equal. by apply IH.
Qed.

Lemma aggregate_claims_all db all claims : Forall2 decodes (events_named "manual_transfer_armed" db) all →
  aggregate_claims db = Ok claims ↔
  NoDup (after_operation <$> aggregates db all) ∧ claims = claim_entry <$> aggregates db all.
Proof.
  intros Hall%batch_rows_decode. rewrite aggregate_claims_Ok. split.
  - intros (rs & Hrs & Hn & ->). by rewrite <- (Forall2_decodes_inj _ _ _ Hall Hrs) in *.
  - intros [Hn ->]. by exists (aggregates db all).
Qed.

(** Intents and expiries that only concern the next operation leave the
    attribution of the recorded ones as it was. *)
Lemma spend_inv_intents db db' all all' : spend_inv db →
  operations db' = operations db → earnings db' = earnings db →
  Forall2 decodes (events_named "manual_transfer_armed" db) all →
  Forall2 decodes (events_named "manual_transfer_armed" db') all' →
  events_named "transfer_canary_armed" db' = events_named "transfer_canary_armed" db →
  events_named "transfer_canary_armed" db ≠ [] →
  Forall (λ r, after_operation r <= Z.of_nat (length (operations db))) all' →
  NoDup (after_operation <$> aggregates db' all') →
  (∀ r, after_operation r < Z.of_nat (length (operations db)) →
        r ∈ aggregates db all ↔ r ∈ aggregates db' all') →
  spend_inv db'.
Proof.
  intros [H1 H2 H3 H4 H5 (claims & H6 & H7 & H8)] Ho He Hall Hall' Hcan Hne Hafter Hnd Hiff.
  apply (aggregate_claims_all db all) in H6 as [Hnd0 ->]; [|done].
  assert (Forall (λ o, legs (claim_entry <$> aggregates db' all') o =
                       legs (claim_entry <$> aggregates db all) o) (operations db)) as Hlegs.
  { apply Forall_forall. intros o Hin. apply legs_ext; [done..|].
    apply numbered_le in Hin as [_ Hle]; [|done].
    destruct (dict_get (op_id o) (claim_entry <$> aggregates db all)) as [r|] eqn:E.
    - apply get_claim in E as [Hr Er]; [|done]. apply get_claim; [done|].
      split; [|done]. apply Hiff; [lia|done].
    - destruct (dict_get (op_id o) (claim_entry <$> aggregates db' all')) as [r|] eqn:E'; [|done].
      apply get_claim in E' as [Hr Er]; [|done].
      assert (dict_get (op_id o) (claim_entry <$> aggregates db all) = Some r) as E''; [|congruence].
      apply get_claim; [done|]. split; [|done]. apply Hiff; [lia|done]. }
  split; rewrite ?Ho, ?He; try done.
  - rewrite Hcan. done.
  - by exists all'.
  - exists (claim_entry <$> aggregates db' all'). split; [by apply (aggregate_claims_all db' all')|].
    split; apply Forall_forall.
    + intros o Hin. rewrite Forall_forall in H7, Hlegs. 
      apply (backed_claims (claim_entry <$> aggregates db all) _ db); [by rewrite He|by apply Hlegs|by apply H7].
    + intros e Hin. rewrite Forall_forall in H8. eapply within_claims; [done|exact Hlegs|by apply H8].
Qed.

Lemma existing_some_events db c : existing_canary db p = Ok (Some c) →
  events_named "transfer_canary_armed" db ≠ [].
Proof.
  unfold existing_canary. destruct (events_named _ db); [|done].
  intros ([] & _ & H)%bind_Ok; discriminate.
Qed.

Lemma manual_in_all db manual all r : manual_transfer_history db p = Ok manual →
  Forall2 decodes (events_named "manual_transfer_armed" db) all →
  manual = unexpired_in (expired_ids db) all ∧ NoDup (request_id <$> all) ∧
  StronglySorted by_after manual ∧ (r ∈ aggregates db all ↔ r ∈ manual ∧ is_Some (batch r)).
Proof.
  intros (all' & Hall' & _ & Hnd & Em & Hs & _)%manual_history_Ok Hall.
  rewrite <- (Forall2_decodes_inj _ _ _ Hall Hall') in *. split_and!; try done.
  subst manual. unfold aggregates, unexpired_in. rewrite !list_elem_of_filter. tauto.
Qed.

Lemma aggregates_app db l1 l2 : aggregates db (l1 ++ l2) = aggregates db l1 ++ aggregates db l2.
Proof. apply filter_app. Qed.

Lemma aggregates_ids db db' all : expired_ids db' = expired_ids db → aggregates db' all = aggregates db all.
Proof. unfold aggregates. by intros ->. Qed.

Lemma spend_inv_arm db r manual c : spend_inv db → may_arm db p r manual c →
  spend_inv (log db "manual_transfer_armed" (armed_body p r)).
Proof.
  intros Hinv [Hcheck _ Hm _ Hc [Hcur Hspent] _ _].
  pose proof Hinv as [Hn _ _ _ (all & Hall & Hafter) (claims & Hcl & _)].
  rewrite last_operation_length in Hcur, Hspent by done.
  set (db' := log db _ _).
  assert (expired_ids db' = expired_ids db) as Hexp.
  { unfold expired_ids, db'. by rewrite events_named_other. }
  assert (∀ q, q ∈ aggregates db all → after_operation q < Z.of_nat (length (operations db))) as Hlt.
  { intros q Hq. destruct (manual_in_all db manual all q Hm Hall) as (_ & _ & Hs & Hi).
    apply Hi in Hq as [Hq _]. unfold in_force in Hspent. destruct (last manual) as [x|] eqn:Hx.
    - destruct (sorted_last _ _ _ Hs Hx Hq) as [Hle _]. cbn in Hspent. lia.
    - apply last_None in Hx. rewrite Hx in Hq. by apply elem_of_nil in Hq. }
  apply (spend_inv_intents db db' all (all ++ [r])); try done.
  - unfold db'. rewrite events_armed_log. apply Forall2_app; [done|].
    constructor; [by apply armed_decodes|constructor].
  - unfold db'. by rewrite events_named_other.
  - by eapply existing_some_events.
  - apply Forall_app. split; [done|]. apply Forall_singleton. lia.
  - rewrite (aggregates_ids db db') by done. rewrite aggregates_app, fmap_app. apply NoDup_app. split_and!.
    + apply (aggregate_claims_all db all) in Hcl as [Hnd _]; [exact Hnd|exact Hall].
    + intros a (q & -> & Hq)%list_elem_of_fmap (q' & E & [_ Hq']%list_elem_of_filter)%list_elem_of_fmap.
      apply list_elem_of_singleton in Hq' as ->. specialize (Hlt q Hq). lia.
    + unfold aggregates. rewrite filter_cons, filter_nil. case_decide; [apply NoDup_singleton|constructor].
  - intros q Hq. rewrite (aggregates_ids db db') by done. rewrite aggregates_app, elem_of_app.
    split; [by left|]. intros [|[_ ->%list_elem_of_singleton]%list_elem_of_filter]; [done|lia].
Qed.

Lemma spend_inv_expire db manual r body : spend_inv db → manual_transfer_history db p = Ok manual →
  last manual = Some r → last_operation db = after_operation r →
  as_str (lookup_key "request_id" (JObj body)) = Some (request_id r) →
  spend_inv (log db "manual_unsigned_expired" body).
Proof.
  intros Hinv Hm Hr Hcur Hid.
  pose proof Hinv as [Hn _ _ Hcan (all & Hall & Hafter) (claims & Hcl & _)].
  rewrite last_operation_length in Hcur by done. set (db' := log db _ _).
  assert (expired_ids db' = expired_ids db ++ [request_id r]) as Hexp.
  { unfold expired_ids, db'. rewrite events_armed_log, omap_app. cbn [omap list_omap payload].
    by rewrite Hid. }
  assert (r ∈ all) as Hrin.
  { destruct (manual_in_all db manual all r Hm Hall) as (-> & _). apply last_in in Hr.
    by apply list_elem_of_filter in Hr as [_ ?]. }
  assert (∀ q, q ∈ aggregates db' all ↔ q ∈ aggregates db all ∧ request_id q ≠ request_id r) as Hag.
  { intros q. unfold aggregates. rewrite !list_elem_of_filter, Hexp, elem_of_app, list_elem_of_singleton. tauto. }
  apply (spend_inv_intents db db' all all); try done.
  - unfold db'. by rewrite events_named_other.
  - unfold db'. by rewrite events_named_other.
  - intros E. specialize (Hcan E). rewrite Hcan in Hall. apply Forall2_nil_inv_l in Hall. subst all.
    by apply elem_of_nil in Hrin.
  - assert (aggregates db' all = filter (λ q, request_id q ≠ request_id r) (aggregates db all)) as ->.
    { unfold aggregates. rewrite list_filter_filter. apply filter_ext_all, Forall_true. intros q.
      rewrite Hexp, elem_of_app, list_elem_of_singleton. tauto. }
    apply (aggregate_claims_all db all) in Hcl as [Hnd _]; [|done].
    eapply sublist_NoDup; [exact Hnd|]. apply fmap_sublist, sublist_filter.
  - intros q Hq. rewrite Hag. split; [|by intros [? _]]. intros Hin. split; [done|]. intros E.
    destruct (manual_in_all db manual all q Hm Hall) as (_ & Hnd & _ & _).
    assert (q = r) as ->; [|lia]. apply list_elem_of_filter in Hin as [_ Hin].
    apply list_elem_of_lookup in Hin as [i Hi]. apply list_elem_of_lookup in Hrin as [j Hj].
    assert (i = j) as ->; [|congruence].
    eapply (NoDup_lookup (request_id <$> all)); [done|by rewrite list_lookup_fmap, Hi|].
    rewrite list_lookup_fmap, Hj. cbn. by rewrite E.
Qed.

(** * The invariant holds of every reachable transfer journal *)

Lemma spend_inv_step db db' : pin db = Some (digest p, "transfer") → spend_inv db →
  journal_step p db db' → spend_inv db'.
Proof.
  intros Hpin Hinv Hs. destruct Hs as
    [db name body Hn|db c He _ _ _ _|db c0 c o saved proof row why _ _|db r manual c Ha
    |db manual r body Hm Hr Hl Hid _|db row Hrow Hpos _|db b _|db f Hf|db o st s Hp Hst|db o b Hp
    |db o manual existing draws body Hres|db o body Hpin'].
  - apply (spend_inv_frame db); try done; [by apply note_named; [|is_interpreted]|by apply claims_note|].
    by rewrite note_named by (done || is_interpreted).
  - apply (spend_inv_frame db); try done; [by rewrite events_named_other|by rewrite claims_log|].
    rewrite events_armed_log. by destruct (events_named _ db).
  - apply (spend_inv_frame db); try done; [by rewrite events_named_other|by rewrite claims_log|].
    by rewrite events_named_other.
  - by eapply spend_inv_arm.
  - by eapply spend_inv_expire.
  - apply spend_inv_earn; [done..|lia].
  - by apply (spend_inv_frame db).
  - by apply spend_inv_complete.
  - by apply spend_inv_update; [|intros q|].
  - by apply spend_inv_update; [|intros q|].
  - by eapply spend_inv_transfer.
  - congruence.
Qed.

Lemma initial_spend_inv db role : initial_journal p role = Ok db → spend_inv db.
Proof.
  intros (? & _ & [= <-])%bind_Ok. split; cbn.
  - intros i o. by rewrite lookup_nil.
  - constructor.
  - constructor.
  - done.
  - exists []. split; constructor.
  - exists []. split_and!; [done|constructor|constructor].
Qed.

Lemma reachable_spend_inv db : reachable p "transfer" db → spend_inv db.
Proof.
  intros Hr. apply (reachable_ind p "transfer"
    (λ db, spend_inv db ∧ pin db = Some (digest p, "transfer"))) in Hr as [[H _] _]; [done| |].
  - intros db0 H0. split; [by eapply initial_spend_inv|]. by apply bind_Ok in H0 as (? & _ & [= <-]).
  - intros a b [Ha Hp] Hs. split; [by eapply spend_inv_step|]. by rewrite (step_pin _ _ _ Hs).
Qed.

(** * Totals *)

(** A sum split by a key. *)
Lemma sum_Z_partition {A K} `{EqDecision K} (key : A → K) (f : A → Z) (ks : list K) (l : list A) :
  NoDup ks → Forall (λ x, key x ∈ ks) l →
  sum_Z ((λ k, sum_Z (f <$> filter (λ x, key x = k) l)) <$> ks) = sum_Z (f <$> l).
Proof.
  intros Hks. induction 1 as [|x l Hx _ IH].
  { clear Hks. induction ks as [|k ks IH]; [done|]. rewrite fmap_cons. cbn [sum_Z]. by rewrite IH. }
  assert (∀ ks, sum_Z ((λ k, sum_Z (f <$> filter (λ y, key y = k) (x :: l))) <$> ks) =
    sum_Z ((λ k, if decide (key x = k) then f x else 0) <$> ks) +
    sum_Z ((λ k, sum_Z (f <$> filter (λ y, key y = k) l)) <$> ks)) as E.
  { clear. induction ks as [|k ks IH]; [done|]. csimpl. rewrite IH, filter_cons.
    case_decide; csimpl; lia. }
  rewrite E, IH. csimpl. f_equal. clear E IH. induction ks as [|k ks IH]; [by apply elem_of_nil in Hx|].
  apply NoDup_cons in Hks as [Hk Hks]. csimpl.
  destruct (decide (key x = k)) as [<-|Hne].
  - assert (sum_Z ((λ k, if decide (key x = k) then f x else 0) <$> ks) = 0) as ->; [|lia].
    clear -Hk. induction ks as [|k ks IH]; [done|]. csimpl. apply not_elem_of_cons in Hk as [H1 H2].
    rewrite decide_False by done. by apply IH.
  - apply elem_of_cons in Hx as [|Hx]; [done|]. rewrite IH by done. lia.
Qed.

Lemma sum_Z_le {A} (f g : A → Z) l : Forall (λ x, f x <= g x) l → sum_Z (f <$> l) <= sum_Z (g <$> l).
Proof. induction 1; csimpl; lia. Qed.

Lemma sum_Z_swap {A B} (f : A → B → Z) (l : list A) (m : list B) :
  sum_Z ((λ x, sum_Z (f x <$> m)) <$> l) = sum_Z ((λ y, sum_Z ((λ x, f x y) <$> l)) <$> m).
Proof.
  induction l as [|x l IH]; csimpl.
  - induction m as [|y m IH]; [done|]. rewrite fmap_cons. cbn [sum_Z]. by rewrite <- IH.
  - rewrite IH. clear IH. induction m; csimpl; lia.
Qed.

(** The distribution of any amount succeeds under an accepted policy. *)
Lemma policy_plans a : check_policy p = Ok tt → 0 <= a →
  ∃ parts, plan_service_distribution a a (collector_coldkey p) (destinations p) = Ok parts.
Proof.
  unfold check_policy. intros H Ha. do 8 (apply bind_Ok in H as (? & _ & H)).
  apply bind_Ok in H as (parts & H & _). unfold plan_service_distribution in *.
  apply bind_Ok in H as (? & _ & H). apply bind_Ok in H as (? & _ & H).
  rewrite (require_true ((0 <=? a) && (0 <=? a))) by (rewrite andb_true_iff, !Z.leb_le; lia).
  rewrite (require_true (a <=? a)) by (apply Z.leb_le; lia). cbn [mbind result_bind].
  do 5 (apply bind_Ok in H as (? & ?%require_Ok & H)).
  repeat match goal with E : ?b = true |- context [require ?b ?e] =>
    rewrite (require_true b e E); cbn [mbind result_bind] end.
  by eexists.
Qed.

(** Everything committed from one receipt is at most the receipt. *)
Lemma receipt_bound db claims e : spend_inv db → check_policy p = Ok tt →
  Forall (backed claims db) (operations db) → within claims db e → 0 < e_amount e →
  sum_Z (taken claims (e_block e) <$> filter live (operations db)) <= e_amount e.
Proof.
  intros Hinv Hp Hback Hw Hpos. destruct (policy_plans (e_amount e) Hp) as (parts & Hplan); [lia|].
  specialize (Hw parts). destruct (plan_parts _ _ _ _ _ Hplan) as (Hnd & Hsum & Hparts & _).
  set (ks := remove_dups ((λ o, default "" (op_bucket o)) <$> filter live (operations db))).
  rewrite <- (sum_Z_partition (λ o, default "" (op_bucket o)) _ ks).
  2: { apply NoDup_remove_dups. }
  2: { apply Forall_forall. intros o Ho. apply elem_of_remove_dups. by apply (elem_of_fmap_eq _ o). }
  transitivity (sum_Z ((λ k, part_of k parts) <$> ks)).
  - apply sum_Z_le, Forall_forall. intros k _. etrans; [|by apply Hw]. unfold committed.
    rewrite list_filter_filter. apply Z.eq_le_incl. do 2 f_equal. apply filter_ext_all, Forall_forall.
    intros o Ho. rewrite Forall_forall in Hback. destruct (Hback o Ho) as ([k' E] & _). rewrite E. cbn.
    split; intros [H1 H2]; (split; [|congruence]); congruence.
  - rewrite <- Hsum, <- (sum_Z_partition dist_bucket_id alpha_rao
      (remove_dups (ks ++ (dist_bucket_id <$> parts)))).
    2: apply NoDup_remove_dups.
    2: { apply Forall_forall. intros d Hd. apply elem_of_remove_dups, elem_of_app. right.
         by apply list_elem_of_fmap_2. }
    assert (∀ l l', NoDup l → l ⊆ l' → Forall (λ k, 0 <= part_of k parts) l' →
      sum_Z ((λ k, part_of k parts) <$> l) <= sum_Z ((λ k, part_of k parts) <$> l')) as Hsub.
    { clear. intros l. induction l as [|k l IH]; intros l' Hl Hs Hpos.
      - apply sum_Z_nonneg, Forall_fmap. done.
      - apply NoDup_cons in Hl as [Hk Hl]. csimpl.
        destruct (list_elem_of_split l' k) as (l1 & l2 & ->); [apply Hs; left|].
        rewrite fmap_app, sum_Z_app. csimpl. specialize (IH (l1 ++ l2) Hl).
        rewrite fmap_app, sum_Z_app in IH.
        assert (l ⊆ l1 ++ l2) as Hs'.
        { intros x Hx. assert (x ∈ l1 ++ k :: l2) as Hx' by (apply Hs; by right).
          set_unfold. destruct Hx' as [|[->|]]; [by left|done|by right]. }
        apply Forall_app in Hpos as [Hp1 Hp2]. apply Forall_cons in Hp2 as [_ Hp2].
        specialize (IH Hs' (proj2 (Forall_app _ _ _) (conj Hp1 Hp2))). lia. }
    apply Hsub; [apply NoDup_remove_dups| |].
    + intros k Hk. apply elem_of_remove_dups, elem_of_app. by left.
    + apply Forall_true. intros k. by eapply part_of_nonneg.
Qed.

Lemma legs_total db claims o : spend_inv db → backed claims db o →
  sum_Z ((λ e, taken claims (e_block e) o) <$> earnings db) = op_amount o.
Proof.
  intros Hinv (_ & <- & _ & Hf).
  rewrite <- (sum_Z_partition fst snd (e_block <$> earnings db) (legs claims o)).
  - by rewrite <- list_fmap_compose.
  - apply Hinv.
  - eapply Forall_impl; [exact Hf|]. by intros l [_ ?].
Qed.

(** C12: The collector spends only what it has earned. In every transfer
    journal its operations can produce, whatever the chain adapter answered,
    each transfer is the sum of positive legs drawn on recorded receipts; what is
    paid or still pending from a receipt for a bucket never exceeds that
    bucket's exact share of the receipt; and the total paid or pending never
    exceeds the total earned. *)
Theorem collector_spends_earnings db : check_policy p = Ok tt → reachable p "transfer" db →
  ∃ claims, aggregate_claims db = Ok claims ∧ Forall (backed claims db) (operations db) ∧
    (∀ e parts k, e ∈ earnings db →
       plan_service_distribution (e_amount e) (e_amount e) (collector_coldkey p) (destinations p) = Ok parts →
       committed claims (operations db) (e_block e) k <= part_of k parts) ∧
    sum_Z (op_amount <$> filter live (operations db)) <= sum_Z (e_amount <$> earnings db).
Proof.
  intros Hp Hr. apply reachable_spend_inv in Hr as Hinv.
  pose proof Hinv as [_ _ Hpos _ _ (claims & Hc & Hback & Hwithin)].
  exists claims. rewrite Forall_forall in Hpos, Hwithin. split_and!; [done|done| |].
  { intros e parts k He. by apply Hwithin. }
  transitivity (sum_Z ((λ o, sum_Z ((λ e, taken claims (e_block e) o) <$> earnings db)) <$>
                  filter live (operations db))).
  - apply sum_Z_le, Forall_forall. intros o [_ Ho]%list_elem_of_filter.
    rewrite Forall_forall in Hback. rewrite legs_total; [done|done|by apply Hback].
  - rewrite sum_Z_swap. apply sum_Z_le, Forall_forall. intros e He.
    by apply receipt_bound; [| | |apply Hwithin|apply Hpos].
Qed.
End spending.

#[local] Existing Instance sample_sha.
#[local] Existing Instance sample_verify.

(** A canary of 100 and an intent of 600 from two receipts of 1000. *)
Lemma collector_spends_earnings_witness :
  let db := canary_journal in
  ∃ claims, aggregate_claims db = Ok claims ∧ Forall (backed claims db) (operations db) ∧
    (∀ e parts k, e ∈ earnings db →
       plan_service_distribution (e_amount e) (e_amount e) (collector_coldkey sample_policy)
         (destinations sample_policy) = Ok parts →
       committed claims (operations db) (e_block e) k <= part_of k parts) ∧
    sum_Z (op_amount <$> filter live (operations db)) <= sum_Z (e_amount <$> earnings db).
Proof.
  apply (collector_spends_earnings sample_policy canary_journal);
    [vm_compute; reflexivity|apply transfer_reachable].
Defined.
