(* ===== verification/CollectorDispatch.v ===== *)
(** How the collector's journal grows: recorded rows keep their columns, a
    settled operation is final, at most one operation is pending, the network
    is handed exactly the recorded bytes, and a registration journal stays
    within its lifetime budget. *)
From Stdlib Require Import ZArith Lia.
From stdpp Require Import base list strings sets relations.
From S2P Require Import Prelude PyText ServiceAllocation CollectorPolicy CollectorJournal Collector CollectorFacts CollectorSafety CollectorSpending CollectorSamples.

#[local] Open Scope string_scope.
#[local] Open Scope list_scope.
#[local] Open Scope Z_scope.

(** * Rows only evolve *)

(** What the reservation fixes. *)
Definition fixed_columns (o : Operation) :=
  (op_id o, op_role o, op_amount o, (op_source_block o, op_bucket o, op_destination o),
   op_call o, op_signed o, op_at_block o).

Definition op_evolves (o o' : Operation) : Prop :=
  fixed_columns o' = fixed_columns o ∧ (op_state o ≠ "dispatching" → o' = o).
Definition earning_evolves (e e' : Earning) : Prop :=
  e_block e' = e_block e ∧ e_amount e' = e_amount e.

(** The rows of [l] are still there, in place, up to [R]. *)
Definition keeps {A} (R : A → A → Prop) (l l' : list A) : Prop :=
  ∃ l1 l2, l' = l1 ++ l2 ∧ Forall2 R l l1.

Record extends (db db' : CollectorDb) : Prop := {
  ext_operations : keeps op_evolves (operations db) (operations db');
  ext_earnings : keeps earning_evolves (earnings db) (earnings db');
  ext_events : events db `prefix_of` events db'
}.

Lemma keeps_refl {A} (R : A → A → Prop) `{!Reflexive R} l : keeps R l l.
Proof. exists l, []. rewrite app_nil_r. split; [done|]. reflexivity. Qed.

Lemma keeps_trans {A} (R : A → A → Prop) `{!Transitive R} l1 l2 l3 :
  keeps R l1 l2 → keeps R l2 l3 → keeps R l1 l3.
Proof.
  intros (a & b & -> & H1) (c & d & -> & H2).
  apply Forall2_app_inv_l in H2 as (c1 & c2 & H2 & H3 & ->).
  exists c1, (c2 ++ d). rewrite app_assoc. split; [done|]. etrans; [exact H1|exact H2].
Qed.

Lemma keeps_app {A} (R : A → A → Prop) `{!Reflexive R} l k : keeps R l (l ++ k).
Proof. exists l, k. split; [done|]. reflexivity. Qed.

Lemma keeps_map {A} (R : A → A → Prop) (f : A → A) l : Forall (λ x, R x (f x)) l → keeps R l (map f l).
Proof.
  intros H. exists (map f l), []. rewrite app_nil_r. split; [done|].
  induction H; cbn; by constructor.
Qed.

#[local] Instance op_evolves_refl : Reflexive op_evolves.
Proof. intros o. by split. Qed.
#[local] Instance op_evolves_trans : Transitive op_evolves.
Proof.
  intros a b c [H1 H2] [H3 H4]. split; [congruence|]. intros Ha. specialize (H2 Ha). subst b. auto.
Qed.
#[local] Instance earning_evolves_refl : Reflexive earning_evolves.
Proof. done. Qed.
#[local] Instance earning_evolves_trans : Transitive earning_evolves.
Proof. intros a b c [? ?] [? ?]. split; congruence. Qed.
#[local] Instance extends_refl : Reflexive extends.
Proof. intros db. split; [apply keeps_refl, _..|done]. Qed.
#[local] Instance extends_trans : Transitive extends.
Proof. intros a b c [? ? ?] [? ? ?]. split; [eapply keeps_trans; [apply _|eassumption..]..|transitivity (events b); assumption]. Qed.

Section dispatch.
Context {SH : Sha256} {VS : VerifySignature}.

(** Only the last operation may be pending. *)
Definition last_pending (l : list Operation) : Prop :=
  ∀ i o, l !! i = Some o → op_state o = "dispatching" → S i = length l.

Definition orderly (db : CollectorDb) : Prop :=
  numbered (operations db) ∧ last_pending (operations db).

Lemma orderly_add db o body : orderly db → pending_operation db = None →
  op_id o = last_operation db + 1 → orderly (add_operation db o body).
Proof.
  intros [Hn Hl] Hp Hid. rewrite last_operation_length in Hid by done.
  split; [by apply numbered_snoc|]. intros i q Hi Hq. cbn in *. rewrite length_app. cbn.
  apply lookup_app_Some in Hi as [Hi|[Hle Hi]].
  - apply no_pending in Hp. rewrite Forall_forall in Hp.
    destruct (Hp q); [by eapply list_elem_of_lookup_2|done].
  - apply list_lookup_singleton_Some in Hi as [Hi _]. lia.
Qed.

Lemma extends_log db name body : extends db (log db name body).
Proof. split; [apply keeps_refl, _..|by apply prefix_app_r]. Qed.

(** Updating the pending row is the only update of [operations]. *)
Lemma update_pending db o f : orderly db → pending_operation db = Some o →
  (∀ q, fixed_columns (f q) = fixed_columns q) →
  extends db (update_operation (op_id o) f db) ∧ orderly (update_operation (op_id o) f db).
Proof.
  intros [Hn Hl] Hp Hf. apply find_some in Hp as [Hin%list_elem_of_In Hst].
  apply String.eqb_eq in Hst. split.
  - split; [|apply keeps_refl, _|done]. apply keeps_map, Forall_forall. intros q Hq.
    destruct (Z.eqb_spec (op_id q) (op_id o)) as [E|]; [|done].
    assert (q = o) as -> by by eapply numbered_inj. by split; [apply Hf|].
  - split.
    + apply numbered_map; [done|]. intros q. destruct (_ =? _); [|done].
      specialize (Hf q). unfold fixed_columns in Hf. congruence.
    + intros i q Hi Hq. unfold update_operation in *. cbn in *.
      change (map ?g ?l) with (g <$> l) in *. rewrite list_lookup_fmap in Hi. rewrite length_fmap.
      apply fmap_Some in Hi as (q0 & Hi & ->).
      destruct (Z.eqb_spec (op_id q0) (op_id o)) as [E|]; [|by eapply Hl].
      assert (q0 = o) as ->; [|by eapply Hl].
      eapply numbered_inj; [done| |done|done]. by eapply list_elem_of_lookup_2.
Qed.

Lemma extends_step p db db' : journal_step p db db' → orderly db → extends db db' ∧ orderly db'.
Proof.
  intros Hs Ho. destruct Hs as
    [db name body Hn|db c He _ _ _ _|db c0 c o saved proof row why _ _|db r manual c Ha
    |db manual r body Hm Hr Hl Hid _|db row Hrow Hpos _|db b _|db f Hf|db o st s Hp Hst|db o b Hp
    |db o manual existing draws body [_ Hp _ _ _ (Hid & _) _ _ _]|db o body _ Hp _ _ _ _ Hid];
    try (by split; [apply extends_log|]); try (by apply update_pending).
  - split; [|done]. split; [apply keeps_refl, _|apply keeps_app, _|done].
  - split; [|done]. split; [apply keeps_refl, _..|done].
  - split; [|done]. split; [apply keeps_refl, _| |done]. by apply keeps_map, Forall_true.
  - split; [|by apply orderly_add]. split; [apply keeps_app, _|apply keeps_refl, _|by apply prefix_app_r].
  - split; [|by apply orderly_add]. split; [apply keeps_app, _|apply keeps_refl, _|by apply prefix_app_r].
Qed.

Lemma extends_steps p db db' : steps p db db' → orderly db → extends db db' ∧ orderly db'.
Proof.
  induction 1 as [|a b c Hs _ IH]; intros Ho; [done|].
  apply extends_step in Hs as [H1 H2]; [|done]. destruct (IH H2). split; [by etrans|done].
Qed.

Lemma initial_orderly p role db : initial_journal p role = Ok db → orderly db.
Proof. intros (? & _ & [= <-])%bind_Ok. split; intros i o; cbn; by rewrite lookup_nil. Qed.

Lemma reachable_orderly p role db : reachable p role db → orderly db ∧ pinned p db.
Proof.
  intros Hr. apply (reachable_ind p role orderly) in Hr as (H1 & _ & H2); [done| |].
  - intros. by eapply initial_orderly.
  - intros a b Ha Hs. by apply (extends_step p a b Hs Ha).
Qed.

(** C14: The journal is append-only. Whatever call is made of a reachable
    journal and whatever the chain adapter answers, every operation keeps the
    columns its reservation wrote, an operation that is finalized, failed or
    expired never changes at all, receipts keep their block and amount, events
    are only appended; and at most one operation, the last one, is ever pending. *)
Theorem journal_append_only CC p role db c : reachable p role db →
  extends db (run CC p db c).1 ∧ orderly (run CC p db c).1.
Proof. intros [Ho Hp]%reachable_orderly. eapply extends_steps; [by apply run_steps|done]. Qed.

(** * What reaches the network *)

Definition recorded (db : CollectorDb) : list string := (encoded ∘ op_signed) <$> operations db.

Lemma recorded_update id f db : (∀ o, op_signed (f o) = op_signed o) →
  recorded (update_operation id f db) = recorded db.
Proof.
  intros Hf. unfold recorded, update_operation. cbn. change (map ?g ?l) with (g <$> l).
  rewrite <- list_fmap_compose. apply list_fmap_ext. intros i o _. cbn.
  destruct (_ =? _); cbn; by rewrite ?Hf.
Qed.

(** Calls that leave [operations] alone. *)
Lemma transaction_quiet {A} db (body : result (CollectorDb * A)) :
  (∀ db' a, body = Ok (db', a) → operations db' = operations db) →
  operations (transaction db body).1 = operations db.
Proof. intros H. by apply transaction_fst. Qed.

Section calls.
Context {CC : CollectorChain}.

Lemma record_earning_quiet p db b e db' : _record_earning db p b e = Ok db' →
  operations db' = operations db.
Proof.
  unfold _record_earning. destruct (earning_at b db).
  { by intros (? & _ & [= <-])%bind_Ok. }
  destruct e; [|by intros [= <-]].
  intros (? & _ & (? & _ & [= <-])%bind_Ok)%bind_Ok. done.
Qed.

Lemma scan_quiet p db n m db' : _scan_finalized_earnings db p n m = Ok db' →
  operations db' = operations db.
Proof.
  unfold _scan_finalized_earnings. generalize (z_range (cursor db + 1) (Z.min n (cursor db + m))).
  intros l. revert db. induction l as [|b l IH]; intros db; cbn [fold_result]; [by intros [= <-]|].
  unfold scan_block at 1.
  intros (db1 & (e & _ & (db2 & H2%record_earning_quiet & [= <-])%bind_Ok)%bind_Ok & ->%IH)%bind_Ok.
  done.
Qed.

Lemma transfer_canary_quiet p db role req db' c : transfer_canary db p role req = Ok (db', c) →
  operations db' = operations db.
Proof.
  intros (ex & _ & [(_ & _ & -> & _)|(c0 & m & _ & _ & _ & _ & _ & [(_ & -> & _)|(_ & _ & _ & _ & ->)])])%transfer_canary_Ok;
    done.
Qed.

Lemma leg_quiet p db role manual canary req observed db' s :
  (if String.eqb role "registration" then registration_leg db p observed
   else transfer_leg db p manual canary req observed) = Ok (db', s) → operations db' = operations db.
Proof.
  destruct (String.eqb role "registration").
  { intros [H _]%registration_leg_Ok. cbn in H. by subst. }
  unfold transfer_leg. intros (? & _ & Hleg)%bind_Ok.
  assert (∀ r b, batch_leg db p r b req observed = Ok (db', s) → operations db' = operations db) as Hb.
  { clear. intros r b. unfold batch_leg, stop. case_bool_decide; [by intros [= <- _]|].
    destruct (_ <? _); [by intros [= <- _]|].
    intros (? & _ & (? & _ & (? & _ & Hx)%bind_Ok)%bind_Ok)%bind_Ok.
    destruct (_ <? _); [by injection Hx as <- _|]. by apply bind_Ok in Hx as (? & _ & [= <- _]). }
  assert (∀ i, single_leg db p i canary req observed = Ok (db', s) → operations db' = operations db) as Hs.
  { clear. intros i. unfold single_leg, stop. intros (repl & _ & H)%bind_Ok.
    destruct (match i with Some _ => _ | None => _ end); [by injection H as <- _|].
    destruct (match i with Some _ => _ | None => _ end); [by injection H as <- _|].
    apply bind_Ok in H as ([row|] & _ & H).
    2: { apply bind_Ok in H as (db1 & Hs & [= <- _]). by eapply scan_quiet. }
    destruct (match max_at_block _ with Some _ => _ | None => _ end); [by injection H as <- _|].
    unfold receipt_leg, stop in H. do 6 (apply bind_Ok in H as (? & _ & H)).
    destruct (find _ _); [|by injection H as <- _].
    apply bind_Ok in H as (? & _ & [= <- _]). by destruct canary. }
  destruct (last manual) as [r|]; cbn in Hleg; [destruct (batch r); [by eapply Hb|]|]; by eapply Hs.
Qed.

(** A tick hands out the bytes it has just recorded, or none. *)
Lemma tick_recorded p db role canary req :
  recorded (tick db p role canary req).1.1 = recorded db ++ (tick db p role canary req).1.2.
Proof.
  unfold tick. destruct (negb _); [cbn; by rewrite app_nil_r|].
  destruct (tick_body db p role canary req) as [[db' v]|e] eqn:H; cbn; [|by rewrite app_nil_r].
  unfold tick_body in H. apply bind_Ok in H as (? & _ & H).
  apply bind_Ok in H as ([db1 c] & Hq%transfer_canary_quiet & H).
  apply bind_Ok in H as (manual & _ & H). apply bind_Ok in H as (? & _ & H).
  assert (recorded db1 = recorded db) as Hr by (unfold recorded; by rewrite Hq).
  destruct (match c with Some _ => _ | None => _ end).
  { injection H as <- <-. by rewrite app_nil_r. }
  apply bind_Ok in H as (observed & _ & H).
  destruct (pending_operation db1) as [o|].
  - apply bind_Ok in H as ([db2 out] & Hs & [= <- <-]). rewrite app_nil_r, <- Hr. clear -Hs.
    unfold settle in Hs. apply bind_Ok in Hs as (s & _ & Hs). apply bind_Ok in Hs as (? & _ & Hs).
    destruct (String.eqb _ _).
    + destruct (scanned_through s); [|by injection Hs as <- _].
      do 2 (apply bind_Ok in Hs as (? & _ & Hs)). injection Hs as <- _. by apply recorded_update.
    + destruct (_ && _); [apply bind_Ok in Hs as (? & _ & [= <- _])|injection Hs as <- _];
        by apply recorded_update.
  - apply bind_Ok in H as ([db2 next] & Hleg%leg_quiet & H).
    assert (recorded db2 = recorded db) as Hr2 by (unfold recorded; by rewrite Hleg, Hq).
    destruct next as [out|leg]; [injection H as <- <-; by rewrite app_nil_r|].
    apply reserve_Ok in H as (signed & body & -> & -> & _). rewrite <- Hr2. unfold recorded. cbn.
    by rewrite fmap_app.
Qed.
End calls.

Lemma run_recorded CC p db c : recorded (run CC p db c).1 = recorded db ++ (run CC p db c).2.
Proof.
  assert (∀ db', operations db' = operations db → recorded db' = recorded db ++ []) as Hq.
  { intros db' H. unfold recorded. by rewrite H, app_nil_r. }
  destruct c as [role [c|] req|r record|id why|c why|n|b| |id d]; cbn [run fst snd].
  - destruct (is_ok (check_canary c)); [apply tick_recorded|by apply Hq].
  - apply tick_recorded.
  - destruct (is_ok (check_manual r)); [|by apply Hq]. unfold arm_manual_transfer.
    destruct (_ ≫= _); [|by apply Hq]. apply Hq, transaction_quiet. intros db' s H.
    unfold arm_body in H. do 3 (apply bind_Ok in H as (? & _ & H)).
    destruct (find _ _); [by apply bind_Ok in H as (? & _ & [= <- _])|].
    apply bind_Ok in H as ([db1 c] & Hc%transfer_canary_quiet & H).
    destruct c; [|discriminate]. do 6 (apply bind_Ok in H as (? & _ & H)).
    destruct record; by injection H as <- _.
  - apply Hq. unfold expire_unsigned_manual. destruct (negb _); [done|].
    apply transaction_quiet. intros db' s H. unfold expire_body in H.
    do 2 (apply bind_Ok in H as (? & _ & H)). destruct (last _); [|discriminate].
    apply bind_Ok in H as (? & _ & H). destruct (find _ _); [|discriminate].
    do 5 (apply bind_Ok in H as (? & _ & H)). by injection H as <- _.
  - destruct (is_ok (check_canary c)); [|by apply Hq]. apply Hq. unfold replace_failed_canary.
    destruct (negb _); [done|]. apply transaction_quiet. intros db' s H. unfold replace_body in H.
    do 3 (apply bind_Ok in H as (? & _ & H)).
    apply bind_Ok in H as ([db1 c1] & Hc%transfer_canary_quiet & H).
    apply bind_Ok in H as (? & _ & H). destruct (operation_by_id _ _); [|discriminate].
    do 2 (apply bind_Ok in H as (? & _ & H)). destruct (op_settlement _); [|discriminate].
    apply bind_Ok in H as (? & _ & H). destruct (_ ≫= _); [|discriminate].
    do 3 (apply bind_Ok in H as (? & _ & H)). by injection H as <- _.
  - apply Hq. unfold observe_earnings. destruct (negb _); [done|]. destruct (negb _); [done|].
    apply transaction_quiet. intros db' s (? & _ & H)%bind_Ok.
    apply bind_Ok in H as (? & _ & H). apply bind_Ok in H as (? & Hs & [= <- _]).
    by eapply scan_quiet.
  - apply Hq. unfold observe_earning_source. apply transaction_quiet.
    intros db' s (? & _ & H)%bind_Ok. destruct active_approval; [|discriminate].
    do 5 (apply bind_Ok in H as (? & _ & H)). apply bind_Ok in H as (db1 & Hr & [= <- _]).
    apply record_earning_quiet in Hr; exact Hr.
  - apply Hq. by rewrite readiness_steps.
  - by apply Hq.
Qed.

(** Everything a history handed to the network, in order. *)
Fixpoint sent (p : CollectorPolicy) (db : CollectorDb) (l : list (CollectorChain * Call)) : list string :=
  match l with
  | [] => []
  | (CC, c) :: l' => (run CC p db c).2 ++ sent p (run CC p db c).1 l'
  end.

(** C13: The network is handed exactly what the journal records. For every
    sequence of calls on a journal, whatever the chain adapter answers and whether
    or not a broadcast fails, the bytes handed out are the signed bytes of the
    operations recorded meanwhile, each once and in the order of their rows: an
    exception, a pending operation or a repeated call never sends anything. *)
Theorem broadcasts_are_recorded p db l : recorded (run_all p db l) = recorded db ++ sent p db l.
Proof.
  revert db. induction l as [|[CC c] l IH]; intros db; cbn [run_all sent]; [by rewrite app_nil_r|].
  by rewrite IH, run_recorded, app_assoc.
Qed.

(** * The type of a journal *)

(** What the columns of an operation of a [role]'s journal hold. *)
Record typed_operation (p : CollectorPolicy) (role : string) (o : Operation) : Prop := {
  typed_role : op_role o = role;
  typed_state : op_state o ∈ ["dispatching"; "finalized"; "failed"; "expired"];
  typed_settlement : match op_settlement o with
    | None => op_state o = "dispatching"
    | Some s => op_state o = status s ∧ op_state o ≠ "dispatching" end;
  typed_leg : if String.eqb role "registration"
    then op_bucket o = None ∧ op_destination o = None ∧ op_source_block o = None
    else is_Some (op_bucket o) ∧ is_Some (op_destination o) ∧ is_Some (op_source_block o);
  typed_call : call_of p o;
  typed_fee : 0 <= fee_rao (op_signed o) <= max_fee_rao p;
  typed_mortality : signed_start (op_signed o) = op_at_block o ∧
    op_at_block o < signed_expires (op_signed o) <= op_at_block o + 128;
  typed_stored : stored_int (op_amount o) ∧ stored_int (op_at_block o)
}.

Record well_typed (p : CollectorPolicy) (role : string) (db : CollectorDb) : Prop := {
  typed_pin : pin db = Some (digest p, role);
  typed_cursor : start_block p <= cursor db + 1;
  typed_operations : Forall (typed_operation p role) (operations db);
  typed_earnings : Forall (λ e, start_block p <= e_block e ∧ 0 < e_amount e < 2 ^ 63) (earnings db)
}.

Lemma typed_reserved p role o : reserved_row p o → op_role o = role → op_state o = "dispatching" →
  (if String.eqb role "registration"
    then op_bucket o = None ∧ op_destination o = None ∧ op_source_block o = None
    else is_Some (op_bucket o) ∧ is_Some (op_destination o) ∧ is_Some (op_source_block o)) →
  typed_operation p role o.
Proof.
  intros [H1 H2 H3 H4 H5] Hr Hs Hleg. split; try done.
  - rewrite Hs. left.
  - by rewrite H1.
Qed.

Lemma typed_update p role db id f : (∀ o, op_id o = id → o ∈ operations db →
    typed_operation p role o → typed_operation p role (f o)) →
  Forall (typed_operation p role) (operations db) →
  Forall (typed_operation p role) (operations (update_operation id f db)).
Proof.
  intros Hf Hall. cbn. rewrite Forall_forall in *. intros o Ho.
  change (map ?g ?l) with (g <$> l) in Ho. apply list_elem_of_fmap in Ho as (q & -> & Hq).
  destruct (Z.eqb_spec (op_id q) id); [|by apply Hall]. apply Hf; auto.
Qed.

Lemma typed_columns p role o o' : fixed_columns o' = fixed_columns o → typed_operation p role o →
  op_state o' ∈ ["dispatching"; "finalized"; "failed"; "expired"] →
  match op_settlement o' with
    | None => op_state o' = "dispatching"
    | Some s => op_state o' = status s ∧ op_state o' ≠ "dispatching" end →
  typed_operation p role o'.
Proof.
  intros E [H1 H2 H3 H4 H5 H6 H7 H8] Hs Hx. unfold fixed_columns in E.
  injection E as E1 E2 E3 E4 E5 E6 E7 E8 E9.
  split; try done; unfold call_of; rewrite ?E2, ?E3, ?E4, ?E5, ?E6, ?E7, ?E8, ?E9; done.
Qed.

Lemma well_typed_step p role a b : well_typed p role a → journal_step p a b → well_typed p role b.
Proof.
  intros [Hpin Hcur Hops He] Hs. pose proof (step_pin _ _ _ Hs) as Hpin'.
  split; [by rewrite Hpin'|by destruct Hs| |].
  - destruct Hs as
      [db name body Hn|db c _ _ _ _ _|db c0 c o saved proof row why _ _|db r manual c Ha
      |db manual r body Hm Hr Hl Hid _|db row Hrow Hpos _|db b _|db f Hf|db o st s Hp Hst Es|db o b Hp
      |db o manual existing draws body [Hpin1 _ _ _ _ (_ & Hst & Hrole & Hrow) Hreq (k & dest & Hk & Hdest & _) _]
      |db o body Hpin1 _ Hrole Hst _ _ _ Hrow Hleg]; try exact Hops.
    + apply typed_update; [|done]. intros q _ _ Hq. apply (typed_columns p role q); [done|done| |].
      * cbn. set_solver.
      * cbn. split; [done|]. intros ->. set_solver.
    + apply typed_update; [|done]. intros q _ _ Hq. apply (typed_columns p role q); [done|done| |];
        apply Hq.
    + rewrite Hpin1 in Hpin. injection Hpin as <-. cbn. apply Forall_app. split; [done|].
      apply Forall_singleton, typed_reserved; [done..|]. cbn.
      rewrite Hk, Hdest. split_and!; [done..|].
      destruct (last manual); [by destruct Hreq as (_ & -> & _)|by destruct Hreq as ((b & -> & _) & _)].
    + rewrite Hpin1 in Hpin. injection Hpin as <-. cbn. apply Forall_app. split; [done|].
      by apply Forall_singleton, typed_reserved.
  - destruct Hs; try exact He; cbn.
    + apply Forall_app. split; [done|]. by apply Forall_singleton.
    + apply Forall_fmap. eapply Forall_impl; [exact He|]. intros e. cbn.
      match goal with H : ∀ e, e_block _ = _ ∧ _ |- _ => by destruct (H e) as [-> ->] end.
Qed.

(** C17: every journal is well typed. Whatever is called and whatever the chain
    adapter answers, the journal of a signer only ever holds operations of that
    signer's role, in one of the four states, with a settlement exactly when they
    are no longer pending and then of that status; the leg columns are filled in
    for transfers and null for registrations; the recorded call is the one the
    columns describe; the fee, the 128-block mortality and SQLite's integer range
    hold of every row; and receipts are positive, bounded and not before the
    policy's start. *)
Theorem journal_well_typed p role db : reachable p role db → well_typed p role db.
Proof.
  intros Hr. apply (reachable_ind p role (well_typed p role)) in Hr as [H _]; [done| |].
  - intros db0 (? & _ & [= <-])%bind_Ok. split; [done|cbn; lia|constructor|constructor].
  - intros a b. apply well_typed_step.
Qed.

(** * The registration budget *)

Definition registration_cost (p : CollectorPolicy) : Z := max_registration_burn_rao p + max_fee_rao p.

Definition within_budget (p : CollectorPolicy) (db : CollectorDb) : Prop :=
  pin db = Some (digest p, "registration") ∧
  Forall (λ o, op_role o = "registration" ∧ op_amount o = registration_cost p) (operations db) ∧
  (operations db ≠ [] → sum_Z (op_amount <$> operations db) <= registration_budget_rao p).

Lemma within_budget_update p db o f : within_budget p db →
  (∀ q, fixed_columns (f q) = fixed_columns q) → within_budget p (update_operation (op_id o) f db).
Proof.
  intros (H1 & H2 & H3) Hf. unfold within_budget, update_operation. cbn.
  set (g := λ q, if op_id q =? op_id o then f q else q).
  assert (∀ q, op_role (g q) = op_role q ∧ op_amount (g q) = op_amount q) as Hg.
  { intros q. unfold g. destruct (_ =? _); [|done]. specialize (Hf q). unfold fixed_columns in Hf.
    split; congruence. }
  change (map _ _) with (g <$> operations db). split_and!; [done| |].
  - apply Forall_fmap. eapply Forall_impl; [exact H2|]. intros q. cbn. destruct (Hg q) as [-> ->]. done.
  - rewrite <- list_fmap_compose.
    rewrite (list_fmap_ext (op_amount ∘ g) op_amount (operations db)) by (intros i q _; apply Hg).
    intros Hne. apply H3. intros E. apply Hne. by rewrite E.
Qed.

Lemma within_budget_step p a b : within_budget p a → journal_step p a b → within_budget p b.
Proof.
  intros Hw Hs. destruct Hs as
    [db name body Hn|db c He _ _ _ _|db c0 c o saved proof row why _ _|db r manual c Ha
    |db manual r body Hm Hr Hl Hid _|db row Hrow Hpos _|db b _|db f Hf|db o st s Hp Hst|db o b Hp
    |db o manual existing draws body [Hpin _ _ _ _ _ _ _ _]|db o body _ Hp Hrole _ Ha Hb Hid];
    try exact Hw; try (by apply within_budget_update).
  - destruct Hw as (Hpin' & _). congruence.
  - destruct Hw as (Hpin & Hall & Hsum). split_and!; [done| |]; cbn.
    + apply Forall_app. split; [done|]. by apply Forall_singleton.
    + intros _. rewrite fmap_app, sum_Z_app. cbn. lia.
Qed.

(** The lifetime registration budget bounds everything. In every
    registration journal the collector's calls can produce, each attempt (failed
    and expired ones included) reserves the full burn ceiling and fee, and the
    attempts together never exceed the signed budget; so their number is at most
    the budget divided by that cost. *)
Lemma registration_budget_bounds p db : check_policy p = Ok tt → reachable p "registration" db →
  Forall (λ o, op_role o = "registration" ∧ op_amount o = registration_cost p) (operations db) ∧
  sum_Z (op_amount <$> operations db) <= registration_budget_rao p ∧
  Z.of_nat (length (operations db)) <= registration_budget_rao p / registration_cost p.
Proof.
  intros Hp Hr. apply (reachable_ind p "registration" (within_budget p)) in Hr as [(_ & Hall & Hsum) _].
  2: { intros db0 (? & _ & [= <-])%bind_Ok. by split_and!. }
  2: { intros a b. by apply within_budget_step. }
  assert (0 < max_registration_burn_rao p ∧ 0 < registration_budget_rao p ∧ 0 < max_fee_rao p) as (H1 & H2 & H3).
  { unfold check_policy in Hp. do 4 (apply bind_Ok in Hp as (? & _ & Hp)).
    apply bind_Ok in Hp as (? & Hi%require_Ok & _). unfold policy_integers, positive_bounded in Hi.
    cbn [forallb] in Hi. to_prop. done. }
  assert (sum_Z (op_amount <$> operations db) <= registration_budget_rao p) as Hle.
  { destruct (operations db); [cbn; lia|]. by apply Hsum. }
  split_and!; [done|done|]. apply Z.div_le_lower_bound; [unfold registration_cost; lia|].
  etrans; [|exact Hle]. clear Hsum Hle. induction Hall as [|o l [_ Ho] _ IH]; [cbn; lia|].
  rewrite fmap_cons. cbn [length sum_Z]. rewrite Ho, Nat2Z.inj_succ. lia.
Qed.
End dispatch.

#[local] Existing Instance sample_sha.
#[local] Existing Instance sample_verify.

Lemma journal_append_only_witness :
  extends canary_journal (run (sample_chain 140 (Some 7) "finalized") sample_policy canary_journal
                            (Tick "transfer" None None)).1 ∧
  orderly (run (sample_chain 140 (Some 7) "finalized") sample_policy canary_journal
             (Tick "transfer" None None)).1.
Proof. apply (journal_append_only _ sample_policy "transfer"), transfer_reachable. Defined.

Lemma journal_well_typed_witness : well_typed sample_policy "transfer" canary_journal.
Proof. apply journal_well_typed, transfer_reachable. Defined.

(** Two attempts, the first of which expired. *)
Definition registrations : list (CollectorChain * Call) :=
  [(sample_chain 120 None "pending", Tick "registration" None None);
   (sample_chain 125 None "expired", Tick "registration" None None);
   (sample_chain 130 None "pending", Tick "registration" None None)].
Definition registration_journal : CollectorDb :=
  run_all sample_policy (fresh "registration") registrations.

Example registration_journal_operations :
  (λ o, (op_id o, op_state o, op_amount o)) <$> operations registration_journal =
  [(1, "expired", 510); (2, "dispatching", 510)].
Proof. vm_compute. reflexivity. Qed.

Lemma registration_budget_bounds_witness :
  let db := registration_journal in
  Forall (λ o, op_role o = "registration" ∧ op_amount o = registration_cost sample_policy) (operations db) ∧
  sum_Z (op_amount <$> operations db) <= 1200 ∧ Z.of_nat (length (operations db)) <= 1200 / 510.
Proof.
  apply (registration_budget_bounds sample_policy registration_journal);
    [vm_compute; reflexivity|apply registration_reachable].
Defined.
