(* ===== verification/CollectorHistory.v ===== *)
(** The collector's history read back: every journal its operations write
    passes the consistency checks that [transfer_canary] and
    [manual_transfer_history] make before each further operation, unless an
    operator replaced the failed claim of a manual intent, which freezes it. *)
From Stdlib Require Import ZArith Lia Ascii.
From stdpp Require Import base list strings sorting relations.
From S2P Require Import Prelude PyText ServiceAllocation CollectorPolicy CollectorJournal Collector CollectorFacts CollectorSafety CollectorSpending CollectorDispatch CollectorSamples.

#[local] Open Scope string_scope.
#[local] Open Scope list_scope.
#[local] Open Scope Z_scope.

(** * Stripping twice *)

Definition trimmed (s : string) : Prop :=
  match s with EmptyString => True | String c _ => is_space (code c) = false end.

Lemma lstrip_trimmed s : trimmed (lstrip s).
Proof. induction s as [|c s IH]; cbn; [done|]. by destruct (is_space (code c)) eqn:E. Qed.
Lemma trimmed_lstrip s : trimmed s → lstrip s = s.
Proof. destruct s as [|c s]; [done|]. cbn. by intros ->. Qed.
Lemma lstrip_suffix s : ∃ w, s = w +:+ lstrip s.
Proof.
  induction s as [|c s [w IH]]; [by exists ""|]. cbn. destruct (is_space (code c)).
  - exists (String c w). exact (f_equal (String c) IH).
  - by exists "".
Qed.

Lemma rev_app_l a b acc : String.rev_app (a +:+ b) acc = String.rev_app b (String.rev_app a acc).
Proof. revert acc. induction a as [|c a IH]; intros acc; [done|]. cbn. apply IH. Qed.
Lemma rev_app_r s acc x : String.rev_app s (acc +:+ x) = String.rev_app s acc +:+ x.
Proof.
  revert acc. induction s as [|c s IH]; intros acc; [done|]. cbn.
  change (String c (acc +:+ x)) with (String c acc +:+ x). apply IH.
Qed.
Lemma rev_rev_app a b : String.rev (String.rev_app a b) = String.rev_app b a.
Proof. unfold String.rev. revert b. induction a as [|c a IH]; intros b; [done|]. cbn. by rewrite IH. Qed.
Lemma rev_rev s : String.rev (String.rev s) = s.
Proof. apply rev_rev_app. Qed.

Lemma stripped_length_strip s : stripped_length (strip s) = stripped_length s.
Proof.
  unfold strip, stripped_length. set (t := lstrip (String.rev (lstrip s))).
  assert (trimmed (String.rev t)) as Ht.
  { destruct (lstrip_suffix (String.rev (lstrip s))) as (w & Hw). fold t in Hw.
    apply (f_equal String.rev) in Hw. rewrite rev_rev in Hw. unfold String.rev at 1 in Hw.
    rewrite rev_app_l in Hw. change (String.rev_app w "") with ("" +:+ String.rev w) in Hw.
    rewrite rev_app_r in Hw. change (String.rev_app t "") with (String.rev t) in Hw.
    pose proof (lstrip_trimmed s) as Hs. rewrite Hw in Hs. by destruct (String.rev t). }
  rewrite (trimmed_lstrip (String.rev t)) by done. rewrite rev_rev.
  by rewrite (trimmed_lstrip t) by apply lstrip_trimmed.
Qed.

(** * Event identifiers *)

Definition event_numbered (l : list Event) : Prop := ∀ i e, l !! i = Some e → event_id e = Z.of_nat i + 1.

Lemma max_id_app_one l x : max_id (l ++ [x]) = Z.max (max_id l) (Z.max x 0).
Proof. rewrite max_id_app. cbn. lia. Qed.

Lemma event_numbered_max l : event_numbered l → max_id (event_id <$> l) = Z.of_nat (length l).
Proof.
  induction l as [|e l IH] using rev_ind; intros Hn; [done|].
  rewrite fmap_app, max_id_app, IH, length_app.
  - specialize (Hn (length l) e (list_lookup_middle l [] e _ eq_refl)). cbn in Hn |- *. lia.
  - intros i q Hq. apply Hn. by apply lookup_app_l_Some.
Qed.

Lemma event_numbered_le l e : event_numbered l → e ∈ l → 1 <= event_id e <= max_id (event_id <$> l).
Proof.
  intros Hn He. rewrite event_numbered_max by done. apply list_elem_of_lookup in He as [i Hi].
  rewrite (Hn i e Hi). apply lookup_lt_Some in Hi. lia.
Qed.

Lemma events_named_in name db e : e ∈ events_named name db → e ∈ events db ∧ event e = name.
Proof. intros [H ?]%list_elem_of_filter. by apply String.eqb_eq in H. Qed.

Section history.
Context {SH : Sha256} {VS : VerifySignature} (p : CollectorPolicy).

Lemma log_numbered db name body : event_numbered (events db) → event_numbered (events (log db name body)).
Proof.
  intros Hn i e Hi. cbn in Hi. apply lookup_app_Some in Hi as [Hi|[Hle Hi]]; [by apply Hn|].
  apply list_lookup_singleton_Some in Hi as [Hi <-]. cbn. rewrite event_numbered_max by done. lia.
Qed.

Lemma step_numbered db db' : journal_step p db db' → event_numbered (events db) → event_numbered (events db').
Proof. destruct 1; intros Hn; try exact Hn; by apply log_numbered. Qed.

(** * The claims of the intents *)

(** What [check_claims] demands of the intent [r], followed by [rest]. *)
Definition claim_ok (db : CollectorDb) (r : ManualTransfer) (rest : list ManualTransfer) : Prop :=
  let bound := match rest with next :: _ => after_operation next | [] => 2 ^ 63 - 1 end in
  let claims := operations_between (after_operation r) bound db in
  (length claims <= 1)%nat ∧ forallb (claim_matches p r) claims = true ∧
  (rest ≠ [] → ∃ c, claims = [c] ∧ op_state c = "finalized").

Lemma check_claims_spec db l : check_claims db p l = Ok tt ↔
  ∀ l1 r rest, l = l1 ++ r :: rest → claim_ok db r rest.
Proof.
  induction l as [|r rest IH]; cbn [check_claims].
  { split; [|done]. intros _ [|? ?] ? ? E; discriminate. }
  split.
  - intros (? & H1%require_Ok & H)%bind_Ok. apply bind_Ok in H as (? & H2%require_Ok & H3).
    intros [|r0 l1] q rest0 [= <- E].
    + subst rest0. apply andb_true_iff in H1 as [H1 H1']. apply Nat.leb_le in H1.
      unfold claim_ok. split_and!; [done|done|]. intros Hne. destruct rest; [done|].
      destruct (operations_between _ _ db) as [|c [|]]; [discriminate| |discriminate].
      exists c. split; [done|]. by apply String.eqb_eq.
    + by eapply IH.
  - intros H. destruct (H [] r rest eq_refl) as (H1 & H2 & H3). cbv zeta in *.
    rewrite (require_true (match rest with [] => true | _ => _ end)).
    2: { destruct rest; [done|]. destruct H3 as (c & -> & ->); done. }
    rewrite require_true by (rewrite andb_true_iff, Nat.leb_le; done). cbn [mbind result_bind].
    apply IH. intros l1 q rest0 ->. by apply (H (r :: l1)).
Qed.

Lemma operations_between_ext lo hi db db' : operations db' = operations db →
  operations_between lo hi db' = operations_between lo hi db.
Proof. unfold operations_between. by intros ->. Qed.

Lemma claim_ok_ext db db' r rest : operations db' = operations db → claim_ok db r rest → claim_ok db' r rest.
Proof. intros E. unfold claim_ok. by rewrite (operations_between_ext _ _ db db'). Qed.

(** ** Settling the pending operation *)

Lemma operations_between_update lo hi db id f : (∀ q, fixed_columns (f q) = fixed_columns q) →
  operations_between lo hi (update_operation id f db) =
  (λ q, if op_id q =? id then f q else q) <$> operations_between lo hi db.
Proof.
  intros Hf. unfold operations_between, update_operation. cbn. change (map ?g ?l) with (g <$> l).
  induction (operations db) as [|o l IH]; [done|]. csimpl. rewrite !filter_cons.
  assert (op_id (if op_id o =? id then f o else o) = op_id o) as ->.
  { destruct (_ =? _); [|done]. specialize (Hf o). unfold fixed_columns in Hf. congruence. }
  destruct (decide _); [csimpl; by rewrite IH|done].
Qed.

Lemma claim_matches_fixed r o o' : fixed_columns o' = fixed_columns o →
  claim_matches p r o' = claim_matches p r o.
Proof. unfold fixed_columns, claim_matches. intros [= _ -> -> -> -> -> _ _ _]. done. Qed.

Lemma claim_ok_update db o f r rest : orderly db → pending_operation db = Some o →
  (∀ q, fixed_columns (f q) = fixed_columns q) →
  claim_ok db r rest → claim_ok (update_operation (op_id o) f db) r rest.
Proof.
  intros [Hn _] Hp Hf. unfold claim_ok. rewrite operations_between_update by done.
  set (claims := operations_between _ _ db). intros (H1 & H2 & H3). rewrite length_fmap.
  split_and!; [done| |].
  - rewrite forallb_forall in *. intros q Hq. apply list_elem_of_In, list_elem_of_fmap in Hq as (q0 & -> & Hq).
    apply list_elem_of_In, H2 in Hq. destruct (_ =? _); [by erewrite claim_matches_fixed|done].
  - intros Hne. destruct (H3 Hne) as (c & E & Hc). exists c. split; [|done]. rewrite E. csimpl.
    destruct (Z.eqb_spec (op_id c) (op_id o)) as [Eid|]; [|done].
    assert (c ∈ operations db) as Hin.
    { assert (c ∈ claims) as Hc' by (rewrite E; left). by apply list_elem_of_filter in Hc' as [_ ?]. }
    apply find_some in Hp as [Ho%list_elem_of_In Hst]. apply String.eqb_eq in Hst.
    assert (c = o) as -> by by eapply numbered_inj. congruence.
Qed.

(** * Reading the intents *)

(** A row this policy's collector armed. *)
Definition armed_row (e : Event) : Prop :=
  ∃ r, payload e = JObj (armed_body p r) ∧ check_manual r = Ok tt.

Lemma armed_row_policy e : armed_row e →
  is_obj (payload e) = true ∧ as_str (lookup_key "policy" (payload e)) = Some (digest p).
Proof. by intros (r & -> & _). Qed.

Definition first_state (d : list (string * (Json * Z))) : HistoryState :=
  {| ids := []; previous := 0; previous_expired := false; closed_before := 0; expired := d; requests := [] |}.

Definition own_limits : list (string * option Z) := [(digest p, None)].

Definition reads (db : CollectorDb) (manual : list ManualTransfer) : Prop :=
  ∃ d st, fold_result expired_entry [] (events_named "manual_unsigned_expired" db) = Ok d ∧
    fold_result (history_step db p own_limits) (first_state d) (events_named "manual_transfer_armed" db) = Ok st ∧
    expired st = [] ∧ requests st = manual ∧
    ∀ l1 r rest, manual = l1 ++ r :: rest → claim_ok db r rest.

Lemma reads_history db manual :
  Z.of_nat (length (events_named "manual_transfer_armed" db)) <= 100000 →
  Forall armed_row (events_named "manual_transfer_armed" db) →
  manual_transfer_history db p = Ok manual ↔ reads db manual.
Proof.
  intros Hlen Hrows. unfold manual_transfer_history, reads.
  set (rows := events_named "manual_transfer_armed" db) in *.
  rewrite (require_true (_ <=? 100000)) by by apply Z.leb_le.
  rewrite (require_true (forallb _ rows)).
  2: { apply forallb_forall. intros e He%list_elem_of_In. rewrite Forall_forall in Hrows.
       by apply armed_row_policy, Hrows. }
  replace (existsb _ rows) with false.
  2: { symmetry. apply not_true_iff_false. intros (e & He%list_elem_of_In & Hb)%existsb_exists.
       rewrite Forall_forall in Hrows. apply Hrows, armed_row_policy in He as [_ He].
       by rewrite bool_decide_eq_true_2 in Hb. }
  cbn [mbind result_bind]. split.
  - intros (d & Hd & H)%bind_Ok. apply bind_Ok in H as (st & Hst & H).
    apply bind_Ok in H as (? & He%require_Ok & H). apply bind_Ok in H as ([] & Hc & [= <-]).
    apply bool_decide_eq_true in He. exists d, st. split_and!; try done. by apply check_claims_spec.
  - intros (d & st & -> & Hst & He & <- & Hc). cbn [mbind result_bind]. fold own_limits.
    unfold first_state in Hst. rewrite Hst. cbn [mbind result_bind].
    rewrite require_true by by rewrite He. cbn [mbind result_bind].
    apply check_claims_spec in Hc. by rewrite Hc.
Qed.

(** ** The reading depends on few events *)

Lemma history_step_reserved db db' limits st row :
  (∀ kv, kv ∈ expired st → ∀ lo, reserved_between lo kv.2.2 db' = reserved_between lo kv.2.2 db) →
  history_step db' p limits st row = history_step db p limits st row.
Proof.
  intros H. unfold history_step.
  repeat (match goal with |- (?m ≫= _) = (?m ≫= _) => destruct m; cbn [mbind result_bind]; [|done] end).
  destruct (dict_get _ (expired st)) as [[closure at_]|] eqn:E; [|done].
  apply dict_get_Some_elem in E. unfold closure_matches. by rewrite (H _ E).
Qed.

Lemma history_fold_reserved db db' limits rows st :
  (∀ kv, kv ∈ expired st → ∀ lo, reserved_between lo kv.2.2 db' = reserved_between lo kv.2.2 db) →
  fold_result (history_step db' p limits) st rows = fold_result (history_step db p limits) st rows.
Proof.
  revert st. induction rows as [|row rows IH]; intros st H; cbn [fold_result]; [done|].
  rewrite (history_step_reserved db db') by done.
  destruct (history_step db p limits st row) as [st'|] eqn:E; cbn [mbind result_bind]; [|done].
  apply IH. apply history_step_Ok in E as (r & d & _ & _ & _ & _ & _ & _ & _ & _ & _ & E).
  intros kv Hkv. apply H.
  destruct E as [(_ & _ & E & _)|(c & a & _ & _ & _ & _ & E & _)]; rewrite E in Hkv; [done|].
  by apply list_elem_of_filter in Hkv as [_ ?].
Qed.

Lemma reserved_named db db' lo hi :
  events_named "dispatch_reserved" db' = events_named "dispatch_reserved" db →
  reserved_between lo hi db' = reserved_between lo hi db.
Proof. unfold reserved_between. by intros ->. Qed.

(** Closures carry the identifiers of their rows. *)
Lemma expired_fold_rows rows d d' : fold_result expired_entry d rows = Ok d' →
  ∀ kv, kv ∈ d' → kv ∈ d ∨ ∃ e, e ∈ rows ∧ kv.2.2 = event_id e.
Proof.
  revert d. induction rows as [|e rows IH]; intros d; cbn [fold_result]; [intros [= <-]; auto|].
  intros (d1 & H & Hf)%bind_Ok kv Hkv. apply (IH _ Hf) in Hkv as [Hkv|(e' & He' & E)].
  2: { right. exists e'. split; [by right|done]. }
  unfold expired_entry in H.
  repeat match type of H with match ?x with _ => _ end = _ => destruct x; [|discriminate H] end.
  apply bind_Ok in H as (? & Hk%require_Ok & [= <-]). to_prop.
  rewrite dict_set_fresh in Hkv by done. apply elem_of_app in Hkv as [|Hkv]; [by left|].
  apply list_elem_of_singleton in Hkv as ->. right. exists e. split; [by left|done].
Qed.

(** A new reservation is later than every closure. *)
Lemma reads_add db o body manual :
  event_numbered (events db) → reads db manual →
  (∀ l1 r rest, manual = l1 ++ r :: rest → claim_ok (add_operation db o body) r rest) →
  reads (add_operation db o body) manual.
Proof.
  intros Hn (d & st & Hd & Hst & He & Hm & _) Hc. exists d, st.
  unfold add_operation. rewrite !events_named_other by done.
  change (events_named ?n (with_operations db ?l)) with (events_named n db).
  split_and!; try done. rewrite <- Hst. apply history_fold_reserved. intros kv Hkv lo.
  unfold reserved_between. rewrite events_armed_log, existsb_app.
  change (events_named ?n (with_operations db ?l)) with (events_named n db).
  replace (existsb _ [_]) with false; [by rewrite orb_false_r|]. symmetry. cbn.
  rewrite orb_false_r. apply andb_false_iff. right. apply Z.ltb_ge.
  destruct (expired_fold_rows _ _ _ Hd kv Hkv) as [Hin|(e & [Hin _]%events_named_in & ->)].
  { by apply elem_of_nil in Hin. }
  pose proof (event_numbered_le _ _ Hn Hin). unfold max_id in *. cbn in *. lia.
Qed.

(** Other changes that leave the three kinds of event alone. *)
Lemma reads_frame db db' manual :
  (∀ n, n ∈ ["manual_transfer_armed"; "manual_unsigned_expired"; "dispatch_reserved"] →
        events_named n db' = events_named n db) →
  (∀ r rest, claim_ok db r rest → claim_ok db' r rest) →
  reads db manual → reads db' manual.
Proof.
  intros He Hc (d & st & Hd & Hst & Hx & Hm & Hcl). exists d, st. rewrite !He by set_solver.
  split_and!; try done.
  - rewrite <- Hst. apply history_fold_reserved. intros kv _ lo. apply reserved_named, He. set_solver.
  - intros l1 r rest E. by apply Hc, (Hcl l1).
Qed.

(** ** Arming one more intent *)

(** What the reading of the rows of [all] leaves, all identifiers of events
    being below [n] and all operations up to [m]. *)
Record tidy (n m : Z) (keys : list string) (st : HistoryState) : Prop := {
  tidy_closed : closed_before st < n;
  tidy_expired : Forall (λ kv, kv.2.2 < n) (expired st);
  tidy_previous : previous st <= m;
  tidy_last : previous_expired st = false →
    requests st = [] ∧ previous st = 0 ∨
    ∃ r, last (requests st) = Some r ∧ previous st = after_operation r;
  tidy_ids : ids st ⊆ keys
}.

Lemma history_fold_tidy db limits n m keys rows st st' :
  fold_result (history_step db p limits) st rows = Ok st' → tidy n m keys st →
  Forall (λ e, ∀ r, decodes e r → after_operation r <= m ∧ request_id r ∈ keys) rows →
  tidy n m keys st'.
Proof.
  revert st. induction rows as [|row rows IH]; intros st; cbn [fold_result]; [by intros [= <-]|].
  intros (st1 & (r & d & Hr & _ & _ & _ & _ & _ & _ & Hids & Hprev & Hcase)%history_step_Ok & H)%bind_Ok
    [T1 T2 T3 T4 T5] [Hrow Hrows]%Forall_cons.
  destruct (Hrow r Hr) as [Hm Hk]. apply (IH _ H); [|done].
  assert (ids st1 ⊆ keys) as Hsub by (rewrite Hids; set_solver).
  destruct Hcase as [(_ & _ & E2 & E3 & E4)|(c & a & Hget & _ & E1 & E2 & E3 & E4)];
    split; rewrite ?E2, ?E3, ?E4, ?Hprev; try done.
  - intros _. right. exists r. by rewrite last_snoc.
  - apply dict_get_Some_elem in Hget. rewrite Forall_forall in T2. by apply (T2 _ Hget).
  - apply Forall_forall. intros kv [_ Hkv]%list_elem_of_filter. rewrite Forall_forall in T2. by apply T2.
  - rewrite E1. discriminate.
Qed.

Lemma without_policy_armed r : without_policy (JObj (armed_body p r)) = JObj (manual_dict r).
Proof. by destruct r as [? ? ? ? ? ? ? ? [[l a]|]]. Qed.

Lemma armed_row_decodes e r : payload e = JObj (armed_body p r) → check_manual r = Ok tt → decodes e r.
Proof. intros E Hc. unfold decodes. rewrite E, without_policy_armed. by apply decode_manual_dict. Qed.

(** The new row is accepted. *)
Lemma history_step_armed db st e r :
  payload e = JObj (armed_body p r) → check_manual r = Ok tt → intent_ok p (digest p) r →
  closed_before st < event_id e → request_id r ∉ ids st → previous st <= after_operation r →
  (previous_expired st = false → previous st < after_operation r) → expired st = [] →
  ∃ st', history_step db p own_limits st e = Ok st' ∧ expired st' = [] ∧ requests st' = requests st ++ [r].
Proof.
  intros He Hc [(m & Hm & Hle) Hb Hs] Hclosed Hid Hprev Hlt Hx.
  exists {| ids := request_id r :: ids st; previous := after_operation r; previous_expired := false;
            closed_before := closed_before st; expired := expired st; requests := requests st ++ [r] |}.
  split; [|done]. unfold history_step. rewrite (require_true (_ <? _)) by by apply Z.ltb_lt.
  rewrite He, without_policy_armed, decode_manual_dict by done.
  change (is_obj (JObj (armed_body p r))) with true.
  change (limit_of own_limits (JObj (armed_body p r))) with
    (match dict_get (digest p) own_limits with
     | Some l => Ok (digest p, l) | None => Err (ValueError "manual transfer policy changed") end).
  unfold own_limits. cbn [dict_get require mbind result_bind snd fst].
  rewrite decide_True by done. cbn [mbind result_bind snd fst]. rewrite Hm. cbn [mbind result_bind].
  rewrite (require_true (_ && bucket_funded p _ && _)).
  2: { rewrite Hb, andb_true_r, andb_true_iff. split; by apply Z.leb_le. }
  rewrite (require_true (_ && _ && negb _)).
  2: { rewrite !andb_true_iff. split_and!; [|by apply Z.leb_le|].
       - by apply negb_true_iff, bool_decide_eq_false.
       - apply negb_true_iff, andb_false_iff. destruct (previous_expired st); [by right|left].
         apply Z.eqb_neq. specialize (Hlt eq_refl). lia. }
  cbn [mbind result_bind require]. by rewrite Hx.
Qed.

Lemma claim_ok_arm db manual r l1 q rest : operations_between (after_operation r) (2 ^ 63 - 1) db = [] →
  (∀ l1 q rest, manual = l1 ++ q :: rest → claim_ok db q rest) →
  (∀ q, last manual = Some q → ∃ o, operations_between (after_operation q) (after_operation r) db = [o] ∧
     op_state o = "finalized" ∧ claim_matches p q o = true) →
  manual ++ [r] = l1 ++ q :: rest → claim_ok db q rest.
Proof.
  intros Hnone Hold Hlast E. destruct rest as [|x rest] using rev_ind.
  - apply app_inj_tail in E as [-> ->]. unfold claim_ok. rewrite Hnone. cbn. split_and!; [lia|done|done].
  - clear IHrest. change (l1 ++ q :: rest ++ [x]) with (l1 ++ (q :: rest) ++ [x]) in E.
    rewrite app_assoc in E. apply app_inj_tail in E as [-> ->].
    specialize (Hold l1 q rest eq_refl). destruct rest as [|y rest].
    + destruct (Hlast q) as (o & Ho & Hst & Hmatch); [by rewrite last_snoc|].
      unfold claim_ok. cbn. rewrite Ho. cbn. rewrite Hmatch. split_and!; [lia|done|by exists o].
    + unfold claim_ok in *. cbn in *. destruct Hold as (H1 & H2 & H3). split_and!; [done|done|].
      intros _. by apply H3.
Qed.

Lemma operations_between_elem lo hi db o :
  o ∈ operations_between lo hi db ↔ o ∈ operations db ∧ lo < op_id o <= hi.
Proof. unfold operations_between. rewrite list_elem_of_filter, andb_true_iff, Z.ltb_lt, Z.leb_le. tauto. Qed.

Lemma operations_between_shrink lo hi hi' db : hi' <= hi →
  operations_between lo hi' db = filter (λ o, op_id o <= hi') (operations_between lo hi db).
Proof.
  intros Hle. unfold operations_between. rewrite list_filter_filter. apply filter_ext_all, Forall_true.
  intros o. rewrite !andb_true_iff, !Z.ltb_lt, !Z.leb_le. lia.
Qed.

Lemma operations_between_none lo hi db : last_operation db <= lo → operations_between lo hi db = [].
Proof.
  intros Hle. apply elem_of_nil_inv. intros o [Ho Hid]%operations_between_elem.
  assert (op_id o <= last_operation db); [|lia]. by apply max_id_ge, list_elem_of_fmap_2.
Qed.

Lemma operations_between_cap lo hi hi' db : last_operation db <= hi → last_operation db <= hi' →
  operations_between lo hi db = operations_between lo hi' db.
Proof.
  intros H1 H2. unfold operations_between. apply filter_ext_all, Forall_forall. intros o Ho.
  assert (op_id o <= last_operation db) by by apply max_id_ge, list_elem_of_fmap_2.
  rewrite !andb_true_iff, !Z.ltb_lt, !Z.leb_le. lia.
Qed.

Lemma filter_all {A} (P : A → Prop) `{!∀ x, Decision (P x)} l : Forall P l → filter P l = l.
Proof. induction 1 as [|x l Hx _ IH]; [done|]. by rewrite filter_cons_True, IH. Qed.

Lemma singleton_of {A} (l : list A) x : (length l <= 1)%nat → x ∈ l → l = [x].
Proof.
  destruct l as [|y [|]]; cbn; [by intros _ ?%elem_of_nil| |lia].
  by intros _ ->%list_elem_of_singleton.
Qed.

Lemma operation_by_id_elem id db o : operation_by_id id db = Some o → o ∈ operations db ∧ op_id o = id.
Proof. intros [H1%list_elem_of_In H2]%find_some. by apply Z.eqb_eq in H2. Qed.

Lemma check_manual_integers r : check_manual r = Ok tt → forallb positive_bounded (request_integers r) = true.
Proof.
  unfold check_manual. intros (? & _ & H)%bind_Ok. by apply bind_Ok in H as (? & Hi%require_Ok & _).
Qed.

Lemma check_manual_after r : check_manual r = Ok tt → after_operation r < 2 ^ 63.
Proof.
  intros Hi%check_manual_integers. unfold request_integers, positive_bounded in Hi.
  cbn [forallb] in Hi. by to_prop.
Qed.

Lemma reads_arm db r manual c : spend_inv p db → event_numbered (events db) →
  Forall armed_row (events_named "manual_transfer_armed" db) →
  Z.of_nat (length (events_named "manual_transfer_armed" db)) <= 100000 →
  may_arm db p r manual c →
  reads (log db "manual_transfer_armed" (armed_body p r)) (manual ++ [r]).
Proof.
  intros Hinv Hn Hrows Hlen [Hcheck Hfresh Hm Hnew Hc [Hcur Hspent] Hok (o & Ho & Hst & _)].
  pose proof Hm as Hm'. apply (reads_history db manual Hlen Hrows) in Hm' as (d & st & Hd & Hf & Hx & Hreq & Hcl).
  destruct Hinv as [Hnum _ _ _ (all & Hall & Hafter) _].
  destruct (manual_in_all p db manual all r Hm Hall) as (Eman & _ & _ & _).
  rewrite last_operation_length in Hcur, Hspent, Ho by done.
  set (n := max_id (event_id <$> events db) + 1).
  assert (0 < n) as Hn0 by (unfold n; pose proof (max_id_nonneg (event_id <$> events db)); lia).
  assert (tidy n (after_operation r) (request_id <$> all) st) as [T1 T2 T3 T4 T5].
  { eapply history_fold_tidy; [exact Hf| |].
    - split; cbn; [done| |lia|by left|set_solver].
      apply Forall_forall. intros kv Hkv.
      destruct (expired_fold_rows _ _ _ Hd kv Hkv) as [Hin|(e & [Hin _]%events_named_in & ->)];
        [by apply elem_of_nil in Hin|]. pose proof (event_numbered_le _ _ Hn Hin). unfold n. lia.
    - apply Forall_forall. intros e He q Hq.
      pose proof (Forall2_decodes_row _ _ _ _ Hall He Hq) as Hin. split.
      + rewrite Forall_forall in Hafter. specialize (Hafter q Hin). lia.
      + by apply list_elem_of_fmap_2. }
  destruct (history_step_armed db st
    {| event_id := n; event := "manual_transfer_armed"; payload := JObj (armed_body p r) |} r)
    as (st' & Hstep & Hx' & Hreq'); try done.
  - intros (q & E & Hq)%T5%list_elem_of_fmap. destruct (decide (request_id q ∈ expired_ids db)) as [|Hun].
    + by rewrite E in Hfresh.
    + rewrite Forall_forall in Hnew. apply (Hnew q); [|done]. rewrite Eman. by apply list_elem_of_filter.
  - intros Hpe. destruct (T4 Hpe) as [[_ ->]|(q & Hq & E)].
    + apply check_manual_positive in Hcheck. tauto.
    + rewrite Hreq in Hq. unfold in_force in Hspent. rewrite Hq in Hspent. cbn in Hspent. lia.
  - exists d, st'. rewrite events_armed_log, events_named_other by done.
    split_and!; [done| |done|by rewrite Hreq', Hreq|].
    + rewrite (history_fold_reserved db) by (intros kv _ lo; apply reserved_named; by rewrite events_named_other).
      rewrite fold_result_app, Hf. cbn [mbind result_bind fold_result]. fold n.
      by rewrite Hstep.
    + intros l1 q rest E. apply (claim_ok_ext db); [done|].
      assert (∀ hi, operations_between (after_operation r) hi db = []) as Hnone.
      { intros hi. apply operations_between_none. rewrite last_operation_length by done. lia. }
      eapply claim_ok_arm; [apply Hnone|exact Hcl| |exact E]. intros x Hlast. clear E.
      unfold in_force in Hspent. rewrite Hlast in Hspent. cbn in Hspent.
      apply last_Some in Hlast as (l' & Emx). destruct (Hcl l' x [] Emx) as (L1 & L2 & _).
      apply operation_by_id_elem in Ho as [Ho Hid]. pose proof (check_manual_after r Hcheck).
      assert (o ∈ operations_between (after_operation x) (2 ^ 63 - 1) db) as Hin.
      { apply operations_between_elem. split; [done|lia]. }
      exists o. rewrite (operations_between_shrink _ (2 ^ 63 - 1)) by lia.
      rewrite (singleton_of _ o L1 Hin). rewrite filter_cons_True by lia. cbn.
      split_and!; [done|done|]. rewrite forallb_forall in L2. apply L2. by apply list_elem_of_In.
Qed.

(** ** A reservation under the last intent *)

Lemma destination_of_part a parts d : plan_service_distribution a a (collector_coldkey p) (destinations p) = Ok parts →
  d ∈ parts → destination_of p (dist_bucket_id d) = Some (dist_holding_coldkey d).
Proof.
  intros (_ & Hnd & _ & _ & _ & ->)%plan_inv Hd.
  apply list_elem_of_omap in Hd as ([x y] & Hxy & E). cbn in E.
  destruct (y =? 0); [discriminate|]. injection E as <-. cbn. unfold destination_of.
  assert (x ∈ destinations p) as Hx.
  { unfold distribute in Hxy. apply elem_of_zip_l in Hxy. by apply elem_of_py_sorted, list_elem_of_filter in Hxy as [_ ?]. }
  clear Hxy. induction (destinations p) as [|z l IH]; [by apply elem_of_nil in Hx|].
  cbn in Hnd. apply NoDup_cons in Hnd as [Hz Hnd]. cbn [find].
  apply elem_of_cons in Hx as [->|Hx]; [by rewrite String.eqb_refl|].
  destruct (String.eqb_spec (bucket_id z) (bucket_id x)) as [E|]; [|by apply IH].
  destruct Hz. rewrite E. by apply list_elem_of_fmap_2.
Qed.

(** * The canary read back *)

Definition bounded_by (db : CollectorDb) (manual : list ManualTransfer) (ex : option TransferCanary) : Prop :=
  ∀ c, ex = Some c → claims_bounded db c manual = true ∧ max_alpha_rao c <= max_distribution_rao p.

Definition readable (db : CollectorDb) : Prop :=
  ∃ manual ex, reads db manual ∧ existing_canary db p = Ok ex ∧ bounded_by db manual ex.

Definition canary_events : list string :=
  ["transfer_canary_armed"; "transfer_canary_replaced"; "offline_approved_runtime_migration"].

Lemma replacement_frame db db' : (∀ n, n ∈ canary_events → events_named n db' = events_named n db) →
  canary_replacement db' p = canary_replacement db p.
Proof.
  intros H. unfold canary_replacement, historical_policy_matches, historical_policy_limits.
  by rewrite !H by (unfold canary_events; set_solver).
Qed.

(** A failed claim stays in the journal. *)
Definition keeps_failed (db db' : CollectorDb) : Prop :=
  ∀ id o, operation_by_id id db = Some o → op_state o = "failed" → operation_by_id id db' = Some o.

Lemma check_replacement_keeps db db' c r : keeps_failed db db' →
  check_replacement db c r = Ok tt → check_replacement db' c r = Ok tt.
Proof.
  intros Hk. unfold check_replacement. destruct (operation_by_id _ db) as [old|] eqn:E; [|discriminate].
  intros H. pose proof H as (? & Hg%require_Ok & _)%bind_Ok. to_prop. by rewrite (Hk _ _ E).
Qed.

Lemma existing_frame db db' ex : (∀ n, n ∈ canary_events → events_named n db' = events_named n db) →
  keeps_failed db db' → existing_canary db p = Ok ex → existing_canary db' p = Ok ex.
Proof.
  intros He Hk. unfold existing_canary, historical_policy_matches, historical_policy_limits.
  rewrite (replacement_frame db db' He), !He by (unfold canary_events; set_solver).
  destruct (events_named "transfer_canary_armed" db) as [|e [|]]; [done| |done].
  intros H. do 4 (apply bind_Ok in H as (? & -> & H); cbn [mbind result_bind]).
  apply bind_Ok in H as (c & -> & H). cbn [mbind result_bind].
  apply bind_Ok in H as ([r|] & -> & H); cbn [mbind result_bind]; [|done].
  apply bind_Ok in H as ([] & Hc & H). by rewrite (check_replacement_keeps _ _ _ _ Hk Hc).
Qed.

Lemma keeps_failed_same db db' : operations db' = operations db → keeps_failed db db'.
Proof. intros E id o. unfold operation_by_id. by rewrite E. Qed.

Lemma claims_bounded_ext db db' c manual : operations db' = operations db →
  claims_bounded db' c manual = claims_bounded db c manual.
Proof. intros E. unfold claims_bounded. by rewrite (operations_between_ext _ _ db db'). Qed.

Lemma readable_frame db db' :
  (∀ n, n ∈ interpreted → events_named n db' = events_named n db) →
  operations db' = operations db → readable db → readable db'.
Proof.
  intros He Ho (manual & ex & Hr & Hex & Hb). exists manual, ex. split_and!.
  - apply (reads_frame db); [|intros r rest; by apply claim_ok_ext|done].
    intros n Hn. apply He. unfold interpreted. set_solver.
  - apply (existing_frame db); [|by apply keeps_failed_same|done].
    intros n Hn. apply He. unfold interpreted, canary_events in *. set_solver.
  - intros c Hc. rewrite (claims_bounded_ext db) by done. by apply Hb.
Qed.

(** ** Settling *)

Lemma operation_by_id_update db o f id q : orderly db → pending_operation db = Some o →
  operation_by_id id db = Some q → op_state q ≠ "dispatching" →
  (∀ q, op_id (f q) = op_id q) →
  operation_by_id id (update_operation (op_id o) f db) = Some q.
Proof.
  intros [Hn _] Hp Hq Hst Hf. apply find_some in Hp as [Hin%list_elem_of_In Hpend]. apply String.eqb_eq in Hpend.
  unfold operation_by_id, update_operation in *. cbn.
  assert (Forall (λ q, q ∈ operations db) (operations db)) as Hall by by apply Forall_forall.
  revert Hall Hq. generalize (operations db) at 2 3 4. induction l as [|x l IH]; [done|].
  intros [Hx Hall]%Forall_cons. cbn [find map].
  assert (op_id (if op_id x =? op_id o then f x else x) = op_id x) as ->.
  { destruct (_ =? _); [apply Hf|done]. }
  destruct (op_id x =? id); [|by apply IH]. intros [= ->].
  destruct (Z.eqb_spec (op_id q) (op_id o)) as [E|]; [|done].
  assert (q = o) as -> by by eapply numbered_inj. congruence.
Qed.

Lemma forallb_fmap_same {A} (g : A → A) (P : A → bool) l : (∀ x, P (g x) = P x) →
  forallb P (g <$> l) = forallb P l.
Proof. intros H. induction l as [|x l IH]; [done|]. csimpl. by rewrite H, IH. Qed.

Lemma claims_bounded_update db id f c manual : (∀ q, fixed_columns (f q) = fixed_columns q) →
  claims_bounded (update_operation id f db) c manual = claims_bounded db c manual.
Proof.
  intros Hf. unfold claims_bounded. rewrite operations_between_update, length_fmap by done.
  f_equal. apply forallb_fmap_same. intros q. destruct (_ =? _); [|done].
  specialize (Hf q). unfold fixed_columns in Hf. injection Hf as _ -> -> _ _ _ _ _ _. done.
Qed.

Lemma readable_update db o f : orderly db → pending_operation db = Some o →
  (∀ q, fixed_columns (f q) = fixed_columns q) → readable db →
  readable (update_operation (op_id o) f db).
Proof.
  intros Ho Hp Hf (manual & ex & Hr & Hex & Hb). exists manual, ex. split_and!.
  - apply (reads_frame db); [done| |done]. intros r rest. by apply claim_ok_update.
  - apply (existing_frame db); [done| |done]. intros id q Hq Hst.
    apply operation_by_id_update; [done..|by rewrite Hst|]. intros x. specialize (Hf x). unfold fixed_columns in Hf. congruence.
  - intros c Hc. rewrite claims_bounded_update by done. by apply Hb.
Qed.

(** ** Arming and replacing the canary *)

Lemma reads_nothing db : events_named "manual_transfer_armed" db = [] →
  events_named "manual_unsigned_expired" db = [] → reads db [].
Proof. intros E1 E2. exists [], (first_state []). rewrite E1, E2. split_and!; try done. by intros [] ? ?. Qed.

(** Without intents there is nothing to read, and nothing was closed. *)
Lemma reads_no_intent db manual : reads db manual → events_named "manual_transfer_armed" db = [] →
  manual = [] ∧ events_named "manual_unsigned_expired" db = [].
Proof.
  intros (d & st & Hd & Hst & Hx & <- & _) E. rewrite E in Hst. injection Hst as <-. cbn in *. subst d.
  split; [done|]. destruct (events_named _ db) as [|e l] eqn:El; [done|]. exfalso.
  pose proof (expired_fold _ _ _ Hd) as Hi. cbn [fold_result] in Hd.
  apply bind_Ok in Hd as (d1 & Hd1 & _). unfold expired_entry in Hd1.
  destruct (as_str (lookup_key "request_id" (payload e))) as [id|] eqn:Eid; [|discriminate].
  specialize (Hi id). cbn in Hi. rewrite Eid in Hi. rewrite !elem_of_nil in Hi.
  destruct Hi as [_ []]. right. left.
Qed.

Lemma readable_canary db c : spend_inv p db → readable db → existing_canary db p = Ok None →
  last_operation db = canary_after_operation c → check_canary c = Ok tt →
  max_alpha_rao c <= max_distribution_rao p →
  readable (log db "transfer_canary_armed" (("policy", JStr (digest p)) :: canary_dict c)).
Proof.
  intros Hinv (manual & ex & Hr & _ & _) He Hl Hc Hmax.
  pose proof (existing_canary_None _ _ He) as [Hnone _].
  pose proof (inv_canary _ _ Hinv Hnone) as Ha. destruct (reads_no_intent db manual Hr Ha) as [-> Hx].
  exists [], (Some c). split_and!.
  - apply reads_nothing; by rewrite events_named_other.
  - by apply existing_after_arming.
  - intros ? [= <-]. split; [|done]. unfold claims_bounded. rewrite (operations_between_ext _ _ db) by done.
    by rewrite operations_between_none by lia.
Qed.

Lemma same_json_refl j : same_json j j = true.
Proof. apply String.eqb_refl. Qed.

Lemma no_replacement db : canary_replacement db p = Ok None →
  events_named "transfer_canary_replaced" db = [].
Proof.
  unfold canary_replacement. destruct (events_named "transfer_canary_replaced" db) as [|e [|]];
    [done| |discriminate].
  intros H. do 4 (apply bind_Ok in H as (? & _ & H)). destruct (as_int _); [|discriminate].
  destruct (as_str _); [|discriminate]. apply bind_Ok in H as (? & _ & H).
  by apply bind_Ok in H as (? & _ & ?).
Qed.

(** The replacement is read back from its row. *)
Lemma replacement_after db c proof row why id :
  canary_replacement db p = Ok None → check_canary c = Ok tt → bounded_reason why = true →
  status proof = "failed" → extrinsic_hash proof = Some id →
  (∃ i, extrinsic_index proof = Some i ∧ 0 <= i) → start_block p <= e_block row →
  canary_replacement (log db "transfer_canary_replaced"
    (("policy", JStr (digest p)) :: canary_dict c ++
     [("source_block", JInt (e_block row)); ("proof", JObj (settlement_dict proof));
      ("reason", JStr (strip why))])) p =
  Ok (Some {| replacement_canary := c; replacement_source := e_block row;
              replacement_proof := JObj (settlement_dict proof) |}).
Proof.
  intros Hnone Hc Hwhy Hs Hh (i & Hi & Hi0) Hb. unfold canary_replacement.
  rewrite events_armed_log, (no_replacement db) by done.
  cbn [app payload event_id]. set (body := JObj _).
  change (has_keys _ body) with true. cbn [require mbind result_bind].
  change (member "policy" body) with (Ok (JStr (digest p))).
  change (member "proof" body) with (Ok (JObj (settlement_dict proof))).
  change (lookup_key "source_block" body) with (Some (JInt (e_block row))).
  change (lookup_key "reason" body) with (Some (JStr (strip why))).
  cbn [mbind result_bind as_str as_int default]. unfold historical_policy_matches at 1.
  rewrite String.eqb_refl. cbn [mbind result_bind].
  change (lookup_key "status" (JObj (settlement_dict proof))) with (Some (JStr (status proof))).
  change (lookup_key "extrinsic_index" (JObj (settlement_dict proof))) with (Some (jopt (extrinsic_index proof))).
  change (lookup_key "extrinsic_hash" (JObj (settlement_dict proof))) with (Some (jstr (extrinsic_hash proof))).
  rewrite Hi, Hh, Hs. cbn [jopt jstr as_int as_str is_obj].
  rewrite bool_decide_eq_true_2 by done. rewrite (proj2 (Z.leb_le _ _) Hi0), (proj2 (Z.leb_le _ _) Hb).
  unfold bounded_reason in *. rewrite stripped_length_strip, Hwhy. cbn [andb require mbind result_bind].
  unfold body. change (decode_canary _) with
    (check_canary {| max_alpha_rao := max_alpha_rao c; canary_after_operation := canary_after_operation c |};;
     Ok {| max_alpha_rao := max_alpha_rao c; canary_after_operation := canary_after_operation c |}).
  destruct c. cbn. by rewrite Hc.
Qed.

Lemma claims_bounded_spec db c manual : claims_bounded db c manual = true ↔
  let claimed := operations_between (canary_after_operation c)
    (match manual with r :: _ => after_operation r | [] => 2 ^ 63 - 1 end) db in
  (length claimed <= 1)%nat ∧
  Forall (λ o, op_role o = "transfer" ∧ 0 < op_amount o <= max_alpha_rao c) claimed.
Proof.
  unfold claims_bounded. rewrite andb_true_iff, Nat.leb_le, forallb_forall, Forall_forall.
  split; intros [H1 H2]; (split; [done|]); intros o Ho.
  - apply list_elem_of_In, H2 in Ho. to_prop. done.
  - apply list_elem_of_In, H2 in Ho as (-> & H3 & H4).
    rewrite !andb_true_iff, Z.ltb_lt, Z.leb_le. done.
Qed.

Lemma check_canary_after c : check_canary c = Ok tt → canary_after_operation c < 2 ^ 63.
Proof. unfold check_canary. intros H%require_Ok. by to_prop. Qed.

Lemma same_field_equal k v proof j : lookup_key k proof = Some v → lookup_key k j = Some v →
  same_field k proof (Some j) = Ok true.
Proof.
  unfold same_field, member, lookup_key. destruct proof, j; try discriminate. intros -> ->.
  cbn. by rewrite same_json_refl.
Qed.

(** The canary's own failed claim passes the check of its replacement. *)
Lemma check_replacement_after db c0 c o saved proof row body :
  may_replace db p c0 c o saved proof row → claims_bounded db c0 [] = true →
  last_operation db = canary_after_operation c0 + 1 →
  check_replacement (log db "transfer_canary_replaced" body) c0
    {| replacement_canary := c; replacement_source := e_block row;
       replacement_proof := JObj (settlement_dict proof) |} = Ok tt.
Proof.
  intros [Hc _ _ Hcur _ (Ho & Hst & Hrole & Hsrc & Hsaved & _) (_ & Hblock & Hhash & Hxt & _)] Hb Hl.
  unfold check_replacement. cbn [replacement_canary replacement_source replacement_proof].
  change (operation_by_id ?i (log db ?n ?b)) with (operation_by_id i db). rewrite Hcur, Ho.
  apply operation_by_id_elem in Ho as [Hin Hid].
  apply claims_bounded_spec in Hb as [_ Hb]. rewrite Forall_forall in Hb. specialize (Hb o).
  destruct Hb as (_ & Hpos & Hle).
  { apply operations_between_elem. pose proof (check_canary_after c Hc). split; [done|lia]. }
  rewrite (require_true (_ && _)).
  2: { rewrite Hst, Hrole, Hl, Z.eqb_refl, (bool_decide_eq_true_2 _ Hsrc).
       by rewrite !andb_true_iff, Z.ltb_lt, Z.leb_le. }
  cbn [mbind result_bind]. unfold settlement_json. rewrite Hsaved.
  cbn [fmap option_fmap option_map].
  rewrite (same_field_equal "block" (jopt (settled_block saved)) (JObj (settlement_dict proof)));
    [|by rewrite <- Hblock|done].
  rewrite (same_field_equal "block_hash" (jstr (settled_hash saved)) (JObj (settlement_dict proof)));
    [|by rewrite <- Hhash|done].
  cbn [mbind result_bind require].
  rewrite (same_field_equal "extrinsic_hash" (JStr (signed_hash (op_signed o)))); [done| |done].
  change (Some (jstr (extrinsic_hash proof)) = Some (JStr (signed_hash (op_signed o)))). by rewrite Hxt.
Qed.

Lemma readable_replace db c0 c o saved proof row why : readable db →
  events_named "manual_transfer_armed" db = [] →
  may_replace db p c0 c o saved proof row → bounded_reason why = true →
  Forall (λ e, start_block p <= e_block e) (earnings db) →
  readable (log db "transfer_canary_replaced"
    (("policy", JStr (digest p)) :: canary_dict c ++
     [("source_block", JInt (e_block row)); ("proof", JObj (settlement_dict proof));
      ("reason", JStr (strip why))])).
Proof.
  intros (manual & ex & Hr & Hex & Hb) Ha Hrep Hwhy Hstart.
  destruct (reads_no_intent db manual Hr Ha) as [-> Hx].
  pose proof Hrep as [Hc Hfirst (manual & Hex' & Hm & Hl) Hcur Hmax (_ & _ & _ & _ & _ & Hrow) (Hst & _ & _ & Hxt & Hix)].
  rewrite Hex in Hex'. injection Hex' as ->.
  assert (manual = []) as ->.
  { apply reads_history in Hm; [by destruct (reads_no_intent db manual Hm Ha)|by rewrite Ha|by rewrite Ha]. }
  unfold in_force in Hl. cbn in Hl. destruct (Hb c0 eq_refl) as [Hbounded Hmax0].
  exists [], (Some c). split_and!.
  - apply reads_nothing; by rewrite events_named_other.
  - rewrite Forall_forall in Hstart. unfold existing_canary in Hex |- *.
    rewrite (replacement_after db c proof row why (signed_hash (op_signed o))) by auto.
    rewrite events_named_other by done.
    destruct (events_named "transfer_canary_armed" db) as [|e [|]]; [|revert Hex|discriminate].
    { rewrite Hfirst in Hex. discriminate. }
    unfold historical_policy_matches, historical_policy_limits. rewrite events_named_other by done.
    intros H. do 4 (apply bind_Ok in H as (? & -> & H); cbn [mbind result_bind]).
    apply bind_Ok in H as (c1 & -> & H). cbn [mbind result_bind].
    rewrite Hfirst in H. injection H as ->.
    by rewrite (check_replacement_after db c0 c o saved proof row) by done.
  - intros ? [= <-]. split; [|done]. rewrite (claims_bounded_ext db) by done.
    unfold claims_bounded. by rewrite operations_between_none by lia.
Qed.

(** ** Intents *)

(** A journal whose replacement, if any, came before the first intent, and
    with no more intents than the history admits. *)
Definition regular (db : CollectorDb) : Prop :=
  Z.of_nat (length (events_named "manual_transfer_armed" db)) <= 100000 ∧
  ∀ e a, e ∈ events_named "transfer_canary_replaced" db →
    a ∈ events_named "manual_transfer_armed" db → event_id e < event_id a.

Lemma claims_bounded_narrow db c manual manual' : claims_bounded db c manual = true →
  (match manual' with r :: _ => after_operation r | [] => 2 ^ 63 - 1 end) <=
  (match manual with r :: _ => after_operation r | [] => 2 ^ 63 - 1 end) →
  claims_bounded db c manual' = true.
Proof.
  rewrite !claims_bounded_spec. cbv zeta. intros [H1 H2] Hle.
  rewrite (operations_between_shrink _ _ _ _ Hle). split; [|apply Forall_forall; intros o [_ Ho]%list_elem_of_filter; rewrite Forall_forall in H2; by apply H2].
  etrans; [apply length_filter|done].
Qed.

Lemma existing_log db name body ex : name ∉ canary_events → existing_canary db p = Ok ex →
  existing_canary (log db name body) p = Ok ex.
Proof.
  intros Hn. apply existing_frame; [|by apply keeps_failed_same].
  intros n Hin. apply events_named_other, String.eqb_neq. by intros ->.
Qed.

Lemma readable_arm db r manual c : spend_inv p db → event_numbered (events db) →
  Forall armed_row (events_named "manual_transfer_armed" db) → regular db →
  may_arm db p r manual c → readable db → readable (log db "manual_transfer_armed" (armed_body p r)).
Proof.
  intros Hinv Hn Hrows [Hlen _] Harm (manual' & ex & Hr & Hex & Hb).
  pose proof Harm as [Hcheck _ Hm _ Hc _ _ _].
  apply (reads_history db manual' Hlen Hrows) in Hr. rewrite Hm in Hr. injection Hr as <-.
  exists (manual ++ [r]), ex. split_and!.
  - by eapply reads_arm.
  - apply existing_log; [unfold canary_events; set_solver|done].
  - intros c0 Hc0. destruct (Hb c0 Hc0) as [Hb0 Hmax]. split; [|done].
    rewrite (claims_bounded_ext db) by done. eapply claims_bounded_narrow; [exact Hb0|].
    destruct manual; [|done]. cbn [app]. apply check_manual_after in Hcheck. lia.
Qed.

Lemma readable_expire db manual r body : spend_inv p db →
  Forall armed_row (events_named "manual_transfer_armed" db) → regular db →
  manual_transfer_history db p = Ok manual → last manual = Some r →
  last_operation db = after_operation r →
  as_str (lookup_key "request_id" (JObj body)) = Some (request_id r) →
  is_ok (manual_transfer_history (log db "manual_unsigned_expired" body) p) = true →
  readable db → readable (log db "manual_unsigned_expired" body).
Proof.
  intros Hinv Hrows [Hlen _] Hm Hlast Hcur Hid Hok (manual0 & ex & Hr & Hex & Hb).
  apply (reads_history db manual0 Hlen Hrows) in Hr. rewrite Hm in Hr. injection Hr as <-.
  set (db' := log db _ _) in *.
  destruct (manual_transfer_history db' p) as [manual'|] eqn:Hm'; [|discriminate].
  assert (events_named "manual_transfer_armed" db' = events_named "manual_transfer_armed" db) as Ha
    by (unfold db'; by rewrite events_named_other).
  destruct Hinv as [_ _ _ _ (all & Hall & _) _].
  assert (manual = manual' ++ [r]) as E.
  { destruct (manual_in_all p db manual all r Hm Hall) as (E1 & Hnd & _).
    assert (Forall2 decodes (events_named "manual_transfer_armed" db') all) as Hall' by by rewrite Ha.
    destruct (manual_in_all p db' manual' all r Hm' Hall') as (E2 & _).
    assert (expired_ids db' = expired_ids db ++ [request_id r]) as Hx.
    { unfold expired_ids, db'. rewrite events_armed_log, omap_app. cbn [omap list_omap payload]. by rewrite Hid. }
    apply last_Some in Hlast as (l & E). rewrite E. f_equal. rewrite E2, Hx.
    assert (unexpired_in (expired_ids db ++ [request_id r]) all =
            filter (λ q, request_id q ≠ request_id r) (unexpired_in (expired_ids db) all)) as ->.
    { unfold unexpired_in. rewrite list_filter_filter. apply filter_ext_all, Forall_true. intros q.
      rewrite elem_of_app, list_elem_of_singleton. tauto. }
    rewrite <- E1, E, filter_app, filter_cons_False, filter_nil, app_nil_r by tauto.
    symmetry. apply filter_all, Forall_forall. intros q Hq E3.
    assert (NoDup (request_id <$> l ++ [r])) as Hnd'.
    { rewrite <- E, E1. eapply sublist_NoDup; [exact Hnd|]. apply fmap_sublist, sublist_filter. }
    rewrite fmap_app in Hnd'. apply NoDup_app in Hnd' as (_ & Hd & _).
    apply (Hd (request_id q)); [by apply list_elem_of_fmap_2|]. rewrite E3. left. }
  exists manual', ex. split_and!.
  - apply reads_history; [by rewrite Ha..|done].
  - apply existing_log; [unfold canary_events; set_solver|done].
  - intros c0 Hc0. destruct (Hb c0 Hc0) as [Hb0 Hmax]. split; [|done].
    rewrite (claims_bounded_ext db) by done. subst manual. destruct manual' as [|y manual']; [|done].
    revert Hb0. unfold claims_bounded. cbn [app].
    rewrite (operations_between_cap _ (2 ^ 63 - 1) (after_operation r)); [done| |lia].
    pose proof (manual_valid db p _ r Hm ltac:(left)) as Hv%check_manual_after. lia.
Qed.

(** ** A reservation *)

Lemma operations_between_add lo hi db o body :
  operations_between lo hi (add_operation db o body) =
  operations_between lo hi db ++ (if (lo <? op_id o) && (op_id o <=? hi) then [o] else []).
Proof.
  unfold operations_between. change (operations (add_operation db o body)) with (operations db ++ [o]).
  rewrite filter_app, filter_cons, filter_nil. f_equal.
  by destruct (_ && _).
Qed.

Lemma operation_by_id_add id db o q body : operation_by_id id db = Some q →
  operation_by_id id (add_operation db o body) = Some q.
Proof.
  unfold operation_by_id. change (operations (add_operation db o body)) with (operations db ++ [o]).
  induction (operations db) as [|x l IH]; [done|]. cbn. by destruct (op_id x =? id).
Qed.

Lemma intent_claim db o manual existing draws r :
  transfer_reservation db p o manual existing draws → last manual = Some r → claim_matches p r o = true.
Proof.
  intros [_ _ Hm _ _ (_ & _ & Hrole & _) Hreq (k & dest & Hk & Hdest & Hd) _] Hlast.
  rewrite Hlast in Hreq. destruct Hreq as (Ha & Hs & Hb & ->).
  rewrite Hk in Hb. injection Hb as ->.
  assert (∃ ba, ba ∈ claim_pairs r) as (ba & Hba).
  { apply (manual_valid db p _ r) in Hm; [|by apply last_in]. apply check_manual_positive in Hm as (_ & _ & Hv).
    unfold claim_pairs. destruct (batch r) as [b|]; [|by eexists; left].
    specialize (Hv b eq_refl). unfold batch_request_valid in Hv. to_prop.
    destruct (sources b) as [|c l]; [discriminate|]. eexists. by left. }
  rewrite Forall_forall in Hd.
  destruct (Hd ba Hba) as (row & parts & rep & ops & rem & d & _ & _ & Hparts & _ & _ & Hrem & Hin & Ek & Edest & _).
  pose proof (plan_parts _ _ _ _ _ Hparts) as (Hnd & _ & Hp & _).
  assert (Forall (λ d, 0 < alpha_rao d) parts) as Hp' by by eapply Forall_impl; [exact Hp|]; intros ? [? _].
  destruct (remaining_elem _ _ _ _ Hnd Hp' Hrem Hin) as (_ & _ & d' & Hd' & E1 & E2).
  pose proof (destination_of_part _ _ _ Hparts Hd') as Hto. rewrite E1, Ek in Hto.
  unfold claim_matches. rewrite Hrole, Ha, Hs, Hk, Hdest, Hto, E2, Edest, Z.eqb_refl.
  by rewrite !bool_decide_eq_true_2 by done.
Qed.

Lemma readable_transfer db o manual existing draws body : spend_inv p db → event_numbered (events db) →
  Forall armed_row (events_named "manual_transfer_armed" db) → regular db →
  transfer_reservation db p o manual existing draws → readable db → readable (add_operation db o body).
Proof.
  intros Hinv Hn Hrows [Hlen _] Hres (manual0 & ex & Hr & Hex & Hb).
  pose proof Hres as [_ _ Hm He Hq (Hid & _ & Hrole & _) Hreq (k & dest & _ & _ & Hd) [_ Hsum]].
  pose proof (proj2 (reads_history db manual0 Hlen Hrows) Hr) as Hm0. rewrite Hm in Hm0. injection Hm0 as <-.
  rewrite He in Hex. injection Hex as <-.
  destruct Hinv as [Hnum _ _ Hcan (all & Hall & Hafter) _].
  assert (∀ y, y ∈ manual → after_operation y < op_id o) as Hlt.
  { intros y Hy. pose proof (manual_history_Ok db p manual Hm) as (rs & Hrs & _ & _ & -> & _).
    rewrite (Forall2_decodes_inj _ _ _ Hrs Hall) in Hy. apply list_elem_of_filter in Hy as [_ Hy].
    rewrite Forall_forall in Hafter. specialize (Hafter y Hy). rewrite Hid, last_operation_length by done. lia. }
  assert (∀ c, existing = Some c → operations_between (canary_after_operation (in_force c manual)) (2 ^ 63 - 1) db = []) as Hquiet.
  { intros c Hc. specialize (Hq c Hc). apply elem_of_nil_inv. intros q [Hin Hlo]%operations_between_elem.
    rewrite Forall_forall in Hq. specialize (Hq q Hin). lia. }
  exists manual, existing. split_and!.
  - apply reads_add; [done|done|]. intros l1 r rest E. destruct Hr as (_ & _ & _ & _ & _ & _ & Hcl).
    specialize (Hcl l1 r rest E). unfold claim_ok in *. rewrite operations_between_add.
    destruct rest as [|y rest].
    + assert (last manual = Some r) as Hlast by (rewrite E; by rewrite last_snoc).
      assert (∃ c, existing = Some c) as (c & ->).
      { destruct existing as [c|]; [by exists c|]. apply existing_canary_None in He as [He _].
        specialize (Hcan He). rewrite Hcan in Hall. apply Forall2_nil_inv_l in Hall as ->.
        apply manual_history_Ok in Hm as (rs & Hrs & _ & _ & Em & _).
        rewrite Hcan in Hrs. apply Forall2_nil_inv_l in Hrs as ->. rewrite Em in Hlast. discriminate. }
      specialize (Hquiet c eq_refl). unfold in_force in Hquiet. rewrite Hlast in Hquiet. cbn in Hquiet.
      rewrite Hquiet. cbn [app]. destruct (_ && _); cbn; [|split_and!; [lia|done|done]].
      rewrite (intent_claim _ _ _ _ _ _ Hres Hlast). split_and!; [lia|done|done].
    + replace ((after_operation r <? op_id o) && _) with false; [by rewrite app_nil_r|].
      symmetry. apply andb_false_iff. right. apply Z.leb_gt. apply Hlt. rewrite E. set_solver.
  - apply (existing_frame db); [|intros id q Hq' _; by apply operation_by_id_add|done].
    intros n Hin. unfold add_operation. rewrite events_named_other; [done|].
    apply String.eqb_neq. intros <-. unfold canary_events in Hin. set_solver.
  - intros c ->. destruct (Hb c eq_refl) as [Hb0 Hmax]. split; [|done].
    rewrite claims_bounded_spec in Hb0 |- *. cbv zeta in *. rewrite operations_between_add.
    destruct manual as [|y manual].
    + specialize (Hquiet c eq_refl). unfold in_force in Hquiet. cbn in Hquiet. rewrite Hquiet. cbn [app].
      destruct Hreq as ((b & _ & ->) & Hcap). specialize (Hcap c eq_refl). cbn in Hsum, Hd.
      apply Forall_singleton in Hd as (? & ? & ? & ? & ? & ? & _ & _ & _ & _ & _ & _ & _ & _ & _ & Hpos & _).
      cbn in Hpos. destruct (_ && _); cbn; (split; [lia|]); [|done]. apply Forall_singleton. split; [done|lia].
    + replace (_ && (op_id o <=? after_operation y)) with false; [by rewrite app_nil_r|].
      symmetry. apply andb_false_iff. right. apply Z.leb_gt. apply Hlt. left.
Qed.

(** * Every reachable journal reads back *)

Record history_inv (db : CollectorDb) : Prop := {
  hist_spend : spend_inv p db;
  hist_orderly : orderly db;
  hist_events : event_numbered (events db);
  hist_armed : Forall armed_row (events_named "manual_transfer_armed" db);
  hist_start : Forall (λ e, start_block p <= e_block e) (earnings db);
  hist_reads : regular db → readable db
}.

Lemma events_named_prefix name a b : events a `prefix_of` events b →
  events_named name a `prefix_of` events_named name b.
Proof. intros [l E]. unfold events_named. rewrite E, filter_app. by apply prefix_app_r. Qed.

Lemma prefix_elem {A} (l k : list A) x : l `prefix_of` k → x ∈ l → x ∈ k.
Proof. intros [m ->] Hx. apply elem_of_app. by left. Qed.

Lemma regular_before a b : events a `prefix_of` events b → regular b → regular a.
Proof.
  intros Hp [H1 H2]. split.
  - pose proof (prefix_length _ _ (events_named_prefix "manual_transfer_armed" a b Hp)). lia.
  - intros e x He Hx. apply H2; (eapply prefix_elem; [by apply events_named_prefix|done]).
Qed.

Lemma armed_rows_log db name body : name ≠ "manual_transfer_armed" →
  Forall armed_row (events_named "manual_transfer_armed" db) →
  Forall armed_row (events_named "manual_transfer_armed" (log db name body)).
Proof. intros Hn. by rewrite events_named_other by by apply String.eqb_neq. Qed.

Lemma step_armed_rows a b : journal_step p a b →
  Forall armed_row (events_named "manual_transfer_armed" a) →
  Forall armed_row (events_named "manual_transfer_armed" b).
Proof.
  intros Hs Ha. destruct Hs as
    [db name body Hn|db c He _ _ _ _|db c0 c o saved proof row why _ _|db r manual c [Hcheck _ _ _ _ _ _ _]
    |db manual r body Hm Hr Hl Hid _|db row Hrow Hpos _|db b _|db f Hf|db o st s Hp Hst|db o b Hp
    |db o manual existing draws body _|db o body _ _ _ _ _ _]; try exact Ha;
    try (by apply armed_rows_log).
  - apply armed_rows_log; [|done]. intros ->. apply Hn. is_interpreted.
  - rewrite events_armed_log. apply Forall_app. split; [done|]. apply Forall_singleton. by exists r.
Qed.

Lemma step_start a b : journal_step p a b → Forall (λ e, start_block p <= e_block e) (earnings a) →
  Forall (λ e, start_block p <= e_block e) (earnings b).
Proof.
  intros Hs Ha. destruct Hs as
    [db name body Hn|db c He _ _ _ _|db c0 c o saved proof row why _ _|db r manual c _
    |db manual r body Hm Hr Hl Hid _|db row Hrow Hpos Hb|db b _|db f Hf|db o st s Hp Hst|db o b Hp
    |db o manual existing draws body _|db o body _ _ _ _ _ _]; try exact Ha.
  - cbn. apply Forall_app. split; [done|]. by apply Forall_singleton.
  - cbn. apply Forall_fmap. eapply Forall_impl; [exact Ha|]. intros e. cbn. by destruct (Hf e) as [-> _].
Qed.

Lemma replaced_before_intents db body : event_numbered (events db) →
  regular (log db "transfer_canary_replaced" body) → events_named "manual_transfer_armed" db = [].
Proof.
  intros Hn [_ H]. destruct (events_named "manual_transfer_armed" db) as [|a l] eqn:E; [done|].
  specialize (H {| event_id := max_id (event_id <$> events db) + 1; event := "transfer_canary_replaced";
                   payload := JObj body |} a).
  rewrite events_armed_log, events_named_other, E in H by done. cbn [event_id] in H.
  assert (a ∈ events db) as Ha by (apply (events_named_in "manual_transfer_armed"); rewrite E; left).
  pose proof (event_numbered_le _ _ Hn Ha). exfalso.
  enough (max_id (event_id <$> events db) + 1 < event_id a) by lia. apply H; [|by left].
  apply elem_of_app. right. left.
Qed.

Lemma readable_step a b : pin a = Some (digest p, "transfer") → history_inv a →
  regular b → journal_step p a b → readable b.
Proof.
  intros Hpin [Hspend Hord Hev Harm Hstart Hread] Hreg Hs.
  assert (regular a) as Hreg'.
  { apply (extends_step p a b Hs) in Hord as [[_ _ He] _]. by eapply regular_before. }
  specialize (Hread Hreg'). destruct Hs as
    [db name body Hn|db c He Hl _ Hc Hmax|db c0 c o saved proof row why Hrep Hwhy|db r manual c Hmay
    |db manual r body Hm Hr Hl Hid Hok|db row Hrow Hpos _|db b _|db f Hf|db o st s Hp Hst|db o b Hp
    |db o manual existing draws body Hres|db o body Hpin' _ _ _ _ _].
  - apply (readable_frame db); [|done|done]. intros n Hin. by apply note_named.
  - by apply readable_canary.
  - eapply readable_replace; [done| |done..]. by eapply replaced_before_intents.
  - by eapply readable_arm.
  - by eapply readable_expire.
  - by apply (readable_frame db).
  - by apply (readable_frame db).
  - by apply (readable_frame db).
  - by apply readable_update.
  - by apply readable_update.
  - by eapply readable_transfer.
  - congruence.
Qed.

Lemma reachable_history db : reachable p "transfer" db → history_inv db.
Proof.
  intros Hr. apply (reachable_ind p "transfer"
    (λ db, history_inv db ∧ pin db = Some (digest p, "transfer"))) in Hr as [[H _] _]; [done| |].
  - intros db0 H0. pose proof (initial_orderly p _ _ H0). apply initial_spend_inv in H0 as Hsp.
    apply bind_Ok in H0 as (? & _ & [= <-]). split; [|done]. split; try done.
    intros _. exists [], None. split_and!; [by apply reads_nothing|done|done].
  - intros a b [Ha Hp] Hs. split; [|by rewrite (step_pin _ _ _ Hs)].
    pose proof Ha as [Hspend Hord Hev Harm Hstart Hread]. split.
    + by eapply spend_inv_step.
    + by apply (extends_step p a b Hs).
    + by eapply step_numbered.
    + by eapply step_armed_rows.
    + by eapply step_start.
    + intros Hreg. by eapply readable_step.
Qed.

(** C15: The journal never locks itself. In every transfer journal the
    collector's calls can produce, whatever the chain adapter answered, the
    checks that every later call makes of the history succeed: the canary and
    its replacement, the order and expiry of the manual intents, and the exact
    claim of each. The exceptions are a canary replaced after an intent was armed
    and more than 100000 intents. *)
Theorem journal_reads_back db : reachable p "transfer" db → regular db →
  ∃ manual bound, manual_transfer_history db p = Ok manual ∧
    transfer_canary db p "transfer" None = Ok (db, bound).
Proof.
  intros Hr Hreg. apply reachable_history in Hr as [_ _ _ Harm _ Hread].
  destruct (Hread Hreg) as (manual & ex & Hreads & Hex & Hb).
  apply (reads_history db manual (proj1 Hreg) Harm) in Hreads.
  exists manual, ((λ c, in_force c manual) <$> ex). split; [done|].
  unfold transfer_canary. rewrite Hex. cbn [mbind result_bind].
  destruct ex as [c|]; [|done]. cbn [require mbind result_bind].
  destruct (Hb c eq_refl) as [Hbound Hmax].
  rewrite (require_true (_ && (_ <=? _))) by by rewrite andb_true_iff, Z.leb_le.
  cbn [mbind result_bind]. rewrite Hreads. cbn [mbind result_bind]. rewrite Hbound.
  cbn [require mbind result_bind fmap option_fmap option_map]. unfold in_force.
  destruct (last manual) as [r|] eqn:Hlast; [|done].
  apply last_in, (manual_valid db p _ r Hreads) in Hlast.
  assert (check_canary {| max_alpha_rao := amount_rao r; canary_after_operation := after_operation r |} = Ok tt) as ->;
    [|done].
  apply check_manual_integers in Hlast. unfold check_canary. rewrite require_true; [done|].
  cbn. unfold positive_bounded in *. cbn [forallb request_integers] in Hlast. to_prop.
  rewrite !andb_true_iff, !Z.ltb_lt, Z.leb_le. lia.
Qed.

(** * A replaced intent freezes the journal *)

Definition frozen (db : CollectorDb) : Prop :=
  is_ok (existing_canary db p) = false ∧ pending_operation db = None.

Lemma existing_same db db' : (∀ n, n ∈ canary_events → events_named n db' = events_named n db) →
  operations db' = operations db ∨ events_named "transfer_canary_replaced" db = [] →
  existing_canary db' p = existing_canary db p.
Proof.
  intros He Ho. unfold existing_canary. rewrite (replacement_frame db db' He).
  unfold historical_policy_matches, historical_policy_limits.
  rewrite !He by (unfold canary_events; set_solver).
  destruct Ho as [Ho|Ho].
  - unfold check_replacement, operation_by_id. by rewrite Ho.
  - unfold canary_replacement. by rewrite Ho.
Qed.

Lemma canary_events_interpreted n : n ∈ canary_events → n ∈ interpreted.
Proof. unfold canary_events, interpreted. set_solver. Qed.

Lemma frozen_step a b : pin a = Some (digest p, "transfer") → journal_step p a b → frozen a →
  frozen b ∧ operations b = operations a.
Proof.
  intros Hpin Hs [Hex Hpend].
  assert (∀ b, (∀ n, n ∈ canary_events → events_named n b = events_named n a) →
    operations b = operations a → frozen b ∧ operations b = operations a) as Hsame.
  { intros b' He Ho. unfold frozen, pending_operation in *. rewrite Ho.
    by rewrite (existing_same a b') by auto. }
  destruct Hs as
    [db name body Hn|db c He Hl _ Hc Hmax|db c0 c o saved proof row why [_ _ (m & He & _) _ _ _ _] _
    |db r manual c [_ _ _ _ He _ _ _]
    |db manual r body Hm Hr Hl Hid Hok|db row Hrow Hpos _|db b _|db f Hf|db o st s Hp Hst|db o b Hp
    |db o manual existing draws body [_ _ _ He _ _ _ _ _]|db o body Hpin' _ _ _ _ _];
    try (rewrite He in Hex; discriminate); try congruence; try (by apply Hsame).
  - apply Hsame; [|done]. intros n Hin. by apply note_named, canary_events_interpreted.
  - apply Hsame; [|done]. intros n Hin. apply events_named_other, String.eqb_neq. intros <-.
    unfold canary_events in Hin. set_solver.
Qed.

Lemma frozen_steps a b : steps p a b → pin a = Some (digest p, "transfer") → frozen a →
  operations b = operations a.
Proof.
  induction 1 as [|a b c Hs _ IH]; [done|]. intros Hpin Hf.
  destruct (frozen_step a b Hpin Hs Hf) as [Hb <-]. apply IH; [by rewrite (step_pin _ _ _ Hs)|done].
Qed.

Lemma frozen_run db l : frozen db → pinned p db → pin db = Some (digest p, "transfer") →
  operations (run_all p db l) = operations db.
Proof.
  intros Hf Hpd Hpin. apply frozen_steps; [|done|done]. clear Hf Hpin. revert db Hpd.
  induction l as [|[CC c] l IH]; intros db Hpd; cbn [run_all]; [constructor|].
  pose proof (run_steps CC p db c Hpd) as Hs. etrans; [exact Hs|]. apply IH. by eapply steps_pinned.
Qed.

(** Once an intent is armed, the canary's claim is final. *)
Definition canary_paid (db : CollectorDb) : Prop :=
  ∀ c, events_named "transfer_canary_replaced" db = [] → existing_canary db p = Ok (Some c) →
    events_named "manual_transfer_armed" db ≠ [] →
    ∃ o, operation_by_id (canary_after_operation c + 1) db = Some o ∧ op_state o = "finalized".

Lemma canary_paid_frame a b : (∀ n, n ∈ interpreted → events_named n b = events_named n a) →
  (∀ id o, operation_by_id id a = Some o → op_state o = "finalized" → operation_by_id id b = Some o) →
  canary_paid a → canary_paid b.
Proof.
  intros He Ho Ha c. rewrite !He by is_interpreted. intros Hr Hc Hm.
  rewrite (existing_same a b) in Hc by auto using canary_events_interpreted.
  destruct (Ha c Hr Hc Hm) as (o & Hfind & Hst). exists o. auto.
Qed.

Lemma canary_paid_step a b : pin a = Some (digest p, "transfer") → spend_inv p a → orderly a →
  canary_paid a → journal_step p a b → canary_paid b.
Proof.
  intros Hpin Hinv Hord Ha Hs.
  assert (∀ o f, pending_operation a = Some o → (∀ q, fixed_columns (f q) = fixed_columns q) →
    canary_paid (update_operation (op_id o) f a)) as Hupd.
  { intros o f Hp Hf. apply (canary_paid_frame a); [done| |done]. intros id q Hq Hst.
    apply operation_by_id_update; [done..|by rewrite Hst|]. intros x.
    specialize (Hf x). unfold fixed_columns in Hf. congruence. }
  destruct Hs as
    [db name body Hn|db c He Hl _ Hc Hmax|db c0 c o saved proof row why Hrep _
    |db r manual c [_ _ Hm _ He [Hcur Hspent] _ Hprior]
    |db manual r body Hm Hr Hl Hid Hok|db row Hrow Hpos _|db b _|db f Hf|db o st s Hp Hst|db o b Hp
    |db o manual existing draws body _|db o body Hpin' _ _ _ _ _]; try exact Ha; try congruence;
    try (by apply Hupd).
  - apply (canary_paid_frame db); [|done|done]. intros n Hin. by apply note_named.
  - intros c1 _ _ Hm. apply existing_canary_None in He as [He _]. apply (inv_canary _ _ Hinv) in He.
    by rewrite events_named_other in Hm.
  - intros c1 Hr. rewrite events_armed_log in Hr. by destruct (events_named _ db).
  - intros c1 Hr Hc1 _. rewrite events_named_other in Hr by done.
    assert (existing_canary (log db "manual_transfer_armed" (armed_body p r)) p = existing_canary db p) as E.
    { apply existing_same; [|by left]. intros n Hin. apply events_named_other, String.eqb_neq. intros <-.
      unfold canary_events in Hin. set_solver. }
    rewrite E, He in Hc1. injection Hc1 as <-.
    destruct (decide (events_named "manual_transfer_armed" db = [])) as [Hnil|Hne]; [|by apply (Ha c)].
    pose proof (manual_history_Ok _ _ _ Hm) as (rs & Hrs & _ & _ & -> & _).
    rewrite Hnil in Hrs. apply Forall2_nil_inv_l in Hrs as ->.
    unfold in_force in Hspent. cbn in Hspent. rewrite Hspent in Hprior.
    destruct Hprior as (o & Ho & Hst & _). by exists o.
  - intros c1. rewrite !events_named_other by done. intros Hno.
    rewrite (existing_same db); [by apply Ha| |by left].
    intros n Hin. apply events_named_other, String.eqb_neq. intros <-.
    unfold canary_events in Hin. set_solver.
  - assert (∀ n, n ≠ "dispatch_reserved" → events_named n (add_operation db o body) = events_named n db) as Hev.
    { intros n Hn. unfold add_operation. by rewrite events_named_other by (apply String.eqb_neq; done). }
    intros c1 Hno Hc Hne. rewrite Hev in Hno, Hne by done.
    rewrite (existing_same db) in Hc; [| |by right].
    2: { intros n Hin. apply Hev. intros ->. unfold canary_events in Hin. set_solver. }
    destruct (Ha c1 Hno Hc Hne) as (q & Hq & Hst). exists q.
    split; [by apply operation_by_id_add|done].
Qed.

(** A canary replacement that follows an intent. *)
Definition replaced_late (db : CollectorDb) : Prop :=
  ∃ e a, e ∈ events_named "transfer_canary_replaced" db ∧
    a ∈ events_named "manual_transfer_armed" db ∧ event_id a < event_id e.

Lemma failed_last_quiet db o : orderly db → operation_by_id (last_operation db) db = Some o →
  op_state o = "failed" → pending_operation db = None.
Proof.
  intros [Hn Hl] [Ho Hid]%operation_by_id_elem Hst. destruct (pending_operation db) as [q|] eqn:Hp; [|done].
  apply find_some in Hp as [Hq%list_elem_of_In Hpend]. apply String.eqb_eq in Hpend.
  apply list_elem_of_lookup in Hq as [i Hi]. pose proof (Hl i q Hi Hpend) as Hlen.
  assert (q = o) as ->; [|congruence]. eapply numbered_inj; [done| |done|].
  - by eapply list_elem_of_lookup_2.
  - rewrite (Hn i q Hi), Hid, last_operation_length, <- Hlen by done. lia.
Qed.

Lemma late_replacement_freezes db c0 c o saved proof row why : canary_paid db → orderly db →
  Forall (λ e, start_block p <= e_block e) (earnings db) →
  events_named "manual_transfer_armed" db ≠ [] →
  may_replace db p c0 c o saved proof row → bounded_reason why = true →
  frozen (log db "transfer_canary_replaced"
    (("policy", JStr (digest p)) :: canary_dict c ++
     [("source_block", JInt (e_block row)); ("proof", JObj (settlement_dict proof));
      ("reason", JStr (strip why))])).
Proof.
  intros Hpaid Hord Hstart Hne Hrep Hwhy.
  pose proof Hrep as [Hc Hfirst (manual & Hex & _) Hcur _ (Ho & Hst & _ & _ & _ & Hrow) (Hps & _ & _ & Hxt & Hix)].
  split; [|by eapply failed_last_quiet]. rewrite Forall_forall in Hstart.
  assert (last_operation db ≠ canary_after_operation c0 + 1) as Hdiff.
  { intros E. assert (events_named "transfer_canary_replaced" db = []) as Hno by by apply no_replacement.
    destruct (Hpaid c0 Hno Hex Hne) as (q & Hq & Hfin). rewrite <- E, Ho in Hq. injection Hq as <-. congruence. }
  unfold existing_canary in Hex |- *.
  rewrite (replacement_after db c proof row why (signed_hash (op_signed o))) by auto.
  rewrite events_named_other by done.
  destruct (events_named "transfer_canary_armed" db) as [|e [|]]; [done| |done].
  revert Hex. unfold historical_policy_matches, historical_policy_limits.
  rewrite events_named_other by done. intros H. do 4 (apply bind_Ok in H as (? & -> & H); cbn [mbind result_bind]).
  apply bind_Ok in H as (c1 & -> & H). cbn [mbind result_bind]. rewrite Hfirst in H. injection H as ->.
  unfold check_replacement at 1. cbn [replacement_canary replacement_source replacement_proof].
  rewrite Hcur, (proj2 (Z.eqb_neq _ _) Hdiff).
  match goal with |- context [operation_by_id ?i ?d] => destruct (operation_by_id i d) end; [|done].
  by rewrite !andb_false_r.
Qed.

Lemma replaced_late_frame a b : (∀ n, n ∈ interpreted → events_named n b = events_named n a) →
  replaced_late b → replaced_late a.
Proof. intros He (e & x & H). exists e, x. by rewrite <- !He by is_interpreted. Qed.

Lemma new_event_elem db name n body e : e ∈ events_named n (log db name body) →
  e ∈ events_named n db ∨ event_id e = max_id (event_id <$> events db) + 1 ∧ n = name.
Proof.
  rewrite events_named_log. destruct (String.eqb_spec name n) as [E|]; [|rewrite app_nil_r; by left].
  rewrite elem_of_app, list_elem_of_singleton. intros [?|E']; [by left|right]. by rewrite E'.
Qed.

(** Only a replacement makes a journal late. *)
Lemma replaced_late_step a b : event_numbered (events a) → canary_paid a → orderly a →
  Forall (λ e, start_block p <= e_block e) (earnings a) → journal_step p a b →
  replaced_late b → replaced_late a ∨ frozen b.
Proof.
  intros Hn Hpaid Hord Hstart Hs Hlate.
  assert (∀ e n, e ∈ events_named n a → event_id e <= max_id (event_id <$> events a)) as Hle.
  { intros e n [Hin _]%events_named_in. by apply event_numbered_le. }
  destruct Hs as
    [db name body Hname|db c _ _ _ _ _|db c0 c o saved proof row why Hrep Hwhy|db r manual c _
    |db manual r body _ _ _ _ _|db row Hrow Hpos _|db b _|db f Hf|db o st s Hp Hst|db o b Hp
    |db o manual existing draws body _|db o body _ _ _ _ _ _]; try (left; exact Hlate);
    destruct Hlate as (e & x & He & Hx & Hlt);
    apply new_event_elem in He as [He|[Eid E]]; try discriminate E;
    apply new_event_elem in Hx as [Hx|[Eid' E']]; try discriminate E';
    try (left; by exists e, x).
  - subst name. destruct Hname. is_interpreted.
  - subst name. destruct Hname. is_interpreted.
  - subst name. discriminate.
  - right. eapply late_replacement_freezes; try done. intros E'. rewrite E' in Hx. by apply elem_of_nil in Hx.
  - specialize (Hle e _ He). lia.
Qed.

(** C16: Replacing the failed claim of a manual intent freezes the journal for
    good. [replace_failed_canary] accepts the request, since it compares it with
    the intent in force, but every later call compares the recorded replacement
    with the original canary and refuses: whatever is called afterwards and
    whatever the chain answers, no operation is recorded, settled or sent. *)
Theorem replaced_intent_freezes db l : reachable p "transfer" db → replaced_late db →
  is_ok (transfer_canary db p "transfer" None) = false ∧
  operations (run_all p db l) = operations db.
Proof.
  intros Hr Hlate.
  assert (frozen db ∧ pinned p db ∧ pin db = Some (digest p, "transfer")) as ([Hex Hp] & Hpd & Hpin).
  { pose proof Hr as Hr'. apply (reachable_ind p "transfer"
      (λ db, (history_inv db ∧ pin db = Some (digest p, "transfer")) ∧ canary_paid db ∧
             (replaced_late db → frozen db))) in Hr' as [(_ & _ & H) [Hpin Hpd]]; [by auto| |].
    - intros db0 H0. assert (reachable p "transfer" db0) as Hr0 by by exists db0, [].
      split; [split; [by apply reachable_history|]|];
        apply bind_Ok in H0 as (? & _ & [= <-]); [done|]. split; [by intros c _ _ ?|].
      by intros (e & a & He%elem_of_nil & _).
    - intros a b [[Ha Hpa] [Hpaid Hfr]] Hs. pose proof Ha as [Hspend Hord Hev Harm Hstart Hread].
      split; [split|split].
      + split; [by eapply spend_inv_step|by apply (extends_step p a b Hs)|by eapply step_numbered|
                by eapply step_armed_rows|by eapply step_start|intros Hreg; by eapply readable_step].
      + by rewrite (step_pin _ _ _ Hs).
      + by eapply canary_paid_step.
      + intros Hl. eapply replaced_late_step in Hl as [Hl|]; [|done..].
        by apply (frozen_step a b Hpa Hs), Hfr. }
  split; [|by apply frozen_run]. unfold transfer_canary. by destruct (existing_canary db p).
Qed.
End history.

#[local] Existing Instance sample_sha.
#[local] Existing Instance sample_verify.

Lemma journal_reads_back_witness :
  regular canary_journal ∧ ∃ manual bound, manual_transfer_history canary_journal sample_policy = Ok manual ∧
    transfer_canary canary_journal sample_policy "transfer" None = Ok (canary_journal, bound).
Proof.
  assert (regular canary_journal) as Hreg.
  { split; [by vm_compute|]. intros e a He. exfalso.
    assert (events_named "transfer_canary_replaced" canary_journal = []) as E by (vm_compute; reflexivity).
    rewrite E in He. by apply elem_of_nil in He. }
  split; [done|]. apply journal_reads_back; [apply transfer_reachable|done].
Defined.

Definition first_event (name : string) (db : CollectorDb) : Event :=
  match events_named name db with e :: _ => e | [] => {| event_id := 0; event := ""; payload := JNull |} end.
Lemma first_event_in name db : event_id (first_event name db) ≠ 0 →
  first_event name db ∈ events_named name db.
Proof. unfold first_event. destruct (events_named name db); [done|left]. Qed.

(** The claim of the intent fails, and its operator replaces it. *)
Definition replaced_intent : list (CollectorChain * Call) :=
  canary_then_intent "pending" ++
  [(sample_chain 140 (Some 7) "failed", Tick "transfer" None None);
   (sample_chain 150 (Some 7) "failed",
    Replace {| max_alpha_rao := 50; canary_after_operation := 2 |} "operator retries")].
Definition replaced_journal : CollectorDb := run_all sample_policy (fresh "transfer") replaced_intent.

Lemma replaced_intent_freezes_witness :
  let db := replaced_journal in
  (λ o, (op_id o, op_state o)) <$> operations db = [(1, "finalized"); (2, "failed")] ∧
  is_ok (transfer_canary db sample_policy "transfer" None) = false ∧
  operations (run_all sample_policy db replaced_intent) = operations db.
Proof.
  split; [vm_compute; reflexivity|]. apply replaced_intent_freezes; [apply transfer_reachable|].
  exists (first_event "transfer_canary_replaced" replaced_journal).
  exists (first_event "manual_transfer_armed" replaced_journal).
  split_and!; [by apply first_event_in; vm_compute..|vm_compute; reflexivity].
Defined.
