(* ===== verification/CollectorMigration.v ===== *)
(** What survives storage and migration: the stored forms of a policy and of an
    operator's intents decode to themselves, and an earlier policy is honoured
    only when the same cold key approved the move away from it and none of its
    spending terms changed. *)
From Stdlib Require Import ZArith Lia.
From stdpp Require Import base list strings sets.
From S2P Require Import Prelude PyText Canonical ServiceAllocation CollectorPolicy CollectorJournal Collector CollectorFacts CollectorSafety CollectorSpending CollectorSamples.

#[local] Open Scope string_scope.
#[local] Open Scope list_scope.
#[local] Open Scope Z_scope.

Lemma same_json_iff a b : same_json a b = true ↔ sorted_members a = sorted_members b.
Proof. unfold same_json. rewrite String.eqb_eq. apply canonical_same. Qed.

(** * Decoding what was stored *)

Lemma decode_destinations l : map_result decode_destination (map destination_json l) = Ok l.
Proof. induction l as [|[b a h] l IH]; [done|]. cbn [map map_result]. by rewrite IH. Qed.

Lemma decode_policy_dict p : check_policy p = Ok tt → decode_policy (JObj (policy_dict p)) = Ok p.
Proof.
  intros Hc. unfold decode_policy.
  change (member "destinations" (JObj (policy_dict p))) with
    (Ok (JList (map destination_json (destinations p)))).
  cbn [mbind result_bind]. rewrite decode_destinations. cbn [mbind result_bind only_keys].
  rewrite require_true by (vm_compute; reflexivity). destruct p.
  match goal with
  | _ : check_policy ?q = Ok tt |- _ => transitivity (check_policy q;; Ok q); [reflexivity | by rewrite Hc]
  end.
Qed.

(** C19: What is stored is read back. A policy, a canary and a manual intent
    (single-source or aggregate) that pass their constructor's checks are decoded
    from the JSON they are stored as, exactly; the other fields of the row do not
    disturb the canary or the intent. *)
Theorem stored_values_decode {SH : Sha256} p c r : check_policy p = Ok tt → check_canary c = Ok tt →
  check_manual r = Ok tt →
  decode_policy (JObj (policy_dict p)) = Ok p ∧
  decode_canary (JObj (("policy", JStr (digest p)) :: canary_dict c)) = Ok c ∧
  decode_manual (without_policy (JObj (armed_body p r))) = Ok r.
Proof.
  intros Hp Hc Hr. split_and!; [by apply decode_policy_dict|by apply decode_canary_dict|].
  by apply (armed_decodes p r 0 "").
Qed.

(** * Transitions *)

(** What a policy allows to be spent, to whom and under which cold and hot key. *)
Definition terms (p : CollectorPolicy) :=
  (genesis_hash p, collector_coldkey p, collector_hotkey p, (start_block p, destinations p),
   (max_registration_burn_rao p, registration_budget_rao p, max_fee_rao p, fee_reserve_rao p),
   (recovery_cooldown_blocks p, distribution_interval_blocks p, max_distribution_rao p),
   (registration_secret_version p, transfer_secret_version p), (enabled p, netuid p)).

Lemma destinations_same l l' :
  same_json (JList (map destination_json l)) (JList (map destination_json l')) = true → l = l'.
Proof.
  intros H%same_json_iff. cbn [sorted_members] in H. injection H as H. rewrite !map_map in H.
  revert l' H. induction l as [|[b a h] l IH]; intros [|[b' a' h'] l'] H; try discriminate; [done|].
  cbn in H. injection H as -> -> -> H. f_equal. by apply IH.
Qed.

Lemma same_str s s' : same_json (JStr s) (JStr s') = true → s = s'.
Proof. by intros [= ->]%same_json_iff. Qed.
Lemma same_int i i' : same_json (JInt i) (JInt i') = true → i = i'.
Proof. by intros [= ->]%same_json_iff. Qed.
Lemma same_bool b b' : same_json (JBool b) (JBool b') = true → b = b'.
Proof. by intros [= ->]%same_json_iff. Qed.

(** A field that is not reported as changed is the same. *)
Lemma unchanged_field old new k a b :
  ((k, a), (k, b)) ∈ zip (policy_dict old) (policy_dict new) → k ∉ changed_fields old new →
  same_json a b = true.
Proof.
  intros Hin Hk. apply not_false_iff_true. intros E. apply Hk. unfold changed_fields.
  apply (elem_of_fmap_eq fst (k, a)); [|done]. apply (elem_of_fmap_eq fst ((k, a), (k, b))); [|done].
  apply list_elem_of_filter. done.
Qed.

Definition term_keys : list string :=
  ["genesis_hash"; "collector_coldkey"; "collector_hotkey"; "start_block"; "destinations";
   "max_registration_burn_rao"; "registration_budget_rao"; "max_fee_rao"; "fee_reserve_rao";
   "recovery_cooldown_blocks"; "distribution_interval_blocks"; "max_distribution_rao";
   "registration_secret_version"; "transfer_secret_version"; "enabled"; "netuid"].

(** Two policies agree on a field. *)
Definition agree (a b : CollectorPolicy) (k : string) : Prop :=
  ∀ v w, dict_get k (policy_dict a) = Some v → dict_get k (policy_dict b) = Some w →
         same_json v w = true.

Ltac listed := unfold term_keys; repeat first [apply list_elem_of_here | apply list_elem_of_further].

Lemma terms_agree a b : (∀ k, k ∈ term_keys → agree a b k) → terms a = terms b.
Proof.
  intros Hall.
  assert (∀ k v w, k ∈ term_keys → dict_get k (policy_dict a) = Some v →
    dict_get k (policy_dict b) = Some w → same_json v w = true) as H by (intros; by eapply Hall).
  unfold terms.
  rewrite (same_str _ _ (H "genesis_hash" _ _ ltac:(listed) eq_refl eq_refl)),
    (same_str _ _ (H "collector_coldkey" _ _ ltac:(listed) eq_refl eq_refl)),
    (same_str _ _ (H "collector_hotkey" _ _ ltac:(listed) eq_refl eq_refl)),
    (same_int _ _ (H "start_block" _ _ ltac:(listed) eq_refl eq_refl)),
    (destinations_same _ _ (H "destinations" _ _ ltac:(listed) eq_refl eq_refl)),
    (same_int _ _ (H "max_registration_burn_rao" _ _ ltac:(listed) eq_refl eq_refl)),
    (same_int _ _ (H "registration_budget_rao" _ _ ltac:(listed) eq_refl eq_refl)),
    (same_int _ _ (H "max_fee_rao" _ _ ltac:(listed) eq_refl eq_refl)),
    (same_int _ _ (H "fee_reserve_rao" _ _ ltac:(listed) eq_refl eq_refl)),
    (same_int _ _ (H "recovery_cooldown_blocks" _ _ ltac:(listed) eq_refl eq_refl)),
    (same_int _ _ (H "distribution_interval_blocks" _ _ ltac:(listed) eq_refl eq_refl)),
    (same_int _ _ (H "max_distribution_rao" _ _ ltac:(listed) eq_refl eq_refl)),
    (same_int _ _ (H "registration_secret_version" _ _ ltac:(listed) eq_refl eq_refl)),
    (same_int _ _ (H "transfer_secret_version" _ _ ltac:(listed) eq_refl eq_refl)),
    (same_bool _ _ (H "enabled" _ _ ltac:(listed) eq_refl eq_refl)),
    (same_int _ _ (H "netuid" _ _ ltac:(listed) eq_refl eq_refl)).
  done.
Qed.

Lemma dict_get_zip {V} (l l' : list (string * V)) k v w : l.*1 = l'.*1 →
  dict_get k l = Some v → dict_get k l' = Some w → ((k, v), (k, w)) ∈ zip l l'.
Proof.
  revert l'. induction l as [|[k1 v1] l IH]; intros [|[k2 w1] l'] E; try discriminate.
  csimpl. injection E as -> E. case_decide as Hk; [|right; by apply IH].
  intros [= ->] [= ->]. subst. left.
Qed.

Lemma terms_unchanged old new : Forall (λ k, k ∉ term_keys) (changed_fields old new) →
  terms new = terms old.
Proof.
  intros Hch. symmetry. apply terms_agree. intros k Hk v w Hv Hw.
  apply (unchanged_field old new k v w).
  { apply dict_get_zip; [reflexivity|exact Hv|exact Hw]. }
  intros Hin.
  rewrite Forall_forall in Hch. by apply (Hch k).
Qed.

Lemma policy_transition_terms old new : policy_transition old new = Ok tt →
  terms new = terms old ∧ revision new = revision old + 1.
Proof.
  assert (∀ allowed, same_set (changed_fields old new) allowed = true →
    Forall (λ k, k ∉ term_keys) allowed → terms new = terms old) as Hterms.
  { intros allowed [Hsub _]%andb_true_iff Ha. apply bool_decide_eq_true in Hsub.
    apply terms_unchanged, Forall_forall. intros k Hk. rewrite Forall_forall in Hsub, Ha. auto. }
  unfold policy_transition. destruct (runtime_upgrade old new) eqn:Hup.
  - intros _. unfold runtime_upgrade in Hup. to_prop. split; [|done].
    eapply Hterms; [done|]. apply (bool_decide_unpack _). by vm_compute.
  - intros (? & Hc%require_Ok & _)%bind_Ok. to_prop. split; [|done].
    eapply Hterms; [done|]. apply (bool_decide_unpack _). by vm_compute.
Qed.

(** A policy transition never touches money. An accepted transition, an
    audited runtime upgrade or the one move of custody, leaves the destinations and
    their shares, every spending limit, the budget, the intervals, the collector's
    keys and the activation as they were; it advances the revision by exactly one,
    so it can never be applied backwards, and it ends in the isolated signer
    accounts. *)
Lemma policy_transition_keeps_terms old new : policy_transition old new = Ok tt →
  terms new = terms old ∧ revision new = revision old + 1 ∧ accounts_isolated new = true ∧
  is_ok (policy_transition new old) = false.
Proof.
  intros H. pose proof (policy_transition_terms _ _ H) as [H1 H2]. split_and!; [done|done| |].
  - unfold policy_transition in H. destruct (runtime_upgrade old new) eqn:Hup.
    + unfold runtime_upgrade in Hup. by to_prop.
    + apply bind_Ok in H as (? & _ & H). by apply bind_Ok in H as (? & Ha%require_Ok & _).
  - destruct (policy_transition new old) as [[]|] eqn:E; [|done].
    apply policy_transition_terms in E as [_ E]. lia.
Qed.

(** [p] under another revision and another audited runtime. *)
Definition at_runtime (p : CollectorPolicy) (r : Z) (hash : string) : CollectorPolicy := {|
  genesis_hash := genesis_hash p; runtime_code_hash := hash;
  collector_coldkey := collector_coldkey p; collector_hotkey := collector_hotkey p;
  registration_delegate := registration_delegate p; transfer_delegate := transfer_delegate p;
  revision := r; start_block := start_block p; destinations := destinations p;
  max_registration_burn_rao := max_registration_burn_rao p;
  registration_budget_rao := registration_budget_rao p; max_fee_rao := max_fee_rao p;
  fee_reserve_rao := fee_reserve_rao p; recovery_cooldown_blocks := recovery_cooldown_blocks p;
  distribution_interval_blocks := distribution_interval_blocks p;
  max_distribution_rao := max_distribution_rao p; gcp_project := gcp_project p;
  registration_service_account := registration_service_account p;
  transfer_service_account := transfer_service_account p;
  registration_secret_version := registration_secret_version p;
  transfer_secret_version := transfer_secret_version p; enabled := enabled p; netuid := netuid p |}.

(** [a] and [b] differ in revision and runtime only. *)
Definition same_but_runtime (a b : CollectorPolicy) : Prop :=
  a = at_runtime b (revision a) (runtime_code_hash a).

Definition signer_keys : list string :=
  ["registration_delegate"; "transfer_delegate"; "gcp_project";
   "registration_service_account"; "transfer_service_account"].

Lemma same_but_runtime_agree a b : (∀ k, k ∈ term_keys ++ signer_keys → agree a b k) →
  same_but_runtime a b.
Proof.
  intros Hall.
  assert (Ht : terms a = terms b) by (apply terms_agree; intros; apply Hall; apply elem_of_app; by left).
  assert (∀ k v w, k ∈ signer_keys → dict_get k (policy_dict a) = Some v →
    dict_get k (policy_dict b) = Some w → same_json v w = true) as H
    by (intros k v w Hk; apply Hall; apply elem_of_app; by right).
  unfold signer_keys in H.
  pose proof (same_str _ _ (H "registration_delegate" _ _ ltac:(listed) eq_refl eq_refl)).
  pose proof (same_str _ _ (H "transfer_delegate" _ _ ltac:(listed) eq_refl eq_refl)).
  pose proof (same_str _ _ (H "gcp_project" _ _ ltac:(listed) eq_refl eq_refl)).
  pose proof (same_str _ _ (H "registration_service_account" _ _ ltac:(listed) eq_refl eq_refl)).
  pose proof (same_str _ _ (H "transfer_service_account" _ _ ltac:(listed) eq_refl eq_refl)).
  clear H Hall. unfold same_but_runtime, at_runtime. unfold terms in Ht.
  destruct a, b. cbn in *. injection Ht; intros; subst; reflexivity.
Qed.

Lemma same_but_runtime_trans a b c : same_but_runtime a b → same_but_runtime b c → same_but_runtime a c.
Proof. unfold same_but_runtime, at_runtime. intros -> ->. done. Qed.
Lemma same_but_runtime_refl a : same_but_runtime a a.
Proof. by destruct a. Qed.

Lemma only_runtime_changed old new :
  Forall (λ k, k ∉ term_keys ++ signer_keys) (changed_fields old new) → same_but_runtime old new.
Proof.
  intros Hch. apply same_but_runtime_agree. intros k Hk v w Hv Hw.
  apply (unchanged_field old new k v w).
  { apply dict_get_zip; [reflexivity|exact Hv|exact Hw]. }
  intros Hin. rewrite Forall_forall in Hch. by apply (Hch k).
Qed.

(** A transition that changes the runtime is an audited upgrade, and nothing
    else changes with it. *)
Lemma runtime_transition old new : policy_transition old new = Ok tt →
  runtime_code_hash old ≠ runtime_code_hash new →
  same_but_runtime old new ∧ revision new = revision old + 1 ∧
  (runtime_code_hash old, runtime_code_hash new) ∈ audited_transitions.
Proof.
  intros H Hne. unfold policy_transition in H. destruct (runtime_upgrade old new) eqn:Hup.
  - unfold runtime_upgrade in Hup. to_prop. split_and!; try done. apply only_runtime_changed.
    match goal with Hs : same_set _ _ = true |- _ => apply andb_true_iff in Hs as [Hs _];
      apply bool_decide_eq_true in Hs; rewrite Forall_forall in Hs end.
    apply Forall_forall. intros k Hk Hin.
    assert (k ∈ ["revision"; "runtime_code_hash"]) as Hr by auto.
    assert (Forall (λ k, k ∉ term_keys ++ signer_keys) ["revision"; "runtime_code_hash"]) as Hd
      by (apply (bool_decide_unpack _); by vm_compute).
    rewrite Forall_forall in Hd. by apply (Hd k Hr).
  - exfalso. apply bind_Ok in H as (? & Hc%require_Ok & _). to_prop.
    match goal with Hs : same_set _ _ = true |- _ => apply andb_true_iff in Hs as [Hs _];
      apply bool_decide_eq_true in Hs; rewrite Forall_forall in Hs end.
    apply Hne, same_str.
    apply (unchanged_field old new "runtime_code_hash").
    { apply dict_get_zip; reflexivity. }
    intros Hin. match goal with Hs : ∀ k, _ |- _ => apply Hs in Hin end.
    revert Hin. match goal with |- ?P → False => change (¬ P) end.
    apply (bool_decide_unpack _). by vm_compute.
Qed.

(** * The honoured past *)

Section past.
Context {SH : Sha256} {VS : VerifySignature}.

(** The row records an audited runtime upgrade from the policy [q] to [q'], both
    of them [p] under earlier or equal revisions, with a manifest that names the
    two digests and the length of the journal, signed by [p]'s cold key. *)
Definition approves (p : CollectorPolicy) (row : Event) (q q' : CollectorPolicy) : Prop :=
  same_but_runtime q p ∧ same_but_runtime q' p ∧
  revision q < revision q' <= revision p ∧
  (runtime_code_hash q, runtime_code_hash q') ∈ audited_transitions ∧
  (member "from_policy" (payload row) ≫= decode_policy) = Ok q ∧
  (member "to_policy" (payload row) ≫= decode_policy) = Ok q' ∧
  ∃ proof sig bytes,
    lookup_key "manifest" (payload row) = Some proof ∧
    lookup_key "from_policy_digest" proof = Some (JStr (digest q)) ∧
    lookup_key "to_policy_digest" proof = Some (JStr (digest q')) ∧
    (member "counts" proof ≫= expect "events" (JInt (event_id row - 1))) = Ok tt ∧
    lookup_key "signature" (payload row) = Some (JStr sig) ∧
    fromhex (removeprefix "0x" sig) = Some bytes ∧
    verify_public_signature (collector_coldkey p)
      ("ditto-collector-custody-migration-v1:" +:+ sha256 (_canonical proof)) bytes = true.

(** The digest [d] was left behind, with approval, at the event [limit]. *)
Definition approved_past (db : CollectorDb) (p : CollectorPolicy) (d : string) (limit : Z) : Prop :=
  ∃ row q q', row ∈ events db ∧ event row = "offline_approved_runtime_migration" ∧
    event_id row = limit ∧ digest q = d ∧ approves p row q q'.

Lemma same_policy_dict a b : same_json (JObj (policy_dict a)) (JObj (policy_dict b)) = true → a = b.
Proof.
  intros H%same_json_iff.
  assert (∀ k v w, dict_get k (policy_dict a) = Some v → dict_get k (policy_dict b) = Some w →
    same_json v w = true) as Hget.
  { intros k v w Hv Hw. apply same_json_iff. apply (same_members _ _ k) in H.
    - rewrite Hv, Hw in H. by injection H.
    - apply (bool_decide_unpack _). by vm_compute. }
  rewrite (same_but_runtime_agree a b) by (intros k _ v w; apply Hget).
  rewrite (same_int _ _ (Hget "revision" _ _ eq_refl eq_refl)).
  rewrite (same_str _ _ (Hget "runtime_code_hash" _ _ eq_refl eq_refl)). symmetry.
  apply same_but_runtime_refl.
Qed.

Lemma elem_of_dict_set {V} (k : string) (v : V) d kv : kv ∈ dict_set k v d → kv = (k, v) ∨ kv ∈ d.
Proof.
  induction d as [|[k' v'] d IH]; cbn [dict_set]; [intros ->%list_elem_of_singleton; by left|].
  case_decide; rewrite !elem_of_cons.
  - subst. intros [E|?]; [by left|right; by right].
  - intros [E|Hd]; [right; by left|]. destruct (IH Hd); [by left|right; by right].
Qed.

Lemma member_lookup k j v : member k j = Ok v → lookup_key k j = Some v.
Proof.
  unfold member. destruct j; try discriminate. cbn.
  destruct (dict_get k l); [by intros [= ->]|discriminate].
Qed.

Lemma expect_str k s proof u : expect k (JStr s) proof = Ok u → lookup_key k proof = Some (JStr s).
Proof.
  intros (w & ->%member_lookup & E%require_Ok%same_json_iff)%bind_Ok.
  destruct w; cbn in E; try discriminate. by rewrite E.
Qed.

Lemma str_field_lookup k j s : str_field k j = Ok s → lookup_key k j = Some (JStr s).
Proof.
  unfold str_field. destruct (lookup_key k j) as [[]|]; try discriminate. by intros [= ->].
Qed.

(** What the walk back maintains. *)
Definition walked (db : CollectorDb) (p : CollectorPolicy)
    (st : CollectorPolicy * list (string * option Z)) : Prop :=
  same_but_runtime st.1 p ∧ revision st.1 <= revision p ∧
  ∀ d lim, (d, lim) ∈ st.2 → d = digest p ∧ lim = None ∨ ∃ l, lim = Some l ∧ approved_past db p d l.

Lemma migration_step_walked db p st row st' : row ∈ events db →
  event row = "offline_approved_runtime_migration" →
  migration_step st row = Ok st' → walked db p st → walked db p st'.
Proof.
  intros Hrow Hname. destruct st as [current limits]. unfold migration_step.
  intros (? & _ & H)%bind_Ok (Ht & Hr & Hl).
  apply bind_Ok in H as (from & Ef & H). apply bind_Ok in H as (to & Eto & H).
  apply bind_Ok in H as (old & Eold & H). apply bind_Ok in H as (new & Enew & H).
  apply bind_Ok in H as (proof & Hproof%member_lookup & H). cbv zeta in H.
  apply bind_Ok in H as (? & [Hsame%same_policy_dict Hne%negb_true_iff%String.eqb_neq]%require_Ok%andb_true_iff & H).
  do 2 (apply bind_Ok in H as (? & _ & H)). apply bind_Ok in H as (? & Hfrom%expect_str & H).
  apply bind_Ok in H as (? & Hto%expect_str & H).
  apply bind_Ok in H as (counts & Hc & H). apply bind_Ok in H as ([] & Hev & H).
  apply bind_Ok in H as ([] & Htr & H). apply (runtime_transition _ _ Htr) in Hne as (Hon & Hrev & Haud).
  apply bind_Ok in H as (sig & Hsig & H). apply str_field_lookup in Hsig.
  destruct (fromhex _) as [bytes|] eqn:Hhex; [|discriminate].
  apply bind_Ok in H as (? & Hver%require_Ok & H). injection H as <-. cbn [fst snd] in *. subst current.
  assert (Hold : same_but_runtime old p) by by eapply same_but_runtime_trans.
  split_and!; [done|cbn; lia|]. cbn [snd].
  intros d lim [[= -> ->]|Hin]%elem_of_dict_set; [right|by apply Hl].
  exists (event_id row). split; [done|]. exists row, old, new. split_and!; try done.
  split_and!; try done; [lia| | |].
  - by rewrite Ef.
  - by rewrite Eto.
  - exists proof, sig, bytes. split_and!; try done; [by rewrite Hc|]. by rewrite Ht in Hver.
Qed.

Lemma ancestry_walked db p rows st st' :
  Forall (λ row, row ∈ events db ∧ event row = "offline_approved_runtime_migration") rows →
  fold_result migration_step st rows = Ok st' → walked db p st → walked db p st'.
Proof.
  intros Hrows. revert st. induction Hrows as [|row rows [Hin Hn] _ IH]; intros st; cbn [fold_result].
  - by intros [= ->].
  - intros (st1 & Hs & Hst)%bind_Ok Hw. eapply IH; [exact Hst|]. by eapply migration_step_walked.
Qed.

Lemma historical_limits_approved db p limits d lim : historical_policy_limits db p = Ok limits →
  (d, lim) ∈ limits → d = digest p ∧ lim = None ∨ ∃ l, lim = Some l ∧ approved_past db p d l.
Proof.
  unfold historical_policy_limits. intros (? & _ & H)%bind_Ok.
  apply bind_Ok in H as (st & Hst & [= <-]).
  assert (walked db p st) as (_ & _ & Hw); [|by apply Hw].
  eapply ancestry_walked; [|exact Hst|].
  - apply Forall_forall. intros row Hrow. apply elem_of_take in Hrow as (i & Hrow%list_elem_of_lookup_2 & _).
    rewrite list_elem_of_In, <- in_rev, <- list_elem_of_In in Hrow.
    apply list_elem_of_filter in Hrow as [E%String.eqb_eq Hin]. done.
  - split_and!; [apply same_but_runtime_refl|done|].
    intros d' lim' [= -> ->]%list_elem_of_singleton. by left.
Qed.

(** C18: A journal honours an earlier policy only with cold approval, and only up
    to the migration away from it. Every digest [historical_policy_limits] accepts
    besides the current one is the digest of a policy that differs from the
    current one in nothing but a lower revision and an audited earlier runtime -
    destinations, limits, budget, keys, delegates and accounts are the same - and
    its limit is the number of an event of this journal: a migration row that
    leads from that policy to a later one, with a manifest that names both
    digests and the length of the journal and that this policy's own cold key
    signed. So [historical_policy_matches] honours an event under an earlier
    digest only if it precedes such a row. *)
Theorem past_policies_approved db p limits : historical_policy_limits db p = Ok limits →
  (∀ d lim, (d, lim) ∈ limits →
     d = digest p ∧ lim = None ∨ ∃ l, lim = Some l ∧ approved_past db p d l) ∧
  (∀ d ev, historical_policy_matches db p d ev = Ok true →
     d = digest p ∨ ∃ l, ev < l ∧ approved_past db p d l).
Proof.
  intros H. split; [intros d lim; by apply historical_limits_approved|]. intros d ev.
  unfold historical_policy_matches. destruct (String.eqb_spec d (digest p)) as [->|]; [by left|].
  rewrite H. cbn [mbind result_bind]. intros [= Hm]. right.
  destruct (dict_get d limits) as [[l|]|] eqn:E; try discriminate. apply Z.ltb_lt in Hm.
  destruct (historical_limits_approved _ _ _ d (Some l) H) as [[? ?]|(l' & [= <-] & ?)];
    [by apply dict_get_Some_elem|done|by exists l].
Qed.
End past.

#[local] Existing Instance sample_sha.
#[local] Existing Instance sample_verify.

Lemma stored_values_decode_witness :
  decode_policy (JObj (policy_dict sample_policy)) = Ok sample_policy ∧
  decode_canary (JObj (("policy", JStr (digest sample_policy)) :: canary_dict sample_canary)) = Ok sample_canary ∧
  decode_manual (without_policy (JObj (armed_body sample_policy sample_request))) = Ok sample_request.
Proof. apply stored_values_decode; vm_compute; reflexivity. Defined.

(** The sample policy in isolated custody, under an audited runtime. *)
Definition custody_policy (r : Z) (hash : string) : CollectorPolicy := {|
  genesis_hash := sample_hash; runtime_code_hash := hash;
  collector_coldkey := "cold"; collector_hotkey := "hot";
  registration_delegate := "register"; transfer_delegate := "transfer";
  revision := r; start_block := 100; destinations := destinations sample_policy;
  max_registration_burn_rao := 500; registration_budget_rao := 1200; max_fee_rao := 10;
  fee_reserve_rao := 20; recovery_cooldown_blocks := 5; distribution_interval_blocks := 10;
  max_distribution_rao := 5000; gcp_project := "sn118-gamma-custody";
  registration_service_account := isolated_account "registration";
  transfer_service_account := isolated_account "transfer";
  registration_secret_version := 1; transfer_secret_version := 1; enabled := true; netuid := 118 |}.
Definition before_upgrade : CollectorPolicy := custody_policy 1 V482_COLLECTOR_CODE_HASH.
Definition after_upgrade : CollectorPolicy := custody_policy 2 AUDITED_COLLECTOR_CODE_HASH.

Lemma policy_transition_keeps_terms_witness :
  terms after_upgrade = terms before_upgrade ∧ revision after_upgrade = revision before_upgrade + 1 ∧
  accounts_isolated after_upgrade = true ∧ is_ok (policy_transition after_upgrade before_upgrade) = false.
Proof. apply policy_transition_keeps_terms. vm_compute. reflexivity. Defined.

Definition migration_event : Event := {| event_id := 1; event := "offline_approved_runtime_migration";
  payload := JObj [
    ("manifest", JObj [("schema", JStr "ditto-collector-custody-migration-v1"); ("role", JStr "transfer");
      ("from_policy_digest", JStr (digest before_upgrade)); ("to_policy_digest", JStr (digest after_upgrade));
      ("counts", JObj [("events", JInt 0)])]);
    ("signature", JStr "0xabcd");
    ("from_policy", JObj (policy_dict before_upgrade)); ("to_policy", JObj (policy_dict after_upgrade))] |}.
Definition migrated_journal : CollectorDb := {|
  pin := Some (digest after_upgrade, "transfer"); cursor := 99; earnings := []; operations := [];
  events := [migration_event] |}.

Lemma past_policies_approved_witness :
  historical_policy_matches migrated_journal after_upgrade (digest before_upgrade) 0 = Ok true ∧
  (digest before_upgrade = digest after_upgrade ∨
   ∃ l, 0 < l ∧ approved_past migrated_journal after_upgrade (digest before_upgrade) l).
Proof.
  assert (historical_policy_matches migrated_journal after_upgrade (digest before_upgrade) 0 = Ok true) as Hm
    by (vm_compute; reflexivity).
  split; [exact Hm|].
  apply (past_policies_approved migrated_journal after_upgrade
    [(digest after_upgrade, None); (digest before_upgrade, Some 1)]); [vm_compute; reflexivity|exact Hm].
Defined.
