(* ===== verification/ConfirmationPolicy.v ===== *)
(** The policy core of the LongMem confirmation lane:
    [apps/platform/ditto/api_server/confirmation_bundles.py].

    Which submissions are confirmed, the lifecycle of a bundle, and the daily
    budget as compare-and-swap arithmetic.  A frozen dataclass is a record whose
    [__post_init__] is a checking function; [replace] copies a record and runs
    the check again.  The theorems about the selection are here; the budget and
    the lifecycle are the specification the database layer is compared with in
    [ConfirmationRefinement]. *)
From Stdlib Require Import ZArith Lia.
From stdpp Require Import base list strings sorting pretty.
From S2P Require Import Prelude Binary64 PyText.

#[local] Open Scope string_scope.
#[local] Open Scope Z_scope.

(** [CONFIRMATION_BENCH_VERSIONS] and [supports_confirmation] of
    [ditto_screening_protocol/bench_v9.py]. *)
Definition CONFIRMATION_BENCH_VERSIONS : list Z := [9; 10; 11; 12; 13; 14; 15; 16; 17].
Definition supports_confirmation (bench_version : Z) : bool :=
  bool_decide (bench_version ∈ CONFIRMATION_BENCH_VERSIONS).

Inductive ConfirmationMode := OFF | SHADOW | ENFORCE.
Inductive ConfirmationEligibilityMode := RANK | SCORE_THRESHOLD.
Inductive ConfirmationState :=
  BASE_ONLY | BLOCKED_BUDGET | PENDING | LEASED | FAILED | COMPLETED | SUPERSEDED.
Inductive ReservationState := RESERVED | SETTLED.

#[global] Instance mode_eq_dec : EqDecision ConfirmationMode.
Proof. solve_decision. Defined.
#[global] Instance eligibility_eq_dec : EqDecision ConfirmationEligibilityMode.
Proof. solve_decision. Defined.
#[global] Instance state_eq_dec : EqDecision ConfirmationState.
Proof. solve_decision. Defined.
#[global] Instance reservation_state_eq_dec : EqDecision ReservationState.
Proof. solve_decision. Defined.

Definition mode_value (m : ConfirmationMode) : string :=
  match m with OFF => "off" | SHADOW => "shadow" | ENFORCE => "enforce" end.
Definition eligibility_value (m : ConfirmationEligibilityMode) : string :=
  match m with RANK => "rank" | SCORE_THRESHOLD => "score_threshold" end.
Definition state_value (s : ConfirmationState) : string :=
  match s with
  | BASE_ONLY => "base_only" | BLOCKED_BUDGET => "blocked_budget" | PENDING => "pending"
  | LEASED => "leased" | FAILED => "failed" | COMPLETED => "completed"
  | SUPERSEDED => "superseded"
  end.

(** * Field checks *)

Definition _require_sha256 (value label : string) : result unit :=
  require (digest_text value) (ConfirmationPolicyError (label +:+ " must be 64 lowercase hex chars")).

Definition in_range (value minimum maximum : Z) : bool := (minimum <=? value) && (value <=? maximum).
Definition _require_int_between (name : string) (value minimum maximum : Z) : result unit :=
  require (in_range value minimum maximum)
    (ConfirmationPolicyError (name +:+ " must be between " +:+ pretty minimum +:+ " and " +:+ pretty maximum)).

(** [minimum] and [maximum] are the small integers the calls pass; the message
    writes them as floats. *)
Definition finite_between (value : F64) (minimum maximum : Z) : bool :=
  isfinite value && fleb (of_int minimum) value && fleb value (of_int maximum).
Definition _require_finite_between (name : string) (value : F64) (minimum maximum : Z) : result unit :=
  require (finite_between value minimum maximum)
    (ConfirmationPolicyError (name +:+ " must be finite and between " +:+ pretty minimum +:+ ".0 and "
       +:+ pretty maximum +:+ ".0")).

(** * Settings *)

Definition DEFAULT_TOP_N : Z := 5.
Definition MAX_TOP_N : Z := 10.
Definition DEFAULT_MIN_BASE_SCORE_MICROS : Z := 950000.
Definition MAX_DAILY_BUNDLE_CAP : Z := 1000.
Definition MAX_DAILY_DOLLAR_MICROUSD : Z := 2000000000.
Definition MAX_BUNDLE_REQUEST_CAP : Z := 100000.
Definition MAX_BUNDLE_TOKEN_CAP : Z := 100000000.
Definition DEFAULT_CHALLENGER_Z : F64 := flit 164 100.

Record ConfirmationProfileRef := {
  ref_revision : string;
  ref_checksum : string
}.
Definition check_profile_ref (p : ConfirmationProfileRef) : result unit :=
  require (negb (String.eqb (ref_revision p) "") && (Z.of_nat (String.length (ref_revision p)) <=? 128))
    (ConfirmationPolicyError "profile revision must contain 1-128 chars");;
  _require_sha256 (ref_checksum p) "profile checksum".

Record ConfirmationBundleSettings := {
  mode : ConfirmationMode;
  eligibility_mode : ConfirmationEligibilityMode;
  top_n : Z;
  min_base_score_micros : Z;
  daily_bundle_cap : Z;
  daily_dollar_cap_microusd : Z;
  per_bundle_request_cap : Z;
  per_bundle_token_cap : Z;
  profile : ConfirmationProfileRef;
  challenger_z : F64
}.

Definition check_settings (s : ConfirmationBundleSettings) : result unit :=
  _require_int_between "top_n" (top_n s) 1 MAX_TOP_N;;
  _require_int_between "min_base_score_micros" (min_base_score_micros s) 0 1000000;;
  _require_int_between "daily_bundle_cap" (daily_bundle_cap s) 0 MAX_DAILY_BUNDLE_CAP;;
  _require_int_between "daily_dollar_cap_microusd" (daily_dollar_cap_microusd s) 0 MAX_DAILY_DOLLAR_MICROUSD;;
  _require_int_between "per_bundle_request_cap" (per_bundle_request_cap s) 1 MAX_BUNDLE_REQUEST_CAP;;
  _require_int_between "per_bundle_token_cap" (per_bundle_token_cap s) 1 MAX_BUNDLE_TOKEN_CAP;;
  _require_finite_between "challenger_z" (challenger_z s) 0 3;;
  require (bool_decide (mode s = OFF) ||
      negb ((daily_bundle_cap s =? 0) || (daily_dollar_cap_microusd s =? 0)))
    (ConfirmationPolicyError "shadow/enforce mode requires positive daily bundle and dollar caps").

(** * Candidates *)

Record ConfirmationCandidate := {
  agent_id : string;
  owner_id : string;
  artifact_sha256 : string;
  bench_version : Z;
  base_composite : F64;
  base_stderr : option F64;
  first_seen : datetime;
  confirmation_state : ConfirmationState;
  full_composite : option F64
}.

Definition aware (t : datetime) : bool := match t with Aware _ => true | Naive _ => false end.
(** [t.astimezone(UTC)] of an aware [datetime], which every candidate has. *)
Definition instant_of (t : datetime) : Z := match t with Aware i => i | Naive w => w end.

Definition optional_finite (name : string) (value : option F64) : result unit :=
  match value with Some v => _require_finite_between name v 0 1 | None => Ok tt end.

Definition check_candidate (c : ConfirmationCandidate) : result unit :=
  require (negb (String.eqb (agent_id c) "") && negb (String.eqb (owner_id c) ""))
    (ConfirmationPolicyError "candidate agent and owner ids are required");;
  _require_sha256 (artifact_sha256 c) "artifact sha256";;
  _require_int_between "bench_version" (bench_version c) 1 1000000;;
  _require_finite_between "base_composite" (base_composite c) 0 1;;
  optional_finite "base_stderr" (base_stderr c);;
  optional_finite "full_composite" (full_composite c);;
  require (aware (first_seen c)) (ConfirmationPolicyError "first_seen must be timezone-aware").

(** [0.0 <= x <= 1.0] *)
Definition unit_range (x : F64) : bool := fleb (Fin 0) x && fleb x (of_int 1).

Definition full_confirmation_eligible (c : ConfirmationCandidate) : bool :=
  supports_confirmation (bench_version c) && bool_decide (confirmation_state c = COMPLETED) &&
  match full_composite c with Some x => isfinite x && unit_range x | None => false end.

Definition reward_eligible (c : ConfirmationCandidate) (m : ConfirmationMode) : bool :=
  if negb (supports_confirmation (bench_version c)) || negb (bool_decide (m = ENFORCE)) then true
  else full_confirmation_eligible c.

(** * The boards *)

Inductive ScoreAxis := Base | Full.

Definition axis_score (axis : ScoreAxis) (c : ConfirmationCandidate) : F64 :=
  match axis with
  | Base => base_composite c
  | Full => default (of_int (-1)) (full_composite c)
  end.

(** The key is [(-score, first_seen, agent_id)]. *)
Definition candidate_cmp (axis : ScoreAxis) : ConfirmationCandidate → ConfirmationCandidate → comparison :=
  cmp_then (cmp_desc (cmp_by fcompare (axis_score axis)))
    (cmp_then (cmp_by Z.compare (λ c, instant_of (first_seen c))) (cmp_by str_cmp agent_id)).

Definition before (axis : ScoreAxis) (a b : ConfirmationCandidate) : bool :=
  match candidate_cmp axis a b with Lt => true | _ => false end.

Definition keep_best (axis : ScoreAxis) (by_owner : list (string * ConfirmationCandidate))
    (c : ConfirmationCandidate) : list (string * ConfirmationCandidate) :=
  match dict_get (owner_id c) by_owner with
  | None => dict_set (owner_id c) c by_owner
  | Some current => if before axis c current then dict_set (owner_id c) c by_owner else by_owner
  end.

Definition _group_best (axis : ScoreAxis) (candidates : list ConfirmationCandidate)
    : list ConfirmationCandidate :=
  py_sorted (candidate_cmp axis) ((foldl (keep_best axis) [] candidates).*2).

(** * Selection *)

Inductive CutoffSource := ConfirmedFrontier | BaseFrontier | ScoreThreshold | NoCutoff.

Record CandidateSelection := {
  base_board : list ConfirmationCandidate;
  confirmed_board : list ConfirmationCandidate;
  selected : list ConfirmationCandidate;
  top_n_agent_ids : list string;
  challenger_agent_ids : list string;
  threshold_agent_ids : list string;
  missing_uncertainty_agent_ids : list string;
  cutoff : option ConfirmationCandidate;
  cutoff_source : CutoffSource
}.
Definition pending (s : CandidateSelection) : list ConfirmationCandidate :=
  filter (λ c, full_confirmation_eligible c = false) (selected s).

Definition confirmation_bench_version_error (subject : string) : string :=
  "confirmation " +:+ subject +:+ " require a benchmark carrying base evidence (" +:+
  String.concat ", " (map (λ v, "v" +:+ pretty v) CONFIRMATION_BENCH_VERSIONS) +:+ ")".

(** [round(x * 1_000_000)]: half to even. *)
Definition micros_of (x : F64) : Z :=
  match fmul x (of_int 1000000) with Fin a => rne a f64_one | _ => 0 end.

Section selection.
Context {LM : Libm}.

(** [(crosses, missing_required_uncertainty)] *)
Definition plausibly_crosses_base_cutoff (c cut : ConfirmationCandidate) (challenger_z : F64)
    : result (bool * bool) :=
  require (bench_version c =? bench_version cut)
    (ConfirmationPolicyError "cutoff comparison cannot mix bench versions");;
  _require_finite_between "challenger_z" challenger_z 0 3;;
  let gap := fsub (base_composite cut) (base_composite c) in
  if fleb gap (Fin 0) then Ok (true, false)
  else match base_stderr c, base_stderr cut with
       | Some a, Some b =>
           let tolerance := fmul challenger_z (fsqrt (fadd (libm_sq a) (libm_sq b))) in
           Ok (fleb gap tolerance, false)
       | _, _ => Ok (false, true)
       end.

Fixpoint sort_challengers (cut : ConfirmationCandidate) (challenger_z : F64)
    (rows : list ConfirmationCandidate)
    : result (list ConfirmationCandidate * list ConfirmationCandidate) :=
  match rows with
  | [] => Ok ([], [])
  | c :: rows' =>
      plausibly_crosses_base_cutoff c cut challenger_z ≫= λ '(crosses, missing),
      sort_challengers cut challenger_z rows' ≫= λ '(challengers, uncertain),
      Ok (if crosses : bool then (c :: challengers, uncertain)
          else if missing : bool then (challengers, c :: uncertain) else (challengers, uncertain))
  end.

Definition choose_cutoff (top_n : nat) (confirmed base : list ConfirmationCandidate)
    : option ConfirmationCandidate * CutoffSource :=
  if (top_n <=? length confirmed)%nat then (confirmed !! (top_n - 1)%nat, ConfirmedFrontier)
  else if (top_n <=? length base)%nat then (base !! (top_n - 1)%nat, BaseFrontier)
  else (None, NoCutoff).

Definition one_version (rows : list ConfirmationCandidate) : bool :=
  match rows with
  | [] => true
  | r :: rows' => forallb (λ c, bench_version c =? bench_version r) rows'
  end.

(** The frozen sets of the result are lists without regard to order. *)
Definition select_confirmation_candidates (rows : list ConfirmationCandidate) (top_n : Z)
    (challenger_z : F64) (eligibility : ConfirmationEligibilityMode) (min_base_score_micros : Z)
    : result CandidateSelection :=
  _require_int_between "top_n" top_n 1 MAX_TOP_N;;
  _require_int_between "min_base_score_micros" min_base_score_micros 0 1000000;;
  _require_finite_between "challenger_z" challenger_z 0 3;;
  require (one_version rows)
    (ConfirmationPolicyError "candidate selection cannot mix bench versions");;
  require (match rows with [] => true | r :: _ => supports_confirmation (bench_version r) end)
    (ConfirmationPolicyError (confirmation_bench_version_error "candidates"));;
  let base := _group_best Base rows in
  let confirmed := _group_best Full (filter (λ c, full_confirmation_eligible c = true) rows) in
  match eligibility with
  | SCORE_THRESHOLD =>
      let chosen := filter (λ c, (min_base_score_micros <=? micros_of (base_composite c)) = true) base in
      Ok {| base_board := base; confirmed_board := confirmed; selected := chosen;
            top_n_agent_ids := []; challenger_agent_ids := [];
            threshold_agent_ids := agent_id <$> chosen; missing_uncertainty_agent_ids := [];
            cutoff := None; cutoff_source := ScoreThreshold |}
  | RANK =>
      let n := Z.to_nat top_n in
      let top := take n base in
      let '(cut, source) := choose_cutoff n confirmed base in
      match cut with
      | Some c => sort_challengers c challenger_z (drop n base)
      | None => Ok ([], [])
      end ≫= λ '(challengers, uncertain),
      Ok {| base_board := base; confirmed_board := confirmed; selected := top ++ challengers;
            top_n_agent_ids := agent_id <$> top; challenger_agent_ids := agent_id <$> challengers;
            threshold_agent_ids := []; missing_uncertainty_agent_ids := agent_id <$> uncertain;
            cutoff := cut; cutoff_source := source |}
  end.
End selection.

(** * Keys and the lifecycle *)

Record ConfirmationBundleKey := {
  key_artifact_sha256 : string;
  key_bench_version : Z;
  key_profile_revision : string;
  key_profile_checksum : string;
  retest_generation : Z
}.
#[global] Instance bundle_key_eq_dec : EqDecision ConfirmationBundleKey.
Proof. solve_decision. Defined.

Definition check_bundle_key (k : ConfirmationBundleKey) : result unit :=
  _require_sha256 (key_artifact_sha256 k) "artifact sha256";;
  _require_sha256 (key_profile_checksum k) "profile checksum";;
  _require_int_between "bench_version" (key_bench_version k) 1 1000000;;
  _require_int_between "retest_generation" (retest_generation k) 0 1000000;;
  require (negb (String.eqb (key_profile_revision k) "") &&
           (Z.of_nat (String.length (key_profile_revision k)) <=? 128))
    (ConfirmationPolicyError "profile revision must contain 1-128 chars").
Definition new_bundle_key (k : ConfirmationBundleKey) : result ConfirmationBundleKey :=
  check_bundle_key k;; Ok k.
Definition for_candidate (c : ConfirmationCandidate) (p : ConfirmationProfileRef) (generation : Z)
    : result ConfirmationBundleKey :=
  new_bundle_key {| key_artifact_sha256 := artifact_sha256 c; key_bench_version := bench_version c;
    key_profile_revision := ref_revision p; key_profile_checksum := ref_checksum p;
    retest_generation := generation |}.

Definition reusable_completed_evidence (existing_key : ConfirmationBundleKey)
    (existing_state : ConfirmationState) (requested_key : ConfirmationBundleKey) : bool :=
  bool_decide (existing_state = COMPLETED) && bool_decide (existing_key = requested_key).

Definition authorize_retest (k : ConfirmationBundleKey) (state : ConfirmationState)
    (operator_authorized : bool) : result ConfirmationBundleKey :=
  require operator_authorized (ConfirmationPolicyError "confirmation retest requires operator audit");;
  require (bool_decide (state = COMPLETED))
    (ConfirmationPolicyError "only completed evidence can be superseded");;
  new_bundle_key {| key_artifact_sha256 := key_artifact_sha256 k;
    key_bench_version := key_bench_version k; key_profile_revision := key_profile_revision k;
    key_profile_checksum := key_profile_checksum k; retest_generation := retest_generation k + 1 |}.

Definition _ALLOWED_TRANSITIONS (s : ConfirmationState) : list ConfirmationState :=
  match s with
  | BASE_ONLY => [PENDING; BLOCKED_BUDGET]
  | BLOCKED_BUDGET => [PENDING]
  | PENDING => [LEASED; BLOCKED_BUDGET]
  | LEASED => [COMPLETED; FAILED]
  | FAILED => [PENDING]
  | COMPLETED => [SUPERSEDED]
  | SUPERSEDED => []
  end.
Definition transition_confirmation_state (current target : ConfirmationState) : result ConfirmationState :=
  require (bool_decide (target ∈ _ALLOWED_TRANSITIONS current))
    (ConfirmationPolicyError ("invalid confirmation transition " +:+ state_value current +:+
       " -> " +:+ state_value target));;
  Ok target.

(** * The daily budget *)

(** A UTC day is its number since 1970-01-01. *)
Definition day_number (instant : Z) : Z := instant / seconds 86400.
Definition utc_day (now : datetime) : result Z :=
  match now with
  | Aware i => Ok (day_number i)
  | Naive _ => Err (ConfirmationPolicyError "budget time must be timezone-aware")
  end.

Record DailyBudgetSnapshot := {
  snap_day : Z;
  snap_revision : Z;
  issued_attempts : Z;
  outstanding_reserved_microusd : Z;
  settled_microusd : Z
}.
Definition check_snapshot (s : DailyBudgetSnapshot) : result unit :=
  _require_int_between "revision" (snap_revision s) 0 (2 ^ 62);;
  _require_int_between "issued_attempts" (issued_attempts s) 0 (2 ^ 62);;
  _require_int_between "outstanding_reserved_microusd" (outstanding_reserved_microusd s) 0 (2 ^ 62);;
  _require_int_between "settled_microusd" (settled_microusd s) 0 (2 ^ 62).
Definition new_snapshot (s : DailyBudgetSnapshot) : result DailyBudgetSnapshot :=
  check_snapshot s;; Ok s.
Definition committed_microusd (s : DailyBudgetSnapshot) : Z :=
  outstanding_reserved_microusd s + settled_microusd s.
Definition for_time (now : datetime) : result DailyBudgetSnapshot :=
  utc_day now ≫= λ day,
  new_snapshot {| snap_day := day; snap_revision := 0; issued_attempts := 0;
    outstanding_reserved_microusd := 0; settled_microusd := 0 |}.

Record BudgetReservation := {
  reservation_id : string;
  bundle_key : ConfirmationBundleKey;
  res_day : Z;
  reserved_microusd : Z;
  res_state : ReservationState;
  actual_microusd : option Z;
  failed_attempt : option bool
}.
Definition check_reservation (r : BudgetReservation) : result unit :=
  require (negb (String.eqb (reservation_id r) "")) (ConfirmationPolicyError "reservation id is required");;
  _require_int_between "reserved_microusd" (reserved_microusd r) 1 (2 ^ 62);;
  match actual_microusd r with
  | Some a => _require_int_between "actual_microusd" a 0 (2 ^ 62)
  | None => Ok tt
  end;;
  require (match res_state r, actual_microusd r, failed_attempt r with
           | RESERVED, None, None => true | RESERVED, _, _ => false | SETTLED, _, _ => true end)
    (ConfirmationPolicyError "an unsettled reservation cannot carry settlement fields");;
  require (match res_state r, actual_microusd r, failed_attempt r with
           | SETTLED, Some _, Some _ => true | SETTLED, _, _ => false | RESERVED, _, _ => true end)
    (ConfirmationPolicyError "a settled reservation requires actual cost and outcome").
Definition new_reservation (r : BudgetReservation) : result BudgetReservation :=
  check_reservation r;; Ok r.

Definition stale_message (expected found : Z) : string :=
  "budget revision changed: expected " +:+ pretty expected +:+ ", found " +:+ pretty found.

Definition reserve_daily_budget (s : DailyBudgetSnapshot) (expected_revision : Z)
    (settings : ConfirmationBundleSettings) (key : ConfirmationBundleKey) (reservation : string)
    (reserve_microusd : Z) : result (DailyBudgetSnapshot * BudgetReservation) :=
  require (expected_revision =? snap_revision s)
    (StaleBudgetSnapshot (stale_message expected_revision (snap_revision s)));;
  require (negb (bool_decide (mode settings = OFF)))
    (ConfirmationPolicyError "confirmation bundle policy is off");;
  _require_int_between "reserve_microusd" reserve_microusd 1 (2 ^ 62);;
  require (issued_attempts s + 1 <=? daily_bundle_cap settings) (BudgetExhausted "bundle_cap");;
  require (committed_microusd s + reserve_microusd <=? daily_dollar_cap_microusd settings)
    (BudgetExhausted "dollar_cap");;
  new_snapshot {| snap_day := snap_day s; snap_revision := snap_revision s + 1;
    issued_attempts := issued_attempts s + 1;
    outstanding_reserved_microusd := outstanding_reserved_microusd s + reserve_microusd;
    settled_microusd := settled_microusd s |} ≫= λ updated,
  new_reservation {| reservation_id := reservation; bundle_key := key; res_day := snap_day s;
    reserved_microusd := reserve_microusd; res_state := RESERVED; actual_microusd := None;
    failed_attempt := None |} ≫= λ r,
  Ok (updated, r).

Definition settle_daily_budget (s : DailyBudgetSnapshot) (r : BudgetReservation)
    (expected_revision actual : Z) (failed : bool) : result (DailyBudgetSnapshot * BudgetReservation) :=
  require (expected_revision =? snap_revision s)
    (StaleBudgetSnapshot (stale_message expected_revision (snap_revision s)));;
  require (res_day r =? snap_day s)
    (ConfirmationPolicyError "reservation must settle against its original UTC-day row");;
  require (bool_decide (res_state r = RESERVED)) (ConfirmationPolicyError "reservation was already settled");;
  require (reserved_microusd r <=? outstanding_reserved_microusd s)
    (ConfirmationPolicyError "budget snapshot is missing the reservation");;
  _require_int_between "actual_microusd" actual 0 (2 ^ 62);;
  new_snapshot {| snap_day := snap_day s; snap_revision := snap_revision s + 1;
    issued_attempts := issued_attempts s;
    outstanding_reserved_microusd := outstanding_reserved_microusd s - reserved_microusd r;
    settled_microusd := settled_microusd s + actual |} ≫= λ updated,
  new_reservation {| reservation_id := reservation_id r; bundle_key := bundle_key r;
    res_day := res_day r; reserved_microusd := reserved_microusd r; res_state := SETTLED;
    actual_microusd := Some actual; failed_attempt := Some failed |} ≫= λ settled,
  Ok (updated, settled).

(** * The selection does not depend on the order of the candidates *)

#[global] Instance candidate_cmp_order axis : CmpOrder (candidate_cmp axis).
Proof. unfold candidate_cmp. apply _. Qed.

Section boards.
Variable axis : ScoreAxis.
Implicit Types (c : ConfirmationCandidate) (rows : list ConfirmationCandidate).

(** [c] is the best of its owner's rows. *)
Definition best_of rows c : Prop :=
  c ∈ rows ∧ ∀ c', c' ∈ rows → owner_id c' = owner_id c → candidate_cmp axis c c' ≠ Gt.

Definition identified rows : Prop := NoDup (agent_id <$> rows).

Lemma candidates_same_agent rows a b : identified rows → a ∈ rows → b ∈ rows →
  agent_id a = agent_id b → a = b.
Proof.
  unfold identified. intros Hn Hx Hy E. induction rows as [|e rows IH]; [by apply elem_of_nil in Hx|].
  csimpl in Hn. apply NoDup_cons in Hn as [He Hn].
  apply elem_of_cons in Hx as [->|Hx], Hy as [->|Hy]; [done|..|by apply IH];
    destruct He; [rewrite E | rewrite <- E]; by apply list_elem_of_fmap_2.
Qed.

Lemma candidates_distinct rows : identified rows → key_distinct (candidate_cmp axis) rows.
Proof.
  intros Hn x y Hx Hy E%cmp_then_Eq%cmp_then_Eq%str_cmp_Eq. by eapply candidates_same_agent.
Qed.

(** What the loop over the rows has gathered. *)
Definition gathered rows (d : list (string * ConfirmationCandidate)) : Prop :=
  NoDup d.*1 ∧ (∀ o c, dict_get o d = Some c → owner_id c = o ∧ best_of rows c) ∧
  (∀ c, c ∈ rows → is_Some (dict_get (owner_id c) d)).

Lemma before_spec a b : before axis a b = true ↔ candidate_cmp axis a b = Lt.
Proof. unfold before. by destruct (candidate_cmp axis a b). Qed.

Lemma best_of_add rows c k : best_of rows k →
  (owner_id c = owner_id k → candidate_cmp axis k c ≠ Gt) → best_of (rows ++ [c]) k.
Proof.
  intros [Hk Hle] Hc. split; [by apply elem_of_app; left|].
  intros c' Hin Ho. apply elem_of_app in Hin as [Hin|Hin]; [by apply Hle|].
  apply list_elem_of_singleton in Hin as ->. by apply Hc.
Qed.

Lemma best_of_new rows c :
  (∀ c', c' ∈ rows → owner_id c' = owner_id c → candidate_cmp axis c c' ≠ Gt) → best_of (rows ++ [c]) c.
Proof.
  intros H. split; [by apply elem_of_app; right; apply list_elem_of_singleton|].
  intros c' Hin Ho. apply elem_of_app in Hin as [Hin|Hin]; [by apply H|].
  apply list_elem_of_singleton in Hin as ->. by rewrite (cmp_refl (candidate_cmp axis)).
Qed.

Lemma gathered_set rows d c : gathered rows d → best_of (rows ++ [c]) c →
  gathered (rows ++ [c]) (dict_set (owner_id c) c d).
Proof.
  intros (Hn & Hbest & Hall) Hc. split_and!; [by apply NoDup_dict_set|..].
  - intros o k. rewrite dict_get_set. case_decide as Ho; [by intros [= <-]|].
    intros [<- Hk]%Hbest. split; [done|]. by apply best_of_add.
  - intros k Hk. rewrite dict_get_set. case_decide as Ho; [done|].
    apply elem_of_app in Hk as [Hk|Hk]; [by apply Hall|]. by apply list_elem_of_singleton in Hk as ->.
Qed.

Lemma keep_best_gathered rows d c : gathered rows d → gathered (rows ++ [c]) (keep_best axis d c).
Proof.
  intros Hg. pose proof Hg as (Hn & Hbest & Hall). unfold keep_best.
  destruct (dict_get (owner_id c) d) as [k|] eqn:E.
  - apply Hbest in E as Hk. destruct Hk as [Ho Hk]. destruct (before axis c k) eqn:Hb.
    + apply before_spec in Hb. apply gathered_set; [done|]. apply best_of_new.
      intros c' Hc' Ho'. erewrite cmp_lt_trans; [done|apply _|exact Hb|].
      apply (proj2 Hk); [done|congruence].
    + assert (candidate_cmp axis k c ≠ Gt) as Hkc.
      { intros Hgt. apply cmp_lt_gt in Hgt; [|apply _]. apply before_spec in Hgt. congruence. }
      split_and!; [done|..].
      * intros o k' E'. apply Hbest in E' as Hk'. destruct Hk' as [<- Hk'].
        split; [done|]. apply best_of_add; [done|]. intros Hck. rewrite <- Hck, E in E'. by injection E' as <-.
      * intros k' Hin. apply elem_of_app in Hin as [Hin|Hin]; [by apply Hall|].
        by apply list_elem_of_singleton in Hin as ->.
  - apply gathered_set; [done|]. apply best_of_new. intros c' Hc' Ho.
    destruct (Hall c' Hc') as [x Hx]. congruence.
Qed.

Lemma gathered_all rows : gathered rows (foldl (keep_best axis) [] rows).
Proof.
  induction rows as [|c rows IH] using rev_ind.
  - split_and!; [constructor|done|]. intros c Hc. by apply elem_of_nil in Hc.
  - rewrite foldl_app. by apply keep_best_gathered.
Qed.

Lemma best_unique rows a b : identified rows → best_of rows a → best_of rows b →
  owner_id a = owner_id b → a = b.
Proof.
  intros Hn [Ha Hla] [Hb Hlb] Ho. apply (candidates_distinct rows Hn); [done|done|].
  destruct (candidate_cmp axis a b) eqn:E; [done|..].
  - apply cmp_lt_gt in E; [|apply _]. by destruct (Hlb a Ha Ho).
  - by destruct (Hla b Hb (eq_sym Ho)).
Qed.

Lemma elem_of_board rows c : identified rows →
  c ∈ _group_best axis rows ↔ best_of rows c.
Proof.
  intros Hn. unfold _group_best. rewrite elem_of_py_sorted.
  destruct (gathered_all rows) as (Hk & Hbest & Hall). set (d := foldl _ _ _) in *. split.
  - intros ((o & c') & -> & Hin)%list_elem_of_fmap. cbn. apply (elem_dict_get _ _ _ Hk) in Hin.
    by apply Hbest in Hin as [_ ?].
  - intros Hc. destruct (Hall c (proj1 Hc)) as [c' Hc']. apply Hbest in Hc' as Hb.
    destruct Hb as [Ho Hb]. assert (c' = c) as -> by by eapply best_unique.
    apply dict_get_Some_elem in Hc'. apply list_elem_of_fmap. by exists (owner_id c, c).
Qed.

Lemma board_owners rows : identified rows → NoDup (owner_id <$> _group_best axis rows).
Proof.
  intros Hn. unfold _group_best. rewrite py_sorted_perm.
  destruct (gathered_all rows) as (Hk & Hbest & _). set (d := foldl _ _ _) in *.
  assert (owner_id <$> d.*2 = d.*1) as ->; [|done].
  rewrite <- list_fmap_compose. apply Forall_fmap_ext. apply Forall_forall. intros [o c] Hin.
  cbn. apply (elem_dict_get _ _ _ Hk) in Hin. by apply Hbest in Hin as [? _].
Qed.

Lemma board_perm rows rows' : rows ≡ₚ rows' → identified rows →
  _group_best axis rows = _group_best axis rows'.
Proof.
  intros Hp Hn. assert (identified rows') as Hn' by (unfold identified; by rewrite <- Hp).
  assert (∀ l, identified l → NoDup (_group_best axis l)) as Hnd.
  { intros l Hl. by eapply NoDup_fmap_1, board_owners. }
  assert (_group_best axis rows ≡ₚ _group_best axis rows') as Hb.
  { apply NoDup_Permutation; [by apply Hnd..|]. intros c. rewrite !elem_of_board by done.
    unfold best_of. by setoid_rewrite Hp. }
  unfold _group_best in *. apply (py_sorted_perm_eq (candidate_cmp axis)).
  { etrans; [symmetry; apply py_sorted_perm|]. etrans; [exact Hb|apply py_sorted_perm]. }
  eapply key_distinct_incl; [|by apply (candidates_distinct rows)].
  intros c Hc. apply (elem_of_py_sorted (candidate_cmp axis)), (elem_of_board rows c Hn) in Hc. apply Hc.
Qed.
End boards.

Section selecting.
Context {LM : Libm}.
Implicit Types rows : list ConfirmationCandidate.

Lemma one_version_spec rows :
  one_version rows = true ↔ ∀ a b, a ∈ rows → b ∈ rows → bench_version a = bench_version b.
Proof.
  destruct rows as [|r rows]; cbn [one_version].
  - split; [intros _ a b Ha; by apply elem_of_nil in Ha|done].
  - rewrite forallb_forall. split.
    + intros H. assert (∀ a, a ∈ r :: rows → bench_version a = bench_version r) as Hr.
      { intros a Ha. apply elem_of_cons in Ha as [->|Ha]; [done|].
        apply Z.eqb_eq, H. by apply list_elem_of_In. }
      intros a b Ha Hb. by rewrite (Hr a Ha), (Hr b Hb).
    + intros H c Hc. apply Z.eqb_eq, H; [right; by apply list_elem_of_In|left].
Qed.

Lemma one_version_perm rows rows' : rows ≡ₚ rows' → one_version rows = one_version rows'.
Proof.
  intros Hp. apply eq_true_iff_eq. rewrite !one_version_spec. by setoid_rewrite Hp.
Qed.

Definition supported rows : bool :=
  match rows with [] => true | r :: _ => supports_confirmation (bench_version r) end.

Lemma supported_perm rows rows' : rows ≡ₚ rows' → one_version rows = true →
  supported rows = supported rows'.
Proof.
  intros Hp H. assert (one_version rows' = true) as H' by by rewrite <- (one_version_perm _ _ Hp).
  destruct rows as [|a rows], rows' as [|b rows']; [done|..].
  - by apply Permutation_nil_l in Hp.
  - by apply Permutation_nil_r in Hp.
  - cbn. f_equal. apply (proj1 (one_version_spec (a :: rows)) H); [left|]. rewrite Hp. left.
Qed.

Definition eligible_rows rows : list ConfirmationCandidate :=
  filter (λ c, full_confirmation_eligible c = true) rows.

(** The cohort does not depend on the order of the rows. However the platform
    lists the candidates, the selection (boards, cutoff, challengers and those
    lacking an uncertainty) and the refusals are the same, so two reconciling
    workers select the same submissions. *)
Lemma selection_order_independent rows rows' top_n challenger_z eligibility min_base :
  rows ≡ₚ rows' → NoDup (agent_id <$> rows) →
  select_confirmation_candidates rows top_n challenger_z eligibility min_base =
  select_confirmation_candidates rows' top_n challenger_z eligibility min_base.
Proof.
  intros Hp Hn. unfold select_confirmation_candidates.
  rewrite <- (one_version_perm _ _ Hp). do 3 (apply bind_ext; intros _).
  destruct (one_version rows) eqn:Hv; [|done]. cbn [require mbind result_bind].
  pose proof (supported_perm _ _ Hp Hv) as Hs. unfold supported in Hs. rewrite <- Hs.
  rewrite <- (board_perm Base rows rows') by done.
  assert (_group_best Full (eligible_rows rows) = _group_best Full (eligible_rows rows')) as E.
  { apply board_perm; [by unfold eligible_rows; rewrite Hp|].
    eapply sublist_NoDup; [exact Hn|]. by apply fmap_sublist, sublist_filter. }
  unfold eligible_rows in E. by rewrite E.
Qed.

(** How far a candidate may lie below the cutoff. *)
Definition tolerance challenger_z a b : F64 :=
  fmul challenger_z (fsqrt (fadd (libm_sq a) (libm_sq b))).

(** A row that scores at the cutoff or above, or below it by no more than the
    allowed uncertainty. *)
Definition reaches challenger_z (cut c : ConfirmationCandidate) : bool :=
  fleb (base_composite cut) (base_composite c) ||
  match base_stderr c, base_stderr cut with
  | Some a, Some b => fleb (fsub (base_composite cut) (base_composite c)) (tolerance challenger_z a b)
  | _, _ => false
  end.

(** An uncertainty the comparison of two rows would need is missing. *)
Definition lacks_uncertainty (cut c : ConfirmationCandidate) : bool :=
  negb (bool_decide (is_Some (base_stderr c)) && bool_decide (is_Some (base_stderr cut))).

Lemma check_candidate_finite c : check_candidate c = Ok tt → isfinite (base_composite c) = true.
Proof.
  unfold check_candidate. intros (? & _ & (? & _ & (? & _ & (? & H & _)%bind_Ok)%bind_Ok)%bind_Ok)%bind_Ok.
  apply require_Ok in H. unfold finite_between in H. by bool_to_prop.
Qed.

(** The rounded difference of two finite floats has the sign of the exact one. *)
Lemma gap_sign a b : isfinite a = true → isfinite b = true → fleb (fsub a b) (Fin 0) = fleb a b.
Proof.
  destruct a as [a| | |], b as [b| | |]; try done. intros _ _.
  change (fsub (Fin a) (Fin b)) with (round (a + - b) 1). apply eq_true_iff_eq. split; intros H.
  - apply fleb_Fin, Z.nlt_ge. intros Hlt.
    assert (rep 1) as H1 by (apply (bool_decide_unpack _); vm_compute; exact I).
    pose proof (round_mono 1 1 (a + - b) 1 eq_refl eq_refl ltac:(lia)) as Hm. rewrite (round_rep 1 H1) in Hm.
    destruct (round (a + - b) 1) as [x| | |]; try done. apply fleb_Fin in H, Hm. lia.
  - apply fleb_Fin in H. pose proof (round_mono (a + - b) 1 0 1 eq_refl eq_refl ltac:(lia)) as Hm.
    by rewrite (round_rep 0 rep_0) in Hm.
Qed.

Lemma crosses_spec c cut z r :
  isfinite (base_composite c) = true → isfinite (base_composite cut) = true →
  plausibly_crosses_base_cutoff c cut z = Ok r →
  r = (reaches z cut c, negb (reaches z cut c) && lacks_uncertainty cut c).
Proof.
  intros Hc Hk (? & _ & (? & _ & H)%bind_Ok)%bind_Ok. cbn zeta in H. revert H. unfold reaches, lacks_uncertainty.
  rewrite gap_sign by done. destruct (fleb (base_composite cut) (base_composite c)); [by intros [= <-]|].
  destruct (base_stderr c), (base_stderr cut); intros [= <-]; cbn; rewrite ?andb_false_r; done.
Qed.

Lemma sort_challengers_spec cut z rows challengers uncertain :
  isfinite (base_composite cut) = true → Forall (λ c, isfinite (base_composite c) = true) rows →
  sort_challengers cut z rows = Ok (challengers, uncertain) →
  challengers = filter (λ c, reaches z cut c = true) rows ∧
  uncertain = filter (λ c, negb (reaches z cut c) && lacks_uncertainty cut c = true) rows.
Proof.
  intros Hk Hf. revert challengers uncertain. induction Hf as [|c rows Hc _ IH]; intros challengers uncertain.
  - by intros [= <- <-].
  - cbn [sort_challengers]. intros ([crosses missing] & Hx & H)%bind_Ok.
    apply bind_Ok in H as ([ch un] & Hr & H). destruct (IH _ _ Hr) as [-> ->].
    apply (crosses_spec c cut z _ Hc Hk) in Hx. injection Hx as -> ->. rewrite !filter_cons.
    destruct (reaches z cut c); cbn [negb andb] in *; [by injection H as <- <-|].
    destruct (lacks_uncertainty cut c); by injection H as <- <-.
Qed.

Lemma choose_cutoff_elem rows n c source : NoDup (agent_id <$> rows) →
  choose_cutoff n (_group_best Full (filter (λ c, full_confirmation_eligible c = true) rows))
    (_group_best Base rows) = (Some c, source) → c ∈ rows.
Proof.
  intros Hn. unfold choose_cutoff. case_match; [|case_match; [|done]].
  - intros [= E%list_elem_of_lookup_2 _]. apply elem_of_board in E as [E _].
    + by apply list_elem_of_filter in E as [_ ?].
    + eapply sublist_NoDup; [exact Hn|]. by apply fmap_sublist, sublist_filter.
  - intros [= E%list_elem_of_lookup_2 _]. by apply elem_of_board in E as [E _].
Qed.

(** The cutoff is the last row of the leading [n] of the confirmed board, or of
    the base board while the confirmed one is shorter. *)
Lemma choose_cutoff_lookup n confirmed base : (0 < n)%nat →
  (choose_cutoff n confirmed base).1 =
  (if (n <=? length confirmed)%nat then confirmed else base) !! (n - 1)%nat.
Proof.
  intros Hn. unfold choose_cutoff. destruct (n <=? length confirmed)%nat; [done|].
  destruct (n <=? length base)%nat eqn:E; [done|]. apply Nat.leb_gt in E. symmetry. apply lookup_ge_None. lia.
Qed.

(** What a rank selection selects of the rest of the board. *)
Lemma rank_challengers rows n z cut source challengers uncertain :
  NoDup (agent_id <$> rows) → Forall (λ c, check_candidate c = Ok tt) rows →
  choose_cutoff n (_group_best Full (eligible_rows rows)) (_group_best Base rows) = (cut, source) →
  match cut with
  | Some c => sort_challengers c z (drop n (_group_best Base rows))
  | None => Ok ([], [])
  end = Ok (challengers, uncertain) →
  (∀ c, c ∈ challengers ↔ c ∈ drop n (_group_best Base rows) ∧ ∃ k, cut = Some k ∧ reaches z k c = true) ∧
  (∀ c, c ∈ uncertain ↔ c ∈ drop n (_group_best Base rows) ∧
     ∃ k, cut = Some k ∧ reaches z k c = false ∧ lacks_uncertainty k c = true) ∧
  challengers `sublist_of` drop n (_group_best Base rows).
Proof.
  intros Hn Hf Hcut Hs.
  assert (∀ c, c ∈ rows → isfinite (base_composite c) = true) as Hfin.
  { intros c Hc. eapply check_candidate_finite. by eapply Forall_forall in Hf. }
  destruct cut as [k|].
  - apply sort_challengers_spec in Hs as [-> ->].
    + split_and!; [intros c; rewrite list_elem_of_filter; naive_solver| |apply sublist_filter].
      intros c. rewrite list_elem_of_filter, andb_true_iff, negb_true_iff. naive_solver.
    + eapply Hfin, choose_cutoff_elem; [exact Hn|exact Hcut].
    + apply Forall_forall. intros c Hc. apply Hfin. apply (elem_of_board Base rows c Hn).
      eapply elem_of_sublist; [exact Hc|apply sublist_drop].
  - injection Hs as <- <-. split_and!; [..|apply sublist_nil_l];
      intros c; split; try (by intros ?%elem_of_nil); naive_solver.
Qed.

(** C33: The cohort is complete and minimal. In a rank selection of candidates that
    pass their checks and have distinct identifiers, the two boards hold, best
    first, exactly the best submission of each owner on the base axis and the
    best fully confirmed one; the cutoff is the [top_n]-th of the
    confirmed board, or of the base board while that is shorter. Selected are the
    owners' best submissions that are among the first [top_n] of the base board,
    or whose score is at the cutoff or above, or below it by no more than the
    allowed uncertainty: every such submission, once per owner, and no other. A
    submission is reported as lacking an uncertainty exactly when it is left out
    and its own or the cutoff's is missing. *)
Theorem selection_complete rows top_n challenger_z min_base s :
  NoDup (agent_id <$> rows) → Forall (λ c, check_candidate c = Ok tt) rows →
  select_confirmation_candidates rows top_n challenger_z RANK min_base = Ok s →
  let n := Z.to_nat top_n in
  (∀ c, c ∈ base_board s ↔ best_of Base rows c) ∧
  (∀ c, c ∈ confirmed_board s ↔ best_of Full (eligible_rows rows) c) ∧
  StronglySorted (cmp_le (candidate_cmp Base)) (base_board s) ∧
  StronglySorted (cmp_le (candidate_cmp Full)) (confirmed_board s) ∧
  cutoff s = (if (n <=? length (confirmed_board s))%nat then confirmed_board s else base_board s) !! (n - 1)%nat ∧
  NoDup (owner_id <$> selected s) ∧
  (∀ c, c ∈ selected s ↔ best_of Base rows c ∧
     (c ∈ take n (base_board s) ∨ ∃ cut, cutoff s = Some cut ∧ reaches challenger_z cut c = true)) ∧
  (∀ c, best_of Base rows c → agent_id c ∈ missing_uncertainty_agent_ids s ↔
     c ∉ selected s ∧ ∃ cut, cutoff s = Some cut ∧ lacks_uncertainty cut c = true).
Proof.
  intros Hn Hf. unfold select_confirmation_candidates.
  intros (? & Htop%require_Ok & (? & _ & (? & _ & (? & _ & (? & _ & H)%bind_Ok)%bind_Ok)%bind_Ok)%bind_Ok)%bind_Ok.
  fold (eligible_rows rows) in H.
  set (base := _group_best Base rows) in *. set (confirmed := _group_best Full (eligible_rows rows)) in *.
  set (n := Z.to_nat top_n) in *. destruct (choose_cutoff n confirmed base) as [cut source] eqn:Hcut.
  apply bind_Ok in H as ([challengers uncertain] & Hs & [= <-]). cbn.
  apply (rank_challengers rows n challenger_z cut source) in Hs as (Hch & Hun & Hsub); [|done..]. fold base in Hch, Hun, Hsub.
  assert (0 < n)%nat as Hpos by (unfold in_range in Htop; bool_to_prop; lia).
  assert (∀ c, c ∈ base ↔ best_of Base rows c) as Hb by (intros c; by apply elem_of_board).
  assert (∀ c, c ∈ base ↔ c ∈ take n base ∨ c ∈ drop n base) as Hsplit.
  { intros c. by rewrite <- elem_of_app, take_drop. }
  assert (NoDup (owner_id <$> base)) as Howners by by apply board_owners.
  assert ((take n base ++ challengers)%list `sublist_of` base) as Hsel.
  { rewrite <- (take_drop n base) at 2. by apply sublist_app. }
  split_and!; [exact Hb| | | | | | |].
  - intros c. apply elem_of_board. eapply sublist_NoDup; [exact Hn|]. apply fmap_sublist, sublist_filter.
  - unfold base, _group_best. apply py_sorted_sorted; apply _.
  - unfold confirmed, _group_best. apply py_sorted_sorted; apply _.
  - rewrite <- choose_cutoff_lookup, Hcut by done. done.
  - eapply sublist_NoDup; [exact Howners|]. by apply fmap_sublist.
  - intros c. rewrite elem_of_app, Hch, <- Hb, Hsplit. tauto.
  - intros c Hc%Hb. rewrite elem_of_app, Hch. split.
    + intros H%list_elem_of_fmap. destruct H as (d & E & Hd). apply Hun in Hd as (Hd & k & -> & Hr & Hl).
      assert (d ∈ base) as Hdb by (apply Hsplit; by right).
      assert (c = d) as ->.
      { apply Hb in Hc, Hdb. exact (candidates_same_agent rows c d Hn (proj1 Hc) (proj1 Hdb) E). }
      split; [|by exists k]. intros [Ht|(_ & k' & [= <-] & Hk')]; [|congruence].
      assert (NoDup base) as Hnd by by eapply NoDup_fmap_1.
      rewrite <- (take_drop n base) in Hnd. apply NoDup_app in Hnd as (_ & Hd' & _). by apply (Hd' d).
    + intros [Hout (k & -> & Hl)]. apply list_elem_of_fmap_2, Hun.
      assert (c ∈ drop n base) as Hd by (apply Hsplit in Hc as [?|?]; [destruct Hout; by left|done]).
      split; [done|]. exists k. split; [done|]. split; [|done].
      destruct (reaches challenger_z k c) eqn:E; [|done]. destruct Hout. right. split; [done|by exists k].
Qed.
End selecting.

(** * Examples *)

Definition sample_candidate (agent owner : string) (base stderr : Z) (seen : Z) : ConfirmationCandidate :=
  {| agent_id := agent; owner_id := owner; artifact_sha256 := String.concat "" (replicate 64 "a");
     bench_version := 12; base_composite := flit base 100; base_stderr := Some (flit stderr 1000);
     first_seen := Aware seen; confirmation_state := BASE_ONLY; full_composite := None |}.

(** Two rows of one owner, an exact tie at the cutoff, one challenger within its
    uncertainty and one beyond. *)
Definition sample_candidates : list ConfirmationCandidate :=
  [sample_candidate "a1" "alice" 90 10 1; sample_candidate "a2" "alice" 95 10 2;
   sample_candidate "b1" "bob" 92 10 3; sample_candidate "c1" "carol" 92 10 4;
   sample_candidate "d1" "dave" 91 10 5; sample_candidate "e1" "erin" 60 10 6].

Definition sample_selection : result CandidateSelection :=
  @select_confirmation_candidates sample_libm sample_candidates 2 DEFAULT_CHALLENGER_Z RANK 0.

Example sample_selected :
  match sample_selection with Ok s => agent_id <$> selected s | Err _ => [] end = ["a2"; "b1"; "c1"; "d1"].
Proof. vm_compute. reflexivity. Qed.

Lemma selection_order_independent_witness :
  @select_confirmation_candidates sample_libm sample_candidates 2 DEFAULT_CHALLENGER_Z RANK 0 =
  @select_confirmation_candidates sample_libm (rev sample_candidates) 2 DEFAULT_CHALLENGER_Z RANK 0.
Proof.
  apply (@selection_order_independent sample_libm).
  - apply Permutation_rev.
  - by apply (bool_decide_unpack _); vm_compute.
Defined.

Lemma selection_complete_witness : ∃ s, sample_selection = Ok s ∧
  agent_id <$> selected s = ["a2"; "b1"; "c1"; "d1"] ∧ NoDup (owner_id <$> selected s).
Proof.
  destruct sample_selection as [s|] eqn:E; [|vm_compute in E; discriminate E].
  exists s. split; [done|]. split.
  - pose proof sample_selected as H. by rewrite E in H.
  - eapply (@selection_complete sample_libm sample_candidates 2 DEFAULT_CHALLENGER_Z 0 s); [..|exact E].
    + by apply (bool_decide_unpack _); vm_compute.
    + repeat constructor; vm_compute; reflexivity.
Defined.
