(* ===== verification/Decimal.v ===== *)
(** Python's [decimal] as the confirmation lane uses it: addition,
    subtraction, multiplication, division and square root under a context of a
    given precision (round half to even), and [quantize] to an integer with
    [ROUND_HALF_UP].

    A [Decimal] is kept as a fraction [n / d]: how its coefficient and exponent
    share the digits is never observed.  An operation computes the exact result
    and rounds it to the precision; the square of the source is the product,
    since no coefficient squared here has more than half the digits of the
    context.  Exponent limits are out of reach. *)
From Stdlib Require Import ZArith Lia.
From stdpp Require Import base list.
From S2P Require Import Prelude Binary64.

#[local] Open Scope Z_scope.

Definition Dec : Type := Z * Z.

(** The number of decimal digits of a positive integer; a digit has more than
    one bit, so the bits are fuel enough. *)
Fixpoint count_digits (fuel : nat) (z : Z) : Z :=
  match fuel with
  | O => 1
  | S fuel => if z <? 10 then 1 else 1 + count_digits fuel (z / 10)
  end.
Definition digits (z : Z) : Z := count_digits (Z.to_nat (Z.log2 z)) z.

Definition up (s : Z) : Z := 10 ^ Z.max 0 s.
Definition down (s : Z) : Z := 10 ^ Z.max 0 (- s).

(** The power of ten that brings the positive fraction [n / d] to [p] digits
    before the point. *)
Definition shift (p n d : Z) : Z :=
  let s := p - (digits n - digits d) in
  if 10 ^ p * (d * down s) <=? n * up s then s - 1 else s.

Definition round_positive (p n d : Z) : Dec :=
  let s := shift p n d in (rne (n * up s) (d * down s) * down s, up s).

(** The exact result [n / d] rounded to the [p] digits of the context. *)
Definition dround (p : Z) (x : Dec) : Dec :=
  let '(n, d) := x in
  match n with
  | Z0 => (0, 1)
  | Zpos _ => round_positive p n d
  | Zneg _ => let '(a, b) := round_positive p (- n) d in (- a, b)
  end.

(** [Decimal(i)] is exact. *)
Definition dec (i : Z) : Dec := (i, 1).
Definition dadd (p : Z) (x y : Dec) : Dec := dround p (x.1 * y.2 + y.1 * x.2, x.2 * y.2).
Definition dsub (p : Z) (x y : Dec) : Dec := dround p (x.1 * y.2 - y.1 * x.2, x.2 * y.2).
Definition dmul (p : Z) (x y : Dec) : Dec := dround p (x.1 * y.1, x.2 * y.2).
(** Division by zero raises; no divisor of the source can be zero. *)
Definition ddiv (p : Z) (x y : Dec) : Dec := dround p (x.1 * y.2 * Z.sgn y.1, x.2 * Z.abs y.1).

(** [Decimal.sqrt] of a value that is not negative: correctly rounded. *)
Definition dsqrt (p : Z) (x : Dec) : Dec :=
  let '(n, d) := x in
  if n <=? 0 then (0, 1) else
  let t := shift (2 * p) n d / 2 in
  let N := n * up (2 * t) in
  let D := d * down (2 * t) in
  let s := Z.sqrt (N / D) in
  let c := match 4 * N ?= (2 * s + 1) * (2 * s + 1) * D with
           | Lt => s | Gt => s + 1 | Eq => if Z.even s then s else s + 1 end in
  (c * down t, up t).

(** [int(x.quantize(Decimal(1), rounding=ROUND_HALF_UP))] *)
Definition half_up (x : Dec) : Z :=
  let '(n, d) := x in Z.sgn n * ((2 * Z.abs n + d) / (2 * d)).

(** * Correct rounding *)

Lemma count_digits_spec fuel z : 0 < z < 2 ^ (Z.of_nat fuel + 1) →
  10 ^ (count_digits fuel z - 1) <= z < 10 ^ count_digits fuel z ∧ 1 <= count_digits fuel z.
Proof.
  revert z. induction fuel as [|fuel IH]; intros z Hz; cbn [count_digits].
  - change (2 ^ (Z.of_nat 0 + 1)) with 2 in Hz. change (10 ^ (1 - 1)) with 1. change (10 ^ 1) with 10. lia.
  - destruct (Z.ltb_spec z 10) as [Hlt|Hge].
    + change (10 ^ (1 - 1)) with 1. change (10 ^ 1) with 10. lia.
    + assert (0 < z / 10 < 2 ^ (Z.of_nat fuel + 1)) as Hq.
      { rewrite Nat2Z.inj_succ in Hz.
        replace (2 ^ (Z.succ (Z.of_nat fuel) + 1)) with (2 * 2 ^ (Z.of_nat fuel + 1)) in Hz
          by (rewrite <- Z.pow_succ_r by lia; f_equal; lia).
        split; [apply Z.div_str_pos; lia|]. apply Z.div_lt_upper_bound; lia. }
      destruct (IH _ Hq) as [[H1 H2] H3]. set (k := count_digits fuel (z / 10)) in *.
      pose proof (Z.div_mod z 10 ltac:(lia)). pose proof (Z.mod_pos_bound z 10 ltac:(lia)).
      replace (1 + k - 1) with (Z.succ (k - 1)) by lia. rewrite Z.pow_succ_r by lia.
      replace (1 + k) with (Z.succ k) by lia. rewrite Z.pow_succ_r by lia. lia.
Qed.

Lemma digits_spec z : 0 < z → 10 ^ (digits z - 1) <= z < 10 ^ digits z ∧ 1 <= digits z.
Proof.
  intros Hz. apply count_digits_spec. pose proof (Z.log2_spec z Hz). pose proof (Z.log2_nonneg z).
  rewrite Z2Nat.id by done. replace (Z.log2 z + 1) with (Z.succ (Z.log2 z)) by lia. lia.
Qed.

Lemma up_pos s : 0 < up s.
Proof. apply Z.pow_pos_nonneg; lia. Qed.
Lemma down_pos s : 0 < down s.
Proof. apply Z.pow_pos_nonneg; lia. Qed.

(** [up] and [down] are the two sides of [10 ^ s]. *)
Lemma up_down s a b : 0 <= a → 0 <= b → s = a - b → 10 ^ a * down s = 10 ^ b * up s.
Proof.
  intros Ha Hb ->. unfold up, down. rewrite <- !Z.pow_add_r by lia. f_equal. lia.
Qed.

Lemma up_succ s : up s * down (s - 1) = 10 * (up (s - 1) * down s).
Proof.
  unfold up, down. rewrite <- !Z.pow_add_r by lia. rewrite <- Z.pow_succ_r by lia. f_equal. lia.
Qed.

Lemma shift_spec p n d : 1 <= p → 0 < n → 0 < d →
  let s := shift p n d in 10 ^ (p - 1) * (d * down s) <= n * up s < 10 ^ p * (d * down s).
Proof.
  intros Hp Hn Hd. unfold shift. cbn zeta.
  destruct (digits_spec n Hn) as [[Hn1 Hn2] Ha], (digits_spec d Hd) as [[Hd1 Hd2] Hb].
  set (a := digits n) in *. set (b := digits d) in *. set (s := p - (a - b)).
  pose proof (up_down s (p + b) a ltac:(lia) ltac:(lia) ltac:(lia)) as Hupper.
  pose proof (up_down s (p - 1 + b) (a - 1) ltac:(lia) ltac:(lia) ltac:(lia)) as Hlower.
  pose proof (up_pos s) as Hu. pose proof (down_pos s) as Hw.
  assert (n * up s < 10 ^ (p + 1) * (d * down s)) as Hhigh.
  { replace (p + 1) with (Z.succ p) by lia. rewrite Z.pow_succ_r by lia.
    rewrite Z.pow_add_r in Hupper by lia.
    replace (10 ^ b) with (10 * 10 ^ (b - 1)) in Hupper by (rewrite <- Z.pow_succ_r by lia; f_equal; lia).
    apply Z.lt_le_trans with (10 ^ a * up s); [by apply Z.mul_lt_mono_pos_r|].
    rewrite <- Hupper. replace (10 * 10 ^ p * (d * down s)) with (10 * 10 ^ p * down s * d) by ring.
    replace (10 ^ p * (10 * 10 ^ (b - 1)) * down s) with (10 * 10 ^ p * down s * 10 ^ (b - 1)) by ring.
    apply Z.mul_le_mono_nonneg_l; [|done]. pose proof (Z.pow_pos_nonneg 10 p). nia. }
  assert (10 ^ (p - 1) * (d * down s) <= n * up s) as Hlow.
  { apply Z.le_trans with (10 ^ (a - 1) * up s); [|by apply Z.mul_le_mono_pos_r].
    rewrite <- Hlower, Z.pow_add_r by lia. rewrite <- !Z.mul_assoc. apply Z.mul_le_mono_nonneg_l.
    - apply Z.pow_nonneg. lia.
    - apply Z.mul_le_mono_nonneg_r; lia. }
  destruct (Z.leb_spec (10 ^ p * (d * down s)) (n * up s)) as [Hle|Hlt]; [|lia].
  pose proof (up_succ s) as E. pose proof (up_pos (s - 1)) as Hu'. pose proof (down_pos (s - 1)) as Hw'.
  set (w := down (s - 1)) in *. set (u := up (s - 1)) in *.
  replace (10 ^ p) with (10 * 10 ^ (p - 1)) in * by (rewrite <- Z.pow_succ_r by lia; f_equal; lia).
  replace (10 ^ (p + 1)) with (10 * (10 * 10 ^ (p - 1))) in *
    by (rewrite <- !Z.pow_succ_r by lia; f_equal; lia).
  set (P := 10 ^ (p - 1)) in *.
  assert (n * up s * w = 10 * down s * (n * u)) as E' by (transitivity (n * (up s * w)); [ring|rewrite E; ring]).
  assert (10 * P * (d * down s) * w <= n * up s * w) as H1 by (apply Z.mul_le_mono_nonneg_r; lia).
  assert (n * up s * w < 10 * (10 * P) * (d * down s) * w) as H2 by (apply Z.mul_lt_mono_pos_r; lia).
  rewrite E' in H1, H2. split.
  - apply (Z.mul_le_mono_pos_l _ _ (10 * down s)); [lia|]. lia.
  - apply (Z.mul_lt_mono_pos_l (10 * down s)); [lia|]. lia.
Qed.

(** A value with at most [p] digits is kept as it is. *)
Lemma dround_exact p n d k j : 1 <= p → 0 <= n → 0 < d → 0 <= j →
  n * 10 ^ j = k * d → k < 10 ^ p →
  (dround p (n, d)).1 * d = n * (dround p (n, d)).2 ∧ 0 <= (dround p (n, d)).1 ∧ 0 < (dround p (n, d)).2.
Proof.
  intros Hp Hn Hd Hj E Hk. destruct n as [|n|n]; [cbn; lia| |lia]. cbn [dround].
  unfold round_positive. cbn [fst snd]. set (s := shift p (Zpos n) d).
  pose proof (shift_spec p (Zpos n) d Hp eq_refl Hd) as Hs. fold s in Hs. cbn zeta in Hs.
  pose proof (up_pos s) as Hu. destruct (Z.le_gt_cases j s) as [Hjs|Hjs].
  - unfold up, down in *. rewrite Z.max_r in * by lia. replace (Z.max 0 (- s)) with 0 in * by lia.
    rewrite Z.pow_0_r, !Z.mul_1_r in *. replace s with (j + (s - j)) by lia.
    rewrite Z.pow_add_r, Z.mul_assoc, E by lia.
    replace (k * d * 10 ^ (s - j)) with (k * 10 ^ (s - j) * d) by ring. rewrite rne_exact by done.
    pose proof (Z.pow_pos_nonneg 10 (s - j)). pose proof (Z.pow_pos_nonneg 10 j).
    split; [|split; nia]. rewrite <- Z.mul_assoc, (Z.mul_comm _ d), Z.mul_assoc. rewrite <- E. ring.
  - exfalso. destruct Hs as [Hs _]. replace (10 ^ p) with (10 ^ (p - 1) * 10) in Hk
      by (rewrite <- (Z.pow_1_r 10) at 2; rewrite <- Z.pow_add_r by lia; f_equal; lia).
    assert (10 ^ (p - 1) * d * 10 <= k * d); [|nia]. rewrite <- E.
    assert (∃ r, 1 <= r ∧ 10 ^ j * down s = up s * 10 ^ r) as (r & Hr & Er).
    { exists (j - s). split; [lia|]. unfold up, down. rewrite <- !Z.pow_add_r by lia. f_equal. lia. }
    pose proof (down_pos s) as Hw.
    apply (Z.mul_le_mono_pos_r _ _ (down s)); [done|].
    rewrite <- (Z.mul_assoc _ (10 ^ j)), Er.
    assert (10 <= 10 ^ r) as H10 by (apply (Z.pow_le_mono_r 10 1 r); lia).
    replace (10 ^ (p - 1) * d * 10 * down s) with (10 ^ (p - 1) * (d * down s) * 10) by ring.
    replace (Z.pos n * (up s * 10 ^ r)) with (Z.pos n * up s * 10 ^ r) by ring.
    apply Z.mul_le_mono_nonneg; [|done|lia|done]. pose proof (Z.pow_nonneg 10 (p - 1)). nia.
Qed.

(** The integer nearest to the square root of [N / D]. *)
Lemma nearest_sqrt N D : 0 < D → D <= N →
  let s := Z.sqrt (N / D) in
  let c := match 4 * N ?= (2 * s + 1) * (2 * s + 1) * D with
           | Lt => s | Gt => s + 1 | Eq => if Z.even s then s else s + 1 end in
  1 <= c ∧ (2 * c - 1) * (2 * c - 1) * D <= 4 * N ∧ 4 * N <= (2 * c + 1) * (2 * c + 1) * D.
Proof.
  intros HD HN. cbn zeta. set (s := Z.sqrt (N / D)).
  assert (1 <= N / D) as HM by (apply Z.div_le_lower_bound; lia).
  destruct (Z.sqrt_spec (N / D) ltac:(lia)) as [Hs1 Hs2]. fold s in Hs1, Hs2.
  assert (1 <= s) as Hs by (subst s; apply Z.sqrt_le_square; lia).
  pose proof (Z.div_mod N D ltac:(lia)) as E. pose proof (Z.mod_pos_bound N D HD) as Hm.
  assert (D * (s * s) <= N) as Hlow by nia.
  assert (N < D * (Z.succ s * Z.succ s)) as Hhigh by nia.
  destruct (Z.compare_spec (4 * N) ((2 * s + 1) * (2 * s + 1) * D)) as [Hc|Hc|Hc];
    [destruct (Z.even s)|..]; (split; [lia|split; nia]).
Qed.

Lemma up_double t : up (2 * t) = up t * up t.
Proof. unfold up. rewrite <- Z.pow_add_r by lia. f_equal. lia. Qed.
Lemma down_double t : down (2 * t) = down t * down t.
Proof. unfold down. rewrite <- Z.pow_add_r by lia. f_equal. lia. Qed.

(** The square root of a value below [10 ^ 2m] is within half a unit of its
    last digit, which lies at least [p - 1 - m] places after the point. *)
Lemma dsqrt_spec p m n d : 1 <= p → 0 <= m < p → 0 < n → 0 < d → n < 10 ^ (2 * m) * d →
  let '(a, b) := dsqrt p (n, d) in
  1 <= a ∧ (∃ e, p - 1 - m <= e ∧ b = 10 ^ e) ∧
  (2 * a - 1) * (2 * a - 1) * d <= 4 * n * (b * b) ∧ 4 * n * (b * b) <= (2 * a + 1) * (2 * a + 1) * d.
Proof.
  intros Hp Hm Hn Hd Hb. unfold dsqrt. rewrite (proj2 (Z.leb_gt n 0)) by lia.
  set (t := shift (2 * p) n d / 2).
  pose proof (shift_spec (2 * p) n d ltac:(lia) Hn Hd) as [Hs _]. set (r := shift (2 * p) n d) in *.
  pose proof (Z.div_mod r 2 ltac:(lia)) as Er. pose proof (Z.mod_pos_bound r 2 ltac:(lia)).
  fold t in Er. assert (10 ^ (2 * p - 2) * (d * down (2 * t)) <= n * up (2 * t)) as Ht.
  { replace (10 ^ (2 * p - 1)) with (10 * 10 ^ (2 * p - 2)) in Hs
      by (rewrite <- Z.pow_succ_r by lia; f_equal; lia).
    pose proof (Z.pow_pos_nonneg 10 (2 * p - 2)) as HP. set (P := 10 ^ (2 * p - 2)) in *.
    destruct (Z.eq_dec r (2 * t)) as [<-|Hne]; [pose proof (down_pos r); nia|].
    assert (2 * t = r - 1) as -> by lia. pose proof (up_succ r) as E.
    pose proof (down_pos r) as Hr. pose proof (down_pos (r - 1)) as Hr'.
    apply (Z.mul_le_mono_pos_l _ _ (10 * down r)); [lia|].
    replace (10 * down r * (n * up (r - 1))) with (n * (10 * (up (r - 1) * down r))) by ring.
    rewrite <- E. replace (10 * down r * (P * (d * down (r - 1)))) with (10 * P * (d * down r) * down (r - 1)) by ring.
    replace (n * (up r * down (r - 1))) with (n * up r * down (r - 1)) by ring.
    apply Z.mul_le_mono_nonneg_r; lia. }
  assert (∀ e, 10 ^ (2 * p - 2) * d <= n * 10 ^ e → 0 <= e → 2 * p - 2 < 2 * m + e) as Hexp.
  { intros e He He0. apply (Z.pow_lt_mono_r_iff 10); [lia|lia|]. rewrite (Z.pow_add_r _ (2 * m)) by lia.
    apply (Z.mul_lt_mono_pos_r d); [done|]. pose proof (Z.pow_pos_nonneg 10 e). nia. }
  assert (0 <= t) as Ht0.
  { apply Z.nlt_ge. intros Hneg. unfold up, down in Ht.
    rewrite (Z.max_l 0 (2 * t)), (Z.max_r 0 (- (2 * t))), Z.pow_0_r in Ht by lia.
    assert (10 ^ (2 * p - 2) * d <= n * 10 ^ 0) as Hc%Hexp; [|lia|lia].
    pose proof (Z.pow_pos_nonneg 10 (- (2 * t))). pose proof (Z.pow_pos_nonneg 10 (2 * p - 2)). nia. }
  assert (∀ e, 0 <= e → up e = 10 ^ e ∧ down e = 1) as Hup.
  { intros e He. unfold up, down. by rewrite Z.max_r, Z.max_l, Z.pow_0_r by lia. }
  rewrite up_double, down_double in *. destruct (Hup t Ht0) as [Eu Ew]. rewrite Eu, Ew, !Z.mul_1_r in *.
  pose proof (Hexp (t + t)) as He. rewrite Z.pow_add_r in He by lia. specialize (He Ht ltac:(lia)).
  assert (d <= n * (10 ^ t * 10 ^ t)) as HdN by (pose proof (Z.pow_pos_nonneg 10 (2 * p - 2)); nia).
  pose proof (nearest_sqrt (n * (10 ^ t * 10 ^ t)) d Hd HdN) as [H1 [H2 H3]].
  split_and!; [done|exists t; split; [lia|done]|lia|lia].
Qed.

(** Rounding the square root of [V / S] to an integer, half up, loses nothing to
    the intermediate rounding when the context has enough digits. *)
Lemma half_up_sqrt p m n d V S : 1 <= p → 0 <= m → m < p - 1 → 0 <= n → 0 < d → 0 < S →
  n * S = V * d → n < 10 ^ (2 * m) * d → 4 * 10 ^ m * S <= 10 ^ (p - 1 - m) →
  let t := half_up (dsqrt p (n, d)) in
  0 <= t ∧ 4 * V < (2 * t + 1) * (2 * t + 1) * S ∧ (1 <= t → (2 * t - 1) * (2 * t - 1) * S <= 4 * V).
Proof.
  intros Hp Hm0 Hm Hn Hd HS E Hb Hprec. cbn zeta.
  destruct (Z.eq_dec n 0) as [->|Hn0].
  { assert (V = 0) as -> by nia. cbn. lia. }
  pose proof (dsqrt_spec p m n d Hp ltac:(lia) ltac:(lia) Hd Hb) as Hs.
  destruct (dsqrt p (n, d)) as [a b]. destruct Hs as (Ha & (e & He & ->) & Hlow & Hhigh).
  set (b := 10 ^ e) in *. assert (10 ^ (p - 1 - m) <= b) as Hbig by (apply Z.pow_le_mono_r; lia).
  assert (∃ h, b = 2 * h) as [h Eh].
  { exists (5 * 10 ^ (e - 1)). subst b. replace e with (Z.succ (e - 1)) at 1 by lia.
    rewrite Z.pow_succ_r by lia. ring. }
  assert (0 < 10 ^ m) as HM by (apply Z.pow_pos_nonneg; lia).
  assert (0 < b) as Hb0 by nia. unfold half_up. rewrite Z.sgn_pos, Z.abs_eq, Z.mul_1_l by lia.
  pose proof (Z.div_mod (2 * a + b) (2 * b) ltac:(lia)) as Et.
  pose proof (Z.mod_pos_bound (2 * a + b) (2 * b) ltac:(lia)) as Hr.
  set (t := (2 * a + b) / (2 * b)) in *. set (r := (2 * a + b) mod (2 * b)) in *.
  assert (0 <= t) as Ht by (apply Z.div_pos; lia).
  assert ((2 * t - 1) * b <= 2 * a) as H1 by lia. assert (2 * a + 2 <= (2 * t + 1) * b) as H2 by nia.
  assert ((2 * a - 1) * (2 * a - 1) * S <= 4 * V * (b * b)) as Hl.
  { apply (Z.mul_le_mono_pos_r _ _ d); [done|].
    replace (4 * V * (b * b) * d) with (4 * (b * b) * (n * S)) by (rewrite E; ring). nia. }
  assert (4 * V * (b * b) <= (2 * a + 1) * (2 * a + 1) * S) as Hh.
  { apply (Z.mul_le_mono_pos_r _ _ d); [done|].
    replace (4 * V * (b * b) * d) with (4 * (b * b) * (n * S)) by (rewrite E; ring). nia. }
  split_and!; [done|..].
  - apply (Z.mul_lt_mono_pos_r (b * b)); [nia|]. eapply Z.le_lt_trans; [exact Hh|].
    replace ((2 * t + 1) * (2 * t + 1) * S * (b * b)) with (((2 * t + 1) * b) * ((2 * t + 1) * b) * S) by ring.
    apply Z.mul_lt_mono_pos_r; [done|]. apply Z.mul_lt_mono_nonneg; lia.
  - intros Ht1. set (k := 2 * t - 1) in *. set (M := 10 ^ m) in *. assert (1 <= k) as Hk by lia.
    apply Z.nlt_ge. intros Hlt.
    assert (10 ^ (2 * m) = M * M) as EM by (subst M; rewrite <- Z.pow_add_r by lia; f_equal; lia).
    assert (V < M * M * S) as HV.
    { apply (Z.mul_lt_mono_pos_r d); [done|]. rewrite <- E, <- EM. nia. }
    assert (2 * a - 1 < 2 * M * b) as Ha'.
    { apply Z.nle_gt. intros Hge. assert ((2 * M * b) * (2 * M * b) * S <= (2 * a - 1) * (2 * a - 1) * S) as Hsq.
      { apply Z.mul_le_mono_nonneg_r; [lia|]. apply Z.mul_le_mono_nonneg; lia. }
      assert (4 * V * (b * b) < 4 * (M * M * S) * (b * b)); [|nia].
      apply Z.mul_lt_mono_pos_r; [nia|lia]. }
    assert (k <= 2 * M) as HkM.
    { apply (Z.mul_le_mono_pos_r _ _ b); [done|]. lia. }
    assert ((k * b - 1) * (k * b - 1) * S <= (2 * a - 1) * (2 * a - 1) * S) as Hsq.
    { apply Z.mul_le_mono_nonneg_r; [lia|]. apply Z.mul_le_mono_nonneg; nia. }
    assert (4 * V * (b * b) <= (k * k * S - 1) * (b * b)) as HV' by (apply Z.mul_le_mono_nonneg_r; nia).
    assert (b * b <= 2 * k * b * S - S) as Hq by lia.
    assert (b < 2 * k * S) as Hb' by (apply (Z.mul_lt_mono_pos_r b); lia).
    assert (2 * k * S <= 2 * (2 * M) * S) as Hlast by (apply Z.mul_le_mono_nonneg_r; lia). lia.
Qed.

(** * Exact results

    [denotes x V S]: the decimal [x] is the fraction [V / S]. *)

Definition denotes (x : Dec) (V S : Z) : Prop := 0 <= x.1 ∧ 0 < x.2 ∧ x.1 * S = V * x.2.

Lemma denotes_dec i : 0 <= i → denotes (dec i) i 1.
Proof. intros H. unfold denotes, dec. cbn. lia. Qed.

Lemma denotes_scale x V S V' S' : 0 < S → V * S' = V' * S → denotes x V S → denotes x V' S'.
Proof.
  intros HS E (Hn & Hd & Hx). split_and!; [done..|]. apply (Z.mul_reg_r _ _ S); [lia|].
  replace (x.1 * S' * S) with (x.1 * S * S') by ring. rewrite Hx.
  replace (V * x.2 * S') with (V * S' * x.2) by ring. rewrite E. ring.
Qed.

(** A fraction of at most [p] digits survives the rounding. *)
Lemma dround_denotes p x V S k j : 1 <= p → 0 < S → 0 <= j → V * 10 ^ j = k * S → k < 10 ^ p →
  denotes x V S → denotes (dround p x) V S.
Proof.
  intros Hp HS Hj E Hk (Hn & Hd & Hx). destruct x as [n d]. cbn [fst snd] in *.
  assert (n * 10 ^ j = k * d) as E'.
  { apply (Z.mul_reg_r _ _ S); [lia|]. replace (n * 10 ^ j * S) with (n * S * 10 ^ j) by ring. rewrite Hx.
    replace (V * d * 10 ^ j) with (V * 10 ^ j * d) by ring. rewrite E. ring. }
  destruct (dround_exact p n d k j Hp Hn Hd Hj E' Hk) as (H1 & H2 & H3).
  split_and!; [done..|]. apply (Z.mul_reg_r _ _ d); [lia|].
  replace ((dround p (n, d)).1 * S * d) with ((dround p (n, d)).1 * d * S) by ring. rewrite H1.
  replace (n * (dround p (n, d)).2 * S) with (n * S * (dround p (n, d)).2) by ring. rewrite Hx. ring.
Qed.

Lemma dmul_denotes p x y V W S T k j : 1 <= p → 0 < S → 0 < T → 0 <= j →
  V * W * 10 ^ j = k * (S * T) → k < 10 ^ p →
  denotes x V S → denotes y W T → denotes (dmul p x y) (V * W) (S * T).
Proof.
  intros Hp HS HT Hj E Hk (Hn & Hd & Hx) (Hn' & Hd' & Hy). apply (dround_denotes p _ _ _ k j); [done|lia|done|done|done|].
  split_and!; cbn; [lia..|]. replace (x.1 * y.1 * (S * T)) with (x.1 * S * (y.1 * T)) by ring.
  rewrite Hx, Hy. ring.
Qed.

Lemma dadd_denotes p x y V W S k j : 1 <= p → 0 < S → 0 <= j →
  (V + W) * 10 ^ j = k * S → k < 10 ^ p →
  denotes x V S → denotes y W S → denotes (dadd p x y) (V + W) S.
Proof.
  intros Hp HS Hj E Hk (Hn & Hd & Hx) (Hn' & Hd' & Hy). apply (dround_denotes p _ _ _ k j); [done..|].
  split_and!; cbn; [nia|lia|].
  replace ((x.1 * y.2 + y.1 * x.2) * S) with (x.1 * S * y.2 + y.1 * S * x.2) by ring.
  rewrite Hx, Hy. ring.
Qed.

(** Division by an integer. *)
Lemma ddiv_denotes p x V S i k j : 1 <= p → 0 < S → 0 < i → 0 <= j →
  V * 10 ^ j = k * (S * i) → k < 10 ^ p → denotes x V S → denotes (ddiv p x (dec i)) V (S * i).
Proof.
  intros Hp HS Hi Hj E Hk (Hn & Hd & Hx). apply (dround_denotes p _ _ _ k j); [done|lia|done|done|done|].
  unfold dec. cbn [fst snd]. rewrite Z.sgn_pos, Z.abs_eq by lia. split_and!; cbn; [lia..|].
  replace (x.1 * 1 * 1 * (S * i)) with (x.1 * S * i) by ring. rewrite Hx. ring.
Qed.
