(* ===== verification/ConfirmationReport.v ===== *)
(** The evidence a validator reports for a confirmation bundle:
    [ditto_screening_protocol/confirmation.py].

    A strict pydantic model is a record; its field constraints and validators
    are a checking function ([ValidationError] with the field's name or the
    validator's message), and [model_dump(mode="json")] is a [Json] value with
    the fields in order.  A field whose type is a one-valued [Literal] is only
    in the dump. *)
From Stdlib Require Import ZArith Lia Ascii.
From stdpp Require Import base list strings pretty.
From S2P Require Import Prelude PyText ConfirmationPolicy.

#[local] Open Scope string_scope.
#[local] Open Scope Z_scope.

(** * Shared field types *)

Definition MAX_USAGE : Z := 9007199254740991.
Definition score_micros (z : Z) : bool := in_range z 0 1000000.
Definition factor_bps (z : Z) : bool := in_range z 0 10000.
Definition usage_count (z : Z) : bool := in_range z 0 MAX_USAGE.
Definition positive_usage_count (z : Z) : bool := in_range z 1 MAX_USAGE.
(** [min_length] and [max_length]; a sha256 field is a [digest_text]. *)
Definition text_between (lo hi : Z) (s : string) : bool := in_range (Z.of_nat (String.length s)) lo hi.
Definition field (ok : bool) (name : string) : result unit := require ok (ValidationError name).
Definition fields (checks : list (bool * string)) : result unit :=
  foldr (λ c rest, field c.1 c.2;; rest) (Ok tt) checks.
Definition optional {A} (p : A → bool) (x : option A) : bool :=
  match x with Some a => p a | None => true end.

(** * LongMem *)

Inductive LongMemCapability :=
  | extraction | multi_session_reasoning | temporal_reasoning
  | knowledge_update | preference | abstention.
#[global] Instance capability_eq_dec : EqDecision LongMemCapability.
Proof. solve_decision. Defined.
Definition capability_value (c : LongMemCapability) : string :=
  match c with
  | extraction => "extraction" | multi_session_reasoning => "multi_session_reasoning"
  | temporal_reasoning => "temporal_reasoning" | knowledge_update => "knowledge_update"
  | preference => "preference" | abstention => "abstention"
  end.
Definition CAPABILITY_ORDER : list LongMemCapability :=
  [extraction; multi_session_reasoning; temporal_reasoning; knowledge_update; preference; abstention].

Record LongMemCapabilityScore := {
  capability : LongMemCapability;
  correct : Z;
  count : Z;
  mean_micros : Z
}.
Definition check_capability_score (s : LongMemCapabilityScore) : result unit :=
  fields [(usage_count (correct s), "correct"); (positive_usage_count (count s), "count");
          (score_micros (mean_micros s), "mean_micros");
          (correct s <=? count s, "correct cannot exceed count")].
Definition capability_score_dump (s : LongMemCapabilityScore) : Json :=
  JObj [("capability", JStr (capability_value (capability s))); ("correct", JInt (correct s));
        ("count", JInt (count s)); ("mean_micros", JInt (mean_micros s))].

Record LongMemProviderLaneEvidence := {
  lane : string;
  provider : string;
  lane_profile_revision : string;
  model : string;
  requests : Z;
  successes : Z;
  receipted_requests : Z;
  prompt_tokens : Z;
  completion_tokens : Z;
  total_tokens : Z;
  cost_usd_micros : Z;
  receipt_set_sha256 : string
}.
#[global] Instance lane_evidence_eq_dec : EqDecision LongMemProviderLaneEvidence.
Proof. solve_decision. Defined.

(** A lane that made no request has accounted for nothing. *)
Definition zero_accounting (r : LongMemProviderLaneEvidence) : bool :=
  (successes r =? 0) && (receipted_requests r =? 0) && (prompt_tokens r =? 0) &&
  (completion_tokens r =? 0) && (total_tokens r =? 0) && (cost_usd_micros r =? 0) &&
  String.eqb (receipt_set_sha256 r) "".

Definition check_lane_evidence (r : LongMemProviderLaneEvidence) : result unit :=
  fields [(text_between 1 128 (lane r), "lane"); (text_between 1 128 (provider r), "provider");
          (text_between 1 128 (lane_profile_revision r), "profile_revision");
          (text_between 1 256 (model r), "model"); (usage_count (requests r), "requests");
          (usage_count (successes r), "successes");
          (usage_count (receipted_requests r), "receipted_requests");
          (usage_count (prompt_tokens r), "prompt_tokens");
          (usage_count (completion_tokens r), "completion_tokens");
          (usage_count (total_tokens r), "total_tokens");
          (usage_count (cost_usd_micros r), "cost_usd_micros");
          (String.eqb (receipt_set_sha256 r) "" || digest_text (receipt_set_sha256 r),
             "receipt_set_sha256")];;
  if requests r =? 0 then
    field (zero_accounting r) "zero provider lane must have exact zero accounting"
  else
    fields [(negb ((successes r =? 0) || (receipted_requests r =? 0)),
               "positive provider lane must have successful receipted requests");
            ((String.length (receipt_set_sha256 r) =? 64)%nat,
               "positive provider lane must have a receipt digest");
            (successes r <=? requests r, "successes cannot exceed requests");
            (receipted_requests r =? requests r, "every provider request must have a receipt");
            (total_tokens r =? prompt_tokens r + completion_tokens r,
               "total_tokens must equal prompt plus completion tokens")].
Definition lane_evidence_dump (r : LongMemProviderLaneEvidence) : Json :=
  JObj [("lane", JStr (lane r)); ("cost_source", JStr "provider_receipt_v1"); ("currency", JStr "USD");
        ("provider", JStr (provider r)); ("profile_revision", JStr (lane_profile_revision r));
        ("model", JStr (model r)); ("fallback_used", JBool false); ("requests", JInt (requests r));
        ("successes", JInt (successes r)); ("receipted_requests", JInt (receipted_requests r));
        ("prompt_tokens", JInt (prompt_tokens r)); ("completion_tokens", JInt (completion_tokens r));
        ("total_tokens", JInt (total_tokens r)); ("cost_usd_micros", JInt (cost_usd_micros r));
        ("receipt_set_sha256", JStr (receipt_set_sha256 r))].

Record LongMemScoreEvidence := {
  longmem_mean_micros : Z;
  longmem_stderr_micros : Z;
  case_count : Z;
  per_capability : list LongMemCapabilityScore
}.
Definition check_score_evidence (s : LongMemScoreEvidence) : result unit :=
  fields [(score_micros (longmem_mean_micros s), "longmem_mean_micros");
          (score_micros (longmem_stderr_micros s), "longmem_stderr_micros");
          (positive_usage_count (case_count s), "case_count")];;
  foldr (λ c rest, check_capability_score c;; rest) (Ok tt) (per_capability s).
Definition score_evidence_dump (s : LongMemScoreEvidence) : Json :=
  JObj [("longmem_mean_micros", JInt (longmem_mean_micros s));
        ("longmem_stderr_micros", JInt (longmem_stderr_micros s)); ("case_count", JInt (case_count s));
        ("per_capability", JList (map capability_score_dump (per_capability s)))].
(** [exact_zero_score] *)
Definition exact_zero_score (s : LongMemScoreEvidence) : bool :=
  (longmem_mean_micros s =? 0) && (longmem_stderr_micros s =? 0) &&
  forallb (λ c, (correct c =? 0) && (mean_micros c =? 0)) (per_capability s).

Record LongMemEvidence := {
  lm_artifact_sha256 : string;
  lm_bench_version : Z;
  lm_profile_checksum : string;
  case_set_digest : string;
  dataset_revision : string;
  lm_dataset_sha256 : string;
  score : LongMemScoreEvidence;
  provider_evidence : list LongMemProviderLaneEvidence
}.
(** [{row.lane: row for row in rows}] *)
Definition rows_by_lane (rows : list LongMemProviderLaneEvidence) : list (string * LongMemProviderLaneEvidence) :=
  dict_of (map (λ r, (lane r, r)) rows).
(** An unused reader beside one receipted judge request per case. *)
Definition unused_reader (s : LongMemScoreEvidence)
    (by_lane : list (string * LongMemProviderLaneEvidence)) : bool :=
  (length by_lane =? 2)%nat &&
  match dict_get "reader" by_lane, dict_get "judge" by_lane with
  | Some reader, Some judge =>
      (requests reader =? 0) && (requests judge =? case_count s) && (successes judge =? case_count s) &&
      (receipted_requests judge =? case_count s) && exact_zero_score s
  | _, _ => false
  end.
Definition check_zero_provider_form (e : LongMemEvidence) : result unit :=
  let rows := provider_evidence e in
  if existsb (λ r, requests r =? 0) rows then
    if forallb (λ r, requests r =? 0) rows then
      field (exact_zero_score (score e)) "zero-provider LongMem evidence requires an exact zero score"
    else
      field ((length rows =? 2)%nat && unused_reader (score e) (rows_by_lane rows))
        "mixed LongMem provider evidence requires an unused reader, one receipted judge request per case, and an exact zero score"
  else Ok tt.
Definition check_longmem_evidence (e : LongMemEvidence) : result unit :=
  fields [(digest_text (lm_artifact_sha256 e), "artifact_sha256");
          (supports_confirmation (lm_bench_version e), "bench_version");
          (digest_text (lm_profile_checksum e), "profile_checksum");
          (digest_text (case_set_digest e), "case_set_digest");
          (text_between 1 128 (dataset_revision e), "dataset_revision");
          (digest_text (lm_dataset_sha256 e), "dataset_sha256")];;
  check_score_evidence (score e);;
  foldr (λ r rest, check_lane_evidence r;; rest) (Ok tt) (provider_evidence e);;
  check_zero_provider_form e.
Definition longmem_evidence_dump (e : LongMemEvidence) : Json :=
  JObj [("schema_version", JInt 2); ("artifact_sha256", JStr (lm_artifact_sha256 e));
        ("bench_version", JInt (lm_bench_version e)); ("profile_checksum", JStr (lm_profile_checksum e));
        ("case_set_digest", JStr (case_set_digest e)); ("dataset_revision", JStr (dataset_revision e));
        ("dataset_sha256", JStr (lm_dataset_sha256 e)); ("score", score_evidence_dump (score e));
        ("provider_evidence", JList (map lane_evidence_dump (provider_evidence e)))].

(** * Ablations *)

Inductive Intervention := inference | embedding.
#[global] Instance intervention_eq_dec : EqDecision Intervention.
Proof. solve_decision. Defined.
Definition intervention_value (i : Intervention) : string :=
  match i with inference => "inference" | embedding => "embedding" end.

Record AblationBudget := {
  max_chat_requests : Z;
  max_chat_input_bytes : Z;
  max_embedding_requests : Z;
  max_embedding_inputs : Z;
  max_embedding_input_bytes : Z
}.
#[global] Instance ablation_budget_eq_dec : EqDecision AblationBudget.
Proof. solve_decision. Defined.
Definition check_ablation_budget (b : AblationBudget) : result unit :=
  fields [(usage_count (max_chat_requests b), "max_chat_requests");
          (usage_count (max_chat_input_bytes b), "max_chat_input_bytes");
          (usage_count (max_embedding_requests b), "max_embedding_requests");
          (usage_count (max_embedding_inputs b), "max_embedding_inputs");
          (usage_count (max_embedding_input_bytes b), "max_embedding_input_bytes")].
Definition ablation_budget_fields (b : AblationBudget) : list (string * Z) :=
  [("max_chat_requests", max_chat_requests b); ("max_chat_input_bytes", max_chat_input_bytes b);
   ("max_embedding_requests", max_embedding_requests b);
   ("max_embedding_inputs", max_embedding_inputs b);
   ("max_embedding_input_bytes", max_embedding_input_bytes b)].
Definition int_object (l : list (string * Z)) : Json := JObj (map (λ kv, (kv.1, JInt kv.2)) l).

Record AblationSyntheticUsage := {
  usage_intervention : Intervention;
  usage_budget : AblationBudget;
  chat_attempts : Z;
  chat_applied : Z;
  chat_input_bytes : Z;
  embedding_attempts : Z;
  embedding_applied : Z;
  embedding_inputs : Z;
  embedding_input_bytes : Z;
  rejected_requests : Z;
  budget_exhausted : bool
}.
Definition no_embedding_usage (u : AblationSyntheticUsage) : bool :=
  (embedding_attempts u =? 0) && (embedding_applied u =? 0) && (embedding_inputs u =? 0) &&
  (embedding_input_bytes u =? 0).
Definition no_chat_usage (u : AblationSyntheticUsage) : bool :=
  (chat_attempts u =? 0) && (chat_applied u =? 0) && (chat_input_bytes u =? 0).
Definition check_synthetic_usage (u : AblationSyntheticUsage) : result unit :=
  check_ablation_budget (usage_budget u);;
  fields [(usage_count (chat_attempts u), "chat_attempts"); (usage_count (chat_applied u), "chat_applied");
          (usage_count (chat_input_bytes u), "chat_input_bytes");
          (usage_count (embedding_attempts u), "embedding_attempts");
          (usage_count (embedding_applied u), "embedding_applied");
          (usage_count (embedding_inputs u), "embedding_inputs");
          (usage_count (embedding_input_bytes u), "embedding_input_bytes");
          (usage_count (rejected_requests u), "rejected_requests");
          (chat_applied u <=? chat_attempts u, "chat_applied cannot exceed chat_attempts");
          (embedding_applied u <=? embedding_attempts u,
             "embedding_applied cannot exceed embedding_attempts");
          (chat_applied u <=? max_chat_requests (usage_budget u),
             "chat applications exceed the signed synthetic budget");
          (chat_input_bytes u <=? max_chat_input_bytes (usage_budget u),
             "chat bytes exceed the signed synthetic budget");
          (embedding_applied u <=? max_embedding_requests (usage_budget u),
             "embedding applications exceed the signed synthetic budget");
          (embedding_inputs u <=? max_embedding_inputs (usage_budget u),
             "embedding inputs exceed the signed synthetic budget");
          (embedding_input_bytes u <=? max_embedding_input_bytes (usage_budget u),
             "embedding bytes exceed the signed synthetic budget")];;
  match usage_intervention u with
  | inference =>
      field (no_embedding_usage u) "inference ablation contains embedding synthetic usage";;
      field (chat_attempts u =? chat_applied u + rejected_requests u)
        "synthetic attempt accounting is inconsistent"
  | embedding =>
      field (no_chat_usage u) "embedding ablation contains chat usage";;
      field (embedding_attempts u =? embedding_applied u + rejected_requests u)
        "synthetic attempt accounting is inconsistent"
  end;;
  field (Bool.eqb (0 <? rejected_requests u) (budget_exhausted u))
    "synthetic budget exhaustion accounting is inconsistent".
Definition synthetic_usage_dump (u : AblationSyntheticUsage) : Json :=
  JObj [("synthetic", JBool true); ("intervention", JStr (intervention_value (usage_intervention u)));
        ("budget", int_object (ablation_budget_fields (usage_budget u)));
        ("chat_attempts", JInt (chat_attempts u)); ("chat_applied", JInt (chat_applied u));
        ("chat_input_bytes", JInt (chat_input_bytes u));
        ("embedding_attempts", JInt (embedding_attempts u));
        ("embedding_applied", JInt (embedding_applied u));
        ("embedding_inputs", JInt (embedding_inputs u));
        ("embedding_input_bytes", JInt (embedding_input_bytes u));
        ("rejected_requests", JInt (rejected_requests u));
        ("budget_exhausted", JBool (budget_exhausted u)); ("upstream_requests", JInt 0);
        ("upstream_input_tokens", JInt 0); ("upstream_output_tokens", JInt 0);
        ("upstream_provider_cost_microusd", JInt 0)].

Inductive AblationStatus := not_run | passed | failed | unavailable.
#[global] Instance ablation_status_eq_dec : EqDecision AblationStatus.
Proof. solve_decision. Defined.
Definition ablation_status_value (s : AblationStatus) : string :=
  match s with not_run => "not_run" | passed => "passed" | failed => "failed" | unavailable => "unavailable" end.
Definition ran (s : AblationStatus) : bool := match s with passed | failed => true | _ => false end.

Record AblationEvidence := {
  contract_version : string;
  ae_bench_version : Z;
  ae_artifact_sha256 : string;
  intervention : Intervention;
  ae_mode : ConfirmationMode;
  status : AblationStatus;
  reason : string;
  ae_profile_revision : string;
  ae_profile_checksum : string;
  threshold_manifest_sha256 : string;
  coordinator_sha256 : string;
  ae_dataset_sha256 : string;
  ae_case_set_sha256 : string;
  baseline_scores_sha256 : option string;
  ablated_scores_sha256 : option string;
  baseline_mean_micros : option Z;
  ablated_mean_micros : option Z;
  delta_micros : option Z;
  threshold_micros : Z;
  sample_count : Z;
  affected_call_count : Z;
  semantic_factor_bps : option Z;
  applied_factor_bps : option Z;
  synthetic_usage : AblationSyntheticUsage
}.

(** The fields a completed ablation fills in, and no other does. *)
Definition complete_values (e : AblationEvidence) : list bool :=
  [bool_decide (is_Some (baseline_scores_sha256 e)); bool_decide (is_Some (ablated_scores_sha256 e));
   bool_decide (is_Some (baseline_mean_micros e)); bool_decide (is_Some (ablated_mean_micros e));
   bool_decide (is_Some (delta_micros e)); bool_decide (is_Some (semantic_factor_bps e));
   bool_decide (is_Some (applied_factor_bps e))].

(** The calls the intervention answered. *)
Definition affected (u : AblationSyntheticUsage) (i : Intervention) : Z :=
  match i with inference => chat_applied u | embedding => embedding_applied u end.

Definition check_completed (e : AblationEvidence) : result unit :=
  field (forallb id (complete_values e)) "completed ablation evidence is incomplete";;
  field (negb (sample_count e =? 0)) "completed ablation requires a non-empty sample";;
  match baseline_mean_micros e, ablated_mean_micros e, delta_micros e with
  | Some baseline, Some ablated, Some delta =>
      field (delta =? baseline - ablated) "delta_micros does not match the paired means";;
      let drop := threshold_micros e <=? delta in
      if String.eqb (reason e) "observational_drop_not_causal" then
        field (bool_decide (status e = failed) && negb (bool_decide (ae_mode e = OFF)))
          "observational drop requires a completed active-mode failure";;
        field drop "observational drop requires a threshold-meeting delta"
      else field (Bool.eqb drop (bool_decide (status e = passed))) "ablation status contradicts its threshold"
  | _, _, _ => Ok tt
  end;;
  let expected_semantic := if bool_decide (status e = passed) then 10000 else 0 in
  let expected_applied := if bool_decide (ae_mode e = SHADOW) then 10000 else expected_semantic in
  field (bool_decide (semantic_factor_bps e = Some expected_semantic))
    "semantic factor contradicts ablation result";;
  field (bool_decide (applied_factor_bps e = Some expected_applied))
    "applied factor contradicts rollout mode".

Definition check_ablation_evidence (e : AblationEvidence) : result unit :=
  fields [(text_between 1 128 (contract_version e), "contract_version");
          (supports_confirmation (ae_bench_version e), "bench_version");
          (digest_text (ae_artifact_sha256 e), "artifact_sha256");
          (negb (String.eqb (reason e) ""), "reason");
          (text_between 1 128 (ae_profile_revision e), "profile_revision");
          (digest_text (ae_profile_checksum e), "profile_checksum");
          (digest_text (threshold_manifest_sha256 e), "threshold_manifest_sha256");
          (digest_text (coordinator_sha256 e), "coordinator_sha256");
          (digest_text (ae_dataset_sha256 e), "dataset_sha256");
          (digest_text (ae_case_set_sha256 e), "case_set_sha256");
          (optional digest_text (baseline_scores_sha256 e), "baseline_scores_sha256");
          (optional digest_text (ablated_scores_sha256 e), "ablated_scores_sha256");
          (optional score_micros (baseline_mean_micros e), "baseline_mean_micros");
          (optional score_micros (ablated_mean_micros e), "ablated_mean_micros");
          (optional (λ d, in_range d (-1000000) 1000000) (delta_micros e), "delta_micros");
          (score_micros (threshold_micros e), "threshold_micros");
          (usage_count (sample_count e), "sample_count");
          (usage_count (affected_call_count e), "affected_call_count");
          (optional factor_bps (semantic_factor_bps e), "semantic_factor_bps");
          (optional factor_bps (applied_factor_bps e), "applied_factor_bps")];;
  check_synthetic_usage (synthetic_usage e);;
  field (bool_decide (intervention e = usage_intervention (synthetic_usage e)))
    "synthetic usage intervention does not match evidence";;
  (if ran (status e) then check_completed e
   else field (negb (existsb id (complete_values e)))
          "not-run or unavailable ablation cannot carry a numeric gate");;
  let exhausted := budget_exhausted (synthetic_usage e) in
  field (negb (bool_decide (status e = unavailable) &&
               String.eqb (reason e) "synthetic_budget_exhausted" && negb exhausted))
    "budget-exhausted evidence lacks rejected usage";;
  field (negb (String.eqb (reason e) "counterfactual_proof_unavailable" &&
               (negb (bool_decide (status e = unavailable)) || bool_decide (ae_mode e = OFF))))
    "counterfactual proof reason requires an active unavailable result";;
  field (affected_call_count e =? affected (synthetic_usage e) (intervention e))
    "ablation affected-call count is not derived";;
  field (negb (ran (status e) && exhausted)) "budget-exhausted ablation cannot complete".

Definition ablation_evidence_dump (e : AblationEvidence) : Json :=
  JObj [("contract_version", JStr (contract_version e)); ("bench_version", JInt (ae_bench_version e));
        ("artifact_sha256", JStr (ae_artifact_sha256 e));
        ("intervention", JStr (intervention_value (intervention e)));
        ("mode", JStr (mode_value (ae_mode e))); ("status", JStr (ablation_status_value (status e)));
        ("reason", JStr (reason e)); ("profile_revision", JStr (ae_profile_revision e));
        ("profile_checksum", JStr (ae_profile_checksum e));
        ("threshold_manifest_sha256", JStr (threshold_manifest_sha256 e));
        ("coordinator_sha256", JStr (coordinator_sha256 e));
        ("dataset_sha256", JStr (ae_dataset_sha256 e));
        ("case_set_sha256", JStr (ae_case_set_sha256 e));
        ("baseline_scores_sha256", jstr (baseline_scores_sha256 e));
        ("ablated_scores_sha256", jstr (ablated_scores_sha256 e));
        ("baseline_mean_micros", jopt (baseline_mean_micros e));
        ("ablated_mean_micros", jopt (ablated_mean_micros e)); ("delta_micros", jopt (delta_micros e));
        ("threshold_micros", JInt (threshold_micros e)); ("sample_count", JInt (sample_count e));
        ("affected_call_count", JInt (affected_call_count e));
        ("semantic_factor_bps", jopt (semantic_factor_bps e));
        ("applied_factor_bps", jopt (applied_factor_bps e));
        ("synthetic_usage", synthetic_usage_dump (synthetic_usage e))].

(** * Envelopes, report and root *)

Record LongMemDimensionEnvelope := {
  lenv_evidence_sha256 : string;
  lenv_latency_ms : Z;
  request_count : Z;
  input_tokens : Z;
  output_tokens : Z;
  provider_cost_microusd : Z;
  lenv_evidence : LongMemEvidence
}.
Definition check_longmem_envelope (v : LongMemDimensionEnvelope) : result unit :=
  fields [(digest_text (lenv_evidence_sha256 v), "evidence_sha256");
          (usage_count (lenv_latency_ms v), "latency_ms"); (usage_count (request_count v), "request_count");
          (usage_count (input_tokens v), "input_tokens"); (usage_count (output_tokens v), "output_tokens");
          (usage_count (provider_cost_microusd v), "provider_cost_microusd")];;
  check_longmem_evidence (lenv_evidence v).
Definition longmem_envelope_dump (v : LongMemDimensionEnvelope) : Json :=
  JObj [("status", JStr "completed"); ("evidence_sha256", JStr (lenv_evidence_sha256 v));
        ("latency_ms", JInt (lenv_latency_ms v)); ("request_count", JInt (request_count v));
        ("input_tokens", JInt (input_tokens v)); ("output_tokens", JInt (output_tokens v));
        ("provider_cost_microusd", JInt (provider_cost_microusd v)); ("synthetic", JBool false);
        ("evidence", longmem_evidence_dump (lenv_evidence v))].

Inductive DimensionStatus := dim_completed | dim_not_run | dim_unavailable.
#[global] Instance dimension_status_eq_dec : EqDecision DimensionStatus.
Proof. solve_decision. Defined.
Definition dimension_status_value (s : DimensionStatus) : string :=
  match s with dim_completed => "completed" | dim_not_run => "not_run" | dim_unavailable => "unavailable" end.
Definition expected_status (s : AblationStatus) : DimensionStatus :=
  match s with passed | failed => dim_completed | not_run => dim_not_run | unavailable => dim_unavailable end.

Record AblationDimensionEnvelope := {
  aenv_status : DimensionStatus;
  aenv_evidence_sha256 : string;
  aenv_latency_ms : Z;
  aenv_evidence : AblationEvidence
}.
Definition check_ablation_envelope (v : AblationDimensionEnvelope) : result unit :=
  fields [(digest_text (aenv_evidence_sha256 v), "evidence_sha256");
          (usage_count (aenv_latency_ms v), "latency_ms")];;
  check_ablation_evidence (aenv_evidence v);;
  field (bool_decide (aenv_status v = expected_status (status (aenv_evidence v))))
    "dimension status contradicts ablation evidence".
Definition ablation_envelope_dump (v : AblationDimensionEnvelope) : Json :=
  JObj [("status", JStr (dimension_status_value (aenv_status v)));
        ("evidence_sha256", JStr (aenv_evidence_sha256 v)); ("latency_ms", JInt (aenv_latency_ms v));
        ("request_count", JInt 0); ("input_tokens", JInt 0); ("output_tokens", JInt 0);
        ("provider_cost_microusd", JInt 0); ("synthetic", JBool true);
        ("evidence", ablation_evidence_dump (aenv_evidence v))].

Record ConfirmationUsageTotals := {
  total_request_count : Z;
  total_input_tokens : Z;
  total_output_tokens : Z;
  total_provider_cost_microusd : Z;
  total_latency_ms : Z
}.
#[global] Instance usage_totals_eq_dec : EqDecision ConfirmationUsageTotals.
Proof. solve_decision. Defined.
Definition check_totals (t : ConfirmationUsageTotals) : result unit :=
  fields [(usage_count (total_request_count t), "request_count");
          (usage_count (total_input_tokens t), "input_tokens");
          (usage_count (total_output_tokens t), "output_tokens");
          (usage_count (total_provider_cost_microusd t), "provider_cost_microusd");
          (usage_count (total_latency_ms t), "latency_ms")].
Definition totals_dump (t : ConfirmationUsageTotals) : Json :=
  JObj [("request_count", JInt (total_request_count t)); ("input_tokens", JInt (total_input_tokens t));
        ("output_tokens", JInt (total_output_tokens t));
        ("provider_cost_microusd", JInt (total_provider_cost_microusd t));
        ("latency_ms", JInt (total_latency_ms t))].

Record ConfirmationCompositePolicy := {
  cp_revision : string;
  base_weight_bps : Z;
  longmem_weight_bps : Z;
  cp_checksum : string
}.
Definition check_composite_policy (p : ConfirmationCompositePolicy) : result unit :=
  fields [(text_between 1 128 (cp_revision p), "revision");
          (in_range (base_weight_bps p) 1 9999, "base_weight_bps");
          (in_range (longmem_weight_bps p) 1 9999, "longmem_weight_bps");
          (digest_text (cp_checksum p), "checksum");
          (base_weight_bps p + longmem_weight_bps p =? 10000,
             "confirmation composite weights must sum to 10000")].
Definition composite_policy_dump (p : ConfirmationCompositePolicy) : Json :=
  JObj [("schema_version", JInt 1); ("revision", JStr (cp_revision p));
        ("formula_revision", JStr "weighted-quality-gates-v1");
        ("base_weight_bps", JInt (base_weight_bps p)); ("longmem_weight_bps", JInt (longmem_weight_bps p));
        ("checksum", JStr (cp_checksum p))].

Record ConfirmationCompletionReport := {
  report_coordinator_latency_ms : Z;
  report_longmemeval : LongMemDimensionEnvelope;
  report_inference_ablation : AblationDimensionEnvelope;
  report_embedding_ablation : AblationDimensionEnvelope;
  bundle_signature : string
}.
Definition check_interventions (i e : AblationDimensionEnvelope) : result unit :=
  fields [(bool_decide (intervention (aenv_evidence i) = inference),
             "inference_ablation has the wrong intervention");
          (bool_decide (intervention (aenv_evidence e) = embedding),
             "embedding_ablation has the wrong intervention")].
Definition check_report (r : ConfirmationCompletionReport) : result unit :=
  field (usage_count (report_coordinator_latency_ms r)) "ablation_coordinator_latency_ms";;
  check_longmem_envelope (report_longmemeval r);;
  check_ablation_envelope (report_inference_ablation r);;
  check_ablation_envelope (report_embedding_ablation r);;
  field (text_between 2 512 (bundle_signature r) && str_forall lower_hex (bundle_signature r))
    "bundle_signature";;
  check_interventions (report_inference_ablation r) (report_embedding_ablation r).

Record ConfirmationEvidenceRoot := {
  root_artifact_sha256 : string;
  root_bench_version : Z;
  root_profile_revision : string;
  root_profile_checksum : string;
  root_settings_revision : Z;
  root_settings_checksum : string;
  root_retest_generation : Z;
  ablation_coordinator_latency_ms : Z;
  composite_policy : ConfirmationCompositePolicy;
  longmemeval : LongMemDimensionEnvelope;
  inference_ablation : AblationDimensionEnvelope;
  embedding_ablation : AblationDimensionEnvelope;
  totals : ConfirmationUsageTotals
}.
Definition derived_totals (l : LongMemDimensionEnvelope) (coordinator_latency : Z) : ConfirmationUsageTotals :=
  {| total_request_count := request_count l; total_input_tokens := input_tokens l;
     total_output_tokens := output_tokens l; total_provider_cost_microusd := provider_cost_microusd l;
     total_latency_ms := lenv_latency_ms l + coordinator_latency |}.
(** The models in its fields have been checked when they were built. *)
Definition check_root (r : ConfirmationEvidenceRoot) : result unit :=
  fields [(digest_text (root_artifact_sha256 r), "artifact_sha256");
          (supports_confirmation (root_bench_version r), "bench_version");
          (text_between 1 128 (root_profile_revision r), "confirmation_profile_revision");
          (digest_text (root_profile_checksum r), "confirmation_profile_checksum");
          (1 <=? root_settings_revision r, "settings_revision");
          (digest_text (root_settings_checksum r), "settings_checksum");
          (0 <=? root_retest_generation r, "retest_generation");
          (usage_count (ablation_coordinator_latency_ms r), "ablation_coordinator_latency_ms")];;
  check_interventions (inference_ablation r) (embedding_ablation r);;
  let expected := derived_totals (longmemeval r) (ablation_coordinator_latency_ms r) in
  check_totals expected;;
  field (bool_decide (totals r = expected)) "confirmation totals are not derived from dimensions".
Definition root_dump (r : ConfirmationEvidenceRoot) : Json :=
  JObj [("schema_version", JInt 1); ("artifact_sha256", JStr (root_artifact_sha256 r));
        ("bench_version", JInt (root_bench_version r));
        ("confirmation_profile_revision", JStr (root_profile_revision r));
        ("confirmation_profile_checksum", JStr (root_profile_checksum r));
        ("settings_revision", JInt (root_settings_revision r));
        ("settings_checksum", JStr (root_settings_checksum r));
        ("retest_generation", JInt (root_retest_generation r));
        ("ablation_coordinator_latency_ms", JInt (ablation_coordinator_latency_ms r));
        ("composite_policy", composite_policy_dump (composite_policy r));
        ("longmemeval", longmem_envelope_dump (longmemeval r));
        ("inference_ablation", ablation_envelope_dump (inference_ablation r));
        ("embedding_ablation", ablation_envelope_dump (embedding_ablation r));
        ("totals", totals_dump (totals r))].

(** * The digest of an evidence model

    [json.dumps(payload, ensure_ascii=False, separators=(",", ":"))]: the
    members in the order of the fields, only quotes, backslashes and control
    characters escaped. *)

Definition raw_char (c : ascii) : string :=
  let n := code c in
  if between 127 n 255 then String c EmptyString else escape_char c.
Fixpoint raw_escape (s : string) : string :=
  match s with EmptyString => EmptyString | String c s' => raw_char c +:+ raw_escape s' end.
Definition raw_quoted (s : string) : string := dquote +:+ raw_escape s +:+ dquote.

Fixpoint canonical_json (j : Json) : string :=
  match j with
  | JNull => "null"
  | JBool b => if b then "true" else "false"
  | JInt i => pretty i
  | JStr s => raw_quoted s
  | JList l => "[" +:+ join (map canonical_json l) +:+ "]"
  | JObj l => "{" +:+ join (map (λ kv, raw_quoted kv.1 +:+ ":" +:+ canonical_json kv.2) l) +:+ "}"
  end.
Definition evidence_digest {SH : Sha256} (dump : Json) : string := sha256 (canonical_json dump).
