(* ===== verification/ConfirmationEvidence.v ===== *)
(** The platform's verification of confirmation evidence:
    [apps/platform/ditto/api_server/confirmation_evidence.py].

    The frozen profile and its checksums, the replay of every derived field of
    a report, the projection of a subject's full score, and the message a
    validator signs.  The instance of [Sha256] hashes the text; [Decimal]
    arithmetic is [Decimal]'s. *)
From Stdlib Require Import ZArith Lia Ascii.
From stdpp Require Import base list strings pretty.
From S2P Require Import Prelude PyText Decimal ConfirmationPolicy ConfirmationReport.

#[local] Open Scope string_scope.
#[local] Open Scope Z_scope.

Definition SCORE_SCALE : Z := 1000000.
Definition FACTOR_SCALE : Z := 10000.
Definition LONGMEM_SELECTOR_REVISION_V1 : string := "longmemeval-s-stratified-sha256-v1".
Definition ABLATION_PROFILE_CONTRACT_VERSION : string := "dittobench-v9-ablation-profile-v1".
Definition ABLATION_EVIDENCE_CONTRACT_VERSION : string := "dittobench-v9-ablation-v1".
Definition MIN_CONFIRMATION_BENCH_VERSION : Z := 9.
Definition LONGMEM_DEEP_HISTORY_FLOOR_BENCH_VERSION : Z := 10.
Definition LONGMEM_V10_MIN_CASES_PER_CAPABILITY : Z := 8.
Definition LONGMEM_V10_MIN_HISTORY_SESSIONS : Z := 55.
Definition LONGMEM_V10_MIN_HISTORY_BYTES : Z := 400000.

(** [raise ConfirmationEvidenceError(msg)] unless [ok]. *)
Definition ensure (ok : bool) (msg : string) : result unit := require ok (ConfirmationEvidenceError msg).
Definition _require_text (value label : string) : result unit :=
  ensure (negb (String.eqb value "") && String.eqb value (strip value) &&
          (Z.of_nat (String.length value) <=? 256)) (label +:+ " is invalid").
(** A character [str.lower] leaves as it is. *)
Definition is_lower (c : Z) : bool := negb (between 65 c 90 || (between 192 c 222 && negb (c =? 215))).
Definition _require_sha256 (value label : string) : result unit :=
  ensure ((String.length value =? 64)%nat && str_forall is_lower value &&
          match fromhex value with Some _ => true | None => false end)
    (label +:+ " is not lowercase SHA-256").

(** * The frozen profile *)

Record ProviderLanePolicy := {
  pol_lane : string;
  pol_provider : string;
  route_provider : string;
  receipt_provider : string;
  pol_profile_revision : string;
  pol_model : string;
  max_requests : Z;
  max_prompt_tokens : Z;
  max_completion_tokens : Z;
  max_total_tokens : Z;
  max_cost_usd_micros : Z
}.
Definition lane_caps_payload (p : ProviderLanePolicy) : list (string * Json) :=
  [("profile_revision", JStr (pol_profile_revision p)); ("model", JStr (pol_model p));
   ("max_requests", JInt (max_requests p)); ("max_prompt_tokens", JInt (max_prompt_tokens p));
   ("max_completion_tokens", JInt (max_completion_tokens p));
   ("max_total_tokens", JInt (max_total_tokens p));
   ("max_cost_usd_micros", JInt (max_cost_usd_micros p))].
Definition lane_payload (p : ProviderLanePolicy) : Json :=
  JObj ([("lane", JStr (pol_lane p)); ("provider", JStr (pol_provider p));
         ("route_provider", JStr (route_provider p)); ("receipt_provider", JStr (receipt_provider p))]
        ++ lane_caps_payload p)%list.
Definition longmem_profile_payload (p : ProviderLanePolicy) : Json :=
  JObj ([("lane", JStr (pol_lane p)); ("provider", JStr (pol_provider p))] ++ lane_caps_payload p)%list.

Record EmbeddingLanePolicy := {
  emb_lane : string;
  emb_provider : string;
  emb_profile_revision : string;
  emb_model : string;
  dimensions : Z;
  emb_max_requests : Z;
  emb_max_input_tokens : Z;
  emb_max_cost_usd_micros : Z
}.
Definition embedding_payload (p : EmbeddingLanePolicy) : Json :=
  JObj [("lane", JStr (emb_lane p)); ("provider", JStr (emb_provider p));
        ("profile_revision", JStr (emb_profile_revision p)); ("model", JStr (emb_model p));
        ("dimensions", JInt (dimensions p)); ("max_requests", JInt (emb_max_requests p));
        ("max_input_tokens", JInt (emb_max_input_tokens p));
        ("max_cost_usd_micros", JInt (emb_max_cost_usd_micros p))].

(** [SyntheticBudgetPolicy] has the fields of the wire [AblationBudget]. *)
Definition compact_payload (b : AblationBudget) : Json :=
  int_object (filter (λ kv, kv.2 ≠ 0) (ablation_budget_fields b)).

Record AblationCoordinatorPolicy := {
  sample_size : Z;
  max_attempts : Z;
  coordinator_max_requests : Z;
  request_timeout_milliseconds : Z;
  total_timeout_milliseconds : Z
}.
Definition coordinator_payload (p : AblationCoordinatorPolicy) : Json :=
  int_object [("sample_size", sample_size p); ("max_attempts", max_attempts p);
    ("max_requests", coordinator_max_requests p);
    ("request_timeout_milliseconds", request_timeout_milliseconds p);
    ("total_timeout_milliseconds", total_timeout_milliseconds p)].

Record AblationVerificationPolicy := {
  pol_intervention : string;
  pol_contract_version : string;
  pol_threshold_micros : Z;
  budget : AblationBudget
}.
Definition ablation_policy_payload (p : AblationVerificationPolicy) : Json :=
  JObj [("intervention", JStr (pol_intervention p)); ("contract_version", JStr (pol_contract_version p));
        ("threshold_micros", JInt (pol_threshold_micros p));
        ("budget", int_object (ablation_budget_fields (budget p)))].

Record CompositeVerificationPolicy := {
  comp_schema_version : Z;
  comp_revision : string;
  formula_revision : string;
  comp_base_weight_bps : Z;
  comp_longmem_weight_bps : Z
}.

Record ConfirmationVerificationProfile := {
  schema_version : Z;
  revision : string;
  longmem_profile_revision : string;
  longmem_profile_checksum : string;
  longmem_dataset_revision : string;
  longmem_dataset_sha256 : string;
  longmem_selector_revision : string;
  longmem_selection_seed : Z;
  longmem_cases_per_capability : Z;
  longmem_seed_batch_pairs : Z;
  longmem_projection_key_sha256 : string;
  provider_lanes : list ProviderLanePolicy;
  embedding_lane : EmbeddingLanePolicy;
  ablation_profile_revision : string;
  ablation_profile_checksum : string;
  ablation_dataset_sha256 : string;
  ablation_threshold_manifest_sha256 : string;
  ablation_selection_key_sha256 : string;
  ablation_projection_key_sha256 : string;
  ablation_coordinator_policy : AblationCoordinatorPolicy;
  inference_policy : AblationVerificationPolicy;
  embedding_policy : AblationVerificationPolicy;
  composite : CompositeVerificationPolicy;
  profile_bench_version : Z;
  longmem_min_history_sessions : Z;
  longmem_min_history_bytes : Z
}.

(** [sorted(lanes, key=lambda lane: lane.lane)] *)
Definition sorted_policies (l : list ProviderLanePolicy) : list ProviderLanePolicy :=
  py_sorted (cmp_by str_cmp pol_lane) l.
(** [{name: value} if value else {}] *)
Definition omit_zero (name : string) (z : Z) : list (string * Json) :=
  if z =? 0 then [] else [(name, JInt z)].

(** [_go_micros_json]: [f"0.{value:06d}".rstrip("0")]. *)
Fixpoint lstrip_zeros (s : string) : string :=
  match s with String "0" s' => lstrip_zeros s' | _ => s end.
Definition rstrip_zeros (s : string) : string := String.rev (lstrip_zeros (String.rev s)).
Definition _go_micros_json (value : Z) : result string :=
  ensure (in_range value 0 SCORE_SCALE) "ablation threshold is out of range";;
  Ok (if value =? 0 then "0" else if value =? SCORE_SCALE then "1"
      else rstrip_zeros ("0." +:+ padded 6 value)).

Section evidence.
Context {SH : Sha256}.

Definition composite_without_checksum (p : CompositeVerificationPolicy) : list (string * Json) :=
  [("schema_version", JInt (comp_schema_version p)); ("revision", JStr (comp_revision p));
   ("formula_revision", JStr (formula_revision p)); ("base_weight_bps", JInt (comp_base_weight_bps p));
   ("longmem_weight_bps", JInt (comp_longmem_weight_bps p))].
Definition composite_checksum (p : CompositeVerificationPolicy) : string :=
  evidence_digest (JObj (composite_without_checksum p)).
Definition composite_payload (p : CompositeVerificationPolicy) : Json :=
  JObj (composite_without_checksum p ++ [("checksum", JStr (composite_checksum p))])%list.

Definition profile_payload (p : ConfirmationVerificationProfile) : Json :=
  JObj ([("schema_version", JInt (schema_version p)); ("revision", JStr (revision p))]
    ++ (if profile_bench_version p =? MIN_CONFIRMATION_BENCH_VERSION then []
        else [("bench_version", JInt (profile_bench_version p))])
    ++ [("longmem_profile_revision", JStr (longmem_profile_revision p));
        ("longmem_profile_checksum", JStr (longmem_profile_checksum p));
        ("longmem_dataset_revision", JStr (longmem_dataset_revision p));
        ("longmem_dataset_sha256", JStr (longmem_dataset_sha256 p));
        ("longmem_selector_revision", JStr (longmem_selector_revision p));
        ("longmem_selection_seed", JInt (longmem_selection_seed p));
        ("longmem_cases_per_capability", JInt (longmem_cases_per_capability p));
        ("longmem_seed_batch_pairs", JInt (longmem_seed_batch_pairs p))]
    ++ omit_zero "longmem_min_history_sessions" (longmem_min_history_sessions p)
    ++ omit_zero "longmem_min_history_bytes" (longmem_min_history_bytes p)
    ++ [("longmem_projection_key_sha256", JStr (longmem_projection_key_sha256 p));
        ("provider_lanes", JList (map lane_payload (sorted_policies (provider_lanes p))));
        ("embedding_lane", embedding_payload (embedding_lane p));
        ("ablation_profile_revision", JStr (ablation_profile_revision p));
        ("ablation_profile_checksum", JStr (ablation_profile_checksum p));
        ("ablation_dataset_sha256", JStr (ablation_dataset_sha256 p));
        ("ablation_threshold_manifest_sha256", JStr (ablation_threshold_manifest_sha256 p));
        ("ablation_selection_key_sha256", JStr (ablation_selection_key_sha256 p));
        ("ablation_projection_key_sha256", JStr (ablation_projection_key_sha256 p));
        ("ablation_coordinator_policy", coordinator_payload (ablation_coordinator_policy p));
        ("inference_ablation", ablation_policy_payload (inference_policy p));
        ("embedding_ablation", ablation_policy_payload (embedding_policy p));
        ("composite", composite_payload (composite p))])%list.

Definition longmem_checksum (p : ConfirmationVerificationProfile) : string :=
  evidence_digest (JObj ([("schema_version", JInt 1); ("revision", JStr (longmem_profile_revision p));
    ("bench_version", JInt (profile_bench_version p));
    ("dataset_revision", JStr (longmem_dataset_revision p));
    ("dataset_sha256", JStr (longmem_dataset_sha256 p));
    ("selector_revision", JStr (longmem_selector_revision p));
    ("selection_seed", JInt (longmem_selection_seed p));
    ("cases_per_capability", JInt (longmem_cases_per_capability p))]
    ++ omit_zero "min_history_sessions" (longmem_min_history_sessions p)
    ++ omit_zero "min_history_bytes" (longmem_min_history_bytes p)
    ++ [("providers", JList (map longmem_profile_payload (sorted_policies (provider_lanes p))))])%list).

(** [_go_ablation_profile_digest] over the fields of [ablation_checksum]: the
    two thresholds are written as fractions, everything else as JSON. *)
Definition ablation_profile_fields (p : ConfirmationVerificationProfile) : list (string * Json) :=
  [("contract_version", JStr ABLATION_PROFILE_CONTRACT_VERSION);
   ("revision", JStr (ablation_profile_revision p)); ("bench_version", JInt (profile_bench_version p));
   ("dataset_sha256", JStr (ablation_dataset_sha256 p));
   ("threshold_manifest_sha256", JStr (ablation_threshold_manifest_sha256 p));
   ("selection_key_sha256", JStr (ablation_selection_key_sha256 p));
   ("projection_key_sha256", JStr (ablation_projection_key_sha256 p));
   ("coordinator_policy", coordinator_payload (ablation_coordinator_policy p));
   ("inference_budget", compact_payload (budget (inference_policy p)));
   ("embedding_budget", compact_payload (budget (embedding_policy p)))].
Definition ablation_checksum (p : ConfirmationVerificationProfile) : result string :=
  _go_micros_json (pol_threshold_micros (inference_policy p)) ≫= λ inference_threshold,
  _go_micros_json (pol_threshold_micros (embedding_policy p)) ≫= λ embedding_threshold,
  let rendered := (map (λ kv, raw_quoted kv.1 +:+ ":" +:+ canonical_json kv.2) (ablation_profile_fields p)
    ++ [raw_quoted "inference_threshold" +:+ ":" +:+ inference_threshold;
        raw_quoted "embedding_threshold" +:+ ":" +:+ embedding_threshold])%list in
  Ok (sha256 ("{" +:+ join rendered +:+ "}")).

Definition named (name : string) : string := "'" +:+ name +:+ "'".

Definition _validate_provider_policy (p : ProviderLanePolicy) : result unit :=
  _require_text (pol_lane p) "provider lane";;
  _require_text (pol_provider p) "provider";;
  _require_text (route_provider p) "route provider";;
  _require_text (receipt_provider p) "receipt provider";;
  _require_text (pol_profile_revision p) "provider profile revision";;
  _require_text (pol_model p) "provider model";;
  ensure (forallb (λ z, 0 <? z) [max_requests p; max_prompt_tokens p; max_completion_tokens p;
            max_total_tokens p; max_cost_usd_micros p])
    ("provider lane " +:+ named (pol_lane p) +:+ " must have positive caps");;
  ensure ((max_prompt_tokens p <=? max_total_tokens p) && (max_completion_tokens p <=? max_total_tokens p))
    ("provider lane " +:+ named (pol_lane p) +:+ " token cap is inconsistent").

(** The loop that collects the lane names. *)
Fixpoint validate_lanes (names : list string) (lanes : list ProviderLanePolicy) : result unit :=
  match lanes with
  | [] => Ok tt
  | l :: lanes' =>
      _validate_provider_policy l;;
      ensure (negb (bool_decide (pol_lane l ∈ names)))
        ("duplicate frozen provider lane " +:+ named (pol_lane l));;
      validate_lanes (pol_lane l :: names) lanes'
  end.

Definition _validate_embedding_policy (p : EmbeddingLanePolicy) : result unit :=
  _require_text (emb_lane p) "embedding lane";;
  _require_text (emb_provider p) "embedding provider";;
  _require_text (emb_profile_revision p) "embedding profile revision";;
  _require_text (emb_model p) "embedding model";;
  ensure (String.eqb (emb_lane p) "embedding") "embedding lane identity is invalid";;
  ensure ((0 <? dimensions p) && (dimensions p <=? 16384)) "embedding dimensions are invalid";;
  ensure ((0 <? emb_max_requests p) && (0 <? emb_max_input_tokens p) && (0 <? emb_max_cost_usd_micros p))
    "embedding lane caps are invalid".

Definition _validate_ablation_policy (p : AblationVerificationPolicy) (expected : string) : result unit :=
  ensure (String.eqb (pol_intervention p) expected) ("wrong " +:+ expected +:+ " ablation policy");;
  _require_text (pol_contract_version p) "ablation contract";;
  ensure (in_range (pol_threshold_micros p) 0 SCORE_SCALE) "ablation threshold is out of range";;
  ensure (is_ok (check_ablation_budget (budget p))) "invalid synthetic ablation budget";;
  let b := budget p in
  if String.eqb expected "inference" then
    ensure ((0 <? max_chat_requests b) && (0 <? max_chat_input_bytes b)) "inference budget must be positive";;
    ensure ((max_embedding_requests b =? 0) && (max_embedding_inputs b =? 0) &&
            (max_embedding_input_bytes b =? 0)) "inference budget contains embedding limits"
  else
    ensure ((0 <? max_embedding_requests b) && (0 <? max_embedding_inputs b) &&
            (0 <? max_embedding_input_bytes b)) "embedding budget must be positive";;
    ensure ((max_chat_requests b =? 0) && (max_chat_input_bytes b =? 0))
      "embedding budget contains chat limits".

Definition _validate_ablation_coordinator_policy (p : AblationCoordinatorPolicy) : result unit :=
  ensure (forallb (λ z, 0 <? z) [sample_size p; max_attempts p; coordinator_max_requests p;
            request_timeout_milliseconds p; total_timeout_milliseconds p])
    "ablation coordinator policy must be positive";;
  ensure (max_attempts p =? 1) "ablation coordinator automatic retries are disabled";;
  let minimum_requests := sample_size p * 3 in
  ensure ((minimum_requests <=? coordinator_max_requests p) &&
          (coordinator_max_requests p <=? minimum_requests * max_attempts p))
    "ablation coordinator request cap is inconsistent";;
  ensure (request_timeout_milliseconds p <=? total_timeout_milliseconds p)
    "ablation coordinator total timeout is shorter than one request".

Definition validate_longmem_profile (p : ConfirmationVerificationProfile) : result unit :=
  ensure (schema_version p =? 1) "confirmation profile schema must be 1";;
  ensure (supports_confirmation (profile_bench_version p))
    "confirmation profile targets an unsupported bench_version";;
  (if profile_bench_version p <? LONGMEM_DEEP_HISTORY_FLOOR_BENCH_VERSION then
     ensure ((longmem_min_history_sessions p =? 0) && (longmem_min_history_bytes p =? 0))
       "bench_version 9 does not define LongMem deep-history floors"
   else
     ensure ((LONGMEM_V10_MIN_CASES_PER_CAPABILITY <=? longmem_cases_per_capability p) &&
             (LONGMEM_V10_MIN_HISTORY_SESSIONS <=? longmem_min_history_sessions p) &&
             (LONGMEM_V10_MIN_HISTORY_BYTES <=? longmem_min_history_bytes p))
       "confirmation profile is below the LongMem deep-history floor");;
  _require_text (revision p) "confirmation profile revision";;
  _require_text (longmem_profile_revision p) "LongMem profile revision";;
  _require_sha256 (longmem_profile_checksum p) "LongMem profile checksum";;
  _require_text (longmem_dataset_revision p) "LongMem dataset revision";;
  _require_sha256 (longmem_dataset_sha256 p) "LongMem dataset checksum";;
  ensure (String.eqb (longmem_selector_revision p) LONGMEM_SELECTOR_REVISION_V1)
    "LongMem selector revision is unsupported";;
  ensure (in_range (longmem_selection_seed p) 0 (2 ^ 64 - 1)) "LongMem selection seed is out of range";;
  ensure (2 <=? longmem_cases_per_capability p) "LongMem cases per capability must preserve uncertainty";;
  ensure (0 <? longmem_seed_batch_pairs p) "LongMem seed batch pairs must be positive";;
  _require_sha256 (longmem_projection_key_sha256 p) "LongMem projection key checksum";;
  ensure (negb (bool_decide (provider_lanes p = []))) "LongMem provider lanes are unconfigured";;
  validate_lanes [] (provider_lanes p);;
  ensure (String.eqb (longmem_profile_checksum p) (longmem_checksum p))
    "LongMem profile checksum does not bind its execution policy".

Definition validate_composite (c : CompositeVerificationPolicy) : result unit :=
  ensure (comp_schema_version c =? 1) "composite profile schema must be 1";;
  _require_text (comp_revision c) "composite profile revision";;
  _require_text (formula_revision c) "composite formula revision";;
  ensure (String.eqb (formula_revision c) "weighted-quality-gates-v1")
    "confirmation composite formula revision is unsupported";;
  ensure ((0 <? comp_base_weight_bps c) && (0 <? comp_longmem_weight_bps c))
    "composite weights must be positive";;
  ensure (comp_base_weight_bps c + comp_longmem_weight_bps c =? FACTOR_SCALE)
    "composite weights must sum to 10000".

Definition validate (p : ConfirmationVerificationProfile) : result unit :=
  validate_longmem_profile p;;
  _validate_embedding_policy (embedding_lane p);;
  _require_text (ablation_profile_revision p) "ablation profile revision";;
  _require_sha256 (ablation_profile_checksum p) "ablation profile checksum";;
  _require_sha256 (ablation_dataset_sha256 p) "ablation dataset checksum";;
  _require_sha256 (ablation_threshold_manifest_sha256 p) "ablation threshold manifest";;
  _require_sha256 (ablation_selection_key_sha256 p) "ablation selection key checksum";;
  _require_sha256 (ablation_projection_key_sha256 p) "ablation projection key checksum";;
  _validate_ablation_coordinator_policy (ablation_coordinator_policy p);;
  _validate_ablation_policy (inference_policy p) "inference";;
  _validate_ablation_policy (embedding_policy p) "embedding";;
  ablation_checksum p ≫= λ sum,
  ensure (String.eqb (ablation_profile_checksum p) sum)
    "ablation profile checksum does not bind its execution policy";;
  validate_composite (composite p).

Definition checksum (p : ConfirmationVerificationProfile) : result string :=
  validate p;; Ok (evidence_digest (profile_payload p)).

(** The chat and embedding maxima of the frozen lanes: requests and tokens. *)
Definition confirmation_inference_cap_requirements (p : ConfirmationVerificationProfile) : Z * Z :=
  (emb_max_requests (embedding_lane p) + sum_Z (max_requests <$> provider_lanes p),
   emb_max_input_tokens (embedding_lane p) + sum_Z (max_total_tokens <$> provider_lanes p)).
Definition validate_confirmation_inference_caps (p : ConfirmationVerificationProfile)
    (request_cap token_cap : Z) : result unit :=
  let '(required_requests, required_tokens) := confirmation_inference_cap_requirements p in
  ensure ((required_requests <=? request_cap) && (required_tokens <=? token_cap))
    "confirmation policy cannot fund the frozen inference lane maxima".

(** * Arithmetic *)

(** [None] is not a binary gate. *)
Definition _binary_product (values : list (option Z)) : result Z :=
  ensure (forallb (λ v, bool_decide (v = Some 0) || bool_decide (v = Some FACTOR_SCALE)) values)
    "semantic gates must be binary";;
  Ok (if existsb (λ v, bool_decide (v = Some 0)) values then 0 else FACTOR_SCALE).

Definition _round_ratio (numerator denominator : Z) : result Z :=
  ensure ((0 <=? numerator) && (0 <? denominator)) "cannot round a negative score ratio";;
  let quotient := numerator / denominator in
  let remainder := numerator mod denominator in
  Ok (quotient + (if denominator <=? remainder * 2 then 1 else 0)).

(** * Replaying a report *)

(** One stratum of the macro average: the sums so far, at 60 digits. *)
Definition capability_step (acc : Z * Dec * Dec) (c : LongMemCapabilityScore) : result (Z * Dec * Dec) :=
  let '(total_cases, macro_sum, macro_variance) := acc in
  ensure (2 <=? count c) ("LongMem capability " +:+ named (capability_value (capability c)) +:+
    " needs two cases");;
  _round_ratio (correct c * SCORE_SCALE) (count c) ≫= λ expected_mean,
  ensure (mean_micros c =? expected_mean)
    ("LongMem capability " +:+ named (capability_value (capability c)) +:+ " mean is not derived");;
  let strata := dec (Z.of_nat (length CAPABILITY_ORDER)) in
  let n := dec (count c) in
  let mean := ddiv 60 (dec (correct c)) n in
  let sum := dadd 60 macro_sum (ddiv 60 mean strata) in
  let sample_variance := ddiv 60 (dmul 60 (dmul 60 mean (dsub 60 (dec 1) mean)) n) (dsub 60 n (dec 1)) in
  let variance := dadd 60 macro_variance (ddiv 60 (ddiv 60 sample_variance n) (dmul 60 strata strata)) in
  Ok (total_cases + count c, sum, variance).

Fixpoint fold_strata (acc : Z * Dec * Dec) (l : list LongMemCapabilityScore) : result (Z * Dec * Dec) :=
  match l with
  | [] => Ok acc
  | c :: l' => capability_step acc c ≫= λ acc', fold_strata acc' l'
  end.

Definition validate_score (s : LongMemScoreEvidence) : result unit :=
  ensure (bool_decide (capability <$> per_capability s = CAPABILITY_ORDER))
    "LongMem capabilities must appear once in frozen order";;
  fold_strata (0, dec 0, dec 0) (per_capability s) ≫= λ '(total_cases, macro_sum, macro_variance),
  let expected_macro := half_up (dmul 60 macro_sum (dec SCORE_SCALE)) in
  let expected_stderr := half_up (dmul 60 (dsqrt 60 macro_variance) (dec SCORE_SCALE)) in
  ensure (case_count s =? total_cases) "LongMem case count is not derived";;
  ensure (longmem_mean_micros s =? expected_macro) "LongMem macro mean is not derived";;
  ensure (longmem_stderr_micros s =? expected_stderr) "LongMem stderr is not derived".

(** [zip(lanes, policies, strict=True)] after the names have been compared. *)
Definition validate_lane (row : LongMemProviderLaneEvidence) (p : ProviderLanePolicy) : result unit :=
  ensure (String.eqb (provider row) (pol_provider p) &&
          String.eqb (lane_profile_revision row) (pol_profile_revision p) &&
          String.eqb (model row) (pol_model p))
    ("LongMem provider identity drift on lane " +:+ named (pol_lane p));;
  ensure ((requests row <=? max_requests p) && (prompt_tokens row <=? max_prompt_tokens p) &&
          (completion_tokens row <=? max_completion_tokens p) && (total_tokens row <=? max_total_tokens p) &&
          (cost_usd_micros row <=? max_cost_usd_micros p))
    ("LongMem provider lane " +:+ named (pol_lane p) +:+ " exceeds its frozen cap").
Fixpoint validate_lane_rows (rows : list LongMemProviderLaneEvidence) (policies : list ProviderLanePolicy)
    : result unit :=
  match rows, policies with
  | r :: rows', p :: policies' => validate_lane r p;; validate_lane_rows rows' policies'
  | _, _ => Ok tt
  end.

Definition validate_zero_lanes (s : LongMemScoreEvidence) (lanes : list LongMemProviderLaneEvidence)
    : result unit :=
  if existsb (λ r, requests r =? 0) lanes then
    if forallb (λ r, requests r =? 0) lanes then
      ensure (forallb (λ r, (requests r =? 0) && zero_accounting r) lanes && exact_zero_score s)
        "LongMem zero-provider form is not an exact official zero"
    else
      ensure (unused_reader s (rows_by_lane lanes))
        "LongMem mixed provider form is not an exact unused-reader official zero"
  else
    ensure (negb (existsb (λ r, (successes r =? 0) || negb (receipted_requests r =? requests r) ||
                                negb (String.length (receipt_set_sha256 r) =? 64)%nat) lanes))
      "LongMem positive provider evidence lacks complete receipts".

Definition set_provider_evidence (l : list LongMemProviderLaneEvidence) (e : LongMemEvidence) : LongMemEvidence :=
  {| lm_artifact_sha256 := lm_artifact_sha256 e; lm_bench_version := lm_bench_version e;
     lm_profile_checksum := lm_profile_checksum e; case_set_digest := case_set_digest e;
     dataset_revision := dataset_revision e; lm_dataset_sha256 := lm_dataset_sha256 e;
     score := score e; provider_evidence := l |}.
Definition set_longmem_evidence (e : LongMemEvidence) (v : LongMemDimensionEnvelope) : LongMemDimensionEnvelope :=
  {| lenv_evidence_sha256 := lenv_evidence_sha256 v; lenv_latency_ms := lenv_latency_ms v;
     request_count := request_count v; input_tokens := input_tokens v; output_tokens := output_tokens v;
     provider_cost_microusd := provider_cost_microusd v; lenv_evidence := e |}.

Definition _validate_longmem (v : LongMemDimensionEnvelope) (artifact : string)
    (p : ConfirmationVerificationProfile) : result LongMemDimensionEnvelope :=
  let e := lenv_evidence v in
  ensure (String.eqb (lm_artifact_sha256 e) artifact) "LongMem artifact digest drift";;
  ensure (String.eqb (lm_profile_checksum e) (longmem_profile_checksum p)) "LongMem profile checksum drift";;
  ensure (String.eqb (dataset_revision e) (longmem_dataset_revision p) &&
          String.eqb (lm_dataset_sha256 e) (longmem_dataset_sha256 p)) "LongMem dataset identity drift";;
  validate_score (score e);;
  let lanes := py_sorted (cmp_by str_cmp lane) (provider_evidence e) in
  let policies := sorted_policies (provider_lanes p) in
  ensure (bool_decide (lane <$> lanes = pol_lane <$> policies))
    "LongMem provider evidence must cover every frozen lane exactly once";;
  validate_lane_rows lanes policies;;
  validate_zero_lanes (score e) lanes;;
  let normalized := set_provider_evidence lanes e in
  ensure (String.eqb (lenv_evidence_sha256 v) (evidence_digest (longmem_evidence_dump normalized)))
    "LongMem evidence digest mismatch";;
  ensure ((request_count v =? sum_Z (requests <$> lanes)) &&
          (input_tokens v =? sum_Z (prompt_tokens <$> lanes)) &&
          (output_tokens v =? sum_Z (completion_tokens <$> lanes)) &&
          (provider_cost_microusd v =? sum_Z (cost_usd_micros <$> lanes)))
    "LongMem envelope accounting does not equal its provider lanes";;
  Ok (set_longmem_evidence normalized v).

(** The source raises one of two messages for inference and embedding, and
    names the intervention in the others. *)
Definition validate_usage (u : AblationSyntheticUsage) (policy_intervention : string) : result Z :=
  if String.eqb policy_intervention "inference" then
    ensure (no_embedding_usage u) "inference ablation contains embedding synthetic usage";;
    ensure (chat_attempts u =? chat_applied u + rejected_requests u)
      "inference synthetic attempt accounting is inconsistent";;
    Ok (chat_applied u)
  else
    ensure (no_chat_usage u) "embedding ablation contains chat synthetic usage";;
    ensure (embedding_attempts u =? embedding_applied u + rejected_requests u)
      "embedding synthetic attempt accounting is inconsistent";;
    Ok (embedding_applied u).

Definition _validate_ablation (v : AblationDimensionEnvelope) (artifact : string) (m : ConfirmationMode)
    (p : ConfirmationVerificationProfile) (policy : AblationVerificationPolicy)
    : result AblationDimensionEnvelope :=
  let e := aenv_evidence v in
  ensure (String.eqb (ae_artifact_sha256 e) artifact) "ablation artifact digest drift";;
  ensure (bool_decide (ae_mode e = m)) "ablation mode does not match frozen settings";;
  ensure (String.eqb (contract_version e) ABLATION_EVIDENCE_CONTRACT_VERSION &&
          String.eqb (intervention_value (intervention e)) (pol_intervention policy) &&
          String.eqb (ae_profile_revision e) (ablation_profile_revision p) &&
          String.eqb (ae_profile_checksum e) (ablation_profile_checksum p) &&
          String.eqb (threshold_manifest_sha256 e) (ablation_threshold_manifest_sha256 p) &&
          String.eqb (ae_dataset_sha256 e) (ablation_dataset_sha256 p) &&
          (threshold_micros e =? pol_threshold_micros policy) &&
          bool_decide (usage_budget (synthetic_usage e) = budget policy))
    (pol_intervention policy +:+ " ablation profile drift");;
  let u := synthetic_usage e in
  validate_usage u (pol_intervention policy) ≫= λ affected,
  ensure (Bool.eqb (0 <? rejected_requests u) (budget_exhausted u))
    "synthetic budget exhaustion accounting is inconsistent";;
  ensure (affected_call_count e =? affected) "ablation affected-call count is not derived";;
  ensure (negb (ran (status e) && budget_exhausted u)) "budget-exhausted ablation cannot complete";;
  ensure (negb (bool_decide (status e = unavailable) &&
                String.eqb (reason e) "synthetic_budget_exhausted" && negb (budget_exhausted u)))
    "budget exhaustion lacks rejected usage";;
  ensure (String.eqb (aenv_evidence_sha256 v) (evidence_digest (ablation_evidence_dump e)))
    (pol_intervention policy +:+ " ablation evidence digest mismatch");;
  Ok v.

Record VerifiedConfirmationEvidence := {
  root : ConfirmationEvidenceRoot;
  evidence_sha256 : string;
  verified_mean_micros : Z;
  verified_stderr_micros : Z;
  ablations_complete : bool;
  ablation_semantic_factor_bps : option Z
}.

Definition composite_policy_of (c : CompositeVerificationPolicy) : result ConfirmationCompositePolicy :=
  field (comp_schema_version c =? 1) "schema_version";;
  field (String.eqb (formula_revision c) "weighted-quality-gates-v1") "formula_revision";;
  let policy := {| cp_revision := comp_revision c; base_weight_bps := comp_base_weight_bps c;
                   longmem_weight_bps := comp_longmem_weight_bps c; cp_checksum := composite_checksum c |} in
  check_composite_policy policy;;
  Ok policy.

(** The identity under which a bundle's evidence is verified. *)
Record EvidenceIdentity := {
  id_artifact_sha256 : string;
  id_profile_revision : string;
  id_profile_checksum : string;
  id_settings_revision : Z;
  id_settings_checksum : string;
  id_retest_generation : Z;
  id_mode : ConfirmationMode
}.

Definition completed_dimension (v : AblationDimensionEnvelope) : bool :=
  bool_decide (aenv_status v = dim_completed).

Definition rebuild_confirmation_evidence (r : ConfirmationCompletionReport) (i : EvidenceIdentity)
    (p : ConfirmationVerificationProfile) : result VerifiedConfirmationEvidence :=
  validate p;;
  ensure (String.eqb (revision p) (id_profile_revision i)) "confirmation profile identity drift";;
  checksum p ≫= λ sum,
  ensure (String.eqb sum (id_profile_checksum i)) "confirmation profile identity drift";;
  _require_sha256 (id_settings_checksum i) "settings checksum";;
  _validate_longmem (report_longmemeval r) (id_artifact_sha256 i) p ≫= λ longmem,
  _validate_ablation (report_inference_ablation r) (id_artifact_sha256 i) (id_mode i) p (inference_policy p)
    ≫= λ inference,
  _validate_ablation (report_embedding_ablation r) (id_artifact_sha256 i) (id_mode i) p (embedding_policy p)
    ≫= λ embedding,
  ensure (String.eqb (coordinator_sha256 (aenv_evidence inference)) (coordinator_sha256 (aenv_evidence embedding)))
    "ablation interventions do not share one run coordinator";;
  let totals := derived_totals longmem (report_coordinator_latency_ms r) in
  check_totals totals;;
  composite_policy_of (composite p) ≫= λ policy,
  let root := {| root_artifact_sha256 := id_artifact_sha256 i; root_bench_version := profile_bench_version p;
    root_profile_revision := id_profile_revision i; root_profile_checksum := id_profile_checksum i;
    root_settings_revision := id_settings_revision i; root_settings_checksum := id_settings_checksum i;
    root_retest_generation := id_retest_generation i;
    ablation_coordinator_latency_ms := report_coordinator_latency_ms r; composite_policy := policy;
    longmemeval := longmem; inference_ablation := inference; embedding_ablation := embedding;
    totals := totals |} in
  check_root root;;
  let complete := completed_dimension inference && completed_dimension embedding in
  (if complete then
     _binary_product [semantic_factor_bps (aenv_evidence inference); semantic_factor_bps (aenv_evidence embedding)]
       ≫= λ product, Ok (Some product)
   else Ok None) ≫= λ semantic,
  Ok {| root := root; evidence_sha256 := evidence_digest (root_dump root);
        verified_mean_micros := longmem_mean_micros (score (lenv_evidence longmem));
        verified_stderr_micros := longmem_stderr_micros (score (lenv_evidence longmem));
        ablations_complete := complete; ablation_semantic_factor_bps := semantic |}.

(** * A subject's projection *)

Inductive ResultStatus := base_only | provisional | full_confirmed.
#[global] Instance result_status_eq_dec : EqDecision ResultStatus.
Proof. solve_decision. Defined.

Record SubjectProjection := {
  result_status : ResultStatus;
  full_quality_micros : option Z;
  full_stderr_micros : option Z;
  proj_semantic_factor_bps : option Z;
  proj_applied_factor_bps : option Z;
  full_effective_micros : option Z
}.

(** The root of the weighted squares, at 50 digits. *)
Definition combined_stderr (base_weight base_stderr longmem_weight longmem_stderr : Z) : Z :=
  let base_component := ddiv 50 (dmul 50 (dec base_weight) (dec base_stderr)) (dec FACTOR_SCALE) in
  let longmem_component := ddiv 50 (dmul 50 (dec longmem_weight) (dec longmem_stderr)) (dec FACTOR_SCALE) in
  half_up (dsqrt 50 (dadd 50 (dmul 50 base_component base_component)
                            (dmul 50 longmem_component longmem_component))).

Definition compute_subject_projection (m : ConfirmationMode)
    (base_quality_micros base_stderr_micros base_model_factor_bps base_tool_factor_bps : Z)
    (v : VerifiedConfirmationEvidence) (c : CompositeVerificationPolicy) : result SubjectProjection :=
  ensure (in_range base_quality_micros 0 SCORE_SCALE) "base quality is out of range";;
  ensure (in_range base_stderr_micros 0 SCORE_SCALE) "base stderr is out of range";;
  ensure (in_range base_model_factor_bps 0 FACTOR_SCALE) "model factor is out of range";;
  ensure (in_range base_tool_factor_bps 0 FACTOR_SCALE) "tool factor is out of range";;
  ensure (bool_decide (base_model_factor_bps ∈ [0; FACTOR_SCALE]) &&
          bool_decide (base_tool_factor_bps ∈ [0; FACTOR_SCALE])) "base gates must be binary";;
  if negb (ablations_complete v) then
    Ok {| result_status := provisional; full_quality_micros := None; full_stderr_micros := None;
          proj_semantic_factor_bps := None; proj_applied_factor_bps := None; full_effective_micros := None |}
  else
    _binary_product [Some base_model_factor_bps; Some base_tool_factor_bps; ablation_semantic_factor_bps v]
      ≫= λ semantic,
    _binary_product [Some base_model_factor_bps; Some base_tool_factor_bps] ≫= λ ranking_factor,
    let applied := if bool_decide (m = SHADOW) then FACTOR_SCALE else ranking_factor in
    _round_ratio (comp_base_weight_bps c * base_quality_micros +
                  comp_longmem_weight_bps c * verified_mean_micros v) FACTOR_SCALE ≫= λ quality,
    let stderr := combined_stderr (comp_base_weight_bps c) base_stderr_micros
                    (comp_longmem_weight_bps c) (verified_stderr_micros v) in
    _round_ratio (quality * applied) FACTOR_SCALE ≫= λ effective,
    _round_ratio (stderr * applied) FACTOR_SCALE ≫= λ applied_stderr,
    Ok {| result_status := if bool_decide (m = ENFORCE) then full_confirmed else provisional;
          full_quality_micros := Some quality; full_stderr_micros := Some applied_stderr;
          proj_semantic_factor_bps := Some semantic; proj_applied_factor_bps := Some applied;
          full_effective_micros := Some effective |}.
End evidence.

(** * The signed message *)

(** [isoformat(timespec="microseconds")] in UTC, with a Z. *)
Definition deadline_text (instant : Z) : string :=
  let us := instant mod seconds 86400 in
  let s := us / seconds 1 in
  date_isoformat instant +:+ "T" +:+ padded 2 (s / 3600) +:+ ":" +:+ padded 2 (s / 60 mod 60) +:+ ":" +:+
  padded 2 (s mod 60) +:+ "." +:+ padded 6 (us mod seconds 1) +:+ "Z".

Definition confirmation_signing_message (reporter_hotkey : string) (bundle_id ticket_id deadline : Z)
    (i : EvidenceIdentity) (evidence : string) : string :=
  "validator-v9-confirmation:v1:" +:+ reporter_hotkey +:+ ":" +:+ uuid_text bundle_id +:+ ":" +:+
  uuid_text ticket_id +:+ ":" +:+ deadline_text deadline +:+ ":" +:+ id_artifact_sha256 i +:+ ":9:" +:+
  id_profile_revision i +:+ ":" +:+ id_profile_checksum i +:+ ":" +:+ pretty (id_settings_revision i) +:+ ":" +:+
  id_settings_checksum i +:+ ":" +:+ pretty (id_retest_generation i) +:+ ":" +:+ evidence.
