(* ===== verification/ConfirmationEvidenceFacts.v ===== *)
(** What the verification of confirmation evidence guarantees: the spend it
    accepts is covered by the frozen lanes, a stored root replays to itself, and
    a subject's projection is the weighted score rounded once. *)
From Stdlib Require Import ZArith Lia.
From stdpp Require Import base list strings sorting.
From S2P Require Import Prelude Binary64 PyText Decimal ConfirmationPolicy ConfirmationReport ConfirmationEvidence.

#[local] Open Scope string_scope.
#[local] Open Scope Z_scope.

(** * Guards that succeeded *)

Lemma ensure_Ok ok msg u : ensure ok msg = Ok u → ok = true.
Proof. apply require_Ok. Qed.
Lemma ensure_true ok msg : ok = true → ensure ok msg = Ok tt.
Proof. by intros ->. Qed.
Lemma field_Ok ok name u : field ok name = Ok u → ok = true.
Proof. apply require_Ok. Qed.

Lemma fields_Ok checks u : fields checks = Ok u → Forall (λ c, c.1 = true) checks.
Proof.
  revert u. induction checks as [|[ok name] checks IH]; intros u; [by constructor|].
  unfold fields. cbn [foldr]. intros ([] & H%field_Ok & H')%bind_Ok. constructor; [done|].
  by eapply IH.
Qed.

(** Peels the first guard off a run that succeeded. *)
Ltac passed H :=
  let u := fresh "u" in let G := fresh "G" in
  lazymatch type of H with (_ ≫= _) = Ok _ => apply bind_Ok in H as (u & G & H) end;
  lazymatch type of G with
  | ensure _ _ = Ok _ => apply ensure_Ok in G
  | field _ _ = Ok _ => apply field_Ok in G
  | require _ _ = Ok _ => apply require_Ok in G
  | _ => idtac
  end.
Ltac passed_all H := repeat passed H.

(** * Lanes stay within their caps *)

Definition within (r : LongMemProviderLaneEvidence) (p : ProviderLanePolicy) : Prop :=
  requests r <= max_requests p ∧ prompt_tokens r <= max_prompt_tokens p ∧
  completion_tokens r <= max_completion_tokens p ∧ total_tokens r <= max_total_tokens p ∧
  cost_usd_micros r <= max_cost_usd_micros p.

Lemma validate_lane_within r p u : validate_lane r p = Ok u → within r p.
Proof.
  unfold validate_lane. intros H. passed H. apply ensure_Ok in H. bool_to_prop. by split_and!.
Qed.

Lemma lane_rows_within rows policies : length rows = length policies →
  ∀ u, validate_lane_rows rows policies = Ok u → Forall2 within rows policies.
Proof.
  revert policies. induction rows as [|r rows IH]; intros policies Hl u; destruct policies as [|p policies];
    try discriminate Hl; [by constructor|]. injection Hl as Hl.
  cbn [validate_lane_rows]. intros H. passed H. apply validate_lane_within in G. constructor; [done|].
  by eapply IH.
Qed.

Lemma sum_within (f : LongMemProviderLaneEvidence → Z) (g : ProviderLanePolicy → Z) rows policies :
  Forall2 within rows policies → (∀ r p, within r p → f r <= g p) →
  sum_Z (f <$> rows) <= sum_Z (g <$> policies).
Proof. intros Hw Hfg. induction Hw; cbn; [done|]. pose proof (Hfg _ _ H). lia. Qed.

Lemma sum_sorted_policies (g : ProviderLanePolicy → Z) l : sum_Z (g <$> sorted_policies l) = sum_Z (g <$> l).
Proof. apply sum_Z_perm. apply fmap_Permutation, py_sorted_perm. Qed.

Section facts.
Context {SH : Sha256}.

(** * What an accepted LongMem dimension is *)

Definition sorted_lanes (l : list LongMemProviderLaneEvidence) : list LongMemProviderLaneEvidence :=
  py_sorted (cmp_by str_cmp lane) l.

Record longmem_accepted (v v' : LongMemDimensionEnvelope) (p : ConfirmationVerificationProfile) : Prop := {
  la_lanes : Forall2 within (sorted_lanes (provider_evidence (lenv_evidence v))) (sorted_policies (provider_lanes p));
  la_envelope : v' = set_longmem_evidence (set_provider_evidence
    (sorted_lanes (provider_evidence (lenv_evidence v))) (lenv_evidence v)) v;
  la_requests : request_count v = sum_Z (requests <$> sorted_lanes (provider_evidence (lenv_evidence v)));
  la_input : input_tokens v = sum_Z (prompt_tokens <$> sorted_lanes (provider_evidence (lenv_evidence v)));
  la_output : output_tokens v = sum_Z (completion_tokens <$> sorted_lanes (provider_evidence (lenv_evidence v)));
  la_cost : provider_cost_microusd v = sum_Z (cost_usd_micros <$> sorted_lanes (provider_evidence (lenv_evidence v)))
}.

Lemma validate_longmem_Ok v artifact p v' :
  _validate_longmem v artifact p = Ok v' → longmem_accepted v v' p.
Proof.
  unfold _validate_longmem. cbn zeta. fold (sorted_lanes (provider_evidence (lenv_evidence v))).
  set (lanes := sorted_lanes _). intros H. do 4 passed H. passed H. passed H. passed H. passed H. passed H.
  injection H as <-. bool_to_prop. split; try done.
  apply lane_rows_within with (u := u4); [|done].
  match goal with E : lane <$> _ = _ |- _ => apply (f_equal length) in E; by rewrite !length_fmap in E end.
Qed.

Record rebuilt (r : ConfirmationCompletionReport) (i : EvidenceIdentity)
    (p : ConfirmationVerificationProfile) (v : VerifiedConfirmationEvidence) : Prop := {
  rb_longmem : longmem_accepted (report_longmemeval r) (longmemeval (root v)) p;
  rb_inference : inference_ablation (root v) = report_inference_ablation r;
  rb_embedding : embedding_ablation (root v) = report_embedding_ablation r;
  rb_totals : totals (root v) = derived_totals (longmemeval (root v)) (report_coordinator_latency_ms r);
  rb_latency : ablation_coordinator_latency_ms (root v) = report_coordinator_latency_ms r;
  rb_digest : evidence_sha256 v = evidence_digest (root_dump (root v));
  rb_composite : validate_composite (composite p) = Ok tt
}.

Lemma validate_ablation_same v artifact m p policy v' :
  _validate_ablation v artifact m p policy = Ok v' → v' = v.
Proof.
  unfold _validate_ablation. intros H. do 3 passed H. apply bind_Ok in H as (affected & _ & H).
  passed_all H. by injection H.
Qed.

Lemma rebuild_Ok r i p v : rebuild_confirmation_evidence r i p = Ok v → rebuilt r i p v.
Proof.
  unfold rebuild_confirmation_evidence. intros H. passed H. rename G into Hv. do 2 passed H.
  passed H. passed H.
  apply bind_Ok in H as (lm & Hlm%validate_longmem_Ok & H).
  apply bind_Ok in H as (inf & ->%validate_ablation_same & H).
  apply bind_Ok in H as (emb & ->%validate_ablation_same & H).
  passed H. passed H. apply bind_Ok in H as (policy & _ & H). passed H.
  apply bind_Ok in H as (semantic & _ & [= <-]). split; try done. cbn.
  unfold validate in Hv. passed_all Hv. by destruct u.
Qed.

(** * The spend of accepted evidence *)

Lemma checked_all {A} (check : A → result unit) l u :
  foldr (λ a rest, check a;; rest) (Ok tt) l = Ok u → Forall (λ a, check a = Ok tt) l.
Proof.
  revert u. induction l as [|a l IH]; intros u; cbn [foldr]; [by constructor|].
  intros ([] & Ha & H)%bind_Ok. constructor; [done|]. by eapply IH.
Qed.

Lemma report_lanes r u : check_report r = Ok u →
  Forall (λ l, check_lane_evidence l = Ok tt) (provider_evidence (lenv_evidence (report_longmemeval r))).
Proof.
  intros H. unfold check_report in H. passed H. passed H. clear H.
  unfold check_longmem_envelope in G0. passed G0. clear G1. unfold check_longmem_evidence in G0.
  do 3 passed G0. by eapply checked_all.
Qed.

(** A checked lane counts its tokens once. *)
Lemma lane_tokens l : check_lane_evidence l = Ok tt → prompt_tokens l + completion_tokens l = total_tokens l.
Proof.
  unfold check_lane_evidence. intros H. passed H. clear G. destruct (requests l =? 0).
  - apply field_Ok in H. unfold zero_accounting in H. bool_to_prop. lia.
  - apply fields_Ok in H. apply Forall_inv_tail in H. do 3 apply Forall_inv_tail in H. apply Forall_inv in H.
    cbn in H. bool_to_prop. lia.
Qed.

Lemma sum_tokens l : Forall (λ l, check_lane_evidence l = Ok tt) l →
  sum_Z (prompt_tokens <$> l) + sum_Z (completion_tokens <$> l) = sum_Z (total_tokens <$> l).
Proof. induction 1 as [|x l Hx _ IH]; cbn; [done|]. apply lane_tokens in Hx. lia. Qed.

(** What a claim reserves: the frozen maxima of every lane, the embedding one
    included. *)
Definition lane_ceiling (p : ConfirmationVerificationProfile) : Z :=
  sum_Z (max_cost_usd_micros <$> provider_lanes p) + emb_max_cost_usd_micros (embedding_lane p).

Lemma embedding_caps_positive p u : validate p = Ok u →
  0 < emb_max_requests (embedding_lane p) ∧ 0 < emb_max_input_tokens (embedding_lane p) ∧
  0 < emb_max_cost_usd_micros (embedding_lane p).
Proof.
  unfold validate. intros H. passed H. passed H. clear H G. unfold _validate_embedding_policy in G0.
  passed_all G0. apply ensure_Ok in G0. bool_to_prop. by split_and!.
Qed.

Lemma rebuild_validates r i p v : rebuild_confirmation_evidence r i p = Ok v → validate p = Ok tt.
Proof. unfold rebuild_confirmation_evidence. intros H. passed H. by destruct u. Qed.

(** Rebuilt evidence costs no more than the frozen maxima of its lanes. *)
Lemma rebuilt_cost r i p v : rebuild_confirmation_evidence r i p = Ok v →
  total_provider_cost_microusd (totals (root v)) <= lane_ceiling p.
Proof.
  intros Hv. pose proof (rebuild_validates _ _ _ _ Hv) as Hp. apply embedding_caps_positive in Hp as (_ & _ & He).
  apply rebuild_Ok in Hv as [[Hl Henv _ _ _ H4] _ _ Ht _ _ _]. rewrite Ht, Henv. cbn. rewrite H4.
  pose proof (sum_within cost_usd_micros max_cost_usd_micros _ _ Hl) as S3. rewrite !sum_sorted_policies in *.
  unfold lane_ceiling. unfold within in *. pose proof (S3 ltac:(tauto)). lia.
Qed.

(** C34: Accepted evidence is funded. A checked report that the platform rebuilds
    into evidence spends no more than what a claim reserves for its frozen
    profile, and, when the profile passed the issuance check against the bundle
    caps, makes no more requests and uses no more tokens than those caps: so the
    cap checks at completion never refuse evidence that was worth issuing. *)
Theorem accepted_evidence_funded r i p v request_cap token_cap :
  check_report r = Ok tt → rebuild_confirmation_evidence r i p = Ok v →
  validate_confirmation_inference_caps p request_cap token_cap = Ok tt →
  let t := totals (root v) in
  total_provider_cost_microusd t <= lane_ceiling p ∧ total_request_count t <= request_cap ∧
  total_input_tokens t + total_output_tokens t <= token_cap.
Proof.
  intros Hr Hv Hcaps. cbn zeta. pose proof (rebuild_validates _ _ _ _ Hv) as Hp. split; [by eapply rebuilt_cost|].
  apply embedding_caps_positive in Hp as (He1 & He2 & _). apply rebuild_Ok in Hv as [[Hl Henv H1 H2 H3 _] _ _ Ht _ _ _].
  rewrite Ht, Henv. cbn. unfold validate_confirmation_inference_caps in Hcaps. cbn in Hcaps.
  apply ensure_Ok in Hcaps. bool_to_prop. apply report_lanes in Hr. set (lanes := sorted_lanes _) in *.
  assert (Forall (λ l, check_lane_evidence l = Ok tt) lanes) as Hc.
  { unfold lanes, sorted_lanes. by rewrite py_sorted_perm. }
  rewrite H1, H2, H3, sum_tokens by done.
  pose proof (sum_within requests max_requests _ _ Hl) as S1.
  pose proof (sum_within total_tokens max_total_tokens _ _ Hl) as S2.
  rewrite !sum_sorted_policies in *. unfold within in *.
  split; [pose proof (S1 ltac:(tauto))|pose proof (S2 ltac:(tauto))]; lia.
Qed.

(** * Replaying a stored root *)

(** The report [_replay_stored_bundle] builds from a stored root. *)
Definition replay_report (r : ConfirmationEvidenceRoot) (signature : string) : ConfirmationCompletionReport :=
  {| report_coordinator_latency_ms := ablation_coordinator_latency_ms r;
     report_longmemeval := longmemeval r; report_inference_ablation := inference_ablation r;
     report_embedding_ablation := embedding_ablation r; bundle_signature := signature |}.

Lemma sorted_lanes_twice l : sorted_lanes (sorted_lanes l) = sorted_lanes l.
Proof. apply py_sorted_twice. apply _. Qed.

Lemma validate_longmem_normal v artifact p :
  let lanes := sorted_lanes (provider_evidence (lenv_evidence v)) in
  _validate_longmem (set_longmem_evidence (set_provider_evidence lanes (lenv_evidence v)) v) artifact p =
  _validate_longmem v artifact p.
Proof.
  cbn zeta. unfold _validate_longmem. cbn zeta. cbn [lenv_evidence set_longmem_evidence provider_evidence
    set_provider_evidence lm_artifact_sha256 lm_profile_checksum dataset_revision lm_dataset_sha256 score].
  fold (sorted_lanes (provider_evidence (lenv_evidence v))).
  fold (sorted_lanes (sorted_lanes (provider_evidence (lenv_evidence v)))).
  by rewrite sorted_lanes_twice.
Qed.

(** A stored root is rebuilt into the very evidence it was stored for: a replay
    neither fails nor changes a bundle. *)
Lemma stored_root_replays r i p v signature : rebuild_confirmation_evidence r i p = Ok v →
  rebuild_confirmation_evidence (replay_report (root v) signature) i p = Ok v.
Proof.
  intros H. rewrite <- H. apply rebuild_Ok in H as [[_ Henv _ _ _ _] Hi He _ Hlat _ _].
  unfold rebuild_confirmation_evidence. cbn [report_longmemeval report_inference_ablation
    report_embedding_ablation report_coordinator_latency_ms replay_report].
  by rewrite Hi, He, Hlat, Henv, validate_longmem_normal.
Qed.

(** * A subject's projection *)

Lemma component_denotes w s : 0 <= w <= FACTOR_SCALE → 0 <= s <= SCORE_SCALE →
  denotes (ddiv 50 (dmul 50 (dec w) (dec s)) (dec FACTOR_SCALE)) (w * s) FACTOR_SCALE.
Proof.
  unfold FACTOR_SCALE, SCORE_SCALE. intros Hw Hs. assert (0 <= w * s <= 10000000000) as Hws by nia.
  apply (ddiv_denotes 50 _ (w * s) 1 10000 (w * s) 4); try lia.
  apply (dmul_denotes 50 _ _ w s 1 1 (w * s) 0); try lia; apply denotes_dec; lia.
Qed.

(** The square root at 50 digits, rounded half up, is the square root of the
    exact sum of squares rounded half up. *)
Lemma combined_stderr_spec w1 s1 w2 s2 :
  0 <= w1 → 0 <= w2 → w1 + w2 = FACTOR_SCALE → 0 <= s1 <= SCORE_SCALE → 0 <= s2 <= SCORE_SCALE →
  let V := (w1 * s1) * (w1 * s1) + (w2 * s2) * (w2 * s2) in
  let t := combined_stderr w1 s1 w2 s2 in
  0 <= t <= SCORE_SCALE ∧ 4 * V < (2 * t + 1) * (2 * t + 1) * 100000000 ∧
  (1 <= t → (2 * t - 1) * (2 * t - 1) * 100000000 <= 4 * V).
Proof.
  intros H1 H2 Hw Hs1 Hs2. cbn zeta. unfold FACTOR_SCALE in *. unfold combined_stderr. cbn zeta.
  pose proof (component_denotes w1 s1 ltac:(unfold FACTOR_SCALE; lia) Hs1) as C1.
  pose proof (component_denotes w2 s2 ltac:(unfold FACTOR_SCALE; lia) Hs2) as C2.
  set (x1 := ddiv 50 _ _) in *. set (x2 := ddiv 50 (dmul 50 (dec w2) (dec s2)) _) in *.
  set (a := w1 * s1) in *. set (b := w2 * s2) in *. unfold FACTOR_SCALE, SCORE_SCALE in *.
  assert (0 <= a <= w1 * 1000000) as Ha by (unfold a; nia).
  assert (0 <= b <= w2 * 1000000) as Hb by (unfold b; nia). clearbody a b.
  assert (a * a <= 10000000000 * a) as Haa by nia. assert (b * b <= 10000000000 * b) as Hbb by nia.
  assert (denotes (dmul 50 x1 x1) (a * a) 100000000) as M1.
  { apply (dmul_denotes 50 _ _ a a 10000 10000 (a * a) 8); lia || done. }
  assert (denotes (dmul 50 x2 x2) (b * b) 100000000) as M2.
  { apply (dmul_denotes 50 _ _ b b 10000 10000 (b * b) 8); lia || done. }
  assert (denotes (dadd 50 (dmul 50 x1 x1) (dmul 50 x2 x2)) (a * a + b * b) 100000000) as A.
  { apply (dadd_denotes 50 _ _ _ _ _ (a * a + b * b) 8); lia || done. }
  destruct (dadd 50 _ _) as [n d]. destruct A as (Hn & Hd & E). cbn [fst snd] in *.
  assert (a * a + b * b <= 100000000000000000000) as HV by nia.
  destruct (half_up_sqrt 50 7 n d (a * a + b * b) 100000000) as (T1 & T2 & T3); try lia.
  { change (10 ^ (2 * 7)) with 100000000000000. nia. }
  split_and!; [done| |done..]. set (t := half_up _) in *. apply Z.nlt_ge. intros Hlt.
  assert ((2 * t - 1) * (2 * t - 1) * 100000000 <= 4 * (a * a + b * b)) as T by (apply T3; lia). nia.
Qed.

Lemma round_ratio_spec n d : 0 <= n → 0 < d →
  ∃ q, _round_ratio n d = Ok q ∧ 0 <= q ∧ 2 * q * d <= 2 * n + d ∧ 2 * n < 2 * q * d + d.
Proof.
  intros Hn Hd. unfold _round_ratio. rewrite ensure_true by (apply andb_true_iff; split; [apply Z.leb_le|apply Z.ltb_lt]; lia).
  cbn. eexists. split; [done|]. pose proof (Z.div_mod n d ltac:(lia)). pose proof (Z.mod_pos_bound n d Hd).
  pose proof (Z.div_pos n d Hn Hd). destruct (Z.leb_spec d (n mod d * 2)); split_and!; nia.
Qed.

Lemma round_ratio_scaled n : 0 <= n → _round_ratio (n * FACTOR_SCALE) FACTOR_SCALE = Ok n.
Proof.
  intros Hn. destruct (round_ratio_spec (n * FACTOR_SCALE) FACTOR_SCALE) as (q & -> & _ & H1 & H2); [|done|].
  - unfold FACTOR_SCALE. lia.
  - f_equal. unfold FACTOR_SCALE in *. lia.
Qed.

(** [n / d], and the square root of [V / S], to the nearest integer, a half up. *)
Definition rounds_half_up (q n d : Z) : Prop := 2 * q * d <= 2 * n + d ∧ 2 * n < 2 * q * d + d.
Definition rounds_root (t V S : Z) : Prop :=
  4 * V < (2 * t + 1) * (2 * t + 1) * S ∧ (1 <= t → (2 * t - 1) * (2 * t - 1) * S <= 4 * V).

Definition gate (open : bool) : Z := if open then FACTOR_SCALE else 0.
Definition is_gate (z : Z) : Prop := z = 0 ∨ z = FACTOR_SCALE.
Definition open_gate (z : Z) : bool := z =? FACTOR_SCALE.

Lemma gate_open z : is_gate z → z = gate (open_gate z).
Proof. by intros [->| ->]. Qed.

Lemma binary_product_gates (l : list bool) :
  _binary_product (map (λ b, Some (gate b)) l) = Ok (gate (forallb id l)).
Proof.
  unfold _binary_product. rewrite ensure_true.
  - cbn. f_equal. induction l as [|[] l IH]; cbn in *; [done|done|done].
  - apply forallb_forall. intros ? (b & <- & _)%in_map_iff. by destruct b.
Qed.

Lemma round_gated q open : 0 <= q → _round_ratio (q * gate open) FACTOR_SCALE = Ok (if open then q else 0).
Proof.
  intros Hq. destruct open; cbn [gate]; [by apply round_ratio_scaled|]. rewrite Z.mul_0_r.
  by apply (round_ratio_scaled 0).
Qed.

(** What the checks of the report and the replay say of the evidence a subject's
    score is built from. *)
Lemma rebuild_score r i p v : check_report r = Ok tt → rebuild_confirmation_evidence r i p = Ok v →
  0 <= verified_mean_micros v <= SCORE_SCALE ∧ 0 <= verified_stderr_micros v <= SCORE_SCALE ∧
  (ablations_complete v = true → ∃ open, ablation_semantic_factor_bps v = Some (gate open)).
Proof.
  intros Hr H. unfold check_report in Hr. passed Hr. passed Hr. clear Hr. rename G0 into Hr.
  unfold check_longmem_envelope in Hr. passed Hr. unfold check_longmem_evidence in Hr. passed Hr. passed Hr.
  unfold check_score_evidence in G2. passed G2. apply fields_Ok in G3.
  inversion G3 as [|? ? E1 G3']; subst. inversion G3' as [|? ? E2 _]; subst. cbn in E1, E2.
  unfold score_micros, in_range in E1, E2. bool_to_prop.
  unfold rebuild_confirmation_evidence in H. do 5 passed H.
  apply bind_Ok in H as (lm & Hlm%validate_longmem_Ok & H).
  apply bind_Ok in H as (inf & _ & H). apply bind_Ok in H as (emb & _ & H). passed H. passed H.
  apply bind_Ok in H as (policy & _ & H). passed H.
  apply bind_Ok in H as (semantic & Hs & [= <-]). cbn. rewrite (la_envelope _ _ _ Hlm). cbn.
  unfold SCORE_SCALE. split_and!; [lia..|]. intros Hc. rewrite Hc in Hs.
  apply bind_Ok in Hs as (product & Hp & [= <-]). unfold _binary_product in Hp. passed Hp.
  injection Hp as <-. exists (negb (existsb (λ v, bool_decide (v = Some 0))
    [semantic_factor_bps (aenv_evidence inf); semantic_factor_bps (aenv_evidence emb)])).
  unfold gate. by rewrite if_negb.
Qed.

(** C32: A subject's full score is the formula, rounded once. For evidence the
    platform accepted and any base proof in range, the projection succeeds; with
    unavailable ablations it is provisional and empty; otherwise the quality is
    the weighted mean to the nearest micro, the standard error is the exact root
    of the weighted squares to the nearest micro, in spite of the intermediate
    50-digit arithmetic, both shut to zero by a closed base gate except in shadow
    mode, and only enforce mode yields full confirmation. *)
Theorem projection_correct r i p v m base_quality base_stderr model_factor tool_factor :
  check_report r = Ok tt → rebuild_confirmation_evidence r i p = Ok v →
  0 <= base_quality <= SCORE_SCALE → 0 <= base_stderr <= SCORE_SCALE →
  is_gate model_factor → is_gate tool_factor →
  let w1 := comp_base_weight_bps (composite p) in
  let w2 := comp_longmem_weight_bps (composite p) in
  let gates := open_gate model_factor && open_gate tool_factor in
  let applied := bool_decide (m = SHADOW) || gates in
  ∃ quality stderr,
    rounds_half_up quality (w1 * base_quality + w2 * verified_mean_micros v) FACTOR_SCALE ∧
    rounds_root stderr ((w1 * base_stderr) * (w1 * base_stderr) +
                        (w2 * verified_stderr_micros v) * (w2 * verified_stderr_micros v)) 100000000 ∧
    0 <= quality <= SCORE_SCALE ∧ 0 <= stderr <= SCORE_SCALE ∧
    compute_subject_projection m base_quality base_stderr model_factor tool_factor v (composite p) =
    Ok (if ablations_complete v then
          {| result_status := if bool_decide (m = ENFORCE) then full_confirmed else provisional;
             full_quality_micros := Some quality;
             full_stderr_micros := Some (if applied then stderr else 0);
             proj_semantic_factor_bps := Some (gate (gates &&
               bool_decide (ablation_semantic_factor_bps v = Some FACTOR_SCALE)));
             proj_applied_factor_bps := Some (gate applied);
             full_effective_micros := Some (if applied then quality else 0) |}
        else
          {| result_status := provisional; full_quality_micros := None; full_stderr_micros := None;
             proj_semantic_factor_bps := None; proj_applied_factor_bps := None;
             full_effective_micros := None |}).
Proof.
  intros Hr Hv Hq Hs Hm Ht. cbn zeta. pose proof (rb_composite _ _ _ _ (rebuild_Ok _ _ _ _ Hv)) as Hc.
  destruct (rebuild_score _ _ _ _ Hr Hv) as (Hmean & Hstd & Hsem). clear Hr Hv.
  unfold validate_composite in Hc. passed_all Hc. apply ensure_Ok in Hc. bool_to_prop.
  set (w1 := comp_base_weight_bps (composite p)) in *. set (w2 := comp_longmem_weight_bps (composite p)) in *.
  destruct (round_ratio_spec (w1 * base_quality + w2 * verified_mean_micros v) FACTOR_SCALE)
    as (q & Eq & Hq0 & Hq1 & Hq2); [unfold SCORE_SCALE in *; nia|done|].
  destruct (combined_stderr_spec w1 base_stderr w2 (verified_stderr_micros v)) as (Ht0 & Ht1 & Ht2);
    [lia..|done|done|done|].
  assert (q <= SCORE_SCALE) as Hqs.
  { assert (w1 * base_quality <= w1 * SCORE_SCALE) by (apply Z.mul_le_mono_nonneg_l; lia).
    assert (w2 * verified_mean_micros v <= w2 * SCORE_SCALE) by (apply Z.mul_le_mono_nonneg_l; lia).
    unfold FACTOR_SCALE, SCORE_SCALE in *. lia. }
  exists q, (combined_stderr w1 base_stderr w2 (verified_stderr_micros v)). do 4 (split; [done|]).
  unfold compute_subject_projection.
  rewrite (gate_open _ Hm), (gate_open _ Ht). set (a := open_gate model_factor). set (b := open_gate tool_factor).
  assert (∀ z, 0 <= z <= SCORE_SCALE → in_range z 0 SCORE_SCALE = true) as Hr.
  { intros z Hz. apply andb_true_iff. split; apply Z.leb_le; lia. }
  rewrite !ensure_true by (solve [by apply Hr] || by destruct a, b). cbn [mbind result_bind].
  destruct (ablations_complete v); [|done]. destruct (Hsem eq_refl) as [s ->]. cbn [negb].
  pose proof (binary_product_gates [a; b; s]) as E3. pose proof (binary_product_gates [a; b]) as E2. cbn [map] in E2, E3. rewrite E3, E2. clear E2 E3.
  cbn [mbind result_bind]. fold w1 w2. rewrite Eq. cbn [mbind result_bind forallb id].
  assert ((if bool_decide (m = SHADOW) then FACTOR_SCALE else gate (a && (b && true))) =
          gate (bool_decide (m = SHADOW) || a && b)) as ->
    by (destruct (bool_decide (m = SHADOW)); [done|by destruct a, b]).
  rewrite !round_gated by lia. cbn [mbind result_bind]. by destruct a, b, s.
Qed.
End facts.

(** * Examples *)

Definition zeros64 : string := String.concat "" (replicate 64 "0").
Definition sample_sha : Sha256 := λ _, zeros64.

Definition sample_lane (name : string) : ProviderLanePolicy :=
  {| pol_lane := name; pol_provider := "openrouter"; route_provider := "r"; receipt_provider := "r";
     pol_profile_revision := "rev"; pol_model := "m"; max_requests := 12; max_prompt_tokens := 1000;
     max_completion_tokens := 500; max_total_tokens := 1500; max_cost_usd_micros := 2000000 |}.
Definition no_budget : AblationBudget :=
  {| max_chat_requests := 0; max_chat_input_bytes := 0; max_embedding_requests := 0;
     max_embedding_inputs := 0; max_embedding_input_bytes := 0 |}.
Definition inference_budget : AblationBudget :=
  {| max_chat_requests := 10; max_chat_input_bytes := 1000; max_embedding_requests := 0;
     max_embedding_inputs := 0; max_embedding_input_bytes := 0 |}.
Definition embedding_budget : AblationBudget :=
  {| max_chat_requests := 0; max_chat_input_bytes := 0; max_embedding_requests := 10;
     max_embedding_inputs := 100; max_embedding_input_bytes := 1000 |}.
Definition sample_policy (name : string) (b : AblationBudget) : AblationVerificationPolicy :=
  {| pol_intervention := name; pol_contract_version := "v1"; pol_threshold_micros := 50000; budget := b |}.

Definition sample_profile : ConfirmationVerificationProfile :=
  {| schema_version := 1; revision := "profile"; longmem_profile_revision := "longmem";
     longmem_profile_checksum := zeros64; longmem_dataset_revision := "data";
     longmem_dataset_sha256 := zeros64; longmem_selector_revision := LONGMEM_SELECTOR_REVISION_V1;
     longmem_selection_seed := 7; longmem_cases_per_capability := 2; longmem_seed_batch_pairs := 1;
     longmem_projection_key_sha256 := zeros64; provider_lanes := [sample_lane "reader"; sample_lane "judge"];
     embedding_lane := {| emb_lane := "embedding"; emb_provider := "e"; emb_profile_revision := "e";
       emb_model := "e"; dimensions := 1024; emb_max_requests := 100; emb_max_input_tokens := 1000;
       emb_max_cost_usd_micros := 500000 |};
     ablation_profile_revision := "ablation"; ablation_profile_checksum := zeros64;
     ablation_dataset_sha256 := zeros64; ablation_threshold_manifest_sha256 := zeros64;
     ablation_selection_key_sha256 := zeros64; ablation_projection_key_sha256 := zeros64;
     ablation_coordinator_policy := {| sample_size := 4; max_attempts := 1; coordinator_max_requests := 12;
       request_timeout_milliseconds := 1000; total_timeout_milliseconds := 60000 |};
     inference_policy := sample_policy "inference" inference_budget;
     embedding_policy := sample_policy "embedding" embedding_budget;
     composite := {| comp_schema_version := 1; comp_revision := "c1";
       formula_revision := "weighted-quality-gates-v1"; comp_base_weight_bps := 6000;
       comp_longmem_weight_bps := 4000 |};
     profile_bench_version := 9; longmem_min_history_sessions := 0; longmem_min_history_bytes := 0 |}.

Definition sample_lane_row (name : string) (cost : Z) : LongMemProviderLaneEvidence :=
  {| lane := name; provider := "openrouter"; lane_profile_revision := "rev"; model := "m"; requests := 12;
     successes := 12; receipted_requests := 12; prompt_tokens := 600; completion_tokens := 60;
     total_tokens := 660; cost_usd_micros := cost; receipt_set_sha256 := zeros64 |}.

Definition sample_score : LongMemScoreEvidence :=
  {| longmem_mean_micros := 500000; longmem_stderr_micros := 204124; case_count := 12;
     per_capability := map (λ c, {| capability := c; correct := 1; count := 2; mean_micros := 500000 |})
       CAPABILITY_ORDER |}.

Definition sample_longmem : LongMemDimensionEnvelope :=
  {| lenv_evidence_sha256 := zeros64; lenv_latency_ms := 1000; request_count := 24; input_tokens := 1200;
     output_tokens := 120; provider_cost_microusd := 1750000;
     lenv_evidence := {| lm_artifact_sha256 := zeros64; lm_bench_version := 9; lm_profile_checksum := zeros64;
       case_set_digest := zeros64; dataset_revision := "data"; lm_dataset_sha256 := zeros64;
       score := sample_score;
       provider_evidence := [sample_lane_row "reader" 1000000; sample_lane_row "judge" 750000] |} |}.

Definition sample_ablation (kind : Intervention) (b : AblationBudget) : AblationDimensionEnvelope :=
  let chat := if bool_decide (kind = inference) then 8 else 0 in
  let embeds := if bool_decide (kind = embedding) then 8 else 0 in
  {| aenv_status := dim_completed; aenv_evidence_sha256 := zeros64; aenv_latency_ms := 500;
     aenv_evidence := {| contract_version := ABLATION_EVIDENCE_CONTRACT_VERSION; ae_bench_version := 9;
       ae_artifact_sha256 := zeros64; intervention := kind; ae_mode := ENFORCE; status := passed;
       reason := "threshold"; ae_profile_revision := "ablation"; ae_profile_checksum := zeros64;
       threshold_manifest_sha256 := zeros64; coordinator_sha256 := zeros64; ae_dataset_sha256 := zeros64;
       ae_case_set_sha256 := zeros64; baseline_scores_sha256 := Some zeros64;
       ablated_scores_sha256 := Some zeros64; baseline_mean_micros := Some 800000;
       ablated_mean_micros := Some 700000; delta_micros := Some 100000; threshold_micros := 50000;
       sample_count := 4; affected_call_count := 8; semantic_factor_bps := Some 10000;
       applied_factor_bps := Some 10000;
       synthetic_usage := {| usage_intervention := kind; usage_budget := b; chat_attempts := chat;
         chat_applied := chat; chat_input_bytes := chat * 10; embedding_attempts := embeds;
         embedding_applied := embeds; embedding_inputs := embeds; embedding_input_bytes := embeds * 10;
         rejected_requests := 0; budget_exhausted := false |} |} |}.

Definition sample_report : ConfirmationCompletionReport :=
  {| report_coordinator_latency_ms := 100; report_longmemeval := sample_longmem;
     report_inference_ablation := sample_ablation inference inference_budget;
     report_embedding_ablation := sample_ablation embedding embedding_budget; bundle_signature := "abcd" |}.
Definition sample_identity : EvidenceIdentity :=
  {| id_artifact_sha256 := zeros64; id_profile_revision := "profile"; id_profile_checksum := zeros64;
     id_settings_revision := 3; id_settings_checksum := zeros64; id_retest_generation := 0; id_mode := ENFORCE |}.

#[local] Notation sample_verified :=
  (@rebuild_confirmation_evidence sample_sha sample_report sample_identity sample_profile).

Lemma sample_accepted : is_ok sample_verified = true.
Proof. vm_compute. reflexivity. Qed.

Lemma accepted_evidence_funded_witness : ∃ v, sample_verified = Ok v ∧
  total_provider_cost_microusd (totals (root v)) <= lane_ceiling sample_profile.
Proof.
  pose proof sample_accepted as H. destruct sample_verified as [v|] eqn:E; [clear H|discriminate H].
  exists v. split; [reflexivity|].
  eapply (@accepted_evidence_funded sample_sha sample_report sample_identity sample_profile v 124 4000).
  - vm_compute. reflexivity.
  - exact E.
  - vm_compute. reflexivity.
Defined.

Lemma projection_correct_witness : ∃ v proj, sample_verified = Ok v ∧
  compute_subject_projection ENFORCE 900000 10000 10000 10000 v (composite sample_profile) = Ok proj.
Proof.
  pose proof sample_accepted as H. destruct sample_verified as [v|] eqn:E; [clear H|discriminate H].
  destruct (@projection_correct sample_sha sample_report sample_identity sample_profile v ENFORCE
    900000 10000 10000 10000) as (quality & stderr & _ & _ & _ & _ & Hp).
  - vm_compute. reflexivity.
  - exact E.
  - unfold SCORE_SCALE. lia.
  - unfold SCORE_SCALE. lia.
  - right. reflexivity.
  - right. reflexivity.
  - exists v. eexists. split; [reflexivity|exact Hp].
Defined.

Example sample_projection :
  match sample_verified with
  | Ok v => compute_subject_projection ENFORCE 900000 10000 10000 10000 v (composite sample_profile)
  | Err e => Err e
  end = Ok {| result_status := full_confirmed; full_quality_micros := Some 740000;
              full_stderr_micros := Some 81870; proj_semantic_factor_bps := Some 10000;
              proj_applied_factor_bps := Some 10000; full_effective_micros := Some 740000 |}.
Proof. vm_compute. reflexivity. Qed.
