(* ===== verification/FloatText.v ===== *)
(** [repr] of a Python float, as [json.dumps] writes it: the shortest decimal
    that reads back as the same double, and of those the nearest. *)
From Stdlib Require Import ZArith Lia Ascii.
From stdpp Require Import base list strings pretty.
From S2P Require Import Prelude Binary64 PyText Decimal.

#[local] Open Scope string_scope.
#[local] Open Scope Z_scope.

(** The decimal [m / 10 ^ s] read as a double. *)
Definition read_decimal (m s : Z) : F64 := round (m * down s * f64_one) (up s).

(** The two decimals of [p] digits around the positive double [a], [s] places
    after the point: the nearest of those that read back. *)
Definition digits_at (p a : Z) : option (Z * Z) :=
  let s := shift p a f64_one in
  let lo := a * up s / (f64_one * down s) in
  let ok m := bool_decide (read_decimal m s = Fin a) in
  match ok lo, ok (lo + 1) with
  | true, true => Some (if 2 * a * up s <=? (2 * lo + 1) * (f64_one * down s) then lo else lo + 1, s)
  | true, false => Some (lo, s)
  | false, true => Some (lo + 1, s)
  | false, false => None
  end.

(** Seventeen digits always read back. *)
Fixpoint shortest (fuel : nat) (p a : Z) : Z * Z :=
  match fuel with
  | O => default (0, 0) (digits_at 17 a)
  | S fuel => match digits_at p a with Some d => d | None => shortest fuel (p + 1) a end
  end.

Definition zeros (n : Z) : string := String.concat EmptyString (replicate (Z.to_nat n) "0").

(** The digits [ds] with the point after [point] of them: scientific notation
    below [1e-4] and from [1e16]. *)
Definition place_point (ds : string) (point : Z) : string :=
  let n := Z.of_nat (String.length ds) in
  if between (-3) point 16 then
    if point <=? 0 then "0." +:+ zeros (- point) +:+ ds
    else if n <=? point then ds +:+ zeros (point - n) +:+ ".0"
    else String.substring 0 (Z.to_nat point) ds +:+ "." +:+
         String.substring (Z.to_nat point) (Z.to_nat (n - point)) ds
  else
    let e := point - 1 in
    String.substring 0 1 ds +:+
    (if n =? 1 then EmptyString else "." +:+ String.substring 1 (Z.to_nat (n - 1)) ds) +:+
    "e" +:+ (if e <? 0 then "-" else "+") +:+ padded 2 (Z.abs e).

Definition positive_repr (a : Z) : string :=
  let '(m, s) := shortest 16 1 a in
  place_point (pretty m) (Z.of_nat (String.length (pretty m)) - s).

Definition float_repr (x : F64) : string :=
  match x with
  | Fin a => if a =? 0 then "0.0" else if a <? 0 then "-" +:+ positive_repr (- a) else positive_repr a
  | PInf => "Infinity" | NInf => "-Infinity" | NaN => "NaN"
  end.

Example float_repr_samples :
  map float_repr [flit 164 100; flit 3 1; flit 1 10; flit 0 1; flit 1 100000; flit 1 3; flit (-25) 10; flit 123 1] =
  ["1.64"; "3.0"; "0.1"; "0.0"; "1e-05"; "0.3333333333333333"; "-2.5"; "123.0"].
Proof. vm_compute. reflexivity. Qed.
