(* ===== verification/ConfirmationStore.v ===== *)
(** The tables of the confirmation lane and their constraints:
    [apps/platform/ditto/db/models.py] and the triggers of the alembic revision
    [2026_08_08_add_confirmation_bundle_persistence].

    A table is a finite map from its primary key.  A write checks the CHECK and
    UNIQUE constraints and the triggers that guard it, and fails with the name
    of the constraint; a failed statement aborts its transaction, so an
    operation on the store either fails or returns the next store.  Columns
    that are set together, or not at all by the row's CHECK, are one optional
    record; foreign keys are the keys the operations look up themselves. *)
From Stdlib Require Import ZArith Lia Ascii.
From stdpp Require Import base gmap list strings.
From S2P Require Import Prelude Binary64 PyText FloatText ConfirmationPolicy ConfirmationReport ConfirmationEvidence.

#[local] Open Scope string_scope.
#[local] Open Scope Z_scope.

(** * Settings of the operator *)

Record PolicySettings := {
  ps_mode : ConfirmationMode;
  ps_eligibility_mode : ConfirmationEligibilityMode;
  ps_top_n : Z;
  ps_min_base_score_micros : Z;
  ps_daily_bundle_cap : Z;
  ps_daily_dollar_cap_microusd : Z;
  ps_per_bundle_request_cap : Z;
  ps_per_bundle_token_cap : Z;
  ps_profile_revision : option string;
  ps_profile_checksum : option string;
  ps_challenger_z : F64
}.
#[global] Instance policy_settings_eq_dec : EqDecision PolicySettings.
Proof. solve_decision. Defined.

Definition is_None {A} (x : option A) : bool := match x with None => true | Some _ => false end.

(** The names of the caps an active policy leaves at zero. *)
Definition missing_caps (s : PolicySettings) : list string :=
  ((map fst (filter (λ kv, kv.2 = 0)
     [("daily_bundle_cap", ps_daily_bundle_cap s);
      ("daily_dollar_cap_microusd", ps_daily_dollar_cap_microusd s);
      ("per_bundle_request_cap", ps_per_bundle_request_cap s);
      ("per_bundle_token_cap", ps_per_bundle_token_cap s)]))
   ++ (if is_None (ps_profile_revision s) then ["confirmation_profile"] else []))%list.

Definition validate_settings (s : PolicySettings) : result unit :=
  fields [(in_range (ps_top_n s) 1 MAX_TOP_N, "top_n");
          (in_range (ps_min_base_score_micros s) 0 1000000, "min_base_score_micros");
          (in_range (ps_daily_bundle_cap s) 0 MAX_DAILY_BUNDLE_CAP, "daily_bundle_cap");
          (in_range (ps_daily_dollar_cap_microusd s) 0 MAX_DAILY_DOLLAR_MICROUSD, "daily_dollar_cap_microusd");
          (in_range (ps_per_bundle_request_cap s) 0 MAX_BUNDLE_REQUEST_CAP, "per_bundle_request_cap");
          (in_range (ps_per_bundle_token_cap s) 0 MAX_BUNDLE_TOKEN_CAP, "per_bundle_token_cap");
          (optional (text_between 1 128) (ps_profile_revision s), "profile_revision");
          (optional digest_text (ps_profile_checksum s), "profile_checksum");
          (fleb (Fin 0) (ps_challenger_z s) && fleb (ps_challenger_z s) (of_int 3), "challenger_z");
          (Bool.eqb (is_None (ps_profile_revision s)) (is_None (ps_profile_checksum s)),
             "profile_revision and profile_checksum must be configured together")];;
  if bool_decide (ps_mode s = OFF) then Ok tt
  else field (bool_decide (missing_caps s = []))
         ("shadow/enforce confirmation policy is incomplete: " +:+ String.concat ", " (missing_caps s)).

(** [json.dumps(settings.model_dump(mode="json"), sort_keys=True, ...)] *)
Definition settings_members (s : PolicySettings) : list (string * string) :=
  [("mode", quoted (mode_value (ps_mode s)));
   ("eligibility_mode", quoted (eligibility_value (ps_eligibility_mode s)));
   ("top_n", _canonical (JInt (ps_top_n s)));
   ("min_base_score_micros", _canonical (JInt (ps_min_base_score_micros s)));
   ("daily_bundle_cap", _canonical (JInt (ps_daily_bundle_cap s)));
   ("daily_dollar_cap_microusd", _canonical (JInt (ps_daily_dollar_cap_microusd s)));
   ("per_bundle_request_cap", _canonical (JInt (ps_per_bundle_request_cap s)));
   ("per_bundle_token_cap", _canonical (JInt (ps_per_bundle_token_cap s)));
   ("profile_revision", _canonical (jstr (ps_profile_revision s)));
   ("profile_checksum", _canonical (jstr (ps_profile_checksum s)));
   ("challenger_z", float_repr (ps_challenger_z s))].
Definition settings_text (s : PolicySettings) : string :=
  "{" +:+ join (map (λ kv, quoted kv.1 +:+ ":" +:+ kv.2) (py_sorted key_cmp (settings_members s))) +:+ "}".
Definition _settings_checksum {SH : Sha256} (s : PolicySettings) : string := sha256 (settings_text s).

(** * Rows *)

(** The stored JSON of a settings revision is the dump of its settings. *)
Record SettingsRow := {
  sr_parent : Z;
  sr_scope : string;
  sr_settings : PolicySettings;
  sr_checksum : string;
  sr_reason : string;
  sr_actor : string
}.

Record RetestAuthorization := {
  au_source : Z;
  au_artifact : string;
  au_version : Z;
  au_profile_revision : string;
  au_profile_checksum : string;
  au_from : Z;
  au_generation : Z;
  au_reason : string;
  au_actor : string
}.

(** The nine columns that completion fills in. *)
Record Completion := {
  co_qualified : bool;
  co_mode : ConfirmationMode;
  co_ticket : Z;
  co_root : ConfirmationEvidenceRoot;
  co_evidence_sha256 : string;
  co_reporter : string;
  co_signature : string;
  co_at : Z
}.

Inductive GenerationReason := initial | operator_retest | settings_supersession.
#[global] Instance generation_reason_eq_dec : EqDecision GenerationReason.
Proof. solve_decision. Defined.

Record Bundle := {
  b_artifact : string;
  b_version : Z;
  b_profile_revision : string;
  b_profile_checksum : string;
  b_generation : Z;
  b_authorization : option Z;
  b_reason : GenerationReason;
  b_source : option Z;
  b_settings_revision : Z;
  b_settings_checksum : string;
  b_state : ConfirmationState;
  b_completion : option Completion;
  b_created : Z
}.
Definition set_state (s : ConfirmationState) (b : Bundle) : Bundle :=
  {| b_artifact := b_artifact b; b_version := b_version b; b_profile_revision := b_profile_revision b;
     b_profile_checksum := b_profile_checksum b; b_generation := b_generation b;
     b_authorization := b_authorization b; b_reason := b_reason b; b_source := b_source b;
     b_settings_revision := b_settings_revision b; b_settings_checksum := b_settings_checksum b;
     b_state := s; b_completion := b_completion b; b_created := b_created b |}.
Definition set_completed (c : Completion) (b : Bundle) : Bundle :=
  {| b_artifact := b_artifact b; b_version := b_version b; b_profile_revision := b_profile_revision b;
     b_profile_checksum := b_profile_checksum b; b_generation := b_generation b;
     b_authorization := b_authorization b; b_reason := b_reason b; b_source := b_source b;
     b_settings_revision := b_settings_revision b; b_settings_checksum := b_settings_checksum b;
     b_state := COMPLETED; b_completion := Some c; b_created := b_created b |}.

(** A subject's status and its five full-score columns are a
    [SubjectProjection]. *)
Record Subject := {
  s_artifact : string;
  s_bundle : option Z;
  s_base_sha256 : string;
  s_quality : Z;
  s_stderr : Z;
  s_model : Z;
  s_tool : Z;
  s_result : SubjectProjection
}.

Inductive TicketStatus := issued | scored | expired.
#[global] Instance ticket_status_eq_dec : EqDecision TicketStatus.
Proof. solve_decision. Defined.

Record Ticket := {
  t_bundle : Z;
  t_hotkey : string;
  t_slot : string;
  t_status : TicketStatus;
  t_attempt : Z;
  t_issued_at : Z;
  t_deadline : Z;
  t_failure_reason : option string;
  t_failure_class : option string;
  t_failure_stage : option string;
  t_failure_status : option Z;
  t_failed_at : option Z
}.
Definition set_scored (t : Ticket) : Ticket :=
  {| t_bundle := t_bundle t; t_hotkey := t_hotkey t; t_slot := t_slot t; t_status := scored;
     t_attempt := t_attempt t; t_issued_at := t_issued_at t; t_deadline := t_deadline t;
     t_failure_reason := t_failure_reason t; t_failure_class := t_failure_class t;
     t_failure_stage := t_failure_stage t; t_failure_status := t_failure_status t;
     t_failed_at := t_failed_at t |}.
Definition set_expired (at_instant : Z) (t : Ticket) : Ticket :=
  {| t_bundle := t_bundle t; t_hotkey := t_hotkey t; t_slot := t_slot t; t_status := expired;
     t_attempt := t_attempt t; t_issued_at := t_issued_at t; t_deadline := t_deadline t;
     t_failure_reason := Some "confirmation_failed"; t_failure_class := t_failure_class t;
     t_failure_stage := t_failure_stage t; t_failure_status := t_failure_status t;
     t_failed_at := Some at_instant |}.
Definition set_failure (reason : string) (failure_class failure_stage : option string)
    (failure_status : option Z) (t : Ticket) : Ticket :=
  {| t_bundle := t_bundle t; t_hotkey := t_hotkey t; t_slot := t_slot t; t_status := t_status t;
     t_attempt := t_attempt t; t_issued_at := t_issued_at t; t_deadline := t_deadline t;
     t_failure_reason := Some reason; t_failure_class := failure_class;
     t_failure_stage := failure_stage; t_failure_status := failure_status;
     t_failed_at := t_failed_at t |}.

Record DimensionRow := {
  dr_status : DimensionStatus;
  dr_evidence_sha256 : string;
  dr_request_count : Z;
  dr_input_tokens : Z;
  dr_output_tokens : Z;
  dr_provider_cost_microusd : Z;
  dr_latency_ms : Z;
  dr_synthetic : bool;
  dr_evidence : Json
}.

Record BudgetDay := {
  d_revision : Z;
  d_issued : Z;
  d_outstanding : Z;
  d_settled : Z
}.

(** What settlement records. *)
Record Settlement := {
  se_actual : Z;
  se_failed : bool;
  se_at : Z
}.
Record Reservation := {
  r_bundle : Z;
  r_attempt : Z;
  r_day : Z;
  r_settings_revision : Z;
  r_reserved : Z;
  r_settlement : option Settlement
}.
Definition r_state (r : Reservation) : ReservationState :=
  if is_None (r_settlement r) then RESERVED else SETTLED.
Definition set_settlement (s : Settlement) (r : Reservation) : Reservation :=
  {| r_bundle := r_bundle r; r_attempt := r_attempt r; r_day := r_day r;
     r_settings_revision := r_settings_revision r; r_reserved := r_reserved r; r_settlement := Some s |}.

(** * The store *)

Record Db := {
  agents : gmap Z string;
  settings_rows : gmap Z SettingsRow;
  authorizations : gmap Z RetestAuthorization;
  bundles : gmap Z Bundle;
  subjects : gmap (Z * Z) Subject;
  tickets : gmap Z Ticket;
  dimension_rows : gmap (Z * string) DimensionRow;
  days : gmap Z BudgetDay;
  reservations : gmap Z Reservation
}.
Definition with_settings_rows (m : gmap Z SettingsRow) (db : Db) : Db :=
  {| agents := agents db; settings_rows := m; authorizations := authorizations db; bundles := bundles db;
     subjects := subjects db; tickets := tickets db; dimension_rows := dimension_rows db; days := days db;
     reservations := reservations db |}.
Definition with_authorizations (m : gmap Z RetestAuthorization) (db : Db) : Db :=
  {| agents := agents db; settings_rows := settings_rows db; authorizations := m; bundles := bundles db;
     subjects := subjects db; tickets := tickets db; dimension_rows := dimension_rows db; days := days db;
     reservations := reservations db |}.
Definition with_bundles (m : gmap Z Bundle) (db : Db) : Db :=
  {| agents := agents db; settings_rows := settings_rows db; authorizations := authorizations db; bundles := m;
     subjects := subjects db; tickets := tickets db; dimension_rows := dimension_rows db; days := days db;
     reservations := reservations db |}.
Definition with_subjects (m : gmap (Z * Z) Subject) (db : Db) : Db :=
  {| agents := agents db; settings_rows := settings_rows db; authorizations := authorizations db;
     bundles := bundles db; subjects := m; tickets := tickets db; dimension_rows := dimension_rows db;
     days := days db; reservations := reservations db |}.
Definition with_tickets (m : gmap Z Ticket) (db : Db) : Db :=
  {| agents := agents db; settings_rows := settings_rows db; authorizations := authorizations db;
     bundles := bundles db; subjects := subjects db; tickets := m; dimension_rows := dimension_rows db;
     days := days db; reservations := reservations db |}.
Definition with_dimension_rows (m : gmap (Z * string) DimensionRow) (db : Db) : Db :=
  {| agents := agents db; settings_rows := settings_rows db; authorizations := authorizations db;
     bundles := bundles db; subjects := subjects db; tickets := tickets db; dimension_rows := m;
     days := days db; reservations := reservations db |}.
Definition with_days (m : gmap Z BudgetDay) (db : Db) : Db :=
  {| agents := agents db; settings_rows := settings_rows db; authorizations := authorizations db;
     bundles := bundles db; subjects := subjects db; tickets := tickets db;
     dimension_rows := dimension_rows db; days := m; reservations := reservations db |}.
Definition with_reservations (m : gmap Z Reservation) (db : Db) : Db :=
  {| agents := agents db; settings_rows := settings_rows db; authorizations := authorizations db;
     bundles := bundles db; subjects := subjects db; tickets := tickets db;
     dimension_rows := dimension_rows db; days := days db; reservations := m |}.

Definition empty_db (accounts : gmap Z string) : Db :=
  {| agents := accounts; settings_rows := ∅; authorizations := ∅; bundles := ∅; subjects := ∅;
     tickets := ∅; dimension_rows := ∅; days := ∅; reservations := ∅ |}.

(** [EXISTS (SELECT 1 FROM m WHERE p)] *)
Definition exists_row {K A} `{Countable K} (p : K → A → bool) (m : gmap K A) : bool :=
  existsb (λ kv, p kv.1 kv.2) (map_to_list m).
(** [SELECT ... LIMIT 1] *)
Definition find_row {K A} `{Countable K} (p : K → A → bool) (m : gmap K A) : option (K * A) :=
  head (filter (λ kv, p kv.1 kv.2 = true) (map_to_list m)).

(** A row violates the named constraint unless [ok]. *)
Definition constraint (ok : bool) (name : string) : result unit := require ok (IntegrityError name).
Definition constraints (checks : list (bool * string)) : result unit :=
  foldr (λ c rest, constraint c.1 c.2;; rest) (Ok tt) checks.

Definition long (n : Z) (s : string) : bool := Z.of_nat (String.length s) =? n.
(** [length(trim(s))]: SQL trims spaces. *)
Fixpoint trim_left (s : string) : string :=
  match s with String " " s' => trim_left s' | _ => s end.
Definition trimmed_length (s : string) : Z :=
  Z.of_nat (String.length (trim_left (String.rev (trim_left s)))).

(** ** confirmation_bundle_settings_revisions *)

Definition insert_settings_row (revision : Z) (row : SettingsRow) (db : Db) : result Db :=
  constraints [(String.eqb (sr_scope row) "*", "confirmation_settings_scope_check");
    (long 64 (sr_checksum row), "confirmation_settings_checksum_check");
    (0 <=? sr_parent row, "confirmation_settings_parent_check");
    (8 <=? trimmed_length (sr_reason row), "confirmation_settings_reason_check");
    (in_range (trimmed_length (sr_actor row)) 1 120, "confirmation_settings_actor_check");
    (is_None (settings_rows db !! revision), "confirmation_bundle_settings_revisions_pkey");
    (negb (exists_row (λ _ other, String.eqb (sr_scope other) (sr_scope row) &&
                                  (sr_parent other =? sr_parent row)) (settings_rows db)),
       "confirmation_settings_parent_key")];;
  Ok (with_settings_rows (<[revision := row]> (settings_rows db)) db).

(** ** confirmation_retest_authorizations *)

Definition insert_authorization (id : Z) (a : RetestAuthorization) (db : Db) : result Db :=
  constraints [(long 64 (au_artifact a), "confirmation_retest_sha_check");
    (9 <=? au_version a, "confirmation_retest_version_check");
    (text_between 1 128 (au_profile_revision a), "confirmation_retest_profile_revision_check");
    (long 64 (au_profile_checksum a), "confirmation_retest_profile_checksum_check");
    ((0 <=? au_from a) && (au_generation a =? au_from a + 1), "confirmation_retest_generation_check");
    (8 <=? trimmed_length (au_reason a), "confirmation_retest_reason_check");
    (in_range (trimmed_length (au_actor a)) 1 120, "confirmation_retest_actor_check");
    (is_None (authorizations db !! id), "confirmation_retest_authorizations_pkey");
    (negb (exists_row (λ _ o, String.eqb (au_artifact o) (au_artifact a) && (au_version o =? au_version a) &&
             String.eqb (au_profile_revision o) (au_profile_revision a) &&
             String.eqb (au_profile_checksum o) (au_profile_checksum a) &&
             (au_generation o =? au_generation a)) (authorizations db)),
       "confirmation_retest_generation_key")];;
  Ok (with_authorizations (<[id := a]> (authorizations db)) db).

(** ** confirmation_bundles *)

(** The columns of [confirmation_bundles_identity_key] but the generation. *)
Definition same_lineage (a b : Bundle) : bool :=
  String.eqb (b_artifact a) (b_artifact b) && (b_version a =? b_version b) &&
  String.eqb (b_profile_revision a) (b_profile_revision b) &&
  String.eqb (b_profile_checksum a) (b_profile_checksum b).

Definition generation_auth_check (b : Bundle) : bool :=
  match b_reason b with
  | initial => (b_generation b =? 0) && is_None (b_authorization b) && is_None (b_source b)
  | operator_retest => (0 <? b_generation b) && negb (is_None (b_authorization b)) && negb (is_None (b_source b))
  | settings_supersession => (0 <? b_generation b) && is_None (b_authorization b) && negb (is_None (b_source b))
  end.

Definition completion_check (b : Bundle) : bool :=
  match b_state b, b_completion b with
  | COMPLETED, None => false
  | (COMPLETED | SUPERSEDED), Some c =>
      negb (bool_decide (co_mode c = OFF)) && long 64 (co_evidence_sha256 c) &&
      (0 <? trimmed_length (co_reporter c)) && text_between 2 512 (co_signature c)
  | _, Some _ => false
  | _, None => true
  end.

Definition bundle_checks (b : Bundle) : list (bool * string) :=
  [(long 64 (b_artifact b), "confirmation_bundles_sha_check");
   (9 <=? b_version b, "confirmation_bundles_version_check");
   (text_between 1 128 (b_profile_revision b), "confirmation_bundles_profile_revision_check");
   (long 64 (b_profile_checksum b), "confirmation_bundles_profile_checksum_check");
   (long 64 (b_settings_checksum b), "confirmation_bundles_settings_checksum_check");
   (generation_auth_check b, "confirmation_bundles_generation_auth_check");
   (negb (bool_decide (b_state b = BASE_ONLY)), "confirmation_bundles_state_check");
   (completion_check b, "confirmation_bundles_completion_check")].

(** Two rows agree on a nullable UNIQUE column. *)
Definition same_key (a b : option Z) : bool :=
  match a, b with Some x, Some y => x =? y | _, _ => false end.

Definition insert_bundle (id : Z) (b : Bundle) (db : Db) : result Db :=
  constraints (bundle_checks b);;
  constraints [(is_None (bundles db !! id), "confirmation_bundles_pkey");
    (negb (exists_row (λ _ o, same_lineage o b && (b_generation o =? b_generation b)) (bundles db)),
       "confirmation_bundles_identity_key");
    (negb (exists_row (λ _ o, same_key (b_authorization o) (b_authorization b)) (bundles db)),
       "confirmation_bundles_retest_auth_key");
    (negb (exists_row (λ _ o, same_key (b_source o) (b_source b)) (bundles db)),
       "confirmation_bundles_source_key")];;
  Ok (with_bundles (<[id := b]> (bundles db)) db).

(** [guard_confirmation_bundle_immutability]: the transitions it allows.  No
    operation changes a row's identity columns or its completion columns once
    set, so the two row comparisons of the trigger always pass. *)
Definition transition_allowed (old new : ConfirmationState) : bool :=
  bool_decide (old = new) ||
  match old with
  | PENDING => bool_decide (new ∈ [BLOCKED_BUDGET; LEASED; SUPERSEDED])
  | BLOCKED_BUDGET => bool_decide (new ∈ [PENDING; LEASED; SUPERSEDED])
  | FAILED => bool_decide (new ∈ [BLOCKED_BUDGET; LEASED; SUPERSEDED])
  | LEASED => bool_decide (new ∈ [FAILED; COMPLETED])
  | COMPLETED => bool_decide (new = SUPERSEDED)
  | _ => false
  end.

Definition count_dimensions (bundle : Z) (db : Db) : nat :=
  length (filter (λ kv, kv.1.1 = bundle) (map_to_list (dimension_rows db))).

(** The part of the trigger that guards the step to completion. *)
Definition completion_guard (id : Z) (c : Completion) (db : Db) : result unit :=
  constraint (match tickets db !! co_ticket c with
              | Some t => (t_bundle t =? id) && bool_decide (t_status t = issued) && (co_at c <? t_deadline t)
              | None => false
              end) "confirmation_bundles_immutability_guard";;
  constraint ((count_dimensions id db =? 3)%nat &&
              match dimension_rows db !! (id, "longmemeval") with
              | Some r => bool_decide (dr_status r = dim_completed)
              | None => false
              end) "confirmation_bundles_immutability_guard";;
  constraint (negb (co_qualified c && exists_row (λ k r, (k.1 =? id) &&
                      negb (bool_decide (dr_status r = dim_completed))) (dimension_rows db)))
    "confirmation_bundles_immutability_guard".

Definition update_bundle (id : Z) (old new : Bundle) (db : Db) : result Db :=
  constraint (transition_allowed (b_state old) (b_state new)) "confirmation_bundles_immutability_guard";;
  (if bool_decide (b_state new = COMPLETED) && negb (bool_decide (b_state old = COMPLETED)) then
     match b_completion new with Some c => completion_guard id c db | None => Ok tt end
   else Ok tt);;
  constraints (bundle_checks new);;
  Ok (with_bundles (<[id := new]> (bundles db)) db).

(** ** confirmation_bundle_subjects *)

Definition base_proof (s : Subject) : string * string * Z * Z * Z * Z :=
  (s_artifact s, s_base_sha256 s, s_quality s, s_stderr s, s_model s, s_tool s).

Definition binary (z : Z) : bool := (z =? 0) || (z =? 10000).
Definition full_projection_check (p : SubjectProjection) : bool :=
  match full_quality_micros p, full_stderr_micros p, proj_semantic_factor_bps p,
        proj_applied_factor_bps p, full_effective_micros p with
  | None, None, None, None, None => true
  | Some q, Some e, Some s, Some a, Some x =>
      in_range q 0 1000000 && in_range e 0 1000000 && binary s && binary a && in_range x 0 1000000
  | _, _, _, _, _ => false
  end.
Definition status_bundle_check (s : Subject) : bool :=
  match result_status (s_result s) with
  | base_only => is_None (s_bundle s) && is_None (full_quality_micros (s_result s))
  | provisional => negb (is_None (s_bundle s))
  | full_confirmed => negb (is_None (s_bundle s)) && negb (is_None (full_quality_micros (s_result s)))
  end.

(** The revision in force: the greatest. *)
Definition latest_settings (db : Db) : option (Z * SettingsRow) :=
  foldr (λ kv acc, match acc with
                   | Some best => if best.1 <? kv.1 then Some kv else acc
                   | None => Some kv end) None (map_to_list (settings_rows db)).

(** [guard_confirmation_subject_authority]: who may be [full_confirmed]. *)
Definition full_authority (version : Z) (s : Subject) (db : Db) : bool :=
  match s_bundle s ≫= λ id, bundles db !! id with
  | Some b =>
      String.eqb (b_artifact b) (s_artifact s) && (b_version b =? version) &&
      bool_decide (b_state b = COMPLETED) &&
      match b_completion b with
      | Some c =>
          co_qualified c &&
          (bool_decide (co_mode c = ENFORCE) ||
           (bool_decide (co_mode c = SHADOW) &&
            match latest_settings db with
            | Some (_, row) =>
                bool_decide (ps_mode (sr_settings row) = ENFORCE) &&
                bool_decide (ps_profile_revision (sr_settings row) = Some (b_profile_revision b)) &&
                bool_decide (ps_profile_checksum (sr_settings row) = Some (b_profile_checksum b))
            | None => false
            end))
      | None => false
      end
  | None => false
  end.

(** An insertion, or an update of the row of that key. *)
Definition put_subject (key : Z * Z) (s : Subject) (db : Db) : result Db :=
  constraints
    [(match subjects db !! key with
      | Some old => is_None (s_bundle old) || bool_decide (base_proof old = base_proof s)
      | None => true
      end, "confirmation_subject_authority_guard");
     (negb (bool_decide (result_status (s_result s) = full_confirmed)) || full_authority key.2 s db,
        "confirmation_subject_authority_guard");
     (9 <=? key.2, "confirmation_subjects_version_check");
     (long 64 (s_artifact s), "confirmation_subjects_sha_check");
     (long 64 (s_base_sha256 s), "confirmation_subjects_base_evidence_sha_check");
     (in_range (s_quality s) 0 1000000 && in_range (s_stderr s) 0 1000000, "confirmation_subjects_base_score_check");
     (binary (s_model s) && binary (s_tool s), "confirmation_subjects_base_factor_check");
     (full_projection_check (s_result s), "confirmation_subjects_full_projection_check");
     (status_bundle_check s, "confirmation_subjects_status_bundle_check")];;
  Ok (with_subjects (<[key := s]> (subjects db)) db).

(** ** confirmation_bundle_tickets *)

Definition FAILURE_CLASSES : list string :=
  ["sandbox_oom"; "lease_revoked"; "validator_infrastructure"; "platform_infrastructure"; "dittobench";
   "platform"; "validator"; "evidence_schema"; "timeout"; "transport"; "unclassified";
   "longmem_run_http_status"; "longmem_run_malformed_json"; "longmem_run_missing_final_text";
   "longmem_run_request"; "longmem_run_response_read"; "longmem_run_response_too_large";
   "longmem_run_tool_endpoint"; "longmem_seed_http_status"; "longmem_seed_incomplete_ack";
   "longmem_seed_malformed_json"; "longmem_seed_request"; "longmem_seed_response_read";
   "longmem_seed_response_too_large"; "longmem_exec_ablation_dataset"; "longmem_exec_broker_session";
   "longmem_exec_dimension_execution"; "longmem_exec_embedding_phase"; "longmem_exec_execution";
   "longmem_exec_harness_health"; "longmem_exec_installation_validation"; "longmem_exec_longmem_dataset";
   "longmem_exec_provider_capabilities"; "longmem_exec_provider_session"; "longmem_exec_runtime_acquire";
   "longmem_exec_runtime_close"; "longmem_exec_runtime_material"; "longmem_exec_runtime_validation";
   "longmem_exec_sandbox_availability"; "longmem_exec_sandbox_start"; "longmem_exec_sandbox_stop";
   "longmem_exec_screened_image"; "longmem_exec_source_validation"; "longmem_dim_ablation_construct";
   "longmem_dim_ablation_coordinate"; "longmem_dim_ablation_evaluate"; "longmem_dim_ablation_marshal";
   "longmem_dim_ablation_responder"; "longmem_dim_ablation_upstream"; "longmem_dim_budget_unfundable";
   "longmem_dim_deadline_missing"; "longmem_dim_longmem_digest"; "longmem_dim_longmem_execute";
   "longmem_dim_longmem_marshal"; "longmem_dim_longmem_validate"; "longmem_dim_mode_inactive";
   "longmem_dim_wire_digest"; "longmem_eval_accounting_final"; "longmem_eval_accounting_final_cost_source";
   "longmem_eval_accounting_final_fallback_used"; "longmem_eval_accounting_final_identity_drift";
   "longmem_eval_accounting_final_mixed_zero_lanes"; "longmem_eval_accounting_final_provider_evidence";
   "longmem_eval_accounting_final_request_free_accounting"; "longmem_eval_accounting_initial";
   "longmem_eval_accounting_initial_cost_source"; "longmem_eval_accounting_initial_fallback_used";
   "longmem_eval_accounting_initial_identity_drift"; "longmem_eval_accounting_initial_lane_coverage";
   "longmem_eval_accounting_initial_meter_unavailable"; "longmem_eval_accounting_initial_nonzero_start";
   "longmem_eval_accounting_initial_provider_evidence";
   "longmem_eval_accounting_initial_request_free_accounting"; "longmem_eval_accounting_judge";
   "longmem_eval_accounting_judge_cost_source"; "longmem_eval_accounting_judge_fallback_used";
   "longmem_eval_accounting_judge_identity_drift"; "longmem_eval_accounting_judge_lane_coverage";
   "longmem_eval_accounting_judge_meter_unavailable"; "longmem_eval_accounting_judge_provider_evidence";
   "longmem_eval_accounting_judge_receipt_changed"; "longmem_eval_accounting_judge_receipt_uncommitted";
   "longmem_eval_accounting_judge_regressed"; "longmem_eval_accounting_judge_request_free_accounting";
   "longmem_eval_accounting_run"; "longmem_eval_accounting_run_cost_source";
   "longmem_eval_accounting_run_fallback_used"; "longmem_eval_accounting_run_identity_drift";
   "longmem_eval_accounting_run_lane_coverage"; "longmem_eval_accounting_run_meter_unavailable";
   "longmem_eval_accounting_run_provider_evidence"; "longmem_eval_accounting_run_receipt_changed";
   "longmem_eval_accounting_run_receipt_uncommitted"; "longmem_eval_accounting_run_regressed";
   "longmem_eval_accounting_run_request_free_accounting"; "longmem_eval_accounting_seed";
   "longmem_eval_accounting_seed_cost_source"; "longmem_eval_accounting_seed_fallback_used";
   "longmem_eval_accounting_seed_identity_drift"; "longmem_eval_accounting_seed_lane_coverage";
   "longmem_eval_accounting_seed_meter_unavailable"; "longmem_eval_accounting_seed_provider_evidence";
   "longmem_eval_accounting_seed_receipt_changed"; "longmem_eval_accounting_seed_receipt_uncommitted";
   "longmem_eval_accounting_seed_regressed"; "longmem_eval_accounting_seed_request_free_accounting";
   "longmem_eval_aggregate"; "longmem_eval_dataset"; "longmem_eval_evidence"; "longmem_eval_judge_budget";
   "longmem_eval_judge_opaque"; "longmem_eval_projection"; "longmem_eval_reader_budget";
   "longmem_eval_run_opaque"; "longmem_eval_run_unreceipted"; "longmem_eval_seed_incomplete";
   "longmem_eval_seed_opaque"; "longmem_eval_setup"; "longmem_eval_time_budget"].
Definition FAILURE_STAGES : list string :=
  ["preparing"; "running_confirmation"; "finalizing"; "submitting_result"; "failed_retrying"; "unknown"].

Definition ticket_checks (t : Ticket) : list (bool * string) :=
  [(0 <? t_attempt t, "confirmation_tickets_attempt_check");
   (t_issued_at t <? t_deadline t, "confirmation_tickets_deadline_check");
   (bool_decide (t_status t = expired) || (is_None (t_failure_reason t) && is_None (t_failed_at t)),
      "confirmation_tickets_failure_state_check");
   (Bool.eqb (is_None (t_failure_reason t)) (is_None (t_failed_at t)), "confirmation_tickets_failure_pair_check");
   (Bool.eqb (is_None (t_failure_class t)) (is_None (t_failure_stage t)),
      "confirmation_tickets_failure_diagnostic_pair_check");
   (is_None (t_failure_class t) || negb (is_None (t_failure_reason t)),
      "confirmation_tickets_failure_diagnostic_requires_reason_check");
   (optional (λ c, bool_decide (c ∈ FAILURE_CLASSES)) (t_failure_class t), "confirmation_tickets_failure_class_check");
   (is_None (t_failure_status t) || (negb (is_None (t_failure_class t)) &&
      optional (λ z, in_range z 0 599) (t_failure_status t)), "confirmation_tickets_failure_status_check");
   (optional (λ c, bool_decide (c ∈ FAILURE_STAGES)) (t_failure_stage t), "confirmation_tickets_failure_stage_check")].

Definition insert_ticket (id : Z) (t : Ticket) (db : Db) : result Db :=
  constraints (ticket_checks t);;
  constraints [(is_None (tickets db !! id), "confirmation_bundle_tickets_pkey");
    (negb (exists_row (λ _ o, (t_bundle o =? t_bundle t) && (t_attempt o =? t_attempt t)) (tickets db)),
       "confirmation_tickets_attempt_key");
    (negb (exists_row (λ _ o, (t_bundle o =? t_bundle t) && bool_decide (t_status o = issued)) (tickets db)),
       "confirmation_tickets_one_live_bundle_idx")];;
  Ok (with_tickets (<[id := t]> (tickets db)) db).
(** No operation reopens a ticket, so an update cannot make a second live one. *)
Definition update_ticket (id : Z) (t : Ticket) (db : Db) : result Db :=
  constraints (ticket_checks t);;
  Ok (with_tickets (<[id := t]> (tickets db)) db).

(** ** confirmation_dimension_evidence *)

Definition DIMENSIONS : list string := ["longmemeval"; "inference_ablation"; "embedding_ablation"].
Definition insert_dimension (bundle : Z) (dimension : string) (r : DimensionRow) (db : Db) : result Db :=
  constraints [(bool_decide (dimension ∈ DIMENSIONS), "confirmation_evidence_dimension_check");
    (forallb (λ z, 0 <=? z) [dr_request_count r; dr_input_tokens r; dr_output_tokens r;
       dr_provider_cost_microusd r; dr_latency_ms r], "confirmation_evidence_nonnegative_check");
    (if String.eqb dimension "longmemeval" then bool_decide (dr_status r = dim_completed) && negb (dr_synthetic r)
     else dr_synthetic r && forallb (λ z, z =? 0) [dr_request_count r; dr_input_tokens r; dr_output_tokens r;
            dr_provider_cost_microusd r], "confirmation_evidence_synthetic_cost_check");
    (long 64 (dr_evidence_sha256 r), "confirmation_evidence_sha_check");
    (is_None (dimension_rows db !! (bundle, dimension)), "confirmation_dimension_evidence_pkey")];;
  Ok (with_dimension_rows (<[(bundle, dimension) := r]> (dimension_rows db)) db).

(** ** confirmation_budget_days and confirmation_budget_reservations *)

Definition put_day (day : Z) (d : BudgetDay) (db : Db) : result Db :=
  constraints [(forallb (λ z, 0 <=? z) [d_revision d; d_issued d; d_outstanding d; d_settled d],
    "confirmation_budget_nonnegative_check")];;
  Ok (with_days (<[day := d]> (days db)) db).

Definition reservation_checks (r : Reservation) : list (bool * string) :=
  [((0 <? r_attempt r) && (0 <? r_reserved r), "confirmation_reservations_positive_check");
   (match r_settlement r with Some s => 0 <=? se_actual s | None => true end,
      "confirmation_reservations_settlement_check")].
Definition insert_reservation (id : Z) (r : Reservation) (db : Db) : result Db :=
  constraints (reservation_checks r);;
  constraints [(is_None (reservations db !! id), "confirmation_budget_reservations_pkey");
    (negb (exists_row (λ _ o, (r_bundle o =? r_bundle r) && (r_attempt o =? r_attempt r)) (reservations db)),
       "confirmation_reservations_attempt_key");
    (negb (exists_row (λ _ o, (r_bundle o =? r_bundle r) && bool_decide (r_state o = RESERVED)) (reservations db)),
       "confirmation_reservations_one_open_bundle_idx")];;
  Ok (with_reservations (<[id := r]> (reservations db)) db).
Definition update_reservation (id : Z) (r : Reservation) (db : Db) : result Db :=
  constraints (reservation_checks r);;
  Ok (with_reservations (<[id := r]> (reservations db)) db).
