(* ===== verification/ConfirmationLane.v ===== *)
(** The persistence operations of the confirmation lane:
    [apps/platform/ditto/db/queries/confirmation_bundles.py], the attempt lock,
    the recovery of overdue leases, and the parts of the validator endpoints
    [endpoints/validator_confirmation.py] that change the store.

    An operation is a function from the store to a failure or the next store
    with its result.  The row locks make the transactions of one bundle, budget
    day or subject serial, so a transaction is one step.  Identifiers the
    database draws and the current time are arguments; the signature check of
    the wallet library is the parameter [Keypair]. *)
From Stdlib Require Import ZArith Lia Ascii.
From stdpp Require Import base gmap list strings pretty.
From S2P Require Import Prelude Binary64 PyText FloatText ConfirmationPolicy ConfirmationReport ConfirmationEvidence ConfirmationEvidenceFacts ConfirmationStore.

#[local] Open Scope string_scope.
#[local] Open Scope Z_scope.

(** [raise ConfirmationBundlePersistenceError(msg)] unless [ok]. *)
Definition persist (ok : bool) (msg : string) : result unit := require ok (PersistenceError msg).
(** [except ConfirmationEvidenceError as error: raise ... from error] *)
Definition as_persistence {A} (r : result A) : result A :=
  match r with Err (ConfirmationEvidenceError msg) => Err (PersistenceError msg) | _ => r end.
(** [except ValueError]: every error of a replay is one. *)
Definition replay_error {A} (msg : string) (r : result A) : result A :=
  match r with Ok a => Ok a | Err _ => Err (PersistenceError msg) end.
Definition some_or {A} (x : option A) (msg : string) : result A :=
  match x with Some a => Ok a | None => Err (PersistenceError msg) end.

(** [Keypair(ss58_address=signer).verify(payload, signature)], false when the
    wallet library refuses the address. *)
Class Keypair := keypair_verify : string → string → list Z → bool.

Definition CONFIRMATION_TICKET_TTL : Z := seconds 14400.

(** * Base proofs *)

Record ConfirmationBaseProof := {
  bp_evidence_sha256 : string;
  bp_quality_micros : Z;
  bp_stderr_micros : Z;
  bp_model_factor_bps : Z;
  bp_tool_factor_bps : Z
}.

Definition _validate_base_proof (p : ConfirmationBaseProof) : result unit :=
  persist ((String.length (bp_evidence_sha256 p) =? 64)%nat && str_forall is_lower (bp_evidence_sha256 p))
    "base evidence digest must be lowercase SHA-256";;
  persist (negb (is_None (fromhex (bp_evidence_sha256 p)))) "base evidence digest must be lowercase SHA-256";;
  persist (in_range (bp_quality_micros p) 0 1000000) "base quality is out of range";;
  persist (in_range (bp_stderr_micros p) 0 1000000) "base stderr is out of range";;
  persist (binary (bp_model_factor_bps p)) "base model gate must be binary";;
  persist (binary (bp_tool_factor_bps p)) "base tool gate must be binary".

Definition proof_tuple (artifact : string) (p : ConfirmationBaseProof) : string * string * Z * Z * Z * Z :=
  (artifact, bp_evidence_sha256 p, bp_quality_micros p, bp_stderr_micros p, bp_model_factor_bps p, bp_tool_factor_bps p).

(** [_clear_subject_projection] beside the assignment of a status. *)
Definition no_projection (status : ResultStatus) : SubjectProjection :=
  {| result_status := status; full_quality_micros := None; full_stderr_micros := None;
     proj_semantic_factor_bps := None; proj_applied_factor_bps := None; full_effective_micros := None |}.

Definition new_subject (artifact : string) (bundle : option Z) (status : ResultStatus)
    (p : ConfirmationBaseProof) : Subject :=
  {| s_artifact := artifact; s_bundle := bundle; s_base_sha256 := bp_evidence_sha256 p;
     s_quality := bp_quality_micros p; s_stderr := bp_stderr_micros p; s_model := bp_model_factor_bps p;
     s_tool := bp_tool_factor_bps p; s_result := no_projection status |}.
Definition set_result (r : SubjectProjection) (s : Subject) : Subject :=
  {| s_artifact := s_artifact s; s_bundle := s_bundle s; s_base_sha256 := s_base_sha256 s;
     s_quality := s_quality s; s_stderr := s_stderr s; s_model := s_model s; s_tool := s_tool s; s_result := r |}.
Definition move_subject (bundle : Z) (s : Subject) : Subject :=
  {| s_artifact := s_artifact s; s_bundle := Some bundle; s_base_sha256 := s_base_sha256 s;
     s_quality := s_quality s; s_stderr := s_stderr s; s_model := s_model s; s_tool := s_tool s;
     s_result := no_projection provisional |}.

Definition record_base_only_subject (agent version : Z) (p : ConfirmationBaseProof) (db : Db)
    : result (Db * Subject) :=
  persist (supports_confirmation version) (confirmation_bench_version_error "subjects");;
  _validate_base_proof p;;
  some_or (agents db !! agent) "agent does not exist" ≫= λ sha,
  let row := new_subject sha None base_only p in
  let save := put_subject (agent, version) row db ≫= λ db, Ok (db, row) in
  match subjects db !! (agent, version) with
  | None => save
  | Some s =>
      if is_None (s_bundle s) then save
      else persist (bool_decide (base_proof s = proof_tuple sha p))
             "attached confirmation base proof cannot be replaced";;
           Ok (db, s)
  end.

Section lane.
Context {SH : Sha256} {KP : Keypair}.

(** * Replaying and projecting *)

Definition identity_of (b : Bundle) (m : ConfirmationMode) : EvidenceIdentity :=
  {| id_artifact_sha256 := b_artifact b; id_profile_revision := b_profile_revision b;
     id_profile_checksum := b_profile_checksum b; id_settings_revision := b_settings_revision b;
     id_settings_checksum := b_settings_checksum b; id_retest_generation := b_generation b; id_mode := m |}.

Definition _apply_projection (s : Subject) (v : VerifiedConfirmationEvidence) (m : ConfirmationMode)
    (profile : ConfirmationVerificationProfile) : result Subject :=
  as_persistence (compute_subject_projection m (s_quality s) (s_stderr s) (s_model s) (s_tool s) v
    (composite profile)) ≫= λ projection,
  Ok (set_result projection s).

(** The models a stored root is validated against, inside out. *)
Definition validate_stored_root (r : ConfirmationEvidenceRoot) : result unit :=
  check_composite_policy (composite_policy r);;
  check_longmem_envelope (longmemeval r);;
  check_ablation_envelope (inference_ablation r);;
  check_ablation_envelope (embedding_ablation r);;
  check_totals (totals r);;
  check_root r.

(** The dumps of two roots are compared as text. *)
Definition same_root (a b : ConfirmationEvidenceRoot) : bool :=
  String.eqb (canonical_json (root_dump a)) (canonical_json (root_dump b)).

Definition _replay_stored_bundle (b : Bundle) (profile : ConfirmationVerificationProfile)
    : result (VerifiedConfirmationEvidence * ConfirmationMode) :=
  some_or (b_completion b) "completed confirmation bundle lacks verified evidence" ≫= λ c,
  replay_error "stored confirmation evidence failed replay"
    (validate_stored_root (co_root c);;
     let report := replay_report (co_root c) (co_signature c) in
     check_report report;;
     rebuild_confirmation_evidence report (identity_of b (co_mode c)) profile) ≫= λ v,
  persist (String.eqb (evidence_sha256 v) (co_evidence_sha256 c) && same_root (root v) (co_root c))
    "stored confirmation evidence digest is invalid";;
  Ok (v, co_mode c).

(** * Settings *)

Definition insert_confirmation_bundle_settings_revision (revision parent : Z) (scope : string)
    (s : PolicySettings) (sum reason actor : string) (db : Db) : result Db :=
  insert_settings_row revision {| sr_parent := parent; sr_scope := scope; sr_settings := s;
    sr_checksum := sum; sr_reason := reason; sr_actor := actor |} db.

(** The insertion the admin endpoint makes: from the revision it expects, with
    the settings' own checksum. *)
Definition create_confirmation_bundle_settings_revision (revision expected : Z) (s : PolicySettings)
    (reason actor : string) (db : Db) : result Db :=
  let actual := match latest_settings db with Some (r, _) => r | None => 0 end in
  require (expected =? actual) (ValueError "confirmation bundle settings changed; refresh before applying");;
  insert_confirmation_bundle_settings_revision revision actual "*" s (_settings_checksum s)
    (strip reason) (strip actor) db.

(** * Resolving a bundle *)

(** The row of the lineage with the greatest generation. *)
Definition latest_generation (artifact : string) (version : Z) (revision sum : string) (db : Db)
    : option (Z * Bundle) :=
  foldr (λ kv acc, match acc with
                   | Some best => if b_generation best.2 <? b_generation kv.2 then Some kv else acc
                   | None => Some kv end) None
    (filter (λ kv, String.eqb (b_artifact kv.2) artifact && (b_version kv.2 =? version) &&
                   String.eqb (b_profile_revision kv.2) revision && String.eqb (b_profile_checksum kv.2) sum = true)
       (map_to_list (bundles db))).

Definition has_dimension (bundle : Z) (db : Db) : bool := exists_row (λ k _, k.1 =? bundle) (dimension_rows db).
Definition has_ticket (bundle : Z) (db : Db) : bool := exists_row (λ _ t, t_bundle t =? bundle) (tickets db).
Definition has_reservation (bundle : Z) (db : Db) : bool :=
  exists_row (λ _ r, r_bundle r =? bundle) (reservations db).

Definition _supersede_unspent_bundle_for_settings (id : Z) (source : Bundle) (settings_revision : Z)
    (settings_checksum : string) (new_id now : Z) (db : Db) : result (Db * (Z * Bundle)) :=
  if negb (bool_decide (b_state source ∈ [PENDING; BLOCKED_BUDGET])) then Ok (db, (id, source))
  else if has_dimension id db then Ok (db, (id, source))
  else if has_ticket id db || has_reservation id db then Ok (db, (id, source))
  else
    update_bundle id source (set_state SUPERSEDED source) db ≫= λ db,
    let replacement := {| b_artifact := b_artifact source; b_version := b_version source;
      b_profile_revision := b_profile_revision source; b_profile_checksum := b_profile_checksum source;
      b_generation := b_generation source + 1; b_authorization := None; b_reason := settings_supersession;
      b_source := Some id; b_settings_revision := settings_revision;
      b_settings_checksum := settings_checksum; b_state := PENDING; b_completion := None; b_created := now |} in
    insert_bundle new_id replacement db ≫= λ db,
    Ok (db, (new_id, replacement)).

(** The bundle of the submission's lineage: the latest generation, a new first
    one, or a successor when the settings have moved on. *)
Definition resolve_bundle (artifact : string) (version : Z) (revision sum : string) (settings_revision : Z)
    (settings_checksum : string) (new_id now : Z) (db : Db) : result (Db * (Z * Bundle)) :=
  match latest_generation artifact version revision sum db with
  | None =>
      let b := {| b_artifact := artifact; b_version := version; b_profile_revision := revision;
        b_profile_checksum := sum; b_generation := 0; b_authorization := None; b_reason := initial;
        b_source := None; b_settings_revision := settings_revision;
        b_settings_checksum := settings_checksum; b_state := PENDING; b_completion := None; b_created := now |} in
      insert_bundle new_id b db ≫= λ db, Ok (db, (new_id, b))
  | Some (id, b) =>
      if negb (b_settings_revision b =? settings_revision) ||
         negb (String.eqb (b_settings_checksum b) settings_checksum)
      then _supersede_unspent_bundle_for_settings id b settings_revision settings_checksum new_id now db
      else Ok (db, (id, b))
  end.

Record BundleResolution := {
  res_bundle : option (Z * Bundle);
  res_subject : Subject;
  reused_completed_evidence : bool
}.

(** The profile the settings name, checked against the installed one. *)
Definition configured_profile (s : PolicySettings) (profile : option ConfirmationVerificationProfile)
    : result (string * string * ConfirmationVerificationProfile) :=
  match ps_profile_revision s, ps_profile_checksum s with
  | Some rev, Some sum =>
      some_or profile "confirmation verification profile is unconfigured" ≫= λ p,
      as_persistence (checksum p) ≫= λ actual,
      persist (String.eqb (revision p) rev && String.eqb actual sum)
        "confirmation verification profile does not match settings";;
      Ok (rev, sum, p)
  | _, _ => Err (PersistenceError "confirmation profile is unconfigured")
  end.

Definition get_or_create_confirmation_bundle (agent version : Z) (proof : ConfirmationBaseProof)
    (settings_revision : Z) (s : PolicySettings) (profile : option ConfirmationVerificationProfile)
    (new_id now : Z) (db : Db) : result (Db * BundleResolution) :=
  if bool_decide (ps_mode s = OFF) then
    record_base_only_subject agent version proof db ≫= λ '(db, row),
    Ok (db, {| res_bundle := None; res_subject := row; reused_completed_evidence := false |})
  else
  persist (supports_confirmation version) (confirmation_bench_version_error "bundles");;
  configured_profile s profile ≫= λ '(rev, sum, p),
  some_or (settings_rows db !! settings_revision) "settings revision does not exist" ≫= λ stored,
  persist (bool_decide (sr_settings stored = s)) "settings revision does not match the supplied frozen policy";;
  persist (String.eqb (sr_checksum stored) (_settings_checksum s)) "stored settings checksum is invalid";;
  some_or (agents db !! agent) "agent does not exist" ≫= λ sha,
  resolve_bundle sha version rev sum settings_revision (sr_checksum stored) new_id now db ≫= λ '(db, (id, b)),
  persist (match subjects db !! (agent, version) with
           | Some old => is_None (s_bundle old) || bool_decide (base_proof old = proof_tuple sha proof)
           | None => true
           end) "attached confirmation base proof cannot be replaced";;
  let row := new_subject sha (Some id) provisional proof in
  (if bool_decide (b_state b = COMPLETED) then
     _replay_stored_bundle b p ≫= λ '(v, frozen_mode), _apply_projection row v frozen_mode p
   else Ok row) ≫= λ row,
  put_subject (agent, version) row db ≫= λ db,
  Ok (db, {| res_bundle := Some (id, b); res_subject := row;
             reused_completed_evidence := bool_decide (b_state b = COMPLETED) |}).

(** * The daily budget *)

Definition _utc_day (now : datetime) : result Z :=
  match now with
  | Aware i => Ok (day_number i)
  | Naive _ => Err (PersistenceError "budget time must be timezone-aware")
  end.
Definition aware_instant (now : datetime) (what : string) : result Z :=
  match now with
  | Aware i => Ok i
  | Naive _ => Err (PersistenceError (what +:+ " time must be timezone-aware"))
  end.

Definition empty_day : BudgetDay := {| d_revision := 0; d_issued := 0; d_outstanding := 0; d_settled := 0 |}.
(** INSERT ... ON CONFLICT DO NOTHING, then the row. *)
Definition lock_confirmation_budget_day (day : Z) (db : Db) : Db * BudgetDay :=
  match days db !! day with
  | Some d => (db, d)
  | None => (with_days (<[day := empty_day]> (days db)) db, empty_day)
  end.

Definition stale_budget (expected : Z) (d : BudgetDay) : result unit :=
  require (d_revision d =? expected) (StaleConfirmationBudget (stale_message expected (d_revision d))).

Inductive ReservationOutcome :=
  | Reserved (id : Z) (r : Reservation)
  | Replayed (id : Z) (r : Reservation)
  | Blocked (reason : string).

Definition blocked_reason (d : BudgetDay) (s : PolicySettings) (reserve_microusd : Z) : option string :=
  if ps_daily_bundle_cap s <? d_issued d + 1 then Some "bundle_cap"
  else if ps_daily_dollar_cap_microusd s <? d_outstanding d + d_settled d + reserve_microusd
  then Some "dollar_cap" else None.

Definition reserve_confirmation_bundle_budget (bundle_id reservation_id : Z) (now : datetime)
    (expected_revision settings_revision : Z) (s : PolicySettings) (reserve_microusd : Z) (db : Db)
    : result (Db * ReservationOutcome) :=
  persist (negb (bool_decide (ps_mode s = OFF))) "confirmation bundle policy is off";;
  persist (0 <? reserve_microusd) "reserve_microusd must be positive";;
  _utc_day now ≫= λ day,
  let '(db, d) := lock_confirmation_budget_day day db in
  stale_budget expected_revision d;;
  some_or (bundles db !! bundle_id) "bundle does not exist" ≫= λ b,
  persist ((b_settings_revision b =? settings_revision) && String.eqb (b_settings_checksum b) (_settings_checksum s))
    "budget policy does not match the bundle's frozen settings";;
  match reservations db !! reservation_id with
  | Some r =>
      persist ((r_bundle r =? bundle_id) && (r_settings_revision r =? settings_revision) &&
               (r_reserved r =? reserve_microusd)) "reservation id was already used for different input";;
      Ok (db, Replayed reservation_id r)
  | None =>
      persist (bool_decide (b_state b ∈ [PENDING; BLOCKED_BUDGET]))
        ("bundle in " +:+ state_value (b_state b) +:+ " cannot reserve a new attempt");;
      persist (negb (has_reservation bundle_id db))
        "confirmation bundle already consumed its automatic attempt; authorize a retest generation";;
      match blocked_reason d s reserve_microusd with
      | Some reason =>
          update_bundle bundle_id b (set_state BLOCKED_BUDGET b) db ≫= λ db, Ok (db, Blocked reason)
      | None =>
          (** No reservation of the bundle exists, so this is attempt 1. *)
          let r := {| r_bundle := bundle_id; r_attempt := 1; r_day := day;
            r_settings_revision := settings_revision; r_reserved := reserve_microusd; r_settlement := None |} in
          insert_reservation reservation_id r db ≫= λ db,
          put_day day {| d_revision := d_revision d + 1; d_issued := d_issued d + 1;
            d_outstanding := d_outstanding d + reserve_microusd; d_settled := d_settled d |} db ≫= λ db,
          (if bool_decide (b_state b = BLOCKED_BUDGET) then update_bundle bundle_id b (set_state PENDING b) db
           else Ok db) ≫= λ db,
          Ok (db, Reserved reservation_id r)
      end
  end.

Definition issue_confirmation_bundle_ticket (bundle_id reservation_id : Z) (validator_hotkey slot_id : string)
    (now : datetime) (new_ticket : Z) (db : Db) : result (Db * (Z * Ticket)) :=
  aware_instant now "ticket" ≫= λ at_instant,
  match bundles db !! bundle_id, reservations db !! reservation_id with
  | Some b, Some r =>
      persist (r_bundle r =? bundle_id) "bundle reservation does not exist";;
      persist (bool_decide (r_state r = RESERVED)) "reservation was already settled";;
      match find_row (λ _ t, (t_bundle t =? bundle_id) && (t_attempt t =? r_attempt r)) (tickets db) with
      | Some (id, t) =>
          persist (bool_decide (t_status t = issued) && (at_instant <? t_deadline t) &&
                   String.eqb (t_hotkey t) validator_hotkey && String.eqb (t_slot t) slot_id)
            "reservation attempt already has a different or closed ticket";;
          Ok (db, (id, t))
      | None =>
          persist (bool_decide (b_state b ∈ [PENDING; FAILED]))
            ("bundle in " +:+ state_value (b_state b) +:+ " cannot be leased");;
          let t := {| t_bundle := bundle_id; t_hotkey := validator_hotkey; t_slot := slot_id;
            t_status := issued; t_attempt := r_attempt r; t_issued_at := at_instant;
            t_deadline := at_instant + CONFIRMATION_TICKET_TTL; t_failure_reason := None;
            t_failure_class := None; t_failure_stage := None; t_failure_status := None; t_failed_at := None |} in
          insert_ticket new_ticket t db ≫= λ db,
          update_bundle bundle_id b (set_state LEASED b) db ≫= λ db,
          Ok (db, (new_ticket, t))
      end
  | _, _ => Err (PersistenceError "bundle reservation does not exist")
  end.

(** What a failed settlement does to the bundle and to its ticket. *)
Definition close_failed (r : Reservation) (b : Bundle) (at_instant : Z) (db : Db) : result Db :=
  update_bundle (r_bundle r) b (set_state FAILED b) db ≫= λ db,
  match find_row (λ _ t, (t_bundle t =? r_bundle r) && (t_attempt t =? r_attempt r)) (tickets db) with
  | Some (id, t) =>
      if bool_decide (t_status t = issued) then update_ticket id (set_expired at_instant t) db else Ok db
  | None => Ok db
  end.

Definition settle_confirmation_bundle_budget (reservation_id expected_revision actual_microusd : Z)
    (failed_attempt : bool) (settled_at : datetime) (db : Db) : result (Db * bool) :=
  persist (0 <=? actual_microusd) "actual_microusd cannot be negative";;
  some_or (reservations db !! reservation_id) "reservation does not exist" ≫= λ r,
  _utc_day settled_at ≫= λ day,
  persist (r_day r <=? day) "settlement predates reservation day";;
  let '(db, d) := lock_confirmation_budget_day (r_day r) db in
  stale_budget expected_revision d;;
  some_or (bundles db !! r_bundle r) "bundle disappeared" ≫= λ b,
  match r_settlement r with
  | Some st =>
      persist ((se_actual st =? actual_microusd) && Bool.eqb (se_failed st) failed_attempt)
        "reservation was settled with different accounting";;
      Ok (db, true)
  | None =>
      persist (r_reserved r <=? d_outstanding d) "budget day is missing the reservation amount";;
      put_day (r_day r) {| d_revision := d_revision d + 1; d_issued := d_issued d;
        d_outstanding := d_outstanding d - r_reserved r; d_settled := d_settled d + actual_microusd |} db ≫= λ db,
      update_reservation reservation_id (set_settlement {| se_actual := actual_microusd;
        se_failed := failed_attempt; se_at := instant_of settled_at |} r) db ≫= λ db,
      (if failed_attempt then close_failed r b (instant_of settled_at) db else Ok db) ≫= λ db,
      Ok (db, false)
  end.

(** * Completion *)

Definition verify_signature (signer payload signature_hex : string) : bool :=
  match fromhex signature_hex with
  | Some bytes => keypair_verify signer payload bytes
  | None => false
  end.

Definition frozen_settings (b : Bundle) (db : Db) : result PolicySettings :=
  some_or (settings_rows db !! b_settings_revision b) "frozen settings disappeared" ≫= λ row,
  let s := sr_settings row in
  validate_settings s;;
  persist (negb (bool_decide (ps_mode s = OFF))) "off policy cannot own an issued confirmation bundle";;
  persist (String.eqb (sr_checksum row) (_settings_checksum s) &&
           String.eqb (b_settings_checksum b) (_settings_checksum s)) "frozen settings checksum is invalid";;
  Ok s.

Definition longmem_row (v : LongMemDimensionEnvelope) : DimensionRow :=
  {| dr_status := dim_completed; dr_evidence_sha256 := lenv_evidence_sha256 v;
     dr_request_count := request_count v; dr_input_tokens := input_tokens v; dr_output_tokens := output_tokens v;
     dr_provider_cost_microusd := provider_cost_microusd v; dr_latency_ms := lenv_latency_ms v;
     dr_synthetic := false; dr_evidence := longmem_evidence_dump (lenv_evidence v) |}.
Definition ablation_row (v : AblationDimensionEnvelope) : DimensionRow :=
  {| dr_status := aenv_status v; dr_evidence_sha256 := aenv_evidence_sha256 v; dr_request_count := 0;
     dr_input_tokens := 0; dr_output_tokens := 0; dr_provider_cost_microusd := 0;
     dr_latency_ms := aenv_latency_ms v; dr_synthetic := true;
     dr_evidence := ablation_evidence_dump (aenv_evidence v) |}.

Definition add_dimensions (bundle_id : Z) (r : ConfirmationEvidenceRoot) (db : Db) : result Db :=
  insert_dimension bundle_id "longmemeval" (longmem_row (longmemeval r)) db ≫= λ db,
  insert_dimension bundle_id "inference_ablation" (ablation_row (inference_ablation r)) db ≫= λ db,
  insert_dimension bundle_id "embedding_ablation" (ablation_row (embedding_ablation r)) db.

(** [for subject in subjects: ...] over the rows of a bundle. *)
Fixpoint each_subject (f : Subject → result Subject) (rows : list ((Z * Z) * Subject)) (db : Db) : result Db :=
  match rows with
  | [] => Ok db
  | (key, s) :: rows => f s ≫= λ s, put_subject key s db ≫= λ db, each_subject f rows db
  end.
Definition bundle_subjects (bundle_id : Z) (db : Db) : list ((Z * Z) * Subject) :=
  filter (λ ks, s_bundle ks.2 = Some bundle_id) (map_to_list (subjects db)).

(** The cap checks and the signature over the rebuilt evidence. *)
Definition accept_report (bundle_id ticket_id : Z) (b : Bundle) (t : Ticket)
    (report : ConfirmationCompletionReport) (profile : ConfirmationVerificationProfile) (s : PolicySettings)
    : result VerifiedConfirmationEvidence :=
  as_persistence (rebuild_confirmation_evidence report (identity_of b (ps_mode s)) profile) ≫= λ v,
  let u := totals (root v) in
  persist (total_request_count u <=? ps_per_bundle_request_cap s) "bundle request cap exceeded";;
  persist (total_input_tokens u + total_output_tokens u <=? ps_per_bundle_token_cap s)
    "bundle token cap exceeded";;
  persist (verify_signature (t_hotkey t)
             (confirmation_signing_message (t_hotkey t) bundle_id ticket_id (t_deadline t)
                (identity_of b (ps_mode s)) (evidence_sha256 v)) (bundle_signature report))
    "confirmation bundle signature did not verify";;
  Ok v.

Definition find_reservation (bundle_id attempt : Z) (db : Db) : option (Z * Reservation) :=
  find_row (λ _ r, (r_bundle r =? bundle_id) && (r_attempt r =? attempt)) (reservations db).

Definition complete_leased (bundle_id ticket_id : Z) (b : Bundle) (t : Ticket)
    (report : ConfirmationCompletionReport) (profile : ConfirmationVerificationProfile) (s : PolicySettings)
    (v : VerifiedConfirmationEvidence) (now : Z) (db : Db) : result (Db * Bundle) :=
  match find_reservation bundle_id (t_attempt t) db ≫= λ r, r_settlement r.2 with
  | Some st =>
      persist (negb (se_failed st)) "successful accounting must settle before evidence completion";;
      persist (se_actual st =? total_provider_cost_microusd (totals (root v)))
        "signed dimension cost does not match settled actual cost"
  | None => Err (PersistenceError "successful accounting must settle before evidence completion")
  end;;
  add_dimensions bundle_id (root v) db ≫= λ db,
  let b' := set_completed {| co_qualified := ablations_complete v; co_mode := ps_mode s; co_ticket := ticket_id;
    co_root := root v; co_evidence_sha256 := evidence_sha256 v; co_reporter := t_hotkey t;
    co_signature := bundle_signature report; co_at := now |} b in
  update_bundle bundle_id b b' db ≫= λ db,
  update_ticket ticket_id (set_scored t) db ≫= λ db,
  each_subject (λ row, _apply_projection row v (ps_mode s) profile) (bundle_subjects bundle_id db) db ≫= λ db,
  Ok (db, b').

Definition same_completion (c : Completion) (v : VerifiedConfirmationEvidence)
    (report : ConfirmationCompletionReport) (t : Ticket) : bool :=
  String.eqb (co_evidence_sha256 c) (evidence_sha256 v) && same_root (co_root c) (root v) &&
  String.eqb (co_signature c) (bundle_signature report) && String.eqb (co_reporter c) (t_hotkey t).

Definition complete_confirmation_bundle (bundle_id ticket_id : Z) (report : ConfirmationCompletionReport)
    (profile : ConfirmationVerificationProfile) (now : datetime) (db : Db) : result (Db * Bundle) :=
  aware_instant now "completion" ≫= λ at_instant,
  some_or (bundles db !! bundle_id) "bundle does not exist" ≫= λ b,
  persist (bool_decide (b_state b ∈ [LEASED; COMPLETED]))
    ("bundle in " +:+ state_value (b_state b) +:+ " cannot complete");;
  some_or (tickets db !! ticket_id) "ticket does not belong to bundle" ≫= λ t,
  persist (t_bundle t =? bundle_id) "ticket does not belong to bundle";;
  (if bool_decide (b_state b = LEASED) then
     persist (bool_decide (t_status t = issued)) "ticket is not the live bundle lease";;
     persist (at_instant <? t_deadline t) "confirmation ticket expired"
   else
     persist (bool_decide (t_status t = scored) && bool_decide (co_ticket <$> b_completion b = Some ticket_id))
       "completed replay does not use the accepted ticket");;
  frozen_settings b db ≫= λ s,
  accept_report bundle_id ticket_id b t report profile s ≫= λ v,
  if bool_decide (b_state b = COMPLETED) then
    persist (match b_completion b with Some c => same_completion c v report t | None => false end)
      "completed evidence cannot be replaced";;
    Ok (db, b)
  else complete_leased bundle_id ticket_id b t report profile s v at_instant db.

(** * Retests *)

Record RetestResult := { rt_source : Bundle; rt_bundle : Z * Bundle; rt_replayed : bool }.

Definition replay_retest (source_id authorization_id expected_generation : Z) (actor reason : string)
    (a : RetestAuthorization) (db : Db) : result (Db * RetestResult) :=
  persist ((au_source a =? source_id) && (au_from a =? expected_generation) && String.eqb (au_actor a) actor &&
           String.eqb (au_reason a) reason) "retest request id was already used for different input";;
  some_or (find_row (λ _ b, same_key (b_authorization b) (Some authorization_id)) (bundles db))
    "retest replay is incomplete" ≫= λ new,
  some_or (bundles db !! source_id) "retest replay is incomplete" ≫= λ source,
  Ok (db, {| rt_source := source; rt_bundle := new; rt_replayed := true |}).

Definition authorize_confirmation_bundle_retest (source_id authorization_id expected_generation : Z)
    (actor reason : string) (new_id now : Z) (db : Db) : result (Db * RetestResult) :=
  match authorizations db !! authorization_id with
  | Some a => replay_retest source_id authorization_id expected_generation actor reason a db
  | None =>
      some_or (bundles db !! source_id) "source bundle does not exist" ≫= λ source,
      persist (bool_decide (b_state source ∈ [COMPLETED; FAILED]))
        "only completed or failed confirmation bundles can be retested";;
      some_or (latest_settings db) "confirmation settings are unconfigured" ≫= λ '(revision, row),
      validate_settings (sr_settings row);;
      persist (negb (bool_decide (ps_mode (sr_settings row) = OFF)))
        "confirmation policy is off; enable issuance before authorizing a retest";;
      persist (bool_decide (ps_profile_revision (sr_settings row) = Some (b_profile_revision source)) &&
               bool_decide (ps_profile_checksum (sr_settings row) = Some (b_profile_checksum source)))
        "active confirmation profile does not match the source bundle";;
      let latest := latest_generation (b_artifact source) (b_version source) (b_profile_revision source)
                      (b_profile_checksum source) db in
      persist (match latest with Some (_, b) => b_generation b | None => 0 end =? expected_generation)
        "confirmation generation changed; refresh before authorizing retest";;
      insert_authorization authorization_id {| au_source := source_id; au_artifact := b_artifact source;
        au_version := b_version source; au_profile_revision := b_profile_revision source;
        au_profile_checksum := b_profile_checksum source; au_from := expected_generation;
        au_generation := expected_generation + 1; au_reason := reason; au_actor := actor |} db ≫= λ db,
      let b := {| b_artifact := b_artifact source; b_version := b_version source;
        b_profile_revision := b_profile_revision source; b_profile_checksum := b_profile_checksum source;
        b_generation := expected_generation + 1; b_authorization := Some authorization_id;
        b_reason := operator_retest; b_source := Some source_id; b_settings_revision := revision;
        b_settings_checksum := sr_checksum row; b_state := PENDING; b_completion := None; b_created := now |} in
      insert_bundle new_id b db ≫= λ db,
      let source' := set_state SUPERSEDED source in
      update_bundle source_id source source' db ≫= λ db,
      each_subject (λ s, Ok (move_subject new_id s)) (bundle_subjects source_id db) db ≫= λ db,
      Ok (db, {| rt_source := source'; rt_bundle := (new_id, b); rt_replayed := false |})
  end.

(** * Attempts: the lock, recovery and the endpoints *)

Record LockedConfirmationAttempt := {
  at_ticket : Ticket;
  at_reservation : Z * Reservation;
  at_budget : BudgetDay;
  at_bundle : Bundle
}.

Definition lock_confirmation_attempt (bundle_id ticket_id : Z) (db : Db)
    : result (option LockedConfirmationAttempt) :=
  match tickets db !! ticket_id with
  | Some t =>
      if negb (t_bundle t =? bundle_id) then Ok None else
      some_or (find_reservation bundle_id (t_attempt t) db)
        "confirmation attempt has no budget reservation" ≫= λ r,
      some_or (days db !! r_day r.2) "confirmation attempt budget day disappeared" ≫= λ d,
      some_or (bundles db !! bundle_id) "confirmation bundle disappeared" ≫= λ b,
      Ok (Some {| at_ticket := t; at_reservation := r; at_budget := d; at_bundle := b |})
  | None => Ok None
  end.

Definition settle_whole (a : LockedConfirmationAttempt) (now : datetime) (db : Db) : result (Db * bool) :=
  settle_confirmation_bundle_budget (at_reservation a).1 (d_revision (at_budget a))
    (r_reserved (at_reservation a).2) true now db.

(** The overdue tickets by deadline, then identifier. *)
Definition deadline_cmp : Z * Ticket → Z * Ticket → comparison :=
  cmp_then (cmp_by Z.compare (λ kt, t_deadline kt.2)) (cmp_by Z.compare fst).
Definition overdue_tickets (now : Z) (limit : nat) (db : Db) : list (Z * Ticket) :=
  take limit (py_sorted deadline_cmp
    (filter (λ kt, bool_decide (t_status kt.2 = issued) && (t_deadline kt.2 <=? now) = true)
       (map_to_list (tickets db)))).

Fixpoint expire_loop (now : datetime) (rows : list (Z * Ticket)) (db : Db) : result (Db * Z) :=
  match rows with
  | [] => Ok (db, 0)
  | (id, t) :: rows =>
      lock_confirmation_attempt (t_bundle t) id db ≫= λ found,
      some_or found "overdue confirmation ticket disappeared" ≫= λ a,
      settle_whole a now db ≫= λ '(db, replayed),
      expire_loop now rows db ≫= λ '(db, settled),
      Ok (db, if replayed : bool then settled else settled + 1)
  end.

Definition expire_overdue_confirmation_bundle_tickets (now : datetime) (limit : Z) (db : Db) : result (Db * Z) :=
  aware_instant now "confirmation recovery" ≫= λ at_instant,
  require (in_range limit 1 1000) (ValueError "confirmation recovery limit must be in [1, 1000]");;
  expire_loop now (overdue_tickets at_instant (Z.to_nat limit) db) db.

(** [fail_v9_confirmation_job], after authentication. *)
Definition fail_v9_confirmation_job (bundle_id ticket_id : Z) (validator_hotkey reason : string)
    (failure_class failure_stage : option string) (failure_status : option Z) (now : datetime) (db : Db)
    : result (Db * bool) :=
  lock_confirmation_attempt bundle_id ticket_id db ≫= λ found,
  some_or found "confirmation failure does not match its internal ticket" ≫= λ a,
  let t := at_ticket a in
  persist (String.eqb (t_hotkey t) validator_hotkey) "confirmation failure does not match its internal ticket";;
  persist (bool_decide (t_status t ∈ [issued; expired]) &&
           bool_decide (b_state (at_bundle a) ∈ [LEASED; FAILED]))
    "confirmation ticket cannot be failed in its current state";;
  let expected := "confirmation_" +:+ reason in
  persist (match r_settlement (at_reservation a).2 with
           | Some st => negb (se_failed st) ||
               bool_decide (t_failure_reason t ∈ [Some expected; Some "confirmation_failed"])
           | None => true
           end) "confirmation failure replay changed its reason";;
  settle_whole a now db ≫= λ '(db, replayed),
  if replayed : bool then Ok (db, true) else
  some_or (tickets db !! ticket_id) "confirmation failure does not match its internal ticket" ≫= λ t,
  update_ticket ticket_id (set_failure expected failure_class failure_stage failure_status t) db ≫= λ db,
  Ok (db, false).

(** The profile the release registers under a revision and checksum, when it is
    what the key says. *)
Definition _registered_profile (profiles : string → string → option ConfirmationVerificationProfile)
    (rev sum : string) : option ConfirmationVerificationProfile :=
  match profiles rev sum with
  | Some p =>
      if String.eqb (revision p) rev && match checksum p with Ok actual => String.eqb actual sum | Err _ => false end
      then Some p else None
  | None => None
  end.

(** What [submit_v9_confirmation_report] writes of the attempt itself, after
    authentication: the settlement of the derived cost and the completion, or
    neither for a bundle that is completed.  The reconciliation that follows in
    the same transaction is in [ConfirmationService].  [profiles] is the registry
    of the release. *)
Definition settle_and_complete (bundle_id ticket_id : Z) (validator_hotkey : string)
    (report : ConfirmationCompletionReport) (profiles : string → string → option ConfirmationVerificationProfile)
    (now : datetime) (db : Db) : result (Db * Bundle) :=
  lock_confirmation_attempt bundle_id ticket_id db ≫= λ found,
  some_or found "confirmation report does not match its internal ticket" ≫= λ a,
  persist (String.eqb (t_hotkey (at_ticket a)) validator_hotkey)
    "confirmation report does not match its internal ticket";;
  let b := at_bundle a in
  some_or (_registered_profile profiles (b_profile_revision b) (b_profile_checksum b))
    "confirmation verification profile is not registered" ≫= λ profile,
  (if bool_decide (b_state b = COMPLETED) then Ok db
   else
     some_or (settings_rows db !! b_settings_revision b) "confirmation settings revision disappeared" ≫= λ row,
     validate_settings (sr_settings row);;
     as_persistence (rebuild_confirmation_evidence report (identity_of b (ps_mode (sr_settings row))) profile)
       ≫= λ v,
     settle_confirmation_bundle_budget (at_reservation a).1 (d_revision (at_budget a))
       (total_provider_cost_microusd (totals (root v))) false now db ≫= λ '(db, _), Ok db) ≫= λ db,
  complete_confirmation_bundle bundle_id ticket_id report profile now db.

End lane.
