(* ===== verification/ConfirmationService.v ===== *)
(** The handlers that drive the confirmation lane: the reconciliation of the
    candidates ([confirmation_candidate_reconciliation.py]), the claim of a
    validator ([endpoints/validator_confirmation.py]) and the operator's
    endpoints ([endpoints/admin_confirmation_bundles.py]), and the transactions
    of the lane as one step relation.

    The ranked ledger a reconciliation reads, with each row's owner and the
    outcome of its signature-bound base proof, is an argument: the score ledger
    and its evidence are other components. *)
From Stdlib Require Import ZArith Lia Ascii.
From stdpp Require Import base gmap list strings.
From S2P Require Import Prelude Binary64 PyText ConfirmationPolicy ConfirmationReport ConfirmationEvidence ConfirmationStore ConfirmationLane.

#[local] Open Scope string_scope.
#[local] Open Scope Z_scope.

(** One row of the live ledger, or one persisted subject the ledger lacks. *)
Record RankedRow := {
  rr_agent : Z;
  rr_owner : string;
  rr_artifact : string;
  rr_first_seen : datetime;
  rr_proof : result ConfirmationBaseProof
}.

(** The installed profiles by revision and checksum. *)
Definition Registry : Type := string → string → option ConfirmationVerificationProfile.

Section service.
Context {SH : Sha256} {KP : Keypair} {LM : Libm}.

Definition registered_confirmation_profile (registry : Registry) (rev sum : option string)
    : option ConfirmationVerificationProfile :=
  match rev, sum with
  | Some rev, Some sum =>
      match registry rev sum with
      | Some p => if String.eqb (revision p) rev && match checksum p with Ok actual => String.eqb actual sum | Err _ => false end
          then Some p else None
      | None => None
      end
  | _, _ => None
  end.

(** * Reconciliation *)

Definition MILLION : Z := 1000000.

Definition candidate_of (version : Z) (row : RankedRow) (p : ConfirmationBaseProof) (s : Subject) (db : Db)
    : ConfirmationCandidate :=
  {| agent_id := uuid_text (rr_agent row); owner_id := rr_owner row;
     ConfirmationPolicy.artifact_sha256 := rr_artifact row; bench_version := version;
     base_composite := int_truediv (bp_quality_micros p) MILLION;
     base_stderr := Some (int_truediv (bp_stderr_micros p) MILLION); first_seen := rr_first_seen row;
     confirmation_state := match s_bundle s ≫= λ id, bundles db !! id with
                           | Some b => b_state b | None => BASE_ONLY end;
     full_composite := (λ x, int_truediv x MILLION) <$> full_effective_micros (s_result s) |}.

Definition new_candidate (c : ConfirmationCandidate) : result ConfirmationCandidate :=
  check_candidate c;; Ok c.

(** The candidates with the row and the proof each was made from. *)
Definition Candidates : Type := list (ConfirmationCandidate * (Z * ConfirmationBaseProof)).

(** A ledger row records its base proof and becomes a candidate. *)
Fixpoint ledger_candidates (version : Z) (rows : list RankedRow) (db : Db) : result (Db * Candidates) :=
  match rows with
  | [] => Ok (db, [])
  | row :: rows =>
      rr_proof row ≫= λ p,
      record_base_only_subject (rr_agent row) version p db ≫= λ '(db, _),
      some_or (subjects db !! (rr_agent row, version)) "confirmation subject was not persisted" ≫= λ s,
      new_candidate (candidate_of version row p s db) ≫= λ c,
      ledger_candidates version rows db ≫= λ '(db, rest),
      Ok (db, (c, (rr_agent row, p)) :: rest)
  end.

(** A persisted subject competes only when its owner is not on the ledger. *)
Fixpoint persisted_candidates (version : Z) (owners : list string) (rows : list RankedRow) (db : Db)
    : result Candidates :=
  match rows with
  | [] => Ok []
  | row :: rows =>
      if bool_decide (rr_owner row ∈ owners) then persisted_candidates version owners rows db else
      rr_proof row ≫= λ p,
      some_or (subjects db !! (rr_agent row, version)) "confirmation subject was not persisted" ≫= λ s,
      new_candidate (candidate_of version row p s db) ≫= λ c,
      persisted_candidates version owners rows db ≫= λ rest,
      Ok ((c, (rr_agent row, p)) :: rest)
  end.

(** The dictionary of proofs by agent: the last one set. *)
Definition proof_of (agent : string) (l : Candidates) : option (Z * ConfirmationBaseProof) :=
  dict_get agent (dict_of (map (λ cp, (agent_id cp.1, cp.2)) l)).

Definition _reproject_completed_subject_for_current_mode (key : Z * Z) (s : Subject) (b : option Bundle)
    (profile : ConfirmationVerificationProfile) (m : ConfirmationMode) (db : Db) : result Db :=
  some_or b "reused confirmation evidence is missing its bundle" ≫= λ b,
  _replay_stored_bundle b profile ≫= λ '(v, _),
  compute_subject_projection m (s_quality s) (s_stderr s) (s_model s) (s_tool s) v (composite profile)
    ≫= λ projection,
  put_subject key (set_result projection s) db.

(** [draw] gives the identifier a new bundle gets. *)
Fixpoint resolve_selected (version settings_revision : Z) (s : PolicySettings)
    (profile : ConfirmationVerificationProfile) (draw : string → Z) (now : Z) (known : Candidates)
    (chosen : list ConfirmationCandidate) (db : Db) : result Db :=
  match chosen with
  | [] => Ok db
  | c :: chosen =>
      match proof_of (agent_id c) known with
      | None => Err (KeyError (agent_id c))
      | Some (agent, proof) =>
          get_or_create_confirmation_bundle agent version proof settings_revision s (Some profile)
            (draw (agent_id c)) now db ≫= λ '(db, r),
          (if reused_completed_evidence r then
             _reproject_completed_subject_for_current_mode (agent, version) (res_subject r)
               (snd <$> res_bundle r) profile (ps_mode s) db
           else Ok db) ≫= λ db,
          resolve_selected version settings_revision s profile draw now known chosen db
      end
  end.

(** The settings before the first revision. *)
Definition default_settings : PolicySettings :=
  {| ps_mode := OFF; ps_eligibility_mode := RANK; ps_top_n := DEFAULT_TOP_N;
     ps_min_base_score_micros := DEFAULT_MIN_BASE_SCORE_MICROS; ps_daily_bundle_cap := 0;
     ps_daily_dollar_cap_microusd := 0; ps_per_bundle_request_cap := 0; ps_per_bundle_token_cap := 0;
     ps_profile_revision := None; ps_profile_checksum := None; ps_challenger_z := DEFAULT_CHALLENGER_Z |}.

(** What one reconciliation reads besides the store. *)
Record LedgerRead := {
  lr_version : Z;
  lr_finalized : option (Z * result ConfirmationBaseProof);
  lr_policy_lock : bool;
  lr_ledger : list RankedRow;
  lr_persisted : list RankedRow;
  lr_draw : string → Z;
  lr_now : Z
}.

Definition reconcile_cohort (read : LedgerRead) (registry : Registry) (db : Db) : result Db :=
  let latest := latest_settings db in
  let s := match latest with Some (_, row) => sr_settings row | None => default_settings end in
  validate_settings s;;
  let profile := registered_confirmation_profile registry (ps_profile_revision s) (ps_profile_checksum s) in
  ledger_candidates (lr_version read) (lr_ledger read) db ≫= λ '(db, live),
  persisted_candidates (lr_version read) (map rr_owner (lr_ledger read)) (lr_persisted read) db ≫= λ others,
  let known := (live ++ others)%list in
  select_confirmation_candidates (map fst known) (ps_top_n s) (ps_challenger_z s) (ps_eligibility_mode s)
    (ps_min_base_score_micros s) ≫= λ selection,
  match latest, profile with
  | Some (revision_id, _), Some p =>
      if bool_decide (ps_mode s = OFF) then Ok db
      else resolve_selected (lr_version read) revision_id s p (lr_draw read) (lr_now read) known
             (selected selection) db
  | _, _ => Ok db
  end.

Definition reconcile_confirmation_candidates (read : LedgerRead) (registry : Registry) (db : Db) : result Db :=
  if negb (supports_confirmation (lr_version read)) then Ok db else
  match lr_finalized read with
  | Some (agent, proof) =>
      proof ≫= λ p, record_base_only_subject agent (lr_version read) p db ≫= λ '(db, _), Ok db
  | None => Ok db
  end ≫= λ db,
  if lr_policy_lock read then reconcile_cohort read registry db else Ok db.

(** * The claim *)

(** [_subject_agent_id] is not None. *)
Definition has_subject (bundle : Z) (db : Db) : bool :=
  exists_row (λ _ s, bool_decide (s_bundle s = Some bundle)) (subjects db).

(** The response to a claim, but for the inference grants it mints. *)
Definition _job_response (bundle : Z) (db : Db) : result unit :=
  persist (has_subject bundle db) "confirmation bundle has no attached base subject".

(** What a claim reserves. *)
Definition reserve_amount (profile : ConfirmationVerificationProfile) : Z :=
  sum_Z (max_cost_usd_micros <$> provider_lanes profile) + emb_max_cost_usd_micros (embedding_lane profile).

Definition live_v9_confirmation_slot_ticket (hotkey slot : string) (now : Z) (db : Db) : option (Z * Ticket) :=
  head (py_sorted (cmp_then (cmp_by Z.compare (λ kt, t_issued_at kt.2)) (cmp_by Z.compare fst))
    (filter (λ kt, String.eqb (t_hotkey kt.2) hotkey && String.eqb (t_slot kt.2) slot &&
                   bool_decide (t_status kt.2 = issued) && (now <? t_deadline kt.2) = true)
       (map_to_list (tickets db)))).

(** The first bundle that the latest revision may issue and that has a
    subject. *)
Definition claimable_bundle (version : Z) (rev sum : string) (settings_revision : Z) (settings_checksum : string)
    (db : Db) : option (Z * Bundle) :=
  find (λ kb, has_subject kb.1 db)
    (py_sorted (cmp_then (cmp_by Z.compare (λ kb, b_created kb.2)) (cmp_by Z.compare fst))
      (filter (λ kb, bool_decide (b_state kb.2 ∈ [PENDING; BLOCKED_BUDGET]) && (b_version kb.2 =? version) &&
                     String.eqb (b_profile_revision kb.2) rev && String.eqb (b_profile_checksum kb.2) sum &&
                     (b_settings_revision kb.2 =? settings_revision) &&
                     String.eqb (b_settings_checksum kb.2) settings_checksum = true)
         (map_to_list (bundles db)))).

Record ClaimRequest := {
  cl_hotkey : string;
  cl_slot : string;
  cl_profile_revision : string;
  cl_profile_checksum : string;
  cl_paused : bool;
  cl_read : LedgerRead;
  cl_reservation : Z;
  cl_ticket : Z;
  cl_now : datetime
}.

Definition cap_exhausted (s : PolicySettings) (d : BudgetDay) (amount : Z) : bool :=
  (ps_daily_bundle_cap s <=? d_issued d) ||
  (ps_daily_dollar_cap_microusd s <? d_outstanding d + d_settled d + amount).

(** Reserve and lease the selected bundle. *)
Definition issue_selected (q : ClaimRequest) (profile : ConfirmationVerificationProfile) (budget : BudgetDay)
    (id : Z) (b : Bundle) (db : Db) : result (Db * option (Z * Ticket)) :=
  some_or (settings_rows db !! b_settings_revision b) "confirmation settings revision disappeared" ≫= λ row,
  let s := sr_settings row in
  validate_settings s;;
  checksum profile ≫= λ sum,
  if negb (bool_decide (ps_profile_revision s = Some (revision profile)) &&
           bool_decide (ps_profile_checksum s = Some sum)) then Ok (db, None) else
  reserve_confirmation_bundle_budget id (cl_reservation q) (cl_now q) (d_revision budget)
    (b_settings_revision b) s (reserve_amount profile) db ≫= λ '(db, outcome),
  match outcome with
  | Blocked _ => Ok (db, None)
  | Reserved rid _ | Replayed rid _ =>
      issue_confirmation_bundle_ticket id rid (cl_hotkey q) (cl_slot q) (cl_now q) (cl_ticket q) db
        ≫= λ '(db, t),
      lock_confirmation_attempt id t.1 db ≫= λ found,
      some_or found "issued confirmation attempt disappeared";;
      _job_response id db;;
      Ok (db, Some t)
  end.

(** The fresh issuance of a claim, once the slot is known to be free. *)
Definition issue_fresh (q : ClaimRequest) (profile : ConfirmationVerificationProfile) (registry : Registry)
    (db : Db) : result (Db * option (Z * Ticket)) :=
  match latest_settings db with
  | None => Ok (db, None)
  | Some (revision_id, row) =>
      let s := sr_settings row in
      validate_settings s;;
      checksum profile ≫= λ sum,
      if bool_decide (ps_mode s = OFF) || negb (bool_decide (ps_profile_revision s = Some (revision profile))) ||
         negb (bool_decide (ps_profile_checksum s = Some sum)) then Ok (db, None) else
      if negb (is_ok (validate_confirmation_inference_caps profile (ps_per_bundle_request_cap s)
                        (ps_per_bundle_token_cap s))) then Ok (db, None) else
      _utc_day (cl_now q) ≫= λ day,
      let '(db, budget) := lock_confirmation_budget_day day db in
      if reserve_amount profile <=? 0 then Ok (db, None) else
      if cap_exhausted s budget (reserve_amount profile) then Ok (db, None) else
      reconcile_confirmation_candidates (cl_read q) registry db ≫= λ db,
      match claimable_bundle (lr_version (cl_read q)) (cl_profile_revision q) (cl_profile_checksum q)
              revision_id (sr_checksum row) db with
      | None => Ok (db, None)
      | Some (id, b) => issue_selected q profile budget id b db
      end
  end.

(** [request_v9_confirmation_job] after authentication and the nonce: a ticket
    to work on, or no content. *)
Definition request_v9_confirmation_job (q : ClaimRequest) (registry : Registry) (db : Db)
    : result (Db * option (Z * Ticket)) :=
  match _registered_profile registry (cl_profile_revision q) (cl_profile_checksum q) with
  | None => Ok (db, None)
  | Some profile =>
      expire_overdue_confirmation_bundle_tickets (cl_now q) 100 db ≫= λ '(db, _),
      match live_v9_confirmation_slot_ticket (cl_hotkey q) (cl_slot q) (instant_of (cl_now q)) db with
      | Some (id, t) =>
          lock_confirmation_attempt (t_bundle t) id db ≫= λ found,
          some_or found "live confirmation ticket is missing its bundle reservation" ≫= λ a,
          if negb (String.eqb (b_profile_revision (at_bundle a)) (cl_profile_revision q)) ||
             negb (String.eqb (b_profile_checksum (at_bundle a)) (cl_profile_checksum q))
          then Ok (db, None) else
            some_or (settings_rows db !! b_settings_revision (at_bundle a))
              "confirmation settings revision disappeared" ≫= λ row,
            validate_settings (sr_settings row);;
            _job_response (t_bundle t) db;;
            Ok (db, Some (id, t))
      | None =>
          if cl_paused q then Ok (db, None) else
          if negb (lr_policy_lock (cl_read q)) then Ok (db, None) else
          issue_fresh q profile registry db
      end
  end.

(** * The report *)

(** [submit_v9_confirmation_report] after authentication: the attempt, then the
    reconciliation of the candidates, with the bundle and the [replayed] flag of
    the response. *)
Definition submit_v9_confirmation_report (bundle_id ticket_id : Z) (validator_hotkey : string)
    (report : ConfirmationCompletionReport) (registry : Registry) (now : datetime) (read : LedgerRead)
    (db : Db) : result (Db * (Bundle * bool)) :=
  let replayed := bool_decide (b_state <$> bundles db !! bundle_id = Some COMPLETED) in
  settle_and_complete bundle_id ticket_id validator_hotkey report registry now db ≫= λ '(db, completed),
  reconcile_confirmation_candidates read registry db ≫= λ db,
  Ok (db, (completed, replayed)).

(** * The transactions of the lane *)

Inductive Transaction :=
  | AppendSettings (revision expected : Z) (s : PolicySettings) (reason actor : string) (read : LedgerRead)
  | Reconcile (read : LedgerRead)
  | Claim (q : ClaimRequest)
  | Fail (bundle_id ticket_id : Z) (hotkey reason : string) (failure_class failure_stage : option string)
      (failure_status : option Z) (now : datetime)
  | Submit (bundle_id ticket_id : Z) (hotkey : string) (report : ConfirmationCompletionReport)
      (now : datetime) (read : LedgerRead)
  | Recover (now : datetime) (limit : Z)
  | Retest (source_id authorization_id expected : Z) (actor reason : string) (new_id now : Z).

(** The store after a transaction that commits. *)
Definition execute (registry : Registry) (t : Transaction) (db : Db) : result Db :=
  match t with
  | AppendSettings revision_id expected s reason actor read =>
      validate_settings s;;
      create_confirmation_bundle_settings_revision revision_id expected s reason actor db ≫= λ db,
      reconcile_confirmation_candidates read registry db
  | Reconcile read => reconcile_confirmation_candidates read registry db
  | Claim q => request_v9_confirmation_job q registry db ≫= λ '(db, _), Ok db
  | Fail bundle_id ticket_id hotkey reason failure_class failure_stage failure_status now =>
      fail_v9_confirmation_job bundle_id ticket_id hotkey reason failure_class failure_stage failure_status now db
        ≫= λ '(db, _), Ok db
  | Submit bundle_id ticket_id hotkey report now read =>
      check_report report;;
      submit_v9_confirmation_report bundle_id ticket_id hotkey report registry now read db
        ≫= λ '(db, _), Ok db
  | Recover now limit => expire_overdue_confirmation_bundle_tickets now limit db ≫= λ '(db, _), Ok db
  | Retest source_id authorization_id expected actor reason new_id now =>
      authorize_confirmation_bundle_retest source_id authorization_id expected actor reason new_id now db
        ≫= λ '(db, _), Ok db
  end.

(** A transaction that fails leaves the store as it was. *)
Definition step (registry : Registry) (db db' : Db) : Prop := ∃ t, execute registry t db = Ok db'.

Inductive reachable (registry : Registry) (accounts : gmap Z string) : Db → Prop :=
  | reach_empty : reachable registry accounts (empty_db accounts)
  | reach_step db db' : reachable registry accounts db → step registry db db' → reachable registry accounts db'.
End service.
