(* ===== verification/ConfirmationInvariant.v ===== *)
(** The invariant of the confirmation lane's tables, and the elementary moves
    its transactions are made of.

    Every bundle owns at most one attempt, a reservation and its ticket, and
    its state says how far that attempt has come; a budget day adds up the
    reservations charged to it; of a submission's generations all but the
    latest are superseded; and a fully confirmed subject carries the projection
    of replayable evidence.  [ConfirmationSteps] shows that a transaction is a
    sequence of moves. *)
From Stdlib Require Import ZArith Lia.
From stdpp Require Import base gmap list strings.
From S2P Require Import Prelude PyText ConfirmationPolicy ConfirmationReport ConfirmationEvidence ConfirmationEvidenceFacts ConfirmationStore ConfirmationLane ConfirmationService.

#[local] Open Scope string_scope.
#[local] Open Scope Z_scope.

(** * Sums over a table *)

Section msum.
Context {K A : Type} `{Countable K}.
Implicit Types (f : A → Z) (m : gmap K A).

Definition msum f m : Z := sum_Z (f <$> (map_to_list m).*2).

Lemma msum_empty f : msum f (∅ : gmap K A) = 0.
Proof. unfold msum. by rewrite map_to_list_empty. Qed.

Lemma msum_insert f m i x : m !! i = None → msum f (<[i := x]> m) = f x + msum f m.
Proof.
  intros Hi. unfold msum. erewrite sum_Z_perm; [|by rewrite map_to_list_insert]. done.
Qed.

Lemma msum_delete f m i x : m !! i = Some x → msum f m = f x + msum f (delete i m).
Proof.
  intros Hi. rewrite <- (insert_delete_id m i x Hi) at 1. by rewrite msum_insert by apply lookup_delete_eq.
Qed.

Lemma msum_update f m i x y : m !! i = Some x → msum f (<[i := y]> m) = msum f m - f x + f y.
Proof.
  intros Hi. rewrite (msum_delete f m i x Hi), <- insert_delete_eq.
  rewrite msum_insert by apply lookup_delete_eq. lia.
Qed.

Lemma msum_nonneg f m : (∀ i x, m !! i = Some x → 0 <= f x) → 0 <= msum f m.
Proof.
  intros Hf. unfold msum. apply sum_Z_nonneg. apply Forall_forall.
  intros z (x & -> & Hx)%list_elem_of_fmap. apply list_elem_of_fmap in Hx as ((i & y) & -> & Hy).
  apply elem_of_map_to_list in Hy. by eapply Hf.
Qed.

Lemma msum_le f g m : (∀ i x, m !! i = Some x → f x <= g x) → msum f m <= msum g m.
Proof.
  induction m as [|i x m Hi IH] using map_ind; intros Hf; [by rewrite !msum_empty|].
  rewrite !msum_insert by done. pose proof (Hf i x ltac:(by apply lookup_insert_eq)).
  assert (msum f m <= msum g m); [|lia]. apply IH. intros j y Hj. apply (Hf j).
  rewrite lookup_insert_ne; [done|]. intros ->. by rewrite Hi in Hj.
Qed.
Lemma msum_add f g m : msum (λ x, f x + g x) m = msum f m + msum g m.
Proof.
  induction m as [|i x m Hi IH] using map_ind; [by rewrite !msum_empty|]. rewrite !msum_insert by done. lia.
Qed.
Lemma msum_one m : msum (λ _, 1) m = Z.of_nat (size m).
Proof.
  induction m as [|i x m Hi IH] using map_ind; [by rewrite msum_empty|].
  rewrite msum_insert, map_size_insert_None by done. lia.
Qed.
End msum.

(** * Views of the store *)

Definition res_of (i : Z) (db : Db) : gmap Z Reservation := filter (λ kv, r_bundle kv.2 = i) (reservations db).
Definition tickets_of (i : Z) (db : Db) : gmap Z Ticket := filter (λ kv, t_bundle kv.2 = i) (tickets db).
Definition day_rows (day : Z) (db : Db) : gmap Z Reservation := filter (λ kv, r_day kv.2 = day) (reservations db).

Definition open_amount (r : Reservation) : Z := if is_None (r_settlement r) then r_reserved r else 0.
Definition actual_amount (r : Reservation) : Z :=
  match r_settlement r with Some st => se_actual st | None => 0 end.

Definition closed (r : Reservation) : Z := if is_None (r_settlement r) then 0 else 1.

(** A budget day adds up its reservations, and counts the writes they made. *)
Definition day_ok (d : option BudgetDay) (rows : gmap Z Reservation) : Prop :=
  match d with
  | None => rows = ∅
  | Some d => d_issued d = Z.of_nat (size rows) ∧ d_outstanding d = msum open_amount rows ∧
              d_settled d = msum actual_amount rows ∧ d_revision d = d_issued d + msum closed rows
  end.

Section invariant.
Context {SH : Sha256} (registry : Registry).

(** The attempt of a bundle: what was reserved is the ceiling of its profile. *)
Definition lease_ok (b : Bundle) (r : Reservation) (t : Ticket) : Prop :=
  r_attempt r = 1 ∧ t_attempt t = 1 ∧ 0 < r_reserved r ∧
  r_day r = day_number (t_issued_at t) ∧ t_deadline t = t_issued_at t + CONFIRMATION_TICKET_TTL ∧
  ∃ p, registry (b_profile_revision b) (b_profile_checksum b) = Some p ∧ r_reserved r = reserve_amount p.

(** The evidence of a bundle replays, and it is what was paid for. *)
Definition evidence_ok (b : Bundle) (c : Completion) (actual : Z) : Prop :=
  ∃ p v, registry (b_profile_revision b) (b_profile_checksum b) = Some p ∧
    rebuild_confirmation_evidence (replay_report (co_root c) (co_signature c)) (identity_of b (co_mode c)) p = Ok v ∧
    root v = co_root c ∧ evidence_sha256 v = co_evidence_sha256 c ∧ ablations_complete v = co_qualified c ∧
    actual = total_provider_cost_microusd (totals (co_root c)) ∧ co_mode c ≠ OFF.

Definition attempt (b : Bundle) (R : gmap Z Reservation) (T : gmap Z Ticket)
    (Q : Reservation → Z → Ticket → Prop) : Prop :=
  ∃ rid r tid t, R = {[rid := r]} ∧ T = {[tid := t]} ∧ lease_ok b r t ∧ Q r tid t.

Definition untouched (b : Bundle) (R : gmap Z Reservation) (T : gmap Z Ticket) : Prop :=
  R = ∅ ∧ T = ∅ ∧ b_completion b = None.
Definition running (b : Bundle) (R : gmap Z Reservation) (T : gmap Z Ticket) : Prop :=
  b_completion b = None ∧ attempt b R T (λ r _ t, r_settlement r = None ∧ t_status t = issued).
Definition broken (b : Bundle) (R : gmap Z Reservation) (T : gmap Z Ticket) : Prop :=
  b_completion b = None ∧ attempt b R T (λ r _ t, t_status t = expired ∧
    ∃ st, r_settlement r = Some st ∧ se_failed st = true ∧ se_actual st = r_reserved r).
Definition done (b : Bundle) (R : gmap Z Reservation) (T : gmap Z Ticket) : Prop :=
  ∃ c, b_completion b = Some c ∧ attempt b R T (λ r tid t, t_status t = scored ∧ co_ticket c = tid ∧
    ∃ st, r_settlement r = Some st ∧ se_failed st = false ∧ se_actual st <= r_reserved r ∧
          evidence_ok b c (se_actual st)).

Definition bundle_ok (b : Bundle) (R : gmap Z Reservation) (T : gmap Z Ticket) : Prop :=
  match b_state b with
  | PENDING | BLOCKED_BUDGET => untouched b R T
  | LEASED => running b R T
  | FAILED => broken b R T
  | COMPLETED => done b R T
  | SUPERSEDED => untouched b R T ∨ broken b R T ∨ done b R T
  | BASE_ONLY => False
  end.
Definition slot_ok (b : option Bundle) (R : gmap Z Reservation) (T : gmap Z Ticket) : Prop :=
  match b with Some b => bundle_ok b R T | None => R = ∅ ∧ T = ∅ end.

(** A fully confirmed subject shares a completed, qualified bundle of its own
    submission, and its score is computed from that bundle's evidence. *)
Definition subject_ok (version : Z) (s : Subject) (db : Db) : Prop :=
  result_status (s_result s) = full_confirmed →
  ∃ i b c p v, s_bundle s = Some i ∧ bundles db !! i = Some b ∧ b_artifact b = s_artifact s ∧
    b_version b = version ∧ b_state b = COMPLETED ∧ b_completion b = Some c ∧ co_qualified c = true ∧
    registry (b_profile_revision b) (b_profile_checksum b) = Some p ∧
    rebuild_confirmation_evidence (replay_report (co_root c) (co_signature c)) (identity_of b (co_mode c)) p = Ok v ∧
    compute_subject_projection ENFORCE (s_quality s) (s_stderr s) (s_model s) (s_tool s) v (composite p)
      = Ok (s_result s).

Definition commitment (day : Z) (db : Db) : Z :=
  match days db !! day with Some d => d_outstanding d + d_settled d | None => 0 end.
Definition attempts (day : Z) (db : Db) : Z :=
  match days db !! day with Some d => d_issued d | None => 0 end.

Record coherent (db : Db) : Prop := {
  co_slots : ∀ i, slot_ok (bundles db !! i) (res_of i db) (tickets_of i db);
  co_days : ∀ day, day_ok (days db !! day) (day_rows day db);
  co_lineage : ∀ i j a b, bundles db !! i = Some a → bundles db !! j = Some b → same_lineage a b = true →
    (b_generation a = b_generation b → i = j) ∧ (b_generation a < b_generation b → b_state a = SUPERSEDED);
  co_subjects : ∀ key s, subjects db !! key = Some s → subject_ok key.2 s db;
  co_caps : ∀ day, commitment day db <= MAX_DAILY_DOLLAR_MICROUSD ∧ attempts day db <= MAX_DAILY_BUNDLE_CAP
}.

(** * Moves *)

(** Nobody is fully confirmed by bundle [i]. *)
Definition unconfirmed (i : Z) (db : Db) : Prop :=
  ∀ key s, subjects db !! key = Some s → s_bundle s = Some i → result_status (s_result s) ≠ full_confirmed.

Definition charge (d : BudgetDay) (amount : Z) : BudgetDay :=
  {| d_revision := d_revision d + 1; d_issued := d_issued d + 1;
     d_outstanding := d_outstanding d + amount; d_settled := d_settled d |}.
Definition discharge (d : BudgetDay) (reserved actual : Z) : BudgetDay :=
  {| d_revision := d_revision d + 1; d_issued := d_issued d;
     d_outstanding := d_outstanding d - reserved; d_settled := d_settled d + actual |}.

(** The CHECK constraints of a row. *)
Definition holds (checks : list (bool * string)) : Prop := Forall (λ c, c.1 = true) checks.

Inductive move (db : Db) : Db → Prop :=
  | MOpenDay day : days db !! day = None → move db (with_days (<[day := empty_day]> (days db)) db)
  | MAuthorize id a : move db (with_authorizations (<[id := a]> (authorizations db)) db)
  | MCreate id b :
      bundles db !! id = None → b_state b = PENDING → b_completion b = None →
      (∀ j o, bundles db !! j = Some o → same_lineage o b = true →
         b_generation o < b_generation b ∧ b_state o = SUPERSEDED) →
      holds (bundle_checks b) →
      move db (with_bundles (<[id := b]> (bundles db)) db)
  | MRetire id b :
      bundles db !! id = Some b → b_state b ∈ [PENDING; BLOCKED_BUDGET; FAILED; COMPLETED] →
      unconfirmed id db → holds (bundle_checks (set_state SUPERSEDED b)) →
      move db (with_bundles (<[id := set_state SUPERSEDED b]> (bundles db)) db)
  | MBlock id b :
      bundles db !! id = Some b → b_state b ∈ [PENDING; BLOCKED_BUDGET] →
      holds (bundle_checks (set_state BLOCKED_BUDGET b)) →
      move db (with_bundles (<[id := set_state BLOCKED_BUDGET b]> (bundles db)) db)
  | MLease id b d rid r tid t rev row :
      bundles db !! id = Some b → b_state b ∈ [PENDING; BLOCKED_BUDGET] →
      days db !! r_day r = Some d → reservations db !! rid = None → tickets db !! tid = None →
      r_bundle r = id → t_bundle t = id → r_settlement r = None → t_status t = issued → lease_ok b r t →
      latest_settings db = Some (rev, row) → validate_settings (sr_settings row) = Ok tt →
      d_issued d + 1 <= ps_daily_bundle_cap (sr_settings row) →
      d_outstanding d + d_settled d + r_reserved r <= ps_daily_dollar_cap_microusd (sr_settings row) →
      holds (bundle_checks (set_state LEASED b)) → holds (ticket_checks t) → holds (reservation_checks r) →
      move db (with_tickets (<[tid := t]> (tickets db))
        (with_days (<[r_day r := charge d (r_reserved r)]> (days db))
        (with_reservations (<[rid := r]> (reservations db))
        (with_bundles (<[id := set_state LEASED b]> (bundles db)) db))))
  | MFail id b d rid r tid t st t' :
      bundles db !! id = Some b → b_state b = LEASED → days db !! r_day r = Some d →
      reservations db !! rid = Some r → tickets db !! tid = Some t → r_bundle r = id → t_bundle t = id →
      se_failed st = true → se_actual st = r_reserved r →
      t_bundle t' = id → t_status t' = expired → t_attempt t' = t_attempt t → t_issued_at t' = t_issued_at t →
      t_deadline t' = t_deadline t →
      holds (bundle_checks (set_state FAILED b)) → holds (ticket_checks t') →
      holds (reservation_checks (set_settlement st r)) →
      move db (with_tickets (<[tid := t']> (tickets db))
        (with_days (<[r_day r := discharge d (r_reserved r) (se_actual st)]> (days db))
        (with_reservations (<[rid := set_settlement st r]> (reservations db))
        (with_bundles (<[id := set_state FAILED b]> (bundles db)) db))))
  | MComplete id b d rid r tid t st c dims :
      bundles db !! id = Some b → b_state b = LEASED → days db !! r_day r = Some d →
      reservations db !! rid = Some r → tickets db !! tid = Some t → r_bundle r = id → t_bundle t = id →
      se_failed st = false → se_actual st <= r_reserved r → co_ticket c = tid → evidence_ok b c (se_actual st) →
      holds (bundle_checks (set_completed c b)) → holds (ticket_checks (set_scored t)) →
      holds (reservation_checks (set_settlement st r)) →
      move db (with_tickets (<[tid := set_scored t]> (tickets db))
        (with_dimension_rows dims
        (with_days (<[r_day r := discharge d (r_reserved r) (se_actual st)]> (days db))
        (with_reservations (<[rid := set_settlement st r]> (reservations db))
        (with_bundles (<[id := set_completed c b]> (bundles db)) db)))))
  | MSubject key s : subject_ok key.2 s db → move db (with_subjects (<[key := s]> (subjects db)) db).

(** * Moves keep the invariant *)

(** The rows with key [k], after writing a row. *)
Lemma filter_write {A} (f : A → Z) (k : Z) (m : gmap Z A) i x :
  (∀ y, m !! i = Some y → f y = f x) →
  filter (λ kv, f kv.2 = k) (<[i := x]> m) =
  if decide (f x = k) then <[i := x]> (filter (λ kv, f kv.2 = k) m) else filter (λ kv, f kv.2 = k) m.
Proof.
  intros Hf. destruct (decide (f x = k)) as [E|E].
  - by rewrite map_filter_insert_True.
  - rewrite map_filter_insert_not'; [done|done|]. intros y Hy. cbn. by rewrite (Hf y Hy).
Qed.

Lemma lookup_res_of i db rid r : reservations db !! rid = Some r → r_bundle r = i → res_of i db !! rid = Some r.
Proof. intros. by apply map_lookup_filter_Some. Qed.
Lemma lookup_tickets_of i db tid t : tickets db !! tid = Some t → t_bundle t = i → tickets_of i db !! tid = Some t.
Proof. intros. by apply map_lookup_filter_Some. Qed.
Lemma lookup_day_rows day db rid r : reservations db !! rid = Some r → r_day r = day → day_rows day db !! rid = Some r.
Proof. intros. by apply map_lookup_filter_Some. Qed.

(** A key of a one-row table is that row. *)
Lemma singleton_row {A} (m : gmap Z A) k x k' x' : m = {[k := x]} → m !! k' = Some x' → k' = k ∧ x' = x.
Proof. intros -> [<- <-]%lookup_singleton_Some. done. Qed.

Lemma day_ok_open : day_ok (Some empty_day) ∅.
Proof. repeat split; try done. Qed.

Lemma day_ok_charge d rows rid r : rows !! rid = None → r_settlement r = None →
  day_ok (Some d) rows → day_ok (Some (charge d (r_reserved r))) (<[rid := r]> rows).
Proof.
  intros Hr Hs (H1 & H2 & H3 & H4). cbn. rewrite map_size_insert_None, !msum_insert by done.
  unfold open_amount at 1, actual_amount at 1, closed at 1. rewrite Hs. cbn. split_and!; lia.
Qed.

Lemma day_ok_discharge d rows rid r st : rows !! rid = Some r → r_settlement r = None →
  day_ok (Some d) rows →
  day_ok (Some (discharge d (r_reserved r) (se_actual st))) (<[rid := set_settlement st r]> rows).
Proof.
  intros Hr Hs (H1 & H2 & H3 & H4). cbn. rewrite map_size_insert_Some, !(msum_update _ _ _ r) by done.
  unfold open_amount at 2 3, actual_amount at 2 3, closed at 2 3. rewrite Hs. cbn. split_and!; lia.
Qed.

(** What a subject owes to the bundles survives a change that keeps the
    completed ones. *)
Lemma subject_ok_mono version s db db' :
  (∀ i b, s_bundle s = Some i → result_status (s_result s) = full_confirmed → bundles db !! i = Some b →
     b_state b = COMPLETED → bundles db' !! i = Some b) →
  subject_ok version s db → subject_ok version s db'.
Proof.
  intros Hb Hs Hf. destruct (Hs Hf) as (i & b & c & p & v & Hi & Hbi & Hrest).
  exists i, b, c, p, v. split; [done|]. split; [|done]. apply Hb; naive_solver.
Qed.

Lemma bundle_ok_state_block b R T : b_state b ∈ [PENDING; BLOCKED_BUDGET] →
  bundle_ok b R T → untouched b R T.
Proof. unfold bundle_ok. intros H. destruct (b_state b); set_solver. Qed.

Lemma same_lineage_sym a b : same_lineage a b = same_lineage b a.
Proof.
  unfold same_lineage. by rewrite (String.eqb_sym (b_artifact a)), (Z.eqb_sym (b_version a)),
    (String.eqb_sym (b_profile_revision a)), (String.eqb_sym (b_profile_checksum a)).
Qed.

(** A bundle that only changes its state keeps the order of generations, when
    no generation after it exists or it becomes superseded. *)
Lemma lineage_update db id b b' :
  (∀ i j x y, bundles db !! i = Some x → bundles db !! j = Some y → same_lineage x y = true →
     (b_generation x = b_generation y → i = j) ∧ (b_generation x < b_generation y → b_state x = SUPERSEDED)) →
  bundles db !! id = Some b → (∀ o, same_lineage b' o = same_lineage b o ∧ same_lineage o b' = same_lineage o b) →
  b_generation b' = b_generation b → b_state b ≠ SUPERSEDED →
  ∀ i j x y, <[id := b']> (bundles db) !! i = Some x → <[id := b']> (bundles db) !! j = Some y →
    same_lineage x y = true →
    (b_generation x = b_generation y → i = j) ∧ (b_generation x < b_generation y → b_state x = SUPERSEDED).
Proof.
  intros H Hid Hsame Hgen Hst i j x y [[<- <-]|[Hi Hx]]%lookup_insert_Some [[<- <-]|[Hj Hy]]%lookup_insert_Some Hl.
  - split; [done|lia].
  - rewrite (proj1 (Hsame y)) in Hl. rewrite Hgen. destruct (H id j b y Hid Hy Hl) as [H1 H2].
    split; [done|]. intros Hlt. by destruct (Hst (H2 Hlt)).
  - rewrite (proj2 (Hsame x)) in Hl. rewrite Hgen. by apply (H i id x b).
  - by apply (H i j x y).
Qed.

(** A change of one bundle's row alone. *)
Lemma coherent_bundle db id b' :
  coherent db → slot_ok (Some b') (res_of id db) (tickets_of id db) →
  (∀ i j x y, <[id := b']> (bundles db) !! i = Some x → <[id := b']> (bundles db) !! j = Some y →
    same_lineage x y = true →
    (b_generation x = b_generation y → i = j) ∧ (b_generation x < b_generation y → b_state x = SUPERSEDED)) →
  (∀ b, bundles db !! id = Some b → b_state b = COMPLETED → unconfirmed id db) →
  coherent (with_bundles (<[id := b']> (bundles db)) db).
Proof.
  intros [Hs Hd Hl Hsub Hc] Hslot Hlin Hun. split; [|done|exact Hlin| |done].
  - intros i. cbn. change (res_of i (with_bundles _ db)) with (res_of i db).
    change (tickets_of i (with_bundles _ db)) with (tickets_of i db).
    destruct (decide (i = id)) as [->|Hi]; [by rewrite lookup_insert_eq|].
    rewrite lookup_insert_ne by done. apply Hs.
  - intros key s Hk. eapply subject_ok_mono; [|by apply Hsub]. intros i b Hi Hf Hb Hst. cbn.
    rewrite lookup_insert_ne; [done|]. intros <-. by apply (Hun b Hb Hst key s).
Qed.

(** The two tables of an attempt, the day that pays it and its bundle, together. *)
Lemma coherent_attempt db id b' d' rid r' tid t' :
  coherent db →
  (∀ r, reservations db !! rid = Some r → r_bundle r = r_bundle r' ∧ r_day r = r_day r') →
  (∀ t, tickets db !! tid = Some t → t_bundle t = t_bundle t') →
  r_bundle r' = id → t_bundle t' = id →
  slot_ok (Some b') (<[rid := r']> (res_of id db)) (<[tid := t']> (tickets_of id db)) →
  day_ok (Some d') (<[rid := r']> (day_rows (r_day r') db)) →
  d_outstanding d' + d_settled d' <= MAX_DAILY_DOLLAR_MICROUSD → d_issued d' <= MAX_DAILY_BUNDLE_CAP →
  (∀ i j x y, <[id := b']> (bundles db) !! i = Some x → <[id := b']> (bundles db) !! j = Some y →
    same_lineage x y = true →
    (b_generation x = b_generation y → i = j) ∧ (b_generation x < b_generation y → b_state x = SUPERSEDED)) →
  (∀ b, bundles db !! id = Some b → b_state b ≠ COMPLETED) →
  coherent (with_tickets (<[tid := t']> (tickets db))
        (with_days (<[r_day r' := d']> (days db))
        (with_reservations (<[rid := r']> (reservations db))
        (with_bundles (<[id := b']> (bundles db)) db)))).
Proof.
  intros [Hs Hd Hl Hsub Hc] Hr Ht Hrb Htb Hslot Hday Hcap Hcap' Hlin Hun. split; [| |exact Hlin| |].
  - intros i. unfold res_of, tickets_of. cbn.
    rewrite (filter_write r_bundle) by (intros y Hy; by apply Hr).
    rewrite (filter_write t_bundle) by (intros y Hy; by apply Ht).
    rewrite Hrb, Htb. destruct (decide (id = i)) as [<-|Hi]; [by rewrite lookup_insert_eq|].
    rewrite lookup_insert_ne by done. apply Hs.
  - intros day. unfold day_rows. cbn. rewrite (filter_write r_day) by (intros y Hy; by apply Hr).
    destruct (decide (r_day r' = day)) as [<-|Hi]; [by rewrite lookup_insert_eq|].
    rewrite lookup_insert_ne by done. apply Hd.
  - intros key s Hk. eapply subject_ok_mono; [|by apply Hsub]. intros i b Hi Hf Hb Hst. cbn.
    rewrite lookup_insert_ne; [done|]. intros <-. by apply (Hun b Hb).
  - intros day. unfold commitment, attempts. cbn.
    destruct (decide (r_day r' = day)) as [<-|Hi]; [by rewrite lookup_insert_eq|].
    rewrite lookup_insert_ne by done. apply Hc.
Qed.

Lemma running_of b R T : b_state b = LEASED → bundle_ok b R T → running b R T.
Proof. unfold bundle_ok. by intros ->. Qed.

(** The only row of a running attempt. *)
Lemma running_rows db id b rid r tid t :
  bundle_ok b (res_of id db) (tickets_of id db) → b_state b = LEASED →
  reservations db !! rid = Some r → tickets db !! tid = Some t → r_bundle r = id → t_bundle t = id →
  res_of id db = {[rid := r]} ∧ tickets_of id db = {[tid := t]} ∧ lease_ok b r t ∧
  r_settlement r = None ∧ t_status t = issued ∧ b_completion b = None.
Proof.
  intros Hb Hst Hr Ht Hrb Htb. apply running_of in Hb as (Hc & rid' & r' & tid' & t' & HR & HT & Hl & Hs & Hi); [|done].
  destruct (singleton_row _ _ _ rid r HR) as [-> ->]; [by apply lookup_res_of|].
  destruct (singleton_row _ _ _ tid t HT) as [-> ->]; [by apply lookup_tickets_of|]. done.
Qed.

Lemma untouched_slot db id b s : b_state b ∈ [PENDING; BLOCKED_BUDGET] → s ∈ [PENDING; BLOCKED_BUDGET] →
  coherent db → bundles db !! id = Some b → slot_ok (Some (set_state s b)) (res_of id db) (tickets_of id db).
Proof.
  intros Hb Hs Hco Hid. pose proof (co_slots _ Hco id) as H. rewrite Hid in H.
  apply bundle_ok_state_block in H; [|done]. cbn. unfold bundle_ok. cbn. destruct s; set_solver.
Qed.

Lemma open_not_superseded (l : list ConfirmationState) s : SUPERSEDED ∉ l → s ∈ l → s ≠ SUPERSEDED.
Proof. by intros H Hs ->. Qed.

Lemma coherent_lineage db id b b' : coherent db → bundles db !! id = Some b → b_state b ≠ SUPERSEDED →
  (∀ o, same_lineage b' o = same_lineage b o ∧ same_lineage o b' = same_lineage o b) →
  b_generation b' = b_generation b →
  ∀ i j x y, <[id := b']> (bundles db) !! i = Some x → <[id := b']> (bundles db) !! j = Some y →
    same_lineage x y = true →
    (b_generation x = b_generation y → i = j) ∧ (b_generation x < b_generation y → b_state x = SUPERSEDED).
Proof. intros Hco. intros. eapply lineage_update; [apply Hco|done..]. Qed.

Lemma coherent_open_day db day : coherent db → days db !! day = None →
  coherent (with_days (<[day := empty_day]> (days db)) db).
Proof.
  intros [Hs Hd Hl Hsub Hc] Hday. split; [done| |done|done|].
  - intros day'. cbn. change (day_rows day' (with_days _ db)) with (day_rows day' db).
    destruct (decide (day = day')) as [<-|Hne]; [|rewrite lookup_insert_ne by done; apply Hd].
    rewrite lookup_insert_eq. specialize (Hd day). rewrite Hday in Hd. cbn in Hd. rewrite Hd. apply day_ok_open.
  - intros day'. unfold commitment, attempts. cbn.
    destruct (decide (day = day')) as [<-|Hne]; [|rewrite lookup_insert_ne by done; apply Hc].
    by rewrite lookup_insert_eq.
Qed.

Lemma coherent_create db id b : coherent db → bundles db !! id = None → b_state b = PENDING →
  b_completion b = None →
  (∀ j o, bundles db !! j = Some o → same_lineage o b = true →
     b_generation o < b_generation b ∧ b_state o = SUPERSEDED) →
  coherent (with_bundles (<[id := b]> (bundles db)) db).
Proof.
  intros Hco Hid Hst Hcomp Hlin. apply coherent_bundle; [done| | |by rewrite Hid].
  - pose proof (co_slots _ Hco id) as H. rewrite Hid in H. destruct H as [HR HT].
    unfold slot_ok, bundle_ok. by rewrite Hst.
  - intros i j x y [[<- <-]|[Hi Hx]]%lookup_insert_Some [[<- <-]|[Hj Hy]]%lookup_insert_Some Hsame.
    + split; [done|lia].
    + rewrite same_lineage_sym in Hsame. destruct (Hlin j y Hy Hsame). lia.
    + destruct (Hlin i x Hx Hsame). split; [lia|done].
    + by apply (co_lineage _ Hco i j x y).
Qed.

Lemma coherent_retire db id b : coherent db → bundles db !! id = Some b →
  b_state b ∈ [PENDING; BLOCKED_BUDGET; FAILED; COMPLETED] → unconfirmed id db →
  coherent (with_bundles (<[id := set_state SUPERSEDED b]> (bundles db)) db).
Proof.
  intros Hco Hid Hst Hun. apply coherent_bundle; [done| | |done].
  - pose proof (co_slots _ Hco id) as H. rewrite Hid in H. unfold slot_ok, bundle_ok in *. cbn.
    destruct (b_state b); [set_solver|by left|by left| |by right; left|by right; right|]; set_solver.
  - eapply coherent_lineage; [done|done| |done|done]. eapply open_not_superseded; [|done]. set_solver.
Qed.

Lemma coherent_block db id b : coherent db → bundles db !! id = Some b → b_state b ∈ [PENDING; BLOCKED_BUDGET] →
  coherent (with_bundles (<[id := set_state BLOCKED_BUDGET b]> (bundles db)) db).
Proof.
  intros Hco Hid Hst. apply coherent_bundle; [done| | |].
  - eapply untouched_slot; [done|set_solver|done|done].
  - eapply coherent_lineage; [done|done| |done|done]. eapply open_not_superseded; [|done]. set_solver.
  - intros b' Hb' E. simplify_eq. rewrite E in Hst. set_solver.
Qed.

Lemma settings_caps s : validate_settings s = Ok tt →
  ps_daily_bundle_cap s <= MAX_DAILY_BUNDLE_CAP ∧ ps_daily_dollar_cap_microusd s <= MAX_DAILY_DOLLAR_MICROUSD.
Proof.
  unfold validate_settings. intros (u & Hf%fields_Ok & _)%bind_Ok. do 2 apply Forall_inv_tail in Hf.
  pose proof (Forall_inv Hf) as H1. apply Forall_inv_tail in Hf. apply Forall_inv in Hf.
  cbn in H1, Hf. unfold in_range in *. bool_to_prop. done.
Qed.

Lemma coherent_lease db id b d rid r tid t rev row :
  coherent db → bundles db !! id = Some b → b_state b ∈ [PENDING; BLOCKED_BUDGET] →
  days db !! r_day r = Some d → reservations db !! rid = None → tickets db !! tid = None →
  r_bundle r = id → t_bundle t = id → r_settlement r = None → t_status t = issued → lease_ok b r t →
  latest_settings db = Some (rev, row) → validate_settings (sr_settings row) = Ok tt →
  d_issued d + 1 <= ps_daily_bundle_cap (sr_settings row) →
  d_outstanding d + d_settled d + r_reserved r <= ps_daily_dollar_cap_microusd (sr_settings row) →
  coherent (with_tickets (<[tid := t]> (tickets db))
        (with_days (<[r_day r := charge d (r_reserved r)]> (days db))
        (with_reservations (<[rid := r]> (reservations db))
        (with_bundles (<[id := set_state LEASED b]> (bundles db)) db)))).
Proof.
  intros Hco Hid Hst Hday Hrid Htid Hrb Htb Hset Hiss Hlease Hrow [Hv1 Hv2]%settings_caps Hcap1 Hcap2.
  pose proof (co_slots _ Hco id) as H. rewrite Hid in H.
  apply bundle_ok_state_block in H as (HR & HT & Hcomp); [|done].
  apply coherent_attempt; [done|by rewrite Hrid|by rewrite Htid|done|done| | | | | |].
  - rewrite HR, HT. cbn. split; [done|]. exists rid, r, tid, t. by rewrite !insert_empty.
  - apply day_ok_charge; [|done|].
    + apply map_lookup_filter_None. by left.
    + pose proof (co_days _ Hco (r_day r)) as Hd. by rewrite Hday in Hd.
  - cbn. lia.
  - cbn. lia.
  - eapply coherent_lineage; [done|done| |done|done]. eapply open_not_superseded; [|done]. set_solver.
  - intros b' Hb' E. simplify_eq. rewrite E in Hst. set_solver.
Qed.

(** Settling the running attempt of a bundle. *)
Lemma coherent_settle db id b b' d rid r tid t st t' :
  coherent db → bundles db !! id = Some b → b_state b = LEASED → days db !! r_day r = Some d →
  reservations db !! rid = Some r → tickets db !! tid = Some t → r_bundle r = id → t_bundle t = id →
  se_actual st <= r_reserved r → t_bundle t' = id →
  (lease_ok b r t → b_completion b = None →
     slot_ok (Some b') {[rid := set_settlement st r]} {[tid := t']}) →
  (∀ o, same_lineage b' o = same_lineage b o ∧ same_lineage o b' = same_lineage o b) →
  b_generation b' = b_generation b →
  coherent (with_tickets (<[tid := t']> (tickets db))
        (with_days (<[r_day r := discharge d (r_reserved r) (se_actual st)]> (days db))
        (with_reservations (<[rid := set_settlement st r]> (reservations db))
        (with_bundles (<[id := b']> (bundles db)) db)))).
Proof.
  intros Hco Hid Hst Hday Hr Ht Hrb Htb Ha Htb' Hslot Hsame Hgen.
  pose proof (co_slots _ Hco id) as H. rewrite Hid in H.
  destruct (running_rows _ _ _ _ _ _ _ H Hst Hr Ht Hrb Htb) as (HR & HT & Hlease & Hopen & Hiss & Hcomp).
  pose proof (co_caps _ Hco (r_day r)) as Hc. unfold commitment, attempts in Hc. rewrite Hday in Hc.
  apply (coherent_attempt db id b' _ rid (set_settlement st r)); try done.
  - rewrite Hr. by intros ? [= <-].
  - rewrite Ht. intros ? [= <-]. by rewrite Htb, Htb'.
  - rewrite HR, HT, !insert_singleton_eq. by apply Hslot.
  - apply day_ok_discharge; [by apply lookup_day_rows|done|].
    pose proof (co_days _ Hco (r_day r)) as Hd. by rewrite Hday in Hd.
  - cbn. lia.
  - cbn. lia.
  - eapply coherent_lineage; [done|done|by rewrite Hst|done|done].
  - intros b0 Hb0 E. simplify_eq. by rewrite E in Hst.
Qed.

Lemma move_coherent db db' : coherent db → move db db' → coherent db'.
Proof.
  intros Hco Hm. destruct Hm as [day Hday|id a|id b Hid Hst Hcomp Hlin Hv|id b Hid Hst Hun Hv|
    id b Hid Hst Hv|id b d rid r tid t rev row|
    id b d rid r tid t st t' Hid Hst Hday Hr Ht Hrb Htb Hf Ha Htb' Htst Hta Htis Htd _ _ _|
    id b d rid r tid t st c dims Hid Hst Hday Hr Ht Hrb Htb Hf Ha Hct Hev _ _ _|key s Hsok].
  - by apply coherent_open_day.
  - by destruct Hco; split.
  - by apply coherent_create.
  - by apply coherent_retire.
  - by apply coherent_block.
  - by eapply coherent_lease.
  - eapply coherent_settle; try done; [by rewrite Ha|]. intros (?&?&?&?&?&?) Hcomp. split; [done|].
    exists rid, (set_settlement st r), tid, t'. split_and!; [done|done| |done|by exists st].
    unfold lease_ok. by rewrite Hta, Htis, Htd.
  - enough (coherent (with_tickets (<[tid := set_scored t]> (tickets db))
        (with_days (<[r_day r := discharge d (r_reserved r) (se_actual st)]> (days db))
        (with_reservations (<[rid := set_settlement st r]> (reservations db))
        (with_bundles (<[id := set_completed c b]> (bundles db)) db))))) as H.
    { destruct H as [H1 H2 H3 H4 H5]. split; [exact H1|exact H2|exact H3|exact H4|exact H5]. }
    eapply coherent_settle; try done. intros Hlease Hcomp. exists c. split; [done|]. exists rid, (set_settlement st r), tid, (set_scored t).
    split_and!; [done..|]. by exists st.
  - destruct Hco as [Hs Hd Hl Hsub Hc]. split; [done|done|done| |done]. intros key' s'. cbn.
    intros [[<- <-]|[_ Hk]]%lookup_insert_Some; [exact Hsok|by apply Hsub].
Qed.

(** Every stored row satisfies its CHECK constraints. *)
Record valid_rows (db : Db) : Prop := {
  va_bundles : map_Forall (λ _ b, holds (bundle_checks b)) (bundles db);
  va_tickets : map_Forall (λ _ t, holds (ticket_checks t)) (tickets db);
  va_reservations : map_Forall (λ _ r, holds (reservation_checks r)) (reservations db)
}.

Lemma move_valid db db' : valid_rows db → move db db' → valid_rows db'.
Proof. intros [Hb Ht Hr] []; split; cbn; try done; by apply map_Forall_insert_2. Qed.

Lemma moves_valid db db' : valid_rows db → rtc move db db' → valid_rows db'.
Proof. intros Hv Hm. induction Hm; [done|]. eauto using move_valid. Qed.

Lemma moves_coherent db db' : coherent db → rtc move db db' → coherent db'.
Proof. intros Hco Hm. induction Hm; [done|]. eauto using move_coherent. Qed.
End invariant.
