(* ===== verification/ConfirmationMoves.v ===== *)
(** Every transaction of the confirmation lane is a sequence of moves.

    The writes of an operation are read back from its successful run, and
    grouped into the moves of [ConfirmationInvariant]. *)
From Stdlib Require Import ZArith Lia.
From stdpp Require Import base gmap list strings relations.
From S2P Require Import Prelude Binary64 PyText ConfirmationPolicy ConfirmationReport ConfirmationEvidence ConfirmationEvidenceFacts ConfirmationStore ConfirmationLane ConfirmationService ConfirmationInvariant.

#[local] Open Scope string_scope.
#[local] Open Scope Z_scope.

(** * Rows and constraints *)

Lemma constraints_Ok checks u : constraints checks = Ok u → Forall (λ c, c.1 = true) checks.
Proof.
  revert u. induction checks as [|[ok name] checks IH]; intros u; [by constructor|].
  unfold constraints. cbn [foldr]. intros ([] & H%require_Ok & H')%bind_Ok. constructor; [done|].
  by eapply IH.
Qed.

Lemma persist_Ok ok msg u : persist ok msg = Ok u → ok = true.
Proof. apply require_Ok. Qed.
Lemma some_or_Ok {A} (x : option A) msg a : some_or x msg = Ok a → x = Some a.
Proof. destruct x; [by intros [= ->]|done]. Qed.
Lemma as_persistence_Ok {A} (r : result A) a : as_persistence r = Ok a → r = Ok a.
Proof. destruct r as [|[]]; cbn; congruence. Qed.
Lemma replay_error_Ok {A} msg (r : result A) a : replay_error msg r = Ok a → r = Ok a.
Proof. destruct r; cbn; congruence. Qed.

Section rows.
Context {K A : Type} `{Countable K}.
Implicit Types (p : K → A → bool) (m : gmap K A).

Lemma find_row_Some p m k x : find_row p m = Some (k, x) → m !! k = Some x ∧ p k x = true.
Proof.
  unfold find_row. intros E. assert ((k, x) ∈ filter (λ kv, p kv.1 kv.2 = true) (map_to_list m)) as Hin.
  { destruct (filter _ _) as [|kv l] eqn:El; [done|]. injection E as ->. left. }
  apply list_elem_of_filter in Hin as [Hp Hin%elem_of_map_to_list]. done.
Qed.
Lemma find_row_None p m k x : find_row p m = None → m !! k = Some x → p k x = false.
Proof.
  unfold find_row. intros E Hx. destruct (p k x) eqn:Ep; [|done].
  assert ((k, x) ∈ filter (λ kv, p kv.1 kv.2 = true) (map_to_list m)) as Hin.
  { apply list_elem_of_filter. split; [done|]. by apply elem_of_map_to_list. }
  destruct (filter _ _); [by apply elem_of_nil in Hin|done].
Qed.
Lemma exists_row_false p m k x : exists_row p m = false → m !! k = Some x → p k x = false.
Proof.
  intros E Hx. destruct (p k x) eqn:Ep; [|done]. rewrite <- E. symmetry. apply existsb_exists.
  exists (k, x). split; [|done]. by apply list_elem_of_In, elem_of_map_to_list.
Qed.
End rows.

(** Peels guards of the lane's kinds off a successful run. *)
Ltac peel H :=
  let u := fresh "u" in let G := fresh "G" in
  lazymatch type of H with (_ ≫= _) = Ok _ => apply bind_Ok in H as (u & G & H) end;
  lazymatch type of G with
  | persist _ _ = Ok _ => apply persist_Ok in G
  | some_or _ _ = Ok _ => apply some_or_Ok in G
  | constraint _ _ = Ok _ => apply require_Ok in G
  | constraints _ = Ok _ => apply constraints_Ok in G
  | require _ _ = Ok _ => apply require_Ok in G
  | as_persistence _ = Ok _ => apply as_persistence_Ok in G
  | _ => idtac
  end.

(** * What each write does *)

Lemma update_bundle_Ok id old new db db' : update_bundle id old new db = Ok db' →
  transition_allowed (b_state old) (b_state new) = true ∧ db' = with_bundles (<[id := new]> (bundles db)) db ∧
  holds (bundle_checks new).
Proof. unfold update_bundle. intros H. peel H. peel H. peel H. by injection H as <-. Qed.

Lemma insert_bundle_Ok id b db db' : insert_bundle id b db = Ok db' →
  bundles db !! id = None ∧ db' = with_bundles (<[id := b]> (bundles db)) db ∧ holds (bundle_checks b).
Proof.
  unfold insert_bundle. intros H. peel H. peel H. injection H as <-. apply Forall_inv in G0. cbn in G0.
  by destruct (bundles db !! id).
Qed.

Lemma put_subject_Ok key s db db' : put_subject key s db = Ok db' →
  db' = with_subjects (<[key := s]> (subjects db)) db ∧
  (result_status (s_result s) = full_confirmed → full_authority key.2 s db = true).
Proof.
  unfold put_subject. intros H. peel H. injection H as <-. split; [done|]. intros Hf.
  apply Forall_inv_tail, Forall_inv in G. cbn in G. by rewrite Hf in G.
Qed.

Lemma insert_ticket_Ok id t db db' : insert_ticket id t db = Ok db' →
  tickets db !! id = None ∧ db' = with_tickets (<[id := t]> (tickets db)) db ∧ holds (ticket_checks t).
Proof.
  unfold insert_ticket. intros H. peel H. peel H. injection H as <-. apply Forall_inv in G0. cbn in G0.
  by destruct (tickets db !! id).
Qed.
Lemma update_ticket_Ok id t db db' : update_ticket id t db = Ok db' →
  db' = with_tickets (<[id := t]> (tickets db)) db ∧ holds (ticket_checks t).
Proof. unfold update_ticket. intros H. peel H. by injection H as <-. Qed.

Lemma insert_reservation_Ok id r db db' : insert_reservation id r db = Ok db' →
  reservations db !! id = None ∧ db' = with_reservations (<[id := r]> (reservations db)) db ∧
  holds (reservation_checks r).
Proof.
  unfold insert_reservation. intros H. peel H. peel H. injection H as <-. apply Forall_inv in G0. cbn in G0.
  by destruct (reservations db !! id).
Qed.
Lemma update_reservation_Ok id r db db' : update_reservation id r db = Ok db' →
  db' = with_reservations (<[id := r]> (reservations db)) db ∧ holds (reservation_checks r).
Proof. unfold update_reservation. intros H. peel H. by injection H as <-. Qed.
Lemma put_day_Ok day d db db' : put_day day d db = Ok db' → db' = with_days (<[day := d]> (days db)) db.
Proof. unfold put_day. intros H. peel H. by injection H as <-. Qed.
Lemma insert_authorization_Ok id a db db' : insert_authorization id a db = Ok db' →
  db' = with_authorizations (<[id := a]> (authorizations db)) db.
Proof. unfold insert_authorization. intros H. peel H. by injection H as <-. Qed.
Lemma insert_dimension_Ok b name r db db' : insert_dimension b name r db = Ok db' →
  db' = with_dimension_rows (<[(b, name) := r]> (dimension_rows db)) db.
Proof. unfold insert_dimension. intros H. peel H. by injection H as <-. Qed.

Lemma full_authority_spec version s db : full_authority version s db = true →
  ∃ i b c, s_bundle s = Some i ∧ bundles db !! i = Some b ∧ b_artifact b = s_artifact s ∧ b_version b = version ∧
    b_state b = COMPLETED ∧ b_completion b = Some c ∧ co_qualified c = true.
Proof.
  unfold full_authority. destruct (s_bundle s) as [i|]; [|done]. cbn.
  destruct (bundles db !! i) as [b|] eqn:Hb; [|done]. intros H. bool_to_prop.
  destruct (b_completion b) as [c|] eqn:Hc; [|done]. bool_to_prop.
  exists i, b, c. split_and!; try done. by apply String.eqb_eq.
Qed.

(** The latest settings are a row of the table. *)
Lemma fold_latest_elem {A} (better : A → A → bool) (l : list A) x :
  foldr (λ kv acc, match acc with Some best => if better best kv then Some kv else acc | None => Some kv end)
    None l = Some x → x ∈ l.
Proof.
  revert x. induction l as [|a l IH]; intros x; [done|]. cbn.
  destruct (foldr _ None l) as [best|]; [destruct (better best a)|]; intros [= <-]; [left|right; by apply IH|left].
Qed.
Lemma fold_latest_None {A} (better : A → A → bool) (l : list A) :
  foldr (λ kv acc, match acc with Some best => if better best kv then Some kv else acc | None => Some kv end)
    None l = None → l = [].
Proof. destruct l as [|a l]; [done|]. cbn. destruct (foldr _ None l) as [b|]; [destruct (better b a)|]; done. Qed.
Lemma fold_latest_max {A} (key : A → Z) (l : list A) x y :
  foldr (λ kv acc, match acc with Some best => if key best <? key kv then Some kv else acc | None => Some kv end)
    None l = Some x → y ∈ l → key y <= key x.
Proof.
  revert x. induction l as [|a l IH]; intros x; [done|]. cbn.
  destruct (foldr _ None l) as [best|] eqn:E.
  - intros Hx [->|Hy]%elem_of_cons.
    + destruct (Z.ltb_spec (key best) (key a)); injection Hx as <-; lia.
    + specialize (IH best eq_refl Hy). destruct (Z.ltb_spec (key best) (key a)); injection Hx as <-; lia.
  - intros [= <-] [->|Hy]%elem_of_cons; [lia|]. apply (fold_latest_None (λ b k, key b <? key k)) in E. subst.
    by apply elem_of_nil in Hy.
Qed.

Lemma latest_settings_row db rev row : latest_settings db = Some (rev, row) → settings_rows db !! rev = Some row.
Proof.
  unfold latest_settings. intros H. apply (fold_latest_elem (λ best kv, best.1 <? kv.1)) in H.
  by apply elem_of_map_to_list in H.
Qed.

Definition in_lineage (artifact : string) (version : Z) (rev sum : string) (b : Bundle) : Prop :=
  b_artifact b = artifact ∧ b_version b = version ∧ b_profile_revision b = rev ∧ b_profile_checksum b = sum.

Lemma in_lineage_bool artifact version rev sum b :
  String.eqb (b_artifact b) artifact && (b_version b =? version) && String.eqb (b_profile_revision b) rev &&
  String.eqb (b_profile_checksum b) sum = true ↔ in_lineage artifact version rev sum b.
Proof. unfold in_lineage. rewrite !andb_true_iff, !String.eqb_eq, Z.eqb_eq. tauto. Qed.

Lemma latest_generation_Some artifact version rev sum db id b :
  latest_generation artifact version rev sum db = Some (id, b) →
  bundles db !! id = Some b ∧ in_lineage artifact version rev sum b ∧
  ∀ j o, bundles db !! j = Some o → in_lineage artifact version rev sum o → b_generation o <= b_generation b.
Proof.
  unfold latest_generation. intros H.
  pose proof (fold_latest_elem (λ best kv, b_generation best.2 <? b_generation kv.2) _ _ H) as Hin.
  apply list_elem_of_filter in Hin as [Hl%in_lineage_bool Hin%elem_of_map_to_list]. split_and!; [done|done|].
  intros j o Hj Ho. apply (fold_latest_max (λ kv, b_generation kv.2) _ _ (j, o)) in H; [done|].
  apply list_elem_of_filter. split; [by apply in_lineage_bool|by apply elem_of_map_to_list].
Qed.
Lemma latest_generation_None artifact version rev sum db j o :
  latest_generation artifact version rev sum db = None → bundles db !! j = Some o →
  ¬ in_lineage artifact version rev sum o.
Proof.
  unfold latest_generation. intros H%(fold_latest_None (λ best kv, b_generation best.2 <? b_generation kv.2)) Hj Ho.
  assert ((j, o) ∈ filter (λ kv : Z * Bundle, String.eqb (b_artifact kv.2) artifact && (b_version kv.2 =? version) &&
    String.eqb (b_profile_revision kv.2) rev && String.eqb (b_profile_checksum kv.2) sum = true)
    (map_to_list (bundles db))) as Hin; [|rewrite H in Hin; by apply elem_of_nil in Hin].
  apply list_elem_of_filter. split; [by apply in_lineage_bool|by apply elem_of_map_to_list].
Qed.

Lemma lineage_in a b : same_lineage a b = true ↔
  in_lineage (b_artifact b) (b_version b) (b_profile_revision b) (b_profile_checksum b) a.
Proof. apply in_lineage_bool. Qed.

(** * Subjects and resolution *)

Section moves.
Context {SH : Sha256} {KP : Keypair} {LM : Libm} (registry : Registry).
#[local] Notation moves := (rtc (move registry)).
#[local] Notation coherent := (coherent registry).

Lemma one_move db db' : move registry db db' → moves db db'.
Proof. apply rtc_once. Qed.
Hint Resolve one_move : core.

(** What a full confirmation must be computed from. *)
Definition computed (s : Subject) (db : Db) : Prop :=
  result_status (s_result s) = full_confirmed →
  ∀ i b c, s_bundle s = Some i → bundles db !! i = Some b → b_completion b = Some c →
  ∃ p v, registry (b_profile_revision b) (b_profile_checksum b) = Some p ∧
    rebuild_confirmation_evidence (replay_report (co_root c) (co_signature c)) (identity_of b (co_mode c)) p = Ok v ∧
    compute_subject_projection ENFORCE (s_quality s) (s_stderr s) (s_model s) (s_tool s) v (composite p)
      = Ok (s_result s).

Lemma put_subject_move key s db db' : put_subject key s db = Ok db' → computed s db → moves db db'.
Proof.
  intros [-> Hauth]%put_subject_Ok Hc. apply one_move, MSubject. intros Hf.
  destruct (full_authority_spec _ _ _ (Hauth Hf)) as (i & b & c & Hi & Hb & Ha & Hv & Hst & Hco & Hq).
  destruct (Hc Hf i b c Hi Hb Hco) as (p & v & H1 & H2 & H3). exists i, b, c, p, v. by split_and!.
Qed.

Lemma computed_unconfirmed s db : result_status (s_result s) ≠ full_confirmed → computed s db.
Proof. by intros H Hf. Qed.

Lemma record_base_moves agent version p db db' s :
  record_base_only_subject agent version p db = Ok (db', s) → moves db db'.
Proof.
  unfold record_base_only_subject. intros H. peel H. peel H. peel H.
  assert (∀ row : Subject, result_status (s_result row) = base_only →
    (put_subject (agent, version) row db ≫= λ db0, Ok (db0, row)) = Ok (db', s) → moves db db') as Hput.
  { intros row Hr H'. apply bind_Ok in H' as (db0 & H0 & [= <- <-]). eapply put_subject_move; [exact H0|].
    apply computed_unconfirmed. by rewrite Hr. }
  destruct (subjects db !! (agent, version)) as [old|]; [destruct (is_None (s_bundle old))|];
    [by apply Hput in H| |by apply Hput in H].
  peel H. injection H as <- <-. done.
Qed.

(** The projection of a status other than full confirmation is not one, and
    full confirmation is the projection of enforce mode. *)
Lemma projection_enforced m bq bs mf tf v c r :
  compute_subject_projection m bq bs mf tf v c = Ok r → result_status r = full_confirmed → m = ENFORCE.
Proof.
  unfold compute_subject_projection. intros H. passed_all H.
  destruct (negb (ablations_complete v)); [by injection H as <-|]. cbn zeta in H. passed_all H.
  injection H as <-. cbn. intros Hf. case_bool_decide; [done|discriminate Hf].
Qed.

Lemma apply_projection_Ok s v m p s' : _apply_projection s v m p = Ok s' →
  ∃ r, s' = set_result r s ∧
    compute_subject_projection m (s_quality s) (s_stderr s) (s_model s) (s_tool s) v (composite p) = Ok r.
Proof. unfold _apply_projection. intros H. peel H. injection H as <-. by exists u. Qed.

Lemma replay_stored_Ok b p v m : _replay_stored_bundle b p = Ok (v, m) →
  ∃ c, b_completion b = Some c ∧ m = co_mode c ∧
    rebuild_confirmation_evidence (replay_report (co_root c) (co_signature c)) (identity_of b (co_mode c)) p = Ok v.
Proof.
  unfold _replay_stored_bundle. intros H. peel H. apply bind_Ok in H as (v' & Hv%replay_error_Ok & H).
  peel Hv. peel Hv. peel H. injection H as <- <-. by exists u.
Qed.

(** A projection of replayed evidence, in the mode of the completion or in that
    of the day, is computed. *)
Lemma replayed_computed db i b p v m m' r s :
  bundles db !! i = Some b → s_bundle s = Some i →
  registry (b_profile_revision b) (b_profile_checksum b) = Some p → _replay_stored_bundle b p = Ok (v, m) →
  compute_subject_projection m' (s_quality s) (s_stderr s) (s_model s) (s_tool s) v (composite p) = Ok r →
  computed (set_result r s) db.
Proof.
  intros Hb Hi Hp (c & Hc & -> & Hv)%replay_stored_Ok Hr Hf i' b' c' Hi' Hb' Hc'. cbn in *. simplify_eq.
  exists p, v. split_and!; [done|done|]. by rewrite <- (projection_enforced _ _ _ _ _ _ _ _ Hr Hf).
Qed.

Lemma unconfirmed_open db id b : coherent db → bundles db !! id = Some b → b_state b ≠ COMPLETED → unconfirmed id db.
Proof.
  intros Hco Hid Hst key s Hs Hb Hf. destruct (co_subjects _ _ Hco _ _ Hs Hf) as (i & b' & c & p & v & Hi & Hb' & H).
  simplify_eq. naive_solver.
Qed.

Lemma open_not_completed b : b_state b ∈ [PENDING; BLOCKED_BUDGET] → b_state b ≠ COMPLETED.
Proof. intros H E. rewrite E in H. set_solver. Qed.
Lemma open_retirable b : b_state b ∈ [PENDING; BLOCKED_BUDGET] →
  b_state b ∈ [PENDING; BLOCKED_BUDGET; FAILED; COMPLETED].
Proof. set_solver. Qed.

Lemma supersede_moves id b rev sum new_id now db db' r :
  coherent db → latest_generation (b_artifact b) (b_version b) (b_profile_revision b) (b_profile_checksum b) db
    = Some (id, b) →
  _supersede_unspent_bundle_for_settings id b rev sum new_id now db = Ok (db', r) →
  moves db db' ∧ bundles db' !! r.1 = Some r.2 ∧ same_lineage r.2 b = true.
Proof.
  intros Hco Hl. destruct (latest_generation_Some _ _ _ _ _ _ _ Hl) as (Hid & _ & Hmax).
  unfold _supersede_unspent_bundle_for_settings.
  assert (same_lineage b b = true) as Hrefl by by apply lineage_in.
  destruct (bool_decide (b_state b ∈ [PENDING; BLOCKED_BUDGET])) eqn:Hst; cbn [negb];
    [|by intros [= <- <-]]. apply bool_decide_eq_true in Hst.
  destruct (has_dimension id db); [by intros [= <- <-]|].
  destruct (has_ticket id db || has_reservation id db); [by intros [= <- <-]|].
  intros (db1 & (_ & -> & Hv1)%update_bundle_Ok & H)%bind_Ok.
  apply bind_Ok in H as (db2 & (Hnew & -> & Hv2)%insert_bundle_Ok & [= <- <-]).
  cbn [fst snd]. set (nb := Build_Bundle _ _ _ _ _ _ _ _ _ _ _ _ _).
  split; [|split; [by apply lookup_insert_eq|exact Hrefl]].
  etrans.
  - apply one_move, (MRetire _ _ id b); [done|by apply open_retirable| |done].
    eapply unconfirmed_open; [done..|by apply open_not_completed].
  - apply one_move, MCreate; [done|done|done| |done].
    intros j o Hj Hsame. cbn in Hj. change (same_lineage o b = true) in Hsame. cbn [b_generation nb].
    apply lookup_insert_Some in Hj as [[<- <-]|[Hne Hj]]; [split; [cbn; lia|done]|].
    pose proof (Hmax j o Hj (proj1 (lineage_in o b) Hsame)) as Hle. split; [cbn; lia|].
    destruct (co_lineage _ _ Hco j id o b Hj Hid Hsame) as [Heq Hlt].
    destruct (decide (b_generation o = b_generation b)) as [E|E]; [by destruct Hne; symmetry; apply Heq|].
    apply Hlt. lia.
Qed.

Lemma resolve_moves artifact version rev sum srev ssum new_id now db db' id b :
  coherent db → resolve_bundle artifact version rev sum srev ssum new_id now db = Ok (db', (id, b)) →
  moves db db' ∧ bundles db' !! id = Some b ∧ in_lineage artifact version rev sum b.
Proof.
  intros Hco. unfold resolve_bundle.
  destruct (latest_generation artifact version rev sum db) as [[id0 b0]|] eqn:Hl.
  - pose proof (latest_generation_Some _ _ _ _ _ _ _ Hl) as (Hb0 & Hin & _).
    destruct (_ || _); [|by intros [= <- <- <-]]. intros H. destruct Hin as (<- & <- & <- & <-).
    apply supersede_moves in H as (Hm & Hb & Hsame); [|done|done]. cbn in *. split_and!; [done|done|].
    by apply lineage_in.
  - intros (db1 & (Hnew & -> & Hv)%insert_bundle_Ok & [= <- <- <-])%bind_Ok. cbn.
    split; [|split; [by rewrite lookup_insert_eq|done]]. apply one_move.
    apply MCreate; [done|done|done| |done]. intros j o Hj Hsame%lineage_in.
    by destruct (latest_generation_None _ _ _ _ _ _ _ Hl Hj).
Qed.

Lemma get_or_create_moves agent version proof srev s p new_id now db db' r :
  coherent db →
  (∀ rev sum, ps_profile_revision s = Some rev → ps_profile_checksum s = Some sum → registry rev sum = Some p) →
  get_or_create_confirmation_bundle agent version proof srev s (Some p) new_id now db = Ok (db', r) →
  moves db db' ∧ ∀ i b, res_bundle r = Some (i, b) → bundles db' !! i = Some b ∧ s_bundle (res_subject r) = Some i ∧
    registry (b_profile_revision b) (b_profile_checksum b) = Some p.
Proof.
  intros Hco Hreg. unfold get_or_create_confirmation_bundle. case_bool_decide.
  { intros ([db1 row] & Hb & [= <- <-])%bind_Ok. split; [by eapply record_base_moves|done]. }
  intros Hrun. peel Hrun. apply bind_Ok in Hrun as ([[rev sum] p'] & Hp & Hrun).
  assert (ps_profile_revision s = Some rev ∧ ps_profile_checksum s = Some sum ∧ p' = p) as (Hrev & Hsum & ->).
  { unfold configured_profile in Hp. destruct (ps_profile_revision s), (ps_profile_checksum s); try done.
    cbn in Hp. peel Hp. peel Hp. by injection Hp as <- <- <-. }
  do 4 peel Hrun. apply bind_Ok in Hrun as ([db1 [id b]] & Hres & Hrun).
  apply resolve_moves in Hres as (Hm & Hb & (Ha & Hv & Hpr & Hpc)); [|done]. peel Hrun.
  set (row := new_subject _ _ _ _) in *.
  assert (registry (b_profile_revision b) (b_profile_checksum b) = Some p) as Hregb by (rewrite Hpr, Hpc; by apply Hreg).
  apply bind_Ok in Hrun as (row' & Hrow & Hrun). peel Hrun. injection Hrun as <- <-.
  assert (s_bundle row' = Some id ∧ computed row' db1) as [Hrid Hcomp].
  { case_bool_decide; [|injection Hrow as <-; split; [done|by apply computed_unconfirmed]].
    apply bind_Ok in Hrow as ([v m] & Hv' & Hrow). apply apply_projection_Ok in Hrow as (pr & -> & Hpr').
    split; [done|]. by eapply replayed_computed. }
  split; [etrans; [exact Hm|by eapply put_subject_move]|].
  cbn. intros i b' [= <- <-]. split_and!; [|done|done].
  match goal with H : put_subject _ _ _ = Ok _ |- _ => by apply put_subject_Ok in H as [-> _] end.
Qed.
End moves.
