(* ===== verification/ConfirmationSteps.v ===== *)
(** Every transaction of the confirmation lane keeps its tables coherent.

    What a reservation, a settlement, a completion and a retest write is read
    back from the successful run and grouped into moves; [execute_coherent]
    puts the transactions together. *)
From Stdlib Require Import ZArith Lia.
From stdpp Require Import base gmap list strings relations.
From S2P Require Import Prelude Binary64 PyText ConfirmationPolicy ConfirmationReport ConfirmationEvidence ConfirmationEvidenceFacts ConfirmationStore ConfirmationLane ConfirmationService ConfirmationInvariant ConfirmationMoves.

#[local] Open Scope string_scope.
#[local] Open Scope Z_scope.

Section steps.
Context {SH : Sha256} {KP : Keypair} {LM : Libm} (registry : Registry).
#[local] Notation moves := (rtc (move registry)).
#[local] Notation coherent := (coherent registry).

Lemma moves_settings db db' : moves db db' → settings_rows db' = settings_rows db.
Proof. induction 1 as [|x y z Hm _ IH]; [done|]. rewrite IH. by destruct Hm. Qed.
Lemma latest_settings_same db db' : settings_rows db' = settings_rows db → latest_settings db' = latest_settings db.
Proof. unfold latest_settings. by intros ->. Qed.

Lemma utc_day_Ok now day : _utc_day now = Ok day → ∃ i, now = Aware i ∧ day = day_number i.
Proof. destruct now as [i|]; [|done]. intros [= <-]. by exists i. Qed.
Lemma aware_Ok now what i : aware_instant now what = Ok i → now = Aware i.
Proof. by destruct now as [j|]; [intros [= <-]|]. Qed.

Lemma registered_profile_Ok rev sum p : _registered_profile registry rev sum = Some p → registry rev sum = Some p.
Proof.
  unfold _registered_profile. destruct (registry rev sum) as [q|]; [|done]. destruct (_ && _); [|done]. by intros [= ->].
Qed.

(** * Attempts in a coherent store *)

Lemma slot_of db id b : coherent db → bundles db !! id = Some b → bundle_ok registry b (res_of id db) (tickets_of id db).
Proof. intros Hco Hb. pose proof (co_slots _ _ Hco id) as H. by rewrite Hb in H. Qed.

Lemma reservation_bundle db rid r : coherent db → reservations db !! rid = Some r →
  ∃ b, bundles db !! r_bundle r = Some b.
Proof.
  intros Hco Hr. pose proof (co_slots _ _ Hco (r_bundle r)) as H.
  destruct (bundles db !! r_bundle r) as [b|]; [by exists b|]. destruct H as [H _].
  apply (lookup_res_of (r_bundle r)) in Hr; [|done]. by rewrite H, lookup_empty in Hr.
Qed.

Lemma reservation_day db rid r : coherent db → reservations db !! rid = Some r → ∃ d, days db !! r_day r = Some d.
Proof.
  intros Hco Hr. pose proof (co_days _ _ Hco (r_day r)) as H.
  destruct (days db !! r_day r) as [d|]; [by exists d|].
  apply (lookup_day_rows (r_day r)) in Hr; [|done]. cbn in H. by rewrite H, lookup_empty in Hr.
Qed.

(** A bundle with a reservation went through an attempt. *)
Lemma reserved_attempt db rid r b : coherent db → reservations db !! rid = Some r →
  bundles db !! r_bundle r = Some b →
  ∃ tid t, res_of (r_bundle r) db = {[rid := r]} ∧ tickets_of (r_bundle r) db = {[tid := t]} ∧
    tickets db !! tid = Some t ∧ t_bundle t = r_bundle r ∧ lease_ok registry b r t ∧
    match r_settlement r with
    | None => b_state b = LEASED ∧ b_completion b = None ∧ t_status t = issued
    | Some st => b_state b ≠ LEASED ∧ t_status t ≠ issued
    end.
Proof.
  intros Hco Hr Hb. pose proof (slot_of _ _ _ Hco Hb) as H. apply (lookup_res_of (r_bundle r)) in Hr; [|done].
  assert (∀ Q, attempt registry b (res_of (r_bundle r) db) (tickets_of (r_bundle r) db) Q →
    ∃ tid t, res_of (r_bundle r) db = {[rid := r]} ∧ tickets_of (r_bundle r) db = {[tid := t]} ∧
      tickets db !! tid = Some t ∧ t_bundle t = r_bundle r ∧ lease_ok registry b r t ∧ Q r tid t) as Hat.
  { intros Q (rid' & r' & tid & t & HR & HT & Hl & HQ).
    destruct (singleton_row _ _ _ rid r HR Hr) as [-> ->].
    assert (tickets_of (r_bundle r') db !! tid = Some t) as Ht by (rewrite HT; by apply lookup_singleton_eq).
    apply map_lookup_filter_Some in Ht as [Ht Htb]. by exists tid, t. }
  assert (untouched b (res_of (r_bundle r) db) (tickets_of (r_bundle r) db) → False) as Hun.
  { intros (E & _). by rewrite E, lookup_empty in Hr. }
  assert (b_state b ≠ LEASED → broken registry b (res_of (r_bundle r) db) (tickets_of (r_bundle r) db) ∨
    done registry b (res_of (r_bundle r) db) (tickets_of (r_bundle r) db) →
    ∃ tid t, res_of (r_bundle r) db = {[rid := r]} ∧ tickets_of (r_bundle r) db = {[tid := t]} ∧
      tickets db !! tid = Some t ∧ t_bundle t = r_bundle r ∧ lease_ok registry b r t ∧
      match r_settlement r with
      | None => b_state b = LEASED ∧ b_completion b = None ∧ t_status t = issued
      | Some st => b_state b ≠ LEASED ∧ t_status t ≠ issued
      end) as Hclosed.
  { intros Hne [(_ & Ha)|(c & _ & Ha)]; apply Hat in Ha as (tid & t & ? & ? & ? & ? & ? & Hst & Hs);
      exists tid, t; split_and!; try done.
    - destruct Hs as (st & -> & _). by rewrite Hst.
    - destruct Hs as (_ & st & -> & _). by rewrite Hst. }
  unfold bundle_ok in H. destruct (b_state b) eqn:Hst; try (by destruct Hun); try (by destruct H);
    try (apply Hclosed; [done|tauto]).
  destruct H as [Hc Ha]. apply Hat in Ha as (tid & t & ? & ? & ? & ? & ? & Hs & Ht).
  exists tid, t. by rewrite Hs.
Qed.

(** The ticket of a bundle's only attempt is the one a lookup finds. *)
Lemma find_attempt db rid r b : coherent db → reservations db !! rid = Some r → bundles db !! r_bundle r = Some b →
  ∃ tid t, find_row (λ _ t, (t_bundle t =? r_bundle r) && (t_attempt t =? r_attempt r)) (tickets db) = Some (tid, t) ∧
    tickets_of (r_bundle r) db = {[tid := t]} ∧ tickets db !! tid = Some t ∧ t_bundle t = r_bundle r ∧
    lease_ok registry b r t.
Proof.
  intros Hco Hr Hb. destruct (reserved_attempt _ _ _ _ Hco Hr Hb) as (tid & t & _ & HT & Ht & Htb & Hl & _).
  exists tid, t. split; [|done]. destruct (find_row _ _) as [[k x]|] eqn:E.
  - apply find_row_Some in E as [Hk Hp]. bool_to_prop.
    destruct (singleton_row _ _ _ k x HT) as [-> ->]; [by apply lookup_tickets_of|done].
  - apply (find_row_None _ _ tid t) in E; [|done]. destruct Hl as (Ha & Hb' & _).
    cbn in E. by rewrite Htb, Ha, Hb', !Z.eqb_refl in E.
Qed.

(** * Leases *)

Lemma lock_day_moves day db db' d : lock_confirmation_budget_day day db = (db', d) →
  moves db db' ∧ days db' !! day = Some d ∧ bundles db' = bundles db ∧ settings_rows db' = settings_rows db.
Proof.
  unfold lock_confirmation_budget_day. destruct (days db !! day) as [d0|] eqn:E; intros [= <- <-]; [done|].
  split; [by apply rtc_once, MOpenDay|]. split; [by apply lookup_insert_eq|done].
Qed.

(** A reservation that is not a replay, on a locked day. *)
Definition reserved_store (rid day : Z) (r : Reservation) (d : BudgetDay) (id : Z) (b : Bundle) (db : Db) : Db :=
  let db1 := with_days (<[day := charge d (r_reserved r)]> (days db))
    (with_reservations (<[rid := r]> (reservations db)) db) in
  if bool_decide (b_state b = BLOCKED_BUDGET) then with_bundles (<[id := set_state PENDING b]> (bundles db)) db1 else db1.

Definition first_reservation (id day srev amount : Z) : Reservation :=
  {| r_bundle := id; r_attempt := 1; r_day := day; r_settings_revision := srev; r_reserved := amount;
     r_settlement := None |}.

Lemma reserve_cases id rid now expected srev s amount db db' out :
  reserve_confirmation_bundle_budget id rid now expected srev s amount db = Ok (db', out) →
  ∃ i db1 d b, now = Aware i ∧ lock_confirmation_budget_day (day_number i) db = (db1, d) ∧
    bundles db1 !! id = Some b ∧ 0 < amount ∧ d_revision d = expected ∧
    b_settings_revision b = srev ∧ b_settings_checksum b = _settings_checksum s ∧
    match out with
    | Replayed k r => k = rid ∧ db' = db1 ∧ reservations db1 !! rid = Some r ∧ r_bundle r = id
    | Blocked why => ps_mode s ≠ OFF ∧ blocked_reason d s amount = Some why ∧ b_state b ∈ [PENDING; BLOCKED_BUDGET] ∧ holds (bundle_checks (set_state BLOCKED_BUDGET b)) ∧
        db' = with_bundles (<[id := set_state BLOCKED_BUDGET b]> (bundles db1)) db1
    | Reserved k r => ps_mode s ≠ OFF ∧ k = rid ∧ r = first_reservation id (day_number i) srev amount ∧
        reservations db1 !! rid = None ∧ b_state b ∈ [PENDING; BLOCKED_BUDGET] ∧
        d_issued d + 1 <= ps_daily_bundle_cap s ∧ d_outstanding d + d_settled d + amount <= ps_daily_dollar_cap_microusd s ∧
        holds (reservation_checks r) ∧ db' = reserved_store rid (day_number i) r d id b db1
    end.
Proof.
  unfold reserve_confirmation_bundle_budget. intros H. peel H. peel H. apply bind_Ok in H as (day & Hd & H).
  apply utc_day_Ok in Hd as (i & -> & ->). destruct (lock_confirmation_budget_day _ _) as [db1 d] eqn:Hlock.
  apply bind_Ok in H as (? & Hrev%require_Ok & H). peel H. peel H. bool_to_prop.
  match goal with Hb : bundles db1 !! id = Some ?b |- _ => exists i, db1, d, b end.
  do 5 (split; [by first [done|lia]|]). split; [lia|]. split; [by apply String.eqb_eq|].
  destruct (reservations db1 !! rid) as [r|] eqn:Hr.
  { peel H. injection H as <- <-. bool_to_prop. split_and!; try done. }
  peel H. peel H. destruct (blocked_reason _ _ _) eqn:Hbl.
  { peel H. injection H as <- <-. bool_to_prop. do 3 (split; [done|]).
    match goal with E : update_bundle _ _ _ _ = Ok _ |- _ => by apply update_bundle_Ok in E as (_ & -> & ?) end. }
  apply bind_Ok in H as (db2 & (_ & -> & Hv)%insert_reservation_Ok & H).
  apply bind_Ok in H as (db3 & ->%put_day_Ok & H). apply bind_Ok in H as (db4 & Hup & [= <- <-]).
  unfold blocked_reason in Hbl. destruct (Z.ltb_spec (ps_daily_bundle_cap s) (d_issued d + 1)); [done|].
  destruct (Z.ltb_spec (ps_daily_dollar_cap_microusd s) (d_outstanding d + d_settled d + amount)); [done|].
  bool_to_prop. do 5 (split; [done|]). split; [lia|]. split; [lia|]. split; [done|]. unfold reserved_store. case_bool_decide.
  - by apply update_bundle_Ok in Hup as (_ & -> & _).
  - by injection Hup as <-.
Qed.

Lemma issue_reserved_moves id b d rid i srev amount hotkey slot new_ticket db db' out profile row rev :
  coherent db → bundles db !! id = Some b → b_state b ∈ [PENDING; BLOCKED_BUDGET] →
  days db !! day_number i = Some d → reservations db !! rid = None → 0 < amount →
  registry (b_profile_revision b) (b_profile_checksum b) = Some profile → amount = reserve_amount profile →
  latest_settings db = Some (rev, row) → validate_settings (sr_settings row) = Ok tt →
  d_issued d + 1 <= ps_daily_bundle_cap (sr_settings row) →
  d_outstanding d + d_settled d + amount <= ps_daily_dollar_cap_microusd (sr_settings row) →
  holds (reservation_checks (first_reservation id (day_number i) srev amount)) →
  issue_confirmation_bundle_ticket id rid hotkey slot (Aware i) new_ticket
    (reserved_store rid (day_number i) (first_reservation id (day_number i) srev amount) d id b db) = Ok (db', out) →
  moves db db'.
Proof.
  intros Hco Hb Hst Hday Hr Hamt Hreg -> Hlatest Hval Hcap1 Hcap2 Hvr. unfold issue_confirmation_bundle_ticket. cbn [aware_instant mbind result_bind].
  set (r := first_reservation _ _ _ _). set (db1 := reserved_store _ _ _ _ _ _ _).
  assert (reservations db1 = <[rid := r]> (reservations db) ∧ tickets db1 = tickets db ∧
          days db1 = <[day_number i := charge d (r_reserved r)]> (days db)) as (Er & Et & Ed).
  { unfold db1, reserved_store. by case_bool_decide. }
  destruct (bundles db1 !! id) as [b1|] eqn:Hb1; [|done].
  rewrite Er, lookup_insert_eq. intros H. peel H. peel H. rewrite Et in H.
  destruct (bundle_ok_state_block _ _ _ _ Hst (slot_of _ _ _ Hco Hb)) as (_ & HT & _).
  destruct (find_row _ (tickets db)) as [[k x]|] eqn:E.
  { apply find_row_Some in E as [Hk Hp]. bool_to_prop. apply (lookup_tickets_of id) in Hk; [|done].
    by rewrite HT, lookup_empty in Hk. }
  peel H. apply bind_Ok in H as (db2 & (Hnt & -> & Hvt)%insert_ticket_Ok & H).
  apply bind_Ok in H as (db3 & (_ & -> & Hvb)%update_bundle_Ok & [= <- <-]). cbn in Hnt. rewrite Et in Hnt.
  set (t := Build_Ticket _ _ _ _ _ _ _ _ _ _ _ _).
  assert (lease_ok registry b r t) as Hlease by (unfold lease_ok; cbn; split_and!; try done; by exists profile).
  assert (<[id := set_state LEASED b1]> (bundles db1) = <[id := set_state LEASED b]> (bundles db) ∧
          set_state LEASED b1 = set_state LEASED b) as [Eb Ev].
  { revert Hb1. unfold db1, reserved_store. destruct (bool_decide (b_state b = BLOCKED_BUDGET)); cbn.
    - rewrite lookup_insert_eq. intros [= <-]. by rewrite insert_insert_eq.
    - rewrite Hb. by intros [= <-]. }
  rewrite Ev in Hvb. apply rtc_once.
  pose proof (MLease registry db id b d rid r new_ticket t rev row Hb Hst Hday Hr Hnt eq_refl eq_refl eq_refl eq_refl
    Hlease Hlatest Hval Hcap1 Hcap2 Hvb Hvt Hvr) as Hm.
  revert Hm. cbn [bundles with_tickets]. rewrite Et, Eb.
  unfold db1, reserved_store. by destruct (bool_decide (b_state b = BLOCKED_BUDGET)).
Qed.

Lemma issue_selected_moves q profile budget id b db db' out rev row :
  coherent db → latest_settings db = Some (rev, row) → bundles db !! id = Some b → b_settings_revision b = rev →
  registry (b_profile_revision b) (b_profile_checksum b) = Some profile →
  issue_selected q profile budget id b db = Ok (db', out) → moves db db'.
Proof.
  intros Hco Hlatest Hb <- Hreg. unfold issue_selected. rewrite (latest_settings_row _ _ _ Hlatest). cbn [mbind result_bind some_or].
  intros H. apply bind_Ok in H as ([] & Hval & H). apply bind_Ok in H as (sum & _ & H).
  destruct (negb _); [by injection H as <- <-|]. apply bind_Ok in H as ([db2 o] & Hres & H).
  apply reserve_cases in Hres as (i & db1 & d & b' & Hnow & Hlock & Hb' & Hamt & _ & Hrev & _ & Hout).
  apply lock_day_moves in Hlock as (Hm & Hday & Hbs & Hset). rewrite Hbs, Hb in Hb'. injection Hb' as <-.
  pose proof (moves_coherent _ _ _ Hco Hm) as Hco1. etrans; [exact Hm|]. rewrite <- Hbs in Hb.
  destruct o as [k r|k r|reason].
  - destruct Hout as (_ & -> & -> & Hr & Hst & H1 & H2 & Hvr & ->). apply bind_Ok in H as ([db3 t] & Hi & H).
    apply bind_Ok in H as (found & _ & H). peel H. peel H. injection H as <- <-.
    rewrite Hnow in Hi. eapply issue_reserved_moves in Hi; try done.
    rewrite <- Hlatest. by apply latest_settings_same.
  - destruct Hout as (-> & -> & Hr & <-). apply bind_Ok in H as ([db3 t] & Hi & H).
    apply bind_Ok in H as (found & _ & H). peel H. peel H. injection H as <- <-.
    unfold issue_confirmation_bundle_ticket in Hi. rewrite Hnow, Hb, Hr in Hi. cbn [aware_instant mbind result_bind] in Hi.
    peel Hi. peel Hi. destruct (find_attempt _ _ _ _ Hco1 Hr Hb) as (tid & x & Hf & _). rewrite Hf in Hi.
    peel Hi. by injection Hi as <- <-.
  - destruct Hout as (_ & _ & Hst & Hvb & ->). injection H as <- <-. by apply rtc_once, MBlock.
Qed.

(** * Settlements *)

Lemma lock_coherent_day db rid r : coherent db → reservations db !! rid = Some r →
  ∃ d, days db !! r_day r = Some d ∧ lock_confirmation_budget_day (r_day r) db = (db, d).
Proof.
  intros Hco Hr. destruct (reservation_day _ _ _ Hco Hr) as [d Hd]. exists d. split; [done|].
  unfold lock_confirmation_budget_day. by rewrite Hd.
Qed.

(** The day and the reservation after a settlement that is not a replay. *)
Definition settled_store (rid : Z) (r : Reservation) (d : BudgetDay) (st : Settlement) (db : Db) : Db :=
  with_days (<[r_day r := discharge d (r_reserved r) (se_actual st)]> (days db))
    (with_reservations (<[rid := set_settlement st r]> (reservations db)) db).

Lemma settle_cases rid expected actual failed now db db' replayed : coherent db →
  settle_confirmation_bundle_budget rid expected actual failed now db = Ok (db', replayed) →
  ∃ i r d b, now = Aware i ∧ reservations db !! rid = Some r ∧ days db !! r_day r = Some d ∧
    bundles db !! r_bundle r = Some b ∧ d_revision d = expected ∧
    if replayed : bool then db' = db ∧ ∃ st, r_settlement r = Some st ∧ se_actual st = actual ∧ se_failed st = failed
    else r_settlement r = None ∧ r_reserved r <= d_outstanding d ∧
      let st := {| se_actual := actual; se_failed := failed; se_at := i |} in
      holds (reservation_checks (set_settlement st r)) ∧
      if failed then close_failed r b i (settled_store rid r d st db) = Ok db' else db' = settled_store rid r d st db.
Proof.
  intros Hco. unfold settle_confirmation_bundle_budget. intros H. peel H. peel H.
  match goal with E : reservations db !! rid = Some ?x |- _ => rename E into Hr, x into r end.
  apply bind_Ok in H as (day & Hd & H). apply utc_day_Ok in Hd as (i & -> & ->). peel H.
  destruct (lock_coherent_day _ _ _ Hco Hr) as (d & Hday & Hlock). rewrite Hlock in H.
  apply bind_Ok in H as (? & Hrev%require_Ok & H). peel H.
  match goal with E : bundles db !! _ = Some ?x |- _ => rename E into Hb, x into b end.
  bool_to_prop. exists i, r, d, b. do 4 (split; [done|]). split; [lia|]. destruct (r_settlement r) as [st|] eqn:Hst.
  - peel H. injection H as <- <-. bool_to_prop. split; [done|]. exists st. split_and!; [done|done|].
    by apply Bool.eqb_prop.
  - peel H. apply bind_Ok in H as (db1 & ->%put_day_Ok & H). apply bind_Ok in H as (db2 & [-> Hv]%update_reservation_Ok & H).
    apply bind_Ok in H as (db3 & Hc & [= <- <-]). bool_to_prop. split; [done|]. split; [done|]. cbn zeta. split; [done|].
    destruct failed; [exact Hc|by injection Hc as <-].
Qed.

(** The store in which an attempt failed, [t'] its closed ticket. *)
Definition failed_store (rid : Z) (r : Reservation) (d : BudgetDay) (st : Settlement) (b : Bundle) (tid : Z) (t' : Ticket)
    (db : Db) : Db :=
  with_tickets (<[tid := t']> (tickets db))
    (with_bundles (<[r_bundle r := set_state FAILED b]> (bundles db)) (settled_store rid r d st db)).

Lemma failed_move rid r d st b tid t t' db : coherent db → reservations db !! rid = Some r → r_settlement r = None →
  days db !! r_day r = Some d → bundles db !! r_bundle r = Some b → tickets db !! tid = Some t →
  t_bundle t = r_bundle r → se_failed st = true → se_actual st = r_reserved r →
  t_bundle t' = r_bundle r → t_status t' = expired → t_attempt t' = t_attempt t → t_issued_at t' = t_issued_at t →
  t_deadline t' = t_deadline t →
  holds (bundle_checks (set_state FAILED b)) → holds (ticket_checks t') → holds (reservation_checks (set_settlement st r)) →
  moves db (failed_store rid r d st b tid t' db).
Proof.
  intros Hco Hr Hs Hd Hb Ht Htb Hf Ha Htb' Htst Hta Hti Htd Hvb Hvt Hvr.
  destruct (reserved_attempt _ _ _ _ Hco Hr Hb) as (tid0 & t0 & _ & _ & _ & _ & _ & Hst). rewrite Hs in Hst.
  destruct Hst as (Hst & _). apply rtc_once.
  exact (MFail registry db (r_bundle r) b d rid r tid t st t' Hb Hst Hd Hr Ht eq_refl Htb Hf Ha Htb' Htst Hta Hti Htd Hvb Hvt Hvr).
Qed.

(** A failed settlement closes the live ticket and fails the bundle. *)
Lemma settle_failed rid expected actual now db db' replayed : coherent db →
  settle_confirmation_bundle_budget rid expected actual true now db = Ok (db', replayed) →
  replayed = true ∧ db' = db ∨
  replayed = false ∧ ∃ i r d b tid t, reservations db !! rid = Some r ∧ r_settlement r = None ∧
    days db !! r_day r = Some d ∧ bundles db !! r_bundle r = Some b ∧ tickets db !! tid = Some t ∧
    t_bundle t = r_bundle r ∧ tickets_of (r_bundle r) db = {[tid := t]} ∧
    let st := {| se_actual := actual; se_failed := true; se_at := i |} in
    holds (bundle_checks (set_state FAILED b)) ∧ holds (ticket_checks (set_expired i t)) ∧
    holds (reservation_checks (set_settlement st r)) ∧ db' = failed_store rid r d st b tid (set_expired i t) db.
Proof.
  intros Hco (i & r & d & b & -> & Hr & Hd & Hb & _ & H)%settle_cases; [|done]. destruct replayed; [by left; destruct H|].
  right. split; [done|]. destruct H as (Hs & _ & H). cbn zeta in H. destruct H as [Hvr Hclose].
  destruct (find_attempt _ _ _ _ Hco Hr Hb) as (tid & t & Hf & HT & Ht & Htb & _).
  destruct (reserved_attempt _ _ _ _ Hco Hr Hb) as (tid' & t2 & _ & HT' & Ht2 & Htb2 & _ & Hst).
  rewrite Hs in Hst. destruct Hst as (_ & _ & Hst).
  destruct (singleton_row _ _ _ tid' t2 HT) as [_ ->]; [by apply lookup_tickets_of|].
  exists i, r, d, b, tid, t. do 7 (split; [done|]). unfold close_failed in Hclose.
  apply bind_Ok in Hclose as (db1 & (_ & -> & Hvb)%update_bundle_Ok & H). cbn [tickets with_bundles] in H.
  change (tickets (settled_store _ _ _ _ _)) with (tickets db) in H. rewrite Hf, Hst in H.
  rewrite bool_decide_eq_true_2 in H by done. by apply update_ticket_Ok in H as [-> Hvt].
Qed.

(** Settling an attempt whole, then rewriting what its ticket says of the
    failure. *)
Lemma lock_attempt_Ok id tid db a : coherent db → lock_confirmation_attempt id tid db = Ok (Some a) →
  tickets db !! tid = Some (at_ticket a) ∧ t_bundle (at_ticket a) = id ∧
  reservations db !! (at_reservation a).1 = Some (at_reservation a).2 ∧ r_bundle (at_reservation a).2 = id ∧
  r_attempt (at_reservation a).2 = t_attempt (at_ticket a) ∧
  days db !! r_day (at_reservation a).2 = Some (at_budget a) ∧ bundles db !! id = Some (at_bundle a).
Proof.
  intros Hco. unfold lock_confirmation_attempt. destruct (tickets db !! tid) as [t|] eqn:Ht; [|done].
  destruct (negb (t_bundle t =? id)) eqn:Htb; [done|]. intros H. peel H. peel H. peel H. injection H as <-. cbn.
  match goal with E : find_reservation _ _ _ = Some ?x |- _ => destruct x as [k r]; rename E into Hf end.
  apply find_row_Some in Hf as [Hk Hp]. cbn in *. bool_to_prop. done.
Qed.

Lemma expire_loop_moves now rows db db' n : coherent db → expire_loop now rows db = Ok (db', n) → moves db db'.
Proof.
  revert db db' n. induction rows as [|[tid t] rows IH]; intros db db' n Hco; cbn [expire_loop]; [by intros [= <- <-]|].
  intros H. apply bind_Ok in H as (found & Hl & H). peel H. subst found. apply bind_Ok in H as ([db1 rep] & Hs & H).
  apply bind_Ok in H as ([db2 m] & Hrest & [= <- <-]). apply lock_attempt_Ok in Hl as (Ht & Htb & Hr & Hrb & _); [|done].
  unfold settle_whole in Hs. apply settle_failed in Hs; [|done].
  assert (moves db db1) as Hm.
  { destruct Hs as [[_ ->]|(_ & i & r & d & b & tid' & t' & Hr' & Hs & Hd & Hb & Ht' & Htb' & _ & ? & ? & ? & ->)]; [done|].
    rewrite Hr in Hr'. injection Hr' as <-. by apply (failed_move _ _ _ _ _ _ t'). }
  etrans; [exact Hm|]. eapply IH; [by eapply moves_coherent|done].
Qed.

Lemma expire_moves now limit db db' n : coherent db →
  expire_overdue_confirmation_bundle_tickets now limit db = Ok (db', n) → moves db db'.
Proof.
  intros Hco. unfold expire_overdue_confirmation_bundle_tickets. intros H.
  apply bind_Ok in H as (i & _ & H). peel H. by eapply expire_loop_moves.
Qed.

Lemma fail_moves id tid hotkey reason failure_class failure_stage failure_status now db db' n : coherent db →
  fail_v9_confirmation_job id tid hotkey reason failure_class failure_stage failure_status now db = Ok (db', n) →
  moves db db'.
Proof.
  intros Hco. unfold fail_v9_confirmation_job. intros H. apply bind_Ok in H as (found & Hl & H). peel H. subst found.
  do 3 peel H. apply lock_attempt_Ok in Hl as (Ht & Htb & Hr & Hrb & _); [|done].
  apply bind_Ok in H as ([db1 rep] & Hs & H). unfold settle_whole in Hs. apply settle_failed in Hs; [|done].
  destruct Hs as [[-> ->]|(-> & i & r & d & b & tid' & t' & Hr' & Hs & Hd & Hb & Ht' & Htb' & HT & Hvb & _ & Hvr & ->)];
    [by injection H as <- <-|].
  rewrite Hr in Hr'. injection Hr' as <-.
  destruct (singleton_row _ _ _ tid (at_ticket u) HT) as [<- <-]; [apply lookup_tickets_of; congruence|].
  peel H. apply bind_Ok in H as (db2 & [-> Hvt]%update_ticket_Ok & [= <- <-]).
  match goal with E : tickets (failed_store _ _ _ _ _ _ _ _) !! _ = Some _ |- _ => rename E into Hx end.
  cbn in Hx. rewrite lookup_insert_eq in Hx. injection Hx as <-.
  unfold failed_store. cbn [tickets with_tickets]. rewrite insert_insert_eq.
  by apply (failed_move _ _ _ _ _ _ (at_ticket u)
    (set_failure _ failure_class failure_stage failure_status (set_expired i (at_ticket u)))).
Qed.

(** * Completion *)

Lemma each_subject_moves (f : Subject → result Subject) rows db db' :
  (∀ key s s' d, (key, s) ∈ rows → bundles d = bundles db → f s = Ok s' → computed registry s' d) →
  each_subject f rows db = Ok db' → moves db db' ∧ bundles db' = bundles db.
Proof.
  revert db. induction rows as [|[key s] rows IH]; intros db Hf; cbn [each_subject]; [by intros [= <-]|].
  intros H. apply bind_Ok in H as (s' & Hs & H). apply bind_Ok in H as (db1 & Hput & H).
  assert (moves db db1) as Hm.
  { eapply put_subject_move; [exact Hput|]. by eapply Hf; [left| |]. }
  apply put_subject_Ok in Hput as [-> _].
  apply IH in H as [Hm' Hb]; [split; [by etrans|done]|]. intros key' x s2 d Hx Hd. eapply Hf; [by right|done].
Qed.

Lemma add_dimensions_Ok id r db db' : add_dimensions id r db = Ok db' → ∃ m, db' = with_dimension_rows m db.
Proof.
  unfold add_dimensions. intros H. apply bind_Ok in H as (db1 & ->%insert_dimension_Ok & H).
  apply bind_Ok in H as (db2 & ->%insert_dimension_Ok & ->%insert_dimension_Ok). by eexists.
Qed.

(** The completion row of accepted evidence. *)
Definition completion_of (tid : Z) (t : Ticket) (m : ConfirmationMode) (v : VerifiedConfirmationEvidence)
    (signature : string) (now : Z) : Completion :=
  {| co_qualified := ablations_complete v; co_mode := m; co_ticket := tid; co_root := root v;
     co_evidence_sha256 := evidence_sha256 v; co_reporter := t_hotkey t; co_signature := signature; co_at := now |}.

Lemma accepted_evidence_ok r b m p v tid t signature now :
  registry (b_profile_revision b) (b_profile_checksum b) = Some p → m ≠ OFF →
  rebuild_confirmation_evidence r (identity_of b m) p = Ok v →
  evidence_ok registry b (completion_of tid t m v signature now) (total_provider_cost_microusd (totals (root v))).
Proof.
  intros Hreg Hm Hv. exists p, v. split_and!; try done. cbn. by eapply stored_root_replays.
Qed.

Lemma frozen_settings_Ok b db s : frozen_settings b db = Ok s →
  ∃ row, settings_rows db !! b_settings_revision b = Some row ∧ s = sr_settings row ∧ ps_mode s ≠ OFF.
Proof.
  unfold frozen_settings. intros H. peel H. peel H. peel H. peel H. injection H as <-. exists u. split_and!; [done..|].
  bool_to_prop. done.
Qed.

Lemma accept_report_Ok id tid b t report p s v : accept_report id tid b t report p s = Ok v →
  rebuild_confirmation_evidence report (identity_of b (ps_mode s)) p = Ok v.
Proof. unfold accept_report. intros H. peel H. peel H. peel H. peel H. by injection H as <-. Qed.

Lemma completed_moves rid r d st b tid t v p m signature now db db' rows dims report :
  coherent db → reservations db !! rid = Some r → r_settlement r = None →
  days db !! r_day r = Some d → bundles db !! r_bundle r = Some b → b_state b = LEASED →
  tickets db !! tid = Some t → t_bundle t = r_bundle r → se_failed st = false →
  se_actual st = total_provider_cost_microusd (totals (root v)) →
  registry (b_profile_revision b) (b_profile_checksum b) = Some p → m ≠ OFF →
  rebuild_confirmation_evidence report (identity_of b m) p = Ok v →
  (∀ key s, (key, s) ∈ rows → s_bundle s = Some (r_bundle r)) →
  let c := completion_of tid t m v signature now in
  holds (bundle_checks (set_completed c b)) → holds (ticket_checks (set_scored t)) →
  holds (reservation_checks (set_settlement st r)) →
  each_subject (λ row, _apply_projection row v m p) rows
    (with_tickets (<[tid := set_scored t]> (tickets db))
      (with_bundles (<[r_bundle r := set_completed c b]> (bundles db))
        (with_dimension_rows dims (settled_store rid r d st db)))) = Ok db' →
  moves db db'.
Proof.
  intros Hco Hr Hs Hd Hb Hst Ht Htb Hf Ha Hreg Hm Hv Hrows c Hvb Hvt Hvr Heach.
  destruct (reserved_attempt _ _ _ _ Hco Hr Hb) as (tid0 & t0 & _ & _ & _ & _ & Hlease & _).
  assert (se_actual st <= r_reserved r) as Hle.
  { destruct Hlease as (_ & _ & _ & _ & _ & p' & Hp' & ->). rewrite Hreg in Hp'. injection Hp' as <-.
    rewrite Ha. by eapply rebuilt_cost. }
  assert (evidence_ok registry b c (se_actual st)) as Hev by (rewrite Ha; by eapply accepted_evidence_ok).
  etrans; [apply rtc_once;
    exact (MComplete registry db (r_bundle r) b d rid r tid t st c dims Hb Hst Hd Hr Ht eq_refl Htb Hf Hle eq_refl Hev Hvb Hvt Hvr)|].
  apply each_subject_moves in Heach as [Hm' _]; [exact Hm'|].
  intros key s s' db1 Hks%Hrows Hb1 (pr & -> & Hpr)%apply_projection_Ok Hfull i b' c' Hi Hb' Hc'.
  cbn in Hi, Hfull. rewrite Hks in Hi. injection Hi as <-. rewrite Hb1 in Hb'. cbn in Hb'.
  rewrite lookup_insert_eq in Hb'. injection Hb' as <-. injection Hc' as <-. exists p, v. split_and!; [done| |].
  - cbn. by eapply stored_root_replays.
  - cbn. by rewrite <- (projection_enforced _ _ _ _ _ _ _ _ Hpr Hfull).
Qed.

Lemma bundle_rows id db key s : (key, s) ∈ bundle_subjects id db → s_bundle s = Some id.
Proof. unfold bundle_subjects. by intros [H _]%list_elem_of_filter. Qed.

Lemma settled_reservation rid r d st db : coherent db → reservations db !! rid = Some r →
  ∀ x, find_reservation (r_bundle r) (r_attempt r) (settled_store rid r d st db) = Some x → x.2 = set_settlement st r.
Proof.
  intros Hco Hr [k x]. destruct (reservation_bundle _ _ _ Hco Hr) as [b Hb].
  destruct (reserved_attempt _ _ _ _ Hco Hr Hb) as (tid & t & HR & _). unfold find_reservation, settled_store.
  cbn [reservations with_days with_reservations]. intros [Hk Hp]%find_row_Some. bool_to_prop.
  apply lookup_insert_Some in Hk as [[_ <-]|[Hne Hk]]; [done|].
  destruct (singleton_row _ _ _ k x HR) as [-> _]; [by apply lookup_res_of|done].
Qed.

(** A completion on a store whose attempt has just settled. *)
Lemma complete_moves rid r d st b tid t p report i db db' b' :
  coherent db → reservations db !! rid = Some r → r_settlement r = None →
  days db !! r_day r = Some d → bundles db !! r_bundle r = Some b → b_state b = LEASED →
  tickets db !! tid = Some t → t_bundle t = r_bundle r → r_attempt r = t_attempt t →
  registry (b_profile_revision b) (b_profile_checksum b) = Some p → holds (reservation_checks (set_settlement st r)) →
  complete_confirmation_bundle (r_bundle r) tid report p (Aware i) (settled_store rid r d st db) = Ok (db', b') →
  moves db db'.
Proof.
  intros Hco Hr Hs Hd Hb Hst Ht Htb Hra Hreg Hvr. unfold complete_confirmation_bundle.
  cbn [aware_instant mbind result_bind]. change (bundles (settled_store _ _ _ _ _)) with (bundles db).
  change (tickets (settled_store _ _ _ _ _)) with (tickets db). rewrite Hb, Ht. cbn [some_or mbind result_bind].
  rewrite Hst, (bool_decide_eq_false_2 (LEASED = COMPLETED)) by done. intros H. do 3 peel H.
  apply bind_Ok in H as (s & Hfs & H). apply frozen_settings_Ok in Hfs as (row & _ & -> & Hoff).
  apply bind_Ok in H as (v & Hv%accept_report_Ok & H). unfold complete_leased in H. rewrite <- Hra in H.
  apply bind_Ok in H as (? & Hacc & H). destruct (find_reservation _ _ _) as [found|] eqn:Hx; [|done].
  apply settled_reservation in Hx; [|done..]. cbn [mbind option_bind] in Hacc. rewrite Hx in Hacc. cbn in Hacc.
  peel Hacc. apply persist_Ok in Hacc. bool_to_prop.
  apply bind_Ok in H as (db1 & (dims & ->)%add_dimensions_Ok & H).
  apply bind_Ok in H as (db2 & (_ & -> & Hvb)%update_bundle_Ok & H). apply bind_Ok in H as (db3 & [-> Hvt]%update_ticket_Ok & H).
  apply bind_Ok in H as (db4 & Heach & [= <- <-]).
  eapply (completed_moves rid r d st b tid t v p (ps_mode (sr_settings row))); try done.
  intros key s Hks. apply bundle_rows in Hks. exact Hks.
Qed.

Lemma settle_complete_moves id tid hotkey report now db db' b' : coherent db →
  settle_and_complete id tid hotkey report registry now db = Ok (db', b') → moves db db'.
Proof.
  intros Hco. unfold settle_and_complete. intros H. apply bind_Ok in H as (found & Hl & H). peel H. subst found.
  peel H. apply lock_attempt_Ok in Hl as (Ht & Htb & Hr & Hrb & Hra & Hd & Hb); [|done].
  apply bind_Ok in H as (p & Hreg%some_or_Ok%registered_profile_Ok & H). apply bind_Ok in H as (db1 & Hset & H).
  case_bool_decide as Hst.
  { injection Hset as <-. unfold complete_confirmation_bundle in H. peel H. peel H. simplify_eq. do 6 peel H.
    rewrite (bool_decide_eq_true_2 (b_state (at_bundle u) = COMPLETED)) in H by done. peel H. by injection H as <- <-. }
  peel Hset. apply bind_Ok in Hset as ([] & Hval & Hset).
  apply bind_Ok in Hset as (v & _ & Hset). apply bind_Ok in Hset as ([db2 rep] & Hs & [= <-]).
  apply settle_cases in Hs as (i & r & d & b & -> & Hr' & Hd' & Hb' & _ & Hs); [|done].
  rewrite Hr in Hr'. injection Hr' as <-. rewrite Hd in Hd'. injection Hd' as <-.
  assert (at_bundle u = b) as E by congruence. rewrite E in *. clear E.
  destruct (reserved_attempt _ _ _ _ Hco Hr Hb') as (tid0 & t0 & _ & _ & _ & _ & _ & Hcase).
  destruct rep.
  { destruct Hs as (-> & st & E & _). rewrite E in Hcase. destruct Hcase as [Hne _]. exfalso.
    unfold complete_confirmation_bundle in H. peel H. peel H. peel H. bool_to_prop.
    match goal with E : bundles db !! id = Some ?x |- _ => assert (x = b) as -> by congruence end. set_solver. }
  destruct Hs as (Hnone & _ & Hvr & ->). rewrite Hnone in Hcase. destruct Hcase as (Hleased & _ & _). rewrite <- Hrb in H.
  eapply complete_moves in H; try done. by rewrite Hrb.
Qed.

(** * Retests *)

Lemma move_subjects_moves n rows db db' : each_subject (λ s, Ok (move_subject n s)) rows db = Ok db' →
  ∃ M, db' = with_subjects M db ∧ (∀ db0, subjects db0 = subjects db → moves db0 (with_subjects M db0)) ∧
    ∀ key s, M !! key = Some s → s_bundle s = Some n ∨ subjects db !! key = Some s ∧ key ∉ rows.*1.
Proof.
  revert db. induction rows as [|[key s] rows IH]; intros db; cbn [each_subject].
  { intros [= <-]. exists (subjects db). split; [by destruct db|]. split; [intros db0 <-; by destruct db0|].
    intros key s Hs. right. split; [done|]. by apply not_elem_of_nil. }
  intros H. apply bind_Ok in H as (s' & [= <-] & H). apply bind_Ok in H as (db1 & [-> _]%put_subject_Ok & H).
  apply IH in H as (M & -> & Hm & Hrows). exists M. split; [done|]. split.
  - intros db0 E. set (db1 := with_subjects (<[key := move_subject n s]> (subjects db0)) db0).
    apply (rtc_l _ _ db1); [by apply MSubject|]. apply (Hm db1). by rewrite <- E.
  - intros key' x Hx. apply Hrows in Hx as [Hx|[Hx Hnot]]; [by left|]. cbn in Hx.
    apply lookup_insert_Some in Hx as [[_ <-]|[Hne Hx]]; [by left|]. right. split; [done|].
    rewrite fmap_cons, not_elem_of_cons. split; [by intros ->|done].
Qed.

(** The source of a retest is the last generation of its lineage. *)
Lemma retest_source db id b gen : coherent db → bundles db !! id = Some b → b_state b ≠ SUPERSEDED →
  match latest_generation (b_artifact b) (b_version b) (b_profile_revision b) (b_profile_checksum b) db with
  | Some (_, l) => b_generation l | None => 0 end = gen →
  b_generation b = gen ∧ ∀ j o, bundles db !! j = Some o → same_lineage o b = true → j ≠ id →
    b_generation o < gen ∧ b_state o = SUPERSEDED.
Proof.
  intros Hco Hb Hst. destruct (latest_generation _ _ _ _ _) as [[k l]|] eqn:Hl.
  - pose proof (latest_generation_Some _ _ _ _ _ _ _ Hl) as (Hk & Hlin%lineage_in & Hmax). intros <-.
    rewrite same_lineage_sym in Hlin. destruct (co_lineage _ _ Hco id k b l Hb Hk Hlin) as [_ Hlt].
    assert (b_generation b <= b_generation l) as Hle.
    { apply (Hmax id b Hb), lineage_in. by apply lineage_in. }
    assert (b_generation b = b_generation l) as Hg.
    { destruct (Z.lt_trichotomy (b_generation b) (b_generation l)) as [H|[H|H]]; [by destruct Hst; apply Hlt|done|lia]. }
    split; [done|]. intros j o Hj Ho Hne. destruct (co_lineage _ _ Hco j id o b Hj Hb Ho) as [Heq Hsup].
    pose proof (Hmax j o Hj (proj1 (lineage_in o b) Ho)) as Hole.
    destruct (Z.eq_dec (b_generation o) (b_generation b)) as [E|E]; [by destruct Hne; apply Heq|].
    split; [lia|]. apply Hsup. lia.
  - destruct (latest_generation_None _ _ _ _ _ id b Hl Hb). by apply lineage_in, lineage_in.
Qed.

Lemma retest_moves source_id auth_id expected actor reason new_id now db db' r : coherent db →
  authorize_confirmation_bundle_retest source_id auth_id expected actor reason new_id now db = Ok (db', r) →
  moves db db'.
Proof.
  intros Hco. unfold authorize_confirmation_bundle_retest. destruct (authorizations db !! auth_id) as [a|].
  { unfold replay_retest. intros H. peel H. peel H. peel H. by injection H as <- <-. }
  intros H. peel H. rename u into source, G into Hb. peel H. apply bind_Ok in H as ([rev row] & _ & H).
  apply bind_Ok in H as ([] & _ & H). peel H. peel H. peel H. bool_to_prop.
  assert (b_state source ∈ [COMPLETED; FAILED]) as Hst by done.
  assert (b_state source ≠ SUPERSEDED) as Hns by (intros E; rewrite E in Hst; set_solver).
  match goal with E : match latest_generation _ _ _ _ _ with _ => _ end = expected |- _ =>
    destruct (retest_source _ _ _ _ Hco Hb Hns E) as [Hg Hlin] end.
  apply bind_Ok in H as (db1 & ->%insert_authorization_Ok & H).
  apply bind_Ok in H as (db2 & (Hnew & -> & Hv1)%insert_bundle_Ok & H).
  apply bind_Ok in H as (db3 & (_ & -> & Hv2)%update_bundle_Ok & H).
  apply bind_Ok in H as (db4 & (M & -> & HM & Hrows)%move_subjects_moves & [= <- <-]). cbn in Hnew, HM.
  set (a := Build_RetestAuthorization _ _ _ _ _ _ _ _ _). set (nb := Build_Bundle _ _ _ _ _ _ _ _ _ _ _ _ _).
  assert (new_id ≠ source_id) as Hne by (intros ->; by rewrite Hb in Hnew).
  set (db1 := with_subjects M (with_authorizations (<[auth_id := a]> (authorizations db)) db)).
  set (db2 := with_bundles (<[source_id := set_state SUPERSEDED source]> (bundles db1)) db1).
  assert (moves db db1) as Hm1.
  { eapply rtc_l; [apply (MAuthorize registry db auth_id a)|]. by apply HM. }
  assert (move registry db1 db2) as Hm2.
  { apply MRetire; [done|set_solver| |done]. intros key s Hs Hi _. apply Hrows in Hs as [Hs|[Hs Hnot]]; [congruence|].
    apply Hnot, list_elem_of_fmap. exists (key, s). split; [done|]. apply list_elem_of_filter. split; [done|].
    by apply elem_of_map_to_list. }
  assert (move registry db2 (with_bundles (<[new_id := nb]> (bundles db2)) db2)) as Hm3.
  { apply MCreate; [by apply lookup_insert_None|done|done| |done]. intros j o Hj Ho.
    change (same_lineage o source = true) in Ho. change (b_generation nb) with (expected + 1).
    unfold db2 in Hj. cbn [bundles with_bundles] in Hj.
    apply lookup_insert_Some in Hj as [[<- <-]|[Hj1 Hj]]; [split; [cbn; lia|done]|].
    destruct (Hlin j o Hj Ho) as [Hlt Hsup]; [done|]. split; [lia|done]. }
  etrans; [exact Hm1|]. eapply rtc_l; [exact Hm2|]. apply rtc_once. revert Hm3.
  unfold db2 at 3, db1. cbn [bundles with_bundles with_subjects with_authorizations]. rewrite insert_insert_ne by done. done.
Qed.

(** * Reconciliation and the claim *)

Lemma ledger_moves version rows db db' l : ledger_candidates version rows db = Ok (db', l) → moves db db'.
Proof.
  revert db db' l. induction rows as [|row rows IH]; intros db db' l; cbn [ledger_candidates]; [by intros [= <- <-]|].
  intros H. apply bind_Ok in H as (p & _ & H). apply bind_Ok in H as ([db1 s] & Hb & H).
  peel H. peel H. apply bind_Ok in H as ([db2 rest] & Hrest & [= <- <-]).
  etrans; [by eapply record_base_moves|by eapply IH].
Qed.

Lemma registered_Ok rev sum p : registered_confirmation_profile registry rev sum = Some p →
  ∃ r s, rev = Some r ∧ sum = Some s ∧ registry r s = Some p.
Proof.
  unfold registered_confirmation_profile. destruct rev as [r|], sum as [s|]; try done.
  destruct (registry r s) as [q|] eqn:E; [|done]. destruct (_ && _); [|done]. intros [= ->]. by exists r, s.
Qed.

Lemma resolve_selected_moves version srev s p draw now known chosen db db' : coherent db →
  (∀ rev sum, ps_profile_revision s = Some rev → ps_profile_checksum s = Some sum → registry rev sum = Some p) →
  resolve_selected version srev s p draw now known chosen db = Ok db' → moves db db'.
Proof.
  intros Hco Hreg. revert db Hco. induction chosen as [|c chosen IH]; intros db Hco; cbn [resolve_selected]; [by intros [= <-]|].
  destruct (proof_of _ _) as [[agent proof]|]; [|done]. intros H. apply bind_Ok in H as ([db1 r] & Hget & H).
  apply (get_or_create_moves registry) in Hget as [Hm Hres]; [|done..]. pose proof (moves_coherent _ _ _ Hco Hm) as Hco1.
  etrans; [exact Hm|]. apply bind_Ok in H as (db2 & Hproj & H).
  assert (moves db1 db2) as Hm2.
  { destruct (reused_completed_evidence r); [|by injection Hproj as <-].
    unfold _reproject_completed_subject_for_current_mode in Hproj. peel Hproj.
    destruct (res_bundle r) as [[i b]|]; [|done]. destruct (Hres i b eq_refl) as (Hb & Hi & Hp).
    cbn in G. injection G as <-. apply bind_Ok in Hproj as ([v m] & Hv & Hproj). peel Hproj.
    eapply put_subject_move; [exact Hproj|]. by eapply replayed_computed. }
  etrans; [exact Hm2|]. eapply IH; [by eapply moves_coherent|done].
Qed.

Lemma reconcile_moves read db db' : coherent db →
  reconcile_confirmation_candidates read registry db = Ok db' → moves db db'.
Proof.
  intros Hco. unfold reconcile_confirmation_candidates. destruct (negb _); [by intros [= <-]|].
  intros H. apply bind_Ok in H as (db1 & Hfin & H).
  assert (moves db db1) as Hm.
  { destruct (lr_finalized read) as [[agent proof]|]; [|by injection Hfin as <-].
    apply bind_Ok in Hfin as (p & _ & Hfin). apply bind_Ok in Hfin as ([db2 s] & Hb & [= <-]).
    eapply record_base_moves. exact Hb. }
  etrans; [exact Hm|]. pose proof (moves_coherent _ _ _ Hco Hm) as Hco1.
  destruct (lr_policy_lock read); [|by injection H as <-]. unfold reconcile_cohort in H.
  apply bind_Ok in H as ([] & _ & H). apply bind_Ok in H as ([db2 live] & Hl%ledger_moves & H).
  apply bind_Ok in H as (others & _ & H). apply bind_Ok in H as (selection & _ & H).
  etrans; [exact Hl|]. destruct (latest_settings db1) as [[rid row]|]; [|by injection H as <-].
  destruct (registered_confirmation_profile _ _ _) as [p|] eqn:Hp; [|by injection H as <-].
  case_bool_decide; [by injection H as <-|].
  eapply resolve_selected_moves; [by eapply moves_coherent| |exact H].
  apply registered_Ok in Hp as (r & s & Hr & Hs & Hp). intros rev sum Hrev Hsum. congruence.
Qed.

Lemma claimable_Ok version rev sum srev ssum db id b : claimable_bundle version rev sum srev ssum db = Some (id, b) →
  bundles db !! id = Some b ∧ b_profile_revision b = rev ∧ b_profile_checksum b = sum ∧ b_settings_revision b = srev.
Proof.
  unfold claimable_bundle. intros (H & _)%find_some. apply list_elem_of_In in H. rewrite py_sorted_perm in H.
  apply list_elem_of_filter in H as [H Hin%elem_of_map_to_list]. cbn in *. rewrite !andb_true_iff, !String.eqb_eq, !Z.eqb_eq in H. tauto.
Qed.

Lemma claim_moves q db db' out : coherent db → request_v9_confirmation_job q registry db = Ok (db', out) → moves db db'.
Proof.
  intros Hco. unfold request_v9_confirmation_job.
  destruct (_registered_profile _ _ _) as [p|] eqn:Hp; [|by intros [= <- <-]]. apply registered_profile_Ok in Hp.
  intros H. apply bind_Ok in H as ([db1 n] & Hm%expire_moves & H); [|done].
  etrans; [exact Hm|]. pose proof (moves_coherent _ _ _ Hco Hm) as Hco1. clear Hm Hco.
  destruct (live_v9_confirmation_slot_ticket _ _ _ _) as [[tid t]|].
  { apply bind_Ok in H as (found & _ & H). peel H. destruct (_ || _); [by injection H as <- <-|].
    peel H. apply bind_Ok in H as ([] & _ & H). peel H. by injection H as <- <-. }
  destruct (cl_paused q); [by injection H as <- <-|]. destruct (negb _); [by injection H as <- <-|].
  unfold issue_fresh in H. destruct (latest_settings db1) as [[rid row]|] eqn:Hlatest; [|by injection H as <- <-].
  apply bind_Ok in H as ([] & _ & H). apply bind_Ok in H as (sum & _ & H).
  destruct (_ || _ || _); [by injection H as <- <-|]. destruct (negb _); [by injection H as <- <-|].
  apply bind_Ok in H as (day & _ & H). destruct (lock_confirmation_budget_day _ _) as [db2 d] eqn:Hlock.
  apply lock_day_moves in Hlock as (Hm & _ & _ & Hset). pose proof (moves_coherent _ _ _ Hco1 Hm) as Hco2.
  etrans; [exact Hm|]. destruct (_ <=? 0); [by injection H as <- <-|]. destruct (cap_exhausted _ _ _); [by injection H as <- <-|].
  apply bind_Ok in H as (db3 & Hrec%reconcile_moves & H); [|done]. etrans; [exact Hrec|].
  pose proof (moves_coherent _ _ _ Hco2 Hrec) as Hco3.
  destruct (claimable_bundle _ _ _ _ _ _) as [[id b]|] eqn:Hc; [|by injection H as <- <-].
  apply claimable_Ok in Hc as (Hb & Hpr & Hpc & Hsr).
  eapply issue_selected_moves; [done| |done|exact Hsr| |exact H].
  - rewrite <- Hlatest. apply latest_settings_same. by rewrite (moves_settings _ _ Hrec).
  - by rewrite Hpr, Hpc.
Qed.

Lemma submit_moves id tid hotkey report now read db db' out : coherent db →
  submit_v9_confirmation_report id tid hotkey report registry now read db = Ok (db', out) → moves db db'.
Proof.
  intros Hco. unfold submit_v9_confirmation_report. intros H.
  apply bind_Ok in H as ([db1 b] & Hm%settle_complete_moves & H); [|done].
  apply bind_Ok in H as (db2 & Hr & [= <- <-]).
  etrans; [exact Hm|]. eapply reconcile_moves; [by eapply moves_coherent|done].
Qed.

(** * Transactions *)

(** Appending a settings revision touches nothing else. *)
Lemma settings_coherent m db : coherent db → coherent (with_settings_rows m db).
Proof. intros [H1 H2 H3 H4 H5]. by split. Qed.

Lemma append_settings_Ok revision expected s reason actor db db' :
  create_confirmation_bundle_settings_revision revision expected s reason actor db = Ok db' →
  ∃ row, db' = with_settings_rows (<[revision := row]> (settings_rows db)) db ∧ settings_rows db !! revision = None.
Proof.
  unfold create_confirmation_bundle_settings_revision, insert_confirmation_bundle_settings_revision, insert_settings_row.
  intros H. peel H. peel H. injection H as <-. eexists. split; [done|]. do 5 apply Forall_inv_tail in G0.
  apply Forall_inv in G0. cbn in G0. by destruct (settings_rows db !! revision).
Qed.

(** A transaction is a sequence of moves, after the insertion of a settings
    revision when it is that of the operator. *)
Lemma execute_moves t db db' : coherent db → execute registry t db = Ok db' →
  ∃ db0, moves db0 db' ∧ coherent db0 ∧
    (db0 = db ∨ ∃ revision row, db0 = with_settings_rows (<[revision := row]> (settings_rows db)) db ∧
       settings_rows db !! revision = None).
Proof.
  intros Hco. destruct t as [rv ex s re ac read|read|q|bid tid hk re fc fs fst now|bid tid hk rep now read|now lim|
    src aid ex ac re nid now]; cbn [execute]; intros H.
  { apply bind_Ok in H as ([] & _ & H). apply bind_Ok in H as (db0 & (row & -> & Hnew)%append_settings_Ok & H).
    eexists. split; [|split; [|by right; eexists _, row]]; [|by apply settings_coherent].
    eapply reconcile_moves; [by apply settings_coherent|done]. }
  all: exists db; split; [|split; [done|by left]].
  - by eapply reconcile_moves.
  - apply bind_Ok in H as ([db1 out] & Hm & [= <-]). by eapply claim_moves.
  - apply bind_Ok in H as ([db1 out] & Hm & [= <-]). by eapply fail_moves.
  - apply bind_Ok in H as ([] & _ & H). apply bind_Ok in H as ([db1 out] & Hm & [= <-]). by eapply submit_moves.
  - apply bind_Ok in H as ([db1 n] & Hm & [= <-]). by eapply expire_moves.
  - apply bind_Ok in H as ([db1 r] & Hm & [= <-]). by eapply retest_moves.
Qed.

Lemma execute_coherent t db db' : coherent db → execute registry t db = Ok db' → coherent db'.
Proof. intros Hco H. destruct (execute_moves _ _ _ Hco H) as (db0 & Hm & Hc & _). by eapply moves_coherent. Qed.

Lemma empty_coherent accounts : coherent (empty_db accounts).
Proof.
  split; [intros i|intros day|done|done|intros day].
  - unfold res_of, tickets_of. cbn. by rewrite !map_filter_empty.
  - unfold day_rows. cbn. apply map_filter_empty.
  - unfold commitment, attempts. cbn. rewrite lookup_empty. unfold MAX_DAILY_DOLLAR_MICROUSD, MAX_DAILY_BUNDLE_CAP. lia.
Qed.

Lemma reachable_coherent accounts db : reachable registry accounts db → coherent db.
Proof. induction 1 as [|db db' _ IH [t Ht]]; [apply empty_coherent|by eapply execute_coherent]. Qed.
End steps.
