(* ===== verification/ConfirmationSafety.v ===== *)
(** What the confirmation lane guarantees over any sequence of transactions:
    its tables stay coherent, a day's spend keeps to the operator's caps, a full
    confirmation always rests on replayable evidence that was paid for, and what
    was accepted never changes. *)
From Stdlib Require Import ZArith Lia.
From stdpp Require Import base gmap list strings relations.
From S2P Require Import Prelude Binary64 PyText ConfirmationPolicy ConfirmationReport ConfirmationEvidence ConfirmationEvidenceFacts ConfirmationStore ConfirmationLane ConfirmationService ConfirmationInvariant ConfirmationMoves ConfirmationSteps.

#[local] Open Scope string_scope.
#[local] Open Scope Z_scope.

(** The microdollars a day is charged with, an open attempt at its reservation
    and a settled one at its cost, and the attempts started on it. *)
Definition charged (day : Z) (db : Db) : Z := msum (λ r, open_amount r + actual_amount r) (day_rows day db).
Definition started (day : Z) (db : Db) : Z := Z.of_nat (size (day_rows day db)).

(** The caps in force: those of the latest settings revision. *)
Definition dollar_cap (db : Db) : Z :=
  match latest_settings db with Some (_, row) => ps_daily_dollar_cap_microusd (sr_settings row) | None => 0 end.
Definition bundle_cap (db : Db) : Z :=
  match latest_settings db with Some (_, row) => ps_daily_bundle_cap (sr_settings row) | None => 0 end.

(** The life of a bundle. *)
Inductive lifecycle : ConfirmationState → ConfirmationState → Prop :=
  | LBlock : lifecycle PENDING BLOCKED_BUDGET
  | LLease s : s ∈ [PENDING; BLOCKED_BUDGET] → lifecycle s LEASED
  | LFail : lifecycle LEASED FAILED
  | LComplete : lifecycle LEASED COMPLETED
  | LRetire s : s ∈ [PENDING; BLOCKED_BUDGET; FAILED; COMPLETED] → lifecycle s SUPERSEDED.

(** The columns of a bundle that its creation fixes. *)
Definition frozen (b : Bundle) :=
  (b_artifact b, b_version b, b_profile_revision b, b_profile_checksum b, b_generation b, b_authorization b,
   b_reason b, b_source b, b_settings_revision b, b_settings_checksum b, b_created b).

(** Bundle [b] grew into [b']. *)
Definition grows (b b' : Bundle) : Prop :=
  frozen b' = frozen b ∧ rtc lifecycle (b_state b) (b_state b') ∧
  ∀ c, b_completion b = Some c → b_completion b' = Some c.

Section safety.
Context {SH : Sha256} {KP : Keypair} {LM : Libm} (registry : Registry) (accounts : gmap Z string).
#[local] Notation moves := (rtc (move registry)).
#[local] Notation coherent := (coherent registry).

Lemma reachable_valid db : reachable registry accounts db → valid_rows db.
Proof.
  induction 1 as [|db db' Hr IH [t Ht]]; [by split|].
  destruct (execute_moves _ _ _ _ (reachable_coherent _ _ _ Hr) Ht) as (db0 & Hm & _ & [->|(rv & row & -> & _)]);
    [by eapply moves_valid|]. eapply moves_valid; [|exact Hm]. by destruct IH.
Qed.

(** C23: The tables of the lane stay coherent. Over any sequence of settings
    changes, reconciliations, claims, failures, reports, recoveries and retests,
    each bundle has exactly the reservation and ticket its state calls for, each
    budget day adds up the reservations charged to it, all generations of a
    submission but the latest are superseded, every fully confirmed subject
    carries the projection of its bundle's evidence, and every row satisfies its
    CHECK constraints. *)
Theorem lane_invariant db : reachable registry accounts db → coherent db ∧ valid_rows db.
Proof. intros H. split; [by eapply reachable_coherent|by apply reachable_valid]. Qed.

(** * The budget *)

Lemma charged_commitment day db : coherent db → charged day db = commitment day db ∧ started day db = attempts day db.
Proof.
  intros Hco. pose proof (co_days _ _ Hco day) as H. unfold charged, started, commitment, attempts.
  destruct (days db !! day) as [d|]; cbn in H.
  - destruct H as (H1 & H2 & H3 & _). rewrite msum_add. lia.
  - rewrite H, msum_empty. by rewrite map_size_empty.
Qed.

Lemma move_budget db db' day : coherent db → move registry db db' →
  commitment day db' <= Z.max (commitment day db) (dollar_cap db) ∧
  attempts day db' <= Z.max (attempts day db) (bundle_cap db).
Proof.
  intros Hco Hm. pose proof (co_days _ _ Hco) as Hdays.
  destruct Hm as [day' Hday|id a|id b|id b|id b|id b d rid r tid t rev row ? ? Hd ? ? ? ? ? ? ? Hl _ H1 H2|
    id b d rid r tid t st t' ? ? Hd ? ? ? ? ? Ha|id b d rid r tid t st c dims ? ? Hd ? ? ? ? ? Ha|key s];
    try (unfold commitment, attempts; cbn; lia).
  all: unfold commitment, attempts; cbn [days with_tickets with_days with_dimension_rows].
  - destruct (decide (day' = day)) as [->|Hne]; [rewrite lookup_insert_eq, Hday; cbn; lia|].
    rewrite lookup_insert_ne by done. lia.
  - destruct (decide (r_day r = day)) as [<-|Hne]; [|rewrite lookup_insert_ne by done; lia].
    rewrite lookup_insert_eq, Hd. cbn. unfold dollar_cap, bundle_cap. rewrite Hl. lia.
  - destruct (decide (r_day r = day)) as [<-|Hne]; [|rewrite lookup_insert_ne by done; lia].
    rewrite lookup_insert_eq, Hd. cbn. lia.
  - destruct (decide (r_day r = day)) as [<-|Hne]; [|rewrite lookup_insert_ne by done; lia].
    rewrite lookup_insert_eq, Hd. cbn. lia.
Qed.

Lemma caps_same db db' : settings_rows db' = settings_rows db →
  dollar_cap db' = dollar_cap db ∧ bundle_cap db' = bundle_cap db.
Proof. intros H. unfold dollar_cap, bundle_cap. by rewrite (latest_settings_same _ _ H). Qed.

Lemma moves_budget db db' day : coherent db → moves db db' →
  commitment day db' <= Z.max (commitment day db) (dollar_cap db) ∧
  attempts day db' <= Z.max (attempts day db) (bundle_cap db).
Proof.
  intros Hco Hm. induction Hm as [|x y z Hxy Hyz IH]; [lia|].
  pose proof (move_budget _ _ day Hco Hxy). specialize (IH (move_coherent _ _ _ Hco Hxy)).
  destruct (caps_same _ _ (moves_settings registry _ _ (rtc_once _ _ Hxy))) as [E1 E2]. lia.
Qed.

(** C20: A day is never charged beyond the caps. Whatever transaction runs, what
    a UTC day is charged with, reservations at their ceiling and settlements at
    their cost, grows only within the dollar cap of the settings in force after
    it, and the attempts it starts only within their bundle cap; and no day ever
    passes the platform's absolute maxima. *)
Theorem daily_budget_never_overrun t db db' day :
  reachable registry accounts db → execute registry t db = Ok db' →
  charged day db' <= Z.max (charged day db) (dollar_cap db') ∧
  started day db' <= Z.max (started day db) (bundle_cap db') ∧
  charged day db' <= MAX_DAILY_DOLLAR_MICROUSD ∧ started day db' <= MAX_DAILY_BUNDLE_CAP.
Proof.
  intros Hr%reachable_coherent Ht. pose proof (execute_coherent _ _ _ _ Hr Ht) as Hco'.
  destruct (charged_commitment day db Hr) as [-> ->], (charged_commitment day db' Hco') as [-> ->].
  destruct (execute_moves _ _ _ _ Hr Ht) as (db0 & Hm & Hco0 & Hdb).
  destruct (caps_same _ _ (moves_settings registry _ _ Hm)) as [-> ->].
  pose proof (moves_budget _ _ day Hco0 Hm). pose proof (co_caps _ _ Hco' day).
  assert (commitment day db0 = commitment day db ∧ attempts day db0 = attempts day db) as [<- <-]; [|lia].
  by destruct Hdb as [->|(rv & row & -> & _)].
Qed.

(** * Full confirmation *)

(** C21: A full confirmation is earned and paid for. When a subject is fully
    confirmed, its bundle is of its own artifact and bench version, completed and
    qualified; the stored evidence replays against the registered profile, and
    the subject's score is its projection in enforce mode; and the bundle's only
    attempt was a scored ticket whose reservation settled for exactly the cost of
    that evidence, within the ceiling of the profile. *)
Theorem full_confirmed_sound db agent version s :
  reachable registry accounts db → subjects db !! (agent, version) = Some s →
  result_status (s_result s) = full_confirmed →
  ∃ i b c p v rid r t st, s_bundle s = Some i ∧ bundles db !! i = Some b ∧
    b_artifact b = s_artifact s ∧ b_version b = version ∧ b_state b = COMPLETED ∧
    b_completion b = Some c ∧ co_qualified c = true ∧ ablations_complete v = true ∧ evidence_sha256 v = co_evidence_sha256 c ∧
    registry (b_profile_revision b) (b_profile_checksum b) = Some p ∧
    rebuild_confirmation_evidence (replay_report (co_root c) (co_signature c)) (identity_of b (co_mode c)) p = Ok v ∧
    compute_subject_projection ENFORCE (s_quality s) (s_stderr s) (s_model s) (s_tool s) v (composite p)
      = Ok (s_result s) ∧
    tickets_of i db = {[co_ticket c := t]} ∧ t_status t = scored ∧
    res_of i db = {[rid := r]} ∧ r_settlement r = Some st ∧ se_failed st = false ∧
    se_actual st = total_provider_cost_microusd (totals (root v)) ∧ se_actual st <= lane_ceiling p.
Proof.
  intros Hr%reachable_coherent Hs Hf.
  destruct (co_subjects _ _ Hr _ _ Hs Hf) as (i & b & c & p & v & Hi & Hb & Ha & Hv & Hst & Hc & Hq & Hp & Hre & Hpr).
  pose proof (slot_of _ _ _ _ Hr Hb) as Hok. unfold bundle_ok in Hok. rewrite Hst in Hok.
  destruct Hok as (c' & Hc' & rid & r & tid & t & HR & HT & Hl & Hts & Htid & st & Hset & Hsf & Hle & Hev).
  rewrite Hc in Hc'. injection Hc' as <-. destruct Hev as (p' & v' & Hp' & Hre' & Hroot & Hsha & Hab & Hact & _).
  rewrite Hp in Hp'. injection Hp' as <-. rewrite Hre in Hre'. injection Hre' as <-.
  destruct Hl as (_ & _ & _ & _ & _ & p' & Hp' & Hres). rewrite Hp in Hp'. injection Hp' as <-.
  exists i, b, c, p, v, rid, r, t, st. rewrite Htid, Hroot. rewrite Hres in Hle. by rewrite Hab.
Qed.

(** * What never changes *)

#[local] Instance grows_preorder : PreOrder grows.
Proof.
  split; [by intros b|]. intros a b c (H1 & H2 & H3) (H4 & H5 & H6). split; [congruence|].
  split; [by etrans|]. intros d Hd. by apply H6, H3.
Qed.

Lemma grow_insert (m : gmap Z Bundle) id x y : m !! id = Some x → grows x y →
  ∀ i b, m !! i = Some b → ∃ b', <[id := y]> m !! i = Some b' ∧ grows b b'.
Proof.
  intros Hx Hg i b Hi. destruct (decide (id = i)) as [->|Hne].
  - rewrite lookup_insert_eq. exists y. split; [done|]. by simplify_eq.
  - rewrite lookup_insert_ne by done. by exists b.
Qed.

Lemma grow_state s b : lifecycle (b_state b) s ∨ b_state b = s → grows b (set_state s b).
Proof. intros [H|H]; (split; [done|]; split; [|done]); [by apply rtc_once|by rewrite H]. Qed.

Lemma move_bundles db db' : coherent db → move registry db db' →
  ∀ i b, bundles db !! i = Some b → ∃ b', bundles db' !! i = Some b' ∧ grows b b'.
Proof.
  intros Hco Hm. destruct Hm as [day Hday|id a|id x Hid|id x Hid Hst|id x Hid Hst|id x d rid r tid t rev row Hid Hst|
    id x d rid r tid t st t' Hid Hst|id x d rid r tid t st c dims Hid Hst|key s];
    try (intros i b Hi; by exists b); cbn [bundles with_tickets with_days with_reservations with_dimension_rows with_bundles].
  - intros i b Hi. exists b. split; [|done]. rewrite lookup_insert_ne; [done|]. intros ->. by rewrite Hi in Hid.
  - apply grow_insert with x; [done|]. apply grow_state. left. by constructor.
  - apply grow_insert with x; [done|]. apply grow_state. apply elem_of_cons in Hst as [->|Hst].
    + left. constructor.
    + right. apply list_elem_of_singleton in Hst. done.
  - apply grow_insert with x; [done|]. apply grow_state. left. by constructor.
  - apply grow_insert with x; [done|]. apply grow_state. left. rewrite Hst. constructor.
  - apply grow_insert with x; [done|]. split; [done|]. split; [rewrite Hst; apply rtc_once; constructor|].
    intros c' Hc'. pose proof (slot_of _ _ _ _ Hco Hid) as Hok. unfold bundle_ok in Hok. rewrite Hst in Hok.
    destruct Hok as [Hn _]. congruence.
Qed.

(** A settled reservation stays as it is, and an open one keeps what it reserved. *)
Definition reservation_grows (r r' : Reservation) : Prop :=
  r_bundle r' = r_bundle r ∧ r_day r' = r_day r ∧ r_reserved r' = r_reserved r ∧
  ∀ st, r_settlement r = Some st → r' = r.

Lemma move_reservations db db' : coherent db → move registry db db' →
  ∀ rid r, reservations db !! rid = Some r → ∃ r', reservations db' !! rid = Some r' ∧ reservation_grows r r'.
Proof.
  intros Hco Hm. assert (∀ id x rid r tid t st, bundles db !! id = Some x → b_state x = LEASED →
    reservations db !! rid = Some r → tickets db !! tid = Some t → r_bundle r = id → t_bundle t = id →
    ∀ k y, reservations db !! k = Some y →
    ∃ y', <[rid := set_settlement st r]> (reservations db) !! k = Some y' ∧ reservation_grows y y') as Hset.
  { intros id x rid r tid t st Hid Hst Hr Ht Hrb Htb k y Hk.
    destruct (decide (rid = k)) as [->|Hne]; [|rewrite lookup_insert_ne by done; by exists y].
    rewrite lookup_insert_eq. eexists. split; [done|]. rewrite Hr in Hk. injection Hk as <-.
    destruct (running_rows _ _ _ _ _ _ _ _ (slot_of _ _ _ _ Hco Hid) Hst Hr Ht Hrb Htb) as (_ & _ & _ & Hn & _).
    split_and!; [done..|]. intros st'. by rewrite Hn. }
  destruct Hm as [day Hday|id a|id x Hid|id x Hid Hst|id x Hid Hst|id x d rid r tid t rev row Hid Hst Hd Hr|
    id x d rid r tid t st t' Hid Hst Hd Hr Ht Hrb Htb|id x d rid r tid t st c dims Hid Hst Hd Hr Ht Hrb Htb|key s];
    try (intros i b Hi; by exists b);
    cbn [reservations with_tickets with_days with_reservations with_dimension_rows with_bundles].
  - intros k y Hk. exists y. split; [|done]. rewrite lookup_insert_ne; [done|]. intros ->. by rewrite Hk in Hr.
  - by eapply Hset.
  - by eapply Hset.
Qed.

Lemma moves_history db db' : coherent db → moves db db' →
  (∀ i b, bundles db !! i = Some b → ∃ b', bundles db' !! i = Some b' ∧ grows b b') ∧
  (∀ rid r, reservations db !! rid = Some r → ∃ r', reservations db' !! rid = Some r' ∧ reservation_grows r r').
Proof.
  intros Hco Hm. induction Hm as [x|x y z Hxy Hyz IH]; [split; [intros i b Hb; by exists b|intros rid r Hr; by exists r]|].
  destruct (IH (move_coherent _ _ _ Hco Hxy)) as [IH1 IH2]. split.
  - intros i b Hb. destruct (move_bundles _ _ Hco Hxy i b Hb) as (b1 & Hb1 & Hg1).
    destruct (IH1 i b1 Hb1) as (b2 & Hb2 & Hg2). exists b2. split; [done|]. by etrans.
  - intros rid r Hr. destruct (move_reservations _ _ Hco Hxy rid r Hr) as (r1 & Hr1 & E1 & E2 & E3 & E4).
    destruct (IH2 rid r1 Hr1) as (r2 & Hr2 & F1 & F2 & F3 & F4). exists r2. split; [done|].
    split_and!; [congruence..|]. intros st Hst. pose proof (E4 st Hst) as ->. by eapply F4.
Qed.

(** C22: History is only appended to. Whatever transaction runs, no bundle
    disappears; its submission, profile, generation, settings and origin stay
    what they were; its state moves along the lifecycle, in which superseded is
    final and a failed or completed bundle can only be superseded; evidence once
    accepted stays, bit for bit; a settled reservation stays as it was settled;
    and no settings revision is altered. *)
Theorem history_is_append_only t db db' :
  reachable registry accounts db → execute registry t db = Ok db' →
  (∀ i b, bundles db !! i = Some b → ∃ b', bundles db' !! i = Some b' ∧ grows b b') ∧
  (∀ rid r, reservations db !! rid = Some r → ∃ r', reservations db' !! rid = Some r' ∧ reservation_grows r r') ∧
  settings_rows db ⊆ settings_rows db'.
Proof.
  intros Hr%reachable_coherent Ht. destruct (execute_moves _ _ _ _ Hr Ht) as (db0 & Hm & Hco0 & Hdb).
  pose proof (moves_settings registry _ _ Hm) as ->. destruct (moves_history _ _ Hco0 Hm) as [H1 H2].
  destruct Hdb as [->|(rv & row & -> & Hnew)]; [done|]. cbn. split_and!; [exact H1|exact H2|]. by apply insert_subseteq.
Qed.
End safety.

(** * Examples *)

Definition sample_keypair : Keypair := λ _ _ _, true.
Definition sample_registry : Registry := λ _ _, Some sample_profile.
Definition sample_accounts : gmap Z string := {[1 := zeros64]}.
#[local] Existing Instance sample_sha.
#[local] Existing Instance sample_keypair.
#[local] Existing Instance sample_libm.

Definition sample_settings : PolicySettings :=
  {| ps_mode := ENFORCE; ps_eligibility_mode := RANK; ps_top_n := 1; ps_min_base_score_micros := 0;
     ps_daily_bundle_cap := 2; ps_daily_dollar_cap_microusd := 10000000; ps_per_bundle_request_cap := 200;
     ps_per_bundle_token_cap := 5000; ps_profile_revision := Some "profile"; ps_profile_checksum := Some zeros64;
     ps_challenger_z := DEFAULT_CHALLENGER_Z |}.
Definition sample_proof : ConfirmationBaseProof :=
  {| bp_evidence_sha256 := zeros64; bp_quality_micros := 900000; bp_stderr_micros := 10000;
     bp_model_factor_bps := 10000; bp_tool_factor_bps := 10000 |}.
Definition sample_instant : Z := seconds 1000.
Definition sample_read : LedgerRead :=
  {| lr_version := 9; lr_finalized := None; lr_policy_lock := true;
     lr_ledger := [{| rr_agent := 1; rr_owner := "alice"; rr_artifact := zeros64; rr_first_seen := Aware 1;
                      rr_proof := Ok sample_proof |}];
     lr_persisted := []; lr_draw := λ _, 7; lr_now := sample_instant |}.
Definition sample_claim : ClaimRequest :=
  {| cl_hotkey := "validator"; cl_slot := "slot"; cl_profile_revision := "profile"; cl_profile_checksum := zeros64;
     cl_paused := false; cl_read := sample_read; cl_reservation := 20; cl_ticket := 30; cl_now := Aware sample_instant |}.

(** The operator configures the lane, the ledger's only row gets a bundle, a
    validator claims it and reports. *)
Definition sample_setup : Transaction := AppendSettings 3 0 sample_settings "initial policy" "operator" sample_read.
Definition sample_submit : Transaction :=
  Submit 7 30 "validator" sample_report (Aware (sample_instant + seconds 60)) sample_read.

Definition run_from (db : Db) (l : list Transaction) : result Db :=
  foldl (λ r t, r ≫= λ db, execute sample_registry t db) (Ok db) l.
Definition sample_run : list Transaction → result Db := run_from (empty_db sample_accounts).

Lemma run_snoc db l t : run_from db (l ++ [t]) = run_from db l ≫= λ db, execute sample_registry t db.
Proof. unfold run_from. by rewrite foldl_app. Qed.

Lemma run_reachable l db : sample_run l = Ok db → reachable sample_registry sample_accounts db.
Proof.
  revert db. induction l as [|t l IH] using rev_ind; intros db; [intros [= <-]; constructor|].
  unfold sample_run. rewrite run_snoc. intros (db0 & H0 & Ht)%bind_Ok. econstructor; [by apply IH|by exists t].
Qed.

#[local] Notation leased := (sample_run [sample_setup; Claim sample_claim]).
#[local] Notation confirmed := (sample_run [sample_setup; Claim sample_claim; sample_submit]).

Lemma sample_leased : match sample_run [sample_setup; Claim sample_claim] with
  | Ok db => charged 0 db = 4500000 ∧ started 0 db = 1 | Err _ => False end.
Proof. vm_compute. by split. Qed.

Lemma sample_confirmed : match sample_run [sample_setup; Claim sample_claim; sample_submit] with
  | Ok db => charged 0 db = 1750000 ∧ result_status ∘ s_result <$> subjects db !! (1, 9) = Some full_confirmed
  | Err _ => False end.
Proof. vm_compute. by split. Qed.

Lemma lane_invariant_witness : ∃ db, confirmed = Ok db ∧ coherent sample_registry db ∧ valid_rows db.
Proof.
  pose proof sample_confirmed as H. destruct confirmed as [db|] eqn:E; [clear H|destruct H].
  exists db. split; [reflexivity|]. apply (lane_invariant sample_registry sample_accounts). exact (run_reachable _ _ E).
Defined.

Lemma daily_budget_never_overrun_witness : ∃ db, leased = Ok db ∧ charged 0 db = 4500000 ∧
  charged 0 db <= Z.max 0 (dollar_cap db).
Proof.
  pose proof sample_leased as H. pose proof (run_snoc (empty_db sample_accounts) [sample_setup] (Claim sample_claim)) as Hs.
  destruct leased as [db|] eqn:E; [|destruct H]. exists db. split; [reflexivity|]. destruct H as [Hc _]. split; [exact Hc|].
  change (run_from _ ([sample_setup] ++ [Claim sample_claim])) with leased in Hs. rewrite E in Hs. symmetry in Hs.
  apply bind_Ok in Hs as (db0 & H0 & Ht).
  pose proof (daily_budget_never_overrun sample_registry sample_accounts (Claim sample_claim) db0 db 0
    (run_reachable [sample_setup] db0 H0) Ht) as (Hle & _).
  assert (charged 0 db0 = 0) as E0; [|rewrite E0 in Hle; exact Hle].
  assert (match sample_run [sample_setup] with Ok d => charged 0 d = 0 | Err _ => False end) as Hz by (vm_compute; reflexivity).
  unfold sample_run in Hz. rewrite H0 in Hz. exact Hz.
Defined.

Lemma full_confirmed_sound_witness : ∃ db s i, confirmed = Ok db ∧ subjects db !! (1, 9) = Some s ∧
  result_status (s_result s) = full_confirmed ∧ s_bundle s = Some i.
Proof.
  pose proof sample_confirmed as H. destruct confirmed as [db|] eqn:E; [|destruct H]. destruct H as [_ H].
  destruct (subjects db !! (1, 9)) as [s|] eqn:Hs; [|discriminate H]. injection H as Hf.
  destruct (full_confirmed_sound sample_registry sample_accounts db 1 9 s (run_reachable _ _ E) Hs Hf)
    as (i & b & c & p & v & rid & r & t & st & Hi & _).
  exists db, s, i. split; [reflexivity|]. split; [exact Hs|]. split; [exact Hf|exact Hi].
Defined.

Lemma history_is_append_only_witness : ∃ db db', leased = Ok db ∧ execute sample_registry sample_submit db = Ok db' ∧
  settings_rows db ⊆ settings_rows db'.
Proof.
  pose proof sample_confirmed as H.
  pose proof (run_snoc (empty_db sample_accounts) [sample_setup; Claim sample_claim] sample_submit) as Hs.
  destruct confirmed as [db'|] eqn:E; [clear H|destruct H].
  change (run_from _ ([sample_setup; Claim sample_claim] ++ [sample_submit])) with confirmed in Hs. rewrite E in Hs.
  symmetry in Hs. apply bind_Ok in Hs as (db & H0 & Ht). exists db, db'. split; [exact H0|]. split; [exact Ht|].
  apply (history_is_append_only sample_registry sample_accounts sample_submit db db' (run_reachable _ _ H0) Ht).
Defined.
