(* ===== verification/ConfirmationProgress.v ===== *)
(** What the confirmation lane's operations achieve: a claim hands out a funded
    lease, and an overdue lease is always recovered. *)
From Stdlib Require Import ZArith Lia.
From stdpp Require Import base gmap list strings relations.
From S2P Require Import Prelude Binary64 PyText ConfirmationPolicy ConfirmationReport ConfirmationEvidence ConfirmationEvidenceFacts ConfirmationStore ConfirmationLane ConfirmationService ConfirmationInvariant ConfirmationMoves ConfirmationSteps ConfirmationSafety.

#[local] Open Scope string_scope.
#[local] Open Scope Z_scope.

Section progress.
Context {SH : Sha256} {KP : Keypair} {LM : Libm} (registry : Registry) (accounts : gmap Z string).
#[local] Notation moves := (rtc (move registry)).
#[local] Notation coherent := (coherent registry).

(** * The claim *)

(** A live ticket leases its bundle, and its attempt is open. *)
Lemma live_lease db tid t : coherent db → tickets db !! tid = Some t → t_status t = issued →
  ∃ b rid r, bundles db !! t_bundle t = Some b ∧ b_state b = LEASED ∧ reservations db !! rid = Some r ∧
    r_bundle r = t_bundle t ∧ r_settlement r = None ∧ lease_ok registry b r t ∧
    tickets_of (t_bundle t) db = {[tid := t]} ∧ res_of (t_bundle t) db = {[rid := r]}.
Proof.
  intros Hco Ht Hst. apply (lookup_tickets_of (t_bundle t)) in Ht; [|done].
  pose proof (co_slots _ _ Hco (t_bundle t)) as Hok. destruct (bundles db !! t_bundle t) as [b|] eqn:Hb;
    [|destruct Hok as [_ E]; by rewrite E, lookup_empty in Ht].
  assert (∀ Q, attempt registry b (res_of (t_bundle t) db) (tickets_of (t_bundle t) db) Q →
    ∃ rid r, reservations db !! rid = Some r ∧ r_bundle r = t_bundle t ∧ lease_ok registry b r t ∧ Q r tid t ∧
      tickets_of (t_bundle t) db = {[tid := t]} ∧ res_of (t_bundle t) db = {[rid := r]}) as Hat.
  { intros Q (rid & r & tid' & t' & HR & HT & Hl & HQ). destruct (singleton_row _ _ _ tid t HT Ht) as [-> ->].
    assert (res_of (t_bundle t') db !! rid = Some r) as Hr by (rewrite HR; by apply lookup_singleton_eq).
    apply map_lookup_filter_Some in Hr as [Hr Hrb]. by exists rid, r. }
  cbn in Hok. unfold bundle_ok in Hok.
  assert (untouched b (res_of (t_bundle t) db) (tickets_of (t_bundle t) db) → False) as Hun.
  { intros (_ & E & _). by rewrite E, lookup_empty in Ht. }
  assert (broken registry b (res_of (t_bundle t) db) (tickets_of (t_bundle t) db) → False) as Hbr.
  { intros (_ & (rid & r & _ & _ & _ & (E & _) & _)%Hat). congruence. }
  assert (done registry b (res_of (t_bundle t) db) (tickets_of (t_bundle t) db) → False) as Hdo.
  { intros (c & _ & (rid & r & _ & _ & _ & (E & _) & _)%Hat). congruence. }
  destruct (b_state b) eqn:Hs; try (by destruct Hun); try (by destruct Hbr); try (by destruct Hdo); try (by destruct Hok);
    try (exfalso; tauto).
  destruct Hok as (_ & (rid & r & Hr & Hrb & Hl & (Hn & _) & HT & HR)%Hat). by exists b, rid, r.
Qed.

Lemma live_slot_Ok hotkey slot now db tid t : live_v9_confirmation_slot_ticket hotkey slot now db = Some (tid, t) →
  tickets db !! tid = Some t ∧ t_hotkey t = hotkey ∧ t_slot t = slot ∧ t_status t = issued ∧ now < t_deadline t.
Proof.
  unfold live_v9_confirmation_slot_ticket. intros H. assert ((tid, t) ∈ py_sorted
    (cmp_then (cmp_by Z.compare (λ kt, t_issued_at kt.2)) (cmp_by Z.compare fst))
    (filter (λ kt, String.eqb (t_hotkey kt.2) hotkey && String.eqb (t_slot kt.2) slot &&
                   bool_decide (t_status kt.2 = issued) && (now <? t_deadline kt.2) = true)
       (map_to_list (tickets db)))) as Hin.
  { destruct (py_sorted _ _) as [|x l]; [done|]. injection H as ->. left. }
  rewrite py_sorted_perm in Hin. apply list_elem_of_filter in Hin as [Hp Hin%elem_of_map_to_list].
  cbn in *. rewrite !andb_true_iff, !String.eqb_eq, Z.ltb_lt, bool_decide_eq_true in Hp. tauto.
Qed.

Lemma issued_ticket id rid hotkey slot i new_ticket db db' tid t :
  issue_confirmation_bundle_ticket id rid hotkey slot (Aware i) new_ticket db = Ok (db', (tid, t)) →
  tickets db' !! tid = Some t ∧ t_hotkey t = hotkey ∧ t_slot t = slot ∧ t_status t = issued ∧ i < t_deadline t ∧
  t_bundle t = id.
Proof.
  unfold issue_confirmation_bundle_ticket. cbn [aware_instant mbind result_bind].
  destruct (bundles db !! id) as [b|] eqn:Hb; [|done]. destruct (reservations db !! rid) as [r|]; [|done].
  intros H. peel H. peel H. destruct (find_row _ _) as [[k x]|] eqn:E.
  - peel H. injection H as <- <- <-. apply find_row_Some in E as [Hk Hp]. bool_to_prop.
    split_and!; try done; by apply String.eqb_eq.
  - peel H. apply bind_Ok in H as (db1 & (_ & -> & _)%insert_ticket_Ok & H).
    apply bind_Ok in H as (db2 & (_ & -> & _)%update_bundle_Ok & [= <- <- <-]). cbn.
    rewrite lookup_insert_eq. split_and!; try done. unfold CONFIRMATION_TICKET_TTL, seconds. lia.
Qed.

Lemma issue_selected_ticket q profile budget id b db db' tid t :
  issue_selected q profile budget id b db = Ok (db', Some (tid, t)) →
  tickets db' !! tid = Some t ∧ t_hotkey t = cl_hotkey q ∧ t_slot t = cl_slot q ∧ t_status t = issued ∧
  instant_of (cl_now q) < t_deadline t ∧ t_bundle t = id.
Proof.
  unfold issue_selected. intros H. peel H. apply bind_Ok in H as ([] & _ & H). apply bind_Ok in H as (sum & _ & H).
  destruct (negb _); [done|]. apply bind_Ok in H as ([db1 o] & Hres & H).
  apply reserve_cases in Hres as (i & db2 & d & b' & Hnow & _).
  destruct o as [k r|k r|why]; [| |done]; apply bind_Ok in H as ([db3 t'] & Hi & H);
    apply bind_Ok in H as (found & _ & H); peel H; peel H; injection H as <- ->;
    rewrite Hnow in *; eapply issued_ticket; exact Hi.
Qed.

(** A claim that returns a ticket either found it live or issued it. *)
Lemma claim_ticket q db db' tid t : coherent db → request_v9_confirmation_job q registry db = Ok (db', Some (tid, t)) →
  tickets db' !! tid = Some t ∧ t_hotkey t = cl_hotkey q ∧ t_slot t = cl_slot q ∧ t_status t = issued ∧
  instant_of (cl_now q) < t_deadline t ∧
  ∃ b, bundles db' !! t_bundle t = Some b ∧ b_profile_revision b = cl_profile_revision q ∧
    b_profile_checksum b = cl_profile_checksum q.
Proof.
  intros Hco H0. pose proof H0 as H. unfold request_v9_confirmation_job in H.
  destruct (_registered_profile _ _ _) as [p|] eqn:Hp; [|done]. apply (registered_profile_Ok registry) in Hp.
  apply bind_Ok in H as ([db1 n] & Hm%(expire_moves registry) & H); [|done]. pose proof (moves_coherent _ _ _ Hco Hm) as Hco1.
  destruct (live_v9_confirmation_slot_ticket _ _ _ _) as [[k x]|] eqn:Hlive.
  { apply live_slot_Ok in Hlive as (Hx & Hh & Hs & Hst & Hd). apply bind_Ok in H as (found & Hl & H). peel H. subst found.
    destruct (_ || _) eqn:Hpr; [done|]. peel H. apply bind_Ok in H as ([] & _ & H). peel H. injection H as <- -> ->.
    apply (lock_attempt_Ok registry) in Hl as (_ & _ & _ & _ & _ & _ & Hb); [|done]. do 5 (split; [done|]).
    apply orb_false_iff in Hpr as [E1%negb_false_iff%String.eqb_eq E2%negb_false_iff%String.eqb_eq]. by eexists. }
  destruct (cl_paused q); [done|]. destruct (negb _); [done|].
  unfold issue_fresh in H. destruct (latest_settings db1) as [[rid row]|] eqn:Hlatest; [|done].
  apply bind_Ok in H as ([] & _ & H). apply bind_Ok in H as (sum & _ & H).
  destruct (_ || _ || _); [done|]. destruct (negb _); [done|].
  apply bind_Ok in H as (day & _ & H). destruct (lock_confirmation_budget_day _ _) as [db2 d] eqn:Hlock.
  apply (lock_day_moves registry) in Hlock as (Hm2 & _ & _ & Hset). pose proof (moves_coherent _ _ _ Hco1 Hm2) as Hco2.
  destruct (_ <=? 0); [done|]. destruct (cap_exhausted _ _ _); [done|].
  apply bind_Ok in H as (db3 & Hrec%reconcile_moves & H); [|done].
  pose proof (moves_coherent _ _ _ Hco2 Hrec) as Hco3.
  destruct (claimable_bundle _ _ _ _ _ _) as [[id b]|] eqn:Hc; [|done].
  apply claimable_Ok in Hc as (Hb & Hpr & Hpc & Hsr).
  assert (moves db3 db') as Hm3.
  { eapply issue_selected_moves; [done| |done|exact Hsr| |exact H].
    - rewrite <- Hlatest. apply latest_settings_same. by rewrite (moves_settings registry _ _ Hrec).
    - by rewrite Hpr, Hpc. }
  apply issue_selected_ticket in H as (Ht & Hh & Hs & Hst & Hd & <-). do 5 (split; [done|]).
  destruct (proj1 (moves_history _ _ _ Hco3 Hm3) _ _ Hb) as (b' & Hb' & Hf & _). exists b'. split; [done|].
  unfold frozen in Hf. split; congruence.
Qed.

(** C25: A claim hands out a funded lease. The ticket a claim returns is a live
    one of the claiming validator and slot, before its deadline; its bundle is
    leased under the profile the validator asked for, and its attempt has
    reserved, and not yet settled, the full ceiling of that profile. *)
Theorem claim_hands_out_a_funded_lease q db db' tid t :
  reachable registry accounts db → request_v9_confirmation_job q registry db = Ok (db', Some (tid, t)) →
  tickets db' !! tid = Some t ∧ t_status t = issued ∧ t_hotkey t = cl_hotkey q ∧ t_slot t = cl_slot q ∧
  instant_of (cl_now q) < t_deadline t ∧
  ∃ b rid r p, bundles db' !! t_bundle t = Some b ∧ b_state b = LEASED ∧
    b_profile_revision b = cl_profile_revision q ∧ b_profile_checksum b = cl_profile_checksum q ∧
    registry (cl_profile_revision q) (cl_profile_checksum q) = Some p ∧
    res_of (t_bundle t) db' = {[rid := r]} ∧ r_settlement r = None ∧ r_reserved r = lane_ceiling p.
Proof.
  intros Hco%reachable_coherent H. assert (coherent db') as Hco' by (eapply moves_coherent; [done|by eapply claim_moves]).
  apply claim_ticket in H as (Ht & Hh & Hs & Hst & Hd & b & Hb & Hpr & Hpc); [|done]. do 5 (split; [done|]).
  destruct (live_lease _ _ _ Hco' Ht Hst) as (b' & rid & r & Hb' & Hl & _ & _ & Hn & Hlease & _ & HR).
  rewrite Hb in Hb'. injection Hb' as <-. destruct Hlease as (_ & _ & _ & _ & _ & p & Hp & Hres).
  rewrite Hpr, Hpc in Hp. by exists b, rid, r, p.
Qed.

(** * Recovery *)

Lemma constraints_hold checks : holds checks → constraints checks = Ok tt.
Proof. unfold constraints. induction 1 as [|c checks Hc _ IH]; [done|]. cbn [foldr]. unfold constraint. by rewrite Hc. Qed.

Lemma failed_checks b : b_state b = LEASED → b_completion b = None → holds (bundle_checks b) →
  holds (bundle_checks (set_state FAILED b)).
Proof.
  unfold holds, bundle_checks, completion_check. cbn. intros -> -> H.
  repeat (inversion H as [|? ? ? H']; subst; clear H; rename H' into H; constructor; [done|]). constructor.
Qed.

Lemma expired_checks i t : t_status t = issued → holds (ticket_checks t) → holds (ticket_checks (set_expired i t)).
Proof.
  unfold holds, ticket_checks. cbn. intros Hst H. inversion H as [|? ? E1 H1]; subst. inversion H1 as [|? ? E2 H2]; subst.
  inversion H2 as [|? ? E3 H3]; subst. inversion H3 as [|? ? E4 H4]; subst. inversion H4 as [|? ? E5 H5]; subst.
  inversion H5 as [|? ? E6 H6]; subst. cbn in *. repeat (constructor; [done|]). constructor; [by rewrite orb_true_r|done].
Qed.

Lemma row_amounts db rows : valid_rows db → rows ⊆ reservations db →
  (∀ rid r, rows !! rid = Some r → 0 <= open_amount r) ∧ (∀ rid r, rows !! rid = Some r → 0 <= actual_amount r).
Proof.
  intros Hv Hsub. assert (∀ rid r, rows !! rid = Some r → holds (reservation_checks r)) as H.
  { intros rid r Hr. eapply (va_reservations _ Hv rid). by eapply lookup_weaken. }
  split; intros rid r Hr%H; pose proof (Forall_inv Hr) as E1; apply Forall_inv_tail, Forall_inv in Hr; cbn in *; bool_to_prop.
  - unfold open_amount. destruct (is_None _); lia.
  - unfold actual_amount. destruct (r_settlement r); bool_to_prop; lia.
Qed.

(** A day always covers the discharge of one of its open reservations. *)
Lemma day_covers db rid r d : coherent db → valid_rows db → reservations db !! rid = Some r → r_settlement r = None →
  days db !! r_day r = Some d →
  r_reserved r <= d_outstanding d ∧ 0 <= d_revision d ∧ 0 <= d_issued d ∧ 0 <= d_settled d.
Proof.
  intros Hco Hv Hr Hs Hd. pose proof (co_days _ _ Hco (r_day r)) as H. rewrite Hd in H. destruct H as (H1 & H2 & H3 & H4).
  apply (lookup_day_rows (r_day r)) in Hr; [|done].
  destruct (row_amounts db (day_rows (r_day r) db) Hv) as [Ho Ha]; [apply map_filter_subseteq|].
  assert (0 <= msum closed (day_rows (r_day r) db)) as Hc.
  { apply msum_nonneg. intros k x _. unfold closed. by destruct (is_None _). }
  rewrite (msum_delete _ _ _ _ Hr) in H2. unfold open_amount at 1 in H2. rewrite Hs in H2. cbn in H2.
  assert (0 <= msum open_amount (delete rid (day_rows (r_day r) db))).
  { apply msum_nonneg. intros k x [_ Hk]%lookup_delete_Some. by eapply Ho. }
  pose proof (msum_nonneg actual_amount _ Ha). lia.
Qed.

(** The reservation of a bundle's only attempt is the one a lookup finds. *)
Lemma find_only_reservation db id rid r n : res_of id db = {[rid := r]} → r_attempt r = n →
  find_reservation id n db = Some (rid, r).
Proof.
  intros HR Hn. unfold find_reservation.
  assert (res_of id db !! rid = Some r) as Hr by (rewrite HR; by apply lookup_singleton_eq).
  apply map_lookup_filter_Some in Hr as [Hr Hrb]. cbn in Hrb. destruct (find_row _ _) as [[k x]|] eqn:E.
  - apply find_row_Some in E as [Hk Hp]. bool_to_prop.
    destruct (singleton_row _ _ _ k x HR) as [-> ->]; [by apply lookup_res_of|done].
  - apply (find_row_None _ _ rid r) in E; [|done]. cbn in E. by rewrite Hrb, Hn, !Z.eqb_refl in E.
Qed.

Lemma fail_bundle id b db : b_state b = LEASED → holds (bundle_checks (set_state FAILED b)) →
  update_bundle id b (set_state FAILED b) db = Ok (with_bundles (<[id := set_state FAILED b]> (bundles db)) db).
Proof.
  intros Hst Hv. unfold update_bundle. rewrite Hst. change (b_state (set_state FAILED b)) with FAILED.
  change (transition_allowed LEASED FAILED) with true. change (bool_decide (FAILED = COMPLETED)) with false.
  unfold constraint. cbn [require mbind result_bind andb]. by rewrite constraints_hold.
Qed.

(** Settling an open reservation whole succeeds from its own day on. *)
Lemma settle_whole_succeeds db rid r d b tid t i a : coherent db → valid_rows db → reservations db !! rid = Some r →
  r_settlement r = None → bundles db !! r_bundle r = Some b → b_state b = LEASED → b_completion b = None →
  days db !! r_day r = Some d → tickets_of (r_bundle r) db = {[tid := t]} → t_status t = issued → tickets db !! tid = Some t →
  r_day r <= day_number i → at_reservation a = (rid, r) → at_budget a = d →
  settle_whole a (Aware i) db = Ok (failed_store rid r d {| se_actual := r_reserved r; se_failed := true; se_at := i |} b tid
    (set_expired i t) db, false).
Proof.
  intros Hco Hv Hr Hn Hb Hl Hcomp Hday HT Hst Ht Hle Ha Hd.
  destruct (day_covers _ _ _ _ Hco Hv Hr Hn Hday) as (D1 & D2 & D3 & D4).
  pose proof (va_reservations _ Hv rid r Hr) as Hvr. apply Forall_inv in Hvr. cbn in Hvr.
  assert (0 < r_reserved r) as Hpos by (bool_to_prop; lia).
  pose proof (failed_checks b Hl Hcomp (va_bundles _ Hv _ b Hb)) as Hvb.
  pose proof (expired_checks i t Hst (va_tickets _ Hv _ t Ht)) as Hvt.
  unfold settle_whole, settle_confirmation_bundle_budget. rewrite Ha, Hd. cbn [fst snd].
  unfold persist. rewrite (proj2 (Z.leb_le 0 (r_reserved r))) by lia. cbn [require mbind result_bind].
  rewrite Hr. cbn [some_or mbind result_bind _utc_day]. rewrite (proj2 (Z.leb_le _ _) Hle). cbn [require mbind result_bind].
  unfold lock_confirmation_budget_day. rewrite Hday. unfold stale_budget. rewrite Z.eqb_refl. cbn [require mbind result_bind].
  rewrite Hb, Hn. cbn [some_or mbind result_bind]. rewrite (proj2 (Z.leb_le _ _) D1). cbn [require mbind result_bind].
  unfold put_day. rewrite constraints_hold by (repeat constructor; cbn; rewrite !andb_true_iff, !Z.leb_le; lia).
  cbn [mbind result_bind]. unfold update_reservation.
  rewrite constraints_hold by (repeat constructor; cbn; [done|by apply Z.leb_le; lia]). cbn [mbind result_bind].
  unfold close_failed. rewrite fail_bundle by done. cbn [mbind result_bind].
  destruct (find_attempt registry _ _ _ _ Hco Hr Hb) as (tid' & t' & Hf & HT' & _).
  rewrite HT in HT'. apply (f_equal (lookup tid')) in HT'. rewrite lookup_singleton_eq in HT'.
  apply lookup_singleton_Some in HT' as [<- <-]. cbn [tickets with_bundles with_reservations with_days].
  rewrite Hf, Hst. rewrite bool_decide_eq_true_2 by done. unfold update_ticket. rewrite constraints_hold by done. done.
Qed.

(** Closing one overdue lease succeeds. *)
Lemma close_overdue db tid t i : coherent db → valid_rows db → tickets db !! tid = Some t → t_status t = issued →
  t_deadline t <= i →
  ∃ a rid r d b, let st := {| se_actual := r_reserved r; se_failed := true; se_at := i |} in
    lock_confirmation_attempt (t_bundle t) tid db = Ok (Some a) ∧
    reservations db !! rid = Some r ∧ r_bundle r = t_bundle t ∧ r_settlement r = None ∧
    bundles db !! t_bundle t = Some b ∧ tickets_of (t_bundle t) db = {[tid := t]} ∧
    settle_whole a (Aware i) db = Ok (failed_store rid r d st b tid (set_expired i t) db, false).
Proof.
  intros Hco Hv Ht Hst Hd.
  destruct (live_lease _ _ _ Hco Ht Hst) as (b & rid & r & Hb & Hl & Hr & Hrb & Hn & Hlease & HT & HR).
  destruct (reservation_day _ _ _ _ Hco Hr) as [d Hday]. destruct Hlease as (A1 & A2 & A3 & A4 & A5 & _).
  assert (b_completion b = None) as Hcomp.
  { pose proof (slot_of _ _ _ _ Hco Hb) as Hok. unfold bundle_ok in Hok. rewrite Hl in Hok. by destruct Hok. }
  assert (r_day r <= day_number i) as Hle.
  { rewrite A4. apply Z.div_le_mono; [done|]. unfold CONFIRMATION_TICKET_TTL, seconds in A5. lia. }
  eexists {| at_ticket := t; at_reservation := (rid, r); at_budget := d; at_bundle := b |}, rid, r, d, b. cbn zeta.
  split; [|do 5 (split; [done|])].
  - unfold lock_confirmation_attempt. rewrite Ht, Z.eqb_refl. cbn [negb].
    rewrite (find_only_reservation _ _ _ _ _ HR) by congruence. cbn [some_or mbind result_bind snd]. rewrite Hday.
    cbn [some_or mbind result_bind]. by rewrite Hb.
  - rewrite <- Hrb in *. by apply settle_whole_succeeds.
Qed.

(** Ticket [t] was closed at [i]: its bundle failed and its reservation settled whole. *)
Definition recovered (i : Z) (db db' : Db) (tid : Z) (t : Ticket) : Prop :=
  tickets db' !! tid = Some (set_expired i t) ∧
  ∃ b rid r, bundles db !! t_bundle t = Some b ∧ bundles db' !! t_bundle t = Some (set_state FAILED b) ∧
    reservations db !! rid = Some r ∧ r_bundle r = t_bundle t ∧ r_settlement r = None ∧
    reservations db' !! rid = Some (set_settlement {| se_actual := r_reserved r; se_failed := true; se_at := i |} r).

(** Rows [l] aside, nothing changed. *)
Definition apart_from (l : list (Z * Ticket)) (db db' : Db) : Prop :=
  (∀ tid t, tickets db !! tid = Some t → tid ∉ l.*1 → tickets db' !! tid = Some t) ∧
  (∀ j b, bundles db !! j = Some b → (∀ tid t, (tid, t) ∈ l → t_bundle t ≠ j) → bundles db' !! j = Some b) ∧
  (∀ k r, reservations db !! k = Some r → (∀ tid t, (tid, t) ∈ l → t_bundle t ≠ r_bundle r) →
     reservations db' !! k = Some r).

Definition overdue (i : Z) (db : Db) (kt : Z * Ticket) : Prop :=
  tickets db !! kt.1 = Some kt.2 ∧ t_status kt.2 = issued ∧ t_deadline kt.2 <= i.

Lemma failed_store_apart rid r d st b tid t t' db : reservations db !! rid = Some r → t_bundle t = r_bundle r →
  apart_from [(tid, t)] db (failed_store rid r d st b tid t' db).
Proof.
  intros Hr Htb. split_and!; cbn.
  - intros k x Hx Hk. rewrite lookup_insert_ne; [done|]. intros ->. apply Hk. left.
  - intros j x Hx Hj. rewrite lookup_insert_ne; [done|]. intros <-. apply (Hj tid t); [left|done].
  - intros k x Hx Hk. rewrite lookup_insert_ne; [done|]. intros ->. rewrite Hr in Hx. injection Hx as <-.
    apply (Hk tid t); [left|done].
Qed.

Lemma apart_trans tid t rows db db1 db' : apart_from [(tid, t)] db db1 → apart_from rows db1 db' →
  apart_from ((tid, t) :: rows) db db'.
Proof.
  intros (F1 & F2 & F3) (G1 & G2 & G3). split_and!.
  - intros k x Hx Hk. rewrite fmap_cons, not_elem_of_cons in Hk. destruct Hk as [Hk1 Hk2].
    apply G1; [|done]. apply F1; [done|]. cbn. by rewrite list_elem_of_singleton.
  - intros j x Hx Hj. apply G2; [|intros k y Hk; apply (Hj k y); by right]. apply F2; [done|].
    intros k y Hk%list_elem_of_singleton. injection Hk as -> ->. apply (Hj tid t). left.
  - intros j x Hx Hj. apply G3; [|intros k y Hk; apply (Hj k y); by right]. apply F3; [done|].
    intros k y Hk%list_elem_of_singleton. injection Hk as -> ->. apply (Hj tid t). left.
Qed.

(** Closing one lease and then others, of other bundles, recovers it. *)
Lemma recovered_first i rows db db' rid r d b tid t :
  let st := {| se_actual := r_reserved r; se_failed := true; se_at := i |} in
  reservations db !! rid = Some r → r_bundle r = t_bundle t → r_settlement r = None → bundles db !! t_bundle t = Some b →
  apart_from rows (failed_store rid r d st b tid (set_expired i t) db) db' →
  (∀ k x, (k, x) ∈ rows → k ≠ tid ∧ t_bundle x ≠ t_bundle t) → recovered i db db' tid t.
Proof.
  intros st Hr Hrb Hn Hb (G1 & G2 & G3) Hother. split.
  - apply G1; [by apply lookup_insert_eq|]. intros ([k x] & E & Hk)%list_elem_of_fmap. destruct (Hother _ _ Hk). by rewrite E in *.
  - exists b, rid, r. split; [done|]. split; [|do 3 (split; [done|])].
    + apply G2; [cbn; rewrite Hrb; by apply lookup_insert_eq|]. intros k x Hk. by destruct (Hother _ _ Hk).
    + apply G3; [by apply lookup_insert_eq|]. intros k x Hk. cbn. rewrite Hrb. by destruct (Hother _ _ Hk).
Qed.

Lemma recovered_later i db db' rid r d b tid t' k x :
  let st := {| se_actual := r_reserved r; se_failed := true; se_at := i |} in
  r_bundle r ≠ t_bundle x → recovered i (failed_store rid r d st b tid t' db) db' k x → recovered i db db' k x.
Proof.
  intros st Hne (Ht & b' & rid' & r' & Hb & Hb' & Hr & Hrb & Hn & Hr'). split; [done|].
  cbn in Hb, Hr. rewrite lookup_insert_ne in Hb by done. exists b', rid', r'.
  apply lookup_insert_Some in Hr as [[_ <-]|[_ Hr]]; [done|done].
Qed.

Lemma expire_loop_succeeds i rows : ∀ db, coherent db → valid_rows db → NoDup rows.*1 → Forall (overdue i db) rows →
  ∃ db', expire_loop (Aware i) rows db = Ok (db', Z.of_nat (length rows)) ∧ apart_from rows db db' ∧
    ∀ tid t, (tid, t) ∈ rows → recovered i db db' tid t.
Proof.
  induction rows as [|[tid t] rows IH]; intros db Hco Hv Hnd Hall.
  { exists db. split; [done|]. split; [done|]. intros tid t H. by apply elem_of_nil in H. }
  apply Forall_cons in Hall as [(Ht & Hst & Hd) Hall]. apply NoDup_cons in Hnd as [Hnot Hnd]. cbn [fst snd] in *.
  destruct (close_overdue _ _ _ _ Hco Hv Ht Hst Hd) as (a & rid & r & d & b & Hlock & Hr & Hrb & Hn & Hb & HT & Hset).
  set (st := Build_Settlement _ _ _) in *. set (db1 := failed_store _ _ _ _ _ _ _ _) in *.
  assert (moves db db1) as Hm.
  { eapply (expire_loop_moves registry (Aware i) [(tid, t)]); [done|]. cbn [expire_loop].
    rewrite Hlock. cbn [mbind result_bind some_or]. by rewrite Hset. }
  pose proof (failed_store_apart rid r d st b tid t (set_expired i t) db Hr (eq_sym Hrb)) as Hap. fold db1 in Hap.
  assert (∀ k x, (k, x) ∈ rows → k ≠ tid ∧ t_bundle x ≠ t_bundle t) as Hother.
  { intros k x Hk. assert (k ≠ tid) as Hne by (intros ->; apply Hnot, list_elem_of_fmap; by exists (tid, x)).
    split; [done|]. intros E. rewrite Forall_forall in Hall. destruct (Hall _ Hk) as [Hx _]. cbn in Hx.
    by destruct (singleton_row _ _ _ k x HT) as [-> _]; [apply lookup_tickets_of|]. }
  destruct (IH db1) as (db' & Hrun & Hap' & Hrec);
    [by eapply moves_coherent|by eapply moves_valid|done| |].
  { apply Forall_forall. intros [k x] Hk. rewrite Forall_forall in Hall. destruct (Hall _ Hk) as (Hx & Hxs).
    split; [|done]. apply Hap; [done|]. cbn. intros ->%list_elem_of_singleton. by destruct (Hother _ _ Hk). }
  exists db'. split; [|split].
  - cbn [expire_loop]. rewrite Hlock. cbn [mbind result_bind some_or]. rewrite Hset. cbn [mbind result_bind]. rewrite Hrun. cbn [mbind result_bind length]. f_equal. f_equal. lia.
  - by eapply apart_trans.
  - intros k x [[= -> ->]|Hk]%elem_of_cons.
    + by eapply recovered_first.
    + destruct (Hother _ _ Hk) as [_ Hne]. eapply recovered_later; [|by apply Hrec]. by rewrite Hrb.
Qed.

Lemma all_overdue i db tid t :
  (tid, t) ∈ py_sorted deadline_cmp (filter (λ kt, bool_decide (t_status kt.2 = issued) && (t_deadline kt.2 <=? i) = true)
    (map_to_list (tickets db))) ↔ overdue i db (tid, t).
Proof.
  rewrite py_sorted_perm, list_elem_of_filter, elem_of_map_to_list, andb_true_iff, bool_decide_eq_true, Z.leb_le.
  unfold overdue. cbn. tauto.
Qed.

Lemma overdue_rows i n db : NoDup (overdue_tickets i n db).*1 ∧ Forall (overdue i db) (overdue_tickets i n db).
Proof.
  unfold overdue_tickets. split.
  - eapply sublist_NoDup; [|apply fmap_sublist, sublist_take]. rewrite py_sorted_perm.
    eapply sublist_NoDup; [|apply fmap_sublist, sublist_filter]. apply NoDup_fst_map_to_list.
  - apply Forall_take, Forall_forall. intros [tid t]. apply all_overdue.
Qed.

(** C24: An overdue lease is always recovered. From any reachable store, the
    recovery of any aware time and limit in range succeeds: it closes exactly the
    overdue tickets it selects, each with its bundle failed and its reservation
    settled whole as a failed attempt, and changes no other ticket, bundle or
    reservation; and when it closes fewer than its limit, no overdue ticket is
    left. *)
Theorem overdue_leases_recovered i limit db :
  reachable registry accounts db → in_range limit 1 1000 = true →
  let rows := overdue_tickets i (Z.to_nat limit) db in
  ∃ db', expire_overdue_confirmation_bundle_tickets (Aware i) limit db = Ok (db', Z.of_nat (length rows)) ∧
    apart_from rows db db' ∧ (∀ tid t, (tid, t) ∈ rows → recovered i db db' tid t) ∧
    (Z.of_nat (length rows) < limit → ∀ tid t, tickets db !! tid = Some t → t_status t = issued → t_deadline t <= i →
       recovered i db db' tid t).
Proof.
  intros Hr Hlimit rows. pose proof (reachable_coherent _ _ _ Hr) as Hco. apply reachable_valid in Hr.
  destruct (overdue_rows i (Z.to_nat limit) db) as [Hnd Hall].
  destruct (expire_loop_succeeds i rows db Hco Hr Hnd Hall) as (db' & Hrun & Hap & Hrec).
  exists db'. split; [|do 2 (split; [done|])].
  - unfold expire_overdue_confirmation_bundle_tickets. rewrite Hlimit. exact Hrun.
  - intros Hlt tid t Ht Hst Hd. apply Hrec. assert (overdue i db (tid, t)) as Hov%all_overdue by done.
    unfold rows, overdue_tickets in *. rewrite length_take in Hlt. rewrite take_ge; [done|lia].
Qed.

End progress.

(** * Examples *)

#[local] Existing Instance sample_sha.
#[local] Existing Instance sample_keypair.
#[local] Existing Instance sample_libm.
#[local] Notation configured := (sample_run [sample_setup]).
#[local] Notation leased := (sample_run [sample_setup; Claim sample_claim]).

Definition claimed (r : result (Db * option (Z * Ticket))) : bool :=
  match r with Ok (_, Some _) => true | _ => false end.

Lemma sample_claimed : claimed (configured ≫= request_v9_confirmation_job sample_claim sample_registry) = true.
Proof. vm_compute. reflexivity. Qed.

Lemma claim_hands_out_a_funded_lease_witness : ∃ db db' tid t, configured = Ok db ∧
  request_v9_confirmation_job sample_claim sample_registry db = Ok (db', Some (tid, t)) ∧ t_hotkey t = "validator".
Proof.
  pose proof sample_claimed as H. destruct configured as [db|] eqn:E; [|discriminate H]. cbn [mbind result_bind] in H.
  destruct (request_v9_confirmation_job sample_claim sample_registry db) as [[db' [[tid t]|]]|] eqn:Hq;
    [|discriminate H|discriminate H].
  exists db, db', tid, t. split; [reflexivity|]. split; [exact Hq|].
  destruct (claim_hands_out_a_funded_lease sample_registry sample_accounts sample_claim db db' tid t
    (run_reachable _ _ E) Hq) as (_ & _ & Hh & _). exact Hh.
Defined.

(** Five hours after the claim its lease is overdue. *)
Definition sample_late : Z := sample_instant + seconds 18000.
Lemma sample_overdue : match sample_run [sample_setup; Claim sample_claim] with
  | Ok db => fst <$> overdue_tickets sample_late 100 db = [30] | Err _ => False end.
Proof. vm_compute. reflexivity. Qed.

Lemma overdue_leases_recovered_witness : ∃ db db', leased = Ok db ∧
  expire_overdue_confirmation_bundle_tickets (Aware sample_late) 100 db = Ok (db', 1).
Proof.
  pose proof sample_overdue as H. destruct leased as [db|] eqn:E; [|destruct H].
  destruct (overdue_leases_recovered sample_registry sample_accounts sample_late 100 db (run_reachable _ _ E) eq_refl)
    as (db' & Hrun & _). exists db, db'. split; [reflexivity|]. rewrite Hrun.
  apply (f_equal length) in H. rewrite length_fmap in H. change (Z.to_nat 100) with 100%nat. rewrite H. reflexivity.
Defined.
