(* ===== verification/ConfirmationReplay.v ===== *)
(** What becomes of a report that was accepted: as long as its bundle is not
    superseded by a retest, it can be sent again, and the lane answers as it did
    and writes nothing on its account.  The reconciliation of the candidates,
    which the endpoint runs after every report, writes subjects and bundles only
    ([same_attempts]). *)
From Stdlib Require Import ZArith Lia.
From stdpp Require Import base gmap list strings relations.
From S2P Require Import Prelude Binary64 PyText ConfirmationPolicy ConfirmationReport ConfirmationEvidence ConfirmationEvidenceFacts ConfirmationStore ConfirmationLane ConfirmationService ConfirmationInvariant ConfirmationMoves ConfirmationSteps ConfirmationSafety ConfirmationProgress.

#[local] Open Scope string_scope.
#[local] Open Scope Z_scope.

Section replay.
Context {SH : Sha256} {KP : Keypair} {LM : Libm} (registry : Registry) (accounts : gmap Z string).
#[local] Notation moves := (rtc (move registry)).
#[local] Notation coherent := (coherent registry).

(** * What a reconciliation writes *)

(** The attempts, their money and their evidence, and the settings. *)
Definition same_attempts (db db' : Db) : Prop :=
  tickets db' = tickets db ∧ reservations db' = reservations db ∧ days db' = days db ∧
  dimension_rows db' = dimension_rows db ∧ settings_rows db' = settings_rows db.
#[local] Instance same_attempts_preorder : PreOrder same_attempts.
Proof. split; [done|]. unfold same_attempts. intros a b c. intuition congruence. Qed.

Lemma put_subject_frame key s db db' : put_subject key s db = Ok db' → same_attempts db db'.
Proof. by intros [-> _]%put_subject_Ok. Qed.
Lemma update_bundle_frame id old new db db' : update_bundle id old new db = Ok db' → same_attempts db db'.
Proof. by intros (_ & -> & _)%update_bundle_Ok. Qed.
Lemma insert_bundle_frame id b db db' : insert_bundle id b db = Ok db' → same_attempts db db'.
Proof. by intros (_ & -> & _)%insert_bundle_Ok. Qed.

Lemma record_base_frame agent version p db db' s :
  record_base_only_subject agent version p db = Ok (db', s) → same_attempts db db'.
Proof.
  unfold record_base_only_subject. intros H. peel H. peel H. peel H.
  assert (∀ row : Subject, (put_subject (agent, version) row db ≫= λ db0, Ok (db0, row)) = Ok (db', s) →
    same_attempts db db') as Hput.
  { intros row H'. apply bind_Ok in H' as (db0 & H0 & [= <- <-]). by eapply put_subject_frame. }
  destruct (subjects db !! (agent, version)) as [old|]; [destruct (is_None (s_bundle old))|];
    [by apply Hput in H| |by apply Hput in H].
  peel H. by injection H as <- <-.
Qed.

Lemma ledger_frame version rows db db' l : ledger_candidates version rows db = Ok (db', l) → same_attempts db db'.
Proof.
  revert db db' l. induction rows as [|row rows IH]; intros db db' l; cbn [ledger_candidates]; [by intros [= <- <-]|].
  intros H. apply bind_Ok in H as (p & _ & H). apply bind_Ok in H as ([db1 s] & Hb & H).
  peel H. peel H. apply bind_Ok in H as ([db2 rest] & Hrest & [= <- <-]).
  etrans; [by eapply record_base_frame|by eapply IH].
Qed.

Lemma supersede_frame id source rev sum new_id now db db' x :
  _supersede_unspent_bundle_for_settings id source rev sum new_id now db = Ok (db', x) → same_attempts db db'.
Proof.
  unfold _supersede_unspent_bundle_for_settings. destruct (negb _); [by intros [= <- <-]|].
  destruct (has_dimension _ _); [by intros [= <- <-]|]. destruct (_ || _); [by intros [= <- <-]|].
  intros H. apply bind_Ok in H as (db1 & H1%update_bundle_frame & H). cbv zeta in H.
  apply bind_Ok in H as (db2 & H2%insert_bundle_frame & [= <- _]). by etrans.
Qed.

Lemma resolve_bundle_frame a v r s srev ssum new_id now db db' x :
  resolve_bundle a v r s srev ssum new_id now db = Ok (db', x) → same_attempts db db'.
Proof.
  unfold resolve_bundle. destruct (latest_generation _ _ _ _ _) as [[id b]|].
  - destruct (_ || _); [apply supersede_frame|by intros [= <- <-]].
  - cbv zeta. intros H. apply bind_Ok in H as (db1 & H1%insert_bundle_frame & [= <- _]). exact H1.
Qed.

Lemma get_or_create_frame agent version proof srev s p new_id now db db' r :
  get_or_create_confirmation_bundle agent version proof srev s p new_id now db = Ok (db', r) → same_attempts db db'.
Proof.
  unfold get_or_create_confirmation_bundle. case_bool_decide as Hoff; intros H.
  { apply bind_Ok in H as ([db1 row] & H1%record_base_frame & [= <- _]). exact H1. }
  peel H. apply bind_Ok in H as ([[rev sum] q] & _ & H). do 3 peel H. peel H.
  apply bind_Ok in H as ([db1 [id b]] & H1%resolve_bundle_frame & H). peel H. cbv zeta in H.
  apply bind_Ok in H as (row & _ & H). apply bind_Ok in H as (db2 & H2%put_subject_frame & [= <- _]). by etrans.
Qed.

Lemma resolve_selected_frame version srev s p draw now known chosen db db' :
  resolve_selected version srev s p draw now known chosen db = Ok db' → same_attempts db db'.
Proof.
  revert db. induction chosen as [|c chosen IH]; intros db; cbn [resolve_selected]; [by intros [= <-]|].
  destruct (proof_of _ _) as [[agent proof]|]; [|done]. intros H.
  apply bind_Ok in H as ([db1 r] & H1%get_or_create_frame & H). apply bind_Ok in H as (db2 & H2 & H%IH).
  etrans; [exact H1|]. etrans; [|exact H].
  destruct (reused_completed_evidence r); [|by injection H2 as <-].
  unfold _reproject_completed_subject_for_current_mode in H2. peel H2.
  apply bind_Ok in H2 as ([v m] & _ & H2). peel H2. by eapply put_subject_frame.
Qed.

Lemma reconcile_frame read db db' :
  reconcile_confirmation_candidates read registry db = Ok db' → same_attempts db db'.
Proof.
  unfold reconcile_confirmation_candidates. destruct (negb _); [by intros [= <-]|].
  intros H. apply bind_Ok in H as (db1 & Hfin & H). transitivity db1.
  { destruct (lr_finalized read) as [[agent proof]|]; [|by injection Hfin as <-].
    apply bind_Ok in Hfin as (p & _ & Hfin). apply bind_Ok in Hfin as ([db2 s] & Hb & [= <-]).
    by eapply record_base_frame. }
  destruct (lr_policy_lock read); [|by injection H as <-]. unfold reconcile_cohort in H.
  apply bind_Ok in H as ([] & _ & H). apply bind_Ok in H as ([db2 live] & Hl%ledger_frame & H).
  apply bind_Ok in H as (others & _ & H). apply bind_Ok in H as (selection & _ & H).
  etrans; [exact Hl|]. destruct (latest_settings db1) as [[rid row]|]; [|by injection H as <-].
  destruct (registered_confirmation_profile _ _ _) as [p|]; [|by injection H as <-].
  case_bool_decide; [by injection H as <-|]. by eapply resolve_selected_frame.
Qed.

(** * Replays of a report *)

(** Bundle [id] was completed by this very report. *)
Definition completed_by (id tid : Z) (hotkey : string) (report : ConfirmationCompletionReport) (b : Bundle) (db : Db) : Prop :=
  ∃ t c p s v, tickets db !! tid = Some t ∧ t_bundle t = id ∧ t_hotkey t = hotkey ∧ t_status t = scored ∧
    bundles db !! id = Some b ∧ b_state b = COMPLETED ∧ b_completion b = Some c ∧ co_ticket c = tid ∧
    _registered_profile registry (b_profile_revision b) (b_profile_checksum b) = Some p ∧ frozen_settings b db = Ok s ∧
    accept_report id tid b t report p s = Ok v ∧ same_completion c v report t = true.

Lemma lock_succeeds tid t b db : coherent db → tickets db !! tid = Some t → bundles db !! t_bundle t = Some b →
  b_state b = COMPLETED →
  ∃ a, lock_confirmation_attempt (t_bundle t) tid db = Ok (Some a) ∧ at_ticket a = t ∧ at_bundle a = b.
Proof.
  intros Hco Ht Hb Hst. pose proof (slot_of _ _ _ _ Hco Hb) as Hok. unfold bundle_ok in Hok. rewrite Hst in Hok.
  destruct Hok as (c & _ & rid & r & tid' & t' & HR & HT & (A1 & A2 & _) & _).
  destruct (singleton_row _ _ _ tid t HT) as [-> ->]; [by apply lookup_tickets_of|].
  assert (res_of (t_bundle t') db !! rid = Some r) as Hr by (rewrite HR; by apply lookup_singleton_eq).
  apply map_lookup_filter_Some in Hr as [Hr _]. destruct (reservation_day _ _ _ _ Hco Hr) as [d Hd].
  unfold lock_confirmation_attempt. rewrite Ht, Z.eqb_refl. cbn [negb].
  rewrite (find_only_reservation _ _ _ _ _ HR) by congruence. cbn [some_or mbind result_bind snd]. rewrite Hd.
  cbn [some_or mbind result_bind]. rewrite Hb. by eexists.
Qed.

Lemma replay_completed id tid hotkey report j b db : coherent db → completed_by id tid hotkey report b db →
  settle_and_complete id tid hotkey report registry (Aware j) db = Ok (db, b).
Proof.
  intros Hco (t & c & p & s & v & Ht & <- & Hh & Hst & Hb & Hc & Hcomp & Hct & Hp & Hs & Hacc & Hsame).
  destruct (lock_succeeds _ _ _ _ Hco Ht Hb Hc) as (a & Hlock & Ha1 & Ha2).
  unfold settle_and_complete. rewrite Hlock. cbn [some_or mbind result_bind]. rewrite Ha1, Ha2, Hh, String.eqb_refl.
  unfold persist. cbn [require mbind result_bind]. rewrite Hp, Hc. cbn [some_or mbind result_bind].
  rewrite (bool_decide_eq_true_2 (COMPLETED = COMPLETED)) by done. cbn [mbind result_bind].
  unfold complete_confirmation_bundle, persist. cbn [aware_instant mbind result_bind].
  rewrite Hb. cbn [some_or mbind result_bind]. rewrite Hc. cbn [require mbind result_bind]. rewrite bool_decide_eq_true_2 by set_solver.
  cbn [require mbind result_bind]. rewrite Ht. cbn [some_or mbind result_bind]. rewrite Z.eqb_refl. cbn [require mbind result_bind].
  rewrite (bool_decide_eq_false_2 (COMPLETED = LEASED)) by done. rewrite Hst, Hcomp. cbn [fmap option_fmap option_map].
  rewrite Hct, !bool_decide_eq_true_2 by done. cbn [require andb mbind result_bind]. rewrite Hs. cbn [mbind result_bind].
  rewrite Hacc. cbn [mbind result_bind]. by rewrite Hsame.
Qed.

Lemma same_completion_refl tid t m v report now :
  same_completion (completion_of tid t m v (bundle_signature report) now) v report (set_scored t) = true.
Proof. unfold same_completion, same_root. cbn -[canonical_json String.eqb]. by rewrite !String.eqb_refl. Qed.

Lemma each_subject_Ok (f : Subject → result Subject) rows db db' : each_subject f rows db = Ok db' →
  ∃ M, db' = with_subjects M db.
Proof.
  revert db. induction rows as [|[key s] rows IH]; intros db; cbn [each_subject].
  { intros [= <-]. exists (subjects db). by destruct db. }
  intros H. apply bind_Ok in H as (s' & _ & H). apply bind_Ok in H as (db1 & [-> _]%put_subject_Ok & H).
  apply IH in H as [M ->]. by exists M.
Qed.

(** A completion leaves a bundle completed by its report. *)
Lemma complete_leaves id tid hotkey report p now db db' b b' t : tickets db !! tid = Some t → t_hotkey t = hotkey →
  bundles db !! id = Some b → _registered_profile registry (b_profile_revision b) (b_profile_checksum b) = Some p →
  complete_confirmation_bundle id tid report p now db = Ok (db', b') → completed_by id tid hotkey report b' db'.
Proof.
  intros Ht Hh Hb Hp. unfold complete_confirmation_bundle. intros H. peel H. peel H. rewrite Hb in G0. injection G0 as <-.
  peel H. peel H. rewrite Ht in G1. injection G1 as <-. peel H. bool_to_prop.
  apply bind_Ok in H as ([] & Hlive & H). apply bind_Ok in H as (s & Hs & H). apply bind_Ok in H as (v & Hv & H).
  destruct (bool_decide (b_state b = COMPLETED)) eqn:Hst.
  - apply bool_decide_eq_true in Hst. rewrite Hst, (bool_decide_eq_false_2 (COMPLETED = LEASED)) in Hlive by done.
    apply persist_Ok in Hlive. peel H. injection H as <- <-. bool_to_prop.
    destruct (b_completion b) as [c|] eqn:Hc; [|done].
    match goal with E : co_ticket <$> Some c = Some tid |- _ => injection E as Hct end. by exists t, c, p, s, v.
  - unfold complete_leased in H. apply bind_Ok in H as (? & _ & H).
    apply bind_Ok in H as (db1 & (dims & ->)%add_dimensions_Ok & H).
    apply bind_Ok in H as (db2 & (_ & -> & Hvb)%update_bundle_Ok & H). apply bind_Ok in H as (db3 & [-> Hvt]%update_ticket_Ok & H).
    apply bind_Ok in H as (db4 & [M ->]%each_subject_Ok & [= <- <-]).
    eexists (set_scored t), _, p, s, v. split_and!;
      [apply lookup_insert_eq|done|done|done|apply lookup_insert_eq|done|done|done|done|exact Hs|exact Hv|].
    apply same_completion_refl.
Qed.


(** * What later transactions leave of it *)

Lemma move_completed db db' id b : move registry db db' → bundles db !! id = Some b → b_state b = COMPLETED →
  (bundles db' !! id = Some b ∨ bundles db' !! id = Some (set_state SUPERSEDED b)) ∧
  ∀ tid t, tickets db !! tid = Some t → t_bundle t = id → tickets db' !! tid = Some t.
Proof.
  intros Hm Hb Hst.
  assert (∀ i x y, bundles db !! i = Some x → b_state x ≠ COMPLETED → <[i := y]> (bundles db) !! id = Some b) as Hother.
  { intros i x y Hi Hne. rewrite lookup_insert_ne; [done|]. intros ->. congruence. }
  destruct Hm as [day Hday|i a|i x Hi|i x Hi Hs|i x Hi Hs|i x d rid r tid t rev row Hi Hs Hd Hr Ht|
    i x d rid r tid t st t' Hi Hs Hd Hr Ht Hrb Htb|i x d rid r tid t st c dims Hi Hs Hd Hr Ht Hrb Htb|key s];
    cbn [bundles tickets with_tickets with_days with_reservations with_dimension_rows with_bundles with_subjects with_authorizations];
    try (by split; [left|]).
  - split; [left|done]. rewrite lookup_insert_ne; [done|]. intros ->. congruence.
  - split; [|done]. destruct (decide (i = id)) as [->|Hne]; [|left; by rewrite lookup_insert_ne].
    right. rewrite lookup_insert_eq. congruence.
  - split; [left|done]. eapply Hother; [done|]. intros E. rewrite E in Hs. set_solver.
  - split; [left; eapply Hother; [done|]; intros E; rewrite E in Hs; set_solver|].
    intros k y Hk _. rewrite lookup_insert_ne; [done|]. intros ->. congruence.
  - split; [left; eapply Hother; [done|]; by rewrite Hs|].
    intros k y Hk Hy. rewrite lookup_insert_ne; [done|]. intros ->. congruence.
  - split; [left; eapply Hother; [done|]; by rewrite Hs|].
    intros k y Hk Hy. rewrite lookup_insert_ne; [done|]. intros ->. congruence.
Qed.

(** The bundle is still as the report left it, or a retest superseded it. *)
Definition kept (id tid : Z) (hotkey : string) (report : ConfirmationCompletionReport) (b : Bundle) (db : Db) : Prop :=
  completed_by id tid hotkey report b db ∨ ∃ x, bundles db !! id = Some x ∧ b_state x = SUPERSEDED.

Lemma superseded_final s s' : rtc lifecycle s s' → s = SUPERSEDED → s' = SUPERSEDED.
Proof. intros Hs ->. inversion Hs as [|? y ? Hl]; [done|]. inversion Hl; set_solver. Qed.

Lemma kept_move id tid hotkey report b db db' : coherent db → move registry db db' →
  kept id tid hotkey report b db → kept id tid hotkey report b db'.
Proof.
  intros Hco Hm [(t & c & p & s & v & Ht & Htb & Hh & Hst & Hb & Hc & Hcomp & Hct & Hp & Hs & Hacc & Hsame)|(x & Hx & Hst)].
  - destruct (move_completed _ _ _ _ Hm Hb Hc) as [[Hb'|Hb'] Htk]; [left|right; by eexists].
    exists t, c, p, s, v. split_and!; try done; [by apply Htk|].
    unfold frozen_settings in *. by rewrite (moves_settings registry db db') by by apply rtc_once.
  - right. destruct (move_bundles registry _ _ Hco Hm id x Hx) as (y & Hy & _ & Hl & _). exists y. split; [done|].
    by eapply superseded_final.
Qed.

Lemma kept_moves id tid hotkey report b db db' : coherent db → moves db db' →
  kept id tid hotkey report b db → kept id tid hotkey report b db'.
Proof.
  intros Hco Hm. induction Hm as [|x y z Hxy _ IH]; [done|]. intros Hk.
  apply IH; [by eapply move_coherent|by eapply kept_move].
Qed.

Lemma kept_execute id tid hotkey report b t db db' : coherent db → execute registry t db = Ok db' →
  kept id tid hotkey report b db → kept id tid hotkey report b db'.
Proof.
  intros Hco Ht Hk. destruct (execute_moves _ _ _ _ Hco Ht) as (db0 & Hm & Hco0 & Hdb).
  eapply kept_moves; [done|exact Hm|]. destruct Hdb as [->|(rev & row & -> & Hnew)]; [done|].
  destruct Hk as [(t' & c & p & s & v & Ht' & Htb & Hh & Hst & Hb & Hc & Hcomp & Hct & Hp & Hs & Hacc & Hsame)|Hk];
    [left|by right].
  exists t', c, p, s, v. split_and!; try done. unfold frozen_settings in *. cbn [settings_rows with_settings_rows].
  rewrite lookup_insert_ne; [done|]. intros E. by rewrite <- E, Hnew in Hs.
Qed.

Lemma kept_steps id tid hotkey report b db db' : coherent db → rtc (step registry) db db' →
  kept id tid hotkey report b db → coherent db' ∧ kept id tid hotkey report b db'.
Proof.
  intros Hco Hs. induction Hs as [|x y z [t Ht] _ IH]; [done|]. intros Hk.
  apply IH; [by eapply execute_coherent|by eapply kept_execute].
Qed.

(** A submission leaves its bundle completed by its report. *)
Lemma submit_leaves id tid hotkey report now db db' b : coherent db →
  settle_and_complete id tid hotkey report registry now db = Ok (db', b) → completed_by id tid hotkey report b db'.
Proof.
  intros Hco H. unfold settle_and_complete in H.
  apply bind_Ok in H as (found & Hl & H). peel H. subst found. peel H.
  apply (lock_attempt_Ok registry) in Hl as (Ht & Htb & Hr & Hrb & Hra & Hd & Hb); [|done].
  apply bind_Ok in H as (p & Hreg%some_or_Ok & H). apply bind_Ok in H as (db1 & Hset & H).
  assert (tickets db1 = tickets db ∧ bundles db1 = bundles db) as [E1 E2].
  { case_bool_decide; [by injection Hset as <-|]. peel Hset. apply bind_Ok in Hset as ([] & _ & Hset).
    apply bind_Ok in Hset as (v & _ & Hset). apply bind_Ok in Hset as ([db2 rep] & Hs & [= <-]).
    apply (settle_cases registry) in Hs as (k & r & d & x & _ & _ & _ & _ & _ & Hs); [|done].
    destruct rep; [by destruct Hs as [-> _]|by destruct Hs as (_ & _ & _ & ->)]. }
  eapply complete_leaves in H; [done|by rewrite E1| |by rewrite E2|done]. by apply String.eqb_eq.
Qed.

(** C26: A report is accepted once and for all. If a submission succeeds, then
    after any further transactions of the lane under the same registered profiles,
    as long as no retest has superseded the bundle, the same report for the same ticket is answered again:
    the endpoint returns the same bundle, flagged as replayed, and its effect on
    the store is exactly that of the reconciliation of the candidates it ends
    with. That writes no ticket, reservation, budget day or evidence row, and no
    settings: nothing is settled or recorded a second time on account of the
    report. *)
Theorem report_replay_idempotent id tid hotkey report i j read read' db db1 db2 b replayed :
  reachable registry accounts db →
  submit_v9_confirmation_report id tid hotkey report registry (Aware i) read db = Ok (db1, (b, replayed)) →
  rtc (step registry) db1 db2 → b_state <$> bundles db2 !! id ≠ Some SUPERSEDED →
  submit_v9_confirmation_report id tid hotkey report registry (Aware j) read' db2 =
    (reconcile_confirmation_candidates read' registry db2 ≫= λ db3, Ok (db3, (b, true))) ∧
  ∀ db3, reconcile_confirmation_candidates read' registry db2 = Ok db3 → same_attempts db2 db3.
Proof.
  intros Hco%reachable_coherent H Hsteps Hns. split; [|intros db3; apply reconcile_frame].
  unfold submit_v9_confirmation_report in H. cbv zeta in H.
  apply bind_Ok in H as ([db0 b0] & Hsc & H). apply bind_Ok in H as (db1' & Hrec & [= -> -> _]).
  pose proof (settle_complete_moves _ _ _ _ _ _ _ _ _ Hco Hsc) as Hm0.
  pose proof (moves_coherent _ _ _ Hco Hm0) as Hco0.
  apply submit_leaves in Hsc; [|done]. pose proof (reconcile_moves _ _ _ _ Hco0 Hrec) as Hm1.
  pose proof (moves_coherent _ _ _ Hco0 Hm1) as Hco1.
  assert (kept id tid hotkey report b db1) as Hk by (eapply kept_moves; [exact Hco0|exact Hm1|by left]).
  destruct (kept_steps _ _ _ _ _ _ _ Hco1 Hsteps Hk) as [Hco2 [Hc|(x & Hx & Hst)]].
  - unfold submit_v9_confirmation_report. rewrite (replay_completed _ _ _ _ _ b _ Hco2 Hc).
    destruct Hc as (t & c & p & s & v & _ & _ & _ & _ & Hb & Hc & _). rewrite Hb. cbn. by rewrite Hc.
  - destruct Hns. by rewrite Hx, <- Hst.
Qed.
End replay.

(** * Example *)

#[local] Existing Instance sample_sha.
#[local] Existing Instance sample_keypair.
#[local] Existing Instance sample_libm.
#[local] Notation leased := (sample_run [sample_setup; Claim sample_claim]).
#[local] Notation submitted db i :=
  (submit_v9_confirmation_report 7 30 "validator" sample_report sample_registry (Aware i) sample_read db).

Lemma sample_submitted : match leased ≫= λ db, submitted db (sample_instant + 60) with
  | Ok (db', _) => is_ok (submitted db' (sample_instant + 90)) && negb (bool_decide (b_state <$> bundles db' !! 7 = Some SUPERSEDED))
  | Err _ => false end = true.
Proof. vm_compute. reflexivity. Qed.

(** The same report again, half a minute later: the endpoint accepts it, and no
    attempt has changed. *)
Lemma report_replay_idempotent_witness : ∃ db db1 b replayed db2, leased = Ok db ∧
  submitted db (sample_instant + 60) = Ok (db1, (b, replayed)) ∧
  submitted db1 (sample_instant + 90) = Ok (db2, (b, true)) ∧ same_attempts db1 db2.
Proof.
  pose proof sample_submitted as H. destruct leased as [db|] eqn:E; [|discriminate H]. cbn [mbind result_bind] in H.
  destruct (submitted db (sample_instant + 60)) as [[db1 [b replayed]]|] eqn:Hs; [|discriminate H].
  apply andb_true_iff in H as [Hok Hns%negb_true_iff%bool_decide_eq_false].
  destruct (report_replay_idempotent sample_registry sample_accounts 7 30 "validator" sample_report (sample_instant + 60)
    (sample_instant + 90) sample_read sample_read db db1 db1 b replayed (run_reachable _ _ E) Hs (rtc_refl _ _) Hns)
    as [Heq Hsame].
  rewrite Heq in Hok. destruct (reconcile_confirmation_candidates sample_read sample_registry db1) as [db2|] eqn:Hr;
    [|discriminate Hok].
  exists db, db1, b, replayed, db2. split; [reflexivity|]. split; [exact Hs|]. split; [exact Heq|].
  exact (Hsame db2 eq_refl).
Defined.
