(* ===== verification/ConfirmationRefinement.v ===== *)
(** The database layer of the confirmation lane does what its policy core says:
    the rows of a budget day and of a reservation refine the compare-and-swap
    arithmetic of [ConfirmationPolicy]. *)
From Stdlib Require Import ZArith Lia.
From stdpp Require Import base gmap list strings relations.
From S2P Require Import Prelude Binary64 PyText ConfirmationPolicy ConfirmationReport ConfirmationEvidence ConfirmationEvidenceFacts ConfirmationStore ConfirmationLane ConfirmationService ConfirmationInvariant ConfirmationMoves ConfirmationSteps ConfirmationSafety ConfirmationProgress.

#[local] Open Scope string_scope.
#[local] Open Scope Z_scope.

(** * The abstraction *)

(** The snapshot a budget day is, a day without a row being empty. *)
Definition day_snapshot (day : Z) (db : Db) : DailyBudgetSnapshot :=
  let d := default empty_day (days db !! day) in
  {| snap_day := day; snap_revision := d_revision d; issued_attempts := d_issued d;
     outstanding_reserved_microusd := d_outstanding d; settled_microusd := d_settled d |}.

(** The policy's view of a reservation row, its bundle known by [key] and its
    identifier written [name]. *)
Definition reservation_view (name : string) (key : ConfirmationBundleKey) (r : Reservation) : BudgetReservation :=
  {| reservation_id := name; bundle_key := key; res_day := r_day r; reserved_microusd := r_reserved r;
     res_state := r_state r; actual_microusd := se_actual <$> r_settlement r;
     failed_attempt := se_failed <$> r_settlement r |}.

(** The policy's view of stored settings under a profile. *)
Definition policy_view (s : PolicySettings) (p : ConfirmationProfileRef) : ConfirmationBundleSettings :=
  {| mode := ps_mode s; eligibility_mode := ps_eligibility_mode s; top_n := ps_top_n s;
     min_base_score_micros := ps_min_base_score_micros s; daily_bundle_cap := ps_daily_bundle_cap s;
     daily_dollar_cap_microusd := ps_daily_dollar_cap_microusd s;
     per_bundle_request_cap := ps_per_bundle_request_cap s; per_bundle_token_cap := ps_per_bundle_token_cap s;
     profile := p; challenger_z := ps_challenger_z s |}.

Section refinement.
Context {SH : Sha256} {KP : Keypair} {LM : Libm} (registry : Registry) (accounts : gmap Z string).
#[local] Notation coherent := (coherent registry).

Lemma int_between name z lo hi : lo <= z <= hi → _require_int_between name z lo hi = Ok tt.
Proof. intros [H1 H2]. unfold _require_int_between, in_range. by rewrite (proj2 (Z.leb_le _ _) H1), (proj2 (Z.leb_le _ _) H2). Qed.

Lemma snapshot_Ok s : 0 <= snap_revision s <= 2 ^ 62 → 0 <= issued_attempts s <= 2 ^ 62 →
  0 <= outstanding_reserved_microusd s <= 2 ^ 62 → 0 <= settled_microusd s <= 2 ^ 62 → new_snapshot s = Ok s.
Proof. intros. unfold new_snapshot, check_snapshot. by rewrite !int_between. Qed.

Lemma reservation_Ok name key r : name ≠ "" → 1 <= r_reserved r <= 2 ^ 62 →
  match r_settlement r with Some st => 0 <= se_actual st <= 2 ^ 62 | None => True end →
  new_reservation (reservation_view name key r) = Ok (reservation_view name key r).
Proof.
  intros Hn Hr. unfold new_reservation, check_reservation, reservation_view, r_state.
  cbn [reservation_id reserved_microusd actual_microusd failed_attempt res_state].
  rewrite (proj2 (String.eqb_neq _ _) Hn), int_between by done.
  destruct (r_settlement r) as [st|]; cbn [fmap option_fmap option_map is_None negb require mbind result_bind];
    intros Hs; [by rewrite int_between|done].
Qed.

(** The columns of a coherent day are small. *)
Lemma day_bounds db day : coherent db → valid_rows db →
  let d := default empty_day (days db !! day) in
  0 <= d_issued d <= MAX_DAILY_BUNDLE_CAP ∧ 0 <= d_outstanding d ∧ 0 <= d_settled d ∧
  d_outstanding d + d_settled d <= MAX_DAILY_DOLLAR_MICROUSD ∧ 0 <= d_revision d <= 2 * MAX_DAILY_BUNDLE_CAP.
Proof.
  intros Hco Hv. pose proof (co_caps _ _ Hco day) as [C1 C2]. pose proof (co_days _ _ Hco day) as H.
  unfold commitment, attempts in *. unfold MAX_DAILY_BUNDLE_CAP, MAX_DAILY_DOLLAR_MICROUSD in *.
  destruct (days db !! day) as [d|]; cbn in *; [|lia]. destruct H as (H1 & H2 & H3 & H4).
  destruct (row_amounts db (day_rows day db) Hv (map_filter_subseteq _ _)) as [Ho Ha].
  pose proof (msum_nonneg _ _ Ho). pose proof (msum_nonneg _ _ Ha).
  assert (0 <= msum closed (day_rows day db)) by (apply msum_nonneg; intros k x _; unfold closed; by destruct (is_None _)).
  assert (msum closed (day_rows day db) <= msum (λ _, 1) (day_rows day db)) as Hle.
  { apply msum_le. intros k x _. unfold closed. by destruct (is_None _). }
  rewrite msum_one in Hle. lia.
Qed.

Lemma reserve_refines id rid i expected srev s p key name amount db db' out :
  coherent db → valid_rows db → validate_settings s = Ok tt → name ≠ "" → amount <= 2 ^ 62 →
  reserve_confirmation_bundle_budget id rid (Aware i) expected srev s amount db = Ok (db', out) →
  match out with
  | Reserved _ r => reserve_daily_budget (day_snapshot (day_number i) db) expected (policy_view s p) key name amount
                      = Ok (day_snapshot (day_number i) db', reservation_view name key r)
  | Blocked why => reserve_daily_budget (day_snapshot (day_number i) db) expected (policy_view s p) key name amount
                      = Err (BudgetExhausted why) ∧ day_snapshot (day_number i) db' = day_snapshot (day_number i) db
  | Replayed _ _ => day_snapshot (day_number i) db' = day_snapshot (day_number i) db
  end.
Proof.
  intros Hco Hv [V1 V2]%settings_caps Hn Hamt (j & db1 & d & b & [= <-] & Hlock & Hb & Hpos & <- & _ & _ & Hout)%reserve_cases.
  pose proof (day_bounds db (day_number i) Hco Hv) as (B1 & B2 & B3 & B4 & B5).
  assert (d = default empty_day (days db !! day_number i) ∧ day_snapshot (day_number i) db1 = day_snapshot (day_number i) db)
    as [Ed Esnap].
  { unfold lock_confirmation_budget_day in Hlock. unfold day_snapshot.
    destruct (days db !! day_number i) as [d0|] eqn:E; injection Hlock as <- <-; [by rewrite E|].
    cbn. by rewrite lookup_insert_eq. }
  rewrite <- Ed in *. unfold MAX_DAILY_BUNDLE_CAP, MAX_DAILY_DOLLAR_MICROUSD in *.
  destruct out as [k r|k r|why].
  - destruct Hout as (Hmode & _ & -> & _ & _ & H1 & H2 & _ & ->). unfold reserve_daily_budget, day_snapshot.
    rewrite <- Ed. cbn [snap_revision issued_attempts committed_microusd outstanding_reserved_microusd settled_microusd
      mode daily_bundle_cap daily_dollar_cap_microusd policy_view snap_day].
    rewrite Z.eqb_refl, bool_decide_eq_false_2 by done. cbn [negb require mbind result_bind].
    rewrite int_between by lia. unfold committed_microusd. cbn [outstanding_reserved_microusd settled_microusd mbind result_bind].
    rewrite (proj2 (Z.leb_le _ _) H1), (proj2 (Z.leb_le _ _) H2). cbn [require mbind result_bind].
    rewrite snapshot_Ok by (cbn; lia). cbn [mbind result_bind].
    pose proof (reservation_Ok name key (first_reservation id (day_number i) srev amount) Hn) as Hres.
    unfold reservation_view in *. cbn in Hres. rewrite Hres by (done || lia). cbn [mbind result_bind].
    assert (days (reserved_store rid (day_number i) (first_reservation id (day_number i) srev amount) d id b db1)
      !! day_number i = Some (charge d amount)) as ->; [|done].
    unfold reserved_store. destruct (bool_decide _); apply lookup_insert_eq.
  - by destruct Hout as (_ & -> & _).
  - destruct Hout as (Hmode & Hwhy & _ & _ & ->). split; [|exact Esnap].
    unfold reserve_daily_budget, day_snapshot. rewrite <- Ed.
    cbn [snap_revision issued_attempts committed_microusd outstanding_reserved_microusd settled_microusd
      mode daily_bundle_cap daily_dollar_cap_microusd policy_view snap_day].
    rewrite Z.eqb_refl, bool_decide_eq_false_2 by done. cbn [negb require mbind result_bind].
    rewrite int_between by lia. unfold committed_microusd. cbn [outstanding_reserved_microusd settled_microusd mbind result_bind].
    unfold blocked_reason in Hwhy. rewrite (Z.leb_antisym (ps_daily_bundle_cap s)), (Z.leb_antisym (ps_daily_dollar_cap_microusd s)).
    destruct (ps_daily_bundle_cap s <? d_issued d + 1); [by injection Hwhy as <-|]. cbn [negb require mbind result_bind].
    destruct (ps_daily_dollar_cap_microusd s <? _); [by injection Hwhy as <-|done].
Qed.

(** The store after a settlement, whatever else it changed. *)
Lemma close_failed_same r b i db db' : close_failed r b i db = Ok db' →
  days db' = days db ∧ reservations db' = reservations db.
Proof.
  unfold close_failed. intros (db1 & (_ & -> & _)%update_bundle_Ok & H)%bind_Ok.
  destruct (find_row _ _) as [[k x]|]; [|by injection H as <-].
  destruct (bool_decide _); [by apply update_ticket_Ok in H as [-> _]|by injection H as <-].
Qed.

Lemma settle_refines rid i expected actual failed key name db db' replayed r :
  coherent db → valid_rows db → name ≠ "" → reservations db !! rid = Some r →
  settled_microusd (day_snapshot (r_day r) db) + actual <= 2 ^ 62 →
  settle_confirmation_bundle_budget rid expected actual failed (Aware i) db = Ok (db', replayed) →
  if replayed then db' = db else
  ∃ r', reservations db' !! rid = Some r' ∧
    settle_daily_budget (day_snapshot (r_day r) db) (reservation_view name key r) expected actual failed =
      Ok (day_snapshot (r_day r) db', reservation_view name key r').
Proof.
  intros Hco Hv Hn Hr Hmax (j & r0 & d & b & [= <-] & Hr' & Hd & _ & Hrev & H)%(settle_cases registry); [|done].
  rewrite Hr in Hr'. injection Hr' as <-. destruct replayed; [by destruct H|]. destruct H as (Hs & Hout & H).
  cbn zeta in H. destruct H as [Hvr H]. pose proof (Forall_inv Hvr) as V1. apply Forall_inv_tail, Forall_inv in Hvr.
  cbn in V1, Hvr. bool_to_prop. set (st := Build_Settlement _ _ _) in *.
  assert (days db' = days (settled_store rid r d st db) ∧ reservations db' = reservations (settled_store rid r d st db))
    as [Ed Er] by (destruct failed; [by eapply close_failed_same|by rewrite H]).
  exists (set_settlement st r). split; [rewrite Er; apply lookup_insert_eq|].
  pose proof (day_bounds db (r_day r) Hco Hv) as (B1 & B2 & B3 & B4 & B5).
  unfold MAX_DAILY_BUNDLE_CAP, MAX_DAILY_DOLLAR_MICROUSD in *. cbn [settled_microusd day_snapshot] in Hmax.
  assert (day_snapshot (r_day r) db' = {| snap_day := r_day r; snap_revision := d_revision d + 1; issued_attempts := d_issued d;
    outstanding_reserved_microusd := d_outstanding d - r_reserved r; settled_microusd := d_settled d + actual |}) as ->.
  { unfold day_snapshot. rewrite Ed. unfold settled_store. cbn [days with_days]. by rewrite lookup_insert_eq. }
  unfold settle_daily_budget, day_snapshot. rewrite Hd in *. cbn [default from_option id] in *.
  cbn [snap_revision snap_day issued_attempts outstanding_reserved_microusd settled_microusd res_day res_state
    reserved_microusd reservation_view reservation_id bundle_key]. unfold r_state. rewrite Hs, Hrev, !Z.eqb_refl.
  cbn [is_None]. rewrite bool_decide_eq_true_2, (proj2 (Z.leb_le _ _) Hout) by done. cbn [require mbind result_bind].
  rewrite int_between, snapshot_Ok by (cbn; lia). cbn [mbind result_bind].
  pose proof (reservation_Ok name key (set_settlement st r) Hn) as Hres. unfold reservation_view in *. cbn in Hres.
  rewrite Hres by lia. by rewrite <- Hrev.
Qed.

(** C27: The stored budget refines the policy's. In every reachable store, a
    reservation of the database layer that is granted is the one the policy core
    grants on the same snapshot, with the same next snapshot and reservation; one
    that is blocked is refused by the policy for the same cap, and the day stays.
    This is for settings that pass [validate_settings], which the claim checks
    first, and for amounts up to the policy's range of 2^62. A settlement is the policy's
    settlement, also when the actual cost exceeds what was reserved or carries
    the day over its cap, as long as the day's settled total stays within that
    range; a replayed one changes nothing. *)
Theorem budget_refines_policy db i key name :
  reachable registry accounts db → name ≠ "" →
  (∀ id rid expected srev s p amount db' out, validate_settings s = Ok tt → amount <= 2 ^ 62 →
     reserve_confirmation_bundle_budget id rid (Aware i) expected srev s amount db = Ok (db', out) →
     let granted := reserve_daily_budget (day_snapshot (day_number i) db) expected (policy_view s p) key name amount in
     match out with
     | Reserved _ r => granted = Ok (day_snapshot (day_number i) db', reservation_view name key r)
     | Blocked why => granted = Err (BudgetExhausted why) ∧
                      day_snapshot (day_number i) db' = day_snapshot (day_number i) db
     | Replayed _ _ => day_snapshot (day_number i) db' = day_snapshot (day_number i) db
     end) ∧
  (∀ rid expected actual failed db' replayed r, reservations db !! rid = Some r →
     settled_microusd (day_snapshot (r_day r) db) + actual <= 2 ^ 62 →
     settle_confirmation_bundle_budget rid expected actual failed (Aware i) db = Ok (db', replayed) →
     if replayed then db' = db else
     ∃ r', reservations db' !! rid = Some r' ∧
       settle_daily_budget (day_snapshot (r_day r) db) (reservation_view name key r) expected actual failed =
         Ok (day_snapshot (r_day r) db', reservation_view name key r')).
Proof.
  intros Hr Hn. pose proof (reachable_coherent _ _ _ Hr) as Hco. apply reachable_valid in Hr. split.
  - intros. cbn zeta. by eapply reserve_refines.
  - intros. by eapply settle_refines.
Qed.
End refinement.

(** * Examples *)

#[local] Existing Instance sample_sha.
#[local] Existing Instance sample_keypair.
#[local] Existing Instance sample_libm.
#[local] Notation configured := (sample_run [sample_setup]).
#[local] Notation reserving db :=
  (reserve_confirmation_bundle_budget 7 20 (Aware sample_instant) 0 3 sample_settings 4500000 db).

Definition granted_amount (r : result (Db * ReservationOutcome)) : option Z :=
  match r with Ok (_, Reserved _ x) => Some (r_reserved x) | _ => None end.
Lemma sample_granted : granted_amount (configured ≫= λ db, reserving db) = Some 4500000.
Proof. vm_compute. reflexivity. Qed.

Definition sample_key : ConfirmationBundleKey :=
  {| key_artifact_sha256 := zeros64; key_bench_version := 9; key_profile_revision := "profile";
     key_profile_checksum := zeros64; retest_generation := 0 |}.
Definition sample_ref : ConfirmationProfileRef := {| ref_revision := "profile"; ref_checksum := zeros64 |}.

(** Six dollars are charged to a reservation of four and a half. *)
#[local] Notation leased := (sample_run [sample_setup; Claim sample_claim]).
#[local] Notation settling db := (settle_confirmation_bundle_budget 20 1 6000000 false (Aware sample_instant) db).
Lemma sample_overrun : match leased with
  | Ok db => r_reserved <$> reservations db !! 20 = Some 4500000 ∧ snd <$> (match settling db with Ok x => Some x | Err _ => None end) = Some false
      ∧ settled_microusd (day_snapshot 0 db) = 0 ∧ r_day <$> reservations db !! 20 = Some 0
  | Err _ => False end.
Proof. vm_compute. by split_and!. Qed.

Lemma budget_refines_policy_witness :
  (∃ db db' k r, configured = Ok db ∧ reserving db = Ok (db', Reserved k r) ∧
    reserve_daily_budget (day_snapshot 0 db) 0 (policy_view sample_settings sample_ref) sample_key "reservation" 4500000 =
      Ok (day_snapshot 0 db', reservation_view "reservation" sample_key r)) ∧
  ∃ db db' r r', leased = Ok db ∧ r_reserved r = 4500000 ∧ settling db = Ok (db', false) ∧
    settle_daily_budget (day_snapshot 0 db) (reservation_view "reservation" sample_key r) 1 6000000 false =
      Ok (day_snapshot 0 db', reservation_view "reservation" sample_key r').
Proof.
  split.
  - pose proof sample_granted as H. destruct configured as [db|] eqn:E; [|discriminate H]. cbn [mbind result_bind] in H.
    destruct (reserving db) as [[db' [k r|k r|why]]|] eqn:Hres; [|discriminate H..]. clear H.
    exists db, db', k, r. split; [reflexivity|]. split; [exact Hres|].
    destruct (budget_refines_policy sample_registry sample_accounts db sample_instant sample_key "reservation"
      (run_reachable _ _ E) ltac:(discriminate)) as [H _].
    refine (H 7 20 0 3 sample_settings sample_ref 4500000 db' (Reserved k r) _ _ Hres); [vm_compute; reflexivity|].
    apply Z.leb_le. vm_compute. reflexivity.
  - pose proof sample_overrun as H. destruct leased as [db|] eqn:E; [|destruct H].
    destruct H as (Hr & Hs & H0 & Hd). destruct (reservations db !! 20) as [r|] eqn:Hrow; [|discriminate Hr].
    destruct (settling db) as [[db' rep]|] eqn:Hset; [|discriminate Hs]. injection Hr as Hr. injection Hs as ->. injection Hd as Hd.
    destruct (budget_refines_policy sample_registry sample_accounts db sample_instant sample_key "reservation"
      (run_reachable _ _ E) ltac:(discriminate)) as [_ H].
    specialize (H 20 1 6000000 false db' false r Hrow). rewrite Hd, H0 in H.
    destruct (H ltac:(apply Z.leb_le; vm_compute; reflexivity) Hset) as (r' & _ & Hok).
    exists db, db', r, r'. split; [reflexivity|]. split; [exact Hr|]. split; [exact Hset|exact Hok].
Defined.
