(* ===== verification/ScoreOrder.v ===== *)
(** The comparator that orders submissions: [apps/platform/ditto/score_order.py].

    A row class supplies what the comparator reads ([RankableRow]); the
    attributes the code reads with [getattr] and a default ([eligible],
    [fold_first_seen]) are methods that return that default where a class has
    no such attribute.  A [UUID] is its integer: [str] of a UUID is fixed-width
    lowercase hexadecimal, so the strings order like the integers. *)
From Stdlib Require Import ZArith Lia.
From stdpp Require Import base list strings sorting.
From S2P Require Import Prelude Binary64.

Class RankableRow (R : Type) := {
  row_agent_id : R → Z;
  row_first_seen : R → Z;
  row_composite : R → F64;
  row_eligible : R → bool;
  row_fold_first_seen : R → option Z
}.

(** [_RANK_HORIZON], 9999-12-31T23:59:59 in microseconds since 1970. *)
Definition _RANK_HORIZON : Z := 253402300799 * 1000000.

(** [ScoreOrderKey]: the two scores are negated in the source, so they order
    descending. *)
Record ScoreOrderKey := {
  key_ineligible : bool;
  key_primary : F64;
  key_secondary : F64;
  key_clock : Z;
  key_id : Z
}.

Definition score_order_cmp : ScoreOrderKey → ScoreOrderKey → comparison :=
  cmp_then (cmp_by Z.compare (λ k, Z.b2z (key_ineligible k)))
    (cmp_then (cmp_desc (cmp_by fcompare key_primary))
      (cmp_then (cmp_desc (cmp_by fcompare key_secondary))
        (cmp_then (cmp_by Z.compare key_clock) (cmp_by Z.compare key_id)))).

(** A mapping from agents to scores; [score_secondaries] is the
    [secondary_scores] attribute an official-score mapping carries, empty for a
    plain [dict]. *)
Record ScoreMap := {
  score_values : list (Z * F64);
  score_secondaries : list (Z * F64)
}.
Definition plain_scores (values : list (Z * F64)) : ScoreMap :=
  {| score_values := values; score_secondaries := [] |}.

Section order.
Context {R : Type} `{RankableRow R}.

Definition ranking_first_seen (row : R) : Z :=
  default (row_first_seen row) (row_fold_first_seen row).

Definition score_order_key (row : R) (score secondary_score : option F64) : ScoreOrderKey :=
  let primary := default (row_composite row) score in
  let secondary := default primary secondary_score in
  {| key_ineligible := negb (row_eligible row); key_primary := primary;
     key_secondary := secondary; key_clock := ranking_first_seen row;
     key_id := row_agent_id row |}.

(** Inside one owner's family the newest upload wins a tie. *)
Definition owner_family_key (row : R) (score secondary_score : option F64) : ScoreOrderKey :=
  let primary := default (row_composite row) score in
  let secondary := default primary secondary_score in
  {| key_ineligible := negb (row_eligible row); key_primary := primary;
     key_secondary := secondary; key_clock := _RANK_HORIZON - row_first_seen row;
     key_id := row_agent_id row |}.

(** The two mappings [rank_submissions] and [select_owner_representative] read. *)
Definition values_of (scores : option ScoreMap) : list (Z * F64) :=
  match scores with Some m => score_values m | None => [] end.
Definition secondary_of (scores : option ScoreMap) (secondary_scores : option (list (Z * F64)))
    : list (Z * F64) :=
  match secondary_scores with
  | Some s => s
  | None => match scores with Some m => score_secondaries m | None => [] end
  end.

Definition submission_key (scores : option ScoreMap) (secondary_scores : option (list (Z * F64)))
    (row : R) : ScoreOrderKey :=
  score_order_key row (dict_get (row_agent_id row) (values_of scores))
    (dict_get (row_agent_id row) (secondary_of scores secondary_scores)).

Definition rank_submissions (rows : list R) (scores : option ScoreMap)
    (secondary_scores : option (list (Z * F64))) : list R :=
  py_sorted (cmp_by score_order_cmp (submission_key scores secondary_scores)) rows.

Definition family_key (scores : option ScoreMap) (secondary_scores : option (list (Z * F64)))
    (row : R) : ScoreOrderKey :=
  owner_family_key row (dict_get (row_agent_id row) (values_of scores))
    (dict_get (row_agent_id row) (secondary_of scores secondary_scores)).

Definition select_owner_representative (rows : list R) (scores : option ScoreMap)
    (secondary_scores : option (list (Z * F64))) : list R :=
  py_sorted (cmp_by score_order_cmp (family_key scores secondary_scores)) rows.
End order.

(** * Properties *)

#[global] Instance score_order_cmp_order : CmpOrder score_order_cmp.
Proof. unfold score_order_cmp. apply _. Qed.

Section theory.
Context {R : Type} `{RankableRow R}.
Implicit Types rows : list R.

(** The score an order ranks a row on. *)
Definition ranked_score (scores : option ScoreMap) (row : R) : F64 :=
  default (row_composite row) (dict_get (row_agent_id row) (values_of scores)).

(** [b] stands after [a]. *)
Definition precedes {A} (l : list A) (a b : A) : Prop := ∃ l1 l2, l = l1 ++ a :: l2 ∧ b ∈ l2.

Lemma sorted_precedes {A} (cmp : A → A → comparison) (l : list A) a b :
  StronglySorted (cmp_le cmp) l → precedes l a b → cmp a b ≠ Gt.
Proof.
  intros Hs (l1 & l2 & -> & Hb). apply StronglySorted_app_1_r in Hs.
  inversion_clear Hs as [|? ? _ Hf]. by eapply Forall_forall in Hf.
Qed.

Lemma precedes_total {A} (l : list A) a b :
  a ∈ l → b ∈ l → a ≠ b → precedes l a b ∨ precedes l b a.
Proof.
  intros Ha Hb Hne. induction l as [|x l IH]; [by apply elem_of_nil in Ha|].
  apply elem_of_cons in Ha as [->|Ha], Hb as [->|Hb]; [done|..].
  - left. by exists [], l.
  - right. by exists [], l.
  - destruct (IH Ha Hb) as [(l1 & l2 & -> & Hi)|(l1 & l2 & -> & Hi)];
      [left | right]; by exists (x :: l1), l2.
Qed.

(** With equal eligibility and different scores the higher score comes first,
    whatever the tie-breaks say. *)
Lemma key_by_score k1 k2 :
  key_ineligible k1 = key_ineligible k2 →
  isnan (key_primary k1) = false → isnan (key_primary k2) = false →
  score_order_cmp k1 k2 ≠ Gt →
  fltb (key_primary k1) (key_primary k2) = false.
Proof.
  intros He Hn1 Hn2 Hc. destruct (fltb _ _) eqn:Hlt; [|done]. exfalso. apply Hc.
  unfold score_order_cmp, cmp_then. unfold cmp_by at 1. rewrite He, Z.compare_refl.
  apply (fcompare_Lt _ _ Hn1 Hn2), (cmp_lt_gt fcompare) in Hlt.
  unfold cmp_desc at 1, cmp_by at 1. by rewrite Hlt.
Qed.

(** The tie-break scores (and with them the token efficiency) can reorder
    only exact ties: two rows with different primary scores stand in the same
    order whatever secondary scores the ranking is given, so a lower-quality
    agent never outranks a higher-quality one by spending fewer tokens. *)
Lemma secondary_only_breaks_ties rows scores s1 s2 (a b : R) :
  a ∈ rows → b ∈ rows → row_eligible a = row_eligible b →
  isnan (ranked_score scores a) = false → isnan (ranked_score scores b) = false →
  ranked_score scores a ≠ ranked_score scores b →
  precedes (rank_submissions rows scores s1) a b →
  precedes (rank_submissions rows scores s2) a b ∧
  fltb (ranked_score scores b) (ranked_score scores a) = true.
Proof.
  intros Ha Hb He Hna Hnb Hne Hp.
  assert (∀ s x y, precedes (rank_submissions rows scores s) x y →
    score_order_cmp (submission_key scores s x) (submission_key scores s y) ≠ Gt) as Hord.
  { intros s x y Hxy. eapply (sorted_precedes (cmp_by score_order_cmp (submission_key scores s)));
      [|exact Hxy]. apply (py_sorted_sorted _). }
  pose proof (Hord _ _ _ Hp) as H1. apply key_by_score in H1 as Hlt; [|simpl; by rewrite He | exact Hna | exact Hnb].
  assert (fltb (ranked_score scores b) (ranked_score scores a) = true) as Hgt.
  { destruct (fltb (ranked_score scores b) _) eqn:E; [done|]. exfalso. apply Hne.
    apply fcompare_Eq_any.
    change (fltb (ranked_score scores a) (ranked_score scores b) = false) in Hlt.
    destruct (fcompare (ranked_score scores a) (ranked_score scores b)) eqn:Ec; [done|..].
    - apply (fcompare_Lt _ _ Hna Hnb) in Ec. congruence.
    - apply (cmp_lt_gt fcompare), (fcompare_Lt _ _ Hnb Hna) in Ec. congruence. }
  split; [|exact Hgt].
  destruct (precedes_total (rank_submissions rows scores s2) a b) as [|Hba];
    [by apply elem_of_py_sorted.. | congruence | done |].
  exfalso. apply Hord, key_by_score in Hba; [|simpl; by rewrite He | exact Hnb | exact Hna].
  change (fltb (ranked_score scores b) (ranked_score scores a) = false) in Hba. congruence.
Qed.

(** An owner is represented by its best generation: no generation of the
    same eligibility has a strictly better score, and none that ties on both
    scores was uploaded later. *)
Lemma representative_best rows scores secondary (r : R) rest :
  select_owner_representative rows scores secondary = r :: rest →
  ∀ x, x ∈ rows → row_eligible x = row_eligible r →
  isnan (ranked_score scores x) = false → isnan (ranked_score scores r) = false →
  fltb (ranked_score scores r) (ranked_score scores x) = false ∧
  (ranked_score scores x = ranked_score scores r →
   key_secondary (family_key scores secondary x) = key_secondary (family_key scores secondary r) →
   row_first_seen x <= row_first_seen r).
Proof.
  intros Hs x Hx He Hnx Hnr.
  pose proof (py_sorted_head_min (cmp_by score_order_cmp (family_key scores secondary))
    _ _ _ Hs x Hx) as Hc.
  split.
  - apply key_by_score in Hc; [exact Hc | simpl; by rewrite He | exact Hnr | exact Hnx].
  - intros Hp Hsec. revert Hc. unfold cmp_by at 1. unfold score_order_cmp, cmp_then.
    unfold cmp_by at 1. simpl key_ineligible. rewrite He, Z.compare_refl.
    unfold cmp_desc, cmp_by.
    change (key_primary (family_key scores secondary x)) with (ranked_score scores x).
    change (key_primary (family_key scores secondary r)) with (ranked_score scores r).
    rewrite Hp, (cmp_refl fcompare), Hsec, (cmp_refl fcompare). simpl key_clock.
    destruct (Z.compare_spec (_RANK_HORIZON - row_first_seen r)
      (_RANK_HORIZON - row_first_seen x)); intros; [lia..|done].
Qed.
End theory.

(** * Concrete instances *)

(** A row as (agent, upload time, score). *)
Definition sample_row : Type := Z * Z * F64.
Definition sample_rankable : RankableRow sample_row := {|
  row_agent_id r := r.1.1; row_first_seen r := r.1.2; row_composite r := r.2;
  row_eligible _ := true; row_fold_first_seen _ := None |}.
Definition sample_rows : list sample_row :=
  [(1, 10, flit 7 10); (2, 20, flit 8 10); (3, 30, flit 8 10)].

Lemma secondary_only_breaks_ties_witness :
  precedes (rank_submissions (H := sample_rankable) sample_rows None
    (Some [(1, flit 9 10); (2, flit 1 10)])) (2, 20, flit 8 10) (1, 10, flit 7 10) ∧
  fltb (flit 7 10) (flit 8 10) = true.
Proof.
  apply (secondary_only_breaks_ties (H := sample_rankable) sample_rows None None
    (Some [(1, flit 9 10); (2, flit 1 10)]) (2, 20, flit 8 10) (1, 10, flit 7 10)).
  - right. left.
  - left.
  - reflexivity.
  - vm_compute. reflexivity.
  - vm_compute. reflexivity.
  - apply (bool_decide_unpack _). vm_compute. exact I.
  - exists [], [(3, 30, flit 8 10); (1, 10, flit 7 10)].
    split; [vm_compute; reflexivity | right; left].
Defined.

Lemma representative_best_witness :
  fltb (flit 8 10) (flit 8 10) = false ∧
  (ranked_score (H := sample_rankable) None (2, 20, flit 8 10) =
     ranked_score (H := sample_rankable) None (3, 30, flit 8 10) →
   key_secondary (family_key (H := sample_rankable) None None (2, 20, flit 8 10)) =
     key_secondary (family_key (H := sample_rankable) None None (3, 30, flit 8 10)) → 20 <= 30).
Proof.
  apply (representative_best (H := sample_rankable) sample_rows None None (3, 30, flit 8 10)
    [(2, 20, flit 8 10); (1, 10, flit 7 10)]) with (x := (2, 20, flit 8 10)).
  - vm_compute. reflexivity.
  - right. left.
  - reflexivity.
  - vm_compute. reflexivity.
  - vm_compute. reflexivity.
Defined.
