(* ===== verification/KothFold.v ===== *)
(** The platform's projection of the weight fold:
    [apps/platform/ditto/api_server/koth.py].

    The platform re-implements the validators' fold over its own row type to
    explain it on the public board and to record what an epoch pays.
    [KothMirror] shows where the two implementations agree.  The names of this
    file are those of [koth.py], which repeat those of the validator's module, so
    they stand in the module [Koth].  [x ** 2] is [libm_sq]; Python raises where
    a square overflows, which no score difference or standard error on the score
    scale does. *)
From Stdlib Require Import ZArith Lia.
From stdpp Require Import base list gmap strings sorting.
From S2P Require Import Prelude Binary64 Dueling Ledger Crown ScoreOrder.

Module Koth.

(** * Constants *)

Definition KOTH_MARGIN : F64 := flit 7 1000.
Definition KOTH_BAND_DECAY_MIN_BENCH_VERSION : Z := 6.
Definition KOTH_BAND_DECAY_START_COMPOSITE : F64 := flit 60 100.
Definition KOTH_BAND_DECAY_RATE : F64 := flit 2 1.
Definition KOTH_CEILING_HEADROOM_SHARE : F64 := flit 1 2.
Definition KOTH_TAIL_SIZE : Z := 4.
Definition KOTH_RANK_SHARES : list F64 :=
  [flit 65 100; flit 14 100; flit 10 100; flit 7 100; flit 4 100].
Definition KOTH_DETHRONE_Z : F64 := flit 164 100.
Definition KOTH_STATISTICAL_BAND_CAP_MULTIPLE : F64 := flit 2 1.
Definition BLOCKS_PER_TEMPO : Z := 360.
Definition CONFIRMATION_SEED_CEILING : Z := 15.
(** [CURVE_VERSION_BOUNDED_FACTOR], [CURVE_VERSION_UNBOUNDED_FACTOR] and
    [FACTOR_CURVE_VERSIONS] of [api_server/efficiency.py]. *)
Definition CURVE_VERSION_BOUNDED_FACTOR : Z := 3.
Definition CURVE_VERSION_UNBOUNDED_FACTOR : Z := 4.
Definition FACTOR_CURVE_VERSIONS : list Z :=
  [CURVE_VERSION_BOUNDED_FACTOR; CURVE_VERSION_UNBOUNDED_FACTOR].
Definition is_factor_curve (curve_version : Z) : bool :=
  bool_decide (curve_version ∈ FACTOR_CURVE_VERSIONS).

(** * Data *)

Record CrownGate := {
  min_shared_seeds : Z;
  standing_rank : Z;
  duel_window : option Z
}.

Record DuelingSeedRecord := {
  seed : Z;
  record_bench_version : Z;
  report : option DuelingReport
}.

Record KothEntry := {
  miner_hotkey : string;
  agent_id : Z;
  composite : F64;
  first_seen : Z;
  raw_rank : Z;
  bench_version : Z;
  composite_stderr : option F64;
  quorum_composites : option (list F64);
  completed_wave_composites : option (list F64);
  confirmation_composites : option (list F64);
  confirmation_seeds : option (list Z);
  efficiency_bonus : option F64;
  efficiency_factor : option F64;
  efficiency_curve_version : option Z;
  dueling_season_id : option string;
  dueling : option DuelingReport;
  dueling_records : option (list DuelingSeedRecord);
  duel_records : option (list DuelingSeedRecord)
}.

(** The wire form of a gate. *)
Record CrownGateMarker := {
  min_dethrone_confirmations : Z;
  champion_standing_rank : Z;
  duel_window_pairs : option Z
}.
Definition crown_gate_marker (gate : option CrownGate) : option CrownGateMarker :=
  (λ g, {| min_dethrone_confirmations := min_shared_seeds g;
           champion_standing_rank := standing_rank g;
           duel_window_pairs := duel_window g |}) <$> gate.

#[global] Instance koth_rankable : RankableRow KothEntry := {|
  row_agent_id := agent_id; row_first_seen := first_seen; row_composite := composite;
  row_eligible _ := true; row_fold_first_seen _ := None |}.

Record PairedStatistic := {
  paired_mean_difference : F64;
  paired_champion_reference : F64;
  paired_error : F64;
  differences : list F64
}.

Inductive method := flat | unpaired | paired | duel.

Record DethroneDecision := {
  challenger_lead : F64;
  required_lead : F64;
  margin_lead : F64;
  statistical_lead : option F64;
  decision_method : method;
  dethrones : bool;
  required_score : F64;
  score_ceiling : F64;
  ceiling_deadlocked : bool;
  paired_standard_error : option F64;
  decision_seed_count : option Z;
  seed_differences : option (list F64);
  required_shared_seeds : option Z;
  gate_blocked : bool
}.

Record KothProjection := {
  champion : KothEntry;
  tail : list KothEntry;
  raw_leader : KothEntry;
  raw_leader_decision : option DethroneDecision
}.

Inductive allocation_mode := ranked_mode | score_ceiling_pool.
Record EmissionAllocation := {
  mode : allocation_mode;
  members : list KothEntry;
  shares : list F64
}.

(** * Readings of one row *)

Definition _median (values : list F64) : F64 := median values.

Definition _validated_composites (values : option (list F64)) (minimum : nat)
    : option (list F64) :=
  match values with
  | None => None
  | Some v => if (length v <? minimum)%nat then None else
              if forallb unit_interval v then Some v else None
  end.

Definition _confirmations (e : KothEntry) : option (list F64) :=
  _validated_composites (confirmation_composites e) 2.

Definition _efficiency_curve_version (e : KothEntry) : Z :=
  match efficiency_curve_version e with
  | Some v => if is_factor_curve v then v else CURVE_VERSION_BOUNDED_FACTOR
  | None => CURVE_VERSION_BOUNDED_FACTOR
  end.

Definition _bounded_efficiency_factor (e : KothEntry) : option F64 :=
  match efficiency_factor e with
  | None => None
  | Some factor =>
      if bench_version e <? 9 then Some one else
      if negb (isfinite factor) || fleb factor zero then Some one else
      if (_efficiency_curve_version e <? CURVE_VERSION_UNBOUNDED_FACTOR) &&
         negb (fleb (flit 85 100) factor && fleb factor (flit 11 10)) then Some one else
      Some factor
  end.

Definition _efficiency_multiplier (e : KothEntry) : F64 :=
  match _bounded_efficiency_factor e with
  | Some factor => factor
  | None =>
      match efficiency_bonus e with
      | None => one
      | Some bonus =>
          if negb (isfinite bonus) || negb (fleb zero bonus && fleb bonus (flit 1 10))
          then one else fadd one bonus
      end
  end.

Definition bounded_efficiency_adjusted_quality (quality factor : F64) (curve_version : Z) : F64 :=
  if fleb factor one then fmul quality factor else
  if CURVE_VERSION_UNBOUNDED_FACTOR <=? curve_version
  then fadd quality (fmul (fsub one quality) (fsub one (fdiv one factor)))
  else fadd quality (fmul (fsub factor one) (fsub one quality)).

Definition _efficiency_stderr_scale (e : KothEntry) : F64 :=
  match _bounded_efficiency_factor e with
  | Some factor =>
      if fleb factor one then factor else
      if CURVE_VERSION_UNBOUNDED_FACTOR <=? _efficiency_curve_version e then fdiv one factor
      else fsub (flit 2 1) factor
  | None => _efficiency_multiplier e
  end.

Definition _efficiency_adjusted_composite (e : KothEntry) (quality : F64) : F64 :=
  match _bounded_efficiency_factor e with
  | Some factor => bounded_efficiency_adjusted_quality quality factor (_efficiency_curve_version e)
  | None => fmul quality (_efficiency_multiplier e)
  end.

Definition _effective_score_ceiling (e : KothEntry) : F64 :=
  match _bounded_efficiency_factor e with
  | Some factor => if fleb factor one then factor else one
  | None => _efficiency_multiplier e
  end.

Definition continual_composite (e : KothEntry) : F64 :=
  let settled :=
    match _confirmations e with None => composite e | Some values => _median values end in
  match _validated_composites (quorum_composites e) 3,
        _validated_composites (completed_wave_composites e) 1 with
  | Some quorum, Some waves =>
      if (length quorum =? 3)%nat
      then let samples := quorum ++ waves in
           fdiv (fsum samples) (of_int (Z.of_nat (length samples)))
      else settled
  | _, _ => settled
  end.

Definition effective_composite (e : KothEntry) : F64 :=
  _efficiency_adjusted_composite e (continual_composite e).

Definition _stderr (e : KothEntry) : option F64 :=
  match composite_stderr e with
  | Some v => if isfinite v && fgeb v zero then Some v else None
  | None => None
  end.

Definition _quality_primary_efficiency_active (entries : list KothEntry) : bool :=
  existsb (λ e, bool_decide (is_Some (_bounded_efficiency_factor e))) entries.

Definition _dethrone_composite (e : KothEntry) (quality_primary : bool) : F64 :=
  if quality_primary then continual_composite e else effective_composite e.

(** A repeated or negative seed voids the map. *)
Definition _seed_composites (e : KothEntry) : option (list (Z * F64)) :=
  match _confirmations e, confirmation_seeds e with
  | Some composites, Some seeds =>
      if negb (length seeds =? length composites)%nat then None
      else zip_seeds seeds composites []
  | _, _ => None
  end.

(** * The dueling bench *)

Definition _is_dueling_entry (e : KothEntry) : bool := is_dueling_bench_version (bench_version e).

Definition _entry_season (e : KothEntry) : option string :=
  match dueling e with
  | None => None
  | Some report =>
      match dueling_season_id e with
      | None => Some (season_id report)
      | Some season => if bool_decide (season = season_id report) then Some season else None
      end
  end.

Definition dueling_fold_ready (e : KothEntry) : bool :=
  negb (_is_dueling_entry e) || bool_decide (is_Some (_entry_season e)).

Definition _fold_pool (entries : list KothEntry) : list KothEntry :=
  filter (λ e, fgtb (composite e) zero && dueling_fold_ready e = true) entries.

Definition _dueling_incomparable (a b : KothEntry) : bool :=
  if negb (_is_dueling_entry a && _is_dueling_entry b) then false else
  bool_decide (_entry_season a = None) ||
  negb (bool_decide (_entry_season a = _entry_season b)) ||
  negb (bench_version a =? bench_version b).

Definition _dueling_pair_mask (a b : KothEntry) : option (gset string) :=
  if negb (_is_dueling_entry a && _is_dueling_entry b) then None else
  if _dueling_incomparable a b then None else
  match dueling a, dueling b with
  | Some ra, Some rb => Some {[ rep_owner_key ra; rep_owner_key rb ]}
  | _, _ => None
  end.

Definition _record_masked_composite (e : KothEntry) (record : DuelingSeedRecord)
    (mask : gset string) : option F64 :=
  match report record, dueling e with
  | Some r, Some own =>
      if negb (bool_decide (Some (season_id r) = _entry_season e)) ||
         negb (bool_decide (rep_owner_key r = rep_owner_key own)) ||
         negb (record_bench_version record =? bench_version e)
      then None else
      let value := dueling_composite (datagen_raw r) (datagen_gate r) (columns r) mask in
      if unit_interval value then Some value else None
  | _, _ => None
  end.

(** [set(sorted({record.seed ...})[:CONFIRMATION_SEED_CEILING])] *)
Definition seed_window (records : list DuelingSeedRecord) : list Z :=
  take (Z.to_nat CONFIRMATION_SEED_CEILING)
    (py_sorted Z.compare (remove_dups (seed <$> records))).

Definition _dueling_seed_composites (e : KothEntry) (mask : gset string)
    : option (list (Z * F64)) :=
  match dueling_records e with
  | None | Some [] => None
  | Some records =>
      let window := seed_window records in
      let usable := omap (λ r,
          if bool_decide (seed r ∈ window)
          then (λ v, (seed r, v)) <$> _record_masked_composite e r mask
          else None) records in
      match foldl group_seed [] usable with
      | [] => None
      | grouped => Some (prod_map id _median <$> py_sorted seed_cmp grouped)
      end
  end.

Definition _paired_seed_maps (a b : KothEntry)
    : option (list (Z * F64) * list (Z * F64)) :=
  let maps :=
    if _is_dueling_entry a && _is_dueling_entry b
    then match _dueling_pair_mask a b with
         | None => (None, None)
         | Some mask => (_dueling_seed_composites a mask, _dueling_seed_composites b mask)
         end
    else (_seed_composites a, _seed_composites b) in
  match maps with
  | (Some a_map, Some b_map) => Some (a_map, b_map)
  | _ => None
  end.

Definition shared_seed_count (a b : KothEntry) : Z :=
  match _paired_seed_maps a b with
  | None => 0
  | Some (a_map, b_map) => Z.of_nat (length (shared_seeds a_map b_map))
  end.

(** [_seed_score] *)
Definition seed_score (quality_primary : bool) (e : KothEntry) (quality : F64) : F64 :=
  if quality_primary then quality else _efficiency_adjusted_composite e quality.

Section fold.
Context {L : Libm}.

Definition _paired_statistic (challenger champion : KothEntry) : option PairedStatistic :=
  match _paired_seed_maps challenger champion with
  | None => None
  | Some (chall_map, champ_map) =>
      let shared := shared_seeds chall_map champ_map in
      if (length shared <? 2)%nat then None else
      let quality_primary := _quality_primary_efficiency_active [challenger; champion] in
      let champion_score s := seed_score quality_primary champion (seed_value champ_map s) in
      let differences :=
        (λ s, fsub (seed_score quality_primary challenger (seed_value chall_map s))
                   (champion_score s)) <$> shared in
      let n := of_int (Z.of_nat (length differences)) in
      let mean_difference := fdiv (py_sum differences) n in
      let variance := fdiv (py_sum ((λ d, libm_sq (fsub d mean_difference)) <$> differences))
                        (of_int (Z.of_nat (length differences) - 1)) in
      Some {| paired_mean_difference := mean_difference;
              paired_champion_reference :=
                fdiv (py_sum (champion_score <$> shared)) (of_int (Z.of_nat (length shared)));
              paired_error := fsqrt (fdiv variance n);
              differences := differences |}
  end.

(** Whether the lower of two neighbours moves up, one pass, and the passes. *)
Definition adjacent_swaps (lower upper : KothEntry) : bool :=
  match _dueling_pair_mask lower upper with
  | None => false
  | Some _ => match _paired_statistic lower upper with
              | Some st => fgtb (paired_mean_difference st) zero
              | None => false
              end
  end.
Fixpoint swap_pass (upper : KothEntry) (rest : list KothEntry) : list KothEntry * bool :=
  match rest with
  | [] => ([upper], false)
  | lower :: rest' =>
      if adjacent_swaps lower upper
      then (lower :: (swap_pass upper rest').1, true)
      else let '(tl, swapped) := swap_pass lower rest' in (upper :: tl, swapped)
  end.
Fixpoint swap_passes (n : nat) (ordered : list KothEntry) : list KothEntry :=
  match n, ordered with
  | S n', upper :: rest =>
      let '(ordered', swapped) := swap_pass upper rest in
      if swapped then swap_passes n' ordered' else ordered'
  | _, _ => ordered
  end.
Definition _dueling_adjacent_order (ranked : list KothEntry) : list KothEntry :=
  if existsb _is_dueling_entry ranked then swap_passes (length ranked) ranked else ranked.

(** * Bands *)

Definition _dethrone_band_scale (challenger champion : KothEntry) (champion_composite : F64)
    : F64 :=
  if Z.min (bench_version challenger) (bench_version champion)
     <? KOTH_BAND_DECAY_MIN_BENCH_VERSION then one else
  let bounded_champion :=
    py_min (py_max champion_composite KOTH_BAND_DECAY_START_COMPOSITE) one in
  libm_exp (fmul (fneg KOTH_BAND_DECAY_RATE)
                 (fsub bounded_champion KOTH_BAND_DECAY_START_COMPOSITE)).

Definition _ceiling_capped_band (band : F64) (challenger champion : KothEntry)
    (champion_score : F64) (active : bool) : F64 :=
  if negb active then band else
  if Z.min (bench_version challenger) (bench_version champion)
     <? KOTH_BAND_DECAY_MIN_BENCH_VERSION then band else
  let quality_primary := _quality_primary_efficiency_active [challenger; champion] in
  let ceiling := if quality_primary then one else _effective_score_ceiling challenger in
  let headroom := fsub ceiling champion_score in
  if fleb headroom zero then zero
  else py_min band (fmul KOTH_CEILING_HEADROOM_SHARE headroom).

Definition _capped_statistical_band (margin statistical : F64) : F64 :=
  py_min statistical (fmul KOTH_STATISTICAL_BAND_CAP_MULTIPLE margin).

Definition _indifference_band (margin : F64) (statistical : option F64) (capped : bool) : F64 :=
  match statistical with
  | None => margin
  | Some s => py_max margin (if capped then _capped_statistical_band margin s else s)
  end.

(** * The title duel *)

Definition _duel_governs (challenger champion : KothEntry) (crown_gate : option CrownGate) : bool :=
  match crown_gate with
  | Some g => bool_decide (is_Some (duel_window g)) &&
              (_is_dueling_entry challenger && _is_dueling_entry champion)
  | None => false
  end.

Definition duel_record_value (e : KothEntry) (own : DuelingReport) (mask : gset string)
    (record : DuelingSeedRecord) : option ((string * Z * Z) * F64) :=
  if seed record <? 0 then None else
  match report record with
  | None => None
  | Some r =>
      if negb (bool_decide (rep_owner_key r = rep_owner_key own)) ||
         negb (record_bench_version record =? bench_version e) then None else
      let value := dueling_composite (datagen_raw r) (datagen_gate r) (columns r) mask in
      if unit_interval value
      then Some (season_seed_key (season_id r) (season_index r) (seed record), value)
      else None
  end.

Definition _entry_duel_records (e : KothEntry) (mask : gset string) : option records :=
  match duel_records e, dueling e with
  | Some (r :: rs), Some own =>
      match collapse_records (omap (duel_record_value e own mask) (r :: rs)) with
      | [] => None
      | collapsed => Some collapsed
      end
  | _, _ => None
  end.

(** [_scored] *)
Definition scored_records (quality_primary : bool) (e : KothEntry) (rs : records) : records :=
  if quality_primary then rs
  else (λ kv, (kv.1, (kv.2.1, _efficiency_adjusted_composite e kv.2.2))) <$> rs.

Definition duel_statistic_for (challenger champion : KothEntry) (window : Z)
    : option DuelStatistic :=
  match _dueling_pair_mask challenger champion with
  | None => None
  | Some mask =>
      match _entry_duel_records challenger mask, _entry_duel_records champion mask with
      | Some chall, Some champ =>
          let quality_primary := _quality_primary_efficiency_active [challenger; champion] in
          duel_statistic (duel_pairs (scored_records quality_primary challenger chall)
                            (scored_records quality_primary champion champ) window)
      | _, _ => None
      end
  end.

Definition crown_evidence_count (a b : KothEntry) (g : CrownGate) : Z :=
  match duel_window g with
  | Some window =>
      if _duel_governs a b (Some g)
      then match duel_statistic_for a b window with None => 0 | Some st => count st end
      else shared_seed_count a b
  | None => shared_seed_count a b
  end.

(** * The dethrone decision *)

Definition _ungated_dethrone_decision (challenger champion : KothEntry)
    (ceiling_band_clamp statistical_band_cap : bool) : DethroneDecision :=
  let quality_primary := _quality_primary_efficiency_active [challenger; champion] in
  let ceiling := if quality_primary then one else _effective_score_ceiling challenger in
  match _paired_statistic challenger champion with
  | Some st =>
      let reference := paired_champion_reference st in
      let statistical := _indifference_band KOTH_MARGIN
                           (Some (fmul KOTH_DETHRONE_Z (paired_error st))) true in
      let required := fmul statistical (_dethrone_band_scale challenger champion reference) in
      let required := _ceiling_capped_band required challenger champion reference
                        ceiling_band_clamp in
      let observed := fadd reference (paired_mean_difference st) in
      let needed := fadd reference required in
      let wins := fgtb observed needed in
      {| challenger_lead := paired_mean_difference st; required_lead := required;
         margin_lead := KOTH_MARGIN; statistical_lead := Some statistical;
         decision_method := paired; dethrones := wins; required_score := needed;
         score_ceiling := ceiling; ceiling_deadlocked := negb wins && fgeb needed ceiling;
         paired_standard_error := Some (paired_error st);
         decision_seed_count := Some (Z.of_nat (length (differences st)));
         seed_differences := Some (differences st);
         required_shared_seeds := None; gate_blocked := false |}
  | None =>
      let challenger_composite := _dethrone_composite challenger quality_primary in
      let champion_composite := _dethrone_composite champion quality_primary in
      let '(statistical, how) :=
        match _stderr challenger, _stderr champion with
        | Some se_c, Some se_champ =>
            let '(se_c, se_champ) :=
              if negb quality_primary
              then (fmul se_c (_efficiency_stderr_scale challenger),
                    fmul se_champ (_efficiency_stderr_scale champion))
              else (se_c, se_champ) in
            (Some (fmul KOTH_DETHRONE_Z (fsqrt (fadd (libm_sq se_c) (libm_sq se_champ)))), unpaired)
        | _, _ => (None, flat)
        end in
      let required := fmul (_indifference_band KOTH_MARGIN statistical statistical_band_cap)
                        (_dethrone_band_scale challenger champion champion_composite) in
      let required := _ceiling_capped_band required challenger champion champion_composite
                        ceiling_band_clamp in
      let needed := fadd champion_composite required in
      let wins := fgtb challenger_composite needed in
      {| challenger_lead := fsub challenger_composite champion_composite;
         required_lead := required; margin_lead := KOTH_MARGIN;
         statistical_lead := statistical; decision_method := how; dethrones := wins;
         required_score := needed; score_ceiling := ceiling;
         ceiling_deadlocked := negb wins && fgeb needed ceiling;
         paired_standard_error := None; decision_seed_count := None; seed_differences := None;
         required_shared_seeds := None; gate_blocked := false |}
  end.

(** [replace(decision, ...)] of the fields the callers override. *)
Definition with_verdict (d : DethroneDecision) (wins : bool) : DethroneDecision :=
  {| challenger_lead := challenger_lead d; required_lead := required_lead d;
     margin_lead := margin_lead d; statistical_lead := statistical_lead d;
     decision_method := decision_method d; dethrones := wins;
     required_score := required_score d; score_ceiling := score_ceiling d;
     ceiling_deadlocked := ceiling_deadlocked d;
     paired_standard_error := paired_standard_error d;
     decision_seed_count := decision_seed_count d; seed_differences := seed_differences d;
     required_shared_seeds := required_shared_seeds d; gate_blocked := gate_blocked d |}.
Definition with_gate (d : DethroneDecision) (wins : bool) (needs : Z) (blocked : bool)
    (seeds : option Z) : DethroneDecision :=
  {| challenger_lead := challenger_lead d; required_lead := required_lead d;
     margin_lead := margin_lead d; statistical_lead := statistical_lead d;
     decision_method := decision_method d; dethrones := wins;
     required_score := required_score d; score_ceiling := score_ceiling d;
     ceiling_deadlocked := ceiling_deadlocked d;
     paired_standard_error := paired_standard_error d;
     decision_seed_count := seeds; seed_differences := seed_differences d;
     required_shared_seeds := Some needs; gate_blocked := blocked |}.

Definition _duel_decision (challenger champion : KothEntry) (g : CrownGate) (window : Z)
    (ceiling_band_clamp : bool) (ungated : DethroneDecision) : DethroneDecision :=
  match duel_statistic_for challenger champion window with
  | None => with_gate ungated false (min_shared_seeds g) (dethrones ungated) (Some 0)
  | Some stat =>
      let reference := champion_reference stat in
      let floor := fmul KOTH_MARGIN (_dethrone_band_scale challenger champion reference) in
      let lead := duel_required_lead stat floor in
      let required :=
        (λ l, _ceiling_capped_band l challenger champion reference ceiling_band_clamp) <$> lead in
      let enough := (min_shared_seeds g <=? count stat) && bool_decide (is_Some required) in
      let shown := default floor required in
      let observed := fadd reference (mean_difference stat) in
      let needed := fadd reference shown in
      {| challenger_lead := mean_difference stat; required_lead := shown; margin_lead := floor;
         statistical_lead := lead; decision_method := duel;
         dethrones := enough && fgtb observed needed; required_score := needed;
         score_ceiling := score_ceiling ungated; ceiling_deadlocked := ceiling_deadlocked ungated;
         paired_standard_error := Some (standard_error stat);
         decision_seed_count := Some (count stat);
         seed_differences := Some (difference <$> pairs stat);
         required_shared_seeds := Some (min_shared_seeds g);
         gate_blocked := negb enough && fgtb observed needed |}
  end.

Definition is_paired (m : method) : bool := match m with paired => true | _ => false end.
Definition is_duel (m : method) : bool := match m with duel => true | _ => false end.

Definition _dethrone_decision (challenger champion : KothEntry)
    (ceiling_band_clamp statistical_band_cap : bool) (crown_gate : option CrownGate)
    : DethroneDecision :=
  let ungated := _ungated_dethrone_decision challenger champion
                   ceiling_band_clamp statistical_band_cap in
  let incomparable := _dueling_incomparable challenger champion in
  let decision := if incomparable then with_verdict ungated false else ungated in
  match crown_gate with
  | None => decision
  | Some g =>
      match duel_window g, _duel_governs challenger champion crown_gate with
      | Some window, true =>
          let d := _duel_decision challenger champion g window ceiling_band_clamp ungated in
          if incomparable then with_verdict d false else d
      | _, _ =>
          let qualified := is_paired (decision_method decision) &&
                           (min_shared_seeds g <=? shared_seed_count challenger champion) in
          with_gate decision (dethrones decision && qualified) (min_shared_seeds g)
            (dethrones decision && negb qualified) (decision_seed_count decision)
      end
  end.

(** * Ranking and the projection *)

(** [{entry.agent_id: score(entry) for entry in entries}] *)
Definition scores_by (score : KothEntry → F64) (entries : list KothEntry) : list (Z * F64) :=
  dict_of ((λ e, (agent_id e, score e)) <$> entries).

Definition _ranked_entries (entries : list KothEntry) : list KothEntry :=
  if negb (_quality_primary_efficiency_active entries)
  then rank_submissions entries (Some (plain_scores (scores_by effective_composite entries))) None
  else rank_submissions entries (Some (plain_scores (scores_by continual_composite entries)))
         (Some (scores_by effective_composite entries)).

Definition _distinct_ranked (entries : list KothEntry) : list KothEntry :=
  distinct_by miner_hotkey [] (_ranked_entries (_fold_pool entries)).

Definition seen_cmp : KothEntry → KothEntry → comparison :=
  cmp_then (cmp_by Z.compare first_seen) (cmp_by Z.compare agent_id).

(** The opener of the walk and its challengers; the pool is not empty. *)
Definition walk_opening (scored : list KothEntry) (incumbent_agent_id : option Z)
    : option (KothEntry * list KothEntry) :=
  let ordered := py_sorted seen_cmp scored in
  match List.find (λ e, bool_decide (Some (agent_id e) = incumbent_agent_id)) scored with
  | Some incumbent => Some (incumbent, filter (λ e, agent_id e ≠ agent_id incumbent) ordered)
  | None => match ordered with [] => None | c :: rest => Some (c, rest) end
  end.

Definition gated_opening (g : CrownGate) (scored : list KothEntry) (opener : KothEntry)
    : KothEntry * list KothEntry :=
  let standing := take (Z.to_nat (Z.max 1 (standing_rank g))) (_ranked_entries scored) in
  let standing_ids := agent_id <$> standing in
  let champ :=
    if bool_decide (agent_id opener ∈ standing_ids) then opener else
    match List.find (λ e, min_shared_seeds g <=? crown_evidence_count e opener g) standing with
    | Some e => e
    | None => default opener (head standing)
    end in
  (champ, filter (λ e, agent_id e ∈ standing_ids ∧ agent_id e ≠ agent_id champ)
            (py_sorted seen_cmp scored)).

Definition project_koth (entries : list KothEntry) (distinct_hotkeys : bool)
    (ceiling_band_clamp statistical_band_cap : bool) (incumbent_agent_id : option Z)
    (crown_gate : option CrownGate) : option KothProjection :=
  let scored := _fold_pool entries in
  let decide_crown c champ :=
    _dethrone_decision c champ ceiling_band_clamp statistical_band_cap crown_gate in
  let ranked := _ranked_entries scored in
  match walk_opening scored incumbent_agent_id, head ranked with
  | Some (opener, challengers), Some leader =>
      let '(champ, challengers) :=
        match crown_gate with
        | Some g => gated_opening g scored opener
        | None => (opener, challengers)
        end in
      let champ := foldl (λ champ c, if dethrones (decide_crown c champ) then c else champ)
                     champ challengers in
      let ranked_tail := filter (λ e, miner_hotkey e ≠ miner_hotkey champ) ranked in
      let tail_members :=
        if distinct_hotkeys then distinct_by miner_hotkey [miner_hotkey champ] ranked_tail
        else ranked_tail in
      Some {| champion := champ;
              tail := _dueling_adjacent_order (take (Z.to_nat KOTH_TAIL_SIZE) tail_members);
              raw_leader := leader;
              raw_leader_decision :=
                if agent_id leader =? agent_id champ then None
                else Some (decide_crown leader champ) |}
  | _, _ => None
  end.

(** * The payout *)

Definition _weight_tied (candidate anchor : KothEntry) (statistical_band_cap : bool) : bool :=
  if _dueling_incomparable candidate anchor then false else
  if _quality_primary_efficiency_active [candidate; anchor]
  then feqb (continual_composite candidate) (continual_composite anchor) &&
       feqb (effective_composite candidate) (effective_composite anchor)
  else if feqb (effective_composite candidate) (effective_composite anchor) then true else
  match _paired_statistic candidate anchor with
  | None => false
  | Some st =>
      let half_width := fmul KOTH_DETHRONE_Z (paired_error st) in
      if negb statistical_band_cap then fleb (fabs (paired_mean_difference st)) half_width
      else fleb (fabs (paired_mean_difference st))
             (_capped_statistical_band KOTH_MARGIN half_width)
  end.

(** The champion and the tail entries whose agent is not yet a member. *)
Fixpoint unseen_agents (seen : list Z) (l : list KothEntry) : list KothEntry :=
  match l with
  | [] => []
  | e :: l' => if bool_decide (agent_id e ∈ seen) then unseen_agents seen l'
               else e :: unseen_agents (agent_id e :: seen) l'
  end.
Definition emission_set (projection : option KothProjection) : list KothEntry :=
  match projection with
  | None => []
  | Some p => champion p :: unseen_agents [agent_id (champion p)] (tail p)
  end.

(** The inner [while]: the first index past [e] that is not tied. *)
Fixpoint group_end (tied : KothEntry → bool) (rest : list KothEntry) (e : nat) : nat :=
  match rest with
  | [] => e
  | r :: rest' => if tied r then group_end tied rest' (S e) else e
  end.
(** The outer [while]; [start] advances, so as many turns as members are enough. *)
Fixpoint pool_loop (tied : KothEntry → KothEntry → bool) (members : list KothEntry)
    (fuel start : nat) (shares : list F64) : list F64 :=
  match fuel, members !! start with
  | S fuel', Some anchor =>
      let e := group_end (λ c, tied c anchor) (drop (S start) members) (S start) in
      let size := (e - start)%nat in
      let average := fdiv (py_sum (take size (drop start shares))) (of_int (Z.of_nat size)) in
      let shares' := if (1 <? size)%nat
                     then take start shares ++ replicate size average ++ drop e shares
                     else shares in
      pool_loop tied members fuel' e shares'
  | _, _ => shares
  end.

Definition emission_shares (projection : option KothProjection)
    (tie_pooling statistical_band_cap : bool) (rank_shares : option (list F64)) : list F64 :=
  let members := emission_set projection in
  let shares := take (length members) (default KOTH_RANK_SHARES rank_shares) in
  if negb tie_pooling then shares
  else pool_loop (λ c a, _weight_tied c a statistical_band_cap) members (length members) 0 shares.

Fixpoint take_tied (tied : KothEntry → bool) (rest : list KothEntry) : list KothEntry :=
  match rest with
  | [] => []
  | r :: rest' => if tied r then r :: take_tied tied rest' else []
  end.

(** The best entry of another miner than the champion. *)
Definition best_rival (entries : list KothEntry) (p : KothProjection) : option KothEntry :=
  List.find (λ e, negb (String.eqb (miner_hotkey e) (miner_hotkey (champion p))))
    (_distinct_ranked entries).

Definition _score_ceiling_cohort (entries : list KothEntry) (p : KothProjection)
    (ceiling_band_clamp statistical_band_cap : bool) : list KothEntry :=
  if _quality_primary_efficiency_active (_fold_pool entries) then [] else
  match best_rival entries p with
  | None => []
  | Some challenger =>
      if negb (ceiling_deadlocked (_dethrone_decision challenger (champion p)
                 ceiling_band_clamp statistical_band_cap None)) then [] else
      match _distinct_ranked entries with
      | [] => []
      | anchor :: rest =>
          match take_tied (λ e, _weight_tied e anchor statistical_band_cap) rest with
          | [] => []
          | tied => anchor :: tied
          end
      end
  end.

Definition emission_allocation (entries : list KothEntry) (projection : option KothProjection)
    (tie_pooling ceiling_band_clamp statistical_band_cap : bool)
    (rank_shares : option (list F64)) : EmissionAllocation :=
  match projection with
  | None => {| mode := ranked_mode; members := []; shares := [] |}
  | Some p =>
      let ranked :=
        {| mode := ranked_mode; members := emission_set projection;
           shares := emission_shares projection tie_pooling statistical_band_cap rank_shares |} in
      if negb tie_pooling then ranked else
      match _score_ceiling_cohort entries p ceiling_band_clamp statistical_band_cap with
      | [] => ranked
      | cohort =>
          {| mode := score_ceiling_pool; members := cohort;
             shares := replicate (length cohort)
                         (fdiv one (of_int (Z.of_nat (length cohort)))) |}
      end
  end.

(** * What the board explains *)

Definition champion_defense (entries : list KothEntry) (projection : option KothProjection)
    (ceiling_band_clamp statistical_band_cap : bool) (crown_gate : option CrownGate)
    : option DethroneDecision :=
  match projection with
  | None => None
  | Some p =>
      (λ c, _dethrone_decision c (champion p) ceiling_band_clamp statistical_band_cap crown_gate)
        <$> best_rival entries p
  end.

Record ChallengerStanding := {
  standing_entry : KothEntry;
  official_rank : Z;
  official_score : F64;
  standing_seeds : Z;
  within_standing : bool;
  standing_decision : DethroneDecision
}.
Record CrownStandings := {
  king_official_rank : Z;
  king_official_score : F64;
  challengers : list ChallengerStanding
}.

(** [{entry.agent_id: index for index, entry in enumerate(ranked, start=1)}] *)
Definition positions_of (ranked : list KothEntry) : list (Z * Z) :=
  dict_of (imap (λ i e, (agent_id e, Z.of_nat i + 1)) ranked).

Definition challenger_standing (positions : list (Z * Z)) (quality_primary : bool)
    (king : KothEntry) (g : CrownGate) (ceiling_band_clamp statistical_band_cap : bool)
    (e : KothEntry) : result ChallengerStanding :=
  let decision := _dethrone_decision e king ceiling_band_clamp statistical_band_cap (Some g) in
  match dict_get (agent_id e) positions with
  | None => Err (KeyError "agent_id")
  | Some rank => Ok {|
      standing_entry := e; official_rank := rank;
      official_score := _dethrone_composite e quality_primary;
      standing_seeds := if is_duel (decision_method decision)
                        then default 0 (decision_seed_count decision)
                        else crown_evidence_count e king g;
      within_standing := rank <=? standing_rank g;
      standing_decision := decision |}
  end.

(** The generator of [tuple(...)], left to right. *)
Fixpoint standings_of (f : KothEntry → result ChallengerStanding) (rivals : list KothEntry)
    : result (list ChallengerStanding) :=
  match rivals with
  | [] => Ok []
  | e :: rivals' => f e ≫= λ s, standings_of f rivals' ≫= λ rest, Ok (s :: rest)
  end.

Definition crown_standings (entries : list KothEntry) (projection : option KothProjection)
    (g : CrownGate) (ceiling_band_clamp statistical_band_cap : bool) (limit : Z)
    : result (option CrownStandings) :=
  match projection with
  | None => Ok None
  | Some p =>
      let scored := _fold_pool entries in
      let ranked := _ranked_entries scored in
      let positions := positions_of ranked in
      let quality_primary := _quality_primary_efficiency_active scored in
      let king := champion p in
      let rivals := take (Z.to_nat (Z.max 0 limit))
                      (filter (λ e, miner_hotkey e ≠ miner_hotkey king) (_distinct_ranked scored)) in
      standings_of (challenger_standing positions quality_primary king g
                      ceiling_band_clamp statistical_band_cap) rivals ≫= λ standings,
      Ok (Some {|
        king_official_rank := default (Z.of_nat (length ranked) + 1)
                                (dict_get (agent_id king) positions);
        king_official_score := _dethrone_composite king quality_primary;
        challengers := standings |})
  end.

(** * The continual retest lane *)

Record TieBandComparison := {
  gap : F64;
  tolerance : F64;
  indistinguishable : bool
}.

Definition tie_band_comparison (candidate cutoff : KothEntry) (tolerance_z : F64)
    : TieBandComparison :=
  let quality_primary := _quality_primary_efficiency_active [candidate; cutoff] in
  let gap := fsub (_dethrone_composite cutoff quality_primary)
                  (_dethrone_composite candidate quality_primary) in
  let scaled e := fmul (default zero (_stderr e))
                       (if quality_primary then one else _efficiency_stderr_scale e) in
  let tolerance := fmul tolerance_z
    (fsqrt (fadd (libm_sq (scaled candidate)) (libm_sq (scaled cutoff)))) in
  {| gap := gap; tolerance := tolerance;
     indistinguishable := fleb gap zero || fleb gap tolerance |}.

Definition indistinguishable_from (candidate cutoff : KothEntry) (tolerance_z : F64) : bool :=
  indistinguishable (tie_band_comparison candidate cutoff tolerance_z).

(** The loop over the ranked rivals. *)
Fixpoint cohort_loop (base_size ceiling : Z) (tolerance_z : F64) (ranked : list KothEntry)
    (seen : list Z) (members : list KothEntry) (cutoff : option KothEntry) : list KothEntry :=
  match ranked with
  | [] => members
  | e :: ranked' =>
      let size := Z.of_nat (length members) in
      if bool_decide (agent_id e ∈ seen)
      then cohort_loop base_size ceiling tolerance_z ranked' seen members cutoff else
      if ceiling <=? size then members else
      if (base_size <=? size) &&
         match cutoff with
         | None => true
         | Some c => negb (indistinguishable_from e c tolerance_z)
         end then members else
      cohort_loop base_size ceiling tolerance_z ranked' (agent_id e :: seen) (members ++ [e])
        (if size + 1 =? base_size then Some e else cutoff)
  end.

Definition retest_cohort (entries : list KothEntry) (projection : option KothProjection)
    (size : Z) (max_size : option Z) (tolerance_z : F64) : list KothEntry :=
  match projection with
  | None => []
  | Some p =>
      let ranked := _ranked_entries (filter (λ e, miner_hotkey e ≠ miner_hotkey (champion p))
                                       (_fold_pool entries)) in
      let base_size := Z.max 1 size in
      let ceiling := match max_size with None => base_size | Some m => Z.max base_size m end in
      cohort_loop base_size ceiling tolerance_z ranked [agent_id (champion p)] [champion p] None
  end.

Definition tempo_index (block_number : Z) : Z := block_number / BLOCKS_PER_TEMPO.

(** The interval between rounds at a point of the schedule. *)
Definition round_interval (base span step_cap scheduled : Z) : Z :=
  Z.min (base * 2 ^ (scheduled / span)) step_cap.

(** [while scheduled < reign_tempo]; every interval is positive, so as many turns
    as [reign_tempo] are enough ([round_schedule_total]). *)
Fixpoint round_schedule (base span step_cap reign_tempo : Z) (fuel : nat) (scheduled : Z)
    : option Z :=
  if negb (scheduled <? reign_tempo) then Some scheduled else
  match fuel with
  | O => None
  | S fuel' => round_schedule base span step_cap reign_tempo fuel'
                 (scheduled + round_interval base span step_cap scheduled)
  end.

Definition reign_tempo_of (current_block crown_block : Z) : Z :=
  Z.max 0 (current_block - crown_block) / BLOCKS_PER_TEMPO.

Definition top5_round_is_due (current_block crown_block base doubling_k cap : Z) : bool :=
  if base <=? 0 then false else
  let step_cap := Z.max base cap in
  let span := Z.max 1 doubling_k in
  let reign_tempo := reign_tempo_of current_block crown_block in
  match round_schedule base span step_cap reign_tempo (Z.to_nat reign_tempo) 0 with
  | Some scheduled => scheduled =? reign_tempo
  | None => false
  end.
End fold.
End Koth.

(** Members with distinct new agents are all kept. *)
Lemma unseen_fresh seen (l : list Koth.KothEntry) :
  NoDup (Koth.agent_id <$> l) → (∀ e, e ∈ l → Koth.agent_id e ∉ seen) →
  Koth.unseen_agents seen l = l.
Proof.
  revert seen. induction l as [|e l IH]; intros seen Hnd Hs; [done|]. csimpl in Hnd.
  apply NoDup_cons in Hnd as [He Hnd]. simpl. rewrite bool_decide_false by (apply Hs; left).
  rewrite IH; [done..|]. intros x Hx [E|Hin]%elem_of_cons.
  - apply He. rewrite <- E. by apply list_elem_of_fmap_2.
  - eapply Hs; [by right | exact Hin].
Qed.
