(* ===== verification/KothBoard.v ===== *)
(** What the platform's board and retest lane build on the projection: the
    standings, the continual-retest cohort and the round schedule of
    [apps/platform/ditto/api_server/koth.py]. *)
From Stdlib Require Import ZArith Lia.
From stdpp Require Import base list gmap strings sorting.
From S2P Require Import Prelude Binary64 Dueling Ledger Crown ScoreOrder KothFold.
Import Koth.

Implicit Types (e : KothEntry) (l entries : list KothEntry).

(** * The round schedule *)

(** The scheduled tempos of a reign: the crown tempo, then each interval on. *)
Fixpoint round_point (base span step_cap : Z) (k : nat) : Z :=
  match k with
  | O => 0
  | S k' => let s := round_point base span step_cap k' in
            s + round_interval base span step_cap s
  end.

Section schedule.
Context (base span step_cap : Z) (Hb : 0 < base) (Hspan : 0 < span) (Hcap : base <= step_cap).
Abbreviation point := (round_point base span step_cap).

Lemma round_interval_bounds s : 0 <= s → base <= round_interval base span step_cap s <= step_cap.
Proof using Hb Hspan Hcap.
  intros Hs. unfold round_interval.
  assert (0 < 2 ^ (s / span)) by (apply Z.pow_pos_nonneg; [lia | by apply Z.div_pos]). nia.
Qed.

Lemma point_nonneg k : 0 <= point k.
Proof using Hb Hspan Hcap.
  induction k as [|k IH]; simpl; [lia|]. pose proof (round_interval_bounds _ IH). lia.
Qed.

Lemma point_step k : point k + base <= point (S k) <= point k + step_cap.
Proof using Hb Hspan Hcap. simpl. pose proof (round_interval_bounds _ (point_nonneg k)). lia. Qed.

Lemma point_mono i j : (i <= j)%nat → point i <= point j.
Proof using Hb Hspan Hcap.
  induction 1 as [|j _ IH]; [done|]. pose proof (point_step j). lia.
Qed.

(** The loop ends on the first scheduled tempo that is not before the reign's. *)
Lemma round_schedule_total reign fuel k : (Z.to_nat (reign - point k) <= fuel)%nat →
  ∃ j, round_schedule base span step_cap reign fuel (point k) = Some (point j) ∧
    reign <= point j ∧ (k <= j)%nat ∧ (∀ i, (k <= i < j)%nat → point i < reign).
Proof using Hb Hspan Hcap.
  revert k. induction fuel as [|fuel IH]; intros k Hf; cbn [round_schedule];
    destruct (Z.ltb_spec (point k) reign) as [Hlt|Hge]; simpl negb; cbn match; try lia.
  1, 3: exists k; split_and!; [done..|]; intros; lia.
  pose proof (point_step k) as Hs.
  destruct (IH (S k)) as (j & E & Hr & Hkj & Hmin); [lia|].
  exists j. split_and!; [exact E | done | lia |]. intros i Hi.
  destruct (decide (i = k)) as [->|]; [done|]. apply Hmin. lia.
Qed.
End schedule.

Section rounds.
Context (current_block crown_block base doubling_k cap : Z) (Hb : 0 < base).
Abbreviation point := (round_point base (Z.max 1 doubling_k) (Z.max base cap)).

Lemma reign_nonneg : 0 <= reign_tempo_of current_block crown_block.
Proof. apply Z.div_pos; [lia | done]. Qed.

(** The loop of [top5_round_is_due] ends, and a round is due exactly at the
    tempos of the growing schedule: the crown tempo, then every
    [min(base * 2 ** (scheduled // K), cap)] tempos on. *)
Lemma round_due_schedule :
  top5_round_is_due current_block crown_block base doubling_k cap = true ↔
  ∃ k, reign_tempo_of current_block crown_block = point k.
Proof using Hb.
  unfold top5_round_is_due. rewrite (proj2 (Z.leb_gt base 0)) by done. cbv zeta.
  pose proof reign_nonneg as Hr. set (reign := reign_tempo_of _ _) in *.
  destruct (round_schedule_total base (Z.max 1 doubling_k) (Z.max base cap) Hb ltac:(lia)
    ltac:(lia) reign (Z.to_nat reign) 0) as (j & E & Hj & _ & Hmin); [simpl; lia|].
  simpl round_point in E at 1. rewrite E, Z.eqb_eq. split; [eauto|]. intros [k Hk].
  destruct (decide (k < j)%nat) as [Hlt|Hge].
  - pose proof (Hmin k ltac:(lia)). lia.
  - pose proof (point_mono base (Z.max 1 doubling_k) (Z.max base cap) Hb ltac:(lia) ltac:(lia)
      j k ltac:(lia)). lia.
Qed.
End rounds.

(** C36: retest rounds neither stop nor crowd: with the lane on, from any tempo of
    a reign the next round is due within [max(base, cap)] tempos, and two due
    tempos of one reign are at least [base] apart, however long the reign. *)
Theorem rounds_keep_coming crown_block base doubling_k cap t :
  0 < base → 0 <= t →
  let due u := top5_round_is_due (crown_block + u * BLOCKS_PER_TEMPO) crown_block
                 base doubling_k cap = true in
  (∃ u, t <= u < t + Z.max base cap ∧ due u) ∧
  (∀ u v, 0 <= u → u < v → due u → due v → u + base <= v).
Proof.
  intros Hb Ht due.
  assert (∀ u, 0 <= u → due u ↔ ∃ k, u = round_point base (Z.max 1 doubling_k) (Z.max base cap) k)
    as Hdue.
  { intros u Hu. unfold due. rewrite round_due_schedule by done. unfold reign_tempo_of.
    rewrite Z.max_r by (unfold BLOCKS_PER_TEMPO; lia).
    replace (crown_block + u * BLOCKS_PER_TEMPO - crown_block) with (u * BLOCKS_PER_TEMPO) by lia.
    by rewrite Z.div_mul. }
  set (span := Z.max 1 doubling_k) in *. set (step := Z.max base cap) in *.
  assert (0 < span) by lia. assert (base <= step) by lia. split.
  - destruct (round_schedule_total base span step Hb ltac:(done) ltac:(done) t (Z.to_nat t) 0)
      as (j & _ & Hj & _ & Hmin); [simpl; lia|].
    exists (round_point base span step j).
    split; [|apply Hdue; [by apply point_nonneg | eauto]]. split; [done|].
    destruct j as [|j]; [simpl in *; lia|].
    pose proof (Hmin j ltac:(lia)).
    pose proof (point_step base span step Hb ltac:(done) ltac:(done) j). lia.
  - intros u v Hu Huv Hdu Hdv. apply Hdue in Hdu as [i ->], Hdv as [j ->]; [|lia..].
    destruct (decide (j <= i)%nat) as [Hle|Hlt].
    + pose proof (point_mono base span step Hb ltac:(done) ltac:(done) j i Hle). lia.
    + pose proof (point_mono base span step Hb ltac:(done) ltac:(done) (S i) j ltac:(lia)).
      pose proof (point_step base span step Hb ltac:(done) ltac:(done) i). lia.
Qed.

Lemma rounds_keep_coming_witness :
  (∃ u, 100 <= u < 100 + 32 ∧ top5_round_is_due (5000 + u * BLOCKS_PER_TEMPO) 5000 2 20 32 = true) ∧
  (∀ u v, 0 <= u → u < v → top5_round_is_due (5000 + u * BLOCKS_PER_TEMPO) 5000 2 20 32 = true →
    top5_round_is_due (5000 + v * BLOCKS_PER_TEMPO) 5000 2 20 32 = true → u + 2 <= v).
Proof. apply (rounds_keep_coming 5000 2 20 32 100); lia. Defined.

(** The first rounds of a reign with base 2, doubling every 4 tempos, capped at 8. *)
Example round_points : round_point 2 4 8 <$> seq 0 7 = [0; 2; 4; 8; 16; 24; 32].
Proof. reflexivity. Qed.

Lemma round_due_schedule_witness :
  top5_round_is_due (5000 + 16 * 360) 5000 2 4 8 = true ↔
  ∃ k, reign_tempo_of (5000 + 16 * 360) 5000 = round_point 2 4 8 k.
Proof. apply (round_due_schedule (5000 + 16 * 360) 5000 2 4 8). lia. Defined.

(** * Ranking *)

Definition agents_apart (l : list KothEntry) : Prop := NoDup (agent_id <$> l).

Lemma submission_key_id scores secondary (x y : KothEntry) :
  cmp_by score_order_cmp (submission_key scores secondary) x y = Eq → agent_id x = agent_id y.
Proof.
  unfold cmp_by, score_order_cmp, cmp_then, cmp_desc. repeat case_match; try discriminate.
  unfold cmp_by. intros Hz. by apply Z.compare_eq in Hz.
Qed.

Lemma apart_eq l (a b : KothEntry) :
  agents_apart l → a ∈ l → b ∈ l → agent_id a = agent_id b → a = b.
Proof.
  intros Hd Ha Hb E. unfold agents_apart in Hd.
  induction l as [|e l IH]; [by apply elem_of_nil in Ha|].
  csimpl in Hd. apply NoDup_cons in Hd as [He Hd].
  apply elem_of_cons in Ha as [->|Ha], Hb as [->|Hb]; [done|..|by apply IH];
    destruct He; [rewrite E | rewrite <- E]; by apply list_elem_of_fmap_2.
Qed.

Lemma apart_distinct scores secondary l :
  agents_apart l → key_distinct (cmp_by score_order_cmp (submission_key scores secondary)) l.
Proof.
  intros Hd x y Hx Hy Heq%submission_key_id. by eapply apart_eq.
Qed.

Lemma ranked_entries_perm l : _ranked_entries l ≡ₚ l.
Proof. unfold _ranked_entries. case_match; apply py_sorted_perm. Qed.

Section board.
Context {L : Libm}.

Lemma koth_swap_pass_perm upper rest : (swap_pass upper rest).1 ≡ₚ upper :: rest.
Proof.
  revert upper. induction rest as [|lower rest IH]; intros upper; [done|]. cbn [swap_pass].
  destruct (adjacent_swaps lower upper).
  - cbn [fst]. rewrite IH. apply Permutation_swap.
  - pose proof (IH lower) as H. destruct (swap_pass lower rest). cbn [fst] in *. by rewrite H.
Qed.

Lemma adjacent_perm l : _dueling_adjacent_order l ≡ₚ l.
Proof.
  unfold _dueling_adjacent_order. destruct (existsb _ l); [|done].
  generalize (length l). intros n. revert l. induction n as [|n IH]; intros [|u r]; [done..|].
  cbn [swap_passes]. pose proof (koth_swap_pass_perm u r) as H.
  destruct (swap_pass u r) as [l' []]; cbn [fst] in H; [by rewrite IH | done].
Qed.

(** * The retest cohort *)

(** Without a tie band the loop admits the first rivals, up to the size. *)
Lemma cohort_loop_fixed k z ranked seen members cutoff :
  agents_apart ranked → (∀ e, e ∈ ranked → agent_id e ∉ seen) →
  cohort_loop k k z ranked seen members cutoff =
  members ++ take (Z.to_nat (k - Z.of_nat (length members))) ranked.
Proof.
  revert seen members cutoff. induction ranked as [|e ranked IH]; intros seen members cutoff Hd Hs.
  { by rewrite take_nil, app_nil_r. }
  unfold agents_apart in Hd. csimpl in Hd. apply NoDup_cons in Hd as [He Hd]. cbn [cohort_loop].
  rewrite bool_decide_false by (apply Hs; left). cbv zeta.
  destruct (Z.leb_spec k (Z.of_nat (length members))) as [Hfull|Hroom].
  - replace (Z.to_nat (k - Z.of_nat (length members))) with 0%nat by lia. by rewrite app_nil_r.
  - simpl andb. cbn match. rewrite IH; [|done|].
    + replace (Z.to_nat (k - Z.of_nat (length members)))
        with (S (Z.to_nat (k - Z.of_nat (length (members ++ [e])))))
        by (rewrite length_app; cbn [length]; lia).
      cbn [take]. by rewrite <- app_assoc.
    + intros x Hx [E|Hin]%elem_of_cons.
      * apply He. rewrite <- E. by apply list_elem_of_fmap_2.
      * by eapply Hs; [right|].
Qed.

(** The cohort never exceeds its ceiling, and every later member ranks below. *)
Lemma cohort_loop_bounded k c z ranked seen members cutoff :
  Z.of_nat (length members) <= Z.max c k → k <= c →
  Z.of_nat (length (cohort_loop k c z ranked seen members cutoff)) <= Z.max c k ∧
  ∃ more, cohort_loop k c z ranked seen members cutoff = members ++ more ∧ more `sublist_of` ranked.
Proof.
  intros Hm Hk. revert seen members cutoff Hm.
  induction ranked as [|e ranked IH]; intros seen members cutoff Hm; cbn [cohort_loop].
  - split; [done|]. exists []. by rewrite app_nil_r.
  - assert (members = members ++ [] ∧ [] `sublist_of` e :: ranked) as Hstop
      by (split; [by rewrite app_nil_r | apply sublist_nil_l]).
    destruct (bool_decide _).
    { destruct (IH seen members cutoff Hm) as (H1 & more & H2 & H3). split; [done|].
      exists more. split; [done|]. by apply sublist_cons. }
    cbv zeta. destruct (Z.leb_spec c (Z.of_nat (length members))); [by eauto|].
    destruct (_ && _); [by eauto|].
    edestruct (IH (agent_id e :: seen) (members ++ [e])) as (H1 & more & H2 & H3).
    { rewrite length_app. cbn [length]. lia. }
    split; [exact H1|]. exists (e :: more). split; [by rewrite H2, <- app_assoc|].
    by apply sublist_skip.
Qed.

Lemma scores_by_lookup (score : KothEntry → F64) l e : agents_apart l → e ∈ l →
  dict_get (agent_id e) (scores_by score l) = Some (score e).
Proof.
  intros Hd He. unfold scores_by.
  assert (((λ e, (agent_id e, score e)) <$> l).*1 = agent_id <$> l) as Hk
    by by rewrite <- list_fmap_compose.
  apply elem_dict_get; [apply NoDup_dict_of|]. rewrite dict_of_NoDup by (rewrite Hk; exact Hd).
  apply list_elem_of_fmap. by exists e.
Qed.

(** Ranking a part of the pool is restricting the ranking, while both are ranked
    the same way (quality first, or on the adjusted score). *)
Lemma ranked_filter (P : KothEntry → Prop) `{∀ x, Decision (P x)} l :
  agents_apart l →
  _quality_primary_efficiency_active (filter P l) = _quality_primary_efficiency_active l →
  _ranked_entries (filter P l) = filter P (_ranked_entries l).
Proof.
  intros Hd Hq. unfold _ranked_entries. rewrite Hq.
  assert (agents_apart (filter P l)) as Hd'.
  { eapply sublist_NoDup; [exact Hd|]. by apply fmap_sublist, sublist_filter. }
  assert (∀ score e, e ∈ filter P l → dict_get (agent_id e) (scores_by score (filter P l)) =
    dict_get (agent_id e) (scores_by score l)) as Hlk.
  { intros score e He. rewrite (scores_by_lookup _ (filter P l)) by done.
    apply list_elem_of_filter in He as [_ He]. by rewrite scores_by_lookup. }
  assert (∀ score secondary secondary' e, e ∈ filter P l →
    dict_get (agent_id e) (secondary_of None (Some secondary)) =
    dict_get (agent_id e) (secondary_of None (Some secondary')) →
    submission_key (Some (plain_scores (scores_by score (filter P l)))) (Some secondary) e =
    submission_key (Some (plain_scores (scores_by score l))) (Some secondary') e) as Hkey.
  { intros score s s' e He Hs. unfold submission_key. cbn [row_agent_id koth_rankable values_of
      plain_scores score_values]. rewrite Hlk by done. by f_equal. }
  assert (∀ score s, rank_submissions s (Some (plain_scores (scores_by score l))) None =
    rank_submissions s (Some (plain_scores (scores_by score l))) (Some [])) as Hnone by done.
  assert (∀ score s, rank_submissions s (Some (plain_scores (scores_by score (filter P l)))) None =
    rank_submissions s (Some (plain_scores (scores_by score (filter P l)))) (Some [])) as Hnone'
    by done.
  destruct (negb _); rewrite ?Hnone, ?Hnone'; unfold rank_submissions;
    rewrite (filter_py_sorted _ P) by by apply apart_distinct.
  all: apply py_sorted_ext; intros x y Hx Hy; unfold cmp_by.
  all: f_equal; apply Hkey; (done || by apply Hlk).
Qed.

Lemma fold_pool_apart l : agents_apart l → agents_apart (_fold_pool l).
Proof. intros Hd. eapply sublist_NoDup; [exact Hd|]. by apply fmap_sublist, sublist_filter. Qed.

Lemma koth_walk_elem (beats : KothEntry → KothEntry → bool) l c cs :
  c ∈ l → Forall (.∈ l) cs → foldl (λ champ x, if beats x champ then x else champ) c cs ∈ l.
Proof.
  intros Hc Hcs. revert c Hc. induction Hcs as [|x cs Hx _ IH]; intros c Hc; [done|].
  cbn [foldl]. apply IH. by destruct (beats x c).
Qed.

Lemma sorted_subset (P : KothEntry → Prop) `{∀ x, Decision (P x)} l :
  Forall (.∈ l) (filter P (py_sorted seen_cmp l)).
Proof.
  apply Forall_forall. intros x [_ Hx]%list_elem_of_filter. by apply elem_of_py_sorted in Hx.
Qed.

Lemma opening_elem l inc c cs : walk_opening l inc = Some (c, cs) → c ∈ l ∧ Forall (.∈ l) cs.
Proof.
  unfold walk_opening. destruct (List.find _ l) as [i|] eqn:Ef.
  - intros [= <- <-]. apply List.find_some in Ef as [Hi _].
    split; [by apply list_elem_of_In | apply sorted_subset].
  - destruct (py_sorted seen_cmp l) as [|x r] eqn:Es; [done|]. intros [= <- <-].
    assert (∀ e, e ∈ x :: r → e ∈ l) as Hin by (intros e; rewrite <- Es; apply elem_of_py_sorted).
    split; [apply Hin; left|]. apply Forall_forall. intros e He. apply Hin. by right.
Qed.

Lemma gated_elem g l c : c ∈ l →
  (gated_opening g l c).1 ∈ l ∧ Forall (.∈ l) (gated_opening g l c).2.
Proof.
  intros Hc. unfold gated_opening. cbv zeta. cbn [fst snd]. split; [|apply sorted_subset].
  assert (∀ e, e ∈ take (Z.to_nat (Z.max 1 (standing_rank g))) (_ranked_entries l) → e ∈ l) as Hs.
  { intros e He. rewrite <- (ranked_entries_perm l). eapply elem_of_submseteq; [exact He|].
    apply sublist_submseteq, sublist_take. }
  case_bool_decide; [done|]. destruct (List.find _ _) as [x|] eqn:Ef.
  - apply List.find_some in Ef as [Hx _]. by apply Hs, list_elem_of_In.
  - destruct (take _ _) as [|x r]; [done|]. apply Hs. left.
Qed.

(** What a projection is made of. *)
Lemma projection_facts entries distinct clamp cap inc gate π :
  project_koth entries distinct clamp cap inc gate = Some π →
  champion π ∈ _fold_pool entries ∧
  tail π ≡ₚ take (Z.to_nat KOTH_TAIL_SIZE)
    (let r := filter (λ e, miner_hotkey e ≠ miner_hotkey (champion π))
                (_ranked_entries (_fold_pool entries)) in
     if distinct then distinct_by miner_hotkey [miner_hotkey (champion π)] r else r).
Proof.
  unfold project_koth. cbv zeta. destruct (walk_opening _ inc) as [[c cs]|] eqn:Ho; [|done].
  destruct (head _) as [leader|]; [|done]. apply opening_elem in Ho as [Hc Hcs].
  assert (∃ c' cs', (match gate with Some g => gated_opening g (_fold_pool entries) c
      | None => (c, cs) end) = (c', cs') ∧ c' ∈ _fold_pool entries ∧
    Forall (.∈ _fold_pool entries) cs') as (c' & cs' & -> & Hc' & Hcs').
  { destruct gate as [g|]; [|by exists c, cs]. pose proof (gated_elem g _ c Hc) as [H1 H2].
    eexists _, _. split; [apply surjective_pairing | done]. }
  intros [= <-]. cbn [champion tail]. split.
  - by apply (koth_walk_elem (λ x y, dethrones (_dethrone_decision x y clamp cap gate))).
  - rewrite adjacent_perm. by destruct distinct.
Qed.

(** The retest dial starts from the emission set and extends it. At size
    five, without a tie band, the cohort is the emission set (champion first, the
    same members) whatever the projection's gate and incumbent; and every larger
    cohort keeps the champion first, never exceeds its ceiling, and admits only
    pool entries of other miners, in rank order. *)
Lemma retest_cohort_extends entries clamp cap inc gate π size max_size z :
  project_koth entries false clamp cap inc gate = Some π →
  agents_apart entries →
  let rivals := filter (λ e, miner_hotkey e ≠ miner_hotkey (champion π)) (_fold_pool entries) in
  _quality_primary_efficiency_active rivals =
    _quality_primary_efficiency_active (_fold_pool entries) →
  retest_cohort entries (Some π) 5 None z ≡ₚ emission_set (Some π) ∧
  ∃ more, retest_cohort entries (Some π) size max_size z = champion π :: more ∧
    more `sublist_of` _ranked_entries rivals ∧
    1 + Z.of_nat (length more) <= Z.max (Z.max 1 size) (default 0 max_size).
Proof.
  intros Hπ Hd rivals Hq. pose proof (fold_pool_apart _ Hd) as Hd'.
  apply projection_facts in Hπ as [Hch Htl]. cbv zeta in Htl.
  assert (∀ e, e ∈ _ranked_entries rivals → agent_id e ∉ [agent_id (champion π)]) as Hfresh.
  { intros e He Hin%list_elem_of_singleton. rewrite ranked_entries_perm in He.
    apply list_elem_of_filter in He as [Hne He]. apply Hne. f_equal. by eapply apart_eq. }
  assert (agents_apart (_ranked_entries rivals)) as Hdr.
  { unfold agents_apart. rewrite ranked_entries_perm.
    eapply sublist_NoDup; [exact Hd'|]. by apply fmap_sublist, sublist_filter. }
  split.
  - unfold retest_cohort, emission_set. cbv zeta. fold rivals.
    rewrite cohort_loop_fixed by done. cbn [app length].
    rewrite <- ranked_filter in Htl by done. fold rivals in Htl.
    change (Z.to_nat (Z.max 1 5 - Z.of_nat 1)) with (Z.to_nat KOTH_TAIL_SIZE).
    rewrite unseen_fresh; [by rewrite Htl|..].
    + rewrite Htl. eapply sublist_NoDup; [exact Hdr|]. apply fmap_sublist, sublist_take.
    + intros e He. apply Hfresh. rewrite Htl in He. eapply elem_of_submseteq; [exact He|].
      apply sublist_submseteq, sublist_take.
  - unfold retest_cohort. cbv zeta. fold rivals.
    destruct (cohort_loop_bounded (Z.max 1 size)
      (match max_size with None => Z.max 1 size | Some m => Z.max (Z.max 1 size) m end) z
      (_ranked_entries rivals) [agent_id (champion π)] [champion π] None)
      as (Hlen & more & E & Hsub).
    { cbn [length]. destruct max_size; lia. } { destruct max_size; lia. }
    exists more. rewrite E in Hlen |- *. split_and!; [done..|].
    cbn [app length] in Hlen. destruct max_size; simpl default; lia.
Qed.

(** * The standings *)

Lemma fold_pool_idem entries : _fold_pool (_fold_pool entries) = _fold_pool entries.
Proof. unfold _fold_pool. rewrite list_filter_filter. apply list_filter_iff. tauto. Qed.

Lemma position_present ranked e : e ∈ ranked →
  ∃ i, dict_get (agent_id e) (positions_of ranked) = Some i ∧ 1 <= i <= Z.of_nat (length ranked).
Proof.
  intros He. unfold positions_of.
  assert (∀ k i (l : list (Z * Z)), (∀ x, x ∈ l → 1 <= x.2 <= Z.of_nat (length ranked)) →
    dict_get k (dict_of l) = Some i → 1 <= i <= Z.of_nat (length ranked)) as Hb.
  { intros k i l Hl Hg. apply dict_get_Some_elem in Hg.
    assert (∀ us acc : list (Z * Z), (∀ x, x ∈ us → 1 <= x.2 <= Z.of_nat (length ranked)) →
      Forall (λ x : Z * Z, 1 <= x.2 <= Z.of_nat (length ranked)) acc →
      Forall (λ x : Z * Z, 1 <= x.2 <= Z.of_nat (length ranked))
        (foldl (λ d kv, dict_set kv.1 kv.2 d) acc us)) as Hf.
    { induction us as [|[u v] us IH]; intros acc Hus Hacc; [done|]. cbn [foldl fst snd].
      apply IH; [intros x Hx; apply Hus; by right|].
      pose proof (Hus (u, v) ltac:(left)) as Hv. simpl in Hv.
      clear -Hacc Hv. induction Hacc as [|[k' w] d Hw Hd IHd]; simpl;
        [by apply Forall_cons|]. case_decide; apply Forall_cons; auto. }
    specialize (Hf l [] Hl ltac:(constructor)). by eapply Forall_forall in Hf; [|exact Hg]. }
  destruct (dict_get (agent_id e) _) as [i|] eqn:E.
  - exists i. split; [done|]. apply Hb in E; [done|]. intros x Hx.
    apply list_elem_of_lookup in Hx as [j Hj]. rewrite list_lookup_imap in Hj.
    destruct (ranked !! j) eqn:El; [|done]. injection Hj as <-. cbn [snd].
    apply lookup_lt_Some in El. lia.
  - exfalso. apply dict_get_None in E. apply E, elem_of_keys_dict_of.
    apply list_elem_of_lookup in He as [j Hj]. apply list_elem_of_fmap.
    exists (agent_id e, Z.of_nat j + 1). split; [done|].
    apply list_elem_of_lookup. exists j. by rewrite list_lookup_imap, Hj.
Qed.

Lemma standings_of_Ok f rivals (P : KothEntry → ChallengerStanding → Prop) :
  (∀ e, e ∈ rivals → ∃ s, f e = Ok s ∧ P e s) →
  ∃ ss, standings_of f rivals = Ok ss ∧ Forall2 P rivals ss.
Proof.
  induction rivals as [|e rivals IH]; intros Hf; [by exists []|]. cbn [standings_of].
  destruct (Hf e ltac:(left)) as (s & -> & Hs).
  destruct IH as (ss & E & Hss); [intros x Hx; apply Hf; by right|].
  exists (s :: ss). split; [|by constructor]. cbn. by rewrite E.
Qed.

(** Explaining the crown never fails: [positions[entry.agent_id]] finds every
    challenger, so [crown_standings] returns for every pool and gate. It lists at
    most [limit] miners, none twice and never the King's, each with its place in
    the official ranking and the decision the gated fold itself would take. *)
Lemma crown_standings_total entries projection g clamp cap limit :
  ∃ standings, crown_standings entries projection g clamp cap limit = Ok standings ∧
    match projection, standings with
    | Some π, Some s =>
        (length (challengers s) <= Z.to_nat (Z.max 0 limit))%nat ∧
        NoDup (miner_hotkey ∘ standing_entry <$> challengers s) ∧
        Forall (λ c, miner_hotkey (standing_entry c) ≠ miner_hotkey (champion π) ∧
          1 <= official_rank c <= Z.of_nat (length (_fold_pool entries)) ∧
          standing_decision c =
            _dethrone_decision (standing_entry c) (champion π) clamp cap (Some g)) (challengers s)
    | None, None => True
    | _, _ => False
    end.
Proof.
  unfold crown_standings. destruct projection as [π|]; [|by exists None]. cbv zeta.
  set (ranked := _ranked_entries (_fold_pool entries)).
  set (rivals := take _ (filter _ _)).
  assert (rivals `sublist_of` _distinct_ranked (_fold_pool entries)) as Hsub.
  { unfold rivals. etrans; [apply sublist_take | apply sublist_filter]. }
  destruct (standings_of_Ok (challenger_standing (positions_of ranked)
      (_quality_primary_efficiency_active (_fold_pool entries)) (champion π) g clamp cap) rivals
    (λ e s, standing_entry s = e ∧ miner_hotkey e ≠ miner_hotkey (champion π) ∧
       1 <= official_rank s <= Z.of_nat (length ranked) ∧
       standing_decision s = _dethrone_decision e (champion π) clamp cap (Some g)))
    as (ss & E & Hss).
  { intros e He. unfold challenger_standing.
    assert (e ∈ ranked) as Hr.
    { assert (e ∈ _distinct_ranked (_fold_pool entries)) as Hd
        by (eapply elem_of_submseteq; [exact He | by apply sublist_submseteq]).
      unfold _distinct_ranked in Hd. rewrite fold_pool_idem in Hd.
      eapply elem_of_submseteq; [exact Hd|]. apply sublist_submseteq, distinct_by_sublist. }
    destruct (position_present ranked e Hr) as (i & -> & Hi).
    eexists. split; [reflexivity|]. split_and!; [done| |exact (proj1 Hi)|exact (proj2 Hi)|done].
    assert (e ∈ filter (λ e, miner_hotkey e ≠ miner_hotkey (champion π))
      (_distinct_ranked (_fold_pool entries))) as Hf
      by (eapply elem_of_submseteq; [exact He | apply sublist_submseteq, sublist_take]).
    by apply list_elem_of_filter in Hf as [? _]. }
  rewrite E. cbn [mbind result_bind]. eexists. split; [reflexivity|]. cbn [challengers].
  assert (miner_hotkey ∘ standing_entry <$> ss = miner_hotkey <$> rivals) as Hk.
  { clear -Hss. induction Hss as [|e s es ss (He & _) _ IH]; [done|]. csimpl. by rewrite He, IH. }
  assert (length ranked = length (_fold_pool entries)) as Hlen
    by (unfold ranked; by rewrite ranked_entries_perm).
  split_and!.
  - rewrite <- (Forall2_length _ _ _ Hss). unfold rivals. rewrite length_take. lia.
  - rewrite Hk. eapply sublist_NoDup; [|apply fmap_sublist, Hsub]. apply distinct_by_NoDup.
  - rewrite Hlen in Hss. clear -Hss.
    induction Hss as [|e s es ss (He & Hne & Hr & Hd) _ IH]; constructor; [|done].
    rewrite He. split_and!; (done || lia).
Qed.
End board.

(** * Concrete instances *)

Definition sample_koth (hotkey : string) (id seen : Z) (score : F64) : KothEntry := {|
  miner_hotkey := hotkey; agent_id := id; composite := score; first_seen := seen;
  raw_rank := 0; bench_version := 12; composite_stderr := None; quorum_composites := None;
  completed_wave_composites := None; confirmation_composites := None; confirmation_seeds := None;
  efficiency_bonus := None; efficiency_factor := None; efficiency_curve_version := None;
  dueling_season_id := None; dueling := None; dueling_records := None; duel_records := None |}.
Definition sample_board : list KothEntry :=
  [sample_koth "a" 1 10 (flit 70 100); sample_koth "b" 2 20 (flit 72 100);
   sample_koth "c" 3 30 (flit 71 100); sample_koth "a" 4 40 (flit 65 100);
   sample_koth "d" 5 50 (flit 60 100); sample_koth "e" 6 60 (flit 60 100);
   sample_koth "f" 7 70 (flit 60 100)].
Definition sample_projection : KothProjection :=
  match project_koth (L := sample_libm) sample_board false true true None None with
  | Some π => π
  | None => {| champion := sample_koth "" 0 0 zero; tail := [];
               raw_leader := sample_koth "" 0 0 zero; raw_leader_decision := None |}
  end.

(** A band below the cut-off admits its exact ties: [e] and [f] tie with [d]. *)
Example sample_cohort :
  agent_id <$> retest_cohort (L := sample_libm) sample_board (Some sample_projection)
    5 (Some 6) zero = [2; 3; 1; 4; 5; 6] ∧
  agent_id <$> retest_cohort (L := sample_libm) sample_board (Some sample_projection)
    6 (Some 9) zero = [2; 3; 1; 4; 5; 6; 7].
Proof. split; vm_compute; reflexivity. Qed.

Lemma retest_cohort_extends_witness :
  retest_cohort (L := sample_libm) sample_board (Some sample_projection) 5 None zero
    ≡ₚ emission_set (Some sample_projection) ∧
  ∃ more, retest_cohort (L := sample_libm) sample_board (Some sample_projection) 6 (Some 9) zero =
      champion sample_projection :: more ∧
    more `sublist_of` _ranked_entries (filter
      (λ e, miner_hotkey e ≠ miner_hotkey (champion sample_projection)) (_fold_pool sample_board)) ∧
    1 + Z.of_nat (length more) <= 9.
Proof.
  apply (retest_cohort_extends (L := sample_libm) sample_board true true None None
    sample_projection 6 (Some 9) zero).
  - vm_compute. reflexivity.
  - apply (bool_decide_unpack _). vm_compute. exact I.
  - vm_compute. reflexivity.
Defined.
