(* ===== verification/KothMirror.v ===== *)
(** The platform's lift of a served ledger, [koth_entries_from_ledger] of
    [apps/platform/ditto/api_server/koth.py], and the agreement of its fold with
    the validators'.

    [served] is what the platform guarantees of the rows it serves
    ([endpoints/scoring.py] builds them); on such rows every reading of the lifted
    row is the validator's, and so are the champion, the tail and the payout
    ([project_koth_mirrors], [emission_allocation_mirrors]).  Outside it the two
    can part: [legacy_bundle_parts] is such a row. *)
From Stdlib Require Import ZArith Lia.
From stdpp Require Import base list gmap strings sorting.
From S2P Require Import Prelude Binary64 Dueling Ledger Crown Emission Blend ScoreOrder KothFold.

#[global] Instance ledger_rankable : RankableRow LedgerEntry := {|
  row_agent_id := agent_id; row_first_seen := first_seen; row_composite := composite;
  row_eligible _ := true; row_fold_first_seen _ := None |}.

(** [{entry.agent_id: rank for rank, entry in enumerate(by_median, start=1)}] *)
Definition raw_ranks (entries : list LedgerEntry) : list (Z * Z) :=
  dict_of (imap (λ i e, (agent_id e, Z.of_nat i + 1)) (rank_submissions entries None None)).

Definition _confirmation_history (e : LedgerEntry) : option (list (Z * F64)) :=
  match confirmation_history e with
  | None | Some [] => None
  | Some recs =>
      match foldl group_seed [] ((λ r, (rec_seed r, rec_composite r)) <$> recs) with
      | [] => None
      | grouped =>
          let collapsed := prod_map id Koth._median <$> grouped in
          Some (take (Z.to_nat Koth.CONFIRMATION_SEED_CEILING) (py_sorted seed_cmp collapsed))
      end
  end.

Definition seed_record (r : ConfirmationScoreRecord) : Koth.DuelingSeedRecord :=
  {| Koth.seed := rec_seed r; Koth.record_bench_version := rec_bench_version r;
     Koth.report := rec_dueling r |}.

(** The confirmation values and seeds, kept when they pair up. *)
Definition paired_evidence (e : LedgerEntry) : option (list F64 * list Z) :=
  let history := _confirmation_history e in
  let confirmations := match history with Some h => Some h.*2 | None => confirmation_composites e end in
  let seeds := match history with Some h => Some h.*1 | None => confirmation_seeds e end in
  match confirmations, seeds with
  | Some c, Some s =>
      if (length c =? length s)%nat && (2 <=? length c)%nat then Some (c, s) else None
  | _, _ => None
  end.

(** [None] for a receipt row and for an absent or empty list. *)
Definition lifted_records (e : LedgerEntry) (recs : option (list ConfirmationScoreRecord))
    : option (list Koth.DuelingSeedRecord) :=
  if has_receipt e then None else
  match recs with None | Some [] => None | Some rs => Some (seed_record <$> rs) end.

Definition koth_entry (raw_rank : Z) (e : LedgerEntry) : Koth.KothEntry := {|
  Koth.miner_hotkey := miner_hotkey e;
  Koth.agent_id := agent_id e;
  Koth.composite := match v9_confirmation e with
                    | Some full_effective_micros => int_truediv full_effective_micros 1000000
                    | None => composite e
                    end;
  Koth.first_seen := first_seen e;
  Koth.raw_rank := raw_rank;
  Koth.bench_version :=
    match bench_version e with None => 1 | Some v => if v =? 0 then 1 else v end;
  Koth.composite_stderr := composite_stderr e;
  Koth.quorum_composites := Some (if has_receipt e then [] else score_proofs e);
  Koth.completed_wave_composites :=
    Some (if has_receipt e then [] else
          match _confirmation_history e with
          | Some h => if mean_after_quorum e then h.*2
                      else default [] (confirmation_composites e)
          | None => default [] (confirmation_composites e)
          end);
  Koth.confirmation_composites := fst <$> paired_evidence e;
  Koth.confirmation_seeds := snd <$> paired_evidence e;
  Koth.efficiency_bonus := efficiency_bonus e;
  Koth.efficiency_factor := efficiency_factor e;
  Koth.efficiency_curve_version := efficiency_curve_version e;
  Koth.dueling_season_id := dueling_season_id e;
  Koth.dueling := dueling e;
  Koth.dueling_records := lifted_records e (confirmation_history e);
  Koth.duel_records := lifted_records e (duel_history e)
|}.

(** Every served agent has a rank, so the default is never read. *)
Definition koth_entries_from_ledger (entries : list LedgerEntry) : list Koth.KothEntry :=
  (λ e, koth_entry (default 0 (dict_get (agent_id e) (raw_ranks entries))) e) <$> entries.

(** * The rows the two folds agree on *)

Definition has_history (e : LedgerEntry) : Prop :=
  match confirmation_history e with None | Some [] => False | Some _ => True end.

(** The wire types ([LedgerEntry], [ConfirmationScoreRecord]) give the first three
    clauses.  The ledger endpoint serves a receipt without continual evidence, and
    continual evidence with the [mean_after_quorum] marker.  Two clauses leave out
    rows the platform can serve: [served_bundle] an in-row confirmation bundle
    beside a complete quorum ([legacy_bundle_parts]), and [served_factor] a bench-9
    factor without its receipt; [served_pool] says that the row is eligible and that
    its score and its projection are positive together. *)
Record served (e : LedgerEntry) : Prop := {
  served_version : ∀ v, bench_version e = Some v → 1 <= v;
  served_curve : ∀ v, efficiency_curve_version e = Some v → v = 3 ∨ v = 4;
  served_records : Forall (λ r, 0 <= rec_seed r ∧ unit_interval (rec_composite r) = true)
                     (default [] (confirmation_history e));
  served_receipt : has_receipt e = true →
    has_receipt_contract e = true ∧ confirmation_history e = None ∧
    confirmation_composites e = None ∧ duel_history e = None;
  served_method : has_history e → mean_after_quorum e = true;
  served_bundle : ¬ has_history e → ∀ v, confirmation_composites e = Some v →
    length (score_proofs e) ≠ 3%nat ∧
    ∃ s, confirmation_seeds e = Some s ∧ length s = length v;
  served_factor : _entry_version e = 9 → has_receipt e = true ∨ efficiency_factor e = None;
  served_pool : _entry_eligible e = true ∧
    fgtb (Koth.composite (koth_entry 0 e)) zero = fgtb (_effective_composite e) zero
}.

(** * Histories *)

Definition unit_value (x : F64) : Prop := unit_interval x = true.

Lemma unit_value_Fin a : 0 <= a <= f64_one → unit_value (Fin a).
Proof.
  intros [Ha Hb]. unfold unit_value, unit_interval, zero. rewrite one_Fin. simpl isfinite.
  apply fleb_Fin in Ha, Hb. by rewrite Ha, Hb.
Qed.

(** The mean of two scores is a score. *)
Lemma unit_mean x y : unit_value x → unit_value y → unit_value (fdiv (fadd x y) (of_int 2)).
Proof.
  intros (a & -> & Ha)%unit_interval_Fin (b & -> & Hb)%unit_interval_Fin.
  change (of_int 2) with (round (2 * f64_one) 1).
  assert (rep (2 * f64_one)) as Hr by (apply (bool_decide_unpack _); vm_compute; exact I).
  rewrite (round_rep _ Hr). unfold fadd.
  assert (fleb (Fin 0) (round (a + b) 1) = true) as Hlo by (apply round_nonneg; lia).
  assert (fleb (round (a + b) 1) (Fin (2 * f64_one)) = true) as Hhi.
  { rewrite <- (round_rep _ Hr). apply round_mono; lia. }
  destruct (round (a + b) 1) as [c| | |]; try discriminate.
  apply fleb_Fin in Hlo, Hhi. pose proof f64_one_pos.
  destruct (fdiv_unit c (2 * f64_one)) as [H0 H1]; [lia..|].
  unfold unit_value, unit_interval. rewrite H0, H1, !andb_true_r.
  destruct (fdiv (Fin c) _) eqn:E; [done|..]; rewrite one_Fin in H1; done.
Qed.

Lemma unit_median vs : vs ≠ [] → Forall unit_value vs → unit_value (median vs).
Proof.
  intros Hne Hv. unfold median.
  assert (0 < length (py_sorted fcompare vs))%nat as Hl.
  { rewrite length_py_sorted. by destruct vs; [|simpl; lia]. }
  assert (∀ i, (i < length (py_sorted fcompare vs))%nat →
    unit_value (default NaN (py_sorted fcompare vs !! i))) as Hi.
  { intros i Hi. apply lookup_lt_is_Some in Hi as [x Hx]. rewrite Hx. simpl.
    apply list_elem_of_lookup_2, elem_of_py_sorted in Hx. by eapply Forall_forall in Hv. }
  destruct (Nat.odd _); [|apply unit_mean]; apply Hi.
  - apply Nat.div_lt; lia.
  - assert (length (py_sorted fcompare vs) / 2 <= length (py_sorted fcompare vs))%nat; [|].
    { apply Nat.Div0.div_le_upper_bound. lia. } lia.
  - apply Nat.div_lt; lia.
Qed.

(** The groups a history is collapsed from. *)
Definition good_groups (g : list (Z * list F64)) : Prop :=
  NoDup g.*1 ∧ Forall (λ kv, kv.2 ≠ [] ∧ Forall unit_value kv.2) g.

Lemma Forall_dict_set {V} (P : V → Prop) (k : Z) v d :
  Forall (λ kv, P kv.2) d → P v → Forall (λ kv : Z * V, P kv.2) (dict_set k v d).
Proof.
  intros Hd Hv. induction Hd as [|[k' w] d Hw Hd IH]; simpl; [by repeat constructor|].
  case_decide; constructor; auto.
Qed.

Lemma group_seeds_good us g :
  good_groups g → Forall (λ sv, unit_value sv.2) us → good_groups (foldl group_seed g us).
Proof.
  revert g. induction us as [|[s v] us IH]; intros g [Hnd Hg] Hus; [done|].
  apply Forall_cons in Hus as [Hv Hus]. cbn. apply IH; [|done].
  split; [by apply NoDup_dict_set|].
  apply (Forall_dict_set (λ l, l ≠ [] ∧ Forall unit_value l)); [done|].
  split; [by destruct (default _ _)|]. apply Forall_app. split; [|by repeat constructor].
  destruct (dict_get s g) as [l|] eqn:El; [|constructor]. simpl.
  apply dict_get_Some_elem in El. by eapply Forall_forall in Hg as [_ Hl]; [|exact El].
Qed.

Lemma group_seeds_keys us g k :
  k ∈ (foldl group_seed g us).*1 ↔ k ∈ g.*1 ∨ k ∈ us.*1.
Proof.
  revert g. induction us as [|[s v] us IH]; intros g; csimpl; [rewrite elem_of_nil; tauto|].
  rewrite IH, elem_of_keys_dict_set, elem_of_cons. tauto.
Qed.

(** A wire record is always usable, so the validator drops none. *)
Lemma served_usable e : served e →
  omap (λ r, if (rec_seed r <? 0) || negb (unit_interval (rec_composite r))
             then None else Some (rec_seed r, rec_composite r))
    (default [] (confirmation_history e)) =
  (λ r, (rec_seed r, rec_composite r)) <$> default [] (confirmation_history e).
Proof.
  intros He. pose proof (served_records e He) as Hr. induction Hr as [|r rs [Hs Hu] _ IH]; [done|].
  csimpl. apply Z.ltb_ge in Hs. rewrite Hs, Hu. simpl. by rewrite IH.
Qed.

Lemma history_mirrors e : served e → _confirmation_history e = _entry_confirmation_history e.
Proof.
  intros He. pose proof (served_usable e He) as Hu. revert Hu.
  unfold _confirmation_history, _entry_confirmation_history.
  destruct (confirmation_history e) as [[|r rs]|]; [done| |done]. simpl default.
  intros ->. reflexivity.
Qed.

Lemma history_facts e h : served e → _entry_confirmation_history e = Some h →
  has_history e ∧ h ≠ [] ∧ NoDup h.*1 ∧ Forall (λ s, 0 <= s) h.*1 ∧ Forall unit_value h.*2 ∧
  h.*1 = Koth.seed_window (seed_record <$> default [] (confirmation_history e)).
Proof.
  intros He. rewrite <- history_mirrors by done. pose proof (served_records e He) as Hr. revert Hr.
  unfold _confirmation_history, has_history.
  destruct (confirmation_history e) as [[|r rs]|]; [done| |done]. simpl default.
  generalize (r :: rs). clear r rs. intros recs Hr.
  set (us := (λ r, (rec_seed r, rec_composite r)) <$> recs).
  assert (us.*1 = rec_seed <$> recs) as Hus by (unfold us; rewrite <- list_fmap_compose; done).
  assert (good_groups (foldl group_seed [] us)) as [Hnd Hg].
  { apply group_seeds_good; [split; constructor|]. apply Forall_fmap.
    eapply Forall_impl; [exact Hr|]. by intros x [_ ?]. }
  pose proof (group_seeds_keys us []) as Hk.
  destruct (foldl group_seed [] us) as [|g0 gs] eqn:Eg; [done|]. intros Hh.
  set (sorted := py_sorted seed_cmp (prod_map id Koth._median <$> g0 :: gs)).
  assert (h = take (Z.to_nat Koth.CONFIRMATION_SEED_CEILING) sorted) as ->.
  { injection Hh as <-. reflexivity. }
  assert (sorted.*1 = py_sorted Z.compare (g0 :: gs).*1) as Hs.
  { unfold sorted. rewrite <- (py_sorted_fmap fst Z.compare seed_cmp) by done.
    by rewrite <- list_fmap_compose. }
  assert (length sorted = S (length gs)) as Hlen.
  { unfold sorted. by rewrite length_py_sorted, length_fmap. }
  split_and!; [done |..].
  - intros E. apply (f_equal length) in E. rewrite length_take, Hlen in E.
    unfold Koth.CONFIRMATION_SEED_CEILING in E. simpl length in E. lia.
  - rewrite fmap_take, Hs. eapply sublist_NoDup; [|apply sublist_take].
    by rewrite (py_sorted_perm Z.compare).
  - rewrite fmap_take, Hs. apply Forall_take, Forall_forall. intros s Hin.
    apply elem_of_py_sorted, Hk in Hin as [Hin|Hin]; [by apply elem_of_nil in Hin|].
    rewrite Hus in Hin. apply list_elem_of_fmap in Hin as (x & -> & Hx).
    eapply Forall_forall in Hr as [? _]; [|exact Hx]. done.
  - rewrite fmap_take. apply Forall_take, Forall_fmap, Forall_forall. intros [k v] Hin.
    apply elem_of_py_sorted, list_elem_of_fmap in Hin as ([k' l] & [= -> ->] & Hin).
    eapply Forall_forall in Hg as [? ?]; [|exact Hin]. by apply unit_median.
  - unfold Koth.seed_window. rewrite fmap_take, Hs. f_equal.
    apply (py_sorted_perm_eq Z.compare); [|intros x y _ _; apply Z.compare_eq].
    apply NoDup_Permutation; [done | apply NoDup_remove_dups|]. intros k.
    rewrite Hk, Hus, elem_of_remove_dups, <- list_fmap_compose, elem_of_nil. tauto.
Qed.

(** * Readings of a lifted row

    A reading of the lifted row is the validator's reading of the served one. *)

#[local] Arguments Nat.ltb : simpl never.
#[local] Arguments Nat.leb : simpl never.

Section readings.
Context (n : Z) (e : LedgerEntry) (He : served e).

Lemma lift_version : Koth.bench_version (koth_entry n e) = _entry_version e.
Proof using He.
  simpl. unfold _entry_version. destruct (bench_version e) as [v|] eqn:Ev; [|done].
  pose proof (served_version e He v Ev). destruct (Z.eqb_spec v 0), (Z.ltb_spec 0 v); lia || done.
Qed.

Lemma lift_dueling : Koth._is_dueling_entry (koth_entry n e) = _is_dueling_entry e.
Proof using He. unfold Koth._is_dueling_entry, _is_dueling_entry. by rewrite lift_version. Qed.

Lemma lift_season : Koth._entry_season (koth_entry n e) = _entry_season e.
Proof. reflexivity. Qed.

Lemma lift_ready : Koth.dueling_fold_ready (koth_entry n e) = _dueling_fold_ready e.
Proof using He. unfold Koth.dueling_fold_ready, _dueling_fold_ready. by rewrite lift_dueling. Qed.

Lemma lift_curve : Koth._efficiency_curve_version (koth_entry n e) = _efficiency_curve_version e.
Proof using He.
  unfold Koth._efficiency_curve_version, _efficiency_curve_version. simpl.
  destruct (efficiency_curve_version e) as [v|] eqn:Ev; [|done].
  by destruct (served_curve e He v Ev) as [-> | ->].
Qed.

Lemma lift_factor : Koth._bounded_efficiency_factor (koth_entry n e) = _bounded_efficiency_factor e.
Proof using He.
  unfold Koth._bounded_efficiency_factor, _bounded_efficiency_factor.
  rewrite lift_version, lift_curve. simpl Koth.efficiency_factor.
  destruct (efficiency_factor e) as [f|] eqn:Ef; [|done].
  destruct (_entry_version e <? 9); [done|].
  destruct (Z.eqb_spec (_entry_version e) 9) as [E|]; [|done].
  destruct (served_factor e He E) as [-> | ?]; [done | congruence].
Qed.

Lemma lift_multiplier : Koth._efficiency_multiplier (koth_entry n e) = _efficiency_multiplier e.
Proof using He.
  unfold Koth._efficiency_multiplier, _efficiency_multiplier. by rewrite lift_factor.
Qed.

Lemma lift_adjusted q :
  Koth._efficiency_adjusted_composite (koth_entry n e) q = _efficiency_adjusted_composite e q.
Proof using He.
  unfold Koth._efficiency_adjusted_composite, _efficiency_adjusted_composite,
    Koth.bounded_efficiency_adjusted_quality. by rewrite lift_factor, lift_multiplier, lift_curve.
Qed.

Lemma lift_ceiling : Koth._effective_score_ceiling (koth_entry n e) = _effective_score_ceiling e.
Proof using He.
  unfold Koth._effective_score_ceiling, _effective_score_ceiling. by rewrite lift_factor, lift_multiplier.
Qed.

Lemma lift_scale : Koth._efficiency_stderr_scale (koth_entry n e) = _efficiency_stderr_scale e.
Proof using He.
  unfold Koth._efficiency_stderr_scale, _efficiency_stderr_scale.
  by rewrite lift_factor, lift_multiplier, lift_curve.
Qed.

Lemma lift_stderr : Koth._stderr (koth_entry n e) = _entry_stderr e.
Proof. reflexivity. Qed.

(** ** The continual aggregate *)

Lemma receipt_evidence : has_receipt e = true →
  _entry_confirmation_history e = None ∧ paired_evidence e = None ∧ _entry_confirmations e = None.
Proof using He.
  intros Hr. destruct (served_receipt e He Hr) as (_ & Hh & Hc & _).
  unfold paired_evidence, _confirmation_history, _entry_confirmation_history, _entry_confirmations.
  by rewrite Hh, Hc.
Qed.

Lemma no_history : _entry_confirmation_history e = None → ¬ has_history e.
Proof using He.
  rewrite <- history_mirrors by done. unfold _confirmation_history, has_history.
  destruct (confirmation_history e) as [[|r rs]|]; [by intros _ []| |by intros _ []].
  destruct (foldl group_seed [] _) as [|g gs] eqn:E; [|done]. intros _ _.
  assert (rec_seed r ∈ (foldl group_seed [] ((λ r, (rec_seed r, rec_composite r)) <$> r :: rs)).*1)
    as Hin by (apply group_seeds_keys; right; csimpl; left).
  rewrite E in Hin. by apply elem_of_nil in Hin.
Qed.

(** The evidence of a row without a history: the aligned in-row bundle. *)
Lemma bundle_evidence : _entry_confirmation_history e = None →
  Koth._confirmations (koth_entry n e) = _entry_confirmations e.
Proof using He.
  intros Hh. unfold Koth._confirmations, Koth._validated_composites, _entry_confirmations. simpl.
  unfold paired_evidence. rewrite history_mirrors, Hh by done.
  destruct (confirmation_composites e) as [v|] eqn:Ev; [|done].
  destruct (served_bundle e He (no_history Hh) v Ev) as (_ & s & -> & Hl).
  rewrite Hl, Nat.eqb_refl. simpl andb.
  destruct (Nat.leb_spec 2 (length v)), (Nat.ltb_spec (length v) 2); simpl; try lia; [|done].
  destruct (Nat.ltb_spec (length v) 2); [lia | done].
Qed.

Lemma forallb_unit vs : Forall unit_value vs → forallb unit_interval vs = true.
Proof. induction 1 as [|v vs Hv _ IH]; [done|]. simpl. rewrite Hv. exact IH. Qed.

Lemma history_evidence h : _entry_confirmation_history e = Some h →
  Koth._confirmations (koth_entry n e) = if (length h <? 2)%nat then None else Some h.*2.
Proof using He.
  intros Hh. unfold Koth._confirmations, Koth._validated_composites. simpl.
  unfold paired_evidence. rewrite history_mirrors, Hh by done.
  destruct (history_facts e h He Hh) as (_ & _ & _ & _ & Hu & _).
  rewrite !length_fmap, Nat.eqb_refl. simpl andb.
  destruct (Nat.leb_spec 2 (length h)), (Nat.ltb_spec (length h) 2); simpl; try lia; [|done].
  rewrite length_fmap. destruct (Nat.ltb_spec (length h) 2); [lia|]. by rewrite forallb_unit.
Qed.

Lemma median_sorted vs : median (py_sorted fcompare vs) = median vs.
Proof.
  unfold median. rewrite (py_sorted_perm_eq fcompare (py_sorted fcompare vs) vs); [done| |].
  - apply py_sorted_perm.
  - intros x y _ _. apply fcompare_Eq_any.
Qed.

Lemma lift_continual : Koth.continual_composite (koth_entry n e) = _quality_composite e.
Proof using He.
  unfold _quality_composite, Koth.continual_composite.
  destruct (v9_confirmation e) as [m|] eqn:Ev.
  - assert (has_receipt e = true) as Hr by (unfold has_receipt; by rewrite Ev).
    destruct (receipt_evidence Hr) as (_ & Hp & _).
    destruct (served_receipt e He Hr) as (-> & _).
    unfold Koth._confirmations, Koth._validated_composites. simpl. rewrite Hr, Hp, Ev. reflexivity.
  - assert (has_receipt e = false) as Hr by (unfold has_receipt; by rewrite Ev).
    unfold _continual_composite.
    assert (Koth.composite (koth_entry n e) = composite e) as -> by (simpl; by rewrite Ev).
    destruct (_entry_confirmation_history e) as [h|] eqn:Hh.
    + destruct (history_facts e h He Hh) as (Hhas & Hne & _ & _ & Hu & _).
      rewrite (history_evidence h Hh), length_py_sorted, length_fmap.
      unfold Koth._validated_composites. simpl. rewrite Hr, history_mirrors, Hh by done.
      rewrite (served_method e He Hhas), (forallb_unit _ Hu).
      assert ((length h.*2 <? 1)%nat = false) as ->.
      { rewrite length_fmap. destruct h; [done|]. done. }
      assert ((if (length h <? 2)%nat then composite e else _median (py_sorted fcompare h.*2)) =
        match (if (length h <? 2)%nat then None else Some h.*2) with
        | Some values => Koth._median values | None => composite e end) as ->.
      { destruct (length h <? 2)%nat; [done|]. apply median_sorted. }
      simpl andb. destruct (Nat.ltb_spec (length (score_proofs e)) 3),
        (Nat.eqb_spec (length (score_proofs e)) 3); try lia; simpl andb; cbn match; try done;
        (destruct (forallb unit_interval (score_proofs e)); [|done]);
        destruct (Nat.eqb_spec (length (score_proofs e)) 3); done || lia.
    + rewrite (bundle_evidence Hh). unfold Koth._validated_composites. simpl.
      rewrite Hr, history_mirrors, Hh by done.
      assert (_entry_confirmations e = None ∨ ∃ v, _entry_confirmations e = Some v ∧
        (length v <? 2)%nat = false) as Hc.
      { unfold _entry_confirmations. destruct (confirmation_composites e) as [v|]; [|auto].
        destruct (length v <? 2)%nat eqn:El; [auto|]. destruct (forallb _ v); eauto. }
      assert ((length (score_proofs e) =? 3)%nat = false ∨ confirmation_composites e = None) as H3.
      { destruct (confirmation_composites e) as [v|] eqn:Ec; [|auto]. left.
        destruct (served_bundle e He (no_history Hh) v Ec) as [? _]. by apply Nat.eqb_neq. }
      assert (∀ k : F64, match (if (length (score_proofs e) <? 3)%nat then None else
          if forallb unit_interval (score_proofs e) then Some (score_proofs e) else None),
        (if (length (default [] (confirmation_composites e)) <? 1)%nat then None else
          if forallb unit_interval (default [] (confirmation_composites e))
          then Some (default [] (confirmation_composites e)) else None) with
        | Some quorum, Some waves => if (length quorum =? 3)%nat
            then fdiv (fsum (quorum ++ waves)) (of_int (Z.of_nat (length (quorum ++ waves)))) else k
        | _, _ => k end = k) as Hk.
      { intros k. destruct H3 as [H3 | ->]; [|by repeat case_match].
        repeat case_match; congruence. }
      rewrite Hk. destruct Hc as [-> | (v & -> & ->)]; done.
Qed.

Lemma lift_effective : Koth.effective_composite (koth_entry n e) = _effective_composite e.
Proof using He.
  unfold Koth.effective_composite, _effective_composite. by rewrite lift_adjusted, lift_continual.
Qed.

Lemma lift_dethrone qp : Koth._dethrone_composite (koth_entry n e) qp = _dethrone_composite e qp.
Proof using He.
  unfold Koth._dethrone_composite, _dethrone_composite. by rewrite lift_continual, lift_effective.
Qed.
End readings.

(** ** Comparable rows *)

Lemma lift_active (f : LedgerEntry → Koth.KothEntry) l :
  Forall served l → (∀ e, e ∈ l → ∃ n, f e = koth_entry n e) →
  Koth._quality_primary_efficiency_active (f <$> l) = _quality_primary_efficiency_active l.
Proof.
  intros Hl Hf. apply existsb_fmap. intros e He. destruct (Hf e He) as [n ->].
  rewrite lift_factor; [done|]. by eapply Forall_forall in Hl.
Qed.

Section pair.
Context (na nb : Z) (a b : LedgerEntry) (Ha : served a) (Hb : served b).

Lemma lift_active2 :
  Koth._quality_primary_efficiency_active [koth_entry na a; koth_entry nb b] =
  _quality_primary_efficiency_active [a; b].
Proof using Ha Hb.
  unfold Koth._quality_primary_efficiency_active, _quality_primary_efficiency_active.
  cbn [existsb]. by rewrite !lift_factor.
Qed.

Lemma lift_incomparable :
  Koth._dueling_incomparable (koth_entry na a) (koth_entry nb b) = _dueling_incomparable a b.
Proof using Ha Hb.
  unfold Koth._dueling_incomparable, _dueling_incomparable.
  rewrite !lift_dueling, !lift_version, !lift_season by done.
  destruct (negb _); [done|]. by destruct (_entry_season a).
Qed.

Lemma lift_mask :
  Koth._dueling_pair_mask (koth_entry na a) (koth_entry nb b) = _dueling_pair_mask a b.
Proof using Ha Hb.
  unfold Koth._dueling_pair_mask, _dueling_pair_mask.
  rewrite !lift_dueling, lift_incomparable by done. reflexivity.
Qed.
End pair.

(** ** Per-seed maps *)

Lemma NoDup_zip_seeds seeds comps out m :
  zip_seeds seeds comps out = Some m → NoDup out.*1 → NoDup m.*1.
Proof.
  revert comps out. induction seeds as [|s seeds IH]; intros [|c comps] out; simpl;
    try (by intros [= <-]).
  destruct (s <? 0); [done|]. case_bool_decide as Hs; [done|]. intros Hz Hnd.
  apply (IH _ _ Hz). rewrite fmap_app, NoDup_app. split; [done|]. split; [|apply NoDup_singleton].
  intros x Hx Hx'. apply list_elem_of_singleton in Hx'. by subst.
Qed.

Lemma zip_seeds_NoDup (h out : list (Z * F64)) :
  NoDup (out ++ h).*1 → Forall (λ s, 0 <= s) h.*1 → zip_seeds h.*1 h.*2 out = Some (out ++ h).
Proof.
  revert out. induction h as [|[s c] h IH]; intros out Hnd Hs; csimpl; [by rewrite app_nil_r|].
  csimpl in Hs. apply Forall_cons in Hs as [Hs Hh].
  rewrite (proj2 (Z.ltb_ge s 0)) by done. simpl orb.
  rewrite bool_decide_false.
  - rewrite IH; rewrite <- ?app_assoc; done.
  - rewrite fmap_app in Hnd. apply NoDup_app in Hnd as (_ & Hd & _). intros Hin.
    apply (Hd s Hin). csimpl. left.
Qed.

(** The lifted map is the validator's, but for a single-seed history, which the
    lift does not pair. *)
Definition same_map (lifted own : option (list (Z * F64))) : Prop :=
  lifted = own ∨ (lifted = None ∧ ∃ kv, own = Some [kv]).

Section maps.
Context (n : Z) (e : LedgerEntry) (He : served e).

Lemma lift_seeds : same_map (Koth._seed_composites (koth_entry n e)) (_entry_seed_composites e None).
Proof using He.
  unfold Koth._seed_composites, _entry_seed_composites.
  destruct (has_receipt e) eqn:Hr.
  { left. destruct (receipt_evidence e He Hr) as (Hh & _ & Hc).
    rewrite (bundle_evidence n e He Hh), Hc. by rewrite (proj1 (served_receipt e He Hr)). }
  rewrite andb_false_r.
  destruct (_entry_confirmation_history e) as [h|] eqn:Hh.
  - rewrite (history_evidence n e He h Hh). simpl Koth.confirmation_seeds.
    unfold paired_evidence. rewrite history_mirrors, Hh by done.
    destruct (history_facts e h He Hh) as (_ & Hne & Hnd & Hs & _).
    rewrite !length_fmap, Nat.eqb_refl. simpl andb.
    destruct (Nat.ltb_spec (length h) 2), (Nat.leb_spec 2 (length h)); try lia.
    + right. split; [done|]. destruct h as [|kv [|]]; simpl in *; [done | by exists kv | lia].
    + left. simpl. rewrite !length_fmap, Nat.eqb_refl. simpl negb. cbn match.
      by rewrite zip_seeds_NoDup.
  - left. rewrite (bundle_evidence n e He Hh). unfold _entry_confirmations.
    simpl Koth.confirmation_seeds. unfold paired_evidence. rewrite history_mirrors, Hh by done.
    destruct (confirmation_composites e) as [v|] eqn:Ev; [|done].
    destruct (served_bundle e He (no_history e He Hh) v Ev) as (_ & s & -> & Hl).
    destruct (Nat.ltb_spec (length v) 2); [done|].
    destruct (forallb unit_interval v); [|done].
    rewrite Hl, Nat.eqb_refl. simpl andb.
    destruct (Nat.leb_spec 2 (length v)); [|lia]. simpl. by rewrite Hl, Nat.eqb_refl.
Qed.

Lemma seed_map_NoDup m : _entry_seed_composites e None = Some m → NoDup m.*1.
Proof using He.
  unfold _entry_seed_composites. destruct (_ && _); [done|].
  destruct (_entry_confirmation_history e) as [h|] eqn:Hh.
  - intros [= <-]. by destruct (history_facts e h He Hh) as (_ & _ & ? & _).
  - destruct (_entry_confirmations e), (confirmation_seeds e); try done.
    case_match; [done|]. intros Hz. eapply NoDup_zip_seeds; [exact Hz | constructor].
Qed.

Lemma lift_masked_record r mask :
  Koth._record_masked_composite (koth_entry n e) (seed_record r) mask =
  _record_masked_composite e r mask.
Proof using He.
  unfold Koth._record_masked_composite, _record_masked_composite. rewrite lift_version by done.
  reflexivity.
Qed.

Lemma omap_fmap {A B C} (f : A → B) (g : B → option C) (l : list A) :
  omap g (f <$> l) = omap (λ x, g (f x)) l.
Proof. induction l as [|x l IH]; [done|]. csimpl. destruct (g (f x)); by rewrite IH. Qed.

Lemma lift_masked_seeds mask :
  Koth._dueling_seed_composites (koth_entry n e) mask = _entry_seed_composites e (Some mask).
Proof using He.
  unfold Koth._dueling_seed_composites, _entry_seed_composites. simpl Koth.dueling_records.
  unfold lifted_records. destruct (has_receipt e) eqn:Hr.
  { by rewrite (proj1 (served_receipt e He Hr)). }
  rewrite andb_false_r. unfold _dueling_seed_composites.
  destruct (_entry_confirmation_history e) as [h|] eqn:Hh.
  - destruct (history_facts e h He Hh) as (Hhas & _ & _ & _ & _ & Hw). revert Hw Hhas.
    unfold has_history. destruct (confirmation_history e) as [[|r rs]|]; [done| |done].
    simpl default. intros Hw _. change (seed_record <$> r :: rs) with
      (seed_record r :: (seed_record <$> rs)). cbn match.
    change (seed_record r :: (seed_record <$> rs)) with (seed_record <$> r :: rs).
    rewrite omap_fmap, Hw.
    assert (∀ l : list ConfirmationScoreRecord, omap (λ x, if bool_decide (Koth.seed (seed_record x) ∈
          Koth.seed_window (seed_record <$> r :: rs))
        then (λ v, (Koth.seed (seed_record x), v)) <$>
          Koth._record_masked_composite (koth_entry n e) (seed_record x) mask else None) l =
      omap (λ x, if bool_decide (rec_seed x ∈ Koth.seed_window (seed_record <$> r :: rs))
        then (λ v, (rec_seed x, v)) <$> _record_masked_composite e x mask else None) l) as Ho.
    { intros l. apply omap_ext_all. intros x _. by rewrite lift_masked_record. }
    by rewrite Ho.
  - pose proof (no_history e He Hh) as Hno. revert Hno. unfold has_history.
    destruct (confirmation_history e) as [[|r rs]|]; [done | by intros [] | done].
Qed.
End maps.

Lemma shared_seeds_short ma mb :
  NoDup ma.*1 → (∃ kv, ma = [kv]) ∨ (∃ kv, mb = [kv]) → (length (shared_seeds ma mb) <= 1)%nat.
Proof.
  intros Hnd Hs. unfold shared_seeds. rewrite length_py_sorted.
  destruct Hs as [[kv ->]|[kv ->]].
  - etrans; [apply length_filter|]. done.
  - apply (submseteq_length _ [kv.1]), NoDup_submseteq; [by apply NoDup_filter|].
    intros x [Hx _]%list_elem_of_filter. exact Hx.
Qed.

(** The lifted pair of maps is the validator's, or shares at most one seed. *)
Definition same_maps (lifted own : option (list (Z * F64) * list (Z * F64))) : Prop :=
  lifted = own ∨
  (lifted = None ∧ ∃ ma mb, own = Some (ma, mb) ∧ (length (shared_seeds ma mb) <= 1)%nat).

Section paired.
Context {L : Libm}.
Context (na nb : Z) (a b : LedgerEntry) (Ha : served a) (Hb : served b).
Abbreviation ka := (koth_entry na a).
Abbreviation kb := (koth_entry nb b).

Lemma lift_paired_maps : same_maps (Koth._paired_seed_maps ka kb) (_paired_seed_maps a b).
Proof using Ha Hb.
  unfold Koth._paired_seed_maps, _paired_seed_maps. rewrite !lift_dueling by done.
  destruct (_is_dueling_entry a && _is_dueling_entry b); simpl andb; cbn match.
  - left. rewrite lift_mask by done. destruct (_dueling_pair_mask a b) as [mask|]; [|done].
    rewrite !lift_masked_seeds by done. case_bool_decide; [done|].
    by destruct (_entry_seed_composites a (Some mask)), (_entry_seed_composites b (Some mask)).
  - destruct (lift_seeds na a Ha) as [Ea | (Ea & kv & Ea')]; rewrite Ea;
      destruct (lift_seeds nb b Hb) as [Eb | (Eb & kw & Eb')]; rewrite ?Eb.
    + left. by destruct (_entry_seed_composites a None), (_entry_seed_composites b None).
    + rewrite Eb'. destruct (_entry_seed_composites a None) as [ma|] eqn:Em; [right | by left].
      split; [done|]. exists ma, [kw]. split; [done|].
      apply shared_seeds_short; [exact (seed_map_NoDup a Ha ma Em) | right; by exists kw].
    + rewrite Ea'. destruct (_entry_seed_composites b None) as [mb|]; [right | by left].
      split; [done|]. exists [kv], mb. split; [done|].
      apply shared_seeds_short; [apply NoDup_singleton | left; by exists kv].
    + rewrite Ea', Eb'. right. split; [done|]. exists [kv], [kw]. split; [done|].
      apply shared_seeds_short; [apply NoDup_singleton | left; by exists kv].
Qed.

Lemma lift_shared_count m : 2 <= m →
  (m <=? Koth.shared_seed_count ka kb) = (m <=? _shared_seed_count a b).
Proof using Ha Hb.
  intros Hm. unfold Koth.shared_seed_count, _shared_seed_count.
  destruct lift_paired_maps as [-> | (-> & ma & mb & -> & Hl)]; [done|].
  destruct (Z.leb_spec m 0), (Z.leb_spec m (Z.of_nat (length (shared_seeds ma mb)))); done || lia.
Qed.

Lemma lift_seed_score n e qp q : served e →
  Koth.seed_score qp (koth_entry n e) q = seed_score qp e q.
Proof. intros. unfold Koth.seed_score, seed_score. by rewrite lift_adjusted. Qed.

Definition statistic_view (st : Koth.PairedStatistic) : F64 * F64 * F64 :=
  (Koth.paired_mean_difference st, Koth.paired_champion_reference st, Koth.paired_error st).

Lemma lift_paired_statistic :
  statistic_view <$> Koth._paired_statistic ka kb = _paired_statistic a b.
Proof using Ha Hb.
  unfold Koth._paired_statistic, _paired_statistic.
  destruct lift_paired_maps as [-> | (-> & ma & mb & -> & Hl)].
  - destruct (_paired_seed_maps a b) as [[ma mb]|]; [|done].
    destruct (length (shared_seeds ma mb) <? 2)%nat; [done|].
    rewrite lift_active2 by done. generalize (_quality_primary_efficiency_active [a; b]).
    intros qp. cbv zeta.
    assert ((λ s, Koth.seed_score qp kb (seed_value mb s)) <$> shared_seeds ma mb =
            (λ s, seed_score qp b (seed_value mb s)) <$> shared_seeds ma mb) as ->
      by (apply list_fmap_ext; intros _ s _; by apply lift_seed_score).
    assert ((λ s, fsub (Koth.seed_score qp ka (seed_value ma s))
                       (Koth.seed_score qp kb (seed_value mb s))) <$> shared_seeds ma mb =
            (λ s, fsub (seed_score qp a (seed_value ma s)) (seed_score qp b (seed_value mb s)))
              <$> shared_seeds ma mb) as ->
      by (apply list_fmap_ext; intros _ s _; by rewrite !lift_seed_score).
    rewrite !length_fmap. reflexivity.
  - destruct (Nat.ltb_spec (length (shared_seeds ma mb)) 2); [done | lia].
Qed.

(** ** Bands and comparisons *)

Lemma lift_band_scale x : Koth._dethrone_band_scale ka kb x = _dethrone_band_scale a b x.
Proof using Ha Hb.
  unfold Koth._dethrone_band_scale, _dethrone_band_scale, comparison_version.
  by rewrite !lift_version.
Qed.

Lemma lift_capped band x act :
  Koth._ceiling_capped_band band ka kb x act = _ceiling_capped_band band a b x act.
Proof using Ha Hb.
  unfold Koth._ceiling_capped_band, _ceiling_capped_band, comparison_version.
  by rewrite !lift_version, lift_active2, lift_ceiling.
Qed.

Lemma lift_duel_value n e own mask r : served e →
  Koth.duel_record_value (koth_entry n e) own mask (seed_record r) = duel_record_value e own mask r.
Proof.
  intros. unfold Koth.duel_record_value, duel_record_value. by rewrite lift_version.
Qed.

Lemma lift_duel_records n e mask : served e →
  Koth._entry_duel_records (koth_entry n e) mask = _entry_duel_records e mask.
Proof.
  intros He. unfold Koth._entry_duel_records, _entry_duel_records, _entry_dueling.
  simpl Koth.duel_records. simpl Koth.dueling. unfold lifted_records.
  destruct (has_receipt e) eqn:Hr.
  { destruct (served_receipt e He Hr) as (_ & _ & _ & ->). done. }
  destruct (duel_history e) as [[|r rs]|]; [done| |done].
  change (seed_record <$> r :: rs) with (seed_record r :: (seed_record <$> rs)). cbn match.
  change (seed_record r :: (seed_record <$> rs)) with (seed_record <$> r :: rs).
  destruct (dueling e) as [own|]; [|done]. rewrite omap_fmap.
  by rewrite (omap_ext_all _ (duel_record_value e own mask))
    by (intros x _; by apply lift_duel_value).
Qed.

Lemma lift_scored n e qp rs : served e →
  Koth.scored_records qp (koth_entry n e) rs = scored_records qp e rs.
Proof.
  intros. unfold Koth.scored_records, scored_records. destruct qp; [done|].
  apply list_fmap_ext. intros _ kv _. by rewrite lift_adjusted.
Qed.

Lemma lift_duel_statistic w : Koth.duel_statistic_for ka kb w = _duel_statistic a b w.
Proof using Ha Hb.
  unfold Koth.duel_statistic_for, _duel_statistic. rewrite lift_mask by done.
  destruct (_dueling_pair_mask a b) as [mask|]; [|done].
  rewrite !lift_duel_records, lift_active2 by done.
  destruct (_entry_duel_records a mask), (_entry_duel_records b mask); [|done..].
  by rewrite !lift_scored.
Qed.

(** ** The dethrone decision

    The platform compiles the margin and the quantile in, and squares the
    standard errors with [x ** 2] where the validator multiplies: [squares_round]
    says that C's [pow] rounds these squares as the product does. *)
Definition frozen (p : FoldParams) : Prop :=
  margin p = Koth.KOTH_MARGIN ∧ dethrone_z p = Koth.KOTH_DETHRONE_Z.

Definition squares_round (e : LedgerEntry) : Prop :=
  match _entry_stderr e with
  | None => True
  | Some s => libm_sq s = fmul s s ∧
      let t := fmul s (_efficiency_stderr_scale e) in libm_sq t = fmul t t
  end.

Definition lift_gate (g : CrownGate) : Koth.CrownGate := {|
  Koth.min_shared_seeds := min_shared_seeds g; Koth.standing_rank := standing_rank g;
  Koth.duel_window := duel_window g |}.

(** The bounds of [CrownGateMarker]. *)
Definition served_gate (gate : option CrownGate) : Prop :=
  match gate with None => True | Some g => 2 <= min_shared_seeds g end.

Context (p : FoldParams) (Hp : frozen p).
Context (Hsa : squares_round a) (Hsb : squares_round b).

Lemma paired_dethrone_frozen :
  _paired_dethrone a b (dethrone_z p) = statistic_view <$> Koth._paired_statistic ka kb.
Proof using Ha Hb Hp.
  unfold _paired_dethrone. destruct Hp as [_ ->].
  assert (fleb Koth.KOTH_DETHRONE_Z zero = false) as -> by (vm_compute; reflexivity).
  by rewrite lift_paired_statistic.
Qed.

(** The unpaired band, as the platform's decision computes it. *)
Definition unpaired_lead (qp : bool) : option F64 * Koth.method :=
  match Koth._stderr ka, Koth._stderr kb with
  | Some se_c, Some se_champ =>
      let '(se_c, se_champ) :=
        if negb qp
        then (fmul se_c (Koth._efficiency_stderr_scale ka),
              fmul se_champ (Koth._efficiency_stderr_scale kb))
        else (se_c, se_champ) in
      (Some (fmul Koth.KOTH_DETHRONE_Z (fsqrt (fadd (libm_sq se_c) (libm_sq se_champ)))),
       Koth.unpaired)
  | _, _ => (None, Koth.flat)
  end.

Lemma lift_unpaired :
  (unpaired_lead (_quality_primary_efficiency_active [a; b])).1 =
  _unpaired_statistical_band a b (dethrone_z p).
Proof using Ha Hb Hp Hsa Hsb.
  unfold unpaired_lead, _unpaired_statistical_band. destruct Hp as [_ ->].
  assert (fleb Koth.KOTH_DETHRONE_Z zero = false) as -> by (vm_compute; reflexivity).
  rewrite !lift_stderr, !lift_scale by done. unfold squares_round in Hsa, Hsb.
  destruct (_entry_stderr a) as [sa|]; [|done]. destruct (_entry_stderr b) as [sb|]; [|done].
  destruct Hsa as [Ha1 Ha2], Hsb as [Hb1 Hb2].
  destruct (negb _); cbn [fst]; [by rewrite Ha2, Hb2 | by rewrite Ha1, Hb1].
Qed.

Lemma unpaired_not_paired qp : Koth.is_paired (unpaired_lead qp).2 = false.
Proof. unfold unpaired_lead. by repeat case_match. Qed.

Definition attainable : F64 :=
  if _quality_primary_efficiency_active [a; b] then one else _effective_score_ceiling a.

Lemma lift_ungated :
  let d := Koth._ungated_dethrone_decision ka kb (ceiling_band_clamp p) (statistical_band_cap p) in
  let '(observed, required) := _dethrone_scores p a b in
  Koth.dethrones d = fgtb observed required ∧
  Koth.ceiling_deadlocked d = negb (fgtb observed required) && fgeb required attainable ∧
  Koth.is_paired (Koth.decision_method d) =
    bool_decide (is_Some (_paired_dethrone a b (dethrone_z p))).
Proof using Ha Hb Hp Hsa Hsb.
  unfold _dethrone_scores, Koth._ungated_dethrone_decision, attainable.
  rewrite paired_dethrone_frozen, lift_active2, lift_ceiling by done.
  pose proof Hp as [Hm Hz]. rewrite Hm.
  destruct (Koth._paired_statistic ka kb) as [st|]; cbn [fmap option_fmap option_map statistic_view].
  - rewrite !lift_capped, lift_band_scale, Hz. cbv zeta. split_and!; reflexivity.
  - fold (unpaired_lead (_quality_primary_efficiency_active [a; b])).
    pose proof lift_unpaired as Hu.
    pose proof (unpaired_not_paired (_quality_primary_efficiency_active [a; b])) as Hn.
    destruct (unpaired_lead _) as [st how]. simpl in Hu, Hn. subst st. cbv zeta.
    rewrite !lift_capped, !lift_band_scale, !lift_dethrone by done.
    split_and!; [reflexivity..|]. exact Hn.
Qed.

Lemma lift_duel_decision g w (u : Koth.DethroneDecision) :
  Koth.dethrones (Koth._duel_decision ka kb (lift_gate g) w (ceiling_band_clamp p) u) =
  _duel_beats p g w a b.
Proof using Ha Hb Hp.
  unfold Koth._duel_decision, _duel_beats. rewrite lift_duel_statistic.
  destruct (_duel_statistic a b w) as [st|]; [|done]. pose proof Hp as [-> _]. cbv zeta.
  rewrite lift_band_scale. simpl Koth.min_shared_seeds. cbn [Koth.dethrones].
  rewrite Z.ltb_antisym. destruct (min_shared_seeds g <=? count st); [|done].
  destruct (duel_required_lead st _) as [lead|]; [|done]. cbn. by rewrite lift_capped.
Qed.

Lemma qualified_verdict {A} (o : option A) `{Decision (o = None)} (wins shallow : bool) :
  wins && (bool_decide (is_Some o) && negb shallow) =
  if shallow || bool_decide (o = None) then false else wins.
Proof.
  destruct o; repeat case_bool_decide; destruct wins, shallow; try done; exfalso; eauto.
Qed.

Lemma lift_decision gate : served_gate gate →
  Koth.dethrones (Koth._dethrone_decision ka kb (ceiling_band_clamp p) (statistical_band_cap p)
    (lift_gate <$> gate)) = _beats p gate a b.
Proof using Ha Hb Hp Hsa Hsb.
  intros Hg. unfold Koth._dethrone_decision, _beats. rewrite lift_incomparable by done.
  pose proof lift_ungated as Hu. cbv zeta in Hu. destruct (_dethrone_scores p a b) as [o r].
  destruct Hu as (Hd & _ & Hm). set (u := Koth._ungated_dethrone_decision _ _ _ _) in *.
  destruct gate as [g|]; [|by destruct (_dueling_incomparable a b)].
  change (lift_gate <$> Some g) with (Some (lift_gate g)). cbn match.
  assert (Koth._duel_governs ka kb (Some (lift_gate g)) = _duel_governs a b (Some g)) as ->.
  { unfold Koth._duel_governs, _duel_governs. by rewrite !lift_dueling. }
  simpl Koth.duel_window. simpl Koth.min_shared_seeds. cbv zeta.
  assert (∀ d, Koth.dethrones (Koth.with_gate d (Koth.dethrones d && (Koth.is_paired
      (Koth.decision_method d) && (min_shared_seeds g <=? Koth.shared_seed_count ka kb)))
      (min_shared_seeds g) (Koth.dethrones d && negb (Koth.is_paired (Koth.decision_method d) &&
      (min_shared_seeds g <=? Koth.shared_seed_count ka kb))) (Koth.decision_seed_count d)) =
    Koth.dethrones d && (Koth.is_paired (Koth.decision_method d) &&
      (min_shared_seeds g <=? _shared_seed_count a b))) as Hw.
  { intros d. cbn. by rewrite lift_shared_count. }
  destruct (duel_window g) as [w|], (_duel_governs a b (Some g));
    destruct (_dueling_incomparable a b); rewrite ?Hw, ?lift_duel_decision; try done;
    rewrite Hd, Hm, Z.leb_antisym; apply qualified_verdict.
Qed.

Lemma lift_evidence g : 2 <= min_shared_seeds g →
  (min_shared_seeds g <=? Koth.crown_evidence_count ka kb (lift_gate g)) =
  (min_shared_seeds g <=? _crown_evidence_count g a b).
Proof using Ha Hb.
  intros Hg. unfold Koth.crown_evidence_count, _crown_evidence_count.
  assert (Koth._duel_governs ka kb (Some (lift_gate g)) = _duel_governs a b (Some g)) as ->.
  { unfold Koth._duel_governs, _duel_governs. by rewrite !lift_dueling. }
  simpl Koth.duel_window.
  destruct (duel_window g); [destruct (_duel_governs a b (Some g))|];
    [by rewrite lift_duel_statistic | by apply lift_shared_count..].
Qed.

Lemma lift_tied :
  Koth._weight_tied ka kb (statistical_band_cap p) = _weight_tied p a b.
Proof using Ha Hb Hp.
  unfold Koth._weight_tied, _weight_tied.
  rewrite lift_incomparable, lift_active2, !lift_continual, !lift_effective by done.
  rewrite paired_dethrone_frozen. pose proof Hp as [-> ->].
  destruct (Koth._paired_statistic ka kb) as [st|]; reflexivity.
Qed.

(** Whether the crown is out of the challenger's reach; a NaN score would part the
    two tests. *)
Lemma lift_deadlock :
  isnan (_dethrone_scores p a b).1 = false →
  Koth.ceiling_deadlocked (Koth._dethrone_decision ka kb (ceiling_band_clamp p)
    (statistical_band_cap p) None) = _score_ceiling_deadlocked p a b.
Proof using Ha Hb Hp Hsa Hsb.
  intros Hn. unfold Koth._dethrone_decision, _score_ceiling_deadlocked. pose proof lift_ungated as Hu.
  cbv zeta in Hu. destruct (_dethrone_scores p a b) as [o r]. destruct Hu as (_ & Hd & _).
  simpl in Hn. fold attainable. cbv zeta.
  transitivity (negb (fgtb o r) && fgeb r attainable).
  { rewrite <- Hd. by destruct (Koth._dueling_incomparable ka kb). }
  destruct (isnan r) eqn:Hr; [destruct r; [done..|]; by destruct o, attainable|].
  f_equal. unfold fgtb. destruct (fltb r o) eqn:E.
  - symmetry. apply not_true_iff_false. intros Hle%fleb_fltb_false. congruence.
  - by rewrite (fltb_false_fleb _ _ Hn Hr E).
Qed.
End paired.

(** * The fold over a lifted pool *)

Section pool.
Context {L : Libm}.
Context (rank : LedgerEntry → Z).
Definition lift (e : LedgerEntry) : Koth.KothEntry := koth_entry (rank e) e.

Lemma pool_mirrors entries : Forall served entries →
  Koth._fold_pool (lift <$> entries) = lift <$> scored_pool entries.
Proof.
  intros Hs. unfold Koth._fold_pool, scored_pool, positive_entries, filter_eligible.
  rewrite list_filter_filter. apply filter_fmap. intros e He.
  eapply Forall_forall in Hs; [|exact He]. destruct (served_pool e Hs) as [Hel Hpos].
  change (Koth.composite (koth_entry 0 e)) with (Koth.composite (lift e)) in Hpos.
  rewrite Hpos. unfold lift. rewrite lift_ready by done. rewrite Hel. simpl andb.
  rewrite andb_true_iff. tauto.
Qed.

Lemma active_mirrors l : Forall served l →
  Koth._quality_primary_efficiency_active (lift <$> l) = _quality_primary_efficiency_active l.
Proof. intros Hl. apply lift_active; [done|]. intros e _. by exists (rank e). Qed.

(** A score looked up in the mapping built from the pool. *)
Lemma scores_lookup (score : Koth.KothEntry → F64) l e : agents_distinct l → e ∈ l →
  dict_get (agent_id e) (Koth.scores_by score (lift <$> l)) = Some (score (lift e)).
Proof.
  intros Hd He. unfold Koth.scores_by. rewrite <- list_fmap_compose.
  assert (((λ e, (Koth.agent_id e, score e)) ∘ lift <$> l).*1 = agent_id <$> l) as Hk
    by (by rewrite <- list_fmap_compose).
  apply elem_dict_get; [apply NoDup_dict_of|].
  rewrite dict_of_NoDup by (rewrite Hk; exact Hd).
  apply list_elem_of_fmap. by exists e.
Qed.

Lemma ranked_mirrors l : Forall served l → agents_distinct l →
  Koth._ranked_entries (lift <$> l) = lift <$> ranked_by_key l.
Proof.
  intros Hs Hd. unfold Koth._ranked_entries, ranked_by_key. rewrite active_mirrors by done.
  assert (∀ e, e ∈ l → Koth.effective_composite (lift e) = _effective_composite e ∧
    Koth.continual_composite (lift e) = _quality_composite e) as Hsc.
  { intros e He. eapply Forall_forall in Hs; [|exact He]. unfold lift.
    by rewrite lift_effective, lift_continual. }
  destruct (_quality_primary_efficiency_active l); simpl negb; cbn match;
    unfold rank_submissions; apply py_sorted_fmap; intros x y Hx Hy;
    destruct (Hsc x Hx) as [Hxe Hxq], (Hsc y Hy) as [Hye Hyq];
    unfold cmp_by at 1, submission_key, score_order_key, values_of, secondary_of, plain_scores;
    cbn [row_agent_id Koth.koth_rankable score_values score_secondaries];
    change (Koth.agent_id (lift x)) with (agent_id x);
    change (Koth.agent_id (lift y)) with (agent_id y);
    rewrite !scores_lookup by done; cbn [default dict_get]; rewrite Hxe, Hye, ?Hxq, ?Hyq;
    reflexivity.
Qed.

Lemma seen_sorted_mirrors (l : list LedgerEntry) : py_sorted Koth.seen_cmp (lift <$> l) = lift <$> py_sorted seen_cmp l.
Proof. by apply py_sorted_fmap. Qed.

Definition lift_opening (o : LedgerEntry * list LedgerEntry)
    : Koth.KothEntry * list Koth.KothEntry := (lift o.1, lift <$> o.2).

Lemma opening_mirrors l inc :
  Koth.walk_opening (lift <$> l) inc = lift_opening <$> walk_opening l inc.
Proof.
  unfold Koth.walk_opening, walk_opening, find_agent. rewrite seen_sorted_mirrors.
  assert (List.find (λ e, bool_decide (Some (Koth.agent_id e) = inc)) (lift <$> l) =
    lift <$> match inc with None => None | Some i => List.find (is_agent i) l end) as ->.
  { destruct inc as [i|].
    - apply find_fmap. intros e _. unfold is_agent. change (Koth.agent_id (lift e)) with (agent_id e).
      case_bool_decide as Hi; symmetry; [apply Z.eqb_eq | apply Z.eqb_neq]; congruence.
    - rewrite (find_fmap lift _ (λ _, false)) by done. clear. by induction l. }
  destruct (match inc with None => None | Some i => _ end) as [c|]; cbn.
  - f_equal. unfold lift_opening. cbn [fst snd]. f_equal. apply filter_fmap. intros e _. unfold is_agent.
    rewrite Z.eqb_neq. done.
  - by destruct (py_sorted seen_cmp l).
Qed.

Lemma head_fmap {A B} (g : A → B) (l : list A) : head (g <$> l) = g <$> head l.
Proof. by destruct l. Qed.

Lemma gated_mirrors g l champ : Forall served l → served champ → agents_distinct l →
  2 <= min_shared_seeds g →
  Koth.gated_opening (lift_gate g) (lift <$> l) (lift champ) =
  lift_opening (gated_opening g l champ).
Proof.
  intros Hs Hc Hd Hg. unfold Koth.gated_opening, gated_opening, lift_opening.
  rewrite ranked_mirrors, seen_sorted_mirrors by done. cbn [Koth.standing_rank lift_gate fst snd].
  rewrite <- fmap_take. fold (standing_entries g l). cbv zeta.
  rewrite <- list_fmap_compose. change (Koth.agent_id ∘ lift) with agent_id.
  change (Koth.agent_id (lift champ)) with (agent_id champ).
  rewrite (find_fmap lift _ (λ e, min_shared_seeds g <=? _crown_evidence_count g e champ)).
  2: { intros e He. apply elem_of_standing in He. eapply Forall_forall in Hs; [|exact He].
       by apply lift_evidence. }
  rewrite head_fmap. set (s := standing_entries g l).
  assert (∀ c c', lift c = c' →
    (c', filter (λ e, Koth.agent_id e ∈ agent_id <$> s ∧ Koth.agent_id e ≠ Koth.agent_id c')
      (lift <$> py_sorted seen_cmp l)) =
    (lift c, lift <$> filter (λ e, agent_id e ∈ agent_id <$> s ∧ agent_id e ≠ agent_id c)
      (py_sorted seen_cmp l))) as Hf.
  { intros c c' <-. f_equal. by apply filter_fmap. }
  apply Hf. case_bool_decide; [done|]. destruct (List.find _ s); [done|]. by destruct s.
Qed.

Context (p : FoldParams) (Hp : frozen p).

(** A row the platform serves and whose squares round alike. *)
Definition mirrored (e : LedgerEntry) : Prop := served e ∧ squares_round e.

Lemma mirrored_served l : Forall mirrored l → Forall served l.
Proof. intros H. eapply Forall_impl; [exact H|]. by intros e [? _]. Qed.

Abbreviation decides gate :=
  (λ c champ, Koth._dethrone_decision c champ (ceiling_band_clamp p) (statistical_band_cap p)
    (lift_gate <$> gate)).

Lemma walk_mirrors gate champ cs : served_gate gate → mirrored champ → Forall mirrored cs →
  foldl (λ champ c, if Koth.dethrones (decides gate c champ) then c else champ)
    (lift champ) (lift <$> cs) = lift (walk p gate champ cs).
Proof using Hp.
  intros Hg. revert champ. unfold walk. induction cs as [|c cs IH]; intros champ Hc Hcs; [done|].
  apply Forall_cons in Hcs as [Hx Hcs]. rewrite fmap_cons. cbn [foldl].
  assert (Koth.dethrones (decides gate (lift c) (lift champ)) = _beats p gate c champ) as ->.
  { destruct Hx, Hc. unfold lift. by apply lift_decision. }
  destruct (_beats p gate c champ); by apply IH.
Qed.

Lemma swaps_mirrors a b : served a → served b →
  Koth.adjacent_swaps (lift a) (lift b) = adjacent_swaps a b.
Proof.
  intros Ha Hb. unfold Koth.adjacent_swaps, adjacent_swaps, lift.
  rewrite lift_mask by done. destruct (_dueling_pair_mask a b); [|done].
  rewrite <- (lift_paired_statistic (rank a) (rank b)) by done.
  destruct (Koth._paired_statistic _ _); reflexivity.
Qed.

Lemma swap_pass_mirrors upper rest : served upper → Forall served rest →
  Koth.swap_pass (lift upper) (lift <$> rest) =
  (lift <$> (swap_pass upper rest).1, (swap_pass upper rest).2).
Proof.
  intros Hu Hr. revert upper Hu. induction Hr as [|lower rest Hl Hr IH]; intros upper Hu; [done|].
  rewrite fmap_cons. cbn [Koth.swap_pass swap_pass]. rewrite swaps_mirrors by done.
  destruct (adjacent_swaps lower upper).
  - by rewrite IH.
  - rewrite IH by done. by destruct (swap_pass lower rest).
Qed.

Lemma swap_passes_mirrors k l : Forall served l →
  Koth.swap_passes k (lift <$> l) = lift <$> swap_passes k l.
Proof.
  revert l. induction k as [|k IH]; intros [|upper rest] Hl; [done..|].
  apply Forall_cons in Hl as [Hu Hr]. rewrite fmap_cons. cbn [Koth.swap_passes swap_passes].
  rewrite swap_pass_mirrors by done. pose proof (swap_pass_perm upper rest) as Hperm.
  destruct (swap_pass upper rest) as [l' swapped]. cbn [fst snd] in *.
  destruct swapped; [|done]. apply IH. rewrite Hperm. by constructor.
Qed.

Lemma adjacent_mirrors l : Forall served l →
  Koth._dueling_adjacent_order (lift <$> l) = lift <$> _dueling_adjacent_order l.
Proof.
  intros Hl. unfold Koth._dueling_adjacent_order, _dueling_adjacent_order.
  rewrite (existsb_fmap lift _ _is_dueling_entry), length_fmap.
  - destruct (existsb _ l); [by apply swap_passes_mirrors | done].
  - intros e He. apply lift_dueling. by eapply Forall_forall in Hl.
Qed.

Lemma tail_mirrors l champ (distinct : bool) : Forall served l → agents_distinct l →
  Koth._dueling_adjacent_order (take (Z.to_nat Koth.KOTH_TAIL_SIZE)
    (if distinct
     then distinct_by Koth.miner_hotkey [Koth.miner_hotkey (lift champ)]
            (filter (λ e : Koth.KothEntry, Koth.miner_hotkey e ≠ Koth.miner_hotkey (lift champ))
              (lift <$> ranked_by_key l))
     else filter (λ e : Koth.KothEntry, Koth.miner_hotkey e ≠ Koth.miner_hotkey (lift champ))
            (lift <$> ranked_by_key l))) =
  lift <$> _tail l champ Koth.KOTH_TAIL_SIZE distinct.
Proof.
  intros Hs Hd. unfold _tail.
  assert (filter (λ e : Koth.KothEntry, Koth.miner_hotkey e ≠ Koth.miner_hotkey (lift champ))
      (lift <$> ranked_by_key l) =
    lift <$> py_sorted (_ranking_key (_quality_primary_efficiency_active l))
      (filter (λ e, miner_hotkey e ≠ miner_hotkey champ) l)) as ->.
  { rewrite (filter_fmap lift _ (λ e, miner_hotkey e ≠ miner_hotkey champ)) by done.
    unfold ranked_by_key. f_equal. apply (filter_py_sorted _ _).
    by apply ranking_key_distinct. }
  set (r := py_sorted _ (filter _ l)).
  assert (Forall served r) as Hr.
  { apply Forall_forall. intros e He. apply elem_of_py_sorted, list_elem_of_filter in He as [_ He].
    by eapply Forall_forall in Hs. }
  rewrite distinct_by_fmap. change (Koth.KOTH_TAIL_SIZE <=? 0) with false. cbn match.
  rewrite <- adjacent_mirrors.
  - f_equal. rewrite fmap_take. by destruct distinct.
  - apply Forall_take. destruct distinct; [|done]. apply Forall_forall. intros e He.
    eapply Forall_forall in Hr; [exact Hr|]. eapply elem_of_submseteq; [exact He|].
    apply sublist_submseteq, distinct_by_sublist.
Qed.

(** What the fold decides: who holds the crown and who stands in the tail. *)
Definition crown_view (π : Koth.KothProjection) : Koth.KothEntry * list Koth.KothEntry :=
  (Koth.champion π, Koth.tail π).

(** The opener and the challengers of a mirrored pool are mirrored, gated or not. *)
Definition opening_of (gate : option CrownGate) (l : list LedgerEntry)
    (o : LedgerEntry * list LedgerEntry) : LedgerEntry * list LedgerEntry :=
  match gate with Some g => gated_opening g l o.1 | None => o end.

Lemma opening_of_elem gate l inc o : walk_opening l inc = Some o →
  (opening_of gate l o).1 ∈ l ∧ Forall (.∈ l) (opening_of gate l o).2.
Proof.
  destruct o as [c cs]. intros Ho. apply walk_opening_elem in Ho as [Hc Hcs].
  destruct gate as [g|]; [|done]. unfold opening_of. cbn [fst].
  destruct (gated_opening g l c) as [c' cs'] eqn:Eg.
  apply gated_opening_standing in Eg as (_ & Hc' & Hcs'); [|by intros ->; apply elem_of_nil in Hc].
  cbn [fst snd]. split; [by destruct Hc' as [->|]|]. eapply Forall_impl; [exact Hcs'|]. by intros x [_ ?].
Qed.

Lemma projection_mirrors entries distinct inc gate :
  Forall mirrored entries → agents_distinct entries → served_gate gate →
  crown_view <$> Koth.project_koth (lift <$> entries) distinct (ceiling_band_clamp p)
    (statistical_band_cap p) inc (lift_gate <$> gate) =
  (λ c, (lift c, lift <$> _tail (scored_pool entries) c Koth.KOTH_TAIL_SIZE distinct)) <$>
    _champion p inc gate (scored_pool entries).
Proof using Hp.
  intros Hm Hd Hg. unfold Koth.project_koth. rewrite pool_mirrors by by apply mirrored_served.
  apply scored_pool_distinct in Hd.
  assert (Forall mirrored (scored_pool entries)) as Hm'.
  { apply Forall_forall. intros e [He _]%elem_of_scored. by eapply Forall_forall in Hm. }
  clear Hm. revert Hd Hm'. generalize (scored_pool entries). clear entries. intros l Hd Hm.
  pose proof (mirrored_served l Hm) as Hs.
  rewrite opening_mirrors, ranked_mirrors, head_fmap by done. unfold _champion.
  destruct (walk_opening l inc) as [[c cs]|] eqn:Ho; [|done].
  assert (is_Some (head (ranked_by_key l))) as [leader Hleader].
  { apply head_is_Some. intros E. apply walk_opening_elem in Ho as [Hc _].
    apply (elem_of_py_sorted (_ranking_key (_quality_primary_efficiency_active l))) in Hc.
    fold (ranked_by_key l) in Hc. rewrite E in Hc. by apply elem_of_nil in Hc. }
  rewrite Hleader. pose proof (opening_of_elem gate l inc _ Ho) as [Hc Hcs].
  assert ((match gate with Some g => gated_opening g l c | None => (c, cs) end) =
    opening_of gate l (c, cs)) as -> by done.
  assert ((match lift_gate <$> gate with
    | Some g => Koth.gated_opening g (lift <$> l) (lift c) | None => (lift c, lift <$> cs) end) =
    lift_opening (opening_of gate l (c, cs))) as Hgo.
  { destruct gate as [g|]; [|done]. apply gated_mirrors; [done| |done..].
    apply walk_opening_elem in Ho as [Ho _]. by eapply Forall_forall in Hs. }
  cbn [fmap option_fmap option_map lift_opening fst snd]. cbv zeta. rewrite Hgo.
  destruct (opening_of gate l (c, cs)) as [c' cs']. unfold lift_opening. cbn [fst snd] in *.
  rewrite walk_mirrors; [|done | by eapply Forall_forall in Hm |].
  2: { eapply Forall_impl; [exact Hcs|]. intros x Hx. by eapply Forall_forall in Hm. }
  exact (f_equal (λ t, Some (lift (walk p gate c' cs'), t))
    (tail_mirrors l (walk p gate c' cs') distinct Hs Hd)).
Qed.

(** ** The payout *)

Lemma tail_agents l champ k d : agents_distinct l → NoDup (agent_id <$> _tail l champ k d).
Proof.
  intros Hd. unfold _tail. destruct (k <=? 0); [constructor|]. rewrite adjacent_order_perm.
  eapply sublist_NoDup; [|apply fmap_sublist; etrans; [apply sublist_take|];
    destruct d; [apply distinct_by_sublist | done]].
  rewrite (py_sorted_perm _). by apply agents_distinct_filter.
Qed.

Lemma emission_set_mirrors l champ k d (π : Koth.KothProjection) :
  agents_distinct l → champ ∈ l →
  crown_view π = (lift champ, lift <$> _tail l champ k d) →
  Koth.emission_set (Some π) = lift <$> champ :: _tail l champ k d.
Proof.
  intros Hd Hc Hv. injection Hv as Hch Ht. unfold Koth.emission_set. rewrite Hch, Ht, fmap_cons.
  f_equal. apply unseen_fresh.
  - rewrite <- list_fmap_compose. by apply tail_agents.
  - intros x Hx. apply list_elem_of_fmap in Hx as (e & -> & He).
    apply tail_elem in He as [He Hne]. intros Hin%list_elem_of_singleton. apply Hne.
    f_equal. by eapply agents_distinct_eq.
Qed.

Lemma group_end_fmap (t : Koth.KothEntry → bool) (u : LedgerEntry → bool) l k :
  (∀ e, e ∈ l → t (lift e) = u e) → Koth.group_end t (lift <$> l) k = group_end u l k.
Proof.
  revert k. induction l as [|e l IH]; intros k H; [done|]. rewrite fmap_cons.
  cbn [Koth.group_end group_end]. rewrite H by left. destruct (u e); [|done].
  apply IH. intros x Hx. apply H. by right.
Qed.

Lemma pool_loop_fmap (t : Koth.KothEntry → Koth.KothEntry → bool)
    (u : LedgerEntry → LedgerEntry → bool) l fuel start s :
  (∀ a b, a ∈ l → b ∈ l → t (lift a) (lift b) = u a b) →
  Koth.pool_loop t (lift <$> l) fuel start s = pool_loop u l fuel start s.
Proof.
  intros H. revert start s. induction fuel as [|fuel IH]; intros start s; [done|].
  cbn [Koth.pool_loop pool_loop]. rewrite list_lookup_fmap.
  destruct (l !! start) as [anchor|] eqn:E; [|done]. cbn [fmap option_fmap option_map].
  rewrite <- fmap_drop, (group_end_fmap _ (λ c, u c anchor)).
  - cbv zeta. apply IH.
  - intros e He. apply H; [|by eapply list_elem_of_lookup_2].
    eapply elem_of_submseteq; [exact He|]. apply sublist_submseteq, sublist_drop.
Qed.

Lemma take_tied_fmap (t : Koth.KothEntry → bool) (u : LedgerEntry → bool) l :
  (∀ e, e ∈ l → t (lift e) = u e) → Koth.take_tied t (lift <$> l) = lift <$> take_tied u l.
Proof.
  induction l as [|e l IH]; intros H; [done|]. rewrite fmap_cons.
  cbn [Koth.take_tied take_tied]. rewrite H by left. destruct (u e); [|done].
  rewrite fmap_cons, IH; [done|]. intros x Hx. apply H. by right.
Qed.

(** No comparison of the pool starts from a NaN score. *)
Definition scores_defined (l : list LedgerEntry) : Prop :=
  ∀ a b, a ∈ l → b ∈ l → isnan (_dethrone_scores p a b).1 = false.

Lemma distinct_ranked_mirrors entries :
  Forall mirrored entries → agents_distinct entries →
  Koth._distinct_ranked (lift <$> entries) = lift <$> _distinct_ranked (scored_pool entries).
Proof.
  intros Hm Hd. pose proof (mirrored_served _ Hm) as Hs.
  unfold Koth._distinct_ranked, _distinct_ranked.
  rewrite pool_mirrors, ranked_mirrors; [exact (distinct_by_fmap lift Koth.miner_hotkey [] _) | | |done].
  - apply Forall_forall. intros e [He _]%elem_of_scored. by eapply Forall_forall in Hs.
  - by apply scored_pool_distinct.
Qed.

Lemma distinct_ranked_elem l e : e ∈ _distinct_ranked l → e ∈ l.
Proof.
  intros He. apply (elem_of_py_sorted (_ranking_key (_quality_primary_efficiency_active l))).
  eapply elem_of_submseteq; [exact He|]. apply sublist_submseteq, distinct_by_sublist.
Qed.

Lemma cohort_mirrors entries champ (π : Koth.KothProjection) :
  Forall mirrored entries → agents_distinct entries → scores_defined (scored_pool entries) →
  champ ∈ scored_pool entries → Koth.champion π = lift champ →
  Koth._score_ceiling_cohort (lift <$> entries) π (ceiling_band_clamp p) (statistical_band_cap p) =
  lift <$> _score_ceiling_cohort p (scored_pool entries) champ.
Proof using Hp.
  intros Hm Hd Hn Hc Hπ. unfold Koth._score_ceiling_cohort, Koth.best_rival, _score_ceiling_cohort.
  rewrite distinct_ranked_mirrors, pool_mirrors, Hπ by (done || by apply mirrored_served).
  assert (∀ e, e ∈ scored_pool entries → mirrored e) as Hm'.
  { intros e [He _]%elem_of_scored. by eapply Forall_forall in Hm. }
  rewrite active_mirrors by (apply Forall_forall; intros e He; by apply Hm').
  destruct (_quality_primary_efficiency_active _); [done|].
  set (q := λ e : LedgerEntry, negb (String.eqb (miner_hotkey e) (miner_hotkey champ))).
  rewrite (find_fmap lift _ q) by done. set (r := _distinct_ranked (scored_pool entries)).
  assert (∀ e, e ∈ r → e ∈ scored_pool entries) as Hr by (intros e; apply distinct_ranked_elem).
  destruct (List.find q r) as [ch|] eqn:Ef; [|done]. cbn [fmap option_fmap option_map].
  apply List.find_some in Ef as [Hch _]. apply list_elem_of_In, Hr in Hch.
  destruct (Hm' ch Hch), (Hm' champ Hc).
  assert (Koth.ceiling_deadlocked (Koth._dethrone_decision (lift ch) (lift champ)
      (ceiling_band_clamp p) (statistical_band_cap p) None) =
    _score_ceiling_deadlocked p ch champ) as -> by (apply lift_deadlock; auto).
  destruct (negb (_score_ceiling_deadlocked p ch champ)); [done|].
  destruct r as [|anchor rest]; [done|]. rewrite fmap_cons. cbn match.
  rewrite (take_tied_fmap _ (λ e, _weight_tied p e anchor)).
  - by destruct (take_tied _ rest).
  - intros e He. assert (e ∈ anchor :: rest) as He' by by right.
    assert (anchor ∈ anchor :: rest) as Ha by left.
    destruct (Hm' e (Hr e He')), (Hm' anchor (Hr anchor Ha)). unfold lift. by apply lift_tied.
Qed.

End pool.

Section payout.
Context {L : Libm} (rank : LedgerEntry → Z) (m : MemoryFoldParams).
Context (Hp : frozen (fold_params m)).
Abbreviation clamp := (ceiling_band_clamp (fold_params m)).
Abbreviation capped := (statistical_band_cap (fold_params m)).

(** The tie groups of the emission set. *)
Lemma pooled_mirrors entries c fuel s :
  Forall mirrored entries → c ∈ scored_pool entries →
  let rs := c :: _tail (scored_pool entries) c Koth.KOTH_TAIL_SIZE (tie_pooling m) in
  Koth.pool_loop (λ x y, Koth._weight_tied x y capped) (lift rank <$> rs) fuel 0 s =
  pool_loop (_weight_tied (fold_params m)) rs fuel 0 s.
Proof using Hp.
  intros Hm Hc rs. apply pool_loop_fmap.
  assert (∀ x, x ∈ rs → served x) as Hs.
  { intros x Hx. assert (x ∈ scored_pool entries) as Hin.
    { apply elem_of_cons in Hx as [->|Hx]; [done|]. apply tail_elem in Hx as [Hx _]; exact Hx. }
    apply elem_of_scored in Hin as [Hin _]. eapply Forall_forall in Hm as [Hsx _]; [exact Hsx | exact Hin]. }
  intros x y Hx Hy. unfold lift. apply lift_tied; auto.
Qed.

Lemma allocation_mirrors entries :
  tail_size m = Koth.KOTH_TAIL_SIZE → unpaid_agent_id m = None →
  check_rank_shares (tail_size m) (rank_shares m) = Ok tt →
  Forall mirrored entries → agents_distinct entries → served_gate (crown_gate m) →
  scores_defined (fold_params m) (scored_pool entries) →
  let π := Koth.project_koth (lift rank <$> entries) (tie_pooling m) clamp capped
             (incumbent_agent_id m) (lift_gate <$> crown_gate m) in
  let payout := Koth.emission_allocation (lift rank <$> entries) π (tie_pooling m)
                  clamp capped (Some (rank_shares m)) in
  compute_weights m entries =
  Ok (dict_of (zip (Koth.miner_hotkey <$> Koth.members payout) (Koth.shares payout))).
Proof using Hp.
  intros Ets Eun Hck Hm Hd Hg Hn π payout.
  pose proof (projection_mirrors rank _ Hp entries (tie_pooling m) (incumbent_agent_id m)
    (crown_gate m) Hm Hd Hg) as Hπ. fold π in Hπ.
  destruct (compute_weights_run m entries Hck)
    as [[Hs ->]|(c & rs & ss & Hc & Hrs & _ & _ & _ & _ & ->)].
  - rewrite Hs in Hπ. assert (π = None) as E.
    { destruct π; [|done]. unfold _champion, walk_opening in Hπ.
      by destruct (incumbent_agent_id m). }
    unfold payout. by rewrite E.
  - rewrite Hc in Hπ. pose proof (champion_elem _ _ _ _ _ Hc) as Hcin.
    unfold payout. destruct π as [pr|]; [|done]. injection Hπ as Hch Htl.
    pose proof (cohort_mirrors rank _ Hp entries c pr Hm Hd Hn Hcin Hch) as Hco.
    pose proof (emission_set_mirrors rank (scored_pool entries) c Koth.KOTH_TAIL_SIZE (tie_pooling m)
      pr (scored_pool_distinct _ Hd) Hcin) as Hem.
    unfold crown_view in Hem. rewrite Hch, Htl in Hem. specialize (Hem eq_refl).
    assert (∀ l : list LedgerEntry, pay_key (unpaid_agent_id m) <$> l =
      Koth.miner_hotkey <$> (lift rank <$> l)) as Hkey.
    { intros l. rewrite Eun, <- list_fmap_compose. apply list_fmap_ext. intros _ e _.
      unfold pay_key. by rewrite bool_decide_false. }
    rewrite Hkey. do 2 f_equal. unfold Koth.emission_allocation, Koth.emission_shares.
    rewrite Hem, length_fmap, Hco. revert Hrs. unfold recipients_and_shares. rewrite Ets.
    pose proof (pooled_mirrors entries c) as Hpool. cbv zeta in Hpool.
    destruct (tie_pooling m); simpl negb; cbn match; [|by intros [= <- <-]].
    destruct (_score_ceiling_cohort _ (scored_pool entries) c) as [|a co]; cbn match.
    + intros Hp'. apply bind_Ok in Hp' as (ss' & Hlen & [= <- <-]).
      unfold _pool_tied_rank_shares in Hlen. case_match; [done|]. injection Hlen as <-.
      cbn [Koth.members Koth.shares]. f_equal. symmetry. by apply Hpool.
    + intros [= <- <-]. rewrite !fmap_cons. cbn match. cbn [Koth.members Koth.shares length].
      by rewrite length_fmap.
Qed.
End payout.

(** * The two folds agree *)

Definition served_rank (entries : list LedgerEntry) (e : LedgerEntry) : Z :=
  default 0 (dict_get (agent_id e) (raw_ranks entries)).
Definition lifted (entries : list LedgerEntry) : LedgerEntry → Koth.KothEntry :=
  lift (served_rank entries).

(** Every row of the ledger has a raw rank, as [raw_ranks[entry.agent_id]] needs. *)
Lemma raw_rank_present entries e : e ∈ entries →
  is_Some (dict_get (agent_id e) (raw_ranks entries)).
Proof.
  intros He. destruct (dict_get (agent_id e) (raw_ranks entries)) eqn:E; [done|exfalso].
  apply dict_get_None in E. apply E. apply elem_of_keys_dict_of.
  assert (e ∈ rank_submissions entries None None) as Hin by by apply elem_of_py_sorted.
  apply list_elem_of_lookup in Hin as [i Hi].
  apply list_elem_of_fmap. exists (agent_id e, Z.of_nat i + 1). split; [done|].
  apply list_elem_of_lookup. exists i. by rewrite list_lookup_imap, Hi.
Qed.

Lemma select_champion_pool `{Libm} p inc gate entries :
  select_champion p inc gate entries = _champion p inc gate (scored_pool entries).
Proof.
  unfold select_champion. fold (scored_pool entries).
  destruct (scored_pool entries) eqn:E; [|done]. unfold _champion, walk_opening. by destruct inc.
Qed.

(** C3: the platform's projection is the validators' fold on mirrored rows. For a
    ledger of distinct agents whose rows are all [mirrored], under the compiled
    margin and quantile and a gate within its wire bounds, [project_koth] over the
    lifted ledger crowns the entry [select_champion] crowns, with the same tail in
    the same order, for every incumbent and tie mode; and it projects nobody
    exactly when the fold has no champion. A row is mirrored when it is as the
    wire types say, an eligible row whose score and projection are positive
    together, whose receipt carries no other evidence and whose history counts
    from the quorum on, and the C library squares its standard errors as the
    product does; excluded are bench-9 factors without a receipt and in-row
    confirmation bundles beside a complete quorum, rows the platform can serve and
    on which the two folds do part ([legacy_bundle_parts]). *)
Theorem project_koth_mirrors `{Libm} p entries (distinct : bool) inc gate :
  frozen p → Forall mirrored entries → agents_distinct entries → served_gate gate →
  crown_view <$> Koth.project_koth (koth_entries_from_ledger entries) distinct
    (ceiling_band_clamp p) (statistical_band_cap p) inc (lift_gate <$> gate) =
  (λ c, (lifted entries c,
         lifted entries <$> _tail (scored_pool entries) c Koth.KOTH_TAIL_SIZE distinct)) <$>
    select_champion p inc gate entries.
Proof.
  intros Hp Hm Hd Hg. rewrite select_champion_pool.
  exact (projection_mirrors (served_rank entries) p Hp entries distinct inc gate Hm Hd Hg).
Qed.

(** C4: the platform records the payout the validators compute. For a ledger of
    distinct agents with [mirrored] rows, under the compiled margin, quantile and
    tail size, a gate within its wire bounds, rank shares that pass the fold's
    check and no provisional unpaid incumbent, and when no comparison of scored
    rows starts from a NaN, the recipients and shares of [emission_allocation],
    ranked or a joint crown, are exactly the vector [compute_weights] returns. *)
Theorem emission_allocation_mirrors `{Libm} m entries :
  frozen (fold_params m) → tail_size m = Koth.KOTH_TAIL_SIZE → unpaid_agent_id m = None →
  check_rank_shares (tail_size m) (rank_shares m) = Ok tt →
  Forall mirrored entries → agents_distinct entries → served_gate (crown_gate m) →
  scores_defined (fold_params m) (scored_pool entries) →
  let clamp := ceiling_band_clamp (fold_params m) in
  let cap := statistical_band_cap (fold_params m) in
  let ks := koth_entries_from_ledger entries in
  let projection := Koth.project_koth ks (tie_pooling m) clamp cap (incumbent_agent_id m)
                      (lift_gate <$> crown_gate m) in
  let payout := Koth.emission_allocation ks projection (tie_pooling m) clamp cap
                  (Some (rank_shares m)) in
  compute_weights m entries =
  Ok (dict_of (zip (Koth.miner_hotkey <$> Koth.members payout) (Koth.shares payout))).
Proof. intros Hp. apply (allocation_mirrors (served_rank entries) m Hp entries). Qed.

(** * Concrete instances *)

Definition platform_params : FoldParams := {|
  margin := Koth.KOTH_MARGIN; dethrone_z := Koth.KOTH_DETHRONE_Z;
  ceiling_band_clamp := true; statistical_band_cap := true |}.
Definition platform_fold : MemoryFoldParams := {|
  fold_params := platform_params; tail_size := 4; rank_shares := Koth.KOTH_RANK_SHARES;
  tie_pooling := true; incumbent_agent_id := None; unpaid_agent_id := None;
  crown_gate := Some {| min_shared_seeds := 2; standing_rank := 3; duel_window := None |} |}.

(** A row with three quorum scores, a standard error and continual evidence. *)
Definition sample_continual (hotkey : string) (id seen : Z) (score : F64)
    (history : list (Z * F64)) (bundle : option (list F64 * list Z)) : LedgerEntry := {|
  miner_hotkey := hotkey; agent_id := id; composite := score; n_cases := 114;
  first_seen := seen; bench_version := Some 12; score_proofs := [score; score; score];
  composite_stderr := Some (flit 1 100);
  confirmation_composites := fst <$> bundle; confirmation_seeds := snd <$> bundle;
  confirmation_history := Some ((λ sv, {| rec_seed := sv.1; rec_composite := sv.2;
    rec_bench_version := 12; rec_dueling := None |}) <$> history);
  duel_history := None; mean_after_quorum := true;
  efficiency_bonus := None; efficiency_factor := None; efficiency_curve_version := None;
  v9_confirmation := None; dueling_season_id := None; dueling := None |}.

Definition gina : LedgerEntry := sample_continual "gina" 6 10 (flit 70 100)
  [(1, flit 70 100); (2, flit 72 100); (3, flit 71 100)] None.
Definition hugo : LedgerEntry := sample_continual "hugo" 7 20 (flit 75 100)
  [(1, flit 78 100); (2, flit 80 100); (3, flit 80 100)] None.
Definition ivan : LedgerEntry := sample_continual "ivan" 8 30 (flit 60 100)
  [(2, flit 61 100)] None.
Definition continual_pool : list LedgerEntry := [ivan; gina; hugo].

Lemma continual_mirrored hotkey id seen score history :
  Forall (λ sv, 0 <= sv.1 ∧ unit_interval sv.2 = true) history →
  let e := sample_continual hotkey id seen score history None in
  fgtb score zero = fgtb (_effective_composite e) zero →
  squares_round (L := sample_libm) e → mirrored (L := sample_libm) e.
Proof.
  intros Hh e Hpos Hsq. split; [|exact Hsq].
  split.
  - intros v [= <-]. lia.
  - intros v. discriminate.
  - apply Forall_fmap. exact Hh.
  - discriminate.
  - reflexivity.
  - intros _ v. discriminate.
  - right. reflexivity.
  - split; [reflexivity | exact Hpos].
Qed.

Lemma continual_pool_mirrored : Forall (mirrored (L := sample_libm)) continual_pool.
Proof.
  apply Forall_cons. split; [|apply Forall_cons; split; [|apply Forall_cons; split]].
  - unfold ivan. apply continual_mirrored.
    + apply (bool_decide_unpack _). vm_compute. exact I.
    + vm_compute. reflexivity.
    + vm_compute. split; reflexivity.
  - unfold gina. apply continual_mirrored.
    + apply (bool_decide_unpack _). vm_compute. exact I.
    + vm_compute. reflexivity.
    + vm_compute. split; reflexivity.
  - unfold hugo. apply continual_mirrored.
    + apply (bool_decide_unpack _). vm_compute. exact I.
    + vm_compute. reflexivity.
    + vm_compute. split; reflexivity.
  - apply Forall_nil. exact I.
Qed.

Lemma continual_pool_distinct : agents_distinct continual_pool.
Proof. apply (bool_decide_unpack _). vm_compute. exact I. Qed.

(** [hugo] takes the crown on the three shared seeds. *)
Lemma project_koth_mirrors_witness :
  (λ π, (Koth.agent_id (Koth.champion π), Koth.agent_id <$> Koth.tail π)) <$>
    Koth.project_koth (L := sample_libm) (koth_entries_from_ledger continual_pool) true
      true true None (lift_gate <$> crown_gate platform_fold) = Some (7, [6; 8]) ∧
  crown_view <$> Koth.project_koth (L := sample_libm) (koth_entries_from_ledger continual_pool) true
    true true None (lift_gate <$> crown_gate platform_fold) =
  (λ c, (lifted continual_pool c, lifted continual_pool <$>
     _tail (L := sample_libm) (scored_pool continual_pool) c Koth.KOTH_TAIL_SIZE true)) <$>
  select_champion (L := sample_libm) platform_params None (crown_gate platform_fold) continual_pool.
Proof.
  split; [vm_compute; reflexivity|].
  apply (project_koth_mirrors (H := sample_libm) platform_params continual_pool true None
    (crown_gate platform_fold)).
  - split; reflexivity.
  - apply continual_pool_mirrored.
  - apply continual_pool_distinct.
  - simpl. lia.
Defined.

Lemma scores_defined_check `{Libm} p l :
  forallb (λ a, forallb (λ b, negb (isnan (_dethrone_scores p a b).1)) l) l = true →
  scores_defined p l.
Proof.
  intros Hl a b Ha Hb. rewrite forallb_forall in Hl.
  apply list_elem_of_In, Hl in Ha. rewrite forallb_forall in Ha.
  apply list_elem_of_In, Ha in Hb. by apply negb_true_iff in Hb.
Qed.

Lemma emission_allocation_mirrors_witness :
  compute_weights (L := sample_libm) platform_fold continual_pool =
  Ok (dict_of (zip
    (Koth.miner_hotkey <$> Koth.members (Koth.emission_allocation (L := sample_libm)
      (koth_entries_from_ledger continual_pool)
      (Koth.project_koth (L := sample_libm) (koth_entries_from_ledger continual_pool) true true true
        None (lift_gate <$> crown_gate platform_fold)) true true true
      (Some Koth.KOTH_RANK_SHARES)))
    (Koth.shares (Koth.emission_allocation (L := sample_libm)
      (koth_entries_from_ledger continual_pool)
      (Koth.project_koth (L := sample_libm) (koth_entries_from_ledger continual_pool) true true true
        None (lift_gate <$> crown_gate platform_fold)) true true true
      (Some Koth.KOTH_RANK_SHARES))))).
Proof.
  apply (emission_allocation_mirrors (H := sample_libm) platform_fold continual_pool).
  - split; reflexivity.
  - reflexivity.
  - reflexivity.
  - vm_compute. reflexivity.
  - apply continual_pool_mirrored.
  - apply continual_pool_distinct.
  - simpl. lia.
  - apply scores_defined_check. vm_compute. reflexivity.
Defined.

(** * Where the two part

    [served_bundle] cannot be dropped: the lift hands an in-row confirmation bundle
    to the completed-wave slot, so the platform averages it with the quorum, where
    the validator takes its median. *)
Definition jane : LedgerEntry := sample_continual "jane" 9 10 (flit 80 100) [] None.
Definition kurt : LedgerEntry := sample_continual "kurt" 10 20 (flit 70 100) []
  (Some ([flit 95 100; flit 95 100], [1; 2])).

(** An in-row confirmation bundle beside a complete quorum makes the
    platform record another champion than the validators pay: they crown [kurt] on
    the bundle's median 0.95 over [jane]'s 0.80, while the platform scores him
    0.80, the mean of the quorum and the bundle, and keeps [jane]. *)
Lemma legacy_bundle_parts :
  select_champion (L := sample_libm) platform_params None None [jane; kurt] = Some kurt ∧
  _quality_composite kurt = flit 95 100 ∧
  Koth.agent_id ∘ Koth.champion <$>
    Koth.project_koth (L := sample_libm) (koth_entries_from_ledger [jane; kurt]) false true true
      None None = Some (agent_id jane) ∧
  fltb (Koth.continual_composite (lifted [jane; kurt] kurt)) (flit 81 100) = true.
Proof. split_and!; vm_compute; reflexivity. Qed.
