(* ===== verification/SeedFamily.v ===== *)
(** The seed families of the continual retests: [ditto/validator/crn.py] and its
    byte-for-byte mirror [apps/platform/ditto/api_server/crn.py], the block
    binding of [ditto_screening_protocol/crn_block_binding.py], the platform's
    search for the binding of a seed
    ([api_server/confirmation_seed_anchor.py]) and the checks a validator makes of
    a leased seed ([ditto/validator/worker.py]).

    A family is keyed by the champion that opened it, the bench version and,
    from version 13, a finalized block.  An agent id is the integer of its UUID;
    a derivation that raises is an [Err]. *)
From Stdlib Require Import ZArith Lia Ascii.
From stdpp Require Import base list strings pretty.
From S2P Require Import Prelude PyText Canonical.

#[local] Open Scope string_scope.
#[local] Open Scope list_scope.
#[local] Open Scope Z_scope.

Definition CRN_BLOCK_BINDING_MIN_BENCH_VERSION : Z := 13.
Definition CONFIRMATION_SEED_CEILING : Z := 15.
Definition _INT63_MASK : Z := Z.shiftl 1 63 - 1.

Definition crn_block_binding_active (version : Z) : bool :=
  CRN_BLOCK_BINDING_MIN_BENCH_VERSION <=? version.

Definition normalize_block_hash (block_hash : string) : string :=
  removeprefix "0x" (lower (strip block_hash)).

(** * The derivation *)

(** The NUL byte, and [bytes.decode("ascii")] of what is hashed. *)
Definition nul : string := String Ascii.zero EmptyString.
Definition ascii_text (s : string) : bool := str_forall (λ c, c <? 128) s.

(** What [crn_seed] feeds to the hash. *)
Definition crn_message (agent_ids : list string) (version k : Z) (block_hash : option string)
    : result string :=
  let ids := foldr (λ aid rest, aid +:+ nul +:+ rest) "" (py_sorted str_cmp agent_ids) in
  let index := if 0 <? k then nul +:+ "k" +:+ pretty k else "" in
  match block_hash with
  | None => Ok (ids +:+ pretty version +:+ index)
  | Some block_hash =>
      let normalized := normalize_block_hash block_hash in
      require (negb (bool_decide (normalized = "")))
        (ValueError "a block-bound CRN seed requires a non-empty block hash");;
      require (ascii_text normalized) (ValueError "ordinal not in range(128)");;
      Ok (ids +:+ pretty version +:+ index +:+ nul +:+ "block" +:+ normalized)
  end.

(** [int.from_bytes(bytes, "little")] *)
Definition from_bytes_little (bytes : list Z) : Z := foldr (λ b rest, b + 256 * rest) 0 bytes.

Section derivation.
Context {SH : Sha256}.

(** [h.digest()]: the bytes of the hexadecimal digest. *)
Definition digest (message : string) : list Z := default [] (fromhex (sha256 message)).

Definition crn_seed (agent_ids : list string) (version k : Z) (block_hash : option string)
    : result Z :=
  crn_message agent_ids version k block_hash ≫= λ message,
  Ok (Z.land (from_bytes_little (take 8 (digest message))) _INT63_MASK).

(** [range(n)] *)
Definition range (n : Z) : list Z := Z.of_nat <$> seq 0 (Z.to_nat n).

Definition confirmation_seeds (agent_ids : list string) (version count : Z)
    (block_hash : option string) : result (list Z) :=
  mapM (λ k, crn_seed agent_ids version k block_hash) (range (Z.max 1 count)).

Definition champion_anchored_seeds (champion_agent_id version max_seeds : Z)
    (block_hash : option string) : result (list Z) :=
  confirmation_seeds [uuid_text champion_agent_id] version max_seeds block_hash.

(** * Anchors: the platform's pins, and what a lease says of a seed *)

Record ReignSeedAnchor := {
  champion_agent_id : Z;
  anchor_bench_version : Z;
  ready_block : Z;
  anchor_block : Z;
  anchor_block_hash : option string;
  season_key : Z
}.

(** [(block_hash, allow_fresh_seeds)] *)
Definition Planning : Type := option string * bool.
Definition LEGACY_PLANNING : Planning := (None, true).

Definition planning (a : ReignSeedAnchor) : Planning :=
  (anchor_block_hash a, bool_decide (is_Some (anchor_block_hash a))).

Record SeedBinding := {
  anchor_agent_id : Z;
  seed_index : Z;
  seed_block : Z;
  seed_block_hash : string
}.

Fixpoint bind_in (anchors : list ReignSeedAnchor) (seed bench_version max_seeds : Z)
    : result (option SeedBinding) :=
  match anchors with
  | [] => Ok None
  | anchor :: rest =>
      match anchor_block_hash anchor with
      | None => bind_in rest seed bench_version max_seeds
      | Some block_hash =>
          if negb (anchor_bench_version anchor =? bench_version)
          then bind_in rest seed bench_version max_seeds
          else
            champion_anchored_seeds (champion_agent_id anchor) bench_version max_seeds
              (Some block_hash) ≫= λ family,
            match list_find (λ s, s = seed) family with
            | Some (index, _) =>
                Ok (Some {| anchor_agent_id := champion_agent_id anchor;
                            seed_index := Z.of_nat index;
                            seed_block := anchor_block anchor;
                            seed_block_hash := block_hash |})
            | None => bind_in rest seed bench_version max_seeds
            end
      end
  end.

Definition bind_confirmation_seed (anchors : list ReignSeedAnchor)
    (seed bench_version max_seeds : Z) : result (option SeedBinding) :=
  if negb (crn_block_binding_active bench_version) then Ok None
  else bind_in anchors seed bench_version max_seeds.

Record ConfirmationDatasetPin := {
  pin_seed : Z;
  private_dataset_mode : option string;
  dataset_sha256 : string;
  run_size : string;
  pin_anchor_agent_id : option Z;
  pin_seed_index : option Z;
  pin_seed_block : option Z;
  pin_seed_block_hash : option string
}.

(** The pin [_issue_continual_retest_job] puts on a lease. *)
Definition lease_pin (seed : Z) (sha size : string) (binding : option SeedBinding)
    : ConfirmationDatasetPin := {|
  pin_seed := seed; private_dataset_mode := None; dataset_sha256 := sha; run_size := size;
  pin_anchor_agent_id := anchor_agent_id <$> binding;
  pin_seed_index := seed_index <$> binding;
  pin_seed_block := seed_block <$> binding;
  pin_seed_block_hash := seed_block_hash <$> binding |}.

Fixpoint _confirmation_pin_binding_mismatch (pins : list ConfirmationDatasetPin)
    (bench_version : option Z) : result (option ConfirmationDatasetPin) :=
  match pins with
  | [] => Ok None
  | pin :: rest =>
      match pin_anchor_agent_id pin, pin_seed_index pin, pin_seed_block pin,
            pin_seed_block_hash pin with
      | None, None, None, None => _confirmation_pin_binding_mismatch rest bench_version
      | Some anchor, Some k, Some _, Some block_hash =>
          match bench_version with
          | None => Ok (Some pin)
          | Some version =>
              crn_seed [uuid_text anchor] version k (Some block_hash) ≫= λ expected,
              if expected =? pin_seed pin
              then _confirmation_pin_binding_mismatch rest bench_version
              else Ok (Some pin)
          end
      | _, _, _, _ => Ok (Some pin)
      end
  end.

(** The fields of a job a season-scoped quorum seed is checked by. *)
Record SeasonJob := {
  job_seed : option Z;
  seed_anchor_agent_id : option Z;
  job_seed_index : option Z;
  dataset_seed_block_hash : option string;
  job_bench_version : option Z
}.

Definition _season_seed_matches (job : SeasonJob) : result bool :=
  match job_seed job, seed_anchor_agent_id job, job_seed_index job,
        dataset_seed_block_hash job with
  | Some seed, Some anchor, Some index, Some block_hash =>
      if bool_decide (block_hash = "") then Ok false else
      match job_bench_version job with
      | Some version =>
          if negb (crn_block_binding_active version) then Ok false else
          crn_seed [uuid_text anchor] version index (Some block_hash) ≫= λ expected,
          Ok (expected =? seed)
      | None => Ok false
      end
  | _, _, _, _ => Ok false
  end.
End derivation.

(** * The hashed message names the comparison *)

Definition plain (s : string) : Prop := all_chars (λ c, negb (Ascii.eqb c Ascii.zero)) s = true.
Definition plain_block (b : option string) : Prop :=
  match b with Some h => plain (normalize_block_hash h) | None => True end.

(** Texts with a NUL between each two. *)
Fixpoint join_nul (l : list string) : string :=
  match l with
  | [] => EmptyString
  | [x] => x
  | x :: l' => x +:+ nul +:+ join_nul l'
  end.

Lemma join_nul_cons x l : l ≠ [] → join_nul (x :: l) = x +:+ nul +:+ join_nul l.
Proof. by destruct l. Qed.

Lemma join_nul_inj l l' : l ≠ [] → l' ≠ [] → Forall plain l → Forall plain l' →
  join_nul l = join_nul l' → l = l'.
Proof.
  revert l'. induction l as [|x l IH]; intros [|x' l'] Hne Hne' Hl Hl' E; try done.
  apply Forall_cons in Hl as [Hx Hl], Hl' as [Hx' Hl'].
  set (r := match l with [] => "" | _ => nul +:+ join_nul l end).
  set (r' := match l' with [] => "" | _ => nul +:+ join_nul l' end).
  assert (x +:+ r = x' +:+ r') as E'.
  { subst r r'. destruct l, l'; cbn [join_nul] in E |- *; by rewrite ?str_app_nil_r. }
  apply (span_inj (λ c, negb (Ascii.eqb c Ascii.zero))) in E' as [-> Er]; [|done|done| |].
  - f_equal. subst r r'. destruct l as [|y l], l' as [|y' l']; try done.
    apply IH; try done. by injection Er.
  - subst r. by destruct l; intros c t [= <- _].
  - subst r'. by destruct l'; intros c t [= <- _].
Qed.

Lemma plain_number (i : Z) : plain (pretty i).
Proof.
  destruct (pretty_Z_chars i) as [H _]. unfold plain.
  induction (pretty i : string) as [|c s IH]; [done|].
  cbn [all_chars] in *. apply andb_true_iff in H as [Hc Hs]. rewrite (IH Hs), andb_true_r.
  by destruct c as [[] [] [] [] [] [] [] []].
Qed.

Definition starts_number (s : string) : bool :=
  match s with String c _ => number_char c | EmptyString => false end.

Lemma number_starts (i : Z) : starts_number (pretty i) = true.
Proof.
  destruct (pretty_Z_chars i) as [H Hne]. destruct (pretty i : string) as [|c s]; [done|].
  by apply andb_true_iff in H as [Hc _].
Qed.

(** The parts of a message after the agents. *)
Definition tags (k : Z) (block : option string) : list string :=
  (if 0 <? k then ["k" +:+ pretty k] else []) ++
  match block with Some h => ["block" +:+ normalize_block_hash h] | None => [] end.
Definition message_tail (version k : Z) (block : option string) : list string :=
  pretty version :: tags k block.

Lemma ids_join ids x l :
  foldr (λ aid rest, aid +:+ nul +:+ rest) "" ids +:+ join_nul (x :: l) = join_nul (ids ++ x :: l).
Proof.
  induction ids as [|a ids IH]; [done|]. cbn [foldr app]. rewrite (join_nul_cons a) by by destruct ids.
  by rewrite <- IH, !string_app_assoc.
Qed.

Lemma crn_message_join ids version k block m : crn_message ids version k block = Ok m →
  m = join_nul (py_sorted str_cmp ids ++ message_tail version k block).
Proof.
  unfold crn_message, message_tail, tags. rewrite <- ids_join. intros H.
  assert (∀ t, join_nul (pretty version :: (if 0 <? k then ["k" +:+ pretty k] else []) ++ t) =
    pretty version +:+ (if 0 <? k then nul +:+ "k" +:+ pretty k else "") +:+
    match t with [] => "" | _ => nul +:+ join_nul t end) as ->.
  { intros t. destruct (0 <? k), t; cbn [join_nul app]; by rewrite ?str_app_nil_r, ?string_app_assoc. }
  destruct block as [h|]; [inv_ok H|injection H as <-]; by rewrite ?str_app_nil_r.
Qed.

Lemma tail_plain version k block : plain_block block → Forall plain (message_tail version k block).
Proof.
  intros Hb. unfold message_tail, tags. constructor; [apply plain_number|]. apply Forall_app. split.
  - destruct (0 <? k); [|done]. constructor; [apply (plain_number k)|done].
  - destruct block; [|done]. by constructor.
Qed.

(** The agents end where the last number stands: no tag begins with one. *)
Lemma last_number_inj (xs xs' t t' : list string) n n' :
  starts_number n = true → starts_number n' = true →
  Forall (λ s, starts_number s = false) t → Forall (λ s, starts_number s = false) t' →
  xs ++ n :: t = xs' ++ n' :: t' → xs = xs' ∧ n = n' ∧ t = t'.
Proof.
  intros Hn Hn' Ht Ht'. revert xs'. induction xs as [|x xs IH]; intros [|x' xs'] E; cbn [app] in E.
  - by injection E as -> ->.
  - injection E as -> ->. apply Forall_app in Ht as [_ Ht]. apply Forall_cons in Ht as [Ht _]. congruence.
  - injection E as -> <-. apply Forall_app in Ht' as [_ Ht']. apply Forall_cons in Ht' as [Ht' _]. congruence.
  - injection E as -> E. by destruct (IH xs' E) as (-> & -> & ->).
Qed.

Lemma tags_untagged k b : Forall (λ s, starts_number s = false) (tags k b).
Proof.
  apply Forall_app. split; [by destruct (0 <? k); repeat constructor|].
  by destruct b; repeat constructor.
Qed.

Lemma tags_inj k k' b b' : 0 <= k → 0 <= k' → tags k b = tags k' b' →
  k = k' ∧ normalize_block_hash <$> b = normalize_block_hash <$> b'.
Proof.
  unfold tags. intros Hk Hk' E.
  destruct (Z.ltb_spec 0 k), (Z.ltb_spec 0 k'), b as [h|], b' as [h'|]; try discriminate E; cbn [app] in E;
    try (injection E as E1 E2); try (injection E as E1);
    split; try lia; try done; try (by apply (inj pretty)); by cbn; f_equal.
Qed.

(** Distinct comparisons are hashed under distinct messages. The agents,
    up to their order, the version, the replicate and the normalised block of a
    seed can all be read back from the bytes its hash is fed, provided no agent
    id holds a NUL: so no two comparisons, replicates or reigns share a seed
    except by a collision of the truncated hash, and no legacy seed is a bound
    one by construction. *)
Lemma crn_message_injective ids ids' v v' k k' b b' m :
  Forall plain ids → Forall plain ids' → plain_block b → plain_block b' → 0 <= k → 0 <= k' →
  crn_message ids v k b = Ok m → crn_message ids' v' k' b' = Ok m →
  ids ≡ₚ ids' ∧ v = v' ∧ k = k' ∧ normalize_block_hash <$> b = normalize_block_hash <$> b'.
Proof.
  intros Hi Hi' Hb Hb' Hk Hk' H%crn_message_join H'%crn_message_join. rewrite H in H'.
  assert (∀ l v k b, Forall plain l → plain_block b →
    Forall plain (py_sorted str_cmp l ++ message_tail v k b)) as Hp.
  { intros l w i c Hl Hc. apply Forall_app. split; [by rewrite py_sorted_perm|by apply tail_plain]. }
  assert (∀ (l : list string) w i c, l ++ message_tail w i c ≠ []) as Hne by by intros [].
  apply join_nul_inj in H'; auto.
  apply last_number_inj in H' as (Es & Ev & Et); auto using number_starts, tags_untagged.
  apply tags_inj in Et as [-> Eb]; [|done..]. apply (inj pretty) in Ev as ->.
  split; [|done]. by rewrite <- (py_sorted_perm str_cmp ids), Es, py_sorted_perm.
Qed.

(** * Families *)

Lemma mapM_Ok {A B} (f : A → result B) l k : mapM f l = Ok k ↔ Forall2 (λ x y, f x = Ok y) l k.
Proof.
  revert k. induction l as [|x l IH]; intros k; cbn.
  - split; [intros [= <-]; constructor|by intros ->%Forall2_nil_inv_l].
  - split.
    + intros H. apply bind_Ok in H as (y & Hy & H). apply bind_Ok in H as (t & Ht & [= <-]).
      constructor; [done|by apply IH].
    + intros (y & t & Hy & Ht & ->)%Forall2_cons_inv_l. apply IH in Ht. by rewrite Hy; cbn; rewrite Ht.
Qed.

Lemma elem_of_range k n : k ∈ range n ↔ 0 <= k < n.
Proof.
  unfold range. rewrite list_elem_of_fmap. setoid_rewrite elem_of_seq. split.
  - intros (i & -> & H). lia.
  - intros H. exists (Z.to_nat k). lia.
Qed.

Section families.
Context {SH : Sha256}.

Lemma family_elem ids version count block family seed :
  confirmation_seeds ids version count block = Ok family →
  seed ∈ family ↔ ∃ k, 0 <= k < Z.max 1 count ∧ crn_seed ids version k block = Ok seed.
Proof.
  intros H%mapM_Ok. split.
  - intros [i Hi]%list_elem_of_lookup. destruct (Forall2_lookup_r _ _ _ _ _ H Hi) as (k & Hk & E).
    exists k. split; [|done]. by apply list_elem_of_lookup_2, elem_of_range in Hk.
  - intros (k & Hk & E). apply elem_of_range, list_elem_of_lookup in Hk as [i Hi].
    destruct (Forall2_lookup_l _ _ _ _ _ H Hi) as (s & Hs & E'). rewrite E in E'. injection E' as <-.
    by apply list_elem_of_lookup_2 in Hs.
Qed.

Lemma family_length ids version count block family :
  confirmation_seeds ids version count block = Ok family → Z.of_nat (length family) = Z.max 1 count.
Proof.
  intros H%mapM_Ok%Forall2_length. rewrite <- H. unfold range. rewrite length_fmap, length_seq. lia.
Qed.

(** A shallower family is part of a deeper one. *)
Lemma family_deeper ids version count count' block family family' :
  confirmation_seeds ids version count block = Ok family →
  confirmation_seeds ids version count' block = Ok family' → count <= count' → family ⊆ family'.
Proof.
  intros H H' Hle seed. rewrite (family_elem _ _ _ _ _ _ H), (family_elem _ _ _ _ _ _ H').
  intros (k & Hk & E). exists k. split; [lia|done].
Qed.

(** A hash that a derivation accepts. *)
Definition usable_hash (h : string) : bool :=
  negb (bool_decide (normalize_block_hash h = "")) && ascii_text (normalize_block_hash h).

Lemma crn_seed_total ids version k block :
  (∀ h, block = Some h → usable_hash h = true) → ∃ s, crn_seed ids version k block = Ok s.
Proof.
  intros H. unfold crn_seed, crn_message. destruct block as [h|]; [|by eexists].
  specialize (H h eq_refl). apply andb_true_iff in H as [H1 H2].
  rewrite (require_true _ _ H1). cbn. rewrite (require_true _ _ H2). by eexists.
Qed.

Lemma family_total ids version count block :
  (∀ h, block = Some h → usable_hash h = true) → ∃ l, confirmation_seeds ids version count block = Ok l.
Proof.
  intros H. unfold confirmation_seeds. induction (range _) as [|k ks [l IH]]; [by eexists|].
  destruct (crn_seed_total ids version k block H) as [s Hs]. exists (s :: l). cbn. by rewrite Hs; cbn; rewrite IH.
Qed.

Lemma crn_seed_range ids version k block s : crn_seed ids version k block = Ok s → 0 <= s < 2 ^ 63.
Proof.
  unfold crn_seed. intros H. apply bind_Ok in H as (m & _ & [= <-]).
  change _INT63_MASK with (Z.ones 63). rewrite Z.land_ones by lia. apply Z.mod_pos_bound. lia.
Qed.

(** * Bindings *)

(** What a binding says of a seed. *)
Definition binds (anchors : list ReignSeedAnchor) (seed version max_seeds : Z) (b : SeedBinding) : Prop :=
  ∃ a h, a ∈ anchors ∧ anchor_block_hash a = Some h ∧ anchor_bench_version a = version ∧
    b = {| anchor_agent_id := champion_agent_id a; seed_index := seed_index b;
           seed_block := anchor_block a; seed_block_hash := h |} ∧
    0 <= seed_index b < Z.max 1 max_seeds ∧
    crn_seed [uuid_text (champion_agent_id a)] version (seed_index b) (Some h) = Ok seed.

Lemma bind_sound anchors seed version max_seeds b :
  bind_in anchors seed version max_seeds = Ok (Some b) → binds anchors seed version max_seeds b.
Proof.
  assert (∀ a l, binds l seed version max_seeds b → binds (a :: l) seed version max_seeds b) as Hcons.
  { intros a l (a' & h & Ha & H). exists a', h. split; [by right|done]. }
  induction anchors as [|a anchors IH]; cbn; [done|].
  destruct (anchor_block_hash a) as [h|] eqn:Eh; [|by intros H; apply Hcons, IH].
  destruct (Z.eqb_spec (anchor_bench_version a) version) as [Ev|]; cbn; [|by intros H; apply Hcons, IH].
  intros H. apply bind_Ok in H as (family & Hf & H).
  destruct (list_find _ family) as [[i s]|] eqn:Ef; [|by apply Hcons, IH].
  injection H as <-. apply list_find_Some in Ef as (Hi & -> & _). apply mapM_Ok in Hf.
  destruct (Forall2_lookup_r _ _ _ _ _ Hf Hi) as (k & Hk & E).
  pose proof Hk as Hr%list_elem_of_lookup_2%elem_of_range. unfold range in Hk.
  rewrite list_lookup_fmap in Hk. destruct (seq _ _ !! i) as [n|] eqn:En; [|done].
  apply lookup_seq in En as [-> _]. injection Hk as <-. cbn in Hr.
  exists a, h. cbn. split; [by left|]. done.
Qed.

Lemma bind_complete anchors seed version max_seeds a h family r :
  a ∈ anchors → anchor_block_hash a = Some h → anchor_bench_version a = version →
  champion_anchored_seeds (champion_agent_id a) version max_seeds (Some h) = Ok family → seed ∈ family →
  bind_in anchors seed version max_seeds = Ok r → is_Some r.
Proof.
  intros Ha Eh Ev Hf Hs. induction anchors as [|a' anchors IH]; [by apply elem_of_nil in Ha|]. cbn.
  apply elem_of_cons in Ha as [<-|Ha].
  - rewrite Eh, Ev, Z.eqb_refl. cbn. rewrite Hf. cbn.
    destruct (list_find_elem_of (λ s, s = seed) family seed Hs eq_refl) as [[i s] ->]. by intros [= <-].
  - destruct (anchor_block_hash a') as [h'|]; [|by apply IH].
    destruct (negb _); [by apply IH|]. intros H. apply bind_Ok in H as (family' & _ & H).
    destruct (list_find _ family') as [[i s]|]; [by injection H as <-|by apply IH].
Qed.

Lemma bind_total anchors seed version max_seeds :
  Forall (λ a, ∀ h, anchor_block_hash a = Some h → usable_hash h = true) anchors →
  ∃ r, bind_confirmation_seed anchors seed version max_seeds = Ok r.
Proof.
  intros H. unfold bind_confirmation_seed. destruct (negb _); [by eexists|].
  induction H as [|a anchors Ha _ IH]; [by eexists|]. cbn. destruct (anchor_block_hash a) as [h|]; [|done].
  destruct (negb _); [done|].
  destruct (family_total [uuid_text (champion_agent_id a)] version max_seeds (Some h)) as [l Hl].
  { intros h' [= <-]. by apply Ha. }
  unfold champion_anchored_seeds. rewrite Hl. cbn. destruct (list_find _ l) as [[i s]|]; [by eexists|done].
Qed.

(** The pin the platform puts on a lease passes the check of the validator. *)
Lemma pin_accepted anchors seed version max_seeds r sha size :
  bind_confirmation_seed anchors seed version max_seeds = Ok r →
  _confirmation_pin_binding_mismatch [lease_pin seed sha size r] (Some version) = Ok None.
Proof.
  unfold bind_confirmation_seed. destruct (negb _); [by intros [= <-]|].
  destruct r as [b|]; [|done]. intros (a & h & _ & _ & _ & -> & _ & E)%bind_sound. cbn in *.
  rewrite E. cbn. by rewrite Z.eqb_refl.
Qed.
End families.

(** * Concrete instances *)

(** A digest that spreads its text over the leading bytes. *)
Definition sample_digest : Sha256 := λ text,
  hex_text 64 (foldl (λ acc c, (acc * 31 + code c) mod 2 ^ 61) 7 (String.list_ascii_of_string text) * 16 ^ 48).

Lemma crn_message_injective_witness : Forall plain ["ab"; "cd"] ∧ ["cd"; "ab"] ≡ₚ ["ab"; "cd"].
Proof.
  split; [repeat constructor|].
  destruct (crn_message ["ab"; "cd"] 13 2 (Some "0xAB")) as [m|] eqn:E; [|vm_compute in E; discriminate E].
  apply (crn_message_injective ["cd"; "ab"] ["ab"; "cd"] 13 13 2 2 (Some "ab") (Some "0xAB") m);
    [repeat constructor..|lia|lia| |exact E].
  rewrite <- E. vm_compute. reflexivity.
Defined.
