(* ===== verification/SeedPlan.v ===== *)
(** Which seeds a continual retest runs: the platform's target set and planner
    ([apps/platform/ditto/api_server/crn.py], [retest_wave_window.py],
    [season_duel.py], [db/queries/confirmation_scores.py] and
    [_top5_confirmation_seed_plan] of [endpoints/validator.py]), and the planner
    of the validators ([top5_confirmation_set] of [ditto/validator/weights.py]).

    A dictionary is an association list in insertion order, since the order of
    its values is the order of the floating point sums; a set of seeds is a
    [gset].  What a planner reads from the database is an argument. *)
From Stdlib Require Import ZArith Lia.
From stdpp Require Import base list gmap strings sorting.
From S2P Require Import Prelude Binary64 Dueling Ledger Crown KothFold PyText SeedFamily.

#[local] Open Scope string_scope.
#[local] Open Scope list_scope.
#[local] Open Scope Z_scope.

(** [dict.fromkeys(l)]: the elements in order of first appearance. *)
Definition from_keys (l : list Z) : list Z := (dict_of ((λ x, (x, tt)) <$> l)).*1.
(** [d.get(k, {})] and [d.get(k, ())] *)
Definition get_list {A} (k : Z) (d : list (Z * list A)) : list A := default [] (dict_get k d).

(** * The variance-sized target *)

(** The platform's copy and the validators' are modelled apart, each from its own
    text; [SeedFacts] compares them. *)

(** [math.ceil(x)] *)
Definition math_ceil (x : F64) : result Z :=
  match x with
  | Fin a => Ok (- (- a / f64_one))
  | NaN => Err (ValueError "cannot convert float NaN to integer")
  | _ => Err (OverflowError "cannot convert float infinity to integer")
  end.

Section targets.
Context {L : Libm} {SH : Sha256}.

(** [x ** 2], which raises where a finite square overflows. *)
Definition pow2 (x : F64) : result F64 :=
  let y := libm_sq x in
  require (negb (isfinite x) || isfinite y) (OverflowError "(34, 'Numerical result out of range')");;
  Ok y.

Definition sample_variance (values : list F64) : result F64 :=
  let n := Z.of_nat (length values) in
  let mean := fdiv (py_sum values) (of_int n) in
  mapM (λ value, pow2 (fsub value mean)) values ≫= λ squares,
  Ok (fdiv (py_sum squares) (of_int (n - 1))).

(** The largest variance of the samples with two values, and whether any had. *)
Fixpoint max_variance (samples : list (list F64)) (acc : F64 * bool) : result (F64 * bool) :=
  match samples with
  | [] => Ok acc
  | values :: rest =>
      if (length values <? 2)%nat then max_variance rest acc
      else sample_variance values ≫= λ variance, max_variance rest (py_max acc.1 variance, true)
  end.

(** The seeds needed for the largest variance, between [floor] and [cap]. *)
Definition required_seeds (samples : list (list F64)) (half_width z : F64) (floor cap : Z) : result Z :=
  max_variance samples (zero, false) ≫= λ '(variance, measured),
  if negb measured then Ok floor else
  pow2 (fdiv z half_width) ≫= λ ratio,
  math_ceil (fmul variance ratio) ≫= λ required,
  Ok (Z.min cap (Z.max floor required)).

(** The platform's ceiling, over one dictionary of composites per agent. *)
Definition elastic_confirmation_seed_ceiling (composites_by_agent : list (Z * list (Z * F64)))
    (minimum maximum : Z) (target_half_width z : F64) : result Z :=
  let floor := Z.max 2 minimum in
  let cap := Z.max floor maximum in
  if fleb target_half_width zero || fleb z zero then Ok cap else
  required_seeds ((λ ac, filter (λ v, unit_interval v = true) ac.2.*2) <$> composites_by_agent)
    target_half_width z floor cap.

(** * The platform's target set *)

(** [coverage[seed] = coverage.get(seed, 0) + 1] *)
Definition cover (coverage : list (Z * Z)) (seed : Z) : list (Z * Z) :=
  dict_set seed (default 0 (dict_get seed coverage) + 1) coverage.
Definition coverage_of (seed_lists : list (list Z)) : list (Z * Z) := foldl cover [] (concat seed_lists).

(** Most shared first, then the order of the anchor, then the seed. *)
Definition target_cmp (coverage anchor_order : list (Z * Z)) (ceiling : Z) : Z → Z → comparison :=
  cmp_then (cmp_desc (cmp_by Z.compare (λ s, default 0 (dict_get s coverage))))
    (cmp_then (cmp_by Z.compare (λ s, default ceiling (dict_get s anchor_order))) Z.compare).

Fixpoint fill_targets (ceiling : Z) (anchor targets : list Z) : list Z :=
  match anchor with
  | [] => targets
  | seed :: rest =>
      if bool_decide (seed ∈ targets) then fill_targets ceiling rest targets
      else let targets := targets ++ [seed] in
           if Z.of_nat (length targets) =? ceiling then targets
           else fill_targets ceiling rest targets
  end.

Definition continual_targets (anchor : list Z) (seed_lists : list (list Z)) (ceiling : Z) : list Z :=
  let anchor_order := dict_of (imap (λ index seed, (seed, Z.of_nat index)) anchor) in
  let coverage := coverage_of seed_lists in
  let targets := take (Z.to_nat ceiling) (py_sorted (target_cmp coverage anchor_order ceiling) coverage.*1) in
  if Z.of_nat (length targets) <? ceiling then fill_targets ceiling anchor targets else targets.

(** The champion's family, or nothing while no fresh seed may be drawn. *)
Definition fresh_anchor (champion version ceiling : Z) (p : Planning) : result (list Z) :=
  if p.2 then champion_anchored_seeds champion version ceiling p.1 else Ok [].

Definition PLATFORM_MAX_CONFIRMATION_SEEDS : Z := 10.

Definition bounded_continual_seed_set (champion_agent_id version : Z)
    (composites_by_agent : list (Z * list (Z * F64))) (p : Planning) : result (list Z) :=
  elastic_confirmation_seed_ceiling composites_by_agent TOP5_MIN_CONFIRMATION_SEEDS
    PLATFORM_MAX_CONFIRMATION_SEEDS Koth.KOTH_MARGIN Koth.KOTH_DETHRONE_Z ≫= λ ceiling,
  fresh_anchor champion_agent_id version ceiling p ≫= λ anchor,
  Ok (continual_targets anchor ((λ ac, ac.2.*1) <$> composites_by_agent) ceiling).

(** ** The validators' target *)

(** The loop over the entries: the largest variance, and whether any entry had
    two seeds. *)
Fixpoint entries_variance (entries : list LedgerEntry) (max_variance : F64) (measured : bool)
    : result (F64 * bool) :=
  match entries with
  | [] => Ok (max_variance, measured)
  | entry :: rest =>
      match _entry_seed_composites entry None with
      | None => entries_variance rest max_variance measured
      | Some history =>
          if (length history <? 2)%nat then entries_variance rest max_variance measured else
          let values := history.*2 in
          let size := Z.of_nat (length values) in
          let mean := fdiv (py_sum values) (of_int size) in
          mapM (λ value, pow2 (fsub value mean)) values ≫= λ squares,
          let variance := fdiv (py_sum squares) (of_int (size - 1)) in
          entries_variance rest (py_max max_variance variance) true
      end
  end.

Definition _elastic_confirmation_seed_ceiling (entries : list LedgerEntry) (margin z : F64)
    (maximum : Z) : result Z :=
  let floor := Z.max 2 TOP5_MIN_CONFIRMATION_SEEDS in
  let cap := Z.max floor maximum in
  if fleb margin zero || fleb z zero then Ok cap else
  entries_variance entries zero false ≫= λ '(max_variance, measured),
  if measured : bool then
    pow2 (fdiv z margin) ≫= λ ratio,
    math_ceil (fmul max_variance ratio) ≫= λ required,
    Ok (Z.min cap (Z.max floor required))
  else Ok floor.

(** [for seed in history: coverage[seed] = coverage.get(seed, 0) + 1] *)
Definition cover_entry (coverage : list (Z * Z)) (entry : LedgerEntry) : list (Z * Z) :=
  let history := default [] (_entry_seed_composites entry None) in
  foldl (λ coverage seed, dict_set seed (default 0 (dict_get seed coverage) + 1) coverage)
    coverage history.*1.

(** The loop that fills [targets] from the anchor, with the set [selected]. *)
Fixpoint fill_fresh (ceiling : Z) (anchor targets : list Z) (selected : gset Z) : list Z :=
  match anchor with
  | [] => targets
  | seed :: rest =>
      if bool_decide (seed ∈ selected) then fill_fresh ceiling rest targets selected else
      let targets := targets ++ [seed] in
      let selected := {[seed]} ∪ selected in
      if Z.of_nat (length targets) =? ceiling then targets
      else fill_fresh ceiling rest targets selected
  end.

Definition _bounded_continual_seed_set (champion : LedgerEntry) (entries : list LedgerEntry)
    (current_version ceiling : Z) (p : Planning) : result (list Z) :=
  let '(block_hash, allow_fresh_seeds) := p in
  (if allow_fresh_seeds : bool
   then confirmation_seeds [uuid_text (agent_id champion)] current_version ceiling block_hash
   else Ok []) ≫= λ anchor,
  let anchor_order := dict_of (imap (λ index seed, (seed, Z.of_nat index)) anchor) in
  let coverage := foldl cover_entry [] entries in
  let sort_key := cmp_then (cmp_by Z.compare (λ seed, - default 0 (dict_get seed coverage)))
    (cmp_then (cmp_by Z.compare (λ seed, default ceiling (dict_get seed anchor_order))) Z.compare) in
  let targets := take (Z.to_nat ceiling) (py_sorted sort_key coverage.*1) in
  Ok (if Z.of_nat (length targets) <? ceiling
      then fill_fresh ceiling anchor targets (list_to_set targets) else targets).

(** ** The window of the fold *)

Definition active_confirmation_seed_set (seeds_by_agent : list (Z * list Z)) (max_seeds : Z) : list Z :=
  let coverage := coverage_of ((λ ss, from_keys ss.2) <$> seeds_by_agent) in
  take (Z.to_nat max_seeds)
    (py_sorted (cmp_then (cmp_desc (cmp_by Z.compare (λ s, default 0 (dict_get s coverage)))) Z.compare)
       coverage.*1).

Fixpoint extend_active (max_seeds : Z) (anchor active : list Z) : list Z :=
  match anchor with
  | [] => active
  | seed :: rest =>
      extend_active max_seeds rest
        (if negb (bool_decide (seed ∈ active)) && (Z.of_nat (length active) <? max_seeds)
         then active ++ [seed] else active)
  end.

Definition fold_seed_bound (champion_agent_id anchor_version : Z) (seeds_by_agent : list (Z * list Z))
    (max_seeds : Z) (p : Planning) : result (list Z) :=
  fresh_anchor champion_agent_id anchor_version max_seeds p ≫= λ anchor,
  Ok (extend_active max_seeds anchor (active_confirmation_seed_set seeds_by_agent max_seeds)).
End targets.

(** * Recorded evidence *)

(** A row of [confirmation_scores]; [row_voided] is whether a void names it. *)
Record ConfirmationScore := {
  row_agent : Z;
  row_version : Z;
  row_seed : Z;
  row_composite : F64;
  row_season : option Z;
  row_voided : bool
}.

Definition seed_composites : Type := list (Z * list (Z * F64)).

(** [grouped.setdefault(agent_id, {}).setdefault(seed, []).append(composite)] *)
Definition group_row (grouped : list (Z * list (Z * list F64))) (r : ConfirmationScore)
    : list (Z * list (Z * list F64)) :=
  let seeds := get_list (row_agent r) grouped in
  dict_set (row_agent r) (dict_set (row_seed r) (get_list (row_seed r) seeds ++ [row_composite r]) seeds)
    grouped.

Definition confirmation_composites_by_seed (in_scope : option Z → bool) (table : list ConfirmationScore)
    (agent_ids : list Z) (bench_version : Z) : seed_composites :=
  let rows := filter (λ r, row_agent r ∈ agent_ids ∧ row_version r = bench_version ∧
                row_voided r = false ∧ in_scope (row_season r) = true) table in
  (λ ag : Z * list (Z * list F64), (ag.1, prod_map id median <$> ag.2)) <$> foldl group_row [] rows.

Definition seeds_by_agent (history : seed_composites) : list (Z * list Z) :=
  (λ ac, (ac.1, ac.2.*1)) <$> history.

(** * Waves *)

Fixpoint common_seeds (members : list Z) (seeds : list (Z * list Z)) (common : option (gset Z)) : gset Z :=
  match members with
  | [] => default ∅ common
  | member :: rest =>
      let member_seeds : gset Z := list_to_set (get_list member seeds) in
      let common := match common with None => member_seeds | Some c => c ∩ member_seeds end in
      if bool_decide (common = ∅) then ∅ else common_seeds rest seeds (Some common)
  end.

Definition completed_confirmation_wave_seeds (member_ids : list Z) (seeds : list (Z * list Z)) : gset Z :=
  common_seeds (from_keys member_ids) seeds None.

Definition confirmation_catchup_seeds (member_id : Z) (peer_ids anchored_seeds : list Z)
    (seeds : list (Z * list Z)) : list Z :=
  let peers := filter (λ p, p ≠ member_id) (from_keys peer_ids) in
  let reached := concat ((λ p, get_list p seeds) <$> peers) in
  let held := get_list member_id seeds in
  filter (λ s, s ∈ reached ∧ s ∉ held) anchored_seeds.

Inductive WaveMembership := strict | participants | per_agent.

Definition held_in (own : list (Z * gset Z)) (agent : Z) : gset Z := default ∅ (dict_get agent own).

(** The seeds of the anchor, or all of them. *)
Definition in_anchor (anchored_seeds : option (list Z)) (held : list Z) : gset Z :=
  match anchored_seeds with
  | None => list_to_set held
  | Some anchor => list_to_set held ∩ list_to_set anchor
  end.

(** The members that share a seed with another. *)
Definition overlapping (own : list (Z * gset Z)) (members : list Z) : list Z :=
  filter (λ m, held_in own m ∩ ⋃ (held_in own <$> filter (λ o, o ≠ m) members) ≠ ∅) members.

Definition fold_eligible_seeds_by_agent (member_ids : list Z) (seeds : list (Z * list Z))
    (mode : WaveMembership) (anchored_seeds : option (list Z)) : list (Z * gset Z) :=
  let own := (λ ss : Z * list Z, (ss.1, in_anchor anchored_seeds ss.2)) <$> seeds in
  match mode with
  | per_agent => own
  | _ =>
      let members := from_keys member_ids in
      let members :=
        match mode with
        | participants =>
            let members := filter (λ m, held_in own m ≠ ∅) members in
            match overlapping own members with [] => members | shared => shared end
        | _ => members
        end in
      let shared := completed_confirmation_wave_seeds members ((λ ag : Z * gset Z, (ag.1, elements ag.2)) <$> own) in
      (λ ag : Z * gset Z, (ag.1, ag.2 ∩ shared)) <$> own
  end.

(** ** Pacing *)

Record WaveWindow := {
  cadence_tempos : Z;
  seeds_per_window : Z;
  latest_epoch : option Z;
  window_epoch : option Z;
  window_start : option Z
}.

Definition paced (w : WaveWindow) : bool :=
  (0 <? cadence_tempos w) && bool_decide (is_Some (window_start w)).

Definition seeds_opened_in_window (w : WaveWindow) (first_issue : list (Z * Z)) : list Z :=
  match window_start w with
  | None => []
  | Some start => (filter (λ si, start <= si.2) first_issue).*1
  end.

Definition growth_open (w : WaveWindow) (next_seed : Z) (first_issue : list (Z * Z)) : bool :=
  if negb (paced w) || bool_decide (next_seed ∈ first_issue.*1) then true
  else Z.of_nat (length (seeds_opened_in_window w first_issue)) <? seeds_per_window w.

(** ** Season duels *)

Section planner.
Context {L : Libm} {SH : Sha256}.

Definition season_duel_seeds (anchor_agent_id version count : Z) (p : Planning) : result (list Z) :=
  if negb p.2 then Ok [] else champion_anchored_seeds anchor_agent_id version count p.1.

Definition season_duel_owed (duel_seeds member_seeds : list Z) : list Z :=
  filter (λ s, s ∉ member_seeds) duel_seeds.

(** Live leases per member: the seed of each validator, [None] for a lease of
    the whole family. *)
Definition Leases : Type := list (string * option Z).

Definition season_duel_unserved (member_ids duel_seeds : list Z) (seeds : list (Z * list Z))
    (leases : list (Z * Leases)) : list Z :=
  filter (λ m, let owed := season_duel_owed duel_seeds (get_list m seeds) in
               let held := (get_list m leases).*2 in
               owed ≠ [] ∧ None ∉ held ∧ ¬ Forall (λ s, Some s ∈ held) owed)
    (from_keys member_ids).

(** * The planner *)

(** What [_top5_confirmation_seed_plan] reads: the score rows with the scope of
    the current season, the reign's anchor, whether the member sits the season
    out, and when the lane first saw a seed. *)
Record PlanReads := {
  score_rows : list ConfirmationScore;
  in_season : option Z → bool;
  reign_planning : Planning;
  entrant_excluded : bool;
  first_retest_issue_by_seed : Z → list (Z * Z)
}.

Definition read_history (db : PlanReads) (agent_ids : list Z) (version : Z) : seed_composites :=
  confirmation_composites_by_seed (in_season db) (score_rows db) agent_ids version.

(** The season's duel seeds a member still owes. *)
Definition duel_plan (db : PlanReads) (champion_agent_id member_agent_id canonical_version : Z)
    (p : Planning) (count : Z) (duel_history : option seed_composites) (pending_rotation : list Z)
    : result (list Z) :=
  if bool_decide (member_agent_id ∈ pending_rotation) || entrant_excluded db then Ok [] else
  let member_history :=
    match duel_history with
    | Some h => if bool_decide (member_agent_id ∈ h.*1) then h
                else read_history db [member_agent_id] canonical_version
    | None => read_history db [member_agent_id] canonical_version
    end in
  season_duel_seeds champion_agent_id canonical_version count p ≫= λ seeds,
  Ok (season_duel_owed seeds (get_list member_agent_id member_history).*1).

(** The backlog, then at most one seed of growth. *)
Definition wave_plan (db : PlanReads) (champion_agent_id member_agent_id : Z)
    (wave_member_ids cohort_member_ids : list Z) (canonical_version : Z) (p : Planning)
    (wave_window : option WaveWindow) : result (list Z) :=
  let cohort_ids := from_keys (cohort_member_ids ++ wave_member_ids) in
  let history := read_history db (from_keys (cohort_ids ++ [member_agent_id])) canonical_version in
  let wave_history := (λ a, (a, get_list a history)) <$> from_keys wave_member_ids in
  bounded_continual_seed_set champion_agent_id canonical_version wave_history p ≫= λ target_seeds,
  let seeds := seeds_by_agent history in
  let catchup := confirmation_catchup_seeds member_agent_id cohort_ids target_seeds seeds in
  let completed := completed_confirmation_wave_seeds wave_member_ids seeds in
  match head (filter (λ s, s ∉ completed) target_seeds) with
  | None => Ok catchup
  | Some next_seed =>
      if bool_decide (next_seed ∈ get_list member_agent_id seeds) || bool_decide (next_seed ∈ catchup)
      then Ok catchup else
      match wave_window with
      | Some w =>
          if paced w && negb (growth_open w next_seed (first_retest_issue_by_seed db next_seed))
          then Ok catchup else Ok (catchup ++ [next_seed])
      | None => Ok (catchup ++ [next_seed])
      end
  end.

Definition _top5_confirmation_seed_plan (db : PlanReads) (champion_agent_id member_agent_id : Z)
    (wave_member_ids cohort_member_ids : list Z) (canonical_version : Z)
    (seed_planning : option Planning) (wave_window : option WaveWindow) (duel_seed_count : option Z)
    (duel_history : option seed_composites) (pending_rotation : list Z) : result (list Z) :=
  let p := default (reign_planning db) seed_planning in
  match duel_seed_count with
  | Some count => duel_plan db champion_agent_id member_agent_id canonical_version p count
                    duel_history pending_rotation
  | None => wave_plan db champion_agent_id member_agent_id wave_member_ids cohort_member_ids
              canonical_version p wave_window
  end.

(** The pending seed a validator may run. *)
Definition _claimable_confirmation_seed (seeds : list Z) (leases : Leases) (validator_hotkey : string)
    : option Z :=
  match dict_get validator_hotkey leases with
  | Some (Some own) => Some own
  | Some None => head seeds
  | None =>
      if bool_decide (None ∈ leases.*2) then None
      else head (filter (λ s, Some s ∉ leases.*2) seeds)
  end.

(** * The planner of the validators *)

(** A pin of [LedgerResponse.confirmation_seed_anchors]. *)
Record ConfirmationSeedAnchorPin := {
  wire_champion_agent_id : Z;
  wire_bench_version : Z;
  wire_anchor_block : Z;
  wire_anchor_block_hash : string
}.

Definition reign_seed_planning (anchors : list ConfirmationSeedAnchorPin)
    (champion_agent_id version : Z) : Planning :=
  if negb (crn_block_binding_active version) then (None, true) else
  match List.find (λ a, (wire_champion_agent_id a =? champion_agent_id) &&
          (wire_bench_version a =? version) && negb (bool_decide (wire_anchor_block_hash a = ""))) anchors with
  | Some a => (Some (wire_anchor_block_hash a), true)
  | None => (None, false)
  end.

Definition version_seed_planning (anchors : list ConfirmationSeedAnchorPin) (version : Z) : Planning :=
  if negb (crn_block_binding_active version) then (None, true) else
  match List.find (λ a, (wire_bench_version a =? version) &&
          negb (bool_decide (wire_anchor_block_hash a = ""))) anchors with
  | Some a => (Some (wire_anchor_block_hash a), true)
  | None => (None, false)
  end.

Record Top5Member := {
  entry : LedgerEntry;
  seeds_to_score : list Z
}.

Record Top5ConfirmationPlan := {
  plan_champion : LedgerEntry;
  anchor_seeds : list Z;
  plan_members : list Top5Member;
  emission_member_ids : gset Z
}.

Definition recorded_seeds (e : LedgerEntry) : list Z := (default [] (_entry_seed_composites e None)).*1.

(** How many of the leading seeds are recorded. *)
Fixpoint covered_prefix (held full : list Z) : Z :=
  match full with
  | seed :: rest => if bool_decide (seed ∈ held) then 1 + covered_prefix held rest else 0
  | [] => 0
  end.

(** What a member still owes of the anchor, or nothing. *)
Definition member_work (champion member : LedgerEntry) (anchor : list Z) (target_depth catch_up_rate : Z)
    : option Top5Member :=
  let held := recorded_seeds member in
  let missing := filter (λ s, s ∉ held) anchor in
  match missing with
  | [] => None
  | _ =>
      let depth := Z.of_nat (length (filter (λ s, s ∈ held) anchor)) in
      Some {| entry := member;
              seeds_to_score :=
                if (agent_id member =? agent_id champion) || (target_depth - 1 <=? depth) then missing
                else take (Z.to_nat (Z.max 1 catch_up_rate)) missing |}
  end.

(** [tail_size] is the consensus constant, never negative. *)
Definition top5_confirmation_set (p : FoldParams) (entries : list LedgerEntry)
    (current_version tail_size baseline_seeds max_seeds catch_up_rate : Z) (cohort_size : option Z)
    (max_cohort_size : Z) (anchors : list ConfirmationSeedAnchorPin) : result (option Top5ConfirmationPlan) :=
  let scored := filter (λ e, fgtb (_effective_composite e) zero &&
                             (_entry_version e =? current_version) = true) entries in
  match _champion p None None scored with
  | None => Ok None
  | Some champion =>
      let requested := match cohort_size with None => tail_size | Some c => c - 1 end in
      let cohort_tail := Z.min (Z.max requested tail_size) (Z.max 1 max_cohort_size - 1) in
      let members := champion :: _tail scored champion cohort_tail false in
      let emission_members := take (Z.to_nat (tail_size + 1)) members in
      _elastic_confirmation_seed_ceiling emission_members (margin p) (dethrone_z p) max_seeds ≫= λ cap,
      _bounded_continual_seed_set champion emission_members current_version cap
        (reign_seed_planning anchors (agent_id champion) current_version) ≫= λ full,
      let covered := covered_prefix (recorded_seeds champion) full in
      let target_depth := Z.min cap (Z.max (covered + 1) baseline_seeds) in
      let anchor := take (Z.to_nat target_depth) full in
      match omap (λ m, member_work champion m anchor target_depth catch_up_rate) members with
      | [] => Ok None
      | planned => Ok (Some {| plan_champion := champion; anchor_seeds := anchor; plan_members := planned;
                               emission_member_ids := list_to_set (agent_id <$> emission_members) |})
      end
  end.
End planner.
