(* ===== verification/SeedFacts.v ===== *)
(** What the planners of continual retests guarantee: the target set is bounded
    and made of recorded or champion-anchored seeds, the platform's target is
    the validators', a fresh seed is always one the validator can derive again,
    and a plan holds what a member owes and nothing it has. *)
From Stdlib Require Import ZArith Lia.
From stdpp Require Import base list gmap strings sorting.
From S2P Require Import Prelude Binary64 Dueling Ledger Crown KothFold KothMirror PyText SeedFamily SeedPlan.

#[local] Open Scope string_scope.
#[local] Open Scope list_scope.
#[local] Open Scope Z_scope.

(** * Dictionaries of lists *)

Lemma elem_of_from_keys x l : x ∈ from_keys l ↔ x ∈ l.
Proof.
  unfold from_keys. rewrite elem_of_keys_dict_of. rewrite <- list_fmap_compose.
  change (fst ∘ (λ x : Z, (x, tt))) with (@id Z). by rewrite list_fmap_id.
Qed.

Lemma NoDup_from_keys l : NoDup (from_keys l).
Proof. apply NoDup_dict_of. Qed.

Lemma get_list_fmap {A B} (f : list A → list B) k (d : list (Z * list A)) : f [] = [] →
  get_list k ((λ kv, (kv.1, f kv.2)) <$> d) = f (get_list k d).
Proof.
  intros Hf. unfold get_list. induction d as [|[k' v] d IH]; [done|]. cbn. by case_decide.
Qed.

Lemma get_list_set {A} k v (d : list (Z * list A)) k' :
  get_list k' (dict_set k v d) = if decide (k' = k) then v else get_list k' d.
Proof. unfold get_list. rewrite dict_get_set. by case_decide. Qed.

Lemma get_list_self {A} (f : Z → list A) k (l : list Z) :
  k ∈ l → get_list k ((λ a, (a, f a)) <$> l) = f k.
Proof.
  unfold get_list. induction l as [|a l IH]; [by intros ?%elem_of_nil|]. intros Hk. cbn.
  case_decide as E; [by subst|]. apply IH. by apply elem_of_cons in Hk as [|].
Qed.

Lemma elem_of_concat {A} (ls : list (list A)) x : x ∈ concat ls ↔ ∃ l, x ∈ l ∧ l ∈ ls.
Proof.
  rewrite list_elem_of_In, in_concat. setoid_rewrite list_elem_of_In. naive_solver.
Qed.

(** * The target set *)

Lemma coverage_keys ls s : s ∈ (coverage_of ls).*1 ↔ s ∈ concat ls.
Proof.
  unfold coverage_of. generalize (concat ls). intros l.
  assert (∀ l acc, s ∈ (foldl cover acc l).*1 ↔ s ∈ acc.*1 ∨ s ∈ l) as H.
  { clear. induction l as [|x l IH]; intros acc; cbn; [set_solver|].
    rewrite IH. unfold cover. rewrite elem_of_keys_dict_set. set_solver. }
  rewrite H. set_solver.
Qed.

Lemma coverage_NoDup ls : NoDup (coverage_of ls).*1.
Proof.
  unfold coverage_of. generalize (concat ls). intros l.
  assert (∀ acc, NoDup acc.*1 → NoDup (foldl cover acc l).*1) as H; [|apply H; constructor].
  induction l as [|x l IH]; intros acc Hacc; cbn; [done|]. by apply IH, NoDup_dict_set.
Qed.

Lemma fill_targets_spec ceiling anchor targets :
  NoDup targets → Z.of_nat (length targets) < ceiling →
  let full := fill_targets ceiling anchor targets in
  NoDup full ∧ targets ⊆ full ∧ full ⊆ targets ++ anchor ∧ Z.of_nat (length full) <= ceiling ∧
  (Z.of_nat (length full) = ceiling ∨ anchor ⊆ full).
Proof.
  revert targets. induction anchor as [|s anchor IH]; intros targets Hnd Hlen full; subst full; cbn [fill_targets].
  - split_and!; [done|done|by rewrite app_nil_r|lia|right; apply list_subseteq_nil].
  - case_bool_decide as Hs.
    + destruct (IH targets Hnd Hlen) as (H1 & H2 & H3 & H4 & H5).
      split_and!; [done|done| |done|].
      * intros x [Hx|Hx]%H3%elem_of_app; apply elem_of_app; [by left|right; by right].
      * destruct H5 as [|H5]; [by left|right]. intros x [->|Hx]%elem_of_cons; auto.
    + assert (NoDup (targets ++ [s])) as Hnd'.
      { apply NoDup_app; split_and!; [done| |apply NoDup_singleton]. by intros x Hx ->%list_elem_of_singleton. }
      assert (length (targets ++ [s]) = S (length targets)) as El by (rewrite length_app; cbn; lia).
      destruct (Z.eqb_spec (Z.of_nat (length (targets ++ [s]))) ceiling) as [E|E].
      * split_and!; [done|intros x Hx; apply elem_of_app; by left| |lia|by left].
        intros x [Hx|Hx]%elem_of_app; apply elem_of_app; [by left|right].
        apply list_elem_of_singleton in Hx as ->. by left.
      * destruct (IH (targets ++ [s]) Hnd' ltac:(lia)) as (H1 & H2 & H3 & H4 & H5).
        assert (s ∈ targets ++ [s]) as Hin by (apply elem_of_app; right; by left).
        split_and!; [done|intros x Hx; apply H2, elem_of_app; by left| |done|].
        -- intros x [[Hx| ->%list_elem_of_singleton]%elem_of_app|Hx]%H3%elem_of_app; apply elem_of_app;
             [by left|right; by left|right; by right].
        -- destruct H5 as [|H5]; [by left|right]. intros x [->|Hx]%elem_of_cons; auto.
Qed.

Lemma continual_targets_spec anchor lists ceiling : 0 <= ceiling →
  let full := continual_targets anchor lists ceiling in
  NoDup full ∧ full ⊆ concat lists ++ anchor ∧ Z.of_nat (length full) <= ceiling ∧
  (Z.of_nat (length full) = ceiling ∨ anchor ⊆ full).
Proof.
  intros Hc. unfold continual_targets. set (sorted := py_sorted _ _).
  assert (NoDup sorted ∧ ∀ s, s ∈ sorted → s ∈ concat lists) as [Hnd Hin].
  { subst sorted. split; [by rewrite py_sorted_perm; apply coverage_NoDup|].
    intros s. rewrite elem_of_py_sorted. apply coverage_keys. }
  set (targets := take _ sorted).
  assert (NoDup targets) as Hndt by (by eapply sublist_NoDup; [|apply sublist_take]).
  assert (∀ s, s ∈ targets → s ∈ concat lists) as Hint.
  { intros s [i Hi]%list_elem_of_lookup. apply Hin. apply lookup_take_Some in Hi as [Hi _].
    by apply list_elem_of_lookup_2 in Hi. }
  assert (Z.of_nat (length targets) <= ceiling) as Hlen by (subst targets; rewrite length_take; lia).
  destruct (Z.ltb_spec (Z.of_nat (length targets)) ceiling) as [Hlt|].
  - destruct (fill_targets_spec ceiling anchor targets Hndt Hlt) as (H1 & H2 & H3 & H4 & H5).
    split_and!; [done| |done|done]. intros s [Hs|Hs]%H3%elem_of_app; apply elem_of_app; auto.
  - split_and!; [done| |done|left; lia]. intros s Hs. apply elem_of_app. auto.
Qed.

Section facts.
Context {L : Libm} {SH : Sha256}.

Lemma required_seeds_bounds samples w z floor cap r :
  floor <= cap → required_seeds samples w z floor cap = Ok r → floor <= r <= cap.
Proof.
  unfold required_seeds. intros Hle H. apply bind_Ok in H as ([v m] & _ & H).
  destruct m; cbn in H; [|injection H as <-; lia].
  apply bind_Ok in H as (ratio & _ & H). apply bind_Ok in H as (q & _ & [= <-]). lia.
Qed.

(** The platform plans between eight and ten seeds. *)
Lemma platform_ceiling_bounds composites r :
  elastic_confirmation_seed_ceiling composites TOP5_MIN_CONFIRMATION_SEEDS PLATFORM_MAX_CONFIRMATION_SEEDS
    Koth.KOTH_MARGIN Koth.KOTH_DETHRONE_Z = Ok r → 8 <= r <= 10.
Proof.
  unfold elastic_confirmation_seed_ceiling. change (fleb Koth.KOTH_MARGIN zero || fleb Koth.KOTH_DETHRONE_Z zero)
    with false. unfold TOP5_MIN_CONFIRMATION_SEEDS, PLATFORM_MAX_CONFIRMATION_SEEDS.
  intros H. apply required_seeds_bounds in H; lia.
Qed.

(** A seed of the first [n] replicates of a champion's family. *)
Definition anchored (champion version n : Z) (p : Planning) (s : Z) : Prop :=
  p.2 = true ∧ ∃ k, 0 <= k < n ∧ crn_seed [uuid_text champion] version k p.1 = Ok s.

Lemma fresh_anchor_elem champion version ceiling p anchor s : 0 < ceiling →
  fresh_anchor champion version ceiling p = Ok anchor → s ∈ anchor → anchored champion version ceiling p s.
Proof.
  unfold fresh_anchor, anchored. intros Hc H Hs. destruct p as [block []]; cbn in *.
  - split; [done|]. apply (family_elem _ _ _ _ _ _ H) in Hs as (k & Hk & E). exists k. split; [lia|done].
  - injection H as <-. by apply elem_of_nil in Hs.
Qed.

(** What the platform targets: at most ten distinct seeds, recorded in the wave
    or anchored on the champion. *)
Lemma bounded_set_spec champion version composites p target :
  bounded_continual_seed_set champion version composites p = Ok target →
  NoDup target ∧ Z.of_nat (length target) <= 10 ∧
  ∀ s, s ∈ target → s ∈ concat ((λ ac : Z * list (Z * F64), ac.2.*1) <$> composites) ∨ anchored champion version 10 p s.
Proof.
  unfold bounded_continual_seed_set. intros H.
  apply bind_Ok in H as (ceiling & Hc%platform_ceiling_bounds & H).
  apply bind_Ok in H as (anchor & Ha & [= <-]).
  destruct (continual_targets_spec anchor ((λ ac : Z * list (Z * F64), ac.2.*1) <$> composites) ceiling ltac:(lia))
    as (H1 & H2 & H3 & _).
  split; [done|]. split; [etrans; [exact H3|apply Hc]|]. intros s [Hs|Hs]%H2%elem_of_app; [by left|right].
  apply (fresh_anchor_elem champion version ceiling p anchor s ltac:(lia) Ha) in Hs as (Hp & k & Hk & E).
  split; [done|]. exists k. split; [lia|done].
Qed.

(** With fresh seeds allowed the target is never shallow: it holds eight seeds
    at least, unless two replicates of the family share a seed. *)
Lemma bounded_set_deep champion version composites block target :
  (∀ family, champion_anchored_seeds champion version 10 block = Ok family → NoDup family) →
  (∀ h, block = Some h → usable_hash h = true) →
  bounded_continual_seed_set champion version composites (block, true) = Ok target →
  8 <= Z.of_nat (length target).
Proof.
  intros Hnd Hb H. unfold bounded_continual_seed_set in H.
  apply bind_Ok in H as (ceiling & Hc%platform_ceiling_bounds & H).
  apply bind_Ok in H as (anchor & Ha & [= <-]). unfold fresh_anchor in Ha. cbn in Ha.
  destruct (continual_targets_spec anchor ((λ ac : Z * list (Z * F64), ac.2.*1) <$> composites) ceiling ltac:(lia))
    as (_ & _ & _ & [->|Hsub]); [lia|].
  pose proof (family_length _ _ _ _ _ Ha) as Hlen.
  enough (NoDup anchor) as Hn.
  { pose proof (NoDup_submseteq _ _ Hn (λ s, Hsub s)) as Hs%submseteq_length. lia. }
  destruct (family_total [uuid_text champion] version 10 block Hb) as [family Hf].
  specialize (Hnd family Hf). apply mapM_Ok in Ha, Hf.
  assert (anchor `prefix_of` family) as [t ->]; [|by apply NoDup_app in Hnd as (? & _)].
  unfold range in Ha, Hf. replace (Z.to_nat (Z.max 1 10)) with (Z.to_nat (Z.max 1 ceiling) + (10 - Z.to_nat (Z.max 1 ceiling)))%nat in Hf by lia.
  rewrite seq_app, fmap_app in Hf. apply Forall2_app_inv_l in Hf as (l1 & l2 & H1 & _ & ->).
  assert (anchor = l1) as ->; [|by eexists].
  clear -Ha H1. revert l1 H1. induction Ha as [|k s ks ss Hk _ IH]; intros l1 H1.
  - by apply Forall2_nil_inv_l in H1.
  - apply Forall2_cons_inv_l in H1 as (s' & ss' & Hk' & H1 & ->). rewrite Hk in Hk'. injection Hk' as <-.
    f_equal. by apply IH.
Qed.

(** The target is used through [bounded_set_spec] from here on. *)
#[local] Opaque bounded_continual_seed_set.

(** * What the rows say of one agent *)

Definition counted (db : PlanReads) (version a : Z) (r : ConfirmationScore) : Prop :=
  row_agent r = a ∧ row_version r = version ∧ row_voided r = false ∧ in_season db (row_season r) = true.
#[export] Instance counted_dec db version a r : Decision (counted db version a r).
Proof. unfold counted. apply _. Defined.

(** The seeds an agent has run. *)
Definition held (db : PlanReads) (version a : Z) : list Z :=
  row_seed <$> filter (counted db version a) (score_rows db).

Definition group_seed_row (seeds : list (Z * list F64)) (r : ConfirmationScore) : list (Z * list F64) :=
  dict_set (row_seed r) (get_list (row_seed r) seeds ++ [row_composite r]) seeds.
Definition agent_history (db : PlanReads) (version a : Z) : list (Z * F64) :=
  prod_map id median <$> foldl group_seed_row [] (filter (counted db version a) (score_rows db)).

Lemma group_rows_agent a rows g : get_list a (foldl group_row g rows) =
  foldl group_seed_row (get_list a g) (filter (λ r, row_agent r = a) rows).
Proof.
  revert g. induction rows as [|r rows IH]; intros g; [done|]. cbn [foldl]. rewrite IH.
  unfold group_row at 1. rewrite get_list_set, filter_cons.
  destruct (decide (a = row_agent r)) as [->|Hne]; [by rewrite decide_True|by rewrite decide_False by congruence].
Qed.

Lemma history_agent db ids version a :
  get_list a (read_history db ids version) = if decide (a ∈ ids) then agent_history db version a else [].
Proof.
  unfold read_history, confirmation_composites_by_seed, agent_history.
  rewrite (get_list_fmap (λ l, prod_map id median <$> l)) by done. rewrite group_rows_agent, list_filter_filter.
  case_decide as Ha.
  - do 2 f_equal. apply list_filter_iff. intros r. unfold counted. naive_solver.
  - set (rows := filter _ (score_rows db)). assert (rows = []) as ->; [|done].
    apply elem_of_nil_inv. intros r Hr. apply list_elem_of_filter in Hr. naive_solver.
Qed.

Lemma grouped_keys rows g s :
  s ∈ (foldl group_seed_row g rows).*1 ↔ s ∈ g.*1 ∨ s ∈ row_seed <$> rows.
Proof.
  revert g. induction rows as [|r rows IH]; intros g; cbn [foldl fmap list_fmap].
  - rewrite elem_of_nil. tauto.
  - rewrite IH. unfold group_seed_row at 1. rewrite elem_of_keys_dict_set, elem_of_cons. tauto.
Qed.

Lemma agent_history_keys db version a s : s ∈ (agent_history db version a).*1 ↔ s ∈ held db version a.
Proof.
  unfold agent_history, held. rewrite <- list_fmap_compose.
  change (fst ∘ prod_map id median) with (id ∘ (fst : Z * list F64 → Z)). rewrite list_fmap_compose, list_fmap_id.
  rewrite grouped_keys. cbn. rewrite elem_of_nil. tauto.
Qed.

Lemma history_held db ids version a s :
  s ∈ get_list a (seeds_by_agent (read_history db ids version)) ↔ a ∈ ids ∧ s ∈ held db version a.
Proof.
  unfold seeds_by_agent. rewrite (get_list_fmap (λ l : list (Z * F64), l.*1)) by done. rewrite history_agent.
  case_decide; [rewrite agent_history_keys; tauto|]. cbn. rewrite elem_of_nil. tauto.
Qed.

(** * Waves *)

Lemma common_seeds_spec members seeds common s :
  s ∈ common_seeds members seeds common ↔
  match common with Some c => s ∈ c | None => members ≠ [] end ∧ ∀ m, m ∈ members → s ∈ get_list m seeds.
Proof.
  revert common. induction members as [|m members IH]; intros common; cbn [common_seeds].
  - destruct common as [c|]; cbn; split.
    + intros H. split; [done|]. by intros m ?%elem_of_nil.
    + tauto.
    + by intros ?%elem_of_empty.
    + tauto.
  - set (c := match common with None => _ | Some _ => _ end).
    assert (s ∈ c ↔ match common with Some c => s ∈ c | None => True end ∧ s ∈ get_list m seeds) as Hc.
    { subst c. destruct common; rewrite ?elem_of_intersection, elem_of_list_to_set; tauto. }
    case_bool_decide as He.
    + rewrite He in Hc. split; [by intros ?%elem_of_empty|]. intros [H1 H2].
      apply Hc. split; [by destruct common|]. apply H2. by left.
    + rewrite IH, Hc. setoid_rewrite elem_of_cons. destruct common; naive_solver.
Qed.

Lemma completed_spec members seeds s : s ∈ completed_confirmation_wave_seeds members seeds ↔
  members ≠ [] ∧ ∀ m, m ∈ members → s ∈ get_list m seeds.
Proof.
  unfold completed_confirmation_wave_seeds. rewrite common_seeds_spec. setoid_rewrite elem_of_from_keys.
  assert (from_keys members ≠ [] ↔ members ≠ []) as ->; [|done]. split; intros H E; apply H; [by subst|].
  destruct members as [|m members]; [done|]. assert (m ∈ from_keys (m :: members)) as Hm by (apply elem_of_from_keys; by left).
  rewrite E in Hm. by apply elem_of_nil in Hm.
Qed.

Lemma catchup_spec member peers anchored seeds s :
  s ∈ confirmation_catchup_seeds member peers anchored seeds ↔
  s ∈ anchored ∧ s ∉ get_list member seeds ∧ ∃ p, p ∈ peers ∧ p ≠ member ∧ s ∈ get_list p seeds.
Proof.
  unfold confirmation_catchup_seeds. rewrite list_elem_of_filter, elem_of_concat.
  setoid_rewrite list_elem_of_fmap. setoid_rewrite list_elem_of_filter. setoid_rewrite elem_of_from_keys.
  naive_solver.
Qed.

(** * The plan *)

(** The target set of a wave: it does not depend on the member that asks. *)
Definition wave_target (db : PlanReads) (champion : Z) (wave : list Z) (version : Z) (p : Planning)
    : result (list Z) :=
  bounded_continual_seed_set champion version ((λ a, (a, agent_history db version a)) <$> from_keys wave) p.

Lemma head_filter_Some {A} (P : A → Prop) `{∀ x, Decision (P x)} l x :
  head (filter P l) = Some x → x ∈ l ∧ P x.
Proof. intros H'%head_Some_elem_of. apply list_elem_of_filter in H'. tauto. Qed.

Lemma wave_plan_read db champion member wave cohort version p window seeds :
  wave_plan db champion member wave cohort version p window = Ok seeds →
  ∃ target, wave_target db champion wave version p = Ok target ∧
  ∃ history completed,
    (∀ a s, a ∈ cohort ∨ a ∈ wave ∨ a = member → s ∈ get_list a history ↔ s ∈ held db version a) ∧
    (∀ s, s ∈ completed ↔ wave ≠ [] ∧ ∀ m, m ∈ wave → s ∈ held db version m) ∧
    let catchup := confirmation_catchup_seeds member (from_keys (cohort ++ wave)) target history in
    (seeds = catchup ∧
      (∀ next, head (filter (λ s, s ∉ (completed : gset Z)) target) = Some next →
         next ∈ held db version member ∨ next ∈ catchup ∨
         ∃ w, window = Some w ∧ paced w = true ∧ growth_open w next (first_retest_issue_by_seed db next) = false)) ∨
    ∃ next, head (filter (λ s, s ∉ completed) target) = Some next ∧ seeds = catchup ++ [next] ∧
      next ∉ get_list member history ∧ next ∉ catchup.
Proof.
  unfold wave_plan. intros H.
  set (ids := from_keys (from_keys (cohort ++ wave) ++ [member])) in *.
  assert (∀ a, a ∈ ids ↔ a ∈ cohort ∨ a ∈ wave ∨ a = member) as Hids.
  { intros a. unfold ids. rewrite elem_of_from_keys, elem_of_app, elem_of_from_keys, elem_of_app, list_elem_of_singleton.
    tauto. }
  apply bind_Ok in H as (target & Ht & H). exists target. split.
  { rewrite <- Ht. unfold wave_target. apply (f_equal (λ l, bounded_continual_seed_set champion version l p)).
    apply list_fmap_ext. intros i a Ha%list_elem_of_lookup_2. rewrite elem_of_from_keys in Ha.
    rewrite history_agent, decide_True; [done|]. apply Hids. auto. }
  set (history := seeds_by_agent _) in *. exists history, (completed_confirmation_wave_seeds wave history).
  assert (∀ a s, a ∈ cohort ∨ a ∈ wave ∨ a = member → s ∈ get_list a history ↔ s ∈ held db version a) as Hh.
  { intros a s Ha. unfold history. rewrite history_held, Hids. tauto. }
  split; [done|]. split.
  { intros s. rewrite completed_spec. clear H Ht.
    split; intros [H1 H2]; (split; [exact H1|]); intros m Hm; [apply Hh|apply (Hh m s)]; auto. }
  clearbody ids history. destruct (head _) as [next|] eqn:Eh; [|injection H as <-; left; split; [reflexivity|discriminate]].
  set (catchup := confirmation_catchup_seeds _ _ _ _) in *.
  case_bool_decide as E1; cbn [orb] in H.
  { injection H as <-. left. split; [reflexivity|]. intros n [= <-]. left. apply (Hh member); auto. }
  case_bool_decide as E2; cbn [orb] in H.
  { injection H as <-. left. split; [reflexivity|]. intros n [= <-]. right. by left. }
  assert (Ok (catchup ++ [next]) = Ok seeds → seeds = catchup ++ [next]) as Hn by by intros [= <-].
  destruct window as [w|]; [|right; exists next; auto].
  destruct (paced w && _) eqn:E3; [|right; exists next; auto].
  injection H as <-. left. split; [reflexivity|]. intros n [= <-]. right. right. exists w.
  apply andb_true_iff in E3 as [E3 E4]. apply negb_true_iff in E4. auto.
Qed.

(** A plan holds distinct seeds of the target that the member has not run. *)
Lemma wave_plan_owed db champion member wave cohort version p window seeds :
  wave_plan db champion member wave cohort version p window = Ok seeds →
  ∃ target, wave_target db champion wave version p = Ok target ∧ NoDup seeds ∧
    ∀ s, s ∈ seeds → s ∈ target ∧ s ∉ held db version member.
Proof.
  intros H. apply wave_plan_read in H as (target & Ht & history & completed & Hh & _ & H).
  exists target. split; [done|].
  pose proof Ht as Hs. unfold wave_target in Hs. apply bounded_set_spec in Hs as (Hnd & _ & _).
  set (catchup := confirmation_catchup_seeds _ _ _ _) in *.
  assert (NoDup catchup) as Hnc by by apply NoDup_filter.
  assert (∀ s, s ∈ catchup → s ∈ target ∧ s ∉ held db version member) as Hc.
  { intros s Hs. apply catchup_spec in Hs as (H1 & H2 & _). split; [done|]. by rewrite <- (Hh member s) by auto. }
  clearbody catchup. clear Ht.
  destruct H as [[-> _]|(next & Hn & -> & H1 & H2)]; [by split|]. rewrite (Hh member next) in H1 by auto.
  apply head_filter_Some in Hn as [Hn _]. split.
  - apply NoDup_app. split_and!; [done| |apply NoDup_singleton]. intros s Hs ->%list_elem_of_singleton. exact (H2 Hs).
  - intros s [Hs| ->%list_elem_of_singleton]%elem_of_app; auto.
Qed.

(** Where the seeds of the target come from. *)
Lemma wave_target_source db champion wave version p target s :
  wave_target db champion wave version p = Ok target → s ∈ target →
  (∃ m, m ∈ wave ∧ s ∈ held db version m) ∨ anchored champion version 10 p s.
Proof.
  unfold wave_target. intros H Hs. apply bounded_set_spec in H as (_ & _ & Ht). apply Ht in Hs as [Hs|]; [left|by right].
  apply elem_of_concat in Hs as (l & Hs & Hl). apply list_elem_of_fmap in Hl as (ac & -> & Hac).
  apply list_elem_of_fmap in Hac as (m & -> & Hm). exists m. split; [by apply elem_of_from_keys|].
  by apply agent_history_keys.
Qed.

(** Every planned seed was run in the wave or is anchored on the champion. *)
Lemma planned_source db champion member wave cohort version p window duel duel_history pending seeds s depth :
  (∀ count, duel = Some count → count <= depth) → 10 <= depth →
  _top5_confirmation_seed_plan db champion member wave cohort version (Some p) window duel duel_history
    pending = Ok seeds →
  s ∈ seeds → (∃ m, m ∈ wave ∧ s ∈ held db version m) ∨ anchored champion version depth p s.
Proof.
  intros Hd Hdepth H Hs. unfold _top5_confirmation_seed_plan in H. destruct duel as [count|].
  - right. unfold duel_plan, season_duel_seeds in H.
    destruct (bool_decide _ || _); [injection H as <-; by apply elem_of_nil in Hs|].
    apply bind_Ok in H as (family & Hf & H). injection H as <-.
    apply list_elem_of_filter in Hs as [_ Hs]. specialize (Hd count eq_refl).
    destruct p as [block []]; cbn in Hf; [|injection Hf as <-; by apply elem_of_nil in Hs].
    split; [reflexivity|]. apply (family_elem _ _ _ _ _ _ Hf) in Hs as (k & Hk & E). exists k. split; [lia|exact E].
  - apply wave_plan_owed in H as (target & Ht & _ & H). apply H in Hs as [Hs _].
    destruct (wave_target_source _ _ _ _ _ _ _ Ht Hs) as [?|(Hp & k & Hk & E)]; [by left|right].
    split; [exact Hp|]. exists k. split; [lia|exact E].
Qed.

(** C28: A fresh seed can always be derived again. Let the platform plan a
    retest, a continual wave or a season duel, for a reign whose anchor it
    serves, at a version that binds blocks. Every planned seed that no wave
    member has run before is then bound by the lease to a served anchor, with a
    replicate below the ceiling and a hash from which the seed re-derives, and
    the validator's check of the lease accepts the pin. While the anchor is not
    pinned there is no such seed, since none may be drawn. *)
Theorem fresh_seeds_bind db anchors a member wave cohort version window duel duel_history pending seeds s sha size :
  a ∈ anchors → anchor_bench_version a = version → CRN_BLOCK_BINDING_MIN_BENCH_VERSION <= version →
  Forall (λ a, ∀ h, anchor_block_hash a = Some h → usable_hash h = true) anchors →
  (∀ count, duel = Some count → count <= CONFIRMATION_SEED_CEILING) →
  _top5_confirmation_seed_plan db (champion_agent_id a) member wave cohort version (Some (planning a)) window
    duel duel_history pending = Ok seeds →
  s ∈ seeds → (∀ m, m ∈ wave → s ∉ held db version m) →
  ∃ b, bind_confirmation_seed anchors s version CONFIRMATION_SEED_CEILING = Ok (Some b) ∧
    binds anchors s version CONFIRMATION_SEED_CEILING b ∧
    _confirmation_pin_binding_mismatch [lease_pin s sha size (Some b)] (Some version) = Ok None.
Proof.
  intros Ha Hv Hver Hgood Hd H Hs Hfresh.
  destruct (planned_source _ _ _ _ _ _ _ _ _ _ _ _ _ CONFIRMATION_SEED_CEILING Hd ltac:(done) H Hs)
    as [(m & Hm & Hr)|(Hp & k & Hk & E)]; [by destruct (Hfresh m Hm)|].
  unfold planning in Hp, E. cbn in Hp, E. apply bool_decide_eq_true in Hp as [h Eh]. rewrite Eh in E.
  destruct (bind_total anchors s version CONFIRMATION_SEED_CEILING Hgood) as [r Hb].
  pose proof Hb as Hb'. unfold bind_confirmation_seed in Hb'.
  assert (crn_block_binding_active version = true) as Hact by by apply Z.leb_le. rewrite Hact in Hb'.
  destruct (family_total [uuid_text (champion_agent_id a)] version CONFIRMATION_SEED_CEILING (Some h)) as [family Hf].
  { intros h' [= <-]. by eapply Forall_forall in Hgood; [|exact Ha]; apply Hgood. }
  assert (s ∈ family) as Hin by (apply (family_elem _ _ _ _ _ _ Hf); exists k; split; [lia|exact E]).
  destruct (bind_complete anchors s version _ a h family r Ha Eh Hv Hf Hin Hb') as [b ->].
  exists b. split; [exact Hb|]. split; [by apply bind_sound|]. by eapply pin_accepted.
Qed.

(** * The two implementations of the target *)

Lemma zip_seeds_units seeds comps out m : Forall unit_value comps → Forall unit_value out.*2 →
  zip_seeds seeds comps out = Some m → Forall unit_value m.*2.
Proof.
  revert comps out. induction seeds as [|s seeds IH]; intros [|c comps] out Hc Ho H; cbn in H; try (by injection H as <-).
  destruct (_ || _); [done|]. apply Forall_cons in Hc as [Hc Hcs]. apply (IH comps _ Hcs) in H; [done|].
  rewrite fmap_app. apply Forall_app. split; [done|]. by constructor.
Qed.

(** The composites a validator reads are scores. *)
Lemma seed_composites_unit e : Forall unit_value (default [] (_entry_seed_composites e None)).*2.
Proof.
  unfold _entry_seed_composites. destruct (_ && _); [constructor|].
  destruct (_entry_confirmation_history e) as [h|] eqn:Eh.
  - unfold _entry_confirmation_history in Eh. destruct (confirmation_history e) as [[|r rs]|]; [done| |done].
    set (us := omap _ (r :: rs)) in Eh.
    assert (good_groups (foldl group_seed [] us)) as [_ Hg].
    { apply group_seeds_good; [split; constructor|]. apply Forall_forall. intros sv Hsv.
      apply list_elem_of_omap in Hsv as (x & _ & Hx). destruct (_ || _) eqn:E in Hx; [done|].
      injection Hx as <-. by apply orb_false_iff in E as [_ E%negb_false_iff]. }
    destruct (foldl group_seed [] us) as [|g0 gs]; [done|]. injection Eh as <-. cbn [from_option id].
    rewrite fmap_take. apply Forall_take, Forall_fmap, Forall_forall. intros [k v] Hin.
    apply elem_of_py_sorted in Hin. change ((k, v) ∈ prod_map id _median <$> (g0 :: gs)) in Hin.
    apply list_elem_of_fmap in Hin as ([k' l] & [= -> ->] & Hin).
    eapply Forall_forall in Hg as [? ?]; [|exact Hin]. by apply unit_median.
  - destruct (_entry_confirmations e) as [comps|] eqn:Ec; [|constructor].
    destruct (Ledger.confirmation_seeds e) as [seeds|]; [|constructor].
    destruct (negb _); [constructor|].
    destruct (zip_seeds seeds comps []) as [m|] eqn:Ez; [|constructor]. cbn [from_option id].
    apply (zip_seeds_units seeds comps [] m); [|constructor|exact Ez]. unfold _entry_confirmations in Ec.
    destruct (confirmation_composites e) as [v|]; [|done]. destruct (_ <? _)%nat; [done|].
    destruct (forallb unit_interval v) eqn:Ev; [|done]. injection Ec as <-.
    apply Forall_forall. intros x Hx. apply (proj1 (forallb_forall _ _) Ev). by apply list_elem_of_In.
Qed.

Lemma filter_units l : Forall unit_value l → filter (λ v, unit_interval v = true) l = l.
Proof. induction 1 as [|v l Hv _ IH]; [done|]. rewrite filter_cons, decide_True by done. by rewrite IH. Qed.

(** What the platform reads of the rows a ledger was served from. *)
Definition composites_of (entries : list LedgerEntry) : list (Z * list (Z * F64)) :=
  (λ e, (agent_id e, default [] (_entry_seed_composites e None))) <$> entries.

(** The values and the seeds of the entries, as the platform's loops read them. *)
Definition entry_values (e : LedgerEntry) : list F64 := (default [] (_entry_seed_composites e None)).*2.
Definition entry_seeds (e : LedgerEntry) : list Z := (default [] (_entry_seed_composites e None)).*1.

Lemma entries_variance_max entries acc measured :
  entries_variance entries acc measured = max_variance (entry_values <$> entries) (acc, measured).
Proof.
  revert acc measured. induction entries as [|e rest IH]; intros acc measured; [done|].
  cbn [entries_variance fmap list_fmap max_variance].
  destruct (_entry_seed_composites e None) as [history|] eqn:E.
  - assert (entry_values e = history.*2) as -> by (unfold entry_values; by rewrite E).
    rewrite length_fmap. destruct (_ <? 2)%nat; [apply IH|]. unfold sample_variance. rewrite length_fmap.
    cbv zeta. destruct (mapM _ _) as [squares|]; [|done]. cbn [mbind result_bind]. apply IH.
  - assert (entry_values e = []) as -> by (unfold entry_values; by rewrite E). apply IH.
Qed.

(** The validators' ceiling, in the platform's terms. *)
Lemma validator_ceiling entries margin z maximum :
  _elastic_confirmation_seed_ceiling entries margin z maximum =
  if fleb margin zero || fleb z zero then Ok (Z.max 8 maximum)
  else required_seeds (entry_values <$> entries) margin z 8 (Z.max 8 maximum).
Proof.
  unfold _elastic_confirmation_seed_ceiling, required_seeds. change (Z.max 2 TOP5_MIN_CONFIRMATION_SEEDS) with 8.
  destruct (_ || _); [done|]. rewrite entries_variance_max. apply bind_ext. intros [v []]; done.
Qed.

Lemma platform_ceiling entries margin z maximum :
  elastic_confirmation_seed_ceiling (composites_of entries) TOP5_MIN_CONFIRMATION_SEEDS maximum margin z =
  if fleb margin zero || fleb z zero then Ok (Z.max 8 maximum)
  else required_seeds (entry_values <$> entries) margin z 8 (Z.max 8 maximum).
Proof.
  unfold elastic_confirmation_seed_ceiling. change (Z.max 2 TOP5_MIN_CONFIRMATION_SEEDS) with 8.
  destruct (_ || _); [done|]. f_equal. unfold composites_of. rewrite <- list_fmap_compose.
  apply list_fmap_ext. intros i e _. apply filter_units, seed_composites_unit.
Qed.

Lemma cover_entries entries : foldl cover_entry [] entries = coverage_of (entry_seeds <$> entries).
Proof.
  unfold coverage_of. generalize (@nil (Z * Z)). induction entries as [|e rest IH]; intros c; [done|].
  cbn [foldl fmap list_fmap concat]. rewrite foldl_app. apply IH.
Qed.

Lemma fill_fresh_targets ceiling anchor targets selected : (∀ s, s ∈ selected ↔ s ∈ targets) →
  fill_fresh ceiling anchor targets selected = fill_targets ceiling anchor targets.
Proof.
  revert targets selected. induction anchor as [|seed rest IH]; intros targets selected H; [done|].
  cbn [fill_fresh fill_targets]. rewrite (bool_decide_ext _ _ (H seed)). case_bool_decide; [by apply IH|].
  destruct (_ =? _); [done|]. apply IH. intros s.
  rewrite elem_of_union, elem_of_singleton, H, elem_of_app, list_elem_of_singleton. tauto.
Qed.

(** The validators' set, in the platform's terms. *)
Lemma validator_targets champion entries version ceiling p :
  _bounded_continual_seed_set champion entries version ceiling p =
  (fresh_anchor (agent_id champion) version ceiling p ≫= λ anchor,
   Ok (continual_targets anchor (entry_seeds <$> entries) ceiling)).
Proof.
  destruct p as [block fresh]. unfold _bounded_continual_seed_set, fresh_anchor. cbn [fst snd].
  change (champion_anchored_seeds (agent_id champion) version ceiling block) with
    (confirmation_seeds [uuid_text (agent_id champion)] version ceiling block).
  apply bind_ext. intros anchor. unfold continual_targets. rewrite cover_entries. cbv zeta.
  rewrite (py_sorted_ext _ (target_cmp (coverage_of (entry_seeds <$> entries))
    (dict_of (imap (λ index seed, (seed, Z.of_nat index)) anchor)) ceiling)).
  - destruct (_ <? ceiling); [|done]. f_equal. apply fill_fresh_targets. intros s. apply elem_of_list_to_set.
  - intros x y _ _. unfold target_cmp, cmp_then, cmp_desc, cmp_by. by rewrite Z.compare_opp.
Qed.

#[local] Transparent bounded_continual_seed_set.

(** C31: The platform and the validators size and order the same target. The two
    are written separately, over the ledger's entries and over one dictionary of
    composites per agent. On the composites of the same emission set their
    ceilings are equal for every maximum, margin and deviate, errors included;
    with a larger maximum on the validators' side, such as their configured 15,
    the platform's ceiling is theirs cut to its own cap of ten; and at that cap the two sets are the same list: the
    same coverage order, the same fresh seeds of the champion, the same error. *)
Theorem continual_seed_set_mirrors champion entries version p :
  (∀ maximum margin z,
     elastic_confirmation_seed_ceiling (composites_of entries) TOP5_MIN_CONFIRMATION_SEEDS maximum margin z =
     _elastic_confirmation_seed_ceiling entries margin z maximum) ∧
  (∀ maximum margin z, PLATFORM_MAX_CONFIRMATION_SEEDS <= maximum →
     elastic_confirmation_seed_ceiling (composites_of entries) TOP5_MIN_CONFIRMATION_SEEDS
       PLATFORM_MAX_CONFIRMATION_SEEDS margin z =
     (_elastic_confirmation_seed_ceiling entries margin z maximum ≫= λ ceiling,
      Ok (Z.min PLATFORM_MAX_CONFIRMATION_SEEDS ceiling))) ∧
  bounded_continual_seed_set (agent_id champion) version (composites_of entries) p =
  (_elastic_confirmation_seed_ceiling entries Koth.KOTH_MARGIN Koth.KOTH_DETHRONE_Z
     PLATFORM_MAX_CONFIRMATION_SEEDS ≫= λ ceiling,
   _bounded_continual_seed_set champion entries version ceiling p).
Proof.
  split_and!.
  - intros maximum margin z. by rewrite platform_ceiling, validator_ceiling.
  - intros maximum margin z Hmax. rewrite platform_ceiling, validator_ceiling.
    unfold PLATFORM_MAX_CONFIRMATION_SEEDS in *.
    destruct (_ || _); [cbn; f_equal; lia|]. unfold required_seeds.
    destruct (max_variance _ _) as [[v []]|]; [|done|done]. cbn [mbind result_bind negb].
    destruct (pow2 _) as [ratio|]; [|done]. cbn [mbind result_bind].
    destruct (math_ceil _) as [required|]; [|done]. cbn [mbind result_bind]. f_equal. lia.
  - unfold bounded_continual_seed_set. rewrite platform_ceiling, validator_ceiling.
    apply bind_ext. intros ceiling. rewrite validator_targets. apply bind_ext. intros anchor.
    unfold composites_of. by rewrite <- list_fmap_compose.
Qed.

(** * The plan of a validator *)

(** A round holds work for scored members only: seeds of the anchor that the
    member lacks, never more than the cap, each recorded by an emission member
    or drawn from the champion's family as the ledger's pin allows. *)
Lemma round_plan_sound prm entries version tail_size baseline max_seeds rate cohort max_cohort anchors plan :
  top5_confirmation_set prm entries version tail_size baseline max_seeds rate cohort max_cohort anchors = Ok (Some plan) →
  let champion := plan_champion plan in
  NoDup (anchor_seeds plan) ∧ Z.of_nat (length (anchor_seeds plan)) <= Z.max 8 max_seeds ∧
  (∀ s, s ∈ anchor_seeds plan →
    (∃ e, e ∈ entries ∧ agent_id e ∈ emission_member_ids plan ∧ s ∈ recorded_seeds e) ∨
    anchored (agent_id champion) version (Z.max 8 max_seeds)
      (reign_seed_planning anchors (agent_id champion) version) s) ∧
  Forall (λ m, entry m ∈ entries ∧ seeds_to_score m ≠ [] ∧ NoDup (seeds_to_score m) ∧
    ∀ s, s ∈ seeds_to_score m → s ∈ anchor_seeds plan ∧ s ∉ recorded_seeds (entry m)) (plan_members plan).
Proof.
  unfold top5_confirmation_set. set (scored := filter _ entries).
  destruct (_champion prm None None scored) as [c|] eqn:Ec; [|done]. intros H.
  apply bind_Ok in H as (cap & Hcap & H). apply bind_Ok in H as (full & Hfull & H).
  set (members := c :: _) in *. set (depth := Z.min cap _) in *.
  set (emission := take _ members) in *. set (planned := omap _ members) in *.
  assert (∀ e, e ∈ members → e ∈ entries) as Hmem.
  { apply champion_elem, list_elem_of_filter in Ec as [_ Hc].
    intros e [->|He]%elem_of_cons; [exact Hc|]. apply tail_elem in He as [He _].
    by apply list_elem_of_filter in He as [_ ?]. }
  assert (8 <= cap <= Z.max 8 max_seeds) as Hb.
  { rewrite validator_ceiling in Hcap.
    destruct (_ || _); [injection Hcap as <-; lia|]. apply required_seeds_bounds in Hcap; lia. }
  rewrite validator_targets in Hfull. apply bind_Ok in Hfull as (anchor & Ha & [= <-]).
  destruct (continual_targets_spec anchor (entry_seeds <$> emission) cap
    ltac:(lia)) as (Hnd & Hsrc & Hlen & _).
  set (full := continual_targets _ _ _) in *.
  destruct planned as [|w ws] eqn:Ew; [done|]. injection H as <-. cbn -[anchored full]. rewrite <- Ew.
  assert (∀ s, s ∈ take (Z.to_nat depth) full → s ∈ full) as Htake.
  { intros s [i Hi]%list_elem_of_lookup. apply lookup_take_Some in Hi as [Hi _]. by apply list_elem_of_lookup_2 in Hi. }
  assert (NoDup (take (Z.to_nat depth) full)) as Hndt by (eapply sublist_NoDup; [exact Hnd|apply sublist_take]).
  split; [exact Hndt|]. split; [rewrite length_take; lia|]. split.
  - intros s Hs%Htake%Hsrc. apply elem_of_app in Hs as [Hs|Hs].
    + left. apply elem_of_concat in Hs as (l & Hs & Hl). apply list_elem_of_fmap in Hl as (e & -> & He).
      exists e. split; [|split; [|exact Hs]].
      * apply Hmem. destruct (list_elem_of_lookup_1 _ _ He) as [i Hi]. apply lookup_take_Some in Hi as [Hi _].
        by apply list_elem_of_lookup_2 in Hi.
      * apply elem_of_list_to_set. by apply list_elem_of_fmap_2.
    + right. apply (fresh_anchor_elem (agent_id c) version cap _ anchor s ltac:(lia) Ha) in Hs as (Hp & k & Hk & E).
      split; [exact Hp|]. exists k. split; [lia|exact E].
  - apply Forall_forall. intros m Hm. unfold planned in Hm. apply list_elem_of_omap in Hm as (e & He & Hm).
    unfold member_work in Hm. set (missing := filter _ (take _ full)) in Hm.
    assert (NoDup missing) as Hn by by apply NoDup_filter.
    assert (∀ s, s ∈ missing → s ∈ take (Z.to_nat depth) full ∧ s ∉ recorded_seeds e) as Hmi.
    { intros s Hs. apply list_elem_of_filter in Hs. tauto. }
    destruct missing as [|s0 rest] eqn:Em; [done|]. injection Hm as <-. cbn -[take]. rewrite <- Em in *.
    split; [by apply Hmem|]. destruct (_ || _).
    + split; [by rewrite Em|]. split; [exact Hn|exact Hmi].
    + split; [rewrite Em; destruct (Z.to_nat (Z.max 1 rate)) eqn:Er; [lia|done]|].
      split; [eapply sublist_NoDup; [exact Hn|apply sublist_take]|]. intros s [i Hi]%list_elem_of_lookup.
      apply lookup_take_Some in Hi as [Hi _]. apply Hmi. by apply list_elem_of_lookup_2 in Hi.
Qed.
End facts.

(** * What the fold may read *)

Lemma extend_active_spec (P : Z → Prop) max_seeds anchor active :
  (∀ s, s ∈ anchor → P s) → (∀ s, s ∈ active → P s) → NoDup active → Z.of_nat (length active) <= max_seeds →
  let l := extend_active max_seeds anchor active in
  NoDup l ∧ Z.of_nat (length l) <= max_seeds ∧ ∀ s, s ∈ l → P s.
Proof.
  revert active. induction anchor as [|s anchor IH]; intros active Ha Hact Hnd Hlen; cbn [extend_active]; [done|].
  apply IH; [intros x Hx; apply Ha; by right|..]; destruct (_ && _) eqn:E; try done;
    apply andb_true_iff in E as [E1%negb_true_iff%bool_decide_eq_false E2%Z.ltb_lt].
  - intros x [Hx| ->%list_elem_of_singleton]%elem_of_app; [by apply Hact|apply Ha; by left].
  - apply NoDup_app. split_and!; [done| |apply NoDup_singleton]. intros x Hx ->%list_elem_of_singleton. exact (E1 Hx).
  - rewrite length_app. cbn. lia.
Qed.

(** The fold considers at most [max_seeds] seeds, each recorded or fresh. *)
Lemma fold_seed_bound_spec `{SH : Sha256} champion version seeds max_seeds p l : 0 <= max_seeds →
  fold_seed_bound champion version seeds max_seeds p = Ok l →
  NoDup l ∧ Z.of_nat (length l) <= max_seeds ∧
  ∀ s, s ∈ l → s ∈ concat seeds.*2 ∨ anchored champion version (Z.max 1 max_seeds) p s.
Proof.
  intros Hmax H. unfold fold_seed_bound in H. apply bind_Ok in H as (anchor & Ha & [= <-]).
  apply extend_active_spec.
  - intros s Hs. right. unfold fresh_anchor in Ha. destruct p as [block []]; cbn in Ha.
    + split; [reflexivity|]. apply (family_elem _ _ _ _ _ _ Ha) in Hs. exact Hs.
    + injection Ha as <-. by apply elem_of_nil in Hs.
  - intros s [i Hi]%list_elem_of_lookup. left. unfold active_confirmation_seed_set in Hi.
    apply lookup_take_Some in Hi as [Hi _]. apply list_elem_of_lookup_2, elem_of_py_sorted in Hi.
    apply coverage_keys, elem_of_concat in Hi as (k & Hs & Hk).
    apply list_elem_of_fmap in Hk as (ss & -> & Hss). rewrite elem_of_from_keys in Hs.
    apply elem_of_concat. exists ss.2. split; [exact Hs|by apply list_elem_of_fmap_2].
  - eapply sublist_NoDup; [|apply sublist_take]. rewrite py_sorted_perm. apply coverage_NoDup.
  - unfold active_confirmation_seed_set. rewrite length_take. lia.
Qed.

Lemma held_in_fmap (f : gset Z → gset Z) own m : f ∅ = ∅ →
  held_in ((λ ag : Z * gset Z, (ag.1, f ag.2)) <$> own) m = f (held_in own m).
Proof.
  intros Hf. unfold held_in. induction own as [|[a h] own IH]; [done|]. cbn. by case_decide.
Qed.

(** Under the strict policy every member of the wave is compared on the same
    seeds, and no agent on a seed it has not run. *)
Lemma strict_seeds_shared ids seeds anchor :
  let eligible := fold_eligible_seeds_by_agent ids seeds strict anchor in
  (∀ m m', m ∈ ids → m' ∈ ids → held_in eligible m = held_in eligible m') ∧
  ∀ a s, s ∈ held_in eligible a → s ∈ get_list a seeds.
Proof.
  unfold fold_eligible_seeds_by_agent. set (g := in_anchor anchor). set (own := _ <$> seeds). set (shared := completed_confirmation_wave_seeds _ _).
  assert (∀ a, held_in own a = g (get_list a seeds)) as Hown.
  { assert (g [] = ∅) as Hg by (unfold g, in_anchor; destruct anchor; set_solver). intros a. unfold own, held_in, get_list.
    induction seeds as [|[b h] sds IH]; [done|]. cbn. by case_decide. }
  assert (∀ a, held_in ((λ ag : Z * gset Z, (ag.1, ag.2 ∩ shared)) <$> own) a = held_in own a ∩ shared) as He
    by (intros a; apply (held_in_fmap (λ h, h ∩ shared)); set_solver).
  assert (∀ m, m ∈ ids → shared ⊆ held_in own m) as Hm.
  { intros m Hm s Hs. unfold shared in Hs. rewrite completed_spec in Hs. destruct Hs as [_ Hs].
    specialize (Hs m). rewrite elem_of_from_keys in Hs. specialize (Hs Hm). revert Hs. unfold get_list, held_in.
    clear. induction own as [|[b h] own IH]; [cbn; set_solver|]. cbn. case_decide; cbn; set_solver. }
  split.
  - intros m m' H H'. rewrite !He. pose proof (Hm m H). pose proof (Hm m' H'). set_solver.
  - intros a s. rewrite He, Hown, elem_of_intersection. unfold g, in_anchor. intros [Hs _].
    destruct anchor; set_solver.
Qed.

(** * Concrete instances *)

(** A reign of agent 1 at version 13, pinned to a block, and an empty season. *)
Definition sample_anchor : ReignSeedAnchor := {|
  champion_agent_id := 1; anchor_bench_version := 13; ready_block := 90; anchor_block := 100;
  anchor_block_hash := Some "0xAB"; season_key := 0 |}.
Definition sample_reads (rows : list ConfirmationScore) : PlanReads := {|
  score_rows := rows; in_season := λ _, true; reign_planning := planning sample_anchor;
  entrant_excluded := false; first_retest_issue_by_seed := λ _, [] |}.
Definition sample_family : list Z :=
  match champion_anchored_seeds (SH := sample_digest) 1 13 8 (Some "0xAB") with Ok l => l | Err _ => [] end.
Definition sample_seed : Z := default 0 (head sample_family).

Lemma fresh_seeds_bind_witness :
  ∃ b, bind_confirmation_seed (SH := sample_digest) [sample_anchor] sample_seed 13 CONFIRMATION_SEED_CEILING = Ok (Some b) ∧
    binds (SH := sample_digest) [sample_anchor] sample_seed 13 CONFIRMATION_SEED_CEILING b ∧
    _confirmation_pin_binding_mismatch (SH := sample_digest)
      [lease_pin sample_seed "sha" "size" (Some b)] (Some 13) = Ok None.
Proof.
  apply (fresh_seeds_bind (L := sample_libm) (SH := sample_digest) (sample_reads []) [sample_anchor] sample_anchor 2
    [1; 2] [] 13 None None None [] [sample_seed] sample_seed "sha" "size").
  - by left.
  - reflexivity.
  - by vm_compute.
  - constructor; [|constructor]. by intros h [= <-].
  - discriminate.
  - vm_compute. reflexivity.
  - by left.
  - intros m _ H. by apply elem_of_nil in H.
Defined.

(** Two entries of the validators' ledger, under their configured maximum of 15. *)
Lemma continual_seed_set_mirrors_witness :
  elastic_confirmation_seed_ceiling (L := sample_libm) (composites_of [alice; bob]) TOP5_MIN_CONFIRMATION_SEEDS
    PLATFORM_MAX_CONFIRMATION_SEEDS Koth.KOTH_MARGIN Koth.KOTH_DETHRONE_Z =
  (_elastic_confirmation_seed_ceiling (L := sample_libm) [alice; bob] Koth.KOTH_MARGIN Koth.KOTH_DETHRONE_Z
     TOP5_MAX_CONFIRMATION_SEEDS ≫= λ ceiling, Ok (Z.min PLATFORM_MAX_CONFIRMATION_SEEDS ceiling)).
Proof.
  destruct (continual_seed_set_mirrors (L := sample_libm) (SH := sample_digest) alice [alice; bob] 13
    (planning sample_anchor)) as (_ & H & _).
  apply H. unfold PLATFORM_MAX_CONFIRMATION_SEEDS, TOP5_MAX_CONFIRMATION_SEEDS. lia.
Defined.
