(* ===== verification/SeedLane.v ===== *)
(** The continual retest lane of a reign as a system of steps: validators claim
    planned seeds of the wave, report or let their leases expire, results arrive
    from elsewhere, and the planner sees what was recorded.  The lane does bounded
    work, never pays for a result twice, and when it falls idle every member of
    the cohort has run the whole target.

    The steps cover a reign without season duels, whose leases all carry a seed
    and whose results are not voided: leases on a whole bundle, the re-runs a void
    owes and the fallback to a planned seed when all are leased are not steps. *)
From Stdlib Require Import ZArith Lia.
From stdpp Require Import base list gmap strings sorting.
From S2P Require Import Prelude Binary64 Dueling Ledger Crown KothFold KothMirror PyText SeedFamily SeedPlan SeedFacts.

#[local] Open Scope string_scope.
#[local] Open Scope list_scope.
#[local] Open Scope Z_scope.
#[local] Opaque bounded_continual_seed_set.

(** * The lane *)

(** The score rows and the live leases, by member and validator. *)
Record Lane := {
  rows : list ConfirmationScore;
  leases : list ((Z * string) * Z)
}.

(** The entry of [_live_retest_leases] for one member. *)
Definition member_leases (l : Lane) (m : Z) : Leases :=
  omap (λ ks : (Z * string) * Z, if decide (ks.1.1 = m) then Some (ks.1.2, Some ks.2) else None) (leases l).

Definition close_lease (key : Z * string) (l : list ((Z * string) * Z)) : list ((Z * string) * Z) :=
  filter (λ ks, ks.1 ≠ key) l.

Section lane.
Context {L : Libm} {SH : Sha256}.
Context (champion version : Z) (wave cohort : list Z) (p : Planning) (scope : option Z → bool).

(** What a planner reads of a lane; what else it reads may be anything. *)
Definition reads (l : Lane) (anchor : Planning) (excluded : bool) (issues : Z → list (Z * Z)) : PlanReads := {|
  score_rows := rows l; in_season := scope; reign_planning := anchor;
  entrant_excluded := excluded; first_retest_issue_by_seed := issues |}.

Definition member (m : Z) : Prop := m ∈ cohort ∨ m ∈ wave.

(** The seeds a member has run. *)
Definition run_by (l : Lane) (m : Z) : list Z := held (reads l LEGACY_PLANNING false (λ _, [])) version m.

(** A row that counts as a run of a member. *)
Definition counts (r : ConfirmationScore) : Prop :=
  row_agent r ∈ cohort ++ wave ∧ row_version r = version ∧ row_voided r = false ∧ scope (row_season r) = true.
#[local] Instance counts_dec r : Decision (counts r).
Proof. unfold counts. apply _. Defined.

(** What a step is: a report, which is paid for, a row that arrives from
    elsewhere, or neither. *)
Inductive Kind := Quiet | Paid | Other (r : ConfirmationScore).

(** One transaction of the lane.  A row from elsewhere may be any: a score of
    another agent or version, or a counted one of a member, such as
    [mirror_season_seeded_score] writes for a quorum score on a season's seed,
    leased here or not. *)
Inductive step (l : Lane) : Kind → Lane → Prop :=
  | Claim m hotkey anchor excluded issues window duel_history pending seeds s :
      member m →
      _top5_confirmation_seed_plan (reads l anchor excluded issues) champion m wave cohort version (Some p)
        window None duel_history pending = Ok seeds →
      _claimable_confirmation_seed seeds (member_leases l m) hotkey = Some s →
      step l Quiet {| rows := rows l; leases := dict_set (m, hotkey) s (leases l) |}
  | Expire key :
      step l Quiet {| rows := rows l; leases := close_lease key (leases l) |}
  | Report m hotkey s r :
      dict_get (m, hotkey) (leases l) = Some s →
      row_agent r = m → row_seed r = s → row_version r = version → row_voided r = false →
      scope (row_season r) = true →
      step l Paid {| rows := rows l ++ [r]; leases := close_lease (m, hotkey) (leases l) |}
  | Elsewhere r : step l (Other r) {| rows := rows l ++ [r]; leases := leases l |}.

(** A run, with the number of its reports and the rows from elsewhere. *)
Inductive runs (l : Lane) : nat → list ConfirmationScore → Lane → Prop :=
  | Stop : runs l 0 [] l
  | Next n others kind l1 l2 :
      runs l n others l1 → step l1 kind l2 →
      runs l (match kind with Paid => S n | _ => n end)
        (match kind with Other r => others ++ [r] | _ => others end) l2.

(** * Leases *)

Lemma member_leases_get l m hotkey :
  dict_get hotkey (member_leases l m) = Some <$> dict_get (m, hotkey) (leases l).
Proof.
  unfold member_leases. induction (leases l) as [|[[a h] s] ls IH]; [done|]. cbn.
  destruct (decide (a = m)) as [->|Hne]; cbn.
  - destruct (decide (hotkey = h)) as [->|Hne']; [by rewrite decide_True|]. rewrite decide_False by congruence. exact IH.
  - rewrite decide_False by congruence. exact IH.
Qed.

Lemma member_leases_seed l m os :
  os ∈ (member_leases l m).*2 ↔ ∃ hotkey s, os = Some s ∧ ((m, hotkey), s) ∈ leases l.
Proof.
  rewrite list_elem_of_fmap. unfold member_leases. setoid_rewrite list_elem_of_omap. split.
  - intros ([h o] & -> & [[a h'] s] & Hin & H). cbn in H. case_decide; [|done]. injection H as -> <-. subst. eauto.
  - intros (h & s & -> & Hin). exists (h, Some s). split; [done|]. exists ((m, h), s). split; [done|]. cbn.
    by rewrite decide_True.
Qed.

Lemma close_lease_get key l k : dict_get k (close_lease key l) = if decide (k = key) then None else dict_get k l.
Proof.
  unfold close_lease. induction l as [|[k' s] l IH]; [by case_decide|]. rewrite filter_cons. cbn.
  destruct (decide (k' = key)) as [->|Hne].
  - rewrite decide_False by (intros H; by apply H). rewrite IH.
    destruct (decide (k = key)); [done|]. by destruct (decide (k = key)).
  - rewrite decide_True by done. cbn. rewrite IH. destruct (decide (k = k')) as [->|]; [|done].
    by rewrite decide_False.
Qed.

(** What a validator is handed: its own lease, or a planned seed that no other
    validator runs for that member. *)
Lemma claimable_spec l m hotkey seeds s : NoDup (leases l).*1 →
  _claimable_confirmation_seed seeds (member_leases l m) hotkey = Some s →
  dict_get (m, hotkey) (leases l) = Some s ∨
  (s ∈ seeds ∧ ∀ h, dict_get (m, h) (leases l) ≠ Some s).
Proof.
  intros Hnd. unfold _claimable_confirmation_seed. rewrite member_leases_get.
  destruct (dict_get (m, hotkey) (leases l)) as [own|]; cbn; [by left|].
  case_bool_decide; [done|]. intros [Hs Hn]%head_filter_Some. right. split; [done|]. intros h Hh.
  apply Hn, member_leases_seed. exists h, s. split; [done|]. by apply dict_get_Some_elem.
Qed.

(** * The invariant *)

(** A run of [m] on [s] arrived from elsewhere. *)
Definition arrived (others : list ConfirmationScore) (m s : Z) : Prop :=
  ∃ r, r ∈ others ∧ counts r ∧ row_agent r = m ∧ row_seed r = s.

(** Every lease of the lane is for a member, for a seed of [universe] that no
    other validator runs for it, and that it has not run unless the result
    arrived from elsewhere. *)
Record working (universe : list Z) (others : list ConfirmationScore) (l : Lane) : Prop := {
  leases_keyed : NoDup (leases l).*1;
  leases_owed m h s : dict_get (m, h) (leases l) = Some s →
    member m ∧ s ∈ universe ∧ (s ∉ run_by l m ∨ arrived others m s);
  leases_apart m h h' s : dict_get (m, h) (leases l) = Some s → dict_get (m, h') (leases l) = Some s → h = h';
  wave_covered m s : m ∈ wave → s ∈ run_by l m → s ∈ universe
}.

(** What the lane may hand out: what the wave has run, and the first ten seeds of
    the champion's family; and the seeds that arrive from elsewhere. *)
Definition universe (l : Lane) : list Z :=
  remove_dups (concat (run_by l <$> wave) ++
    (if p.2 then omap (λ k, match crn_seed [uuid_text champion] version k p.1 with Ok s => Some s | _ => None end)
                   (range 10) else [])).

Definition arriving (others : list ConfirmationScore) : list Z :=
  remove_dups (row_seed <$> filter counts others).

Lemma anchored_universe l s : anchored champion version 10 p s → s ∈ universe l.
Proof.
  intros (Hp & k & Hk & E). unfold universe. rewrite elem_of_remove_dups, elem_of_app, Hp. right.
  apply list_elem_of_omap. exists k. split; [by apply elem_of_range|]. by rewrite E.
Qed.

Lemma run_by_app l r ls m s : s ∈ run_by {| rows := rows l ++ [r]; leases := ls |} m ↔
  s ∈ run_by l m ∨ (s = row_seed r ∧ row_agent r = m ∧ row_version r = version ∧ row_voided r = false ∧
    scope (row_season r) = true).
Proof.
  unfold run_by, held. cbn [reads score_rows rows]. rewrite filter_app, fmap_app, elem_of_app.
  assert (s ∈ row_seed <$> filter (counted (reads l LEGACY_PLANNING false (λ _, [])) version m) [r] ↔
    s = row_seed r ∧ counted (reads l LEGACY_PLANNING false (λ _, [])) version m r) as H; [|exact (or_iff_compat_l _ H)].
  rewrite filter_cons, filter_nil. case_decide as H; cbn [fmap list_fmap].
  - rewrite list_elem_of_singleton. tauto.
  - rewrite elem_of_nil. tauto.
Qed.

Lemma arrived_more others r m s : arrived others m s → arrived (others ++ [r]) m s.
Proof. intros (x & Hx & ?). exists x. split; [|done]. apply elem_of_app. by left. Qed.

(** The rows from elsewhere after a step. *)
Definition others_after (others : list ConfirmationScore) (kind : Kind) : list ConfirmationScore :=
  match kind with Other r => others ++ [r] | _ => others end.

Lemma claim_working u others l m hotkey anchor excluded issues window dh pending seeds s :
  (∀ s, anchored champion version 10 p s → s ∈ u) → working u others l → member m →
  _top5_confirmation_seed_plan (reads l anchor excluded issues) champion m wave cohort version (Some p)
    window None dh pending = Ok seeds →
  _claimable_confirmation_seed seeds (member_leases l m) hotkey = Some s →
  working u others {| rows := rows l; leases := dict_set (m, hotkey) s (leases l) |} ∧
  (dict_get (m, hotkey) (leases l) = Some s ∨ s ∉ run_by l m).
Proof.
  intros Hu [Hk Ho Ha Hw] Hm Hplan Hclaim. cbn in Hplan.
  apply wave_plan_owed in Hplan as (target & Ht & _ & Howed).
  apply claimable_spec in Hclaim as [Hown|[Hs Hfree]]; [| |done].
  - split; [|by left].
    assert (∀ k, dict_get k (dict_set (m, hotkey) s (leases l)) = dict_get k (leases l)) as E.
    { intros k. rewrite dict_get_set. case_decide as Hd; [by subst|done]. }
    split; cbn; [by apply NoDup_dict_set|..]; intros *; rewrite ?E; [apply Ho|apply Ha|apply Hw].
  - destruct (Howed s Hs) as [Hst Hsh]. split; [|by right].
    assert (s ∈ u) as Hsu.
    { destruct (wave_target_source _ _ _ _ _ _ _ Ht Hst) as [(w & Hw1 & Hw2)|]; [by apply (Hw w)|by apply Hu]. }
    clear Ht Howed Hst Hs. split; cbn; [by apply NoDup_dict_set| | |apply Hw].
    + intros m' h s'. rewrite dict_get_set. case_decide as Hd; [|apply Ho]. injection Hd as -> ->.
      intros [= <-]. exact (conj Hm (conj Hsu (or_introl Hsh))).
    + intros m' h h' s'. rewrite !dict_get_set. case_decide as Hd; case_decide as Hd'; [congruence|..|apply Ha].
      * injection Hd as -> ->. intros [= <-] H'. destruct (Hfree h' H').
      * injection Hd' as -> ->. intros H' [= <-]. destruct (Hfree h H').
Qed.

Lemma step_working u others l kind l' : (∀ s, anchored champion version 10 p s → s ∈ u) →
  (∀ r, kind = Other r → counts r → row_seed r ∈ u) →
  working u others l → step l kind l' → working u (others_after others kind) l'.
Proof.
  intros Hu Hnew Hwork. destruct 1 as
    [m hotkey anchor excluded issues window dh pending seeds s Hm Hplan Hclaim
    |key|m hotkey s r Hlease <- <- Hv Hvoid Hsc|r]; cbn [others_after].
  - exact (proj1 (claim_working u others l m hotkey anchor excluded issues window dh pending seeds s
      Hu Hwork Hm Hplan Hclaim)).
  - destruct Hwork as [Hk Ho Ha Hw]. split; cbn; [|intros m h s|intros m h h' s|apply Hw].
    + eapply sublist_NoDup; [exact Hk|]. apply fmap_sublist, sublist_filter.
    + rewrite close_lease_get. case_decide; [done|apply Ho].
    + rewrite !close_lease_get. case_decide; [done|]. case_decide; [done|]. apply Ha.
  - destruct Hwork as [Hk Ho Ha Hw].
    assert (∀ m s, s ∈ run_by {| rows := rows l ++ [r]; leases := close_lease (row_agent r, hotkey) (leases l) |} m →
      s ∈ run_by l m ∨ (s = row_seed r ∧ m = row_agent r)) as Hrun by (intros m s; rewrite run_by_app; naive_solver).
    split; cbn [leases].
    + eapply sublist_NoDup; [exact Hk|]. apply fmap_sublist, sublist_filter.
    + intros m h s. rewrite close_lease_get. case_decide as Hd; [done|]. intros Hs.
      destruct (Ho _ _ _ Hs) as (H1 & H2 & H3). split; [exact H1|]. split; [exact H2|].
      destruct H3 as [H3|H3]; [left|by right]. intros [H|[-> ->]]%Hrun; [done|].
      apply Hd. f_equal. by apply (Ha _ _ _ _ Hs).
    + intros m h h' s. rewrite !close_lease_get. case_decide; [done|]. case_decide; [done|]. apply Ha.
    + intros m s Hm [H|[-> ->]]%Hrun; [by apply (Hw m)|]. by destruct (Ho _ _ _ Hlease) as (_ & ? & _).
  - destruct Hwork as [Hk Ho Ha Hw]. split; cbn [leases]; [exact Hk| |exact Ha|].
    + intros m h s Hs. destruct (Ho _ _ _ Hs) as (H1 & H2 & H3). split; [exact H1|]. split; [exact H2|].
      destruct H3 as [H3|H3]; [|right; by apply arrived_more].
      destruct (decide (s ∈ run_by {| rows := rows l ++ [r]; leases := leases l |} m)) as [Hr|Hr]; [right|by left].
      apply run_by_app in Hr as [Hr|(-> & <- & E1 & E2 & E3)]; [done|]. exists r.
      split; [apply elem_of_app; right; by left|]. split; [|done]. split; [by apply elem_of_app|done].
    + intros m s Hm [H|(-> & <- & E1 & E2 & E3)]%run_by_app; [by apply (Hw m)|]. apply Hnew; [done|].
      split; [|done]. apply elem_of_app. by right.
Qed.

Lemma start_working u l : leases l = [] → (∀ s, s ∈ universe l → s ∈ u) → working u [] l.
Proof.
  intros E Hu. split; rewrite ?E; cbn; [constructor|done|done|]. intros m s Hm Hs. apply Hu. unfold universe.
  apply elem_of_remove_dups, elem_of_app. left. apply elem_of_concat. exists (run_by l m). split; [exact Hs|].
  by apply list_elem_of_fmap_2.
Qed.

Lemma runs_working u l n others l' : leases l = [] → (∀ s, s ∈ universe l → s ∈ u) →
  runs l n others l' → (∀ r, r ∈ others → counts r → row_seed r ∈ u) → working u others l'.
Proof.
  intros E Hu. induction 1 as [|n others kind l1 l2 _ IH Hstep]; [intros _; by apply start_working|].
  intros Hr. apply (step_working u others l1 kind l2); [|..|exact Hstep].
  - intros s Hs. by apply Hu, anchored_universe.
  - intros r -> Hc. apply Hr; [|exact Hc]. apply elem_of_app. right. by left.
  - apply IH. intros r Hin. apply Hr. destruct kind; try exact Hin. apply elem_of_app. by left.
Qed.

(** * The work that is left *)

Definition members : list Z := from_keys (cohort ++ wave).
Definition leased (l : Lane) (m s : Z) : Prop := Some s ∈ (member_leases l m).*2.
#[local] Instance leased_dec l m s : Decision (leased l m s).
Proof. unfold leased. apply _. Defined.

(** The seeds a report of the member may still be paid for: those it has not run,
    and those that are leased although their result arrived. *)
Definition payable (u : list Z) (l : Lane) (m : Z) : list Z :=
  filter (λ s, s ∉ run_by l m ∨ leased l m s) u.
Definition work_left (u : list Z) (l : Lane) : nat := sum_list_with (λ m, length (payable u l m)) members.

Lemma leased_get l m s : NoDup (leases l).*1 → leased l m s ↔ ∃ h, dict_get (m, h) (leases l) = Some s.
Proof.
  intros Hk. unfold leased. rewrite member_leases_seed. split.
  - intros (h & s' & [= <-] & Hin). exists h. by apply elem_dict_get.
  - intros (h & Hh%dict_get_Some_elem). by exists h, s.
Qed.

Lemma elem_of_members m : m ∈ members ↔ member m.
Proof. unfold members, member. by rewrite elem_of_from_keys, elem_of_app. Qed.

Lemma filter_length_le {A} (P Q : A → Prop) `{∀ x, Decision (P x)} `{∀ x, Decision (Q x)} (l : list A) :
  (∀ x, P x → Q x) → (length (filter P l) <= length (filter Q l))%nat.
Proof.
  intros HPQ. induction l as [|x l IH]; [done|]. rewrite !filter_cons.
  destruct (decide (P x)), (decide (Q x)); cbn; [lia|naive_solver|lia|lia].
Qed.

Lemma filter_length_lt {A} (P Q : A → Prop) `{∀ x, Decision (P x)} `{∀ x, Decision (Q x)} (l : list A) y :
  (∀ x, P x → Q x) → y ∈ l → Q y → ¬ P y → (length (filter P l) < length (filter Q l))%nat.
Proof.
  intros HPQ Hy HQ HP. induction l as [|x l IH]; [by apply elem_of_nil in Hy|]. rewrite !filter_cons.
  apply elem_of_cons in Hy as [->|Hy].
  - rewrite decide_False, decide_True by done. cbn. pose proof (filter_length_le P Q l HPQ). lia.
  - specialize (IH Hy). destruct (decide (P x)), (decide (Q x)); cbn; [lia|naive_solver|lia|lia].
Qed.

Lemma sum_list_le {A} (f g : A → nat) (l : list A) :
  (∀ x, x ∈ l → (f x <= g x)%nat) → (sum_list_with f l <= sum_list_with g l)%nat.
Proof.
  induction l as [|x l IH]; cbn; intros H; [lia|].
  pose proof (H x ltac:(left)). enough (sum_list_with f l <= sum_list_with g l)%nat by lia.
  apply IH. intros y Hy. apply H. by right.
Qed.

Lemma sum_list_lt {A} (f g : A → nat) (l : list A) y :
  (∀ x, x ∈ l → (f x <= g x)%nat) → y ∈ l → (f y < g y)%nat → (sum_list_with f l < sum_list_with g l)%nat.
Proof.
  induction l as [|x l IH]; cbn; intros H Hy Hlt; [by apply elem_of_nil in Hy|].
  apply elem_of_cons in Hy as [->|Hy].
  - enough (sum_list_with f l <= sum_list_with g l)%nat by lia. apply sum_list_le. intros z Hz. apply H. by right.
  - pose proof (H x ltac:(left)). enough (sum_list_with f l < sum_list_with g l)%nat by lia.
    apply IH; [|done|done]. intros z Hz. apply H. by right.
Qed.

Lemma payable_le u l l' m :
  (∀ s, s ∉ run_by l' m ∨ leased l' m s → s ∉ run_by l m ∨ leased l m s) →
  (length (payable u l' m) <= length (payable u l m))%nat.
Proof. apply filter_length_le. Qed.

Lemma run_by_leases l ls m : run_by {| rows := rows l; leases := ls |} m = run_by l m.
Proof. done. Qed.

(** A report does a piece of the work, and nothing undoes one. *)
Lemma step_work u others l kind l' : (∀ s, anchored champion version 10 p s → s ∈ u) →
  working u others l → step l kind l' →
  (work_left u l' + (match kind with Paid => 1 | _ => 0 end) <= work_left u l)%nat.
Proof.
  intros Hu Hwork. destruct 1 as [m hotkey anchor excluded issues window dh pending seeds s Hm Hplan Hclaim
    |key|m hotkey s r Hlease <- <- Hv Hvoid Hsc|r].
  - destruct (claim_working u others l m hotkey anchor excluded issues window dh pending seeds s
      Hu Hwork Hm Hplan Hclaim) as [Hwork' Hs]. clear Hplan Hclaim.
    rewrite Nat.add_0_r. apply sum_list_le. intros a _. apply payable_le. intros x [Hx|Hx]; [by left|].
    apply (leased_get _ _ _ (leases_keyed _ _ _ Hwork')) in Hx as [h Hh]. cbn [leases] in Hh. rewrite dict_get_set in Hh.
    case_decide as Hd; [|right; apply (leased_get _ _ _ (leases_keyed _ _ _ Hwork)); by exists h].
    injection Hd as -> ->. injection Hh as <-. destruct Hs as [Hs|Hs]; [right|by left].
    apply (leased_get _ _ _ (leases_keyed _ _ _ Hwork)). by exists hotkey.
  - assert (NoDup (close_lease key (leases l)).*1) as Hk.
    { eapply sublist_NoDup; [exact (leases_keyed _ _ _ Hwork)|]. apply fmap_sublist, sublist_filter. }
    rewrite Nat.add_0_r. apply sum_list_le. intros a _. apply payable_le. intros x [Hx|Hx]; [by left|right].
    apply (leased_get {| rows := rows l; leases := close_lease key (leases l) |} _ _ Hk) in Hx as [h Hh].
    cbn [leases] in Hh. rewrite close_lease_get in Hh. case_decide; [done|].
    apply (leased_get _ _ _ (leases_keyed _ _ _ Hwork)). by exists h.
  - destruct (leases_owed _ _ _ Hwork _ _ _ Hlease) as (Hm & Hsu & _).
    set (l' := {| rows := rows l ++ [r]; leases := close_lease (row_agent r, hotkey) (leases l) |}).
    assert (NoDup (leases l').*1) as Hk.
    { eapply sublist_NoDup; [exact (leases_keyed _ _ _ Hwork)|]. apply fmap_sublist, sublist_filter. }
    assert (∀ a x, x ∉ run_by l' a ∨ leased l' a x → x ∉ run_by l a ∨ leased l a x) as Hle.
    { intros a x [Hx|Hx]; [left; intros H; apply Hx, run_by_app; by left|right].
      apply (leased_get l' _ _ Hk) in Hx as [h Hh]. unfold l' in Hh. cbn [leases] in Hh. rewrite close_lease_get in Hh.
      case_decide; [done|]. apply (leased_get _ _ _ (leases_keyed _ _ _ Hwork)). by exists h. }
    rewrite Nat.add_1_r. apply Nat.le_succ_l. apply (sum_list_lt _ _ _ (row_agent r)).
    + intros m _. apply payable_le, Hle.
    + by apply elem_of_members.
    + apply (filter_length_lt _ _ _ (row_seed r)); [apply Hle|exact Hsu| |].
      * right. apply (leased_get _ _ _ (leases_keyed _ _ _ Hwork)). by exists hotkey.
      * intros [H|H]; [apply H, run_by_app; right; done|].
        apply (leased_get l' _ _ Hk) in H as [h Hh]. unfold l' in Hh. cbn [leases] in Hh. rewrite close_lease_get in Hh.
        case_decide as Hd; [done|]. apply Hd. f_equal. by apply (leases_apart _ _ _ Hwork _ _ _ _ Hh).
  - rewrite Nat.add_0_r. apply sum_list_le. intros m _. apply payable_le. intros x [Hx|Hx]; [left|by right].
    intros H. apply Hx, run_by_app. by left.
Qed.

Lemma runs_work u l n others l' : leases l = [] → (∀ s, s ∈ universe l → s ∈ u) →
  runs l n others l' → (∀ r, r ∈ others → counts r → row_seed r ∈ u) →
  (n + work_left u l' <= work_left u l)%nat.
Proof.
  intros E Hu. induction 1 as [|n others kind l1 l2 Hruns IH Hstep]; intros Hr; [lia|].
  assert (∀ r, r ∈ others → counts r → row_seed r ∈ u) as Hr1.
  { intros r Hin. apply Hr. destruct kind; try exact Hin. apply elem_of_app. by left. }
  pose proof (IH Hr1) as Hle.
  assert (work_left u l2 + (match kind with Paid => 1 | _ => 0 end) <= work_left u l1)%nat as Hs.
  { apply (step_work u others l1 kind l2); [|exact (runs_working u l n others l1 E Hu Hruns Hr1)|exact Hstep].
    intros s Hs. by apply Hu, anchored_universe. }
  destruct kind; lia.
Qed.

Lemma work_left_bound u l : (work_left u l <= length members * length u)%nat.
Proof.
  unfold work_left. induction members as [|m ms IH]; cbn; [lia|].
  assert (length (payable u l m) <= length u)%nat by apply length_filter. lia.
Qed.

Lemma universe_bound l : (length (universe l) <= length (remove_dups (concat (run_by l <$> wave))) + 10)%nat.
Proof.
  unfold universe. set (u := concat _). set (f := if p.2 then _ else _).
  assert (length f <= 10)%nat as Hf.
  { subst f. destruct p.2; [|cbn; lia].
    assert (∀ (g : Z → option Z) ks, (length (omap g ks) <= length ks)%nat) as Ho.
    { intros g ks. induction ks as [|k ks IH]; [done|]. cbn. destruct (g k); cbn; lia. }
    exact (Ho _ (range 10)). }
  clearbody u f. transitivity (length (remove_dups u ++ f)); [|rewrite length_app; lia].
  apply submseteq_length, NoDup_submseteq; [apply NoDup_remove_dups|]. intros s.
  rewrite elem_of_remove_dups, !elem_of_app, elem_of_remove_dups. done.
Qed.

(** C29: The continual lane does bounded work and pays for nothing twice. From
    a lane without live leases, however validators claim, fail and report and
    whatever results arrive from elsewhere, the number of reports never passes,
    for every member of the cohort, ten seeds plus those the wave had already run
    and those that arrived as counted results of members; a seed on lease is
    leased to one validator only, and is one its member has not run, unless that
    result arrived from elsewhere. So retests end while the wave, the reign and
    its block stay. The lane is that of a reign without season duels, in which no
    result is voided and every lease carries a seed. *)
Theorem retest_work_bounded l n others l' :
  leases l = [] → runs l n others l' →
  (n <= length members *
     (length (remove_dups (concat (run_by l <$> wave))) + 10 + length (arriving others)))%nat ∧
  ∀ m h s, dict_get (m, h) (leases l') = Some s →
    (s ∉ run_by l' m ∨ arrived others m s) ∧ ∀ h', dict_get (m, h') (leases l') = Some s → h' = h.
Proof.
  intros E Hruns. set (u := universe l ++ arriving others).
  assert (∀ s, s ∈ universe l → s ∈ u) as Hu by (intros s Hs; apply elem_of_app; by left).
  assert (∀ r, r ∈ others → counts r → row_seed r ∈ u) as Hr.
  { intros r Hin Hc. apply elem_of_app. right. apply elem_of_remove_dups, list_elem_of_fmap_2.
    apply list_elem_of_filter. done. }
  pose proof (runs_work u l n others l' E Hu Hruns Hr) as Hw. pose proof (work_left_bound u l) as Hb.
  pose proof (universe_bound l) as Hl. split.
  - unfold u in Hb at 2. rewrite length_app in Hb.
    pose proof (Nat.mul_le_mono_l _ _ (length members) (proj1 (Nat.add_le_mono_r _ _ (length (arriving others))) Hl)). lia.
  - intros m h s Hs. destruct (runs_working u l n others l' E Hu Hruns Hr) as [_ Ho Ha _].
    split; [by destruct (Ho _ _ _ Hs) as (_ & _ & ?)|]. intros h' Hs'. by apply (Ha m h' h s).
Qed.

(** * An idle lane *)

(** A window that holds no growth back. *)
Definition unpaced (window : option WaveWindow) : Prop :=
  match window with Some w => paced w = false | None => True end.

(** The member's plan is empty, whatever else its planner read. *)
Definition idle (l : Lane) (m : Z) : Prop :=
  ∃ anchor excluded issues window duel_history pending, unpaced window ∧
    _top5_confirmation_seed_plan (reads l anchor excluded issues) champion m wave cohort version (Some p)
      window None duel_history pending = Ok [].

Definition target (l : Lane) : result (list Z) :=
  wave_target (reads l LEGACY_PLANNING false (λ _, [])) champion wave version p.

(** What an empty plan says: no seed of the backlog is owed, and the next seed
    of the wave, if any, was run by the member. *)
Lemma idle_read l m t : wave ≠ [] → target l = Ok t → idle l m →
  (∀ s, s ∈ t → s ∉ run_by l m → ∀ a, member a → a ≠ m → s ∉ run_by l a) ∧
  ∀ s, head (filter (λ s, ¬ Forall (λ a, s ∈ run_by l a) wave) t) = Some s → s ∈ run_by l m.
Proof.
  intros Hne Ht (anchor & excluded & issues & window & dh & pending & Hw & H).
  cbn in H. apply wave_plan_read in H as (t' & Ht' & history & completed & Hh & Hc & H).
  assert (t' = t) as -> by (unfold target in Ht; assert (Ok t' = Ok t) as [= ->] by (rewrite <- Ht, <- Ht'; reflexivity); done).
  clear Ht Ht'. set (catchup := confirmation_catchup_seeds _ _ _ _) in *.
  destruct H as [[E Hnext]|(next & _ & E & _)]; [|destruct catchup; discriminate E]. split.
  - intros s Hs Hn a Ha Hne' Hr. assert (s ∈ catchup) as Hin; [|rewrite <- E in Hin; by apply elem_of_nil in Hin].
    apply catchup_spec. split_and!; [exact Hs| |].
    + intros Hx. apply Hn, (Hh m s); [|exact Hx]. auto.
    + exists a. split_and!; [|exact Hne'|].
      * apply elem_of_from_keys, elem_of_app. destruct Ha; auto.
      * apply (Hh a s); [|exact Hr]. destruct Ha; auto.
  - intros s Hs. assert (head (filter (λ s, s ∉ completed) t) = Some s) as Hs'.
    { rewrite <- Hs. f_equal. apply list_filter_iff. intros x. rewrite Hc, Forall_forall. tauto. }
    destruct (Hnext s Hs') as [Hm|[Hin|(w & -> & Hp & _)]]; [exact Hm| |].
    + rewrite <- E in Hin. by apply elem_of_nil in Hin.
    + cbn in Hw. congruence.
Qed.

(** C30: A lane that has nothing to hand out is done. For a wave that is not
    empty, when the plan of every member of the cohort is empty and no window
    holds growth back, every member has run every seed of the wave's target; the
    planner never starves a member:
    one that misses a target seed leaves some member with work. And if fresh
    seeds may be drawn, the block hash is one [crn_seed] accepts and no two of the
    champion's first ten replicates share a seed, the target holds at least eight
    seeds, so the whole cohort can be compared on eight common seeds. *)
Theorem idle_lane_is_complete l t :
  wave ≠ [] → target l = Ok t → (∀ m, member m → idle l m) →
  (∀ m s, member m → s ∈ t → s ∈ run_by l m) ∧
  (p.2 = true → (∀ h, p.1 = Some h → usable_hash h = true) →
   (∀ family, champion_anchored_seeds champion version 10 p.1 = Ok family → NoDup family) →
   8 <= Z.of_nat (length t)).
Proof.
  intros Hne Ht Hidle.
  assert (∀ s a, s ∈ t → a ∈ wave → s ∈ run_by l a) as Hwave.
  { destruct (head (filter (λ s, ¬ Forall (λ a, s ∈ run_by l a) wave) t)) as [next|] eqn:En.
    - exfalso. pose proof (head_filter_Some _ _ _ En) as [_ Hn]. apply Hn, Forall_forall. intros a Ha.
      destruct (idle_read l a t Hne Ht) as [_ H]; [apply Hidle; by right|]. exact (H next En).
    - intros s a Hs Ha. destruct (decide (Forall (λ a, s ∈ run_by l a) wave)) as [Hall|Hn].
      + by eapply Forall_forall in Hall.
      + exfalso. apply head_None in En. assert (s ∈ filter (λ s, ¬ Forall (λ a, s ∈ run_by l a) wave) t) as Hin
          by (apply list_elem_of_filter; split; [exact Hn|exact Hs]).
        rewrite En in Hin. by apply elem_of_nil in Hin. }
  split.
  - intros m s Hm Hs. destruct (decide (s ∈ run_by l m)) as [|Hn]; [done|exfalso].
    assert (∃ a, a ∈ wave) as [a Ha].
    { clear -Hne. destruct wave as [|a w]; [done|]. exists a. by left. }
    destruct (idle_read l m t Hne Ht (Hidle m Hm)) as [H _].
    apply (H s Hs Hn a); [by right| |exact (Hwave s a Hs Ha)]. intros ->. exact (Hn (Hwave s m Hs Ha)).
  - intros Hp Hu Hf. unfold target, wave_target in Ht. destruct p as [block fresh]. cbn in Hp, Hu, Hf. subst fresh.
    by apply bounded_set_deep in Ht.
Qed.
End lane.

(** * Concrete instances *)

Definition sample_row (agent seed : Z) : ConfirmationScore := {|
  row_agent := agent; row_version := 13; row_seed := seed; row_composite := flit 1 2;
  row_season := None; row_voided := false |}.
Definition fresh_lane : Lane := {| rows := []; leases := [] |}.
Definition leased_lane : Lane := {| rows := []; leases := [((2, "v1"), sample_seed)] |}.
(** Both members have run the eight seeds. *)
Definition done_lane : Lane := {|
  rows := (sample_row 1 <$> sample_family) ++ (sample_row 2 <$> sample_family); leases := [] |}.

(** A claim; a quorum score of the same member on the same seed arrives; then the
    report. *)
Definition arrived_row : ConfirmationScore := sample_row 2 sample_seed.
Definition arrived_lane : Lane := {| rows := [arrived_row]; leases := [((2, "v1"), sample_seed)] |}.
Definition paid_lane : Lane := {| rows := [arrived_row; sample_row 2 sample_seed]; leases := [] |}.

#[local] Notation sample_runs := (runs (L := sample_libm) (SH := sample_digest) 1 13 [1; 2] [] (planning sample_anchor)
  (λ _, true) fresh_lane).
#[local] Notation sample_step := (step (L := sample_libm) (SH := sample_digest) 1 13 [1; 2] [] (planning sample_anchor)
  (λ _, true)).

Lemma sample_claim : sample_step fresh_lane Quiet leased_lane.
Proof.
  refine (Claim (L := sample_libm) (SH := sample_digest) 1 13 [1; 2] [] (planning sample_anchor) (λ _, true)
    fresh_lane 2 "v1" LEGACY_PLANNING false (λ _, []) None None [] [sample_seed] sample_seed _ _ _).
  - right. right. by left.
  - vm_compute. reflexivity.
  - vm_compute. reflexivity.
Qed.
Lemma sample_report : sample_step arrived_lane Paid paid_lane.
Proof.
  refine (Report (L := sample_libm) (SH := sample_digest) 1 13 [1; 2] [] (planning sample_anchor) (λ _, true)
    arrived_lane 2 "v1" sample_seed (sample_row 2 sample_seed) _ _ _ _ _ _); vm_compute; reflexivity.
Qed.

Lemma sample_run : sample_runs 1 [arrived_row] paid_lane.
Proof.
  apply (Next _ _ _ _ _ _ _ 0 [arrived_row] Paid arrived_lane paid_lane); [|exact sample_report].
  apply (Next _ _ _ _ _ _ _ 0 [] (Other arrived_row) leased_lane arrived_lane); [|apply Elsewhere].
  apply (Next _ _ _ _ _ _ _ 0 [] Quiet fresh_lane leased_lane); [constructor|exact sample_claim].
Qed.

Lemma retest_work_bounded_witness : (1 <= 2 * (0 + 10 + 1))%nat.
Proof.
  exact (proj1 (retest_work_bounded (L := sample_libm) (SH := sample_digest) 1 13 [1; 2] [] (planning sample_anchor)
    (λ _, true) fresh_lane 1 [arrived_row] paid_lane eq_refl sample_run)).
Defined.

Lemma idle_lane_is_complete_witness :
  sample_seed ∈ run_by 13 (λ _, true) done_lane 2 ∧ 8 <= Z.of_nat (length sample_family).
Proof.
  assert (∀ m, member [1; 2] [] m →
    idle (L := sample_libm) (SH := sample_digest) 1 13 [1; 2] [] (planning sample_anchor) (λ _, true) done_lane m) as Hidle.
  { intros m [Hm|Hm]; [by apply elem_of_nil in Hm|].
    exists LEGACY_PLANNING, false, (λ _, []), None, None, []. split; [exact I|].
    apply elem_of_cons in Hm as [->|Hm]; [vm_compute; reflexivity|].
    apply list_elem_of_singleton in Hm as ->. vm_compute. reflexivity. }
  assert (target (L := sample_libm) (SH := sample_digest) 1 13 [1; 2] (planning sample_anchor) (λ _, true) done_lane
    = Ok sample_family) as Ht by (vm_compute; reflexivity).
  destruct (idle_lane_is_complete (L := sample_libm) (SH := sample_digest) 1 13 [1; 2] [] (planning sample_anchor)
    (λ _, true) done_lane sample_family ltac:(discriminate) Ht Hidle) as [Hrun Hlen]. split.
  - apply Hrun; [right; right; by left|by left].
  - apply Hlen.
    + reflexivity.
    + intros h Hh. cbn in Hh. injection Hh as <-. vm_compute. reflexivity.
    + intros family Hf. apply (bool_decide_unpack _). vm_compute in Hf. injection Hf as <-. vm_compute. reflexivity.
Defined.
